(* ===== verification/_CoqProject ===== *)
-Q . S2P
Prelude.v
GoStrings.v
GoTime.v
Term.v
FtnAddr.v
FtnCharset.v
FtnPacket.v
FtnMessage.v
StoreDB.v
StoreUsers.v
StoreMail.v
StoreBoards.v
StoreEcho.v
StoreInv.v
StoreDemo.v
StoreOk.v
StoreMailSpec.v
StoreMailViews.v
StoreAccountSpec.v
Statements.v
StoreBoardSpec.v
Telnet.v
GoFiles.v
FtnOutbound.v
Toss.v
TossSpec.v
Limits.v
Ui.v
Nodes.v
Chat.v
WebAnsi.v
FileLink.v
GoMime.v
Smtp.v
StoreOpen.v
Mailer.v
Server.v
MailMessage.v
FtnTools.v
TossCmd.v
ServerSpec.v
Session.v
Editor.v
SessionSpec.v
Terminals.v
TerminalSpec.v
Screens.v
Login.v
Compose.v
MailMenu.v
Community.v
BoardsMenu.v
EchoMenu.v
FilesMenu.v
Download.v
Settings.v
SysopMenu.v
Doors.v
DoorExample.v
Process.v
BoarMain.v
DoorsMenu.v
ChatRoom.v
MainMenu.v
Demo.v
MenuSpec.v
AreaSpec.v
SystemSpec.v
CallSpec.v
ConfineSpec.v
NetmailSpec.v
LoginSpec.v
InputSpec.v
Accept.v
AcceptSpec.v
Transports.v
Web.v
WebTable.v
WebPages.v
WebSpec.v
