(* ===== verification/Prelude.v ===== *)
(** * Boar BBS: the verification development

    Boar is a bulletin board in Go: callers come by Telnet or SSH, read and write mail and posts kept in an SQLite
    database, chat, and exchange FidoNet mail and files with other systems. This development models the parts that
    decide what is stored, what is shown and what is sent, as executable functions translated from [src/internal], and
    proves what makes them correct. Function names are the source's; a method [(t T) F] is [F], or [T_F] where the name
    is taken.

    ** The parts

    Go itself. [Prelude] (bytes, results, lists), [GoStrings] ([strings], [strconv], [unicode/utf8]), [GoTime] (civil
    dates), [GoFiles] ([path/filepath] and a file system: regular files by path). A Go string is a list of bytes in [0,
    256), a rune and an [int] are integers, an error is the left of [result]. What the Go library computes from tables
    or by cryptography is the interface of a class: [UnicodeTables] (simple case mapping), [FoldTables] (case folding),
    [Crypto] (PBKDF2, SHA-256, SHA-1), [MailParser] ([net/mail]), [ZipReader], [Hmac], [NetAddr] ([net.ParseIP]); what
    other programs and third-party libraries do is a class too: [SSHTransport], [SSHWire], [SSHLib], [HostKeys]
    (golang.org/x/crypto/ssh), [Zmodem], [SQLite] (the SQL of a migration), [Relay] (the mail relay), [Disk] (which
    system calls fail), [WebWorld] (random tokens, templates), [DoorWorld]; the configuration is [BBS]; every theorem
    holds for any instance, and the witnesses use concrete ones.

    Terminal text, [internal/term]: [Term]. Character sets, sanitising, pipe codes, wrapping, ANSI art.

    FidoNet, [internal/ftn]: [FtnAddr] (addr.go, route.go), [FtnCharset] (charset.go), [FtnPacket] (packet.go),
    [FtnMessage] (message.go), [FtnOutbound] (bso.go, inbound.go). Packets are byte lists, and reading one consumes the
    list; [ParseMessage] and [Pack] convert between a packed and a parsed message. [Queue] returns the sequence of
    file-system states it passes through, so that what a mailer may see in between is part of the statement.

    The store, [internal/store]: [StoreDB] (db.go, schema.go: a table is a list of rows in the order of ids, an
    operation is [DB -> result store_error (A * DB)], which is the transaction that rolls back), [StoreUsers] (users.go,
    validate.go, password.go, blocks.go, sshkeys.go, email.go), [StoreOpen] (opening and upgrading the file),
    [StoreMail] (messages.go), [StoreBoards] (boards.go, community.go, events.go, throttle.go), [StoreEcho] (echo.go,
    netmail.go, files.go). [StoreInv] defines the consistency of the database ([db_ok]) and the states its operations
    reach ([reachable]); [StoreOk] proves that every operation keeps it; [Statements] has the operations that are no
    transaction, statement by statement; [StoreDemo] is a small concrete board for the witnesses.

    The tosser, [internal/ftntoss]: [Toss] (toss.go, tic.go), over the file system, the store and the packets; every
    system call that moves a file may fail.

    The server, [internal/telnet] and [internal/bbs]: [Telnet] (conn.go), [Limits] (limiter.go, connlimit.go,
    backoff.go), [Nodes] (node.go), [Chat] (chat.go), [Server] (server.go, admin.go, and what approval.go and email.go
    do without a session). What every session and the web pages share is the record [Server]; a procedure of the server
    is a sequence of critical sections ([atom]) between which the other goroutines run, as a list of functions that the
    theorems quantify over.

    A caller's session, [internal/bbs]: the monad [M] of [Session] (session.go, input.go, the printing half of ui.go)
    over the caller's state and the shared server; its input is a script of keys, resizes, wake-ups and the hang-up, its
    output a byte string, and an error that unwinds the code's stack is the left of the result. [Ui] and [Screens]
    (ui.go, screens.go, customart.go) draw; [Editor] (editor.go, terminal.go), [Login] (login.go, approval.go,
    email.go), [Compose] and [MailMenu] (compose.go, mail.go), [Community] (community.go, the lists of menu.go),
    [BoardsMenu] (boards.go), [EchoMenu] (echo.go, netmail.go), [FilesMenu] (files.go), [Download] (zmodem.go),
    [Settings] (settings.go, sshkeys.go, email.go), [SysopMenu] (sysop.go, sysop_users.go, approval.go), [DoorsMenu]
    (doors.go), [ChatRoom] (chatui.go) are its menus, and [MainMenu] is the main menu, the session from login to goodbye
    ([session_run]) and the call around it ([serveCaller]). [Demo] has instances of the parameters and a whole call that
    runs by computation.

    The transports: [Terminals] (sshterm.go, input.go: the goroutines between the network and the session, as partial
    functions that a step relation interleaves, over a class [Terminal] that both transports implement), [Accept]
    (server.go: the accept loops, the goroutine per connection and the one that hangs up on everybody, as events on one
    shared state), [Transports] (ssh.go, ftn.go, Telnet's way to [serveCaller]).

    Around the server: [Mailer] (the queue of internal/mailer), [GoMime], [Smtp] and [MailMessage] (mailer.go: the
    message, and the dialogue with a relay that may answer anything), [Doors] and [Process] (internal/doors:
    configuration, drop files, placeholders; starting a program and the goroutines around it), [FileLink]
    (internal/filelink). The sysop's web interface, internal/web: [Web] (web.go: sessions, forms), [WebPages] (pages.go:
    a handler per route, a function from a request to a response over the shared server), [WebAnsi] (the preview of art,
    ansi.go). The commands: [BoarMain] (cmd/boar), [FtnTools] and [TossCmd] (cmd/boar-ftn), and [DoorExample]
    (cmd/boar-door-example, a whole door, from its input to what it writes).

    ** What the theorems show

    The store keeps its database consistent in every reachable state (StoreOk); its message rows with two deletion flags
    implement one mailbox per user, operation by operation, refusals included, and nothing of another mailbox shows
    (StoreMailSpec, StoreMailViews); rights,
    passwords and confirmation codes change only as they should (StoreAccountSpec); boards count what is unread
    (StoreBoardSpec); echomail is stored once (StoreBoardSpec). The operations of several statements are what the
    development takes them for when nobody interferes, and keep the database consistent in every interleaving of their
    statements but for two clauses (Statements). Packets, messages, addresses, dates, SEEN-BY lines and character sets
    survive being written and read (FtnPacket, FtnMessage, FtnAddr, FtnCharset, Term). The outbound never shows a
    half-written packet and never mixes up two addresses (FtnOutbound). Tossing loses no mail, at no moment and
    whatever system call fails, and lets a stranger leave netmail for the node only; a file echo stays in its directory
    (TossSpec); moving a file into it loses nothing, whatever fails ([TossSpec.Moving]). A netmail that a caller sends arrives on the board it is for as the
    sender's board keeps it: composed, packed, queued, read, parsed and stored (NetmailSpec). A caller's text is shown
    verbatim, and panels keep their width (Term). Telnet delivers what was written and cannot be drawn into a
    negotiation loop (Telnet). The limits hold in every interleaving of the callers (Limits), nodes get distinct numbers
    and no notice to a caller is lost or stranded (Nodes), and the chat hub is a roster of bounded queues in which
    nobody hears whom they have blocked (Chat).

    About whole calls, whatever is typed and whatever the other goroutines do in between ([SessionSpec], [ServerSpec]
    have the rules; [MenuSpec], [AreaSpec], [SystemSpec] apply them to each procedure): every call ends if the
    doors and transfers it runs do, and acts for its own account only (CallSpec); a caller who is no sysop leaves everybody else's
    things as they were (ConfineSpec); nobody counts as logged in without having proved, in that
    very call, who they are (LoginSpec); what is
    typed is what is read (InputSpec); the web pages' operations need a sysop, and the web login gives nothing away
    (ServerSpec).

    The web interface: a request changes nothing without a live session and, for a form, its token, and acts for that
    session's account (WebSpec); the table of sessions is an ideal one with lifetimes (WebTable). The transports: over
    SSH what is typed arrives in order, bounded and completely, and no goroutine outlives a closed terminal
    (TerminalSpec); a session has an account's name from the start only by a key that the store
    knows as that account's during the handshake (Transports); when the server goes
    down, everybody is hung up on, it ends, and nothing is left (AcceptSpec). Emails accepted are sent or given up in
    order (Mailer), say what was meant and are private on the way (MailMessage); drop files have one line per value
    (Doors), doors end in time, unless a child outlives the program, and [Process.Start_descriptors] says what stays open
    when one has not started (Process), and download links
    are served only as signed, below their root (FileLink). Netmail in transit is forwarded once or stays where it is
    (FtnTools). An upgrade of the database may stop anywhere (StoreOpen), and a program that gets to run has a
    configuration that the rest can rely on (BoarMain). While a file is sent, each byte the caller's program answers has
    one reader, and a download is reported as the library reported it (Download). The example door greets a caller by
    the handle of their account, reads what is typed, and ends (DoorExample); tossing by hand stores no netmail
    (TossCmd).

    ** Fuel and bounds

    Loops over input are structural where the code consumes it one item at a time. Where it is not, the fuel is what is
    left to read plus one (for digits, a bound on their number), and it is shown never to be used up: [ReadByte_total]
    for Telnet, [read_messages_fuel] for packets, [digits_spec] for numbers. The loops of the session get one more turn
    than there are inputs left, since each turn reads a key or ends; [call_ends] says that no call ever runs out of it.
    Machine integers are kept at their width where the code depends on it: the 16-bit fields of packets, the 32-bit CRC,
    the fields that [ParseAddr] bounds; counters and row ids are unbounded integers.

    ** What is not modelled

    In the theorems about sessions and the server an operation of the store is one step; [Statements] says what is left
    of that for those that are no transaction. The clocks themselves: a deadline, the idle and the login timer are
    events that may come at any time. The SSH handshake and the Zmodem protocol (golang.org/x/crypto/ssh and an external
    library); TLS; what a door's program does; parsing the command line; serving HTTP, its headers and cookie
    attributes, and html/template's output (net/http escapes and frames it); SQLite's files; logging. The session's
    theorems take the end of a door's run as given ([DoorWorld] is a finite list of events): [Process] shows when it is.
    I/O errors of the disk and the database are not modelled, save those the code handles in a way a theorem speaks of. *)

From Stdlib Require Import Ascii String ZArith Lia.
From stdpp Require Import base tactics list gmap strings.

(** ** Bytes and text

    A Go [string] or [[]byte] is a list of bytes, each byte an integer in
    [0, 256).  A rune is an integer too.  [str "..."] and [ch "c"] evaluate
    the bytes of a literal when the file is parsed, so a literal is a list of
    numerals that [lia] and [vm_compute] see through. *)

Abbreviation bytes := (list Z).

Definition byte_ok (b : Z) : Prop := (0 <= b < 256)%Z.

Abbreviation bytes_ok := (Forall byte_ok).

Definition byte_of_ascii (a : Ascii.ascii) : Z := Z.of_N (Ascii.N_of_ascii a).
Arguments byte_of_ascii a%_char.

Definition bytes_of_string (s : String.string) : bytes :=
  map byte_of_ascii (String.list_ascii_of_string s).
Arguments bytes_of_string s%_string.

Abbreviation ch c :=
  (ltac:(let v := eval vm_compute in (byte_of_ascii c) in exact v)) (only parsing).
Abbreviation str s :=
  (ltac:(let v := eval vm_compute in (bytes_of_string s) in exact v)) (only parsing).

(** [len s] is Go's [len]: an [int]. *)
Definition len {A} (s : list A) : Z := Z.of_nat (length s).

(** Go's [s[a:b]] and [s[a:]], for indices the code has checked. *)
Definition slice {A} (s : list A) (a b : Z) : list A :=
  take (Z.to_nat (b - a)) (drop (Z.to_nat a) s).
Definition slice_from {A} (s : list A) (a : Z) : list A := drop (Z.to_nat a) s.
Definition slice_to {A} (s : list A) (b : Z) : list A := take (Z.to_nat b) s.

(** ** Results

    A Go function that returns [(T, error)] is a [result E T]; callers always
    look at the error first, so the value beside a non-nil error is dropped. *)

Inductive result (E A : Type) : Type :=
  | Ok (a : A)
  | Err (e : E).
Arguments Ok {E A} a.
Arguments Err {E A} e.

Global Instance result_ret E : MRet (result E) := fun A a => Ok a.
Global Instance result_bind E : MBind (result E) :=
  fun A B f m => match m with Ok a => f a | Err e => Err e end.
Global Instance result_map E : FMap (result E) :=
  fun A B f m => match m with Ok a => Ok (f a) | Err e => Err e end.

Definition is_ok {E A} (r : result E A) : bool :=
  match r with Ok _ => true | Err _ => false end.

(** [guard_res b e] is the early return [if !b { return e }]. *)
Definition guard_res {E} (b : bool) (e : E) : result E unit :=
  if b then Ok tt else Err e.

Global Instance result_eq_dec E A `{EqDecision E, EqDecision A} : EqDecision (result E A).
Proof. solve_decision. Defined.

Section result_lemmas.
Context {E A B : Type}.

Lemma bind_Ok (m : result E A) (f : A -> result E B) b :
  (m ≫= f) = Ok b <-> exists a, m = Ok a /\ f a = Ok b.
Proof. destruct m; cbn; naive_solver. Qed.

Lemma bind_Err (m : result E A) (f : A -> result E B) e :
  (m ≫= f) = Err e <-> m = Err e \/ exists a, m = Ok a /\ f a = Err e.
Proof. destruct m; cbn; naive_solver. Qed.

Lemma guard_res_Ok (b : bool) (e : E) u : guard_res b e = Ok u <-> b = true.
Proof. destruct b, u; cbn; naive_solver. Qed.

Lemma guard_res_Err (b : bool) (e e' : E) :
  guard_res b e = Err e' <-> b = false /\ e = e'.
Proof. destruct b; cbn; naive_solver. Qed.
End result_lemmas.

(** ** Automation

    [simp_res] inverts equations between results; [case_match_all] splits
    every [match] and [if] of the goal and hypotheses. *)

Ltac simp_res :=
  repeat match goal with
  | H : (_ ≫= _) = Ok _ |- _ => apply bind_Ok in H as (? & ? & ?)
  | H : guard_res _ _ = Ok _ |- _ => apply guard_res_Ok in H
  | H : Ok _ = Ok _ |- _ => injection H as H; subst
  | H : Err _ = Err _ |- _ => injection H as H; subst
  | H : mret _ = Ok _ |- _ => cbv [mret result_ret] in H
  | H : mret _ = Err _ |- _ => cbv [mret result_ret] in H
  | H : Ok _ = Err _ |- _ => discriminate H
  | H : Err _ = Ok _ |- _ => discriminate H
  | H : _ /\ _ |- _ => destruct H
  end; subst.

Ltac case_match_in H :=
  match type of H with
  | context [match ?x with _ => _ end] => destruct x eqn:?
  end.

(** [lia] with division and remainder by constants. *)
Ltac dlia := Z.div_mod_to_equations; lia.

Ltac split_and_all := repeat match goal with H : _ /\ _ |- _ => destruct H | |- _ /\ _ => split end.

(** Booleans to propositions, for the guards of the code. *)
Ltac bool_prop :=
  repeat match goal with
  | H : (_ && _)%bool = true |- _ => apply andb_prop in H as [? ?]
  | H : (_ || _)%bool = false |- _ => apply orb_false_elim in H as [? ?]
  | H : negb _ = true |- _ => apply Bool.negb_true_iff in H
  | H : negb _ = false |- _ => apply Bool.negb_false_iff in H
  | H : (_ =? _)%Z = true |- _ => apply Z.eqb_eq in H
  | H : (_ =? _)%Z = false |- _ => apply Z.eqb_neq in H
  | H : (_ <=? _)%Z = true |- _ => apply Z.leb_le in H
  | H : (_ <=? _)%Z = false |- _ => apply Z.leb_gt in H
  | H : (_ <? _)%Z = true |- _ => apply Z.ltb_lt in H
  | H : (_ <? _)%Z = false |- _ => apply Z.ltb_ge in H
  | H : bool_decide _ = true |- _ => apply bool_decide_eq_true_1 in H
  | H : bool_decide _ = false |- _ => apply bool_decide_eq_false_1 in H
  end.

(** ** Lists *)

Section lists.
Context {A : Type}.
Implicit Types l : list A.

Lemma take_app_len l1 l2 n : n = length l1 -> take n (l1 ++ l2) = l1.
Proof. intros ->. apply take_app_length. Qed.

Lemma drop_app_len l1 l2 n : n = length l1 -> drop n (l1 ++ l2) = l2.
Proof. intros ->. apply drop_app_length. Qed.

Lemma len_app l1 l2 : len (l1 ++ l2) = (len l1 + len l2)%Z.
Proof. unfold len. rewrite length_app. lia. Qed.

Lemma len_cons x l : len (x :: l) = (1 + len l)%Z.
Proof. unfold len. cbn [length]. lia. Qed.

Lemma len_nil : len ([] : list A) = 0%Z.
Proof. reflexivity. Qed.

Lemma len_nonneg l : (0 <= len l)%Z.
Proof. unfold len. lia. Qed.

Lemma len_fmap {B} (f : A -> B) l : len (f <$> l) = len l.
Proof. unfold len. by rewrite length_fmap. Qed.

(** Slices at the place of a separator. *)
Lemma slice_to_app l1 l2 i : i = len l1 -> slice_to (l1 ++ l2) i = l1.
Proof. intros ->. unfold slice_to, len. rewrite Nat2Z.id. apply take_app_length. Qed.

Lemma slice_from_app l1 l2 i : i = len l1 -> slice_from (l1 ++ l2) i = l2.
Proof. intros ->. unfold slice_from, len. rewrite Nat2Z.id. apply drop_app_length. Qed.

Lemma slice_from_cons l1 c l2 i : i = (len l1 + 1)%Z -> slice_from (l1 ++ c :: l2) i = l2.
Proof. intros ->. rewrite cons_middle, app_assoc. apply slice_from_app. rewrite len_app. reflexivity. Qed.

Lemma slice_app l1 l2 l3 i j : i = len l1 -> j = (len l1 + len l2)%Z -> slice (l1 ++ l2 ++ l3) i j = l2.
Proof.
  intros -> ->. unfold slice, len. rewrite Nat2Z.id, drop_app_length.
  apply take_app_len. lia.
Qed.
End lists.

Create HintDb boar discriminated.
#[export] Hint Resolve len_nonneg : boar.
Create Rewrite HintDb boar_len.
#[export] Hint Rewrite @len_app @len_cons @len_nil : boar_len.
