(* ===== verification/GoStrings.v ===== *)
(** * The string functions of Go that the program uses

    [strings], [strconv] and [unicode/utf8] as the program calls them: searching
    and cutting, splitting and joining, trimming and folding case, decimal and
    hexadecimal numbers, and UTF-8.  Each follows the documented behaviour of the
    Go standard library on arbitrary bytes, invalid UTF-8 included.  The simple
    case mappings of non-ASCII runes come from the Unicode tables; they are the
    interface [UnicodeTables]. *)

From Stdlib Require Import Ascii String ZArith Lia.
From stdpp Require Import base tactics list gmap strings.
From S2P Require Import Prelude.
Open Scope Z_scope.

(** ** Searching *)

Fixpoint index_byte (s : bytes) (c : Z) : Z :=
  match s with
  | [] => -1
  | b :: s' => if b =? c then 0
               else let i := index_byte s' c in if i <? 0 then -1 else 1 + i
  end.

Definition last_index_byte (s : bytes) (c : Z) : Z :=
  let i := index_byte (reverse s) c in
  if i <? 0 then -1 else len s - 1 - i.

Fixpoint has_prefix (s p : bytes) {struct p} : bool :=
  match p, s with
  | [], _ => true
  | _ :: _, [] => false
  | c :: p', b :: s' => (b =? c) && has_prefix s' p'
  end.

Definition has_suffix (s p : bytes) : bool := has_prefix (reverse s) (reverse p).

Fixpoint index_sub (s sub : bytes) : Z :=
  if has_prefix s sub then 0
  else match s with
       | [] => -1
       | _ :: s' => let i := index_sub s' sub in if i <? 0 then -1 else 1 + i
       end.

(** [strings.LastIndex] *)
Fixpoint last_index_sub (s sub : bytes) : Z :=
  let later := match s with [] => -1 | _ :: s' => last_index_sub s' sub end in
  if later <? 0 then (if has_prefix s sub then 0 else -1) else 1 + later.

Definition contains_byte (s : bytes) (c : Z) : bool := existsb (Z.eqb c) s.
Definition contains_any (s chars : bytes) : bool := existsb (contains_byte chars) s.

(** [strings.Cut] with a one-byte separator: before, after, found. *)
Fixpoint cut (s : bytes) (c : Z) : bytes * bytes * bool :=
  match s with
  | [] => ([], [], false)
  | b :: s' => if b =? c then ([], s', true)
               else let '(x, y, ok) := cut s' c in (b :: x, y, ok)
  end.

(** [strings.Split] with a one-byte separator. *)
Fixpoint split_byte (s : bytes) (c : Z) : list bytes :=
  match s with
  | [] => [[]]
  | b :: s' =>
      if b =? c then [] :: split_byte s' c
      else match split_byte s' c with
           | [] => [[b]]
           | l :: ls => (b :: l) :: ls
           end
  end.

Fixpoint join (ls : list bytes) (sep : bytes) : bytes :=
  match ls with
  | [] => []
  | [l] => l
  | l :: ls' => l ++ sep ++ join ls' sep
  end.

(** [strings.ReplaceAll] for a non-empty [old]; [skip] counts the bytes of a
    match still to be passed over. *)
Fixpoint replace_go (old new s : bytes) (skip : nat) : bytes :=
  match s with
  | [] => []
  | b :: s' =>
      match skip with
      | S k => replace_go old new s' k
      | O => if has_prefix s old then new ++ replace_go old new s' (length old - 1)
             else b :: replace_go old new s' 0
      end
  end.
Definition replace_all (s old new : bytes) : bytes := replace_go old new s 0.

(** ReplaceAll of one byte by nothing. *)
Definition remove_byte (s : bytes) (c : Z) : bytes := filter (fun b => b <> c) s.

(** ** Trimming *)

(** [strings.TrimRight(s, cutset)] and [TrimLeft], for ASCII cutsets. *)
Fixpoint trim_left (s cutset : bytes) : bytes :=
  match s with
  | [] => []
  | b :: s' => if contains_byte cutset b then trim_left s' cutset else s
  end.
Definition trim_right (s cutset : bytes) : bytes := reverse (trim_left (reverse s) cutset).
Definition trim (s cutset : bytes) : bytes := trim_right (trim_left s cutset) cutset.

(** The UTF-8 encodings of the runes of [unicode.IsSpace]. *)
Definition space_encodings : list bytes :=
  [ [9]; [10]; [11]; [12]; [13]; [32]; [194; 133]; [194; 160]; [225; 154; 128] ]
  ++ ((fun b => [226; 128; b]) <$> [128; 129; 130; 131; 132; 133; 134; 135; 136; 137; 138; 168; 169; 175])
  ++ [ [226; 129; 159]; [227; 128; 128] ].

(** The length of the first of the words [ws] that [s] starts with, or 0. *)
Fixpoint prefix_len (ws : list bytes) (s : bytes) : nat :=
  match ws with
  | [] => 0
  | w :: ws' => if has_prefix s w then length w else prefix_len ws' s
  end.

(** Drops leading words; [skip] passes over the bytes of a matched word. *)
Fixpoint drop_words_go (ws : list bytes) (s : bytes) (skip : nat) : bytes :=
  match s with
  | [] => []
  | _ :: s' =>
      match skip with
      | S k => drop_words_go ws s' k
      | O => match prefix_len ws s with
             | O => s
             | S k => drop_words_go ws s' k
             end
      end
  end.

Definition trim_space_left (s : bytes) : bytes := drop_words_go space_encodings s 0.
Definition trim_space_right (s : bytes) : bytes :=
  reverse (drop_words_go (reverse <$> space_encodings) (reverse s) 0).
Definition trim_space (s : bytes) : bytes := trim_space_right (trim_space_left s).

(** [strings.Fields]: the maximal runs without white space. *)
Definition push_field (cur : bytes) (fs : list bytes) : list bytes :=
  match cur with [] => fs | _ => reverse cur :: fs end.

Fixpoint fields_go (s cur : bytes) (skip : nat) : list bytes :=
  match s with
  | [] => push_field cur []
  | b :: s' =>
      match skip with
      | S k => fields_go s' cur k
      | O => match prefix_len space_encodings s with
             | O => fields_go s' (b :: cur) 0
             | S k => push_field cur (fields_go s' [] k)
             end
      end
  end.
Definition fields (s : bytes) : list bytes := fields_go s [] 0.

(** ** UTF-8 *)

Definition rune_error : Z := 65533.   (* U+FFFD *)

Definition valid_rune (r : Z) : bool :=
  ((0 <=? r) && (r <? 55296)) || ((57344 <=? r) && (r <=? 1114111)).

(** [utf8.AppendRune]: an invalid rune is written as U+FFFD. *)
Definition encode_rune (r : Z) : bytes :=
  if negb (valid_rune r) then [239; 191; 189]
  else if r <? 128 then [r]
  else if r <? 2048 then [192 + r / 64; 128 + r mod 64]
  else if r <? 65536 then [224 + r / 4096; 128 + r / 64 mod 64; 128 + r mod 64]
  else [240 + r / 262144; 128 + r / 4096 mod 64; 128 + r / 64 mod 64; 128 + r mod 64].

Definition between (lo hi b : Z) : bool := (lo <=? b) && (b <=? hi).
Definition continuation (b : Z) : bool := between 128 191 b.

(** [utf8.DecodeRune]: the rune and its width; (U+FFFD, 1) for an invalid
    encoding, (U+FFFD, 0) for no bytes. *)
Definition decode_rune (s : bytes) : Z * nat :=
  match s with
  | [] => (rune_error, 0%nat)
  | b0 :: s1 =>
      if b0 <? 128 then (b0, 1%nat)
      else if between 194 223 b0 then
        match s1 with
        | b1 :: _ => if continuation b1 then ((b0 - 192) * 64 + (b1 - 128), 2%nat)
                     else (rune_error, 1%nat)
        | _ => (rune_error, 1%nat)
        end
      else if between 224 239 b0 then
        let lo := if b0 =? 224 then 160 else 128 in
        let hi := if b0 =? 237 then 159 else 191 in
        match s1 with
        | b1 :: b2 :: _ =>
            if between lo hi b1 && continuation b2
            then ((b0 - 224) * 4096 + (b1 - 128) * 64 + (b2 - 128), 3%nat)
            else (rune_error, 1%nat)
        | _ => (rune_error, 1%nat)
        end
      else if between 240 244 b0 then
        let lo := if b0 =? 240 then 144 else 128 in
        let hi := if b0 =? 244 then 143 else 191 in
        match s1 with
        | b1 :: b2 :: b3 :: _ =>
            if between lo hi b1 && continuation b2 && continuation b3
            then ((b0 - 240) * 262144 + (b1 - 128) * 4096 + (b2 - 128) * 64 + (b3 - 128), 4%nat)
            else (rune_error, 1%nat)
        | _ => (rune_error, 1%nat)
        end
      else (rune_error, 1%nat)
  end.

(** [for _, r := range s] and [[]rune(s)]. *)
Fixpoint runes_go (s : bytes) (skip : nat) : list Z :=
  match s with
  | [] => []
  | _ :: s' =>
      match skip with
      | S k => runes_go s' k
      | O => let '(r, n) := decode_rune s in r :: runes_go s' (n - 1)
      end
  end.
Definition runes (s : bytes) : list Z := runes_go s 0.

(** [string(rs)] for a rune slice. *)
Definition utf8 (rs : list Z) : bytes := concat (encode_rune <$> rs).

Definition rune_count (s : bytes) : Z := len (runes s).

(** The byte length and validity of each step of [range s]. *)
Fixpoint valid_utf8_go (s : bytes) (skip : nat) : bool :=
  match s with
  | [] => true
  | b :: s' =>
      match skip with
      | S k => valid_utf8_go s' k
      | O => let '(r, n) := decode_rune s in
             if (128 <=? b) && (n =? 1)%nat then false else valid_utf8_go s' (n - 1)
      end
  end.
Definition valid_utf8 (s : bytes) : bool := valid_utf8_go s 0.

(** [strings.ToValidUTF8]: each run of invalid bytes becomes [rep]. *)
Fixpoint to_valid_go (rep s : bytes) (skip : nat) (bad : bool) : bytes :=
  match s with
  | [] => []
  | b :: s' =>
      match skip with
      | S k => b :: to_valid_go rep s' k false
      | O => let '(r, n) := decode_rune s in
             if (128 <=? b) && (n =? 1)%nat
             then (if bad then [] else rep) ++ to_valid_go rep s' 0 true
             else b :: to_valid_go rep s' (n - 1) false
      end
  end.
Definition to_valid_utf8 (s rep : bytes) : bytes := to_valid_go rep s 0 false.

(** [strings.Map] with a function that drops a rune by answering [None]. *)
Definition map_runes (f : Z -> option Z) (s : bytes) : bytes :=
  utf8 (omap f (runes s)).

(** ** Case *)

(** The simple case mappings of the runes above ASCII, from the Unicode tables
    of the [unicode] package. *)
Class UnicodeTables := {
  unicode_lower : Z -> Z;
  unicode_upper : Z -> Z
}.

Definition is_ascii (s : bytes) : bool := forallb (fun b => b <? 128) s.

Definition lower_byte (b : Z) : Z := if between 65 90 b then b + 32 else b.
Definition upper_byte (b : Z) : Z := if between 97 122 b then b - 32 else b.

Section case.
Context `{UnicodeTables}.

Definition to_lower_rune (r : Z) : Z := if r <? 128 then lower_byte r else unicode_lower r.
Definition to_upper_rune (r : Z) : Z := if r <? 128 then upper_byte r else unicode_upper r.

(** [strings.ToLower] and [strings.ToUpper]: a byte map for ASCII strings,
    [strings.Map] over the runes otherwise. *)
Definition to_lower (s : bytes) : bytes :=
  if is_ascii s then lower_byte <$> s else map_runes (fun r => Some (to_lower_rune r)) s.
Definition to_upper (s : bytes) : bytes :=
  if is_ascii s then upper_byte <$> s else map_runes (fun r => Some (to_upper_rune r)) s.
End case.

(** A concrete table, which folds no rune above ASCII. *)
Definition ascii_tables : UnicodeTables := {| unicode_lower := fun r => r; unicode_upper := fun r => r |}.

(** ** Numbers *)

Definition digit (d : Z) : Z := 48 + d.
Definition is_digit (b : Z) : bool := between 48 57 b.

(** The digits of [n >= 0] in [base], most significant first, in front of [acc]. *)
Fixpoint digits (base : Z) (dig : Z -> Z) (fuel : nat) (n : Z) (acc : bytes) : bytes :=
  match fuel with
  | O => acc
  | S f => if n <? base then dig n :: acc
           else digits base dig f (n / base) (dig (n mod base) :: acc)
  end.
Definition digit_fuel (n : Z) : nat := S (Z.to_nat (Z.log2 n)).
Definition udec (n : Z) : bytes := digits 10 digit (digit_fuel n) n [].

(** [strconv.Itoa] and [%d]. *)
Definition itoa (n : Z) : bytes := if n <? 0 then ch "-" :: udec (- n) else udec n.

(** [%0wd] for a non-negative number. *)
Definition zpad (w : nat) (s : bytes) : bytes := replicate (w - length s) (ch "0") ++ s.
Definition pad_dec (w : nat) (n : Z) : bytes := zpad w (udec n).

Definition hex_digit (d : Z) : Z := if d <? 10 then 48 + d else 87 + d.
Definition uhex (n : Z) : bytes := digits 16 hex_digit (digit_fuel n) n [].
(** [%0wx] for a non-negative number. *)
Definition pad_hex (w : nat) (n : Z) : bytes := zpad w (uhex n).

Definition max_int : Z := 9223372036854775807.
Definition min_int : Z := -9223372036854775808.

(** Go's [int] and [int64]: arithmetic wraps around. *)
Definition wrap64 (n : Z) : Z := (n - min_int) mod 18446744073709551616 + min_int.

(** The number that digits in [base] denote, after those that gave [v]. *)
Definition digits_value (base : Z) (und : Z -> Z) (s : bytes) (v : Z) : Z :=
  fold_left (fun v b => v * base + und b) s v.
Definition dec_value (s : bytes) : Z := digits_value 10 (fun b => b - 48) s 0.

(** [strconv.Atoi]: the value and whether the error is nil.  A syntax error
    gives 0; a number out of range gives the nearest [int]. *)
Definition atoi (s : bytes) : Z * bool :=
  let '(neg, ds) := match s with
                    | 43 :: ds => (false, ds)   (* + *)
                    | 45 :: ds => (true, ds)    (* - *)
                    | _ => (false, s)
                    end in
  match ds with
  | [] => (0, false)
  | _ =>
      if forallb is_digit ds then
        let v := if neg : bool then - dec_value ds else dec_value ds in
        if v <? min_int then (min_int, false)
        else if max_int <? v then (max_int, false)
        else (v, true)
      else (0, false)
  end.

(** * Lemmas *)

(** ** Searching and splitting *)

Section searching.
Implicit Types s p : bytes.

Lemma index_byte_range s c : -1 <= index_byte s c < len s \/ (s = [] /\ index_byte s c = -1).
Proof.
  induction s as [|b s IH]; cbn; [by right|left].
  rewrite len_cons. pose proof (len_nonneg s).
  destruct (b =? c); [lia|]. destruct IH as [?|[-> ->]]; [|cbn; lia].
  destruct (Z.ltb_spec (index_byte s c) 0); lia.
Qed.

Lemma index_byte_absent s c : c ∉ s -> index_byte s c = -1.
Proof.
  induction s as [|b s IH]; cbn; [done|].
  intros [Hb Hs]%not_elem_of_cons.
  destruct (Z.eqb_spec b c); [done|]. by rewrite IH.
Qed.

Lemma index_byte_app s1 c s2 : c ∉ s1 -> index_byte (s1 ++ c :: s2) c = len s1.
Proof.
  induction s1 as [|b s1 IH]; cbn.
  - by rewrite Z.eqb_refl.
  - intros [Hb Hs]%not_elem_of_cons. destruct (Z.eqb_spec b c); [done|].
    rewrite IH by done. rewrite len_cons. pose proof (len_nonneg s1).
    destruct (Z.ltb_spec (len s1) 0); lia.
Qed.

Lemma last_index_byte_app s1 c s2 : c ∉ s2 -> last_index_byte (s1 ++ c :: s2) c = len s1.
Proof.
  intros Hc. unfold last_index_byte.
  rewrite reverse_app, reverse_cons, <-app_assoc. cbn [app].
  rewrite index_byte_app by (by rewrite elem_of_reverse).
  unfold len. rewrite length_app, length_reverse. cbn [length].
  destruct (Z.ltb_spec (Z.of_nat (length s2)) 0); lia.
Qed.

Lemma last_index_byte_absent s c : c ∉ s -> last_index_byte s c = -1.
Proof. intros. unfold last_index_byte. by rewrite index_byte_absent by (by rewrite elem_of_reverse). Qed.

Lemma has_prefix_spec s p : has_prefix s p = true <-> exists t, s = p ++ t.
Proof.
  revert s; induction p as [|c p IH]; intros s; cbn; [split; [by eauto|done]|].
  destruct s as [|b s]; [split; [done|by intros [t ?]]|].
  rewrite andb_true_iff, Z.eqb_eq, IH. split.
  - intros [-> [t ->]]. by exists t.
  - intros [t [= -> ->]]. eauto.
Qed.

Lemma has_prefix_app p t : has_prefix (p ++ t) p = true.
Proof. apply has_prefix_spec. by eexists. Qed.

Lemma has_suffix_app s p : has_suffix (s ++ p) p = true.
Proof. unfold has_suffix. rewrite reverse_app. apply has_prefix_app. Qed.

Lemma contains_byte_spec s c : contains_byte s c = true <-> c ∈ s.
Proof.
  unfold contains_byte. rewrite existsb_exists. setoid_rewrite <-list_elem_of_In.
  setoid_rewrite Z.eqb_eq. split; [by intros (x & ? & ->)|by eauto].
Qed.

Lemma contains_byte_false s c : contains_byte s c = false <-> c ∉ s.
Proof. rewrite <-contains_byte_spec. by destruct (contains_byte s c). Qed.

Lemma cut_app s1 c s2 : c ∉ s1 -> cut (s1 ++ c :: s2) c = (s1, s2, true).
Proof.
  induction s1 as [|b s1 IH]; cbn; [by rewrite Z.eqb_refl|].
  intros [Hb Hs]%not_elem_of_cons. destruct (Z.eqb_spec b c); [done|]. by rewrite IH.
Qed.

Lemma cut_absent s c : c ∉ s -> cut s c = (s, [], false).
Proof.
  induction s as [|b s IH]; cbn; [done|].
  intros [Hb Hs]%not_elem_of_cons. destruct (Z.eqb_spec b c); [done|]. by rewrite IH.
Qed.

Lemma split_byte_absent s c : c ∉ s -> split_byte s c = [s].
Proof.
  induction s as [|b s IH]; cbn; [done|].
  intros [Hb Hs]%not_elem_of_cons. destruct (Z.eqb_spec b c); [done|]. by rewrite IH.
Qed.

Lemma split_byte_app s1 c s2 : c ∉ s1 -> split_byte (s1 ++ c :: s2) c = s1 :: split_byte s2 c.
Proof.
  induction s1 as [|b s1 IH]; cbn; [by rewrite Z.eqb_refl|].
  intros [Hb Hs]%not_elem_of_cons. destruct (Z.eqb_spec b c); [done|]. by rewrite IH.
Qed.

(** Splitting undoes joining when no part holds the separator. *)
Lemma split_join c (ls : list bytes) :
  ls <> [] -> Forall (fun l => c ∉ l) ls -> split_byte (join ls [c]) c = ls.
Proof.
  induction ls as [|l ls IH]; [done|]. intros _ [Hl Hls]%Forall_cons.
  destruct ls as [|l' ls]; cbn; [by apply split_byte_absent|].
  rewrite split_byte_app by done. f_equal. by apply IH.
Qed.

Lemma split_byte_nonempty s c : split_byte s c <> [].
Proof. induction s as [|b s IH]; cbn; [done|]. by destruct (b =? c), (split_byte s c). Qed.

(** Joining undoes splitting, and no part holds the separator. *)
Lemma join_split s c : join (split_byte s c) [c] = s.
Proof.
  induction s as [|b s IH]; cbn; [done|].
  pose proof (split_byte_nonempty s c). destruct (Z.eqb_spec b c) as [->|].
  - destruct (split_byte s c); [done|]. cbn in IH |- *. by rewrite IH.
  - destruct (split_byte s c) as [|l [|l' ls]]; [done| |]; cbn in IH |- *; by rewrite <-IH.
Qed.

Lemma split_byte_free s c : Forall (fun l => c ∉ l) (split_byte s c).
Proof.
  induction s as [|b s IH]; cbn; [constructor; [set_solver|done]|].
  destruct (Z.eqb_spec b c); [constructor; [set_solver|done]|].
  destruct (split_byte s c); inversion_clear IH; repeat constructor; set_solver.
Qed.

Lemma remove_byte_absent s c : c ∉ s -> remove_byte s c = s.
Proof.
  unfold remove_byte. induction s as [|b s IH]; [done|].
  intros [Hb Hs]%not_elem_of_cons. rewrite filter_cons_True by congruence. by rewrite IH.
Qed.

Lemma remove_byte_free s c : c ∉ remove_byte s c.
Proof. unfold remove_byte. rewrite list_elem_of_filter. by intros [? _]. Qed.
End searching.

(** ** Trimming *)

(** A byte that neither starts nor ends the encoding of a space. *)
Definition graphic (b : Z) : bool := between 33 126 b.

Lemma prefix_len_graphic b s : graphic b = true -> prefix_len space_encodings (b :: s) = 0%nat.
Proof.
  intros Hb%andb_prop. destruct Hb as [H1%Z.leb_le H2%Z.leb_le].
  unfold space_encodings; cbn.
  repeat match goal with |- context [b =? ?n] => destruct (Z.eqb_spec b n); [lia|] end.
  reflexivity.
Qed.

Lemma prefix_len_graphic_rev b s :
  graphic b = true -> prefix_len (reverse <$> space_encodings) (b :: s) = 0%nat.
Proof.
  intros Hb%andb_prop. destruct Hb as [H1%Z.leb_le H2%Z.leb_le].
  unfold space_encodings; cbn.
  repeat match goal with |- context [b =? ?n] => destruct (Z.eqb_spec b n); [lia|] end.
  reflexivity.
Qed.

Lemma trim_space_left_graphic b s : graphic b = true -> trim_space_left (b :: s) = b :: s.
Proof.
  intros Hb. unfold trim_space_left. cbn [drop_words_go]. by rewrite prefix_len_graphic.
Qed.

Lemma trim_space_right_graphic b s : graphic b = true -> trim_space_right (s ++ [b]) = s ++ [b].
Proof.
  intros Hb. unfold trim_space_right. rewrite reverse_snoc. cbn [drop_words_go].
  rewrite prefix_len_graphic_rev by done. by rewrite reverse_cons, reverse_involutive.
Qed.

(** Text that begins and ends with a visible ASCII byte is left alone. *)
Lemma trim_space_id s :
  s <> [] -> (forall b, head s = Some b -> graphic b = true) ->
  (forall b, last s = Some b -> graphic b = true) -> trim_space s = s.
Proof.
  intros Hne Hh Hl. unfold trim_space.
  destruct s as [|b s]; [done|]. rewrite trim_space_left_graphic by (by apply Hh).
  destruct (exists_last (l := b :: s)) as [s' [b' E]]; [done|].
  rewrite E in *. apply trim_space_right_graphic, Hl. by rewrite last_snoc.
Qed.

Lemma trim_space_graphic s : Forall (fun b => graphic b = true) s -> trim_space s = s.
Proof.
  intros Hs. destruct s as [|b s']; [done|]. apply trim_space_id; [done| |].
  - intros c [= <-]. by inversion Hs.
  - intros c Hc. eapply Forall_forall in Hs; [exact Hs|]. by apply last_Some_elem_of.
Qed.

(** ** Fields *)

Lemma fields_go_graphic w s cur :
  Forall (fun b => graphic b = true) w -> fields_go (w ++ s) cur 0 = fields_go s (reverse w ++ cur) 0.
Proof.
  revert cur. induction w as [|b w IH]; intros cur; [done|].
  intros [Hb Hw]%Forall_cons. cbn [app fields_go].
  rewrite prefix_len_graphic by done. rewrite IH by done.
  by rewrite reverse_cons, <-app_assoc.
Qed.

Lemma fields_go_space s cur : fields_go (32 :: s) cur 0 = push_field cur (fields_go s [] 0).
Proof. reflexivity. Qed.

Lemma push_field_ne w fs : w <> [] -> push_field (reverse w) fs = w :: fs.
Proof.
  intros Hw. unfold push_field. destruct (reverse w) eqn:E.
  - by apply (f_equal reverse) in E; rewrite reverse_involutive in E.
  - by rewrite <-E, reverse_involutive.
Qed.

(** A word of visible ASCII, then a space, is a field. *)
Lemma fields_word w s :
  w <> [] -> Forall (fun b => graphic b = true) w -> fields (w ++ 32 :: s) = w :: fields s.
Proof.
  intros Hw Hg. unfold fields. rewrite fields_go_graphic by done.
  rewrite fields_go_space, app_nil_r. by apply push_field_ne.
Qed.

Lemma fields_last w :
  w <> [] -> Forall (fun b => graphic b = true) w -> fields w = [w].
Proof.
  intros Hw Hg. unfold fields. rewrite <-(app_nil_r w) at 1.
  rewrite fields_go_graphic by done. cbn. rewrite app_nil_r. by apply push_field_ne.
Qed.

Lemma fields_skip s : fields (32 :: s) = fields s.
Proof. reflexivity. Qed.

(** Joining words with single spaces and splitting again gives the words. *)
Lemma fields_join ws :
  Forall (fun w => w <> [] /\ Forall (fun b => graphic b = true) w) ws ->
  fields (join ws [32]) = ws.
Proof.
  induction ws as [|w ws IH]; [done|]. intros [[Hne Hg] Hws]%Forall_cons.
  destruct ws as [|w' ws]; [by apply fields_last|].
  change (join (w :: w' :: ws) [32]) with (w ++ 32 :: join (w' :: ws) [32]).
  rewrite fields_word by done. f_equal. by apply IH.
Qed.

(** ** UTF-8 *)

(** Decides every comparison of the goal that linear arithmetic settles. *)
Ltac decide_cmp :=
  repeat match goal with
  | |- context [?a <? ?b] => destruct (Z.ltb_spec a b); try (exfalso; lia)
  | |- context [?a <=? ?b] => destruct (Z.leb_spec a b); try (exfalso; lia)
  end; cbn [andb orb negb].

(** Encoding a scalar value and decoding it gives it back, whatever follows. *)
Lemma decode_encode_rune r s :
  valid_rune r = true -> decode_rune (encode_rune r ++ s) = (r, length (encode_rune r)).
Proof.
  intros Hr. unfold encode_rune. rewrite Hr. cbn [negb].
  apply orb_prop in Hr. rewrite !andb_true_iff, !Z.leb_le, !Z.ltb_lt in Hr.
  assert (0 <= r <= 1114111) by lia.
  pose proof (Z.mod_pos_bound r 64 eq_refl). pose proof (Z.mod_pos_bound (r / 64) 64 eq_refl).
  pose proof (Z.mod_pos_bound (r / 4096) 64 eq_refl).
  destruct (Z.ltb_spec r 128); [|destruct (Z.ltb_spec r 2048); [|destruct (Z.ltb_spec r 65536)]];
    unfold decode_rune, between, continuation, between; cbn [app length].
  - by decide_cmp.
  - assert (2 <= r / 64 < 32) by dlia. decide_cmp; f_equal; dlia.
  - assert (0 <= r / 4096 < 16) by dlia.
    assert (r / 4096 = 0 -> 32 <= r / 64 mod 64) by dlia.
    assert (r / 4096 = 13 -> r / 64 mod 64 < 32) by dlia.
    destruct (Z.eqb_spec (224 + r / 4096) 224), (Z.eqb_spec (224 + r / 4096) 237);
      try (exfalso; lia); decide_cmp; f_equal; dlia.
  - assert (0 <= r / 262144 < 5) by dlia.
    assert (r / 262144 = 0 -> 16 <= r / 4096 mod 64) by dlia.
    assert (r / 262144 = 4 -> r / 4096 mod 64 < 16) by dlia.
    destruct (Z.eqb_spec (240 + r / 262144) 240), (Z.eqb_spec (240 + r / 262144) 244);
      try (exfalso; lia); decide_cmp; f_equal; dlia.
Qed.

Lemma encode_rune_length r : (1 <= length (encode_rune r) <= 4)%nat.
Proof. unfold encode_rune. repeat case_match; cbn; lia. Qed.

Lemma encode_rune_cons r : exists b s, encode_rune r = b :: s.
Proof. pose proof (encode_rune_length r). destruct (encode_rune r); cbn in *; [lia|eauto]. Qed.

Lemma runes_go_skip s1 s2 : runes_go (s1 ++ s2) (length s1) = runes_go s2 0.
Proof. induction s1; [done|exact IHs1]. Qed.

Lemma runes_encode r s : valid_rune r = true -> runes (encode_rune r ++ s) = r :: runes s.
Proof.
  intros Hr. pose proof (decode_encode_rune r s Hr) as Hd.
  destruct (encode_rune_cons r) as (b & t & E). rewrite E in *. unfold runes.
  cbn [runes_go app] in *. rewrite Hd. cbn [length]. f_equal.
  replace (S (length t) - 1)%nat with (length t) by lia. apply runes_go_skip.
Qed.

(** Decoding undoes encoding: [[]rune(string(rs)) = rs]. *)
Lemma runes_utf8_app rs s :
  Forall (fun r => valid_rune r = true) rs -> runes (utf8 rs ++ s) = rs ++ runes s.
Proof.
  induction 1 as [|r rs Hr _ IH]; [done|]. unfold utf8 in *. cbn [fmap list_fmap concat].
  rewrite <-app_assoc, runes_encode by done. cbn. by rewrite IH.
Qed.

Lemma runes_utf8 rs : Forall (fun r => valid_rune r = true) rs -> runes (utf8 rs) = rs.
Proof. intros. rewrite <-(app_nil_r (utf8 rs)), runes_utf8_app by done. apply app_nil_r. Qed.

Lemma utf8_app rs1 rs2 : utf8 (rs1 ++ rs2) = utf8 rs1 ++ utf8 rs2.
Proof. unfold utf8. by rewrite fmap_app, concat_app. Qed.

Lemma utf8_cons r rs : utf8 (r :: rs) = encode_rune r ++ utf8 rs.
Proof. reflexivity. Qed.

Lemma ascii_rune b : 0 <= b < 128 -> valid_rune b = true /\ encode_rune b = [b].
Proof.
  intros Hb. unfold encode_rune, valid_rune. decide_cmp. by split.
Qed.

(** ASCII text is its own rune sequence. *)
Lemma utf8_ascii s : Forall (fun b => 0 <= b < 128) s -> utf8 s = s.
Proof.
  induction 1 as [|b s Hb _ IH]; [done|].
  rewrite utf8_cons, (proj2 (ascii_rune b Hb)), IH. done.
Qed.

Lemma runes_ascii_app s t : Forall (fun b => 0 <= b < 128) s -> runes (s ++ t) = s ++ runes t.
Proof.
  intros Hs. rewrite <-(utf8_ascii s) at 1 by done. apply runes_utf8_app.
  eapply Forall_impl; [exact Hs|]. intros b Hb. by apply ascii_rune.
Qed.

Lemma runes_ascii s : Forall (fun b => 0 <= b < 128) s -> runes s = s.
Proof. intros. rewrite <-(app_nil_r s) at 1. rewrite runes_ascii_app by done. apply app_nil_r. Qed.

(** Every rune that [range] yields is a scalar value (U+FFFD for bad bytes). *)
(** An ASCII byte ends whatever encoding comes before it. *)
Lemma decode_rune_stop s c t : s <> [] -> 0 <= c < 128 -> decode_rune (s ++ c :: t) = decode_rune s.
Proof.
  intros Hs Hc.
  assert (forall lo hi, 128 <= lo -> between lo hi c = false) as Hb by (intros; unfold between; lia).
  assert (continuation c = false) as Hcc by (by apply Hb).
  destruct s as [|b0 [|b1 [|b2 [|b3 s]]]]; [done|..]; cbn [app decode_rune]; repeat case_match; try done;
    repeat match goal with E : context [between _ _ c] |- _ => rewrite Hb in E by (repeat case_match; lia) | E : context [continuation c] |- _ => rewrite Hcc in E end;
    rewrite ?andb_false_r in *; cbn in *; congruence.
Qed.

Lemma decode_rune_width s : s <> [] -> (1 <= snd (decode_rune s) <= length s)%nat.
Proof. destruct s as [|b0 [|b1 [|b2 [|b3 s]]]]; [done|..]; intros _; cbn [decode_rune]; repeat case_match; cbn; lia. Qed.

Lemma runes_go_ascii_stop a c t k : 0 <= c < 128 -> (k <= length a)%nat -> runes_go (a ++ c :: t) k = runes_go a k ++ c :: runes t.
Proof.
  intros Hc. revert k. induction a as [|b a IH]; intros k Hk.
  - replace k with 0%nat by (cbn in Hk; lia). cbn [app runes_go]. unfold decode_rune. destruct (Z.ltb_spec c 128); [done|lia].
  - cbn [app runes_go]. destruct k as [|k]; [|apply IH; cbn in Hk; lia].
    change (b :: a ++ c :: t) with ((b :: a) ++ c :: t). rewrite (decode_rune_stop (b :: a) c t) by done. pose proof (decode_rune_width (b :: a) ltac:(done)) as Hw.
    destruct (decode_rune (b :: a)) as [r n]. cbn in Hw. cbn [app]. f_equal. apply IH. lia.
Qed.

Lemma runes_ascii_stop a c t : 0 <= c < 128 -> runes (a ++ c :: t) = runes a ++ c :: runes t.
Proof. intros. apply runes_go_ascii_stop; [done|lia]. Qed.

Lemma decode_rune_valid s : bytes_ok s -> s <> [] -> valid_rune (fst (decode_rune s)) = true.
Proof.
  destruct s as [|b0 s]; [done|]. intros Hs _.
  apply Forall_cons in Hs as [Hb Hs]. unfold byte_ok in Hb.
  unfold decode_rune, continuation, between.
  repeat match goal with
  | |- context [if ?c then _ else _] =>
      match c with context [if _ then _ else _] => fail 1 | _ => destruct c eqn:? end
  | |- context [match ?s with [] => _ | _ :: _ => _ end] => destruct s
  | H : Forall _ (_ :: _) |- _ => apply Forall_cons in H as [? H]
  end; try reflexivity; cbn [fst]; bool_prop; unfold valid_rune, byte_ok in *; decide_cmp; done || dlia.
Qed.

(** ** Numbers *)

Section digits.
Context (base : Z) (dig und : Z -> Z) (P : Z -> Prop).
Hypothesis base_ge : 2 <= base.
Hypothesis dig_ok : forall d, 0 <= d < base -> und (dig d) = d /\ P (dig d).

Lemma digits_spec fuel n acc :
  0 <= n < base ^ Z.of_nat fuel -> (0 < fuel)%nat ->
  exists ds, digits base dig fuel n acc = ds ++ acc /\ ds <> [] /\ Forall P ds /\
    (forall v, digits_value base und ds v = v * base ^ len ds + n) /\
    (forall k, (0 < k)%nat -> n < base ^ Z.of_nat k -> (length ds <= k)%nat).
Proof.
  revert n acc. induction fuel as [|fuel IH]; intros n acc Hn Hf; [lia|].
  cbn [digits]. destruct (Z.ltb_spec n base).
  - destruct (dig_ok n) as [Hu HP]; [lia|].
    exists [dig n]. split_and!; [done|done|by repeat constructor| |cbn; lia].
    intros v. cbn. rewrite Hu. change (len [dig n]) with 1. lia.
  - rewrite Nat2Z.inj_succ, Z.pow_succ_r in Hn by lia.
    assert (0 <= n / base) by (apply Z.div_pos; lia).
    assert (n / base < base ^ Z.of_nat fuel) by (apply Z.div_lt_upper_bound; lia).
    destruct fuel as [|fuel]; [rewrite Z.pow_0_r in Hn; lia|].
    destruct (IH (n / base) (dig (n mod base) :: acc)) as (ds & -> & Hne & HP & Hv & Hk); [lia|lia|].
    pose proof (Z.mod_pos_bound n base). destruct (dig_ok (n mod base)) as [Hu HP']; [lia|].
    exists (ds ++ [dig (n mod base)]). split_and!.
    + by rewrite <-app_assoc.
    + by destruct ds.
    + apply Forall_app. by repeat constructor.
    + intros v. unfold digits_value in *. rewrite fold_left_app. cbn. rewrite Hv, Hu, len_app.
      change (len [_]) with 1. rewrite Z.pow_add_r, Z.pow_1_r by (auto with boar || lia).
      pose proof (Z.div_mod n base ltac:(lia)) as E.
      generalize dependent (n / base); intros q; generalize (n mod base); intros r; intros. rewrite E. ring.
    + intros k Hk0 Hnk. rewrite length_app. cbn.
      destruct k as [|[|k]]; [lia|rewrite Z.pow_1_r in Hnk; lia|].
      specialize (Hk (S k)). rewrite Nat2Z.inj_succ, Z.pow_succ_r in Hnk by lia.
      enough (length ds <= S k)%nat by lia. apply Hk; [lia|]. apply Z.div_lt_upper_bound; lia.
Qed.

Lemma digit_fuel_enough n : 0 <= n -> n < base ^ Z.of_nat (digit_fuel n).
Proof.
  intros Hn. unfold digit_fuel. destruct (Z.eq_dec n 0) as [->|].
  - apply Z.pow_pos_nonneg; lia.
  - pose proof (Z.log2_spec n ltac:(lia)) as [_ Hlt].
    pose proof (Z.log2_nonneg n). rewrite Nat2Z.inj_succ, Z2Nat.id by done.
    eapply Z.lt_le_trans; [exact Hlt|]. apply Z.pow_le_mono_l; lia.
Qed.
End digits.

Definition udigit (b : Z) : Prop := is_digit b = true.

Lemma udec_spec n :
  0 <= n -> udec n <> [] /\ Forall udigit (udec n) /\ dec_value (udec n) = n /\
  (forall k, (0 < k)%nat -> n < 10 ^ Z.of_nat k -> (length (udec n) <= k)%nat).
Proof.
  intros Hn. unfold udec, dec_value.
  destruct (digits_spec 10 digit (fun b => b - 48) udigit) with (fuel := digit_fuel n) (n := n) (acc := [] : bytes)
    as (ds & -> & Hne & HP & Hv & Hk); [lia| | |unfold digit_fuel; lia|].
  - intros d Hd. unfold udigit, is_digit, between, digit. split; [lia|]. by decide_cmp.
  - split; [done|]. apply digit_fuel_enough; lia.
  - rewrite app_nil_r. split_and!; [done|done| |done]. rewrite Hv. lia.
Qed.

Lemma udec_digits n : 0 <= n -> Forall udigit (udec n).
Proof. intros. by apply udec_spec. Qed.

Lemma udec_ne n : 0 <= n -> udec n <> [].
Proof. intros. by apply udec_spec. Qed.

Lemma forallb_udigit s : Forall udigit s -> forallb is_digit s = true.
Proof. intros H. apply forallb_forall. intros b Hb%list_elem_of_In. by eapply Forall_forall in H. Qed.

Lemma udigit_range b : udigit b <-> 48 <= b <= 57.
Proof. unfold udigit, is_digit, between. rewrite andb_true_iff, !Z.leb_le. done. Qed.

Lemma atoi_digits s v :
  s <> [] -> Forall udigit s -> dec_value s = v -> 0 <= v <= max_int -> atoi s = (v, true).
Proof.
  intros Hne Hd Hv Hr. unfold atoi. destruct s as [|b s]; [done|].
  assert (48 <= b <= 57) by (apply udigit_range; by inversion Hd).
  assert (forallb is_digit (b :: s) = true) as Hall by by apply forallb_udigit.
  replace (match b with 43 => (false, s) | 45 => (true, s) | _ => (false, b :: s) end)
    with (false, b :: s) by (destruct b; [lia| |lia];
      do 6 (try match goal with p : positive |- _ => destruct p; try reflexivity; try lia end)).
  rewrite Hall, Hv. unfold min_int, max_int in *. by decide_cmp.
Qed.

(** [Atoi] reads back what [Itoa] wrote, over the whole range of [int]. *)
Lemma atoi_itoa n : min_int <= n <= max_int -> atoi (itoa n) = (n, true).
Proof.
  intros Hn. unfold itoa. destruct (Z.ltb_spec n 0).
  - destruct (udec_spec (- n)) as (Hne & Hd & Hv & _); [lia|].
    unfold atoi. cbn match. destruct (udec (- n)) as [|b s] eqn:E; [done|].
    rewrite forallb_udigit by done. rewrite Hv, Z.opp_involutive.
    unfold min_int, max_int in *. by decide_cmp.
  - destruct (udec_spec n) as (Hne & Hd & Hv & _); [lia|]. apply atoi_digits; [done..|].
    unfold max_int in *. lia.
Qed.

Lemma itoa_nonneg n : 0 <= n -> itoa n = udec n.
Proof. intros. unfold itoa. by decide_cmp. Qed.

Lemma wrap64_id n : min_int <= n <= max_int -> wrap64 n = n.
Proof. intros Hn. unfold wrap64. rewrite Z.mod_small; unfold min_int, max_int in *; lia. Qed.

Lemma wrap64_mod n : min_int <= n <= max_int -> wrap64 (n mod 18446744073709551616) = n.
Proof.
  intros Hn. unfold wrap64. unfold min_int, max_int in *. rewrite Zminus_mod_idemp_l.
  rewrite Z.mod_small by lia. lia.
Qed.
