(* ===== verification/GoTime.v ===== *)
(** * Civil dates and the parts of Go's [time] package that the program uses

    A [time.Time] is modelled by its civil fields (in its own location) where
    the code formats or parses it, and by nanoseconds since the Unix epoch where
    the code compares or stores it; [None] is the zero [time.Time]. *)

From Stdlib Require Import Ascii String ZArith Lia.
From stdpp Require Import base tactics list gmap strings.
From S2P Require Import Prelude GoStrings.
Open Scope Z_scope.

Record civil := Civil {
  year : Z; month : Z; day : Z; hour : Z; minute : Z; second : Z; nsec : Z
}.

(** ** Days and seconds *)

Definition is_leap (y : Z) : bool :=
  (y mod 4 =? 0) && (negb (y mod 100 =? 0) || (y mod 400 =? 0)).

Definition days_in (m y : Z) : Z :=
  if m =? 2 then (if is_leap y then 29 else 28)
  else if (m =? 4) || (m =? 6) || (m =? 9) || (m =? 11) then 30 else 31.

(** Days since 1970-01-01 of the proleptic Gregorian calendar, counting years
    from March so that the leap day comes last. *)
Definition day_of_era (yoe m d : Z) : Z :=
  yoe * 365 + yoe / 4 - yoe / 100 + ((153 * (if 2 <? m then m - 3 else m + 9) + 2) / 5 + d - 1).
Definition days_from_civil (y m d : Z) : Z :=
  let y' := if m <=? 2 then y - 1 else y in
  y' / 400 * 146097 + day_of_era (y' mod 400) m d - 719468.

Definition era_civil (doe : Z) : Z * Z * Z :=
  let yoe := (doe - doe / 1460 + doe / 36524 - doe / 146096) / 365 in
  let doy := doe - (365 * yoe + yoe / 4 - yoe / 100) in
  let mp := (5 * doy + 2) / 153 in
  (yoe, if mp <? 10 then mp + 3 else mp - 9, doy - (153 * mp + 2) / 5 + 1).
Definition civil_from_days (z : Z) : Z * Z * Z :=
  let z' := z + 719468 in
  let '(yoe, m, d) := era_civil (z' mod 146097) in
  ((if m <=? 2 then yoe + 1 else yoe) + z' / 146097 * 400, m, d).

(** [t.Unix()] of a UTC time, and back. *)
Definition unix (c : civil) : Z :=
  days_from_civil (year c) (month c) (day c) * 86400 + hour c * 3600 + minute c * 60 + second c.
Definition unix_nano (c : civil) : Z := unix c * 1000000000 + nsec c.

Definition civil_of_unix (s ns : Z) : civil :=
  let '(y, m, d) := civil_from_days (s / 86400) in
  let r := s mod 86400 in
  Civil y m d (r / 3600) (r mod 3600 / 60) (r mod 60) ns.

(** [time.Date(y, m, d, h, mi, s, 0, time.UTC)]: fields out of range carry. *)
Definition go_date (y m d h mi s : Z) : civil :=
  let y' := y + (m - 1) / 12 in
  let m' := (m - 1) mod 12 + 1 in
  civil_of_unix ((days_from_civil y' m' 1 + d - 1) * 86400 + h * 3600 + mi * 60 + s) 0.

Definition valid_civil (c : civil) : Prop :=
  1 <= month c <= 12 /\ 1 <= day c <= days_in (month c) (year c) /\
  0 <= hour c < 24 /\ 0 <= minute c < 60 /\ 0 <= second c < 60.

(** ** Formatting and parsing pieces *)

Definition month_names : list bytes :=
  [str "Jan"; str "Feb"; str "Mar"; str "Apr"; str "May"; str "Jun";
   str "Jul"; str "Aug"; str "Sep"; str "Oct"; str "Nov"; str "Dec"].

Definition month_name (m : Z) : bytes := nth (Z.to_nat (m - 1)) month_names [].

(** ASCII letters equal up to case, as [time] matches month names. *)
Definition same_letters (a b : bytes) : bool :=
  bool_decide (lower_byte <$> a = lower_byte <$> b).

(** The month whose name [s] starts with, and the rest. *)
Fixpoint lookup_month (names : list bytes) (m : Z) (s : bytes) : option (Z * bytes) :=
  match names with
  | [] => None
  | w :: ws => if same_letters w (take 3 s) then Some (m, drop 3 s) else lookup_month ws (m + 1) s
  end.

(** [getnum]: two digits, or one when not [fixed]. *)
Definition getnum (fixed : bool) (s : bytes) : option (Z * bytes) :=
  match s with
  | a :: b :: s' =>
      if negb (is_digit a) then None
      else if is_digit b then Some ((a - 48) * 10 + (b - 48), s')
      else if fixed then None else Some (a - 48, b :: s')
  | [a] => if is_digit a && negb fixed then Some (a - 48, []) else None
  | [] => None
  end.

(** A literal of the layout that is not a space. *)
Definition literal (c : Z) (s : bytes) : option bytes :=
  match s with b :: s' => if b =? c then Some s' else None | [] => None end.

Fixpoint span_digits (s : bytes) : bytes * bytes :=
  match s with
  | b :: s' => if is_digit b then let '(d, r) := span_digits s' in (b :: d, r) else ([], s)
  | [] => ([], [])
  end.

(** A fraction of a second the layout does not mention: nanoseconds, rest. *)
Definition parse_fraction (s : bytes) : Z * bytes :=
  match s with
  | c :: b :: s' =>
      if ((c =? ch ".") || (c =? ch ",")) && is_digit b then
        let '(d, r) := span_digits (b :: s') in
        let d9 := take 9 d in
        (dec_value d9 * 10 ^ (9 - len d9), r)
      else (0, s)
  | _ => (0, s)
  end.

Definition in_range (v lo hi : Z) : option unit := if between lo hi v then Some tt else None.

(** ** Lemmas *)

(** The day of the year counted from 1 March, and its inverse. *)
Definition day_of_year (m d : Z) : Z := (153 * (if 2 <? m then m - 3 else m + 9) + 2) / 5 + d - 1.

Lemma year_of_era_round y d :
  0 <= y < 400 -> 0 <= d <= 365 ->
  (d = 365 -> (y + 1) mod 4 = 0 /\ ((y + 1) mod 100 <> 0 \/ y = 399)) ->
  let doe := y * 365 + y / 4 - y / 100 + d in
  (doe - doe / 1460 + doe / 36524 - doe / 146096) / 365 = y /\ 0 <= doe < 146097.
Proof. intros. subst doe. split; dlia. Qed.

Lemma day_of_year_round m d :
  1 <= m <= 12 -> 1 <= d <= 31 ->
  (m = 4 \/ m = 6 \/ m = 9 \/ m = 11 -> d <= 30) -> (m = 2 -> d <= 29) ->
  let doy := day_of_year m d in
  let mp := (5 * doy + 2) / 153 in
  0 <= doy <= 365 /\ (doy = 365 -> m = 2 /\ d = 29) /\
  (if mp <? 10 then mp + 3 else mp - 9) = m /\ doy - (153 * mp + 2) / 5 + 1 = d.
Proof.
  intros Hm Hd H30 H29 doy mp. subst mp.
  destruct (Z.ltb_spec ((5 * doy + 2) / 153) 10); subst doy; unfold day_of_year in *;
    destruct (Z.ltb_spec 2 m); split_and!; dlia.
Qed.

Lemma days_in_spec m y :
  (days_in m y <= 31) /\ (m = 4 \/ m = 6 \/ m = 9 \/ m = 11 -> days_in m y <= 30) /\
  (m = 2 -> days_in m y <= 29) /\ (m = 2 -> days_in m y = 29 -> is_leap y = true).
Proof.
  unfold days_in. destruct (Z.eqb_spec m 2) as [->|]; [destruct (is_leap y); cbn; split_and!; try lia; done|].
  destruct (Z.eqb_spec m 4), (Z.eqb_spec m 6), (Z.eqb_spec m 9), (Z.eqb_spec m 11); cbn; lia.
Qed.

Lemma is_leap_era y : 0 <= y < 400 -> is_leap (y + 1) = true ->
  (y + 1) mod 4 = 0 /\ ((y + 1) mod 100 <> 0 \/ y = 399).
Proof.
  unfold is_leap. intros Hy [H4 H]%andb_prop. apply Z.eqb_eq in H4. split; [done|].
  apply orb_prop in H as [H|H]; [left; bool_prop; done|right].
  apply Z.eqb_eq in H. dlia.
Qed.

Lemma era_round yoe m d :
  0 <= yoe < 400 -> 1 <= m <= 12 -> 1 <= d <= days_in m (if m <=? 2 then yoe + 1 else yoe) ->
  era_civil (day_of_era yoe m d) = (yoe, m, d) /\ 0 <= day_of_era yoe m d < 146097.
Proof.
  intros Hy Hm Hd. destruct (days_in_spec m (if m <=? 2 then yoe + 1 else yoe)) as (H31 & H30 & H29 & Hl).
  destruct (day_of_year_round m d) as (Hdoy & H365 & Hmo & Hda); [lia..|].
  destruct (year_of_era_round yoe (day_of_year m d)) as (Hyoe & Hdoe); [lia..| |].
  - intros [-> ->]%H365. apply is_leap_era; [lia|]. apply Hl; [done|]. cbn in *. lia.
  - unfold era_civil, day_of_era. cbv zeta.
    replace (yoe * 365 + yoe / 4 - yoe / 100 + ((153 * (if 2 <? m then m - 3 else m + 9) + 2) / 5 + d - 1))
      with (yoe * 365 + yoe / 4 - yoe / 100 + day_of_year m d) by (unfold day_of_year; lia).
    split; [|exact Hdoe].
    rewrite Hyoe.
    replace (yoe * 365 + yoe / 4 - yoe / 100 + day_of_year m d - (365 * yoe + yoe / 4 - yoe / 100))
      with (day_of_year m d) by lia.
    by rewrite Hmo, Hda.
Qed.

Lemma is_leap_mod y k : is_leap (y + k * 400) = is_leap y.
Proof.
  unfold is_leap. replace (y + k * 400) with (y + k * 100 * 4) at 1 by lia.
  replace (y + k * 400) with (y + k * 4 * 100) at 1 by lia.
  by rewrite !Z_mod_plus_full.
Qed.

Lemma days_in_mod m y k : days_in m (y + k * 400) = days_in m y.
Proof. unfold days_in. by rewrite is_leap_mod. Qed.

(** The calendar: days determine the date. *)
Lemma civil_from_days_from_civil y m d :
  1 <= m <= 12 -> 1 <= d <= days_in m y -> civil_from_days (days_from_civil y m d) = (y, m, d).
Proof.
  intros Hm Hd. unfold civil_from_days, days_from_civil. cbv zeta.
  set (y' := if m <=? 2 then y - 1 else y).
  pose proof (Z.mod_pos_bound y' 400 eq_refl). pose proof (Z.div_mod y' 400 ltac:(lia)) as Ey.
  destruct (era_round (y' mod 400) m d) as [E Hr]; [lia|lia| |].
  - replace y with ((if m <=? 2 then y' mod 400 + 1 else y' mod 400) + y' / 400 * 400) in Hd
      by (subst y'; destruct (m <=? 2); lia).
    by rewrite days_in_mod in Hd.
  - rewrite Z.sub_add, Z.add_comm, Z_mod_plus_full, Z.mod_small, E by lia.
    rewrite Z.div_add, Z.div_small by lia. do 2 f_equal.
    subst y'. destruct (m <=? 2); lia.
Qed.

Lemma civil_of_unix_unix c : valid_civil c -> civil_of_unix (unix c) (nsec c) = c.
Proof.
  intros (Hm & Hd & Hh & Hmi & Hs). unfold civil_of_unix, unix.
  set (D := days_from_civil _ _ _). assert (0 <= hour c * 3600 + minute c * 60 + second c < 86400) by lia.
  replace ((D * 86400 + hour c * 3600 + minute c * 60 + second c) / 86400) with D by dlia.
  replace ((D * 86400 + hour c * 3600 + minute c * 60 + second c) mod 86400)
    with (hour c * 3600 + minute c * 60 + second c) by dlia.
  subst D. rewrite civil_from_days_from_civil by done. destruct c; cbn in *.
  f_equal; dlia.
Qed.

Lemma days_from_civil_day y m d : days_from_civil y m 1 + d - 1 = days_from_civil y m d.
Proof. unfold days_from_civil, day_of_era. lia. Qed.

(** [time.Date] of fields in range is those fields. *)
Lemma go_date_valid c :
  valid_civil c -> nsec c = 0 ->
  go_date (year c) (month c) (day c) (hour c) (minute c) (second c) = c.
Proof.
  intros Hc Hn. unfold go_date. pose proof (proj1 Hc) as Hm.
  replace ((month c - 1) / 12) with 0 by dlia.
  replace ((month c - 1) mod 12 + 1) with (month c) by dlia.
  rewrite Z.add_0_r, days_from_civil_day.
  transitivity (civil_of_unix (unix c) (nsec c)); [by rewrite Hn|]. by apply civil_of_unix_unix.
Qed.
