(* ===== verification/Term.v ===== *)
(** * Text for a caller's terminal: [internal/term]

    Character sets ([charset.go]), sanitising and wrapping ([text.go]), pipe
    colour codes ([render.go]) and ANSI art files ([art.go]).  The theorems: a
    caller's text cannot inject colour codes or control bytes once escaped, a
    panel row has exactly the width asked for, wrapping loses nothing but spaces
    and never exceeds the width, the CP437 table is a bijection, and art shown on
    a terminal without colour carries no escape sequence. *)

From Stdlib Require Import Ascii String ZArith Lia.
From stdpp Require Import base tactics list gmap strings.
From S2P Require Import Prelude GoStrings.
Open Scope Z_scope.

(** ** charset.go *)

Inductive Charset := UTF8 | CP437 | ASCII.

Global Instance Charset_eq_dec : EqDecision Charset.
Proof. solve_decision. Defined.

Definition Charset_String (c : Charset) : bytes :=
  match c with UTF8 => str "UTF-8" | CP437 => str "CP437" | ASCII => str "ASCII" end.

(** The rune of a one-rune literal. *)
Definition rune_of (s : String.string) : Z := hd 0 (runes (bytes_of_string s)).
Arguments rune_of s%_string.
Abbreviation rune s := (ltac:(let v := eval vm_compute in (rune_of s) in exact v)) (only parsing).

Definition cp437High : bytes :=
  str "ÇüéâäàåçêëèïîìÄÅ"
   ++ str "ÉæÆôöòûùÿÖÜ¢£¥₧ƒ"
   ++ str "áíóúñÑªº¿⌐¬½¼¡«»"
   ++ str "░▒▓│┤╡╢╖╕╣║╗╝╜╛┐"
   ++ str "└┴┬├─┼╞╟╚╔╩╦╠═╬╧"
   ++ str "╨╤╥╙╘╒╓╫╪┘┌█▄▌▐▀"
   ++ str "αßΓπΣσµτΦΘΩδ∞φε∩"
   ++ str "≡±≥≤⌠⌡÷≈°∙·√ⁿ²■" ++ [194; 160].

Definition cp437Runes : list Z := Eval vm_compute in runes cp437High.

(** [cp437Bytes[r] = 0x80 + n] for the n-th glyph. *)
Definition cp437Bytes : gmap Z Z := list_to_map (zip cp437Runes (seqZ 128 128)).

Definition asciiFallback : gmap Z Z :=
  foldl (fun m r => <[r := ch "+"]> m)
   (list_to_map [
    (rune "─", ch "-"); (rune "━", ch "-"); (rune "═", ch "="); (rune "│", ch "|"); (rune "┃", ch "|"); (rune "║", ch "|");
    (rune "█", ch "#"); (rune "▓", ch "#"); (rune "▒", ch "%"); (rune "░", ch "."); (rune "▄", ch "="); (rune "▀", ch "=");
    (rune "▌", ch "|"); (rune "▐", ch "|"); (rune "■", ch "*"); (rune "·", ch "."); (rune "∙", ch "."); (rune "•", ch "*");
    (rune "»", ch ">"); (rune "«", ch "<"); (rune "√", ch "v"); (rune "…", ch "."); (rune "–", ch "-"); (rune "—", ch "-");
    (rune "‘", ch "'"); (rune "’", ch "'"); (rune "“", 34); (rune "”", 34); (160, ch " ")])
   (runes (str "┌┐└┘├┤┬┴┼╔╗╚╝╠╣╦╩╬╒╓╕╖╘╙╛╜╞╟╡╢╤╥╧╨╪╫")).

Definition DecodeCP437 (b : Z) : Z := if b <? 128 then b else nth (Z.to_nat (b - 128)) cp437Runes 0.

Definition fallback (r : Z) : Z := default (ch "?") (asciiFallback !! r).

Definition encode_one (cs : Charset) (r : Z) : Z :=
  if r <? 128 then r
  else match cs with
       | CP437 => match cp437Bytes !! r with Some b => b | None => fallback r end
       | _ => fallback r
       end.

Definition Encode (cs : Charset) (s : bytes) : bytes :=
  match cs with UTF8 => s | _ => encode_one cs <$> runes s end.

Definition TranscodeCP437 (data : bytes) (cs : Charset) : bytes :=
  match cs with
  | CP437 => data
  | _ => data ≫= fun b =>
      if b <? 128 then [b]
      else match cs with
           | UTF8 => encode_rune (DecodeCP437 b)
           | _ => [fallback (DecodeCP437 b)]
           end
  end.

(** ** text.go *)

(** [unicode.IsControl] and the [Bidi_Control] property. *)
Definition is_control (r : Z) : bool := between 0 31 r || between 127 159 r.
Definition is_bidi_control (r : Z) : bool :=
  (r =? 1564) || between 8206 8207 r || between 8234 8238 r || between 8294 8297 r.

Definition keep_rune (r : Z) : bool :=
  negb ((r =? rune_error) || is_control r || is_bidi_control r).

Definition StripControl (s : bytes) : bytes :=
  map_runes (fun r => if keep_rune r then Some r else None) s.

Definition Truncate (s : bytes) (n : Z) : bytes :=
  if rune_count s <=? n then s else utf8 (take (Z.to_nat n) (runes s)).

Definition Clean (s : bytes) (max : Z) : bytes := Truncate (trim_space (StripControl s)) max.

Definition Pad (s : bytes) (n : Z) : bytes :=
  let count := rune_count s in
  if n <=? count then Truncate s n else s ++ replicate (Z.to_nat (n - count)) 32.

(** The cut of one line: the last space at index [i] or before it, at an index
    above 0, or [width]. *)
Fixpoint find_cut (rs : list Z) (width i : nat) : nat :=
  match i with
  | O => width
  | S k => if nth i rs 0 =? 32 then i else find_cut rs width k
  end.

(** The loop of [wrapLine]; every turn drops at least one rune, so the number
    of runes is enough fuel. *)
Fixpoint wrap_runes (fuel : nat) (rs : list Z) (width : nat) : list (list Z) :=
  match fuel with
  | S f =>
      if (width <? length rs)%nat then
        let cut := find_cut rs width width in
        trim_right (take cut rs) [32] :: wrap_runes f (trim_left (drop cut rs) [32]) width
      else [rs]
  | O => [rs]
  end.

Definition wrapLine (line : bytes) (width : nat) : list bytes :=
  utf8 <$> wrap_runes (length (runes line)) (runes line) width.

Definition Wrap (text : bytes) (width : Z) : list bytes :=
  split_byte text (ch "010") ≫= fun para => wrapLine para (Z.to_nat (Z.max width 1)).

(** ** render.go *)

Inductive ColorMode := NoColor | ANSI16 | ANSI256.

Global Instance ColorMode_eq_dec : EqDecision ColorMode.
Proof. solve_decision. Defined.

Definition defaultFG : Z := 7.
Definition defaultBG : Z := 0.
Definition clearScreen : bytes := 27 :: str "[2J" ++ 27 :: str "[H".
Definition dosToANSI : list Z := [0; 4; 2; 6; 1; 5; 3; 7].
Definition vga256 : list Z :=
  [16; 19; 34; 37; 124; 127; 130; 248; 240; 63; 83; 87; 203; 207; 227; 231].

Record Renderer := MkRenderer { mode : ColorMode; fg : Z; bg : Z }.

Definition NewRenderer (m : ColorMode) : Renderer := MkRenderer m defaultFG defaultBG.

Definition color (r : Renderer) : bool := negb (bool_decide (mode r = NoColor)).

(** Indexing a Go array; the theorems show the index is in range. *)
Definition at_index (l : list Z) (i : Z) : Z := nth (Z.to_nat i) l 0.

Definition sgr (r : Renderer) : bytes :=
  match mode r with
  | ANSI256 =>
      27 :: str "[0;38;5;" ++ itoa (at_index vga256 (fg r)) ++ str ";48;5;"
      ++ itoa (at_index vga256 (bg r)) ++ str "m"
  | _ =>
      let bold := if 8 <=? fg r then str "1;" else [] in
      27 :: str "[0;" ++ bold ++ str "3" ++ itoa (at_index dosToANSI (fg r mod 8))
      ++ str ";4" ++ itoa (at_index dosToANSI (bg r)) ++ str "m"
  end.

(** [code]: what the two bytes after a pipe stand for, or [None] when they are
    no code. *)
Definition code (r : Renderer) (c0 c1 : Z) : option (bytes * Renderer) :=
  let dflt := MkRenderer (mode r) defaultFG defaultBG in
  if bool_decide ([c0; c1] = str "CL") then
    Some (if color r then sgr dflt ++ clearScreen else [ch "010"], dflt)
  else if bool_decide ([c0; c1] = str "RE") then
    Some (if color r then sgr dflt else [], dflt)
  else if negb (is_digit c0) || negb (is_digit c1) then None
  else
    let n := (c0 - 48) * 10 + (c1 - 48) in
    if n <=? 15 then
      let r' := MkRenderer (mode r) n (bg r) in Some (if color r then sgr r' else [], r')
    else if n <=? 23 then
      let r' := MkRenderer (mode r) (fg r) (n - 16) in Some (if color r then sgr r' else [], r')
    else None.

Definition pipe : Z := ch "|".

(** The loop of [Render]; [skip] bytes of a code are still to be passed over. *)
Fixpoint render_go (r : Renderer) (s : bytes) (skip : nat) : bytes * Renderer :=
  match s with
  | [] => ([], r)
  | c :: s1 =>
      match skip with
      | S k => render_go r s1 k
      | O =>
          if c =? pipe then
            match s1 with
            | c1 :: s2 =>
                if c1 =? pipe then
                  let '(o, r') := render_go r s1 1 in (pipe :: o, r')
                else
                  match s2 with
                  | c2 :: _ =>
                      match code r c1 c2 with
                      | Some (sq, r1) => let '(o, r') := render_go r1 s1 2 in (sq ++ o, r')
                      | None => let '(o, r') := render_go r s1 0 in (pipe :: o, r')
                      end
                  | [] => let '(o, r') := render_go r s1 0 in (pipe :: o, r')
                  end
            | [] => ([pipe], r)
            end
          else let '(o, r') := render_go r s1 0 in (c :: o, r')
      end
  end.

Definition Render (r : Renderer) (s : bytes) : bytes * Renderer :=
  if contains_byte s pipe then render_go r s 0 else (s, r).

Definition Escape (s : bytes) : bytes := replace_all s [pipe] [pipe; pipe].

Definition VisibleLen (s : bytes) : Z := rune_count (fst (Render (NewRenderer NoColor) s)).

Definition isCode (c0 c1 : Z) : bool :=
  if bool_decide ([c0; c1] = str "CL") || bool_decide ([c0; c1] = str "RE") then true
  else if negb (is_digit c0) || negb (is_digit c1) then false
  else (c0 - 48) * 10 + (c1 - 48) <=? 23.

(** The loop of [TruncateVisible]; [copy] bytes of a rune or code are still to
    be written out. *)
Fixpoint truncate_go (s : bytes) (n visible : Z) (copy : nat) : bytes :=
  match s with
  | [] => []
  | c :: s1 =>
      match copy with
      | S k => c :: truncate_go s1 n visible k
      | O =>
          if (c =? pipe) && bool_decide (head s1 = Some pipe) then
            if visible =? n then [] else c :: truncate_go s1 n (visible + 1) 1
          else if (c =? pipe) && match s1 with c1 :: c2 :: _ => isCode c1 c2 | _ => false end then
            c :: truncate_go s1 n visible 2
          else if visible =? n then []
          else c :: truncate_go s1 n (visible + 1) (snd (decode_rune s) - 1)
      end
  end.

Definition TruncateVisible (s : bytes) (n : Z) : bytes := truncate_go s n 0 0.

(** ** art.go *)

Definition dosEOF : Z := 26.
Definition maxCursorShift : Z := 255.
Definition ansiReset : bytes := 27 :: str "[0m".

Definition StripSAUCE (data : bytes) : bytes :=
  let i := index_byte data dosEOF in
  if 0 <=? i then slice_to data i else data.

(** The number of bytes up to and including the final byte of a CSI sequence. *)
Fixpoint csi_len (data : bytes) : option nat :=
  match data with
  | [] => None
  | b :: data' => if between 64 126 b then Some 1%nat else S <$> csi_len data'
  end.

(** [csiEnd]: the index of the final byte, or -1. *)
Definition csiEnd (data : bytes) (from : Z) : Z :=
  match csi_len (slice_from data from) with Some m => from + Z.of_nat m - 1 | None => -1 end.

(** What [appendCSI] appends for the sequence [seq]. *)
Definition appendCSI (sq : bytes) (color : bool) : bytes :=
  if color then sq
  else if negb (bool_decide (last sq = Some (ch "C"))) then []
  else
    let params := slice sq 2 (len sq - 1) in
    let n := if bool_decide (params = []) then 1
             else let '(v, ok) := atoi params in if ok : bool then v else 1 in
    replicate (Z.to_nat (Z.min (Z.max n 0) maxCursorShift)) 32.

(** The loop of [ConvertANSIArt]; [prev] is the byte before, [skip] bytes of a
    CSI sequence are still to be passed over. *)
Fixpoint art_go (cs : Charset) (color : bool) (data : bytes) (prev : Z) (skip : nat) : bytes :=
  match data with
  | [] => []
  | b :: data' =>
      match skip with
      | S k => art_go cs color data' b k
      | O =>
          if (b =? 27) && bool_decide (head data' = Some (ch "[")) then
            match csi_len (tail data') with
            | None => []
            | Some m => appendCSI (take (2 + m) data) color ++ art_go cs color data' b (1 + m)
            end
          else
            (if b =? 10 then (if prev =? 13 then [] else [13]) ++ [10]
             else if (b =? 13) || (b =? 9) then [b]
             else if (b <? 32) || (b =? 127) then []
             else match cs with
                  | CP437 => [b]
                  | UTF8 => encode_rune (DecodeCP437 b)
                  | ASCII => Encode ASCII (encode_rune (DecodeCP437 b))
                  end)
            ++ art_go cs color data' b 0
      end
  end.

Definition ConvertANSIArt (data : bytes) (cs : Charset) (color : bool) : bytes :=
  art_go cs color (StripSAUCE data) (-1) 0 ++ (if color then ansiReset else []).

(** [safe] of [internal/bbs/session.go]: text from a caller, for a pipe-coded screen. *)
Definition safe (v : bytes) : bytes := Escape (StripControl v).

(** [fit] of [internal/bbs/ui.go]: a row of a panel. *)
Definition fit (text : bytes) (width : Z) : bytes :=
  let text := TruncateVisible text width in
  text ++ replicate (Z.to_nat (Z.max (width - VisibleLen text) 0)) 32.

(** * Lemmas *)

(** ** Runes of arbitrary bytes *)

Lemma runes_go_valid s skip : bytes_ok s -> Forall (fun r => valid_rune r = true) (runes_go s skip).
Proof.
  revert skip. induction s as [|b s IH]; intros skip Hs; [constructor|].
  pose proof Hs as [_ Hs']%Forall_cons. cbn [runes_go]. destruct skip as [|k]; [|by apply IH].
  pose proof (decode_rune_valid (b :: s) Hs ltac:(done)) as Hv.
  destruct (decode_rune (b :: s)) as [r n]. constructor; [done|by apply IH].
Qed.

Lemma runes_valid s : bytes_ok s -> Forall (fun r => valid_rune r = true) (runes s).
Proof. apply runes_go_valid. Qed.

Lemma encode_rune_bytes r :
  valid_rune r = true ->
  (r < 128 /\ encode_rune r = [r]) \/ (128 <= r /\ Forall (fun b => 128 <= b < 256) (encode_rune r)).
Proof.
  intros Hr. unfold encode_rune. rewrite Hr. cbn [negb].
  apply orb_prop in Hr. rewrite !andb_true_iff, !Z.leb_le, !Z.ltb_lt in Hr.
  destruct (Z.ltb_spec r 128); [by left|right]. split; [done|].
  destruct (Z.ltb_spec r 2048); [|destruct (Z.ltb_spec r 65536)]; repeat constructor; dlia.
Qed.

Lemma utf8_bytes (P : Z -> Prop) rs :
  (forall b, 128 <= b < 256 -> P b) -> Forall (fun r => valid_rune r = true /\ (r < 128 -> P r)) rs ->
  Forall P (utf8 rs).
Proof.
  intros Hhi. induction 1 as [|r rs [Hv Hr] _ IH]; [constructor|].
  rewrite utf8_cons. apply Forall_app. split; [|done].
  destruct (encode_rune_bytes r Hv) as [[? ->]|[_ Hb]]; [by repeat constructor; auto|].
  eapply Forall_impl; [exact Hb|done].
Qed.

Lemma runes_map_runes f s :
  bytes_ok s -> (forall r r', f r = Some r' -> valid_rune r = true -> valid_rune r' = true) ->
  runes (map_runes f s) = omap f (runes s).
Proof.
  intros Hs Hf. apply runes_utf8. pose proof (runes_valid s Hs) as Hv.
  induction Hv as [|r rs Hr _ IH]; cbn; [constructor|].
  destruct (f r) eqn:E; cbn; [|done]. constructor; eauto.
Qed.

Lemma rune_count_app_encode r s : valid_rune r = true -> rune_count (encode_rune r ++ s) = 1 + rune_count s.
Proof. intros. unfold rune_count. by rewrite runes_encode, len_cons by done. Qed.

(** ** Sanitised text *)

Definition clean_byte (b : Z) : Prop := 32 <= b < 256 /\ b <> 127.

Lemma keep_rune_clean r : keep_rune r = true -> r < 128 -> valid_rune r = true -> clean_byte r.
Proof.
  unfold keep_rune, is_control, between, valid_rune, clean_byte. intros Hk Hr Hv.
  apply orb_prop in Hv. bool_prop.
  rewrite !andb_true_iff, !Z.leb_le, !Z.ltb_lt in Hv.
  repeat match goal with H : (_ && _)%bool = false |- _ => apply andb_false_iff in H end.
  bool_prop. rewrite !Z.leb_gt in *. lia.
Qed.

Lemma StripControl_runes s :
  bytes_ok s -> runes (StripControl s) = filter (fun r => keep_rune r = true) (runes s).
Proof.
  intros Hs. unfold StripControl. rewrite runes_map_runes; [|done|].
  - induction (runes s) as [|r rs IH]; [done|]. rewrite filter_cons, <-IH.
    cbn [omap list_omap]. by destruct (keep_rune r) eqn:E; case_decide.
  - intros r r'. destruct (keep_rune r); congruence.
Qed.

Lemma StripControl_clean s : bytes_ok s -> Forall clean_byte (StripControl s).
Proof.
  intros Hs. apply utf8_bytes; [unfold clean_byte; lia|].
  induction (runes_valid s Hs) as [|r rs Hr _ IH]; cbn; [constructor|].
  destruct (keep_rune r) eqn:E; [|done]. constructor; [|done].
  split; [done|]. intros. by apply keep_rune_clean.
Qed.

(** Printable ASCII is left alone by all of them. *)
Definition print_byte (b : Z) : Prop := 32 <= b < 127.

Lemma plain_runes s : Forall print_byte s -> runes s = s.
Proof. intros Hs. apply runes_ascii. eapply Forall_impl; [exact Hs|]. unfold print_byte. lia. Qed.

Lemma plain_kept b : print_byte b -> keep_rune b = true.
Proof.
  unfold print_byte. intros Hb. assert (forallb keep_rune (seqZ 32 95) = true) as Hk by (vm_compute; reflexivity).
  apply (proj1 (forallb_forall _ _) Hk), list_elem_of_In, elem_of_seqZ. lia.
Qed.

Lemma StripControl_plain s : Forall print_byte s -> StripControl s = s.
Proof.
  intros Hs. unfold StripControl, map_runes. rewrite plain_runes by done.
  rewrite <-(utf8_ascii s) at 2 by (eapply Forall_impl; [exact Hs|]; unfold print_byte; lia). f_equal.
  induction Hs as [|b s Hb Hs IH]; [done|]. cbn. by rewrite plain_kept, IH.
Qed.

Lemma Encode_plain s : Forall print_byte s -> Encode CP437 s = s.
Proof.
  intros Hs. unfold Encode. rewrite plain_runes by done. induction Hs as [|b s Hb Hs IH]; [done|]. cbn. rewrite IH.
  unfold encode_one, print_byte in *. by destruct (Z.ltb_spec b 128); [|lia].
Qed.

Lemma Clean_graphic s n : Forall (fun b => graphic b = true) s -> len s <= n -> Clean s n = s.
Proof.
  intros Hs Hn. assert (Forall print_byte s) as Hp.
  { eapply Forall_impl; [exact Hs|]. unfold print_byte, graphic, between. cbn. intros b Hb. bool_prop. lia. }
  unfold Clean, Truncate, rune_count. rewrite StripControl_plain, trim_space_graphic, plain_runes by done. by destruct (Z.leb_spec (len s) n); [|lia].
Qed.

(** ** Pipe codes *)

Lemma Escape_cons c s : Escape (c :: s) = (if c =? pipe then [pipe; pipe] else [c]) ++ Escape s.
Proof.
  unfold Escape, replace_all. cbn -[pipe]. rewrite andb_true_r. by destruct (c =? pipe).
Qed.

Lemma Escape_free s : contains_byte s pipe = false -> Escape s = s.
Proof.
  induction s as [|c s IH]; [done|]. cbn [contains_byte existsb]. intros [Hc Hs]%orb_false_elim.
  rewrite Escape_cons, Z.eqb_sym, Hc. cbn [app]. by rewrite IH.
Qed.

Lemma render_go_plain r c s : c <> pipe -> render_go r (c :: s) 0 = let '(o, r') := render_go r s 0 in (c :: o, r').
Proof. intros Hc. cbn [render_go]. by destruct (Z.eqb_spec c pipe). Qed.

Lemma render_go_free r s : contains_byte s pipe = false -> render_go r s 0 = (s, r).
Proof.
  induction s as [|c s IH]; [done|]. cbn [contains_byte existsb]. intros [Hc Hs]%orb_false_elim.
  rewrite render_go_plain by (by apply Z.eqb_neq in Hc). by rewrite IH.
Qed.

Lemma Render_go r s : Render r s = render_go r s 0.
Proof. unfold Render. destruct (contains_byte s pipe) eqn:E; [done|]. by rewrite render_go_free. Qed.

Lemma render_go_escape r s : render_go r (Escape s) 0 = (s, r).
Proof.
  induction s as [|c s IH]; [done|]. rewrite Escape_cons.
  destruct (Z.eqb_spec c pipe) as [->|Hc]; cbn [app].
  - cbn [render_go]. rewrite !Z.eqb_refl. by rewrite IH.
  - rewrite render_go_plain by done. by rewrite IH.
Qed.

Definition renderer_ok (r : Renderer) : Prop := 0 <= fg r < 16 /\ 0 <= bg r < 8.

Lemma is_digit_range c : is_digit c = true -> 48 <= c <= 57.
Proof. apply udigit_range. Qed.

Lemma code_ok r c0 c1 sq r' :
  renderer_ok r -> code r c0 c1 = Some (sq, r') -> renderer_ok r' /\ mode r' = mode r.
Proof.
  unfold code, renderer_ok, defaultFG, defaultBG. intros Hr.
  destruct (bool_decide ([c0; c1] = str "CL")); [intros [= <- <-]; (split; [cbn; lia|done])|].
  destruct (bool_decide ([c0; c1] = str "RE")); [intros [= <- <-]; (split; [cbn; lia|done])|].
  destruct (is_digit c0) eqn:H0, (is_digit c1) eqn:H1; cbn [negb orb]; try done.
  apply is_digit_range in H0, H1.
  destruct (Z.leb_spec ((c0 - 48) * 10 + (c1 - 48)) 15); [intros [= <- <-]; (split; [cbn; lia|done])|].
  destruct (Z.leb_spec ((c0 - 48) * 10 + (c1 - 48)) 23); [intros [= <- <-]; (split; [cbn; lia|done])|done].
Qed.

(** The shape of one step of [render_go], for inductions over the text. *)
Lemma render_go_cases (Q : Renderer -> bytes -> bytes * Renderer -> Prop) :
  (forall r, Q r [] ([], r)) ->
  (forall r c s res, c <> pipe -> Q r s res -> Q r (c :: s) (c :: res.1, res.2)) ->
  (forall r s res, Q r s res -> Q r (pipe :: pipe :: s) (pipe :: res.1, res.2)) ->
  (forall r c0 c1 sq r' s res, c0 <> pipe -> code r c0 c1 = Some (sq, r') -> Q r' s res ->
     Q r (pipe :: c0 :: c1 :: s) (sq ++ res.1, res.2)) ->
  (forall r s res, head s <> Some pipe ->
     (forall c0 c1 s', s = c0 :: c1 :: s' -> code r c0 c1 = None) -> Q r s res ->
     Q r (pipe :: s) (pipe :: res.1, res.2)) ->
  forall r s, Q r s (render_go r s 0).
Proof.
  intros H0 H1 H2 H3 H4 r s. remember (length s) as n eqn:En. revert r s En.
  induction (lt_wf n) as [n _ IH]. intros r s ->.
  destruct s as [|c s]; [apply H0|].
  destruct (Z.eqb_spec c pipe) as [->|Hc].
  2:{ rewrite render_go_plain by done. pose proof (IH (length s) ltac:(cbn; lia) r s eq_refl) as Hs.
      destruct (render_go r s 0) as [o r']. by apply (H1 r c s (o, r')). }
  cbn [render_go]. rewrite Z.eqb_refl. destruct s as [|c1 s]; [apply (H4 r [] ([], r)); [done|done|apply H0]|].
  destruct (Z.eqb_spec c1 pipe) as [->|Hc1].
  { change (render_go r (pipe :: s) 1) with (render_go r s 0).
    pose proof (IH (length s) ltac:(cbn; lia) r s eq_refl) as Hs.
    destruct (render_go r s 0) as [o r']. by apply (H2 r s (o, r')). }
  pose proof (IH (length (c1 :: s)) ltac:(cbn; lia) r (c1 :: s) eq_refl) as Hs1.
  destruct s as [|c2 s].
  { destruct (render_go r [c1] 0) as [o r']. apply (H4 r [c1] (o, r')); [cbn [head]; congruence|done|done]. }
  destruct (code r c1 c2) as [[sq r1]|] eqn:E.
  - change (render_go r1 (c1 :: c2 :: s) 2) with (render_go r1 s 0).
    pose proof (IH (length s) ltac:(cbn; lia) r1 s eq_refl) as Hs.
    destruct (render_go r1 s 0) as [o r']. by apply (H3 r c1 c2 sq r1 s (o, r')).
  - destruct (render_go r (c1 :: c2 :: s) 0) as [o r']. apply (H4 r _ (o, r')); [cbn [head]; congruence| |done].
    by intros ??? [= <- <- <-].
Qed.

Lemma render_go_ok r s : renderer_ok r -> renderer_ok (render_go r s 0).2 /\ mode (render_go r s 0).2 = mode r.
Proof.
  revert r s. apply (render_go_cases (fun r _ res => renderer_ok r -> renderer_ok res.2 /\ mode res.2 = mode r)).
  all: intros; cbn in *; auto.
  match goal with H : code _ _ _ = Some _ |- _ => apply code_ok in H as [Hok <-] end; auto.
Qed.

(** ** Truncation to visible characters *)

(** Whether the text holds the code that clears the screen, which a renderer
    without colour shows as a line break. *)
Fixpoint has_CL (s : bytes) : bool :=
  match s with [] => false | _ :: s' => has_prefix s (str "|CL") || has_CL s' end.

Lemma has_CL_cons c s : has_CL (c :: s) = false -> has_CL s = false.
Proof. cbn [has_CL]. by intros [_ ?]%orb_false_elim. Qed.

Lemma has_CL_app a s : has_CL (a ++ s) = false -> has_CL s = false.
Proof. induction a as [|c a IH]; [done|]. cbn [app]. intros ?%has_CL_cons. auto. Qed.

(** [Vis s k]: the text [s], with no [|CL] in it, shows [k] characters. *)
Inductive Vis : bytes -> Z -> Prop :=
  | Vis_nil : Vis [] 0
  | Vis_rune r s k : r <> pipe -> valid_rune r = true -> Vis s k -> Vis (encode_rune r ++ s) (1 + k)
  | Vis_pipe s k : Vis s k -> Vis (pipe :: pipe :: s) (1 + k)
  | Vis_code c0 c1 s k : isCode c0 c1 = true -> [c0; c1] <> str "CL" -> Vis s k -> Vis (pipe :: c0 :: c1 :: s) k
  | Vis_lone s k : head s <> Some pipe ->
      (forall c0 c1 s', s = c0 :: c1 :: s' -> isCode c0 c1 = false) -> Vis s k -> Vis (pipe :: s) (1 + k).

Lemma isCode_code r c0 c1 : isCode c0 c1 = bool_decide (is_Some (code r c0 c1)).
Proof.
  unfold isCode, code.
  destruct (bool_decide ([c0; c1] = str "CL")); [done|].
  destruct (bool_decide ([c0; c1] = str "RE")); [done|]. cbn [orb].
  destruct (is_digit c0), (is_digit c1); cbn [negb orb]; try by rewrite bool_decide_eq_false_2 by (by intros [? ?]).
  set (n := (c0 - 48) * 10 + (c1 - 48)).
  destruct (Z.leb_spec n 15), (Z.leb_spec n 23); cbn zeta; try lia.
  1, 2: by rewrite bool_decide_eq_true_2 by eauto.
  by rewrite bool_decide_eq_false_2 by (by intros [? ?]).
Qed.

Lemma isCode_ascii c0 c1 : isCode c0 c1 = true -> c0 < 128 /\ c1 < 128 /\ c0 <> pipe /\ c1 <> pipe.
Proof.
  unfold isCode, pipe. destruct (bool_decide ([c0; c1] = str "CL")) eqn:E1.
  { apply bool_decide_eq_true_1 in E1 as [= -> ->]. lia. }
  destruct (bool_decide ([c0; c1] = str "RE")) eqn:E2.
  { apply bool_decide_eq_true_1 in E2 as [= -> ->]. lia. }
  cbn [orb]. destruct (is_digit c0) eqn:H0, (is_digit c1) eqn:H1; try done.
  apply is_digit_range in H0, H1. lia.
Qed.

Lemma code_plain r c0 c1 sq r' :
  mode r = NoColor -> [c0; c1] <> str "CL" -> code r c0 c1 = Some (sq, r') -> sq = [] /\ mode r' = NoColor.
Proof.
  intros Hm Hcl. unfold code. rewrite bool_decide_eq_false_2 by done.
  assert (color r = false) as -> by (unfold color; by rewrite Hm).
  destruct (bool_decide ([c0; c1] = str "RE")); [by intros [= <- <-]|].
  destruct (negb (is_digit c0) || negb (is_digit c1)); [done|].
  destruct (_ <=? 15); [by intros [= <- <-]|]. destruct (_ <=? 23); [by intros [= <- <-]|done].
Qed.

Lemma render_go_app r a s :
  contains_byte a pipe = false -> render_go r (a ++ s) 0 = (a ++ (render_go r s 0).1, (render_go r s 0).2).
Proof.
  induction a as [|c a IH]; [cbn [app]; by destruct (render_go r s 0)|].
  cbn [contains_byte existsb app]. intros [Hc Ha]%orb_false_elim.
  rewrite render_go_plain by (by apply Z.eqb_neq in Hc). by rewrite IH.
Qed.

Lemma encode_rune_no_pipe r : valid_rune r = true -> r <> pipe -> contains_byte (encode_rune r) pipe = false.
Proof.
  intros Hv Hr. apply contains_byte_false.
  destruct (encode_rune_bytes r Hv) as [[_ ->]|[_ Hb]]; [by rewrite list_elem_of_singleton|].
  rewrite Forall_forall in Hb. intros Hin%Hb. unfold pipe in Hin. lia.
Qed.

Lemma render_go_lone r s :
  head s <> Some pipe -> (forall c0 c1 s', s = c0 :: c1 :: s' -> isCode c0 c1 = false) ->
  render_go r (pipe :: s) 0 = (pipe :: (render_go r s 0).1, (render_go r s 0).2).
Proof.
  intros Hh Hc. cbn [render_go]. rewrite Z.eqb_refl. destruct s as [|c0 s]; [done|].
  destruct (Z.eqb_spec c0 pipe) as [->|_]; [done|].
  destruct s as [|c1 s]; [by destruct (render_go r [c0] 0)|].
  specialize (Hc c0 c1 s eq_refl). rewrite (isCode_code r) in Hc. apply bool_decide_eq_false_1 in Hc.
  destruct (code r c0 c1) as [[sq r']|]; [by destruct Hc|]. by destruct (render_go r (c0 :: c1 :: s) 0).
Qed.

Lemma isCode_no_space c0 : isCode c0 32 = false.
Proof.
  unfold isCode. rewrite !bool_decide_eq_false_2 by congruence. cbn [orb].
  by destruct (is_digit c0).
Qed.

(** A text that shows [k] characters and [m] spaces show [k + m]. *)
Lemma Vis_render r s k m :
  mode r = NoColor -> Vis s k -> rune_count (render_go r (s ++ replicate m 32) 0).1 = k + Z.of_nat m.
Proof.
  intros Hm Hs. revert r Hm. induction Hs as [|c s k Hc Hv Hs IH|s k Hs IH|c0 c1 s k Hi Hcl Hs IH|s k Hh Hl Hs IH]; intros r Hm.
  - cbn [app]. rewrite render_go_free.
    + cbn [fst]. rewrite <-(utf8_ascii (replicate m 32)) by (apply Forall_replicate; lia).
      unfold rune_count. rewrite runes_utf8; [unfold len; rewrite length_replicate; lia|].
      by apply Forall_replicate.
    + apply contains_byte_false. intros [? _]%elem_of_replicate. discriminate.
  - rewrite <-app_assoc, render_go_app by (by apply encode_rune_no_pipe). cbn [fst].
    rewrite rune_count_app_encode by done. rewrite IH by done. lia.
  - cbn [app render_go]. rewrite !Z.eqb_refl. specialize (IH r Hm).
    destruct (render_go r (s ++ replicate m 32) 0) as [o r']. cbn [fst] in *.
    rewrite <-Z.add_assoc, <-IH. exact (rune_count_app_encode pipe o eq_refl).
  - pose proof (isCode_ascii _ _ Hi) as (_ & _ & Hp & _). cbn [app render_go]. rewrite Z.eqb_refl.
    destruct (Z.eqb_spec c0 pipe); [done|]. rewrite (isCode_code r) in Hi. apply bool_decide_eq_true_1 in Hi.
    destruct Hi as [[sq r'] E]. rewrite E. pose proof (code_plain _ _ _ _ _ Hm Hcl E) as [-> Hm'].
    rewrite <-(IH r' Hm'). by destruct (render_go r' (s ++ replicate m 32) 0).
  - cbn [app]. rewrite render_go_lone.
    + cbn [fst]. rewrite <-Z.add_assoc, <-(IH r Hm). exact (rune_count_app_encode pipe _ eq_refl).
    + destruct s; [by destruct m|done].
    + intros c0 c1 s' E. destruct s as [|x [|y s]]; cbn [app] in E.
      * destruct m as [|[|m]]; cbn [replicate] in E; [done|done|]. by injection E as <- <- _.
      * destruct m; cbn [replicate] in E; [done|]. injection E as <- <- _. apply isCode_no_space.
      * injection E as <- <- _. by eapply Hl.
Qed.

Lemma truncate_prefix s n v copy : truncate_go s n v copy `prefix_of` s.
Proof.
  revert v copy. induction s as [|c s IH]; intros v copy; cbn [truncate_go]; [done|].
  destruct copy; [|by apply prefix_cons].
  repeat match goal with |- context [if ?b then _ else _] => destruct b end;
    first [by apply prefix_cons|apply prefix_nil].
Qed.

Lemma truncate_copy a s n v : truncate_go (a ++ s) n v (length a) = a ++ truncate_go s n v 0.
Proof. revert v. induction a as [|c a IH]; intros v; [done|]. cbn. by rewrite IH. Qed.

Lemma utf8_head_ascii rs b s :
  b < 128 -> Forall (fun r => valid_rune r = true) rs -> utf8 rs = b :: s -> exists rs', rs = b :: rs' /\ s = utf8 rs'.
Proof.
  intros Hb Hv E. destruct Hv as [|r rs Hr Hv]; [done|]. rewrite utf8_cons in E.
  destruct (encode_rune_bytes r Hr) as [[_ Er]|[_ Hbs]].
  - rewrite Er in E. injection E as -> <-. by exists rs.
  - destruct (encode_rune_cons r) as (x & xs & Ex). rewrite Ex in E, Hbs. injection E as -> <-.
    apply Forall_cons in Hbs as [? _]. lia.
Qed.

Lemma has_CL_code c0 c1 s : has_CL (pipe :: c0 :: c1 :: s) = false -> [c0; c1] <> str "CL".
Proof. by intros H [= -> ->]. Qed.

Lemma truncate_go_rune r n rs v :
  valid_rune r = true -> r <> pipe ->
  truncate_go (encode_rune r ++ utf8 rs) n v 0 = if v =? n then [] else encode_rune r ++ truncate_go (utf8 rs) n (v + 1) 0.
Proof.
  intros Hr Hp. destruct (encode_rune_cons r) as (b & bs & Eb).
  assert (b <> pipe) as Hb.
  { pose proof (encode_rune_no_pipe r Hr Hp) as Hn. rewrite Eb in Hn. apply contains_byte_false in Hn.
    intros ->. apply Hn, list_elem_of_here. }
  rewrite Eb. cbn [app truncate_go]. apply Z.eqb_neq in Hb as Hb'. rewrite Hb'. cbn [andb].
  change (b :: bs ++ utf8 rs) with ((b :: bs) ++ utf8 rs). rewrite <-Eb, decode_encode_rune, Eb by done.
  cbn [snd length app]. destruct (v =? n); [done|]. f_equal.
  rewrite Nat.sub_succ, Nat.sub_0_r. apply truncate_copy.
Qed.

(** [truncate_go] on valid text yields text that shows what is left of the limit. *)
Lemma truncate_vis n rs v :
  Forall (fun r => valid_rune r = true) rs -> has_CL (utf8 rs) = false -> v <= n ->
  exists k, Vis (truncate_go (utf8 rs) n v 0) k /\ k <= n - v.
Proof.
  remember (length rs) as m eqn:Em. revert rs v Em.
  induction (lt_wf m) as [m _ IH]. intros rs v -> Hv Hcl Hvn.
  destruct Hv as [|r rs Hr Hv]; [exists 0; split; [constructor|lia]|].
  rewrite utf8_cons in Hcl |- *. pose proof (has_CL_app _ _ Hcl) as Hcl'.
  destruct (decide (r = pipe)) as [->|Hp].
  2:{ rewrite truncate_go_rune by done.
      destruct (Z.eqb_spec v n); [exists 0; split; [constructor|lia]|].
      destruct (IH (length rs) ltac:(cbn; lia) rs (v + 1) eq_refl Hv Hcl' ltac:(lia)) as (k & Hk & Hle).
      exists (1 + k). split; [by apply Vis_rune|lia]. }
  change (encode_rune pipe) with [pipe] in *. cbn [app truncate_go] in *. rewrite Z.eqb_refl. cbn [andb].
  destruct (bool_decide (head (utf8 rs) = Some pipe)) eqn:Eh.
  { apply bool_decide_eq_true_1 in Eh. destruct (utf8 rs) as [|c s] eqn:Es; [done|]. injection Eh as ->.
    apply utf8_head_ascii in Es as (rs' & -> & ->); [|done|done]. apply Forall_cons in Hv as [_ Hv].
    destruct (Z.eqb_spec v n); [exists 0; split; [constructor|lia]|].
    destruct (IH (length rs') ltac:(cbn; lia) rs' (v + 1) eq_refl Hv) as (k & Hk & Hle);
      [by apply has_CL_cons in Hcl'|lia|].
    exists (1 + k). split; [by apply Vis_pipe|lia]. }
  apply bool_decide_eq_false_1 in Eh.
  destruct (match utf8 rs with c1 :: c2 :: _ => isCode c1 c2 | _ => false end) eqn:Ec.
  { destruct (utf8 rs) as [|c1 [|c2 s]] eqn:Es; [done|done|].
    pose proof (isCode_ascii _ _ Ec) as (H1 & H2 & _).
    apply utf8_head_ascii in Es as (rs' & -> & Es); [|done|done]. apply Forall_cons in Hv as [_ Hv].
    symmetry in Es. apply utf8_head_ascii in Es as (rs'' & -> & ->); [|done|done]. apply Forall_cons in Hv as [_ Hv].
    destruct (IH (length rs'') ltac:(cbn; lia) rs'' v eq_refl Hv) as (k & Hk & Hle); [by do 2 apply has_CL_cons in Hcl'|lia|].
    exists k. split; [|done]. apply Vis_code; [done|by eapply has_CL_code|done]. }
  destruct (Z.eqb_spec v n); [exists 0; split; [constructor|lia]|].
  destruct (IH (length rs) ltac:(cbn; lia) rs (v + 1) eq_refl Hv Hcl' ltac:(lia)) as (k & Hk & Hle).
  exists (1 + k). split; [|lia].
  destruct (truncate_prefix (utf8 rs) n (v + 1) 0) as [t Et].
  change ((decode_rune (pipe :: utf8 rs)).2 - 1)%nat with 0%nat.
  apply Vis_lone; [| |exact Hk].
  - intros Hh. apply Eh. rewrite Et. revert Hh. by destruct (truncate_go (utf8 rs) n (v + 1) 0).
  - intros c0 c1 s' E. rewrite E in Et. by rewrite Et in Ec.
Qed.

Lemma VisibleLen_vis s k m : Vis s k -> VisibleLen (s ++ replicate m 32) = k + Z.of_nat m.
Proof. intros. unfold VisibleLen. rewrite Render_go. by apply Vis_render. Qed.

(** ** Wrapping *)

Definition text_rune (r : Z) : Prop := r <> 32.

Lemma trim_left_suffix s cs : trim_left s cs `suffix_of` s.
Proof. induction s as [|c s IH]; cbn; [done|]. case_match; [by apply suffix_cons_r|done]. Qed.

Lemma trim_left_text s : filter text_rune (trim_left s [32]) = filter text_rune s.
Proof.
  induction s as [|c s IH]; [done|]. cbn [trim_left contains_byte existsb]. rewrite orb_false_r.
  destruct (Z.eqb_spec c 32) as [->|]; [|done].
  rewrite filter_cons_False by (unfold text_rune; lia). done.
Qed.

Lemma trim_right_text s : filter text_rune (trim_right s [32]) = filter text_rune s.
Proof. unfold trim_right. by rewrite filter_reverse, trim_left_text, <-filter_reverse, reverse_involutive. Qed.

Lemma trim_right_length s cs : (length (trim_right s cs) <= length s)%nat.
Proof.
  unfold trim_right. rewrite length_reverse, <-(length_reverse s).
  destruct (trim_left_suffix (reverse s) cs) as [t Et]. apply (f_equal length) in Et.
  rewrite length_app in Et. lia.
Qed.

Lemma find_cut_bound rs width i : (i <= width -> 0 < width -> 0 < find_cut rs width i <= width)%nat.
Proof. induction i as [|i IH]; cbn [find_cut]; intros; [lia|]. case_match; [lia|apply IH; lia]. Qed.

Lemma wrap_runes_spec fuel rs width :
  (0 < width)%nat -> (length rs <= fuel)%nat ->
  Forall (fun l => (length l <= width)%nat) (wrap_runes fuel rs width)
  /\ filter text_rune (concat (wrap_runes fuel rs width)) = filter text_rune rs.
Proof.
  intros Hw. revert rs. induction fuel as [|fuel IH]; intros rs Hf; cbn [wrap_runes].
  { destruct rs; [|cbn in Hf; lia]. split; [by repeat constructor; cbn; lia|done]. }
  destruct (Nat.ltb_spec width (length rs)).
  2:{ split; [by repeat constructor|]. cbn [concat]. by rewrite app_nil_r. }
  pose proof (find_cut_bound rs width width ltac:(lia) Hw) as Hc. set (cut := find_cut rs width width) in *.
  destruct (trim_left_suffix (drop cut rs) [32]) as [t Et].
  destruct (IH (trim_left (drop cut rs) [32])) as [IH1 IH2].
  { apply (f_equal length) in Et. rewrite length_app, length_drop in Et. lia. }
  split.
  - constructor; [|done]. etransitivity; [apply trim_right_length|]. rewrite length_take. lia.
  - cbn [concat]. rewrite filter_app, IH2, trim_right_text, trim_left_text, <-filter_app, take_drop. done.
Qed.

Lemma wrap_runes_valid (P : Z -> Prop) fuel rs width :
  Forall P rs -> Forall (Forall P) (wrap_runes fuel rs width).
Proof.
  revert rs. induction fuel as [|fuel IH]; intros rs Hv; cbn [wrap_runes]; [by repeat constructor|].
  destruct (width <? length rs)%nat; [|by repeat constructor]. constructor.
  - unfold trim_right. apply Forall_reverse.
    destruct (trim_left_suffix (reverse (take (find_cut rs width width) rs)) [32]) as [t Et].
    assert (Forall P (t ++ trim_left (reverse (take (find_cut rs width width) rs)) [32])) as [_ ?]%Forall_app; [|done].
    rewrite <-Et. by apply Forall_reverse, Forall_take.
  - apply IH. destruct (trim_left_suffix (drop (find_cut rs width width) rs) [32]) as [t Et].
    assert (Forall P (t ++ trim_left (drop (find_cut rs width width) rs) [32])) as [_ ?]%Forall_app; [|done].
    rewrite <-Et. by apply Forall_drop.
Qed.

Lemma wrapLine_spec line width :
  bytes_ok line -> (0 < width)%nat ->
  Forall (fun l => rune_count l <= Z.of_nat width) (wrapLine line width)
  /\ filter text_rune (wrapLine line width ≫= runes) = filter text_rune (runes line).
Proof.
  intros Hb Hw. unfold wrapLine.
  destruct (wrap_runes_spec (length (runes line)) (runes line) width Hw (le_n _)) as [H1 H2].
  pose proof (wrap_runes_valid _ (length (runes line)) _ width (runes_valid line Hb)) as Hv.
  rewrite <-H2. clear H2. induction Hv as [|l ls Hl _ IH]; [by split; [constructor|]|].
  apply Forall_cons in H1 as [H1 H1']. destruct (IH H1') as [IH1 IH2]. split.
  - cbn. constructor; [|done]. unfold rune_count. rewrite runes_utf8 by done. unfold len. lia.
  - cbn [fmap list_fmap mbind list_bind concat]. rewrite runes_utf8, !filter_app by done. by f_equal.
Qed.

Lemma split_byte_Forall (P : Z -> Prop) s c : Forall P s -> Forall (Forall P) (split_byte s c).
Proof.
  induction 1 as [|x s Hx _ IH]; cbn; [by repeat constructor|].
  case_match; [by repeat constructor|].
  destruct (split_byte s c) as [|y ys]; [by repeat constructor|].
  apply Forall_cons in IH as [? ?]. by repeat constructor.
Qed.

(** ** Code page 437 *)

Lemma cp437_table :
  forallb (fun b => valid_rune (DecodeCP437 b)
                    && (encode_one CP437 (DecodeCP437 b) =? b)
                    && ((b <? 128) || (128 <=? DecodeCP437 b))
                    && between 0 127 (encode_one ASCII (DecodeCP437 b))
                    && ((b <? 32) || (b =? 127) || negb (encode_one ASCII (DecodeCP437 b) <? 32)
                                                && negb (encode_one ASCII (DecodeCP437 b) =? 127)))
    (seqZ 0 256) = true.
Proof. vm_compute. reflexivity. Qed.

Lemma cp437_byte b :
  byte_ok b ->
  valid_rune (DecodeCP437 b) = true /\ encode_one CP437 (DecodeCP437 b) = b
  /\ (128 <= b -> 128 <= DecodeCP437 b)
  /\ (clean_byte b -> clean_byte (encode_one ASCII (DecodeCP437 b))).
Proof.
  intros Hb. pose proof (proj1 (forallb_forall _ _) cp437_table b) as H.
  assert (In b (seqZ 0 256)) as Hin by (apply list_elem_of_In, elem_of_seqZ; unfold byte_ok in Hb; lia).
  specialize (H Hin). clear Hin. unfold between, clean_byte in *. bool_prop.
  split; [done|]. split; [done|]. split.
  - intros. destruct (Z.ltb_spec b 128); [lia|]. cbn [orb] in *. bool_prop. done.
  - intros. destruct (Z.ltb_spec b 32); [lia|]. destruct (Z.eqb_spec b 127); [lia|].
    cbn [orb] in *. bool_prop. lia.
Qed.

Lemma TranscodeCP437_utf8 data : bytes_ok data -> TranscodeCP437 data UTF8 = utf8 (DecodeCP437 <$> data).
Proof.
  intros Hd. cbn [TranscodeCP437]. induction Hd as [|b data Hb _ IH]; [done|].
  rewrite bind_cons, fmap_cons, utf8_cons, IH. f_equal.
  destruct (Z.ltb_spec b 128); [|done]. unfold DecodeCP437, byte_ok in *.
  destruct (Z.ltb_spec b 128); [|lia]. symmetry. apply ascii_rune. lia.
Qed.

(** ** ANSI art *)

(** What a terminal without colour may be sent: printable bytes, tabs and line ends. *)
Definition plain_byte (b : Z) : Prop := clean_byte b \/ b = 9 \/ b = 10 \/ b = 13.

Lemma appendCSI_plain sq : Forall plain_byte (appendCSI sq false).
Proof.
  unfold appendCSI. destruct (negb _); [constructor|]. apply Forall_replicate. left. split; lia.
Qed.

Lemma art_rune_plain cs b :
  byte_ok b -> clean_byte b ->
  Forall plain_byte (match cs with
    | CP437 => [b] | UTF8 => encode_rune (DecodeCP437 b) | ASCII => Encode ASCII (encode_rune (DecodeCP437 b)) end).
Proof.
  intros Hb Hc. pose proof (cp437_byte b Hb) as (Hv & _ & Hhi & Ha). destruct cs.
  - destruct (encode_rune_bytes _ Hv) as [[Hlt ->]|[_ Hbs]].
    + constructor; [|constructor]. left. unfold DecodeCP437 in *. destruct (Z.ltb_spec b 128); [done|].
      specialize (Hhi ltac:(lia)). lia.
    + eapply Forall_impl; [exact Hbs|]. intros x Hx. left. unfold clean_byte. cbn in Hx. lia.
  - constructor; [by left|constructor].
  - cbn [Encode]. rewrite <-(app_nil_r (encode_rune _)), runes_encode by done.
    constructor; [left; by apply Ha|constructor].
Qed.

Lemma art_go_plain cs data prev skip : bytes_ok data -> Forall plain_byte (art_go cs false data prev skip).
Proof.
  intros Hd. revert prev skip. induction Hd as [|b data Hb _ IH]; intros prev skip; cbn [art_go]; [constructor|].
  destruct skip; [|done].
  destruct ((b =? 27) && _).
  { destruct (csi_len (tail data)); [|constructor]. apply Forall_app. split; [apply appendCSI_plain|done]. }
  apply Forall_app. split; [|done].
  destruct (Z.eqb_spec b 10); [destruct (prev =? 13); repeat constructor; unfold plain_byte; lia|].
  destruct (Z.eqb_spec b 13); [repeat constructor; unfold plain_byte; lia|].
  destruct (Z.eqb_spec b 9); [repeat constructor; unfold plain_byte; lia|]. cbn [orb].
  destruct (Z.ltb_spec b 32); [constructor|]. destruct (Z.eqb_spec b 127); [constructor|]. cbn [orb].
  apply art_rune_plain; [done|]. unfold clean_byte, byte_ok in *. lia.
Qed.

(** * Theorems *)

(** C35: text from a caller, passed through [safe], is shown as it is on a
    pipe-coded screen: rendering it gives the sanitised text back and leaves the
    colours alone, the sanitised text is made of the caller's runes that are kept,
    and none of its bytes is a control character or an escape. *)
Theorem safe_renders_verbatim (r : Renderer) (v : bytes) (Hv : bytes_ok v) :
  Render r (safe v) = (StripControl v, r)
  /\ runes (StripControl v) = filter (fun c => keep_rune c = true) (runes v)
  /\ Forall clean_byte (StripControl v).
Proof.
  split; [|split; [by apply StripControl_runes|by apply StripControl_clean]].
  rewrite Render_go. apply render_go_escape.
Qed.

Lemma safe_renders_verbatim_witness :
  Render (NewRenderer ANSI16) (safe (27 :: str "[2J|04hi")) = (str "[2J|04hi", NewRenderer ANSI16).
Proof.
  assert (bytes_ok (27 :: str "[2J|04hi")) as Hv by (repeat constructor; lia).
  exact (proj1 (safe_renders_verbatim (NewRenderer ANSI16) _ Hv)).
Defined.

(** whatever texts a renderer has shown, its colours index the tables that
    [sgr] reads: the 16 foregrounds and 8 backgrounds. *)
Theorem renderer_colours_in_range (m : ColorMode) (texts : list bytes) :
  let r := foldl (fun r s => snd (Render r s)) (NewRenderer m) texts in
  mode r = m /\ 0 <= fg r < len vga256 /\ 0 <= fg r mod 8 < len dosToANSI /\ 0 <= bg r < len dosToANSI.
Proof.
  assert (renderer_ok (NewRenderer m) /\ mode (NewRenderer m) = m) as H.
  { split; [|done]. cbv; split; split; congruence. }
  revert H. generalize (NewRenderer m). induction texts as [|s texts IH]; cbn [foldl]; intros r [Hr Hm].
  - change (len vga256) with 16. change (len dosToANSI) with 8. destruct Hr. split; [done|]. dlia.
  - apply IH. rewrite Render_go. destruct (render_go_ok r s Hr) as [? ->]. done.
Qed.

(** a row fitted to a panel shows exactly the width asked for, whatever pipe
    codes the text holds (other than the clear-screen code). *)
Theorem fit_exact_width (rs : list Z) (w : Z)
    (Hv : Forall (fun r => valid_rune r = true) rs) (Hcl : has_CL (utf8 rs) = false) (Hw : 0 <= w) :
  VisibleLen (fit (utf8 rs) w) = w.
Proof.
  destruct (truncate_vis w rs 0 Hv Hcl Hw) as (k & Hk & Hle). unfold fit, TruncateVisible.
  pose proof (VisibleLen_vis _ _ 0 Hk) as E. cbn [replicate] in E. rewrite app_nil_r in E. rewrite E.
  rewrite (VisibleLen_vis _ _ _ Hk). lia.
Qed.

Lemma fit_exact_width_witness : VisibleLen (fit (utf8 (runes (str "|14Sysop||é|07 of the|"))) 12) = 12.
Proof.
  assert (Forall (fun r => valid_rune r = true) (runes (str "|14Sysop||é|07 of the|"))) as Hv
    by (apply runes_valid; repeat constructor; lia).
  assert (has_CL (utf8 (runes (str "|14Sysop||é|07 of the|"))) = false) as Hcl by (vm_compute; reflexivity).
  exact (fit_exact_width _ 12 Hv Hcl ltac:(lia)).
Defined.

(** wrapping a text keeps every line within the width, and loses nothing but
    spaces: each paragraph's other characters come out in order. *)
Theorem Wrap_spec (text : bytes) (width : Z) (Ht : bytes_ok text) :
  Forall (fun l => rune_count l <= Z.max width 1) (Wrap text width)
  /\ Forall (fun para => filter text_rune (wrapLine para (Z.to_nat (Z.max width 1)) ≫= runes)
                         = filter text_rune (runes para)) (split_byte text (ch "010")).
Proof.
  pose proof (split_byte_Forall byte_ok text (ch "010") Ht) as Hs. unfold Wrap.
  induction Hs as [|para paras Hp _ [IH1 IH2]]; [by split; constructor|].
  destruct (wrapLine_spec para (Z.to_nat (Z.max width 1)) Hp ltac:(lia)) as [H1 H2]. split.
  - cbn [mbind list_bind]. apply Forall_app. split; [|done]. eapply Forall_impl; [exact H1|].
    cbn. lia.
  - by constructor.
Qed.

Lemma Wrap_spec_witness :
  Forall (fun l => rune_count l <= Z.max 7 1) (Wrap (str "one two three") 7)
  /\ Wrap (str "one two three") 7 = [str "one two"; str "three"].
Proof.
  split; [|reflexivity].
  assert (bytes_ok (str "one two three")) as Ht by (repeat constructor; lia).
  exact (proj1 (Wrap_spec _ 7 Ht)).
Defined.

(** art shown on a terminal without colour carries no escape sequence: every
    byte sent is printable, a tab, or part of a line end. *)
Theorem ConvertANSIArt_plain (data : bytes) (cs : Charset) (Hd : bytes_ok data) :
  Forall plain_byte (ConvertANSIArt data cs false).
Proof.
  unfold ConvertANSIArt. rewrite app_nil_r. apply art_go_plain. unfold StripSAUCE.
  destruct (0 <=? _); [by apply Forall_take|done].
Qed.

Lemma ConvertANSIArt_plain_witness :
  Forall plain_byte (ConvertANSIArt (27 :: str "[1;31mHi" ++ 27 :: str "[3C!" ++ [10; 176; 26; 27]) ASCII false)
  /\ ConvertANSIArt (27 :: str "[1;31mHi" ++ 27 :: str "[3C!" ++ [10; 176; 26; 27]) ASCII false
     = str "Hi   !" ++ [13; 10] ++ str ".".
Proof.
  split; [|reflexivity].
  apply ConvertANSIArt_plain. repeat constructor; lia.
Defined.

(** code page 437 text survives the trip to UTF-8 and back: the glyph table
    is a bijection on the high half and the low half is ASCII. *)
Theorem CP437_roundtrip (data : bytes) (Hd : bytes_ok data) :
  Encode CP437 (TranscodeCP437 data UTF8) = data.
Proof.
  rewrite TranscodeCP437_utf8 by done. cbn [Encode]. rewrite runes_utf8.
  - induction Hd as [|b data Hb _ IH]; [done|]. cbn. rewrite (proj1 (proj2 (cp437_byte b Hb))). f_equal. exact IH.
  - apply Forall_fmap. eapply Forall_impl; [exact Hd|]. intros b Hb. apply (cp437_byte b Hb).
Qed.

Lemma CP437_roundtrip_witness : Encode CP437 (TranscodeCP437 [72; 130; 219; 255] UTF8) = [72; 130; 219; 255].
Proof. apply CP437_roundtrip. repeat constructor; lia. Defined.

(** The two column counts of the renderer disagree on the clear-screen code:
    [TruncateVisible] keeps it within a limit of no columns, and [VisibleLen]
    then counts one. *)
Theorem clear_screen_counts : VisibleLen (TruncateVisible (str "|CL") 0) = 1.
Proof. reflexivity. Qed.
