(* ===== verification/FtnAddr.v ===== *)
(** * FidoNet addresses and routing: [internal/ftn/addr.go], [route.go]

    Parsing and printing of 5D addresses, the next hop of routed netmail and
    the membership tests of the link tables.  The theorems: whatever
    [ParseAddr] accepts is in range and prints back to itself, and [Hop] sends
    mail only where a session exists. *)

From Stdlib Require Import Ascii String ZArith Lia.
From stdpp Require Import base tactics list gmap strings.
From S2P Require Import Prelude GoStrings.
Open Scope Z_scope.

(** ** addr.go *)

Record Addr := MkAddr { Zone : Z; Net : Z; Node : Z; Point : Z; Domain : bytes }.

Definition zero_addr : Addr := MkAddr 0 0 0 0 [].

Global Instance Addr_eq_dec : EqDecision Addr.
Proof. solve_decision. Defined.

Inductive addr_error := errBadAddr | errZone0.

(** One number of an address. *)
Definition addr_num (p : bytes) : result addr_error Z :=
  let '(n, ok) := atoi p in
  if negb ok || (n <? 0) || (65535 <? n) then Err errBadAddr else Ok n.

Section parse.
Context `{UnicodeTables}.

(** The domain after the first [@], and what is before it. *)
Definition split_domain (s : bytes) : bytes * bytes :=
  let at_ := index_byte s (ch "@") in
  if 0 <=? at_ then (to_lower (slice_from s (at_ + 1)), slice_to s at_) else ([], s).

(** The node and the point of [node.point]. *)
Definition split_point (nodePart : bytes) : bytes * bytes :=
  let dot := index_byte nodePart (ch ".") in
  if 0 <=? dot then (slice_to nodePart dot, slice_from nodePart (dot + 1)) else (nodePart, str "0").

Definition ParseAddr (s : bytes) : result addr_error Addr :=
  let '(domain, s) := split_domain (trim_space s) in
  let colon := index_byte s (ch ":") in
  let slash := index_byte s (ch "/") in
  if (colon <=? 0) || (slash <? colon + 2) then Err errBadAddr
  else
    let '(nodePart, point) := split_point (slice_from s (slash + 1)) in
    z ← addr_num (slice_to s colon);
    n ← addr_num (slice s (colon + 1) slash);
    f ← addr_num nodePart;
    p ← addr_num point;
    if z =? 0 then Err errZone0 else mret (MkAddr z n f p domain).

(** [ParseAddrList] of route.go. *)
Fixpoint parse_addrs (fs : list bytes) : result addr_error (list Addr) :=
  match fs with
  | [] => mret []
  | f :: fs' =>
      let f := trim_space f in
      if bool_decide (f = []) then parse_addrs fs'
      else a ← ParseAddr f; rest ← parse_addrs fs'; mret (a :: rest)
  end.

Definition ParseAddrList (s : bytes) : result addr_error (list Addr) :=
  parse_addrs (split_byte s (ch ",")).
End parse.

Definition Addr_String (a : Addr) : bytes :=
  itoa (Zone a) ++ str ":" ++ itoa (Net a) ++ str "/" ++ itoa (Node a)
  ++ (if Point a =? 0 then [] else str "." ++ itoa (Point a)).

Definition String5D (a : Addr) : bytes :=
  if bool_decide (Domain a = []) then Addr_String a
  else Addr_String a ++ str "@" ++ Domain a.

Definition Boss (a : Addr) : Addr := MkAddr (Zone a) (Net a) (Node a) 0 (Domain a).
Definition IsPoint (a : Addr) : bool := negb (Point a =? 0).
Definition Same (a b : Addr) : bool :=
  (Zone a =? Zone b) && (Net a =? Net b) && (Node a =? Node b) && (Point a =? Point b).

Definition Net2D : Type := Z * Z.

(** ** route.go *)

Record Routes := MkRoutes { Direct : list Addr; Via : Addr }.

Definition Hop (r : Routes) (dest : Addr) : Addr * bool :=
  if existsb (fun d => Same d dest) (Direct r) then (dest, true)
  else if IsPoint dest && existsb (fun d => Same d (Boss dest)) (Direct r) then (Boss dest, true)
  else if negb (Zone (Via r) =? 0) then (Via r, true)
  else (zero_addr, false).

Definition Contains (addrs : list Addr) (a : Addr) : bool := existsb (fun x => Same x a) addrs.

(** * Lemmas *)

Definition addr_num_ok (n : Z) : Prop := 0 <= n <= 65535.

Definition addr_ok (a : Addr) : Prop :=
  1 <= Zone a <= 65535 /\ addr_num_ok (Net a) /\ addr_num_ok (Node a) /\ addr_num_ok (Point a).

(** A domain that [ParseAddr] reads back: lower-case ASCII without blanks. *)
Definition domain_ok (d : bytes) : Prop := Forall (fun b => graphic b = true /\ lower_byte b = b) d.

Lemma addr_num_range p n : addr_num p = Ok n -> addr_num_ok n.
Proof.
  unfold addr_num, addr_num_ok. destruct (atoi p) as [v ok].
  destruct ok, (Z.ltb_spec v 0), (Z.ltb_spec 65535 v); cbn; intros [= <-]; lia.
Qed.

Lemma addr_num_itoa n : addr_num_ok n -> addr_num (itoa n) = Ok n.
Proof.
  unfold addr_num, addr_num_ok. intros. rewrite atoi_itoa by (unfold min_int, max_int; lia).
  cbn. destruct (Z.ltb_spec n 0), (Z.ltb_spec 65535 n); (done || lia).
Qed.

Lemma itoa_digits n : 0 <= n -> Forall udigit (itoa n).
Proof. intros. rewrite itoa_nonneg by done. by apply udec_digits. Qed.

Lemma itoa_ne n : 0 <= n -> itoa n <> [].
Proof. intros. rewrite itoa_nonneg by done. by apply udec_ne. Qed.

Lemma udigits_notin s c : Forall udigit s -> ~ (48 <= c <= 57) -> c ∉ s.
Proof. rewrite Forall_forall. intros Hs Hc Hin. by apply Hc, udigit_range, Hs. Qed.

Lemma itoa_notin n c : 0 <= n -> ~ (48 <= c <= 57) -> c ∉ itoa n.
Proof. intros Hn. apply udigits_notin. by apply itoa_digits. Qed.

Lemma udigit_graphic b : udigit b -> graphic b = true.
Proof. rewrite udigit_range. unfold graphic, between. intros. apply andb_true_intro. lia. Qed.

Lemma itoa_graphic n : 0 <= n -> Forall (fun b => graphic b = true) (itoa n).
Proof. intros Hn. eapply Forall_impl; [by apply itoa_digits|]. exact udigit_graphic. Qed.

Lemma Addr_String_graphic a : addr_ok a -> Forall (fun b => graphic b = true) (Addr_String a).
Proof.
  unfold addr_ok, addr_num_ok. intros (? & ? & ? & ?). unfold Addr_String.
  repeat (apply Forall_app; split); try (apply itoa_graphic; lia); try (by repeat constructor).
  destruct (Point a =? 0); [constructor|]. apply Forall_app. split; [by repeat constructor|apply itoa_graphic; lia].
Qed.

Lemma Addr_String_notin a c : addr_ok a -> ~ (48 <= c <= 57) -> c <> 58 -> c <> 47 -> c <> 46 -> c ∉ Addr_String a.
Proof.
  unfold addr_ok, addr_num_ok. intros (? & ? & ? & ?) Hc Hc1 Hc2 Hc3. unfold Addr_String.
  rewrite !not_elem_of_app, !list_elem_of_singleton.
  repeat split; try (apply itoa_notin; lia); try done.
  destruct (Point a =? 0); [apply not_elem_of_nil|].
  rewrite not_elem_of_app, list_elem_of_singleton. split; [done|apply itoa_notin; lia].
Qed.

Section parse_lemmas.
Context `{UnicodeTables}.

Lemma split_point_print (f p : Z) :
  addr_num_ok f -> addr_num_ok p ->
  exists n' p', split_point (itoa f ++ (if p =? 0 then [] else str "." ++ itoa p)) = (n', p')
                /\ addr_num n' = Ok f /\ addr_num p' = Ok p.
Proof.
  unfold addr_num_ok, split_point. intros Hf Hp. destruct (Z.eqb_spec p 0) as [->|Hp0].
  - rewrite app_nil_r, index_byte_absent by (apply itoa_notin; lia). cbn.
    eexists _, _. split; [done|]. split; [|reflexivity]. by apply addr_num_itoa.
  - cbn [app]. rewrite index_byte_app by (apply itoa_notin; lia).
    destruct (Z.leb_spec 0 (len (itoa f))); [|pose proof (len_nonneg (itoa f)); lia].
    rewrite slice_to_app, slice_from_cons by done. eexists _, _. split; [done|]. split; by apply addr_num_itoa.
Qed.

Lemma domain_lower d : domain_ok d -> to_lower d = d.
Proof.
  intros Hd. unfold to_lower. assert (is_ascii d = true) as ->.
  { apply forallb_forall. intros b Hb. apply list_elem_of_In in Hb. unfold domain_ok in Hd.
    rewrite Forall_forall in Hd. apply Hd in Hb as [Hb _]. unfold graphic, between in Hb. bool_prop. lia. }
  induction Hd as [|b d [_ Hb] _ IH]; [done|]. cbn. by rewrite Hb, IH.
Qed.

Lemma split_domain_print a d :
  addr_ok a -> domain_ok d ->
  split_domain (Addr_String a ++ (if bool_decide (d = []) then [] else str "@" ++ d)) = (d, Addr_String a).
Proof.
  intros Ha Hd. unfold split_domain. case_bool_decide as Hd0.
  - rewrite app_nil_r, index_byte_absent by (apply Addr_String_notin; (done || lia)). by subst.
  - cbn [app]. rewrite index_byte_app by (apply Addr_String_notin; (done || lia)).
    pose proof (len_nonneg (Addr_String a)). destruct (Z.leb_spec 0 (len (Addr_String a))); [|lia].
    by rewrite slice_from_cons, slice_to_app, domain_lower.
Qed.

Lemma len_itoa_pos n : 0 <= n -> 0 < len (itoa n).
Proof.
  intros Hn. pose proof (itoa_ne n Hn). destruct (itoa n) as [|b l]; [done|].
  rewrite len_cons. pose proof (len_nonneg l). lia.
Qed.

Lemma ParseAddr_print a d :
  addr_ok a -> domain_ok d ->
  ParseAddr (Addr_String a ++ (if bool_decide (d = []) then [] else str "@" ++ d))
  = Ok (MkAddr (Zone a) (Net a) (Node a) (Point a) d).
Proof.
  intros Ha Hd. pose proof Ha as (Hz & Hn & Hf & Hp). unfold addr_num_ok in Hn.
  unfold ParseAddr. rewrite trim_space_graphic.
  2:{ apply Forall_app. split; [by apply Addr_String_graphic|]. case_bool_decide; [constructor|].
      constructor; [done|]. eapply Forall_impl; [exact Hd|]. by intros b [? _]. }
  rewrite split_domain_print by done.
  assert (Addr_String a = itoa (Zone a) ++ ch ":" :: itoa (Net a) ++ ch "/" ::
           (itoa (Node a) ++ (if Point a =? 0 then [] else str "." ++ itoa (Point a)))) as ->
    by (unfold Addr_String; cbn [app]; done).
  destruct (split_point_print (Node a) (Point a) Hf Hp) as (n' & p' & Enp & Hn' & Hp').
  set (nodePart := itoa (Node a) ++ _) in *.
  rewrite (index_byte_app (itoa (Zone a)) (ch ":")) by (apply itoa_notin; lia).
  assert (index_byte (itoa (Zone a) ++ ch ":" :: itoa (Net a) ++ ch "/" :: nodePart) (ch "/")
          = len (itoa (Zone a)) + 1 + len (itoa (Net a))) as ->.
  { rewrite (cons_middle (ch ":")), !app_assoc, index_byte_app.
    - autorewrite with boar_len. lia.
    - rewrite !not_elem_of_app, list_elem_of_singleton. repeat split; try (apply itoa_notin; lia). done. }
  pose proof (len_itoa_pos (Zone a) ltac:(lia)). pose proof (len_itoa_pos (Net a) ltac:(lia)).
  destruct (Z.leb_spec (len (itoa (Zone a))) 0); [lia|].
  destruct (Z.ltb_spec (len (itoa (Zone a)) + 1 + len (itoa (Net a))) (len (itoa (Zone a)) + 2)); [lia|]. cbn [orb].
  rewrite slice_to_app by done.
  rewrite (cons_middle (ch ":")), app_assoc, slice_app; [|rewrite len_app; reflexivity|autorewrite with boar_len; lia].
  rewrite app_assoc, slice_from_cons by (autorewrite with boar_len; lia).
  rewrite Enp, !addr_num_itoa, Hn', Hp' by (unfold addr_num_ok; lia). cbn.
  destruct (Z.eqb_spec (Zone a) 0); [lia|done].
Qed.

Lemma ParseAddr_ok s a : ParseAddr s = Ok a -> addr_ok a.
Proof.
  unfold ParseAddr. destruct (split_domain _) as [d s']. case_match; [done|].
  destruct (split_point _) as [n' p']. intros E. simp_res.
  repeat match goal with H : addr_num _ = Ok _ |- _ => apply addr_num_range in H end.
  case_match; [done|]. simp_res. bool_prop. unfold addr_ok, addr_num_ok in *. cbn. lia.
Qed.
End parse_lemmas.

(** * Theorems *)

(** whatever [ParseAddr] accepts has a zone of 1 to 65535 and a net, node and
    point of 0 to 65535, and printing a valid address with a lower-case ASCII
    domain and reading it again gives the address back. *)
Theorem ParseAddr_String5D `{UnicodeTables} (s : bytes) (a : Addr) :
  (ParseAddr s = Ok a -> addr_ok a)
  /\ (addr_ok a -> domain_ok (Domain a) -> ParseAddr (String5D a) = Ok a).
Proof.
  split; [apply ParseAddr_ok|]. intros Ha Hd. pose proof (ParseAddr_print a (Domain a) Ha Hd) as E.
  destruct a as [z n f p d]. cbn in E. rewrite <-E. unfold String5D. cbn. f_equal.
  case_bool_decide; [by rewrite app_nil_r|done].
Qed.

Lemma ParseAddr_String5D_witness :
  @ParseAddr ascii_tables (str "2:5030/1651.4@fidonet") = Ok (MkAddr 2 5030 1651 4 (str "fidonet"))
  /\ addr_ok (MkAddr 2 5030 1651 4 (str "fidonet")).
Proof.
  assert (addr_ok (MkAddr 2 5030 1651 4 (str "fidonet"))) as Ha by (unfold addr_ok, addr_num_ok; cbn; lia).
  split; [|exact Ha].
  exact (proj2 (@ParseAddr_String5D ascii_tables [] (MkAddr 2 5030 1651 4 (str "fidonet"))) Ha
          ltac:(unfold domain_ok; repeat constructor)).
Defined.

(** routed netmail goes only where there is a session: the hop is the
    destination or its boss and a direct link, or else the uplink; and there is
    no route only when none of these exists.  A destination that is itself a
    direct link is never sent elsewhere. *)
Theorem Hop_sound (r : Routes) (dest : Addr) :
  let '(hop, ok) := Hop r dest in
  (ok = true -> (Contains (Direct r) hop = true /\ (hop = dest \/ hop = Boss dest))
                \/ (hop = Via r /\ Zone (Via r) <> 0 /\ Contains (Direct r) dest = false
                    /\ (IsPoint dest = true -> Contains (Direct r) (Boss dest) = false)))
  /\ (ok = false -> Zone (Via r) = 0 /\ Contains (Direct r) dest = false)
  /\ (Contains (Direct r) dest = true -> hop = dest /\ ok = true).
Proof.
  unfold Hop, Contains. destruct (existsb (fun d => Same d dest) (Direct r)) eqn:Ed; [by intuition|].
  destruct (IsPoint dest && existsb (fun d => Same d (Boss dest)) (Direct r)) eqn:Eb.
  { apply andb_prop in Eb as [? ?]. by intuition. }
  destruct (Z.eqb_spec (Zone (Via r)) 0); cbn [negb]; [by intuition|].
  split; [|by intuition]. intros _. right. repeat split; try done. intros Hp. by rewrite Hp in Eb.
Qed.
