(* ===== verification/FtnCharset.v ===== *)
(** * Character sets of FidoNet messages: [internal/ftn/charset.go]

    The CHRS control line, and the conversion of message text between UTF-8 and
    the set a message is written in.  The theorem: text that [Fits] a set
    survives the trip. *)

From Stdlib Require Import Ascii String ZArith Lia.
From stdpp Require Import base tactics list gmap strings.
From S2P Require Import Prelude GoStrings Term FtnAddr.
Open Scope Z_scope.

Inductive Charset := ASCII | CP437 | CP866 | Latin1 | UTF8.

Global Instance FtnCharset_eq_dec : EqDecision Charset.
Proof. solve_decision. Defined.

(** [chrsNames] *)
Definition chrsNames : list (bytes * Charset) :=
  [ (str "ASCII", ASCII); (str "CP437", CP437); (str "IBMPC", CP437);
    (str "CP866", CP866); (str "+7_FIDO", CP866); (str "+7", CP866);
    (str "LATIN-1", Latin1); (str "ISO-8859-1", Latin1); (str "UTF-8", UTF8) ].

Definition lookup_name (name : bytes) : option Charset :=
  snd <$> find (fun p => bool_decide (fst p = name)) chrsNames.

Definition ParseCHRS `{UnicodeTables} (v : bytes) : option Charset :=
  let '(name, _, _) := cut (trim_space v) 32 in lookup_name (to_upper name).

Definition CHRS (cs : Charset) : bytes :=
  match cs with
  | CP437 => str "CP437 2"
  | CP866 => str "CP866 2"
  | Latin1 => str "LATIN-1 2"
  | UTF8 => str "UTF-8 4"
  | ASCII => str "ASCII 1"
  end.

Definition Charset_name (cs : Charset) : bytes := let '(name, _, _) := cut (CHRS cs) 32 in name.

Definition cp866High : list Z := Eval vm_compute in
  runes (str "АБВГДЕЖЗИЙКЛМНОПРСТУФХЦЧШЩЪЫЬЭЮЯ"
         ++ str "абвгдежзийклмноп"
         ++ str "░▒▓│┤╡╢╖╕╣║╗╝╜╛┐└┴┬├─┼╞╟╚╔╩╦╠═╬╧╨╤╥╙╘╒╓╫╪┘┌█▄▌▐▀"
         ++ str "рстуфхцчшщъыьэюя"
         ++ str "ЁёЄєЇїЎў°∙·√№¤■" ++ [194; 160]).

Definition cp866Encode : gmap Z Z := list_to_map (zip cp866High (seqZ 128 128)).

(** Both tables invert [DecodeCP437]: [Term.cp437Bytes] is built the same way. *)
Definition cp437Encode : gmap Z Z := list_to_map ((fun b => (DecodeCP437 b, b)) <$> seqZ 128 128).

(** [Decode] *)
Definition Decode (data : bytes) (cs : Charset) : bytes :=
  match cs with
  | UTF8 => to_valid_utf8 data (str "�")
  | CP437 => data ≫= fun c => if c <? 128 then [c] else encode_rune (DecodeCP437 c)
  | CP866 => data ≫= fun c => if c <? 128 then [c] else encode_rune (nth (Z.to_nat (c - 128)) cp866High 0)
  | Latin1 => data ≫= fun c => encode_rune c
  | ASCII => data ≫= fun c => if c <? 128 then [c] else [ch "?"]
  end.

Definition lookup_byte (m : gmap Z Z) (r : Z) : Z := default (ch "?") (m !! r).

Definition encode_rune_in (cs : Charset) (r : Z) : Z :=
  if r <? 128 then r
  else match cs with
       | Latin1 => if r <=? 255 then r else ch "?"
       | CP437 => lookup_byte cp437Encode r
       | CP866 => lookup_byte cp866Encode r
       | _ => ch "?"
       end.

Definition Encode (s : bytes) (cs : Charset) : bytes :=
  match cs with UTF8 => s | _ => encode_rune_in cs <$> runes s end.

Definition rune_fits (cs : Charset) (r : Z) : bool :=
  if r <? 128 then true
  else match cs with
       | Latin1 => r <=? 255
       | CP437 => bool_decide (is_Some (cp437Encode !! r))
       | CP866 => bool_decide (is_Some (cp866Encode !! r))
       | _ => false
       end.

Definition Fits (s : bytes) (cs : Charset) : bool :=
  match cs with UTF8 => valid_utf8 s | _ => forallb (rune_fits cs) (runes s) end.

Definition DefaultCharset (from : Addr) : Charset :=
  if (Zone from =? 2) && (5000 <=? Net from) && (Net from <=? 5099) then CP866 else CP437.

(** * Lemmas *)

Lemma to_valid_id rep s skip bad : valid_utf8_go s skip = true -> to_valid_go rep s skip bad = s.
Proof.
  revert skip bad. induction s as [|b s IH]; intros skip bad; [done|].
  cbn [valid_utf8_go to_valid_go]. destruct skip; [|by intros; rewrite IH].
  destruct (decode_rune (b :: s)) as [r n]. destruct (_ && _); [done|]. intros. by rewrite IH.
Qed.

(** A rune other than U+FFFD is read from its own encoding. *)
Lemma decode_rune_inv s r n :
  bytes_ok s -> decode_rune s = (r, n) -> r <> rune_error -> exists t, s = encode_rune r ++ t /\ length (encode_rune r) = n.
Proof.
  intros Hs E Hr. pose proof (decode_rune_valid s Hs) as Hv. rewrite E in Hv. cbn in Hv.
  unfold decode_rune in E. destruct s as [|b0 s1]; [by injection E as <- _|].
  specialize (Hv ltac:(done)). unfold encode_rune. rewrite Hv. cbn [negb].
  apply Forall_cons in Hs as [H0 Hs]. unfold byte_ok in H0. unfold between, continuation, between in E.
  destruct (Z.ltb_spec b0 128).
  { injection E as <- <-. destruct (Z.ltb_spec b0 128); [|lia]. by exists s1. }
  destruct (Z.leb_spec 194 b0), (Z.leb_spec b0 223); cbn [andb] in E; try (injection E as <- _; done).
  - destruct s1 as [|b1 s2]; [by injection E as <- _|].
    destruct (Z.leb_spec 128 b1), (Z.leb_spec b1 191); cbn [andb] in E; try (injection E as <- _; done).
    injection E as <- <-.
    destruct (Z.ltb_spec ((b0 - 192) * 64 + (b1 - 128)) 128); [lia|].
    destruct (Z.ltb_spec ((b0 - 192) * 64 + (b1 - 128)) 2048); [|lia].
    exists s2. split; [|done]. cbn [app]. repeat f_equal; dlia.
  - destruct (Z.leb_spec 224 b0), (Z.leb_spec b0 239); cbn [andb] in E; try lia.
    + destruct s1 as [|b1 [|b2 s3]]; try (injection E as <- _; done).
      destruct ((if b0 =? 224 then 160 else 128) <=? b1) eqn:E1, (b1 <=? (if b0 =? 237 then 159 else 191)) eqn:E2,
        (Z.leb_spec 128 b2), (Z.leb_spec b2 191); cbn [andb] in E; try (injection E as <- _; done).
      bool_prop. injection E as <- <-. set (v := (b0 - 224) * 4096 + (b1 - 128) * 64 + (b2 - 128)).
      assert (2048 <= v < 65536 /\ 128 <= b1 <= 191) as [Hb ?] by (subst v; destruct (Z.eqb_spec b0 224), (Z.eqb_spec b0 237); lia).
      destruct (Z.ltb_spec v 128); [lia|]. destruct (Z.ltb_spec v 2048); [lia|]. destruct (Z.ltb_spec v 65536); [|lia].
      exists s3. split; [|done]. cbn [app]. subst v. repeat f_equal; dlia.
    + destruct (Z.leb_spec 240 b0), (Z.leb_spec b0 244); cbn [andb] in E; try lia; try (injection E as <- _; done).
      destruct s1 as [|b1 [|b2 [|b3 s4]]]; try (injection E as <- _; done).
      destruct ((if b0 =? 240 then 144 else 128) <=? b1) eqn:E1, (b1 <=? (if b0 =? 244 then 143 else 191)) eqn:E2,
        (Z.leb_spec 128 b2), (Z.leb_spec b2 191), (Z.leb_spec 128 b3), (Z.leb_spec b3 191);
        cbn [andb] in E; try (injection E as <- _; done).
      bool_prop. injection E as <- <-.
      set (v := (b0 - 240) * 262144 + (b1 - 128) * 4096 + (b2 - 128) * 64 + (b3 - 128)).
      assert (65536 <= v /\ 128 <= b1 <= 191) as [? ?] by (subst v; destruct (Z.eqb_spec b0 240), (Z.eqb_spec b0 244); lia).
      destruct (Z.ltb_spec v 128); [lia|]. destruct (Z.ltb_spec v 2048); [lia|]. destruct (Z.ltb_spec v 65536); [lia|].
      exists s4. split; [|done]. cbn [app]. subst v. repeat f_equal; dlia.
  - destruct (Z.leb_spec 224 b0), (Z.leb_spec 240 b0); cbn [andb] in E; try lia; by injection E as <- _.
  - lia.
Qed.

Lemma runes_go_utf8 s : bytes_ok s -> Forall (fun r => r <> rune_error) (runes s) -> utf8 (runes s) = s.
Proof.
  remember (length s) as n eqn:En. revert s En. induction (lt_wf n) as [n _ IH]. intros s -> Hs Hr.
  destruct s as [|b s]; [done|]. destruct (decode_rune (b :: s)) as [r n] eqn:E.
  assert (runes (b :: s) = r :: runes_go s (n - 1)) as Er by (unfold runes; cbn [runes_go]; by rewrite E).
  rewrite Er in *. apply Forall_cons in Hr as [Hr Hr'].
  destruct (decode_rune_inv _ _ _ Hs E Hr) as (t & Et & <-).
  rewrite utf8_cons, Et. f_equal.
  assert (runes_go s (length (encode_rune r) - 1) = runes t) as Es.
  { destruct (encode_rune_cons r) as (x & xs & Ex). rewrite Ex in Et |- *. injection Et as -> ->.
    cbn [length]. rewrite Nat.sub_succ, Nat.sub_0_r. apply runes_go_skip. }
  rewrite Es in *. apply (IH (length t)); [|done| |done].
  - rewrite Et, length_app. pose proof (encode_rune_length r). lia.
  - rewrite Et in Hs. by apply Forall_app in Hs as [_ ?].
Qed.

(** What one byte of a message in [cs] stands for. *)
Definition decode_byte (cs : Charset) (c : Z) : Z :=
  if c <? 128 then c
  else match cs with
       | CP437 => DecodeCP437 c
       | CP866 => nth (Z.to_nat (c - 128)) cp866High 0
       | Latin1 => c
       | _ => ch "?"
       end.

Lemma Decode_bytes data cs : cs <> UTF8 -> bytes_ok data -> Decode data cs = utf8 (decode_byte cs <$> data).
Proof.
  intros Hcs Hd. induction Hd as [|c data Hc _ IH]; [by destruct cs|].
  assert (Decode (c :: data) cs = encode_rune (decode_byte cs c) ++ Decode data cs) as ->.
  { unfold byte_ok in Hc. destruct cs; [..|done]; unfold Decode, decode_byte; rewrite bind_cons; f_equal;
      destruct (Z.ltb_spec c 128); try done; symmetry; apply ascii_rune; lia. }
  by rewrite IH.
Qed.

(** The encoding tables invert the decoding ones. *)
Lemma table_inverse (m : gmap Z Z) (f : Z -> Z) :
  forallb (fun '(r, b) => (f b =? r) && (128 <=? b)) (map_to_list m) = true ->
  forall r b, m !! r = Some b -> f b = r /\ 128 <= b.
Proof.
  intros H r b Hrb%elem_of_map_to_list. pose proof (proj1 (forallb_forall _ _) H (r, b)) as Hb.
  rewrite list_elem_of_In in Hrb. specialize (Hb Hrb). cbn in Hb. bool_prop. done.
Qed.

Lemma cp437Encode_inv r b : cp437Encode !! r = Some b -> DecodeCP437 b = r /\ 128 <= b.
Proof. apply (table_inverse _ DecodeCP437). vm_compute. reflexivity. Qed.

Lemma cp866Encode_inv r b : cp866Encode !! r = Some b -> nth (Z.to_nat (b - 128)) cp866High 0 = r /\ 128 <= b.
Proof. apply (table_inverse _ (fun b => nth (Z.to_nat (b - 128)) cp866High 0)). vm_compute. reflexivity. Qed.

Lemma rune_fits_roundtrip cs r :
  rune_fits cs r = true -> 0 <= r -> decode_byte cs (encode_rune_in cs r) = r.
Proof.
  unfold rune_fits, encode_rune_in, decode_byte. intros Hf Hr.
  destruct (Z.ltb_spec r 128); [destruct (Z.ltb_spec r 128); [done|lia]|].
  destruct cs; [discriminate Hf| | | |discriminate Hf].
  - apply bool_decide_eq_true_1 in Hf as [b Hb]. unfold lookup_byte. rewrite Hb. cbn [from_option id].
    destruct (cp437Encode_inv _ _ Hb). by destruct (Z.ltb_spec b 128); [lia|].
  - apply bool_decide_eq_true_1 in Hf as [b Hb]. unfold lookup_byte. rewrite Hb. cbn [from_option id].
    destruct (cp866Encode_inv _ _ Hb). by destruct (Z.ltb_spec b 128); [lia|].
  - rewrite Hf. by destruct (Z.ltb_spec r 128); [lia|].
Qed.

Lemma encode_rune_in_byte cs r : 0 <= r -> byte_ok (encode_rune_in cs r).
Proof.
  assert (forall m : gmap Z Z, forallb (fun '(r, b) => between 0 255 b) (map_to_list m) = true ->
    byte_ok (lookup_byte m r)) as Hm.
  { intros m H. unfold lookup_byte. destruct (m !! r) as [b|] eqn:E; [|unfold byte_ok; cbn; lia].
    apply elem_of_map_to_list, list_elem_of_In in E. apply (proj1 (forallb_forall _ _) H) in E.
    unfold between in E. bool_prop. unfold byte_ok. cbn. lia. }
  intros Hr. unfold encode_rune_in. destruct (Z.ltb_spec r 128); [unfold byte_ok; lia|].
  destruct cs; try (unfold byte_ok; lia); [apply Hm; vm_compute; reflexivity..|].
  destruct (Z.leb_spec r 255); unfold byte_ok; lia.
Qed.

Lemma rune_fits_error cs : rune_fits cs rune_error = false.
Proof. destruct cs; vm_compute; reflexivity. Qed.

Lemma Fits_decodes s cs : bytes_ok s -> Fits s cs = true -> Decode (Encode s cs) cs = s.
Proof.
  intros Hs Hf.
  destruct (decide (cs = UTF8)) as [->|Hcs]; [by apply to_valid_id|].
  assert (Forall (fun r => rune_fits cs r = true) (runes s)) as Hr.
  { apply Forall_forall. intros r Hr%list_elem_of_In. by destruct cs; try done; apply (proj1 (forallb_forall _ _) Hf). }
  assert (Forall (fun r => 0 <= r) (runes s)) as Hpos.
  { eapply Forall_impl; [by apply runes_valid|]. intros r Hv. cbn in Hv. unfold valid_rune in Hv.
    destruct (Z.leb_spec 0 r); [done|]. destruct (Z.leb_spec 57344 r); [lia|]. done. }
  assert (Encode s cs = encode_rune_in cs <$> runes s) as -> by (by destruct cs).
  rewrite Decode_bytes; [|done|].
  - rewrite <-list_fmap_compose. transitivity (utf8 (runes s)).
    + f_equal. clear Hf. induction Hr as [|r rs Hr _ IH]; [done|]. apply Forall_cons in Hpos as [Hp Hpos].
      cbn [fmap list_fmap]. rewrite <-(IH Hpos) at 2. f_equal. by apply rune_fits_roundtrip.
    + apply runes_go_utf8; [done|]. eapply Forall_impl; [exact Hr|]. cbn. intros r Hfr ->.
      by rewrite rune_fits_error in Hfr.
  - apply Forall_fmap. eapply Forall_impl; [exact Hpos|]. intros r. apply encode_rune_in_byte.
Qed.

(** * Theorems *)

(** text that [Fits] a character set is not damaged by writing a message in
    it: what the reader decodes is the text. *)
Theorem Fits_roundtrip (s : bytes) (cs : Charset) (Hs : bytes_ok s) (Hf : Fits s cs = true) :
  Decode (Encode s cs) cs = s.
Proof. by apply Fits_decodes. Qed.

Lemma Fits_roundtrip_witness : Decode (Encode (str "Привет, мир") CP866) CP866 = str "Привет, мир".
Proof. apply Fits_roundtrip; [repeat constructor; lia|vm_compute; reflexivity]. Defined.

(** The charset a message names is the one its CHRS line parses back to. *)
Lemma ParseCHRS_CHRS cs : @ParseCHRS ascii_tables (CHRS cs) = Some cs.
Proof. destruct cs; reflexivity. Qed.
