(* ===== verification/FtnPacket.v ===== *)
(** * FidoNet packets: [internal/ftn/packet.go]

    The packed-message date, and the Type 2+ packet written and read byte by
    byte.  The theorems: a packet read back is the packet written, up to the
    clipping the format imposes; anything accepted from the wire respects the
    field limits; a date survives the trip. *)

From Stdlib Require Import Ascii String ZArith Lia.
From stdpp Require Import base tactics list gmap strings.
From S2P Require Import Prelude GoStrings GoTime FtnAddr.
Open Scope Z_scope.

(** ** Data *)

Record PackedMessage := MkPM {
  OrigNode : Z; OrigNet : Z; DestNode : Z; DestNet : Z;
  Attr : Z; Cost : Z;
  DateTime : bytes;
  ToName : bytes; FromName : bytes; Subject : bytes;
  Text : bytes
}.

(** [Created] is [None] for the zero time. *)
Record Packet := MkPacket {
  From : Addr; To : Addr;
  Password : bytes;
  Created : option civil;
  Messages : list PackedMessage
}.

Definition AttrPrivate : Z := 1.
Definition AttrLocal : Z := 256.

Definition headerLen : nat := 58.
Definition packetVersion : Z := 2.
Definition messageType : Z := 2.
Definition capWordType2p : Z := 1.
Definition maxNameLen : Z := 36.
Definition maxSubjectLen : Z := 72.
Definition maxMessageText : Z := 1048576.
Definition ProductCode : Z := 254.

Inductive packet_error :=
  | errShortHeader | errVersion (v : Z) | errBadKind (after : Z)
  | errTruncated | errUnterminated | errFieldTooLong (limit : Z).

(** ** Dates *)

Definition FormatDate (t : civil) : bytes :=
  pad_dec 2 (day t) ++ str " " ++ month_name (month t) ++ str " " ++ pad_dec 2 (year t mod 100)
  ++ str "  " ++ pad_dec 2 (hour t) ++ str ":" ++ pad_dec 2 (minute t) ++ str ":" ++ pad_dec 2 (second t).

(** What [time.Parse] with [dateLayout] makes of the four fields; a field must
    be used up, since the layout has a space there and a field has none. *)
Definition parse_day (f : bytes) : option Z :=
  match getnum true f with Some (d, []) => Some d | _ => None end.
Definition parse_month (f : bytes) : option Z :=
  match lookup_month month_names 1 f with Some (m, []) => Some m | _ => None end.
Definition parse_year (f : bytes) : option Z :=
  match f with
  | [_; _] => let '(y, ok) := atoi f in
              if ok : bool then Some (if 69 <=? y then y + 1900 else y + 2000) else None
  | _ => None
  end.
Definition parse_clock (f : bytes) : option (Z * Z * Z * Z) :=
  '(h, f) ← getnum false f;
  _ ← in_range h 0 23;
  f ← literal (ch ":") f;
  '(mi, f) ← getnum true f;
  _ ← in_range mi 0 59;
  f ← literal (ch ":") f;
  '(s, f) ← getnum true f;
  _ ← in_range s 0 59;
  let '(ns, f) := parse_fraction f in
  match f with [] => Some (h, mi, s, ns) | _ => None end.

Definition ParseDate (s : bytes) : option civil :=
  match fields s with
  | [f0; f1; f2; f3] =>
      d ← parse_day (if (length f0 =? 1)%nat then ch "0" :: f0 else f0);
      m ← parse_month f1;
      y ← parse_year f2;
      '(h, mi, sec, ns) ← parse_clock f3;
      _ ← in_range d 1 (days_in m y);
      Some (Civil y m d h mi sec ns)
  | _ => None
  end.

(** ** Writing *)

(** [le.PutUint16(h[off:], uint16(v))] *)
Definition put16 (off : nat) (v : Z) (h : bytes) : bytes :=
  <[off := v mod 256]> (<[S off := v / 256 mod 256]> h).

(** [copy(h[off:off+n], src)] *)
Definition copy_into (off n : nat) (src h : bytes) : bytes :=
  take off h ++ take n (take n src ++ drop (off + length (take n src)) h) ++ drop (off + n) h.

Definition clip (b : bytes) (n : Z) : bytes := slice_to (remove_byte b 0) n.

Definition le16 (v : Z) : bytes := [v mod 256; v / 256 mod 256].

Definition encode_message (m : PackedMessage) : bytes :=
  le16 messageType ++ le16 (OrigNode m) ++ le16 (DestNode m) ++ le16 (OrigNet m) ++ le16 (DestNet m)
  ++ le16 (Attr m) ++ le16 (Cost m)
  ++ <[19%nat := 0]> (copy_into 0 20 (DateTime m) (replicate 20 0))
  ++ clip (ToName m) (maxNameLen - 1) ++ [0]
  ++ clip (FromName m) (maxNameLen - 1) ++ [0]
  ++ clip (Subject m) (maxSubjectLen - 1) ++ [0]
  ++ remove_byte (Text m) 0 ++ [0].

Section write.
Context `{UnicodeTables}.

Definition packet_header (p : Packet) (t : civil) : bytes :=
  let h := replicate headerLen 0 in
  let h := put16 0 (Node (From p)) h in
  let h := put16 2 (Node (To p)) h in
  let h := put16 4 (year t) h in
  let h := put16 6 (month t - 1) h in
  let h := put16 8 (day t) h in
  let h := put16 10 (hour t) h in
  let h := put16 12 (minute t) h in
  let h := put16 14 (second t) h in
  let h := put16 18 packetVersion h in
  let h := put16 20 (Net (From p)) h in
  let h := put16 22 (Net (To p)) h in
  let h := <[24%nat := Z.land ProductCode 255]> h in
  let h := copy_into 26 8 (to_upper (Password p)) h in
  let h := put16 34 (Zone (From p)) h in
  let h := put16 36 (Zone (To p)) h in
  let h := put16 40 (Z.shiftl capWordType2p 8) h in
  let h := put16 44 capWordType2p h in
  let h := put16 46 (Zone (From p)) h in
  let h := put16 48 (Zone (To p)) h in
  let h := put16 50 (Point (From p)) h in
  put16 52 (Point (To p)) h.

(** The bytes [WriteTo] writes; [now] is the clock, read for a packet without
    a date. *)
Definition WriteTo (p : Packet) (now : civil) : bytes :=
  packet_header p (default now (Created p)) ++ (Messages p ≫= encode_message) ++ [0; 0].
End write.

(** ** Reading *)

(** [readZ]; [n] bytes have been read. *)
Fixpoint read_z (input : bytes) (limit n : Z) : result packet_error (bytes * bytes) :=
  match input with
  | [] => Err errUnterminated
  | c :: input' =>
      if c =? 0 then Ok ([], input')
      else if limit <=? n then Err (errFieldTooLong limit)
      else '(out, rest) ← read_z input' limit (n + 1); mret (c :: out, rest)
  end.
Definition readZ (input : bytes) (limit : Z) : result packet_error (bytes * bytes) := read_z input limit 0.

(** [le.Uint16(h[off:])] *)
Definition get16 (h : bytes) (off : nat) : Z := nth off h 0 + 256 * nth (S off) h 0.

Definition decodeMessage (input : bytes) : result packet_error (PackedMessage * bytes) :=
  if (length input <? 32)%nat then Err errTruncated
  else
    let h := take 32 input in
    '(to, rest) ← readZ (drop 32 input) maxNameLen;
    '(from, rest) ← readZ rest maxNameLen;
    '(subject, rest) ← readZ rest maxSubjectLen;
    '(text, rest) ← readZ rest maxMessageText;
    mret (MkPM (get16 h 0) (get16 h 4) (get16 h 2) (get16 h 6) (get16 h 8) (get16 h 10)
            (trim_right (slice h 12 32) [0]) to from subject text, rest).

(** The loop of [ReadPacket]: the messages read and the error, if any. *)
Fixpoint read_messages (fuel : nat) (input : bytes) (count : Z) : list PackedMessage * option packet_error :=
  match fuel, input with
  | S f, k0 :: k1 :: input' =>
      let kind := k0 + 256 * k1 in
      if kind =? 0 then ([], None)
      else if negb (kind =? messageType) then ([], Some (errBadKind count))
      else match decodeMessage input' with
           | Err e => ([], Some e)
           | Ok (m, rest) => let '(ms, e) := read_messages f rest (count + 1) in (m :: ms, e)
           end
  | _, _ => ([], None)
  end.

Definition read_header (h : bytes) : Packet :=
  let get := get16 h in
  let year := get 4%nat in
  let month := get 6%nat in
  let created := if (1980 <? year) && (month <? 12)
                 then Some (go_date year (month + 1) (Z.max (get 8%nat) 1) (get 10%nat) (get 12%nat) (get 14%nat))
                 else None in
  let cw := get 44%nat in
  let cwCopy := get 40%nat in
  let type2p := negb (Z.land cw capWordType2p =? 0)
                && (cw =? Z.land (Z.lor (Z.shiftr cwCopy 8) (Z.shiftl cwCopy 8)) 65535) in
  let nonzero z dflt := if z =? 0 then dflt else z in
  let from := if type2p
              then let net := if (get 20%nat =? 65535) && negb (get 50%nat =? 0) && negb (get 38%nat =? 0)
                              then get 38%nat else get 20%nat in
                   MkAddr (nonzero (get 46%nat) (get 34%nat)) net (get 0%nat) (get 50%nat) []
              else MkAddr (get 34%nat) (get 20%nat) (get 0%nat) 0 [] in
  let to := if type2p
            then MkAddr (nonzero (get 48%nat) (get 36%nat)) (get 22%nat) (get 2%nat) (get 52%nat) []
            else MkAddr (get 36%nat) (get 22%nat) (get 2%nat) 0 [] in
  MkPacket from to (trim_right (slice h 26 34) [0; 32]) created [].

(** The packet (nil for a bad header) and the error; a message that fails to
    decode leaves those before it.  Every message takes input, so its length is
    enough fuel. *)
Definition ReadPacket (input : bytes) : option Packet * option packet_error :=
  if (length input <? headerLen)%nat then (None, Some errShortHeader)
  else
    let h := take headerLen input in
    if negb (get16 h 18 =? packetVersion) then (None, Some (errVersion (get16 h 18)))
    else
      let p := read_header h in
      let '(ms, e) := read_messages (length input) (drop headerLen input) 0 in
      (Some (MkPacket (From p) (To p) (Password p) (Created p) ms), e).

(** ** The packet as the format can carry it *)

Definition clip_message (m : PackedMessage) : PackedMessage :=
  MkPM (OrigNode m mod 65536) (OrigNet m mod 65536) (DestNode m mod 65536) (DestNet m mod 65536)
    (Attr m mod 65536) (Cost m mod 65536)
    (trim_right (take 19 (DateTime m)) [0])
    (clip (ToName m) 35) (clip (FromName m) 35) (clip (Subject m) 71)
    (remove_byte (Text m) 0).

Definition clip_packet `{UnicodeTables} (p : Packet) (now : civil) : Packet :=
  MkPacket (MkAddr (Zone (From p)) (Net (From p)) (Node (From p)) (Point (From p)) [])
    (MkAddr (Zone (To p)) (Net (To p)) (Node (To p)) (Point (To p)) [])
    (trim_right (take 8 (to_upper (Password p))) [0; 32])
    (Some (default now (Created p)))
    (clip_message <$> Messages p).

(** What any message accepted from the wire satisfies. *)
Definition word (v : Z) : Prop := 0 <= v < 65536.
Definition field_ok (s : bytes) (limit : Z) : Prop := len s <= limit /\ 0 ∉ s.
Definition message_ok (m : PackedMessage) : Prop :=
  word (OrigNode m) /\ word (OrigNet m) /\ word (DestNode m) /\ word (DestNet m) /\ word (Attr m) /\ word (Cost m)
  /\ len (DateTime m) <= 20 /\ field_ok (ToName m) maxNameLen /\ field_ok (FromName m) maxNameLen
  /\ field_ok (Subject m) maxSubjectLen /\ field_ok (Text m) maxMessageText.

(** * Lemmas *)

Lemma trim_left_app s t cs : Forall (fun b => contains_byte cs b = true) s -> trim_left (s ++ t) cs = trim_left t cs.
Proof. induction 1 as [|b s Hb _ IH]; [done|]. cbn [app trim_left]. by rewrite Hb. Qed.

Lemma trim_right_app s t cs : Forall (fun b => contains_byte cs b = true) t -> trim_right (s ++ t) cs = trim_right s cs.
Proof. intros. unfold trim_right. rewrite reverse_app, trim_left_app; [done|by apply Forall_reverse]. Qed.

Lemma trim_right_len s cs : len (trim_right s cs) <= len s.
Proof.
  unfold trim_right, len. rewrite length_reverse, <-(length_reverse s). generalize (reverse s). clear.
  intros s. induction s as [|b s IH]; [done|]. cbn [trim_left]. destruct (contains_byte cs b); cbn [length] in *; lia.
Qed.

Lemma remove_byte_len s c : len (remove_byte s c) <= len s.
Proof. unfold len, remove_byte. pose proof (length_filter (fun b => b <> c) s). lia. Qed.

Lemma clip_field s n : 0 <= n -> len (clip s n) <= n /\ 0 ∉ clip s n.
Proof.
  intros Hn. unfold clip, slice_to. split.
  - unfold len. rewrite length_take. lia.
  - intros (i & Hi & _)%elem_of_take. apply (remove_byte_free s 0). by eapply list_elem_of_lookup_2.
Qed.

Lemma read_z_app s rest limit n :
  0 ∉ s -> n + len s <= limit -> read_z (s ++ 0 :: rest) limit n = Ok (s, rest).
Proof.
  revert n. induction s as [|c s IH]; intros n Hs Hl; [done|]. cbn [app read_z].
  apply not_elem_of_cons in Hs as [Hc Hs]. rewrite len_cons in Hl. pose proof (len_nonneg s).
  destruct (Z.eqb_spec c 0); [congruence|]. destruct (Z.leb_spec limit n); [lia|].
  rewrite IH by (done || lia). done.
Qed.

Lemma read_z_ok input limit n out rest :
  n <= limit -> read_z input limit n = Ok (out, rest) ->
  field_ok out (limit - n) /\ (length rest < length input)%nat /\ rest `suffix_of` input.
Proof.
  revert n out rest. induction input as [|c input IH]; intros n out rest Hn; cbn [read_z]; [done|].
  destruct (Z.eqb_spec c 0).
  { intros [= <- <-]. split; [split; [rewrite len_nil; lia|apply not_elem_of_nil]|].
    split; [cbn; lia|by apply suffix_cons_r]. }
  destruct (Z.leb_spec limit n); [done|]. intros E. simp_res.
  destruct x as [out' rest']. simp_res. simplify_eq.
  match goal with H : read_z _ _ _ = Ok _ |- _ => apply IH in H as [[Hl H0] [Hr Hs]]; [|lia] end. split; [|split; [cbn; lia|by apply suffix_cons_r]].
  split; [rewrite len_cons; lia|]. by apply not_elem_of_cons.
Qed.

Lemma readZ_ok input limit out rest :
  0 <= limit -> readZ input limit = Ok (out, rest) ->
  field_ok out limit /\ (length rest < length input)%nat /\ rest `suffix_of` input.
Proof. intros Hl H%read_z_ok; [|done]. by rewrite Z.sub_0_r in H. Qed.

Lemma get16_word h off : bytes_ok h -> word (get16 h off).
Proof.
  intros Hh. assert (forall i, 0 <= nth i h 0 < 256) as Hn.
  { intros i. destruct (nth_in_or_default i h 0) as [Hi| ->]; [|lia]. rewrite Forall_forall in Hh.
    apply list_elem_of_In in Hi. by apply Hh in Hi. }
  unfold word, get16. pose proof (Hn off). pose proof (Hn (S off)). lia.
Qed.

Lemma suffix_bytes s t : s `suffix_of` t -> bytes_ok t -> bytes_ok s.
Proof. intros [u ->]. by intros [_ ?]%Forall_app. Qed.

Lemma decodeMessage_ok input m rest :
  bytes_ok input -> decodeMessage input = Ok (m, rest) ->
  message_ok m /\ (length rest < length input)%nat /\ bytes_ok rest.
Proof.
  intros Hb. unfold decodeMessage. case_match; [done|]. intros E.
  repeat (simp_res; match goal with x : (_ * _)%type |- _ => destruct x end). simp_res. simplify_eq.
  repeat match goal with H : readZ _ _ = Ok _ |- _ => apply readZ_ok in H as (? & ? & ?); [|done] end.
  rewrite length_drop in *. split; [|split; [lia|]].
  2:{ repeat (eapply suffix_bytes; [eassumption|]). by apply Forall_drop. }
  assert (bytes_ok (take 32 input)) as Hh by by apply Forall_take.
  unfold message_ok. cbn. repeat split; try (by apply get16_word); try (by destruct_and!).
  all: try match goal with H : field_ok ?s _ |- _ => by destruct H end.
  etransitivity; [apply trim_right_len|]. unfold slice, len. rewrite length_take, length_drop, length_take. lia.
Qed.

Lemma read_messages_ok fuel input count :
  bytes_ok input -> Forall message_ok (fst (read_messages fuel input count)).
Proof.
  revert input count. induction fuel as [|fuel IH]; intros input count Hb; cbn [read_messages]; [constructor|].
  destruct input as [|k0 [|k1 input]]; [constructor..|]. apply Forall_cons in Hb as [_ Hb]. apply Forall_cons in Hb as [_ Hb].
  case_match; [constructor|]. case_match; [constructor|].
  destruct (decodeMessage input) as [[m rest]|] eqn:E; [|constructor].
  destruct (decodeMessage_ok _ _ _ Hb E) as (Hm & _ & Hr).
  specialize (IH rest (count + 1) Hr). destruct (read_messages fuel rest (count + 1)). by constructor.
Qed.

(** More fuel than input changes nothing: the loop ends for lack of input. *)
Lemma read_messages_fuel f1 f2 input count :
  (length input <= f1)%nat -> (length input <= f2)%nat -> bytes_ok input ->
  read_messages f1 input count = read_messages f2 input count.
Proof.
  revert f2 input count. induction f1 as [|f1 IH]; intros [|f2] input count Hf1 Hf2 Hb; cbn [read_messages]; try done.
  1, 2: destruct input; cbn in *; [done|lia].
  destruct input as [|k0 [|k1 input]]; [done..|]. apply Forall_cons in Hb as [_ Hb]. apply Forall_cons in Hb as [_ Hb].
  case_match; [done|]. case_match; [done|].
  destruct (decodeMessage input) as [[m rest]|] eqn:E; [|done].
  destruct (decodeMessage_ok _ _ _ Hb E) as (_ & Hl & Hr). cbn [length] in *.
  by rewrite (IH f2) by (lia || done).
Qed.

(** *** A message written and read *)

Lemma date_field_spec dt :
  length (<[19%nat := 0]> (copy_into 0 20 dt (replicate 20 0))) = 20%nat
  /\ trim_right (<[19%nat := 0]> (copy_into 0 20 dt (replicate 20 0))) [0] = trim_right (take 19 dt) [0].
Proof.
  unfold copy_into. rewrite take_0, app_nil_l, !Nat.add_0_l, drop_replicate, drop_ge by (rewrite length_replicate; lia).
  rewrite app_nil_r. set (l := take 20 (take 20 dt ++ replicate (20 - length (take 20 dt)) 0)).
  assert (length l = 20%nat) as Hl.
  { subst l. rewrite length_take, length_app, length_replicate, length_take. lia. }
  split; [by rewrite length_insert|].
  rewrite insert_take_drop, (drop_ge l) by lia. rewrite trim_right_app by (by repeat constructor).
  subst l. rewrite take_take, take_app, take_take, take_replicate.
  rewrite trim_right_app by (by apply Forall_replicate). done.
Qed.

Lemma le16_get v rest : get16 (le16 v ++ rest) 0 = v mod 65536.
Proof. unfold get16, le16. cbn. dlia. Qed.

Lemma decode_encode m rest :
  len (Text m) <= maxMessageText ->
  decodeMessage (drop 2 (encode_message m) ++ rest) = Ok (clip_message m, rest).
Proof.
  intros Ht. destruct (date_field_spec (DateTime m)) as [Hdl Hdt].
  set (date := <[19%nat := 0]> (copy_into 0 20 (DateTime m) (replicate 20 0))) in *.
  set (hdr := le16 (OrigNode m) ++ le16 (DestNode m) ++ le16 (OrigNet m) ++ le16 (DestNet m)
              ++ le16 (Attr m) ++ le16 (Cost m)).
  set (fields := clip (ToName m) 35 ++ 0 :: clip (FromName m) 35 ++ 0 :: clip (Subject m) 71 ++ 0 ::
                 remove_byte (Text m) 0 ++ 0 :: rest).
  assert (drop 2 (encode_message m) ++ rest = (hdr ++ date) ++ fields) as ->.
  { unfold encode_message. fold date. subst hdr fields.
    change (maxNameLen - 1) with 35. change (maxSubjectLen - 1) with 71.
    unfold le16. cbn [app drop]. repeat (rewrite <-!app_assoc; cbn [app]). done. }
  assert (length (hdr ++ date) = 32%nat) as Hh by (rewrite length_app, Hdl; done).
  unfold decodeMessage. rewrite length_app, Hh. destruct (Nat.ltb_spec (32 + length fields) 32); [lia|].
  rewrite take_app_len, drop_app_len by done.
  subst fields. unfold readZ.
  rewrite read_z_app by (destruct (clip_field (ToName m) 35); [done|]; unfold maxNameLen; (done || lia)).
  cbn [mbind result_bind].
  rewrite read_z_app by (destruct (clip_field (FromName m) 35); [done|]; unfold maxNameLen; (done || lia)).
  cbn [mbind result_bind].
  rewrite read_z_app by (destruct (clip_field (Subject m) 71); [done|]; unfold maxSubjectLen; (done || lia)).
  cbn [mbind result_bind].
  rewrite read_z_app by (apply remove_byte_free || (pose proof (remove_byte_len (Text m) 0); lia)).
  cbn [mbind result_bind mret result_ret].
  unfold clip_message. rewrite <-Hdt. repeat f_equal.
  1-6: subst hdr; unfold get16, le16; cbn; dlia.
  unfold slice. rewrite drop_app_len by done. apply take_ge. rewrite Hdl. done.
Qed.

(** *** The header *)

Lemma copy_region off n src h cs :
  contains_byte cs 0 = true -> (off + n <= length h)%nat -> take n (drop off h) = replicate n 0 ->
  exists r, copy_into off n src h = take off h ++ r ++ drop (off + n) h
            /\ length r = n /\ trim_right r cs = trim_right (take n src) cs.
Proof.
  intros H0 Hl Hz. eexists. split; [done|]. set (k := length (take n src)).
  assert (k <= n)%nat as Hk by (subst k; rewrite length_take; lia).
  assert (take (n - k) (drop (off + k) h) = replicate (n - k) 0) as Hz'.
  { rewrite <-drop_drop, take_drop_commute. replace (k + (n - k))%nat with n by lia.
    rewrite Hz, drop_replicate. done. }
  rewrite take_app. fold k. rewrite Hz', take_take, Nat.min_id. split.
  - rewrite length_app, length_replicate. fold k. lia.
  - by apply trim_right_app, Forall_replicate.
Qed.

Section header.
Context `{UnicodeTables}.

Ltac field := cbv [get16 put16 nth insert list_insert app take drop Nat.add]; dlia.

Lemma header_fields p t :
  let h := packet_header p t in
  length h = headerLen
  /\ get16 h 0 = Node (From p) mod 65536 /\ get16 h 2 = Node (To p) mod 65536
  /\ get16 h 4 = year t mod 65536 /\ get16 h 6 = (month t - 1) mod 65536 /\ get16 h 8 = day t mod 65536
  /\ get16 h 10 = hour t mod 65536 /\ get16 h 12 = minute t mod 65536 /\ get16 h 14 = second t mod 65536
  /\ get16 h 18 = packetVersion /\ get16 h 20 = Net (From p) mod 65536 /\ get16 h 22 = Net (To p) mod 65536
  /\ get16 h 34 = Zone (From p) mod 65536 /\ get16 h 36 = Zone (To p) mod 65536 /\ get16 h 38 = 0
  /\ get16 h 40 = 256 /\ get16 h 44 = 1
  /\ get16 h 46 = Zone (From p) mod 65536 /\ get16 h 48 = Zone (To p) mod 65536
  /\ get16 h 50 = Point (From p) mod 65536 /\ get16 h 52 = Point (To p) mod 65536
  /\ trim_right (slice h 26 34) [0; 32] = trim_right (take 8 (to_upper (Password p))) [0; 32].
Proof.
  cbn zeta. unfold packet_header.
  match goal with |- context [copy_into 26 8 ?src ?h] =>
    destruct (copy_region 26 8 src h [0; 32] eq_refl) as (r & E & Hr & Ht); [cbn; lia|reflexivity|]
  end.
  rewrite E, <-Ht. clear E Ht.
  do 9 (destruct r as [|? r]; try discriminate Hr). clear Hr.
  cbv [replicate headerLen].
  repeat match goal with |- _ /\ _ => split end; try reflexivity; field.
Qed.
End header.

(** *** The whole packet *)

Definition addr_words (a : Addr) : Prop := word (Zone a) /\ word (Net a) /\ word (Node a) /\ word (Point a).

Lemma nonzero_word z : (if z =? 0 then z else z) = z.
Proof. by destruct (z =? 0). Qed.

Lemma read_packet_header `{UnicodeTables} p t :
  addr_words (From p) -> addr_words (To p) -> valid_civil t -> nsec t = 0 -> 1981 <= year t < 65536 ->
  read_header (packet_header p t) =
  MkPacket (MkAddr (Zone (From p)) (Net (From p)) (Node (From p)) (Point (From p)) [])
    (MkAddr (Zone (To p)) (Net (To p)) (Node (To p)) (Point (To p)) [])
    (trim_right (take 8 (to_upper (Password p))) [0; 32]) (Some t) [].
Proof.
  unfold addr_words, word. intros Hf Ht Hc Hn Hy.
  pose proof (header_fields p t) as Hh. cbn zeta in Hh. set (h := packet_header p t) in *.
  destruct_and! Hh. unfold read_header. cbv zeta.
  repeat match goal with E : get16 h _ = _ |- _ => rewrite E; clear E end.
  pose proof Hc as (Hm & Hd & Hho & Hmi & Hs). pose proof (days_in_spec (month t) (year t)) as [Hd31 _].
  rewrite !Z.mod_small by lia. rewrite !nonzero_word.
  destruct (Z.ltb_spec 1980 (year t)); [|lia]. destruct (Z.ltb_spec (month t - 1) 12); [|lia].
  change (negb (Z.land 1 capWordType2p =? 0)) with true.
  change (1 =? Z.land (Z.lor (Z.shiftr 256 8) (Z.shiftl 256 8)) 65535) with true.
  cbn [andb negb Z.eqb]. rewrite andb_false_r, Z.sub_add, Z.max_l by lia.
  rewrite go_date_valid by done. by f_equal.
Qed.

Lemma read_messages_step f input count :
  read_messages (S f) (2 :: 0 :: input) count
  = match decodeMessage input with
    | Err e => ([], Some e)
    | Ok (m, rest) => let '(ms, e) := read_messages f rest (count + 1) in (m :: ms, e)
    end.
Proof. reflexivity. Qed.

Lemma read_messages_encode fuel ms count :
  Forall (fun m => len (Text m) <= maxMessageText) ms ->
  (length ms < fuel)%nat ->
  read_messages fuel ((ms ≫= encode_message) ++ [0; 0]) count = (clip_message <$> ms, None).
Proof.
  intros Hm. revert fuel count. induction Hm as [|m ms Ht _ IH]; intros fuel count Hf.
  - destruct fuel; [cbn in Hf; lia|]. reflexivity.
  - destruct fuel as [|fuel]; [cbn in Hf; lia|]. cbn [length] in Hf.
    rewrite bind_cons, <-app_assoc.
    change (encode_message m ++ ?rest) with (2 :: 0 :: (drop 2 (encode_message m) ++ rest)).
    rewrite read_messages_step.
    rewrite decode_encode by done. rewrite (IH fuel) by lia. done.
Qed.

Lemma encode_message_length m : (2 <= length (encode_message m))%nat.
Proof. unfold encode_message. rewrite length_app. cbn. lia. Qed.

Lemma messages_length ms : (length ms <= length (ms ≫= encode_message))%nat.
Proof.
  induction ms as [|m ms IH]; [done|]. rewrite bind_cons, length_app.
  pose proof (encode_message_length m). cbn [length]. lia.
Qed.

(** *** Dates *)

Lemma pad2_two n : 0 <= n < 100 -> pad_dec 2 n = [48 + n / 10; 48 + n mod 10].
Proof.
  intros Hn. assert (forallb (fun k => bool_decide (pad_dec 2 k = [48 + k / 10; 48 + k mod 10])) (seqZ 0 100) = true) as H
    by (vm_compute; reflexivity).
  pose proof (proj1 (forallb_forall _ _) H n) as Hk. assert (In n (seqZ 0 100)) as Hin.
  { apply list_elem_of_In, elem_of_seqZ. lia. }
  by apply bool_decide_eq_true_1 in Hk.
Qed.

Lemma is_digit_spec b : is_digit b = true <-> 48 <= b <= 57.
Proof. unfold is_digit, between. rewrite andb_true_iff. lia. Qed.

Lemma getnum_two fixed n s : 0 <= n < 100 -> getnum fixed ((48 + n / 10) :: (48 + n mod 10) :: s) = Some (n, s).
Proof.
  intros Hn. unfold getnum. rewrite !(proj2 (is_digit_spec _)) by dlia. cbn [negb]. do 2 f_equal. dlia.
Qed.

Lemma parse_month_name m : 1 <= m <= 12 -> parse_month (month_name m) = Some m /\ length (month_name m) = 3%nat
  /\ Forall (fun b => graphic b = true) (month_name m).
Proof.
  intros Hm. assert (m ∈ seqZ 1 12) as Hin by (apply elem_of_seqZ; lia).
  assert (forallb (fun m => bool_decide (parse_month (month_name m) = Some m) && bool_decide (length (month_name m) = 3%nat)
    && forallb graphic (month_name m)) (seqZ 1 12) = true) as H by (vm_compute; reflexivity).
  apply list_elem_of_In in Hin. apply (proj1 (forallb_forall _ _) H) in Hin. bool_prop. split; [done|]. split; [done|].
  apply Forall_forall. intros b Hb%list_elem_of_In. by apply (proj1 (forallb_forall _ _) H1).
Qed.

Lemma pad2_graphic n : 0 <= n < 100 -> Forall (fun b => graphic b = true) (pad_dec 2 n).
Proof.
  intros Hn. rewrite pad2_two by done. assert (forall d, 0 <= d < 10 -> graphic (48 + d) = true) as Hg.
  { intros d Hd. unfold graphic, between. apply andb_true_intro. lia. }
  repeat constructor; apply Hg; dlia.
Qed.

Lemma format_fields t :
  valid_civil t ->
  fields (FormatDate t) = [pad_dec 2 (day t); month_name (month t); pad_dec 2 (year t mod 100);
    pad_dec 2 (hour t) ++ ch ":" :: pad_dec 2 (minute t) ++ ch ":" :: pad_dec 2 (second t)].
Proof.
  intros (Hm & Hd & Hh & Hmi & Hs). pose proof (days_in_spec (month t) (year t)) as [Hd31 _].
  destruct (parse_month_name (month t) Hm) as (_ & Hl & Hg).
  assert (0 <= year t mod 100 < 100) as Hy by (apply Z.mod_pos_bound; lia).
  assert (forall n, pad_dec 2 n <> []) as Hne.
  { intros n. unfold pad_dec, zpad. destruct (udec n) as [|x [|y l]]; [done|done|]. by destruct (2 - _)%nat. }
  unfold FormatDate. cbn [app].
  rewrite fields_word by (try apply pad2_graphic; (done || lia)).
  rewrite fields_word by (first [done|by destruct (month_name (month t))]).
  rewrite fields_word by (try apply pad2_graphic; (done || lia)).
  rewrite fields_skip, fields_last; [done| |].
  - specialize (Hne (hour t)). by destruct (pad_dec 2 (hour t)).
  - apply Forall_app. split; [apply pad2_graphic; lia|]. constructor; [done|].
    apply Forall_app. split; [apply pad2_graphic; lia|]. constructor; [done|]. apply pad2_graphic; lia.
Qed.

Lemma parse_clock_format h m s :
  0 <= h < 24 -> 0 <= m < 60 -> 0 <= s < 60 ->
  parse_clock (pad_dec 2 h ++ ch ":" :: pad_dec 2 m ++ ch ":" :: pad_dec 2 s) = Some (h, m, s, 0).
Proof.
  intros Hh Hm Hs. rewrite !pad2_two by lia. cbn [app]. unfold parse_clock.
  rewrite getnum_two by lia. cbn [mbind option_bind]. unfold in_range, between.
  destruct (Z.leb_spec 0 h), (Z.leb_spec h 23); try lia. cbn [andb mbind option_bind literal]. rewrite Z.eqb_refl.
  cbn [mbind option_bind]. rewrite getnum_two by lia. cbn [mbind option_bind].
  destruct (Z.leb_spec 0 m), (Z.leb_spec m 59); try lia. cbn [andb mbind option_bind literal]. rewrite Z.eqb_refl.
  cbn [mbind option_bind]. rewrite getnum_two by lia. cbn [mbind option_bind].
  destruct (Z.leb_spec 0 s), (Z.leb_spec s 59); try lia. done.
Qed.

Lemma parse_year_format y : 1969 <= y <= 2068 -> parse_year (pad_dec 2 (y mod 100)) = Some y.
Proof.
  intros Hy. assert (y mod 100 ∈ seqZ 0 100) as Hin by (apply elem_of_seqZ; dlia).
  assert (forallb (fun k => bool_decide (parse_year (pad_dec 2 k) = Some (if 69 <=? k then k + 1900 else k + 2000)))
    (seqZ 0 100) = true) as H by (vm_compute; reflexivity).
  apply list_elem_of_In in Hin. apply (proj1 (forallb_forall _ _) H) in Hin. apply bool_decide_eq_true_1 in Hin.
  rewrite Hin. f_equal. destruct (Z.leb_spec 69 (y mod 100)); dlia.
Qed.

Lemma date_parses t : valid_civil t -> nsec t = 0 -> 1969 <= year t <= 2068 -> ParseDate (FormatDate t) = Some t.
Proof.
  intros Hc Hn Hy.
  unfold ParseDate. rewrite format_fields by done. destruct Hc as (Hm & Hd & Hh & Hmi & Hs).
  pose proof (days_in_spec (month t) (year t)) as [Hd31 _].
  assert (length (pad_dec 2 (day t)) = 2%nat) as -> by (rewrite pad2_two by lia; done). cbn [Nat.eqb].
  assert (parse_day (pad_dec 2 (day t)) = Some (day t)) as ->.
  { unfold parse_day. rewrite pad2_two, getnum_two by lia. done. }
  destruct (parse_month_name (month t) Hm) as [-> _]. cbn [mbind option_bind].
  rewrite parse_year_format by done. cbn [mbind option_bind].
  rewrite parse_clock_format by done. cbn [mbind option_bind].
  unfold in_range, between. destruct (Z.leb_spec 1 (day t)), (Z.leb_spec (day t) (days_in (month t) (year t))); try lia.
  cbn. rewrite <-Hn. by destruct t.
Qed.

(** * Theorems *)

Lemma ReadPacket_WriteTo `{UnicodeTables} (p : Packet) (now : civil)
    (Hf : addr_words (From p)) (Ht : addr_words (To p))
    (Hc : valid_civil (default now (Created p))) (Hn : nsec (default now (Created p)) = 0)
    (Hy : 1981 <= year (default now (Created p)) < 65536)
    (Hm : Forall (fun m => len (Text m) <= maxMessageText) (Messages p)) :
  ReadPacket (WriteTo p now) = (Some (clip_packet p now), None).
Proof.
  unfold ReadPacket, WriteTo. set (t := default now (Created p)) in *.
  pose proof (header_fields p t) as (Hl & _ & _ & _ & _ & _ & _ & _ & _ & Hv & _).
  rewrite length_app, Hl. destruct (Nat.ltb_spec (headerLen + length ((Messages p ≫= encode_message) ++ [0; 0])) headerLen); [lia|].
  rewrite take_app_len, drop_app_len, Hv by done. cbn [negb packetVersion Z.eqb Pos.eqb].
  rewrite read_packet_header by done.
  rewrite read_messages_encode; [done|done|]. rewrite length_app. pose proof (messages_length (Messages p)).
  unfold headerLen. lia.
Qed.

(** C12: a packet written and read back is the same packet: the addresses, the
    upper-cased password, the date and every message in order, each field
    clipped to what the format can carry. *)
Theorem packet_roundtrip `{UnicodeTables} (p : Packet) (now : civil)
    (Hf : addr_words (From p)) (Ht : addr_words (To p))
    (Hc : valid_civil (default now (Created p))) (Hn : nsec (default now (Created p)) = 0)
    (Hy : 1981 <= year (default now (Created p)) < 65536)
    (Hm : Forall (fun m => len (Text m) <= maxMessageText) (Messages p)) :
  ReadPacket (WriteTo p now) = (Some (clip_packet p now), None).
Proof. by apply ReadPacket_WriteTo. Qed.

Definition example_packet : Packet :=
  MkPacket (MkAddr 2 410 9 0 (str "fidonet")) (MkAddr 2 5030 1651 4 []) (str "Secret")
    (Some (Civil 2026 7 14 9 5 59 0))
    [ MkPM 9 410 1651 5030 1 0 (str "14 Jul 26  09:05:59") (str "Sysop") (str "Max") (str "Hello")
        (str "Hi there" ++ [13]) ].

Lemma packet_roundtrip_witness :
  @ReadPacket (@WriteTo ascii_tables example_packet (Civil 2026 1 1 0 0 0 0))
  = (Some (@clip_packet ascii_tables example_packet (Civil 2026 1 1 0 0 0 0)), None)
  /\ Password (@clip_packet ascii_tables example_packet (Civil 2026 1 1 0 0 0 0)) = str "SECRET".
Proof.
  split; [|reflexivity].
  apply packet_roundtrip; cbn; unfold addr_words, word, valid_civil, days_in, maxMessageText; cbn; try lia.
  repeat constructor. vm_compute. congruence.
Defined.

(** nothing accepted from the wire breaks the limits of the format: whatever
    bytes arrive, every message kept has 16-bit fields, names of at most 36
    bytes, a subject of at most 72 and a text of at most a megabyte, with no NUL
    in any of them. *)
Theorem ReadPacket_bounds (input : bytes) (Hb : bytes_ok input) :
  match ReadPacket input with
  | (Some p, _) => Forall message_ok (Messages p) /\ addr_words (From p) /\ addr_words (To p) /\ len (Password p) <= 8
  | (None, e) => is_Some e
  end.
Proof.
  unfold ReadPacket. destruct (length input <? headerLen)%nat; [by eexists|].
  cbv zeta. destruct (negb _); [by eexists|].
  pose proof (read_messages_ok (length input) (drop headerLen input) 0 (Forall_drop _ _ _ Hb)) as Hms.
  destruct (read_messages _ _ _) as [ms e]. split; [done|]. cbn [From To Password].
  assert (bytes_ok (take headerLen input)) as Hh by by apply Forall_take.
  assert (word 0) as H0 by (unfold word; lia).
  split; [|split].
  - unfold addr_words, read_header. cbv zeta.
    repeat match goal with |- context [if ?b then _ else _] => destruct b end; cbn [From Zone Net Node Point];
      split_and!; by try apply get16_word.
  - unfold addr_words, read_header. cbv zeta.
    repeat match goal with |- context [if ?b then _ else _] => destruct b end; cbn [To Zone Net Node Point];
      split_and!; by try apply get16_word.
  - unfold read_header. cbv zeta. cbn [Password]. etransitivity; [apply trim_right_len|].
    unfold slice, len. rewrite length_take. lia.
Qed.

Lemma ReadPacket_bounds_witness :
  match ReadPacket (replicate 58 2) with
  | (Some p, _) => Forall message_ok (Messages p) /\ addr_words (From p) /\ addr_words (To p) /\ len (Password p) <= 8
  | (None, e) => is_Some e
  end.
Proof. apply ReadPacket_bounds. apply Forall_replicate. split; lia. Defined.

(** the date of a packed message survives being written and read, for every
    valid time of the years 1969 to 2068 that two digits can name. *)
Theorem ParseDate_FormatDate (t : civil) (Hc : valid_civil t) (Hn : nsec t = 0) (Hy : 1969 <= year t <= 2068) :
  ParseDate (FormatDate t) = Some t.
Proof. by apply date_parses. Qed.

Lemma ParseDate_FormatDate_witness :
  ParseDate (FormatDate (Civil 2024 2 29 23 59 1 0)) = Some (Civil 2024 2 29 23 59 1 0).
Proof.
  apply ParseDate_FormatDate; [|reflexivity|cbn [year]; lia].
  unfold valid_civil. cbn [year month day hour minute second]. change (days_in 2 2024) with 29. lia.
Defined.
