(* ===== verification/FtnMessage.v ===== *)
(** * FidoNet messages: [internal/ftn/message.go], and [AddVia] of [route.go]

    A message between its packed form and its parts: control lines, SEEN-BY and
    PATH, the origin line.  The theorems: packing a message and parsing it gives
    the message back; the SEEN-BY shorthand is read as it was written and fits 79
    columns; SEEN-BY lists are sorted without duplicates. *)

From Stdlib Require Import Ascii String ZArith Lia Sorted.
From stdpp Require Import base tactics list gmap strings sorting.
From S2P Require Import Prelude GoStrings GoTime FtnAddr FtnCharset FtnPacket.
Open Scope Z_scope.

(** ** Data *)

Record Kludge := MkKludge { KName : bytes; KValue : bytes }.

(** [Date] is [None] for the zero time. *)
Record Message := MkMessage {
  Area : bytes;
  MFrom : bytes; MTo : bytes; MSubject : bytes;
  Date : option civil;
  Orig : Addr; Dest : Addr;
  MAttr : Z;
  MsgID : bytes; Reply : bytes;
  MCharset : Charset;
  TZUTC : bytes;
  Body : bytes;
  SeenBy : list Net2D; Path : list Net2D;
  Kludges : list Kludge
}.

Definition zero_civil : civil := Civil 1 1 1 0 0 0 0.

(** ** SEEN-BY and PATH *)

(** The loop of [appendNets]; [net] is the net of the entry before. *)
Fixpoint nets_of (fs : list bytes) (net : Z) : list Net2D :=
  match fs with
  | [] => []
  | f :: fs' =>
      let '(n, node, found) := cut f (ch "/") in
      let '(v, ok) := if found : bool then atoi n else (net, true) in
      if negb ok then nets_of fs' net
      else
        let nodePart := if found : bool then node else f in
        let '(nd, nok) := atoi nodePart in
        if negb nok || (v =? 0) then nets_of fs' v else (v, nd) :: nets_of fs' v
  end.
Definition appendNets (to : list Net2D) (s : bytes) : list Net2D := to ++ nets_of (fields s) 0.

(** The loop of [FormatNets]: the lines still to come, [line] being built. *)
Fixpoint format_go (prefix : bytes) (nets : list Net2D) (line : bytes) (net : Z) : list bytes :=
  match nets with
  | [] => if bool_decide (line = prefix) then [] else [line]
  | (nt, nd) :: nets' =>
      let full := itoa nt ++ ch "/" :: itoa nd in
      let tok := if negb (nt =? net) then full else itoa nd in
      if (79 <? len line + 1 + len tok) && negb (bool_decide (line = prefix)) then
        line :: format_go prefix nets' (prefix ++ 32 :: full) nt
      else format_go prefix nets' (line ++ 32 :: tok) nt
  end.
Definition FormatNets (prefix : bytes) (nets : list Net2D) : list bytes :=
  format_go prefix nets prefix (-1).

(** The order of [SortNets]: by net, then by node. *)
Definition net_le (a b : Net2D) : Prop := fst a < fst b \/ (fst a = fst b /\ snd a <= snd b).
Global Instance net_le_dec a b : Decision (net_le a b).
Proof. unfold net_le. apply _. Defined.

(** [slices.Compact] *)
Fixpoint compact (l : list Net2D) : list Net2D :=
  match l with
  | x :: ((y :: _) as l') => if bool_decide (x = y) then compact l' else x :: compact l'
  | _ => l
  end.
Definition SortNets (nets : list Net2D) : list Net2D := compact (merge_sort net_le nets).

(** ** Parsing *)

Section message.
Context `{UnicodeTables}.

Definition splitKludge (s : bytes) : bytes * bytes :=
  let '(name, value, ok) := cut s (ch ":") in
  if (ok : bool) && negb (contains_any name (str " ")) then (to_upper name, trim_space value)
  else let '(name, value, _) := cut s 32 in (to_upper name, trim_space value).

(** [a] with the zone, net and node of [d]. *)
Definition set_znf (a d : Addr) : Addr := MkAddr (Zone d) (Net d) (Node d) (Point a) (Domain a).

(** What the loop of [ParseMessage] has gathered: the addresses, the points,
    the control lines and the lines of the body. *)
Record parsed := MkParsed {
  p_orig : Addr; p_dest : Addr; p_fmpt : Z; p_topt : Z;
  p_msgid : bytes; p_reply : bytes; p_cs : Charset; p_tz : bytes;
  p_path : list Net2D; p_seen : list Net2D; p_kludges : list Kludge;
  p_body : list bytes
}.

Definition applyINTL (p : parsed) (v : bytes) : parsed :=
  match fields v with
  | [f0; f1] =>
      let dest := match ParseAddr f0 with Ok d => set_znf (p_dest p) d | Err _ => p_dest p end in
      let orig := match ParseAddr f1 with Ok o => set_znf (p_orig p) o | Err _ => p_orig p end in
      MkParsed orig dest (p_fmpt p) (p_topt p) (p_msgid p) (p_reply p) (p_cs p) (p_tz p)
        (p_path p) (p_seen p) (p_kludges p) (p_body p)
  | _ => p
  end.

Definition parse_kludge (p : parsed) (name value : bytes) : parsed :=
  let '(MkParsed o d fm tp mi re cs tz pa se ks bo) := p in
  if bool_decide (name = str "INTL") then applyINTL p value
  else if bool_decide (name = str "FMPT") then MkParsed o d (fst (atoi value)) tp mi re cs tz pa se ks bo
  else if bool_decide (name = str "TOPT") then MkParsed o d fm (fst (atoi value)) mi re cs tz pa se ks bo
  else if bool_decide (name = str "MSGID") then MkParsed o d fm tp value re cs tz pa se ks bo
  else if bool_decide (name = str "REPLY") then MkParsed o d fm tp mi value cs tz pa se ks bo
  else if bool_decide (name = str "CHRS") || bool_decide (name = str "CHARSET") then
    MkParsed o d fm tp mi re (default cs (ParseCHRS value)) tz pa se ks bo
  else if bool_decide (name = str "TZUTC") then MkParsed o d fm tp mi re cs value pa se ks bo
  else if bool_decide (name = str "PATH") then MkParsed o d fm tp mi re cs tz (appendNets pa value) se ks bo
  else MkParsed o d fm tp mi re cs tz pa se (ks ++ [MkKludge name value]) bo.

Definition parse_line (p : parsed) (l : bytes) : parsed :=
  if bool_decide (head l = Some 1) then
    let '(name, value) := splitKludge (tail l) in parse_kludge p name value
  else
    let '(MkParsed o d fm tp mi re cs tz pa se ks bo) := p in
    if has_prefix l (str "SEEN-BY:") then MkParsed o d fm tp mi re cs tz pa (appendNets se (drop 8 l)) ks bo
    else MkParsed o d fm tp mi re cs tz pa se ks (bo ++ [l]).

(** The body without the blank lines at its end. *)
Fixpoint drop_blank (rev_body : list bytes) : list bytes :=
  match rev_body with
  | l :: ls => if bool_decide (trim_space l = []) then drop_blank ls else rev_body
  | [] => []
  end.
Definition trim_body (body : list bytes) : list bytes := reverse (drop_blank (reverse body)).

Definition to_option {E A} (r : result E A) : option A := match r with Ok a => Some a | Err _ => None end.

Definition OriginAddr (body : bytes) : option Addr :=
  let i := last_index_sub body (str " * Origin:") in
  if i <? 0 then None
  else
    let line := slice_from body i in
    let nl := index_byte line (ch "010") in
    let line := if 0 <=? nl then slice_to line nl else line in
    let open_ := last_index_byte line (ch "(") in
    let close_ := last_index_byte line (ch ")") in
    if (open_ <? 0) || (close_ <? open_) then None
    else to_option (ParseAddr (slice line (open_ + 1) close_)).

Definition msgidAddr (msgid : bytes) : option Addr :=
  match fields msgid with
  | [f0; _] => to_option (ParseAddr f0)
  | _ => None
  end.

Definition set_point (a : Addr) (p : Z) : Addr := MkAddr (Zone a) (Net a) (Node a) p (Domain a).

Definition ParseMessage (pm : PackedMessage) (pktFrom pktTo : Addr) (defaultCS : Charset) : Message :=
  let lines := split_byte (remove_byte (Text pm) 10) 13 in
  let '(area, lines) := match lines with
                        | l :: ls => if has_prefix l (str "AREA:")
                                     then (to_upper (trim_space (drop 5 l)), ls) else ([], lines)
                        | [] => ([], [])
                        end in
  let p0 := MkParsed (MkAddr (Zone pktFrom) (OrigNet pm) (OrigNode pm) 0 [])
              (MkAddr (Zone pktTo) (DestNet pm) (DestNode pm) 0 []) 0 0 [] [] defaultCS [] [] [] [] [] in
  let p := foldl parse_line p0 lines in
  let orig := set_point (p_orig p) (p_fmpt p) in
  let dest := set_point (p_dest p) (p_topt p) in
  let cs := p_cs p in
  let body := Decode (join (trim_body (p_body p)) [ch "010"]) cs in
  let orig := if bool_decide (area = []) then orig
              else match OriginAddr body with
                   | Some a => a
                   | None => default orig (msgidAddr (p_msgid p))
                   end in
  MkMessage area (trim_space (Decode (FromName pm) cs)) (trim_space (Decode (ToName pm) cs))
    (trim_space (Decode (Subject pm) cs)) (ParseDate (DateTime pm)) orig dest (Attr pm)
    (p_msgid p) (p_reply p) cs (p_tz p) body (p_seen p) (p_path p) (p_kludges p).
End message.

(** ** Packing *)

Definition line_end (l : bytes) : bytes := l ++ [13].

Definition kludge (name value : bytes) : bytes :=
  if bool_decide (value = []) then [] else line_end (1 :: name ++ str ": " ++ value).

Definition znf (a : Addr) : bytes := itoa (Zone a) ++ str ":" ++ itoa (Net a) ++ str "/" ++ itoa (Node a).

Definition Pack (m : Message) : PackedMessage :=
  let head_ :=
    if bool_decide (Area m = []) then
      line_end (1 :: str "INTL " ++ znf (Dest m) ++ str " " ++ znf (Orig m))
      ++ (if Point (Orig m) =? 0 then [] else line_end (1 :: str "FMPT " ++ itoa (Point (Orig m))))
      ++ (if Point (Dest m) =? 0 then [] else line_end (1 :: str "TOPT " ++ itoa (Point (Dest m))))
    else line_end (str "AREA:" ++ Area m) in
  let body := replace_all (replace_all (Body m) [13; 10] [10]) [13] [10] in
  let nets :=
    if bool_decide (Area m = []) then []
    else (FormatNets (str "SEEN-BY:") (SortNets (SeenBy m)) ≫= line_end)
         ++ (FormatNets (1 :: str "PATH:") (Path m) ≫= line_end) in
  MkPM (Node (Orig m)) (Net (Orig m)) (Node (Dest m)) (Net (Dest m)) (MAttr m) 0
    (FormatDate (default zero_civil (Date m)))
    (Encode (MTo m) (MCharset m)) (Encode (MFrom m) (MCharset m)) (Encode (MSubject m) (MCharset m))
    (head_ ++ kludge (str "MSGID") (MsgID m) ++ kludge (str "REPLY") (Reply m)
     ++ kludge (str "CHRS") (CHRS (MCharset m)) ++ kludge (str "TZUTC") (TZUTC m)
     ++ (Kludges m ≫= fun k => kludge (KName k) (KValue k))
     ++ Encode (replace_all body [10] [13]) (MCharset m) ++ [13] ++ nets).

(** [TZUTC] of a time whose zone is [off] seconds east. *)
Definition format_TZUTC (off : Z) : bytes :=
  let '(sign, off) := if off <? 0 then (str "-", - off) else ([], off) in
  sign ++ pad_dec 2 (off / 3600) ++ pad_dec 2 (off mod 3600 / 60).

Definition EchoFooter (tear origin : bytes) (a : Addr) : bytes :=
  let addr := str " (" ++ Addr_String a ++ str ")" in
  let room := 79 - len (str " * Origin: ") - len addr in
  let origin := if room <? rune_count origin then utf8 (take (Z.to_nat (Z.max room 0)) (runes origin)) else origin in
  str "--- " ++ tear ++ (ch "010") :: str " * Origin: " ++ origin ++ addr.

(** ** [AddVia] and [IsNetmail] of route.go *)

(** [at.UTC().Format("20060102.150405.UTC")] *)
Definition via_time (t : civil) : bytes :=
  pad_dec 4 (year t) ++ pad_dec 2 (month t) ++ pad_dec 2 (day t) ++ str "."
  ++ pad_dec 2 (hour t) ++ pad_dec 2 (minute t) ++ pad_dec 2 (second t) ++ str ".UTC".

Definition AddVia (pm : PackedMessage) (by_ : Addr) (at_ : civil) (program : bytes) : PackedMessage :=
  let text := trim_right (Text pm) [0] in
  let text := match last text with Some c => if c =? 13 then text else text ++ [13] | None => text end in
  let via := 1 :: str "Via " ++ Addr_String by_ ++ str " @" ++ via_time at_ ++ str " " ++ program ++ [13] in
  MkPM (OrigNode pm) (OrigNet pm) (DestNode pm) (DestNet pm) (Attr pm) (Cost pm) (DateTime pm)
    (ToName pm) (FromName pm) (Subject pm) (text ++ via).

Definition IsNetmail (pm : PackedMessage) : bool := negb (has_prefix (Text pm) (str "AREA:")).

(** * Lemmas *)

(** ** The SEEN-BY shorthand *)

(** Words, each after a space. *)
Definition spaced (toks : list bytes) : bytes := toks ≫= fun t => 32 :: t.

Definition word_tok (t : bytes) : Prop := t <> [] /\ Forall (fun b => graphic b = true) t.

Lemma fields_spaced toks : Forall word_tok toks -> fields (spaced toks) = toks.
Proof.
  induction 1 as [|t toks [Hne Hg] Hts IH]; [done|]. unfold spaced. rewrite bind_cons.
  change ((32 :: t) ++ ?x) with (32 :: (t ++ x)). rewrite fields_skip.
  destruct toks as [|t' toks]; [cbn; by rewrite app_nil_r, fields_last|].
  rewrite bind_cons in *. change ((32 :: t') ++ ?x) with (32 :: (t' ++ x)) in *.
  rewrite fields_word by done. f_equal. rewrite <-fields_skip. exact IH.
Qed.

Lemma spaced_nil toks : spaced toks = [] <-> toks = [].
Proof. by destruct toks. Qed.

Lemma spaced_snoc toks t : spaced (toks ++ [t]) = spaced toks ++ 32 :: t.
Proof. unfold spaced. rewrite bind_app. cbn. by rewrite app_nil_r. Qed.

(** The numbers of FidoNet nets and nodes. *)
Definition net_ok (n : Net2D) : Prop := 1 <= fst n <= 65535 /\ 0 <= snd n <= 65535.

Definition full_tok (n : Net2D) : bytes := itoa (fst n) ++ ch "/" :: itoa (snd n).
Definition tok_of (n : Net2D) (net : Z) : bytes := if negb (fst n =? net) then full_tok n else itoa (snd n).

Lemma itoa_word n : 0 <= n -> word_tok (itoa n).
Proof. intros. split; [by apply itoa_ne|by apply itoa_graphic]. Qed.

Lemma full_tok_word n : net_ok n -> word_tok (full_tok n).
Proof.
  intros [? ?]. unfold full_tok. split.
  - intros E%app_eq_nil. by destruct E.
  - apply Forall_app. split; [apply itoa_graphic; lia|]. constructor; [done|apply itoa_graphic; lia].
Qed.

Lemma tok_word n net : net_ok n -> word_tok (tok_of n net).
Proof.
  intros Hn. unfold tok_of. destruct (negb _); [by apply full_tok_word|]. apply itoa_word. destruct Hn. lia.
Qed.

Lemma nets_of_tok n net fs : net_ok n -> nets_of (tok_of n net :: fs) net = n :: nets_of fs (fst n).
Proof.
  destruct n as [nt nd]. intros [Hnt Hnd]. cbn [fst snd] in *. unfold tok_of, full_tok. cbn [fst snd].
  assert (forall v, 0 <= v <= 65535 -> atoi (itoa v) = (v, true)) as Ha.
  { intros v Hv. apply atoi_itoa. unfold min_int, max_int. lia. }
  destruct (Z.eqb_spec nt net) as [->|Hne]; cbn [negb nets_of].
  - rewrite cut_absent by (apply itoa_notin; lia). cbn [negb]. rewrite Ha by lia.
    destruct (Z.eqb_spec net 0); [lia|done].
  - rewrite cut_app by (apply itoa_notin; lia). rewrite !Ha by lia. cbn [negb orb].
    destruct (Z.eqb_spec nt 0); [lia|done].
Qed.

Lemma nets_of_full n net fs : net_ok n -> nets_of (full_tok n :: fs) net = n :: nets_of fs (fst n).
Proof.
  intros Hn. destruct n as [nt nd]. destruct Hn as [Hnt Hnd]. cbn [fst snd] in *.
  unfold full_tok. cbn [fst snd nets_of]. rewrite cut_app by (apply itoa_notin; lia).
  rewrite !atoi_itoa by (unfold min_int, max_int; lia). cbn [negb orb]. by destruct (Z.eqb_spec nt 0); [lia|].
Qed.

(** The tokens of a line under way, and what they leave as the current net. *)
Definition line_inv (toks : list bytes) (net : Z) : Prop :=
  Forall word_tok toks
  /\ ((toks = [] /\ net = -1) \/ (toks <> [] /\ forall fs, nets_of (toks ++ fs) 0 = nets_of toks 0 ++ nets_of fs net)).

Lemma line_inv_snoc toks net n :
  line_inv toks net -> net_ok n ->
  line_inv (toks ++ [tok_of n net]) (fst n) /\ nets_of (toks ++ [tok_of n net]) 0 = nets_of toks 0 ++ [n].
Proof.
  intros [Hw Hinv] Hn.
  assert (forall fs, nets_of (toks ++ tok_of n net :: fs) 0 = nets_of toks 0 ++ n :: nets_of fs (fst n)) as H.
  { intros fs. destruct Hinv as [[-> ->]|[_ Hinv]].
    - cbn [app nets_of]. assert (tok_of n (-1) = full_tok n) as ->.
      { unfold tok_of. destruct Hn. destruct (Z.eqb_spec (fst n) (-1)); [lia|done]. }
      by apply nets_of_full.
    - by rewrite Hinv, nets_of_tok. }
  split; [split|].
  - apply Forall_app. split; [done|]. constructor; [by apply tok_word|constructor].
  - right. split; [by destruct toks|]. intros fs. rewrite <-app_assoc. cbn [app]. rewrite !H. cbn [nets_of].
    by rewrite <-app_assoc.
  - by rewrite H.
Qed.

Lemma line_inv_full n : net_ok n -> line_inv [full_tok n] (fst n) /\ nets_of [full_tok n] 0 = [n].
Proof.
  intros Hn. split; [split|].
  - constructor; [by apply full_tok_word|constructor].
  - right. split; [done|]. intros fs. cbn [app]. rewrite !nets_of_full by done. done.
  - by rewrite nets_of_full.
Qed.

(** A line of the shorthand: the prefix, then words. *)
Definition nets_line (prefix : bytes) (l : bytes) : Prop :=
  exists toks, l = prefix ++ spaced toks /\ toks <> [] /\ Forall word_tok toks.

Lemma format_go_spec prefix nets toks net :
  Forall net_ok nets -> line_inv toks net ->
  let lines := format_go prefix nets (prefix ++ spaced toks) net in
  (lines ≫= fun l => nets_of (fields (drop (length prefix) l)) 0) = nets_of toks 0 ++ nets
  /\ Forall (nets_line prefix) lines.
Proof.
  intros Hn. revert toks net. induction Hn as [|n nets Hn Hns IH]; intros toks net Hinv; cbn zeta.
  - cbn [format_go]. case_bool_decide as E.
    + assert (toks = []) as ->.
      { apply spaced_nil. apply (f_equal length) in E. rewrite length_app in E. destruct (spaced toks); [done|cbn in E; lia]. }
      split; [done|constructor].
    + cbn. rewrite !app_nil_r, drop_app_len by done. destruct Hinv as [Hw _].
      rewrite fields_spaced by done. split; [done|]. constructor; [|constructor].
      exists toks. split; [done|]. split; [|done]. intros ->. apply E. cbn. apply app_nil_r.
  - destruct n as [nt nd]. cbn [format_go].
    change (itoa nt ++ ch "/" :: itoa nd) with (full_tok (nt, nd)).
    change (if negb (nt =? net) then full_tok (nt, nd) else itoa nd) with (tok_of (nt, nd) net).
    match goal with |- context [if ?b && ?c then _ else _] => destruct (b && c) eqn:E end.
    + apply andb_prop in E as [_ E]. apply negb_true_iff, bool_decide_eq_false_1 in E.
      destruct (line_inv_full (nt, nd) Hn) as [Hi He].
      destruct (IH [full_tok (nt, nd)] nt Hi) as [IH1 IH2].
      replace (prefix ++ spaced [full_tok (nt, nd)]) with (prefix ++ 32 :: full_tok (nt, nd)) in *
        by (cbn; by rewrite app_nil_r).
      rewrite bind_cons, IH1, He, drop_app_len by done. destruct Hinv as [Hw _].
      rewrite fields_spaced by done. split; [done|]. constructor; [|done].
      exists toks. split; [done|]. split; [|done]. intros ->. apply E. cbn. apply app_nil_r.
    + destruct (line_inv_snoc toks net (nt, nd) Hinv Hn) as [Hi He].
      destruct (IH _ nt Hi) as [IH1 IH2]. rewrite spaced_snoc, app_assoc in IH1, IH2.
      split; [|done]. rewrite IH1, He. by rewrite <-app_assoc.
Qed.

Lemma FormatNets_spec prefix nets :
  Forall net_ok nets ->
  (FormatNets prefix nets ≫= fun l => nets_of (fields (drop (length prefix) l)) 0) = nets
  /\ Forall (nets_line prefix) (FormatNets prefix nets).
Proof.
  intros Hn. destruct (format_go_spec prefix nets [] (-1) Hn) as [IH1 IH2]; [split; [constructor|by left]|].
  unfold FormatNets. change (prefix ++ spaced []) with (prefix ++ []) in *. rewrite app_nil_r in *. done.
Qed.

Lemma itoa_short n : 0 <= n <= 65535 -> len (itoa n) <= 5.
Proof.
  intros Hn. rewrite itoa_nonneg by lia. destruct (udec_spec n) as (_ & _ & _ & Hk); [lia|].
  specialize (Hk 5%nat ltac:(lia)). change (10 ^ Z.of_nat 5) with 100000 in Hk. unfold len. specialize (Hk ltac:(lia)). lia.
Qed.

Lemma full_tok_short n : net_ok n -> len (full_tok n) <= 11.
Proof.
  intros [? ?]. unfold full_tok. rewrite len_app, len_cons.
  pose proof (itoa_short (fst n)). pose proof (itoa_short (snd n)). lia.
Qed.

Lemma tok_short n net : net_ok n -> len (tok_of n net) <= 11.
Proof.
  intros Hn. unfold tok_of. destruct (negb _); [by apply full_tok_short|]. destruct Hn.
  pose proof (itoa_short (snd n)). lia.
Qed.

Lemma format_go_width prefix nets line net :
  Forall net_ok nets -> len prefix <= 60 -> len line <= 79 ->
  Forall (fun l => len l <= 79) (format_go prefix nets line net).
Proof.
  intros Hn Hp. revert line net. induction Hn as [|n nets Hn Hns IH]; intros line net Hl; cbn [format_go].
  - case_bool_decide; [constructor|by repeat constructor].
  - destruct n as [nt nd].
    change (itoa nt ++ ch "/" :: itoa nd) with (full_tok (nt, nd)).
    change (if negb (nt =? net) then full_tok (nt, nd) else itoa nd) with (tok_of (nt, nd) net).
    pose proof (full_tok_short _ Hn). pose proof (tok_short _ net Hn).
    destruct (Z.ltb_spec 79 (len line + 1 + len (tok_of (nt, nd) net))); cbn [andb].
    + case_bool_decide as E; cbn [negb].
      * apply IH. subst line. rewrite len_app, len_cons. lia.
      * constructor; [done|]. apply IH. rewrite len_app, len_cons. lia.
    + apply IH. rewrite len_app, len_cons. lia.
Qed.

(** ** Sorting SEEN-BY *)

Global Instance net_le_total : Total net_le.
Proof. intros [a b] [c d]. unfold net_le. cbn. lia. Qed.

Global Instance net_le_trans : Transitive net_le.
Proof. intros [a b] [c d] [e f]. unfold net_le. cbn. lia. Qed.

Lemma net_le_antisym a b : net_le a b -> net_le b a -> a = b.
Proof. destruct a as [a a'], b as [b b']. unfold net_le. cbn. intros. f_equal; lia. Qed.

Lemma compact_elem l x : x ∈ compact l <-> x ∈ l.
Proof.
  induction l as [|y l IH]; [done|]. destruct l as [|z l]; [done|].
  change (compact (y :: z :: l)) with (if bool_decide (y = z) then compact (z :: l) else y :: compact (z :: l)).
  case_bool_decide as E.
  - rewrite IH. subst. rewrite !elem_of_cons. tauto.
  - rewrite elem_of_cons, IH, (elem_of_cons (z :: l)). done.
Qed.

Lemma compact_sorted l : StronglySorted net_le l -> StronglySorted net_le (compact l) /\ NoDup (compact l).
Proof.
  induction 1 as [|y l Hl IH Hy]; [split; constructor|]. destruct IH as [IHs IHn].
  destruct l as [|z l]; [split; repeat constructor; apply not_elem_of_nil|].
  change (compact (y :: z :: l)) with (if bool_decide (y = z) then compact (z :: l) else y :: compact (z :: l)).
  case_bool_decide as E; [done|]. assert (Forall (net_le y) (compact (z :: l))) as Hall.
  { apply Forall_forall. intros x Hx. apply (proj1 (compact_elem _ _)) in Hx. rewrite Forall_forall in Hy. by apply Hy. }
  split; [by constructor|]. constructor; [|done]. intros Hin. apply (proj1 (compact_elem _ _)) in Hin.
  apply E. apply Forall_cons in Hy as [Hyz _]. apply elem_of_cons in Hin as [->|Hin]; [done|].
  apply net_le_antisym; [done|]. inversion Hl as [|? ? ? Hz]; subst. rewrite Forall_forall in Hz. by apply Hz.
Qed.

(** ** The origin line *)

Lemma last_index_sub_bounds s sub : -1 <= last_index_sub s sub.
Proof. induction s as [|b s IH]; cbn [last_index_sub]; repeat case_match; lia. Qed.

Lemma last_index_sub_match s sub :
  0 <= last_index_sub s sub -> has_prefix (slice_from s (last_index_sub s sub)) sub = true.
Proof.
  induction s as [|b s IH].
  - cbn [last_index_sub Z.ltb Z.compare]. destruct (has_prefix [] sub) eqn:E; [by intros|lia].
  - cbn [last_index_sub]. pose proof (last_index_sub_bounds s sub).
    destruct (Z.ltb_spec (last_index_sub s sub) 0).
    + destruct (has_prefix (b :: s) sub) eqn:E; [by intros|lia].
    + intros _. unfold slice_from in *. rewrite Z2Nat.inj_add by lia. by apply IH.
Qed.

Lemma last_index_sub_app a s sub : has_prefix s sub = true -> len a <= last_index_sub (a ++ s) sub.
Proof.
  intros Hs. assert (0 <= last_index_sub s sub) as H0.
  { destruct s as [|b s]; cbn [last_index_sub]; rewrite Hs; [done|].
    destruct (Z.ltb_spec (last_index_sub s sub) 0); lia. }
  induction a as [|c a IH]; [rewrite len_nil; done|]. rewrite len_cons. cbn [app last_index_sub].
  pose proof (len_nonneg a). destruct (Z.ltb_spec (last_index_sub (a ++ s) sub) 0); lia.
Qed.

Section origin.
Context `{UnicodeTables}.

Definition origin_mark : bytes := str " * Origin:".

Lemma footer_address a : addr_ok a ->
  ParseAddr (Addr_String a) = Ok (MkAddr (Zone a) (Net a) (Node a) (Point a) []).
Proof.
  intros Ha. pose proof (ParseAddr_print a [] Ha (Forall_nil_2 _)) as E.
  rewrite bool_decide_eq_true_2, app_nil_r in E by done. exact E.
Qed.

(** The last origin mark of a text that ends with an origin line lies in that
    line, before the address. *)
Lemma last_origin pre origin addr :
  ch "*" ∉ addr ->
  let s := pre ++ origin_mark ++ (32 :: origin) ++ addr in
  let i := last_index_sub s origin_mark in
  exists o, slice_from s i = o ++ addr /\ o `suffix_of` (origin_mark ++ 32 :: origin) /\ 0 <= i.
Proof.
  intros Hstar s i.
  assert (len pre <= i) as Hi by (by apply last_index_sub_app).
  assert (has_prefix (slice_from s i) origin_mark = true) as Hm.
  { apply last_index_sub_match. pose proof (len_nonneg pre). fold i. lia. }
  set (mid := origin_mark ++ 32 :: origin).
  assert (s = pre ++ mid ++ addr) as Es by (subst s mid; by rewrite <-!app_assoc).
  assert (i <= len pre + len mid) as Hub.
  { destruct (Z.le_gt_cases i (len pre + len mid)) as [|Hgt]; [done|].
    apply has_prefix_spec in Hm as [t Et]. exfalso. apply Hstar.
    unfold slice_from in Et. rewrite Es, app_assoc, drop_app_ge in Et by (rewrite length_app; unfold len in *; lia).
    assert (ch "*" ∈ drop (Z.to_nat i - length (pre ++ mid)) addr) as Hin.
    { rewrite Et. cbn. right. left. }
    rewrite <-(take_drop (Z.to_nat i - length (pre ++ mid)) addr). apply elem_of_app. by right. }
  exists (drop (Z.to_nat (i - len pre)) mid). split; [|split; [by eexists (take _ mid); rewrite take_drop|pose proof (len_nonneg pre); lia]].
  unfold slice_from, len in *. rewrite Es, drop_app_ge by lia.
  rewrite drop_app_le by lia. do 2 f_equal. lia.
Qed.

Lemma suffix_notin (o m : bytes) c : o `suffix_of` m -> c ∉ m -> c ∉ o.
Proof. intros [t ->] Hm Hin. apply Hm, elem_of_app. by right. Qed.

(** The address of the origin line is found, whatever the text before it. *)
Lemma OriginAddr_footer pre origin a :
  addr_ok a -> ch "010" ∉ origin ->
  OriginAddr (pre ++ origin_mark ++ (32 :: origin) ++ str " (" ++ Addr_String a ++ str ")")
  = Some (MkAddr (Zone a) (Net a) (Node a) (Point a) []).
Proof.
  intros Ha Hnl. set (addr := str " (" ++ Addr_String a ++ str ")").
  assert (forall c, ~ (48 <= c <= 57) -> c <> 58 -> c <> 47 -> c <> 46 -> c <> 32 -> c <> 40 -> c <> 41 -> c ∉ addr) as Hna.
  { intros c ??????? Hin. subst addr. rewrite !elem_of_app, !elem_of_cons in Hin.
    pose proof (Addr_String_notin a c Ha). rewrite elem_of_nil in Hin. intuition. }
  destruct (last_origin pre origin addr) as (o & Eo & Ho & Hi); [apply Hna; lia|].
  unfold OriginAddr. set (s := pre ++ _) in *. fold origin_mark. set (i := last_index_sub s origin_mark) in *.
  destruct (Z.ltb_spec i 0); [lia|]. rewrite Eo.
  rewrite index_byte_absent.
  2:{ rewrite not_elem_of_app. split; [|apply Hna; lia].
      eapply suffix_notin; [exact Ho|]. rewrite not_elem_of_app, not_elem_of_cons. split; [|done].
      by apply (bool_decide_unpack _). }
  change (0 <=? -1) with false. cbv iota.
  assert (forall c, c = 40 \/ c = 41 -> c ∉ Addr_String a) as Hpar.
  { intros c Hc. apply Addr_String_notin; [done|lia..]. }
  assert (o ++ addr = (o ++ [32]) ++ 40 :: Addr_String a ++ [41]) as E1 by (subst addr; by rewrite <-!app_assoc).
  assert (o ++ addr = (o ++ [32; 40] ++ Addr_String a) ++ 41 :: []) as E2 by (subst addr; by rewrite <-!app_assoc).
  assert (last_index_byte (o ++ addr) 40 = len o + 1) as ->.
  { rewrite E1, last_index_byte_app; [by rewrite len_app|]. rewrite not_elem_of_app, list_elem_of_singleton.
    split; [apply Hpar; by left|done]. }
  assert (last_index_byte (o ++ addr) 41 = len o + 2 + len (Addr_String a)) as ->.
  { rewrite E2, last_index_byte_app by apply not_elem_of_nil. autorewrite with boar_len. lia. }
  pose proof (len_nonneg o). pose proof (len_nonneg (Addr_String a)).
  destruct (Z.ltb_spec (len o + 1) 0); [lia|]. destruct (Z.ltb_spec (len o + 2 + len (Addr_String a)) (len o + 1)); [lia|].
  cbn [orb]. assert (o ++ addr = (o ++ [32; 40]) ++ Addr_String a ++ [41]) as -> by (subst addr; by rewrite <-!app_assoc).
  rewrite slice_app; [by rewrite footer_address|..]; autorewrite with boar_len; lia.
Qed.
End origin.

(** ** Lines of a packed text *)

Definition one_line (l : bytes) : Prop := (13 ∉ l) /\ (10 ∉ l).

Lemma one_line_app a b : one_line a -> one_line b -> one_line (a ++ b).
Proof. unfold one_line. rewrite !not_elem_of_app. tauto. Qed.

Lemma one_line_cons c l : c <> 13 -> c <> 10 -> one_line l -> one_line (c :: l).
Proof. unfold one_line. rewrite !not_elem_of_cons. intuition congruence. Qed.

Lemma one_line_nil : one_line [].
Proof. split; apply not_elem_of_nil. Qed.

Lemma one_line_graphic l : Forall (fun b => graphic b = true) l -> one_line l.
Proof. rewrite Forall_forall. intros H. by split; intros Hin%H. Qed.

Lemma one_line_itoa n : 0 <= n -> one_line (itoa n).
Proof. intros. by apply one_line_graphic, itoa_graphic. Qed.

Create HintDb one_line discriminated.
#[local] Hint Resolve one_line_app one_line_nil one_line_itoa : one_line.
#[local] Hint Extern 2 (one_line (_ :: _)) => apply one_line_cons; [lia|lia|] : one_line.
#[local] Hint Extern 1 (_ <= _) => lia : one_line.

Lemma one_line_znf a : addr_ok a -> one_line (znf a).
Proof. unfold addr_ok, addr_num_ok. intros (? & ? & ? & ?). unfold znf. auto 10 with one_line. Qed.

Lemma one_line_spaced toks : Forall word_tok toks -> one_line (spaced toks).
Proof.
  induction 1 as [|t toks [_ Hg] _ IH]; [apply one_line_nil|]. unfold spaced. rewrite bind_cons.
  apply one_line_app; [apply one_line_cons; [lia..|by apply one_line_graphic]|exact IH].
Qed.

(** Lines, each ended, are split where they end. *)
Lemma split_lines ls :
  Forall one_line ls -> split_byte (remove_byte (ls ≫= line_end) 10) 13 = ls ++ [[]].
Proof.
  intros Hl. rewrite remove_byte_absent.
  - induction Hl as [|l ls [Hl _] _ IH]; [done|]. rewrite bind_cons. unfold line_end at 1.
    rewrite <-app_assoc. cbn [app]. rewrite split_byte_app by done. by rewrite IH.
  - induction Hl as [|l ls [_ Hl] _ IH]; [apply not_elem_of_nil|]. rewrite bind_cons. unfold line_end at 1.
    rewrite !not_elem_of_app. split; [split; [done|]|done]. by rewrite list_elem_of_singleton.
Qed.

Definition swap_byte (a b c : Z) : Z := if c =? a then b else c.

Lemma replace_byte_map s a b : replace_all s [a] [b] = swap_byte a b <$> s.
Proof.
  unfold replace_all. induction s as [|c s IH]; [done|]. cbn [replace_go has_prefix fmap list_fmap length Nat.sub].
  rewrite andb_true_r. unfold swap_byte at 1. destruct (c =? a); cbn [app]; by rewrite IH.
Qed.

Lemma replace_absent s a old new : a ∉ s -> replace_all s (a :: old) new = s.
Proof.
  unfold replace_all. induction s as [|c s IH]; [done|]. intros [Hc Hs]%not_elem_of_cons. cbn [replace_go has_prefix].
  destruct (Z.eqb_spec c a); [congruence|]. cbn [andb]. by rewrite IH.
Qed.

Lemma swap_lines s : (swap_byte 10 13 <$> s) ++ [13] = (split_byte s 10 ≫= line_end).
Proof.
  induction s as [|c s IH]; [done|]. cbn [split_byte fmap list_fmap]. unfold swap_byte at 1.
  destruct (c =? 10); cbn [app]; [rewrite bind_cons; by rewrite <-IH|].
  destruct (split_byte s 10) as [|l ls] eqn:E; [by apply split_byte_nonempty in E|].
  rewrite bind_cons in IH |- *. unfold line_end in *. cbn [app] in *. f_equal. exact IH.
Qed.

(** ** Line ends do not depend on the character set *)

Lemma encode_in_swap cs r : cs <> UTF8 -> encode_rune_in cs (swap_byte 10 13 r) = swap_byte 10 13 (encode_rune_in cs r).
Proof.
  intros Hcs. unfold swap_byte. destruct (Z.eqb_spec r 10) as [->|Hr]; [done|].
  destruct (Z.eqb_spec (encode_rune_in cs r) 10) as [E|]; [|done]. exfalso.
  unfold encode_rune_in in E. destruct (Z.ltb_spec r 128); [done|].
  assert (forall (m : gmap Z Z) f, (forall r b, m !! r = Some b -> f b = r /\ 128 <= b) -> lookup_byte m r = 10 -> False) as Hm.
  { intros m f Hinv Hl. unfold lookup_byte in Hl. destruct (m !! r) as [b|] eqn:Eb; [|done].
    destruct (Hinv _ _ Eb). cbn in Hl. lia. }
  destruct cs; [discriminate E| | | |done].
  - by eapply Hm; [exact cp437Encode_inv|].
  - by eapply (Hm _ _ cp866Encode_inv).
  - destruct (Z.leb_spec r 255); [lia|done].
Qed.

Lemma swap_utf8 rs :
  Forall (fun r => valid_rune r = true) rs -> swap_byte 10 13 <$> utf8 rs = utf8 (swap_byte 10 13 <$> rs).
Proof.
  induction 1 as [|r rs Hr _ IH]; [done|]. rewrite fmap_cons, !utf8_cons, fmap_app, IH. f_equal.
  unfold swap_byte at 2. destruct (Z.eqb_spec r 10) as [->|Hne]; [done|].
  assert (Forall (fun b => b <> 10) (encode_rune r)) as Hb.
  { destruct (Term.encode_rune_bytes r Hr) as [[_ ->]|[_ Hbs]]; [by repeat constructor|].
    eapply Forall_impl; [exact Hbs|]. cbn. lia. }
  induction Hb as [|b bs Hb _ IHb]; [done|]. rewrite fmap_cons, IHb. f_equal. unfold swap_byte.
  by destruct (Z.eqb_spec b 10).
Qed.

Lemma fits_utf8 s cs : bytes_ok s -> Fits s cs = true -> cs <> UTF8 -> utf8 (runes s) = s.
Proof.
  intros Hs Hf Hcs. apply runes_go_utf8; [done|]. apply Forall_forall. intros r Hr ->.
  assert (forallb (rune_fits cs) (runes s) = true) as H by (by destruct cs).
  apply list_elem_of_In in Hr. apply (proj1 (forallb_forall _ _) H) in Hr. by rewrite rune_fits_error in Hr.
Qed.

Lemma Encode_swap s cs :
  bytes_ok s -> Fits s cs = true -> Encode (swap_byte 10 13 <$> s) cs = swap_byte 10 13 <$> Encode s cs.
Proof.
  intros Hs Hf. destruct (decide (cs = UTF8)) as [->|Hcs]; [done|].
  assert (forall x, Encode x cs = encode_rune_in cs <$> runes x) as E by (by destruct cs).
  pose proof (Term.runes_valid s Hs) as Hv.
  assert (runes (swap_byte 10 13 <$> s) = swap_byte 10 13 <$> runes s) as Er.
  { rewrite <-(fits_utf8 s cs Hs Hf Hcs) at 1. rewrite swap_utf8 by done. apply runes_utf8.
    apply Forall_fmap. eapply Forall_impl; [exact Hv|]. intros r Hr. unfold swap_byte. cbn. by destruct (r =? 10). }
  rewrite !E, Er. rewrite <-!list_fmap_compose. apply list_fmap_ext. intros i r _. by apply encode_in_swap.
Qed.

Lemma Encode_no_CR s cs : bytes_ok s -> 13 ∉ s -> Fits s cs = true -> 13 ∉ Encode s cs.
Proof.
  intros Hs Hcr Hf. destruct (decide (cs = UTF8)) as [->|Hcs]; [done|].
  assert (Encode s cs = encode_rune_in cs <$> runes s) as -> by (by destruct cs).
  intros (r & Er & Hr)%list_elem_of_fmap.
  assert (rune_fits cs r = true /\ 0 <= r) as [Hfr H0].
  { split.
    - assert (forallb (rune_fits cs) (runes s) = true) as H by (by destruct cs).
      by apply (proj1 (forallb_forall _ _) H), list_elem_of_In.
    - pose proof (Term.runes_valid s Hs) as Hv. rewrite Forall_forall in Hv. apply Hv in Hr.
      unfold valid_rune in Hr. destruct (Z.leb_spec 0 r); [done|]. destruct (Z.leb_spec 57344 r); [lia|done]. }
  pose proof (rune_fits_roundtrip cs r Hfr H0) as E. rewrite <-Er in E. change (decode_byte cs 13) with 13 in E. subst r.
  apply Hcr. rewrite <-(fits_utf8 s cs Hs Hf Hcs). apply list_elem_of_In, in_concat. exists [13].
  split; [|by left]. apply in_map_iff. exists 13. split; [done|by apply list_elem_of_In].
Qed.

(** ** Control lines *)

Section parsing.
Context `{UnicodeTables}.

Lemma cut_not_found name s c : c ∉ name -> exists x y ok, cut (name ++ s) c = (name ++ x, y, ok).
Proof.
  intros Hn. destruct (cut s c) as [[x y] ok] eqn:E. exists x, y, ok.
  induction name as [|b name IH]; [done|]. apply not_elem_of_cons in Hn as [Hb Hn].
  cbn [app cut]. destruct (Z.eqb_spec b c); [congruence|]. by rewrite (IH Hn).
Qed.

Lemma contains_space a b : contains_any (a ++ 32 :: b) (str " ") = true.
Proof. unfold contains_any. rewrite existsb_app. cbn. by rewrite orb_true_r. Qed.

Lemma splitKludge_space name v : 32 ∉ name -> ch ":" ∉ name -> splitKludge (name ++ 32 :: v) = (to_upper name, trim_space v).
Proof.
  intros Hs Hc. unfold splitKludge. rewrite (cut_app name 32) by done.
  destruct (cut_not_found (name ++ [32]) v (ch ":")) as (x & y & ok & E).
  { rewrite not_elem_of_app, list_elem_of_singleton. done. }
  rewrite <-app_assoc in E. cbn [app] in E. rewrite E, <-app_assoc. cbn [app].
  rewrite contains_space. by rewrite andb_false_r.
Qed.

Lemma contains_any_space name : 32 ∉ name -> contains_any name (str " ") = false.
Proof.
  intros Hs. unfold contains_any. apply not_true_is_false. intros (b & Hb & E)%existsb_exists.
  apply list_elem_of_In in Hb. cbn in E. rewrite orb_false_r in E. apply Z.eqb_eq in E. by subst.
Qed.

Lemma splitKludge_colon name v : 32 ∉ name -> ch ":" ∉ name -> splitKludge (name ++ ch ":" :: v) = (to_upper name, trim_space v).
Proof. intros Hs Hc. unfold splitKludge. rewrite cut_app by done. by rewrite contains_any_space. Qed.

Lemma trim_space_skip v : trim_space (32 :: v) = trim_space v.
Proof. reflexivity. Qed.

(** A value of a control line: trimmed, on one line. *)
Definition value_ok (v : bytes) : Prop := trim_space v = v /\ one_line v.

Definition kludge_line (name v : bytes) : list bytes :=
  if bool_decide (v = []) then [] else [1 :: name ++ str ": " ++ v].

Lemma kludge_lines name v : kludge name v = (kludge_line name v ≫= line_end).
Proof. unfold kludge, kludge_line. case_bool_decide; [done|]. cbn. by rewrite app_nil_r. Qed.

Lemma parse_kludge_line p name v :
  32 ∉ name -> ch ":" ∉ name -> to_upper name = name -> value_ok v -> v <> [] ->
  foldl parse_line p (kludge_line name v) = parse_kludge p name v.
Proof.
  intros Hs Hc Hu [Hv _] Hne. unfold kludge_line. rewrite bool_decide_eq_false_2 by done. cbn [foldl].
  unfold parse_line. cbn [head tail]. rewrite bool_decide_eq_true_2 by done.
  cbn [app]. rewrite splitKludge_colon by done. by rewrite trim_space_skip, Hv, Hu.
Qed.

Definition special_names : list bytes :=
  [str "INTL"; str "FMPT"; str "TOPT"; str "MSGID"; str "REPLY"; str "CHRS"; str "CHARSET"; str "TZUTC"; str "PATH"].

Definition kludge_ok (k : Kludge) : Prop :=
  (32 ∉ KName k) /\ (ch ":" ∉ KName k) /\ to_upper (KName k) = KName k /\ one_line (KName k)
  /\ (KName k ∉ special_names) /\ value_ok (KValue k) /\ KValue k <> [].

Lemma parse_kludges o d fm tp mi re cs tz pa se ks bo l :
  Forall kludge_ok l ->
  foldl parse_line (MkParsed o d fm tp mi re cs tz pa se ks bo) (l ≫= fun k => kludge_line (KName k) (KValue k))
  = MkParsed o d fm tp mi re cs tz pa se (ks ++ l) bo.
Proof.
  intros Hl. revert ks. induction Hl as [|[n v] l Hk _ IH]; intros ks; [by rewrite app_nil_r|].
  destruct Hk as (Hs & Hc & Hu & _ & Hsp & Hv & Hne). cbn [KName KValue] in *.
  rewrite bind_cons, foldl_app, parse_kludge_line by done. cbn [KName KValue]. unfold parse_kludge.
  unfold special_names in Hsp. rewrite !not_elem_of_cons in Hsp. destruct_and! Hsp.
  rewrite !bool_decide_eq_false_2 by done. cbn [orb]. rewrite IH, <-app_assoc. done.
Qed.

(** The lines of the body, and the SEEN-BY and PATH lines. *)
Definition body_line (l : bytes) : Prop := head l <> Some 1 /\ has_prefix l (str "SEEN-BY:") = false.

Lemma parse_body o d fm tp mi re cs tz pa se ks bo ls :
  Forall body_line ls ->
  foldl parse_line (MkParsed o d fm tp mi re cs tz pa se ks bo) ls = MkParsed o d fm tp mi re cs tz pa se ks (bo ++ ls).
Proof.
  intros Hl. revert bo. induction Hl as [|l ls [Hh Hp] _ IH]; intros bo; [by rewrite app_nil_r|].
  cbn [foldl]. unfold parse_line at 2. rewrite bool_decide_eq_false_2, Hp by done.
  rewrite IH, <-app_assoc. done.
Qed.

Lemma parse_seen o d fm tp mi re cs tz pa se ks bo ls :
  Forall (nets_line (str "SEEN-BY:")) ls ->
  foldl parse_line (MkParsed o d fm tp mi re cs tz pa se ks bo) ls
  = MkParsed o d fm tp mi re cs tz pa (se ++ (ls ≫= fun l => nets_of (fields (drop 8 l)) 0)) ks bo.
Proof.
  intros Hl. revert se. induction Hl as [|l ls (toks & -> & _ & _) _ IH]; intros se; [by rewrite app_nil_r|].
  cbn [foldl]. unfold parse_line at 2. rewrite bool_decide_eq_false_2 by done.
  rewrite has_prefix_app, IH, bind_cons. unfold appendNets. by rewrite <-app_assoc.
Qed.

Lemma fields_trim_spaced toks : Forall word_tok toks -> toks <> [] -> fields (trim_space (spaced toks)) = toks.
Proof.
  intros Hw Hne. rewrite <-(fields_spaced toks) at 2 by done. destruct toks as [|t toks]; [done|].
  unfold spaced. rewrite bind_cons. cbn [app]. rewrite trim_space_skip, fields_skip. f_equal.
  apply Forall_cons in Hw as [[Ht Hg] Hw]. apply trim_space_id.
  - by destruct t.
  - destruct t as [|b t]; [done|]. cbn [app head]. intros ? [= <-]. by apply Forall_cons in Hg as [? _].
  - intros b Hb. destruct (last toks) as [t'|] eqn:El.
    + destruct (exists_last (l := toks)) as [toks' [t'' ->]]; [by destruct toks|]. rewrite last_snoc in El. injection El as ->.
      apply Forall_app in Hw as [_ Hw]. apply Forall_cons in Hw as [[Ht' Hg'] _].
      rewrite bind_app, app_assoc in Hb. cbn in Hb. rewrite app_nil_r in Hb.
      destruct (exists_last Ht') as [t0 [x ->]]. rewrite app_comm_cons, app_assoc, last_snoc in Hb. injection Hb as ->.
      apply Forall_app in Hg' as [_ Hg']. by apply Forall_cons in Hg' as [? _].
    + destruct toks; [|by apply last_None in El]. cbn in Hb. rewrite app_nil_r in Hb.
      destruct (exists_last Ht) as [t0 [x ->]]. rewrite last_snoc in Hb. injection Hb as ->.
      apply Forall_app in Hg as [_ Hg]. by apply Forall_cons in Hg as [? _].
Qed.

Lemma parse_path o d fm tp mi re cs tz pa se ks bo ls :
  Forall (nets_line (1 :: str "PATH:")) ls ->
  foldl parse_line (MkParsed o d fm tp mi re cs tz pa se ks bo) ls
  = MkParsed o d fm tp mi re cs tz (pa ++ (ls ≫= fun l => nets_of (fields (drop 6 l)) 0)) se ks bo.
Proof.
  intros Hl. revert pa. induction Hl as [|l ls (toks & -> & Hne & Hw) _ IH]; intros pa; [by rewrite app_nil_r|].
  cbn [foldl]. unfold parse_line at 2. cbn [app head tail]. rewrite bool_decide_eq_true_2 by done.
  change (ch "P" :: ch "A" :: ch "T" :: ch "H" :: ch ":" :: spaced toks) with (str "PATH" ++ ch ":" :: spaced toks).
  rewrite splitKludge_colon by (by apply (bool_decide_unpack _)).
  change (to_upper (str "PATH")) with (str "PATH").
  unfold parse_kludge. cbn beta match. rewrite !(bool_decide_eq_false_2 (str "PATH" = _)) by done.
  rewrite bool_decide_eq_true_2 by done. cbn [orb]. rewrite IH, bind_cons. unfold appendNets.
  rewrite fields_trim_spaced by done. cbn [app drop]. rewrite drop_0, fields_spaced by done. by rewrite <-app_assoc.
Qed.

Lemma trim_body_spec ls :
  (ls = [[]] \/ exists l, last ls = Some l /\ trim_space l <> []) ->
  trim_body (ls ++ [[]]) = if bool_decide (ls = [[]]) then [] else ls.
Proof.
  unfold trim_body. rewrite reverse_snoc. cbn [drop_blank].
  change (bool_decide (trim_space [] = [])) with true. cbv iota.
  intros [->|(l & Hl & Hne)]; [done|].
  destruct (exists_last (l := ls)) as [ls' [l' ->]]; [by destruct ls|]. rewrite last_snoc in Hl. injection Hl as ->.
  rewrite reverse_snoc. cbn [drop_blank]. rewrite bool_decide_eq_false_2 by done.
  rewrite bool_decide_eq_false_2.
  - by rewrite reverse_cons, reverse_involutive.
  - destruct ls' as [|? [|? ?]]; cbn; intros [= ->]; done.
Qed.
End parsing.

(** ** Packing and parsing *)

Section roundtrip.
Context `{UnicodeTables}.

Definition text_ok (cs : Charset) (s : bytes) : Prop := bytes_ok s /\ Fits s cs = true /\ trim_space s = s.

Definition body_lines (m : Message) : list bytes := split_byte (Encode (Body m) (MCharset m)) 10.

(** A message that can travel: its texts fit its character set, its control
    values are trimmed lines, no line of its body looks like a control line,
    and the body does not end in a blank line. *)
Record message_wf (m : Message) : Prop := {
  wf_from : text_ok (MCharset m) (MFrom m);
  wf_to : text_ok (MCharset m) (MTo m);
  wf_subject : text_ok (MCharset m) (MSubject m);
  wf_date : exists t, Date m = Some t /\ valid_civil t /\ nsec t = 0 /\ 1969 <= year t <= 2068;
  wf_msgid : value_ok (MsgID m);
  wf_reply : value_ok (Reply m);
  wf_tz : value_ok (TZUTC m);
  wf_kludges : Forall kludge_ok (Kludges m);
  wf_body : bytes_ok (Body m) /\ Fits (Body m) (MCharset m) = true;
  wf_body_cr : 13 ∉ Body m;
  wf_lines : Forall body_line (body_lines m);
  wf_end : Body m = [] \/ exists l, last (body_lines m) = Some l /\ trim_space l <> [];
  wf_orig : addr_ok (Orig m) /\ Domain (Orig m) = [];
  wf_dest : addr_ok (Dest m) /\ Domain (Dest m) = []
}.

Definition control_lines (m : Message) : list bytes :=
  kludge_line (str "MSGID") (MsgID m) ++ kludge_line (str "REPLY") (Reply m)
  ++ kludge_line (str "CHRS") (CHRS (MCharset m)) ++ kludge_line (str "TZUTC") (TZUTC m)
  ++ (Kludges m ≫= fun k => kludge_line (KName k) (KValue k)).

Definition net_lines (m : Message) : list bytes :=
  if bool_decide (Area m = []) then []
  else FormatNets (str "SEEN-BY:") (SortNets (SeenBy m)) ++ FormatNets (1 :: str "PATH:") (Path m).

Definition head_lines (m : Message) : list bytes :=
  if bool_decide (Area m = []) then
    [1 :: str "INTL " ++ znf (Dest m) ++ str " " ++ znf (Orig m)]
    ++ (if Point (Orig m) =? 0 then [] else [1 :: str "FMPT " ++ itoa (Point (Orig m))])
    ++ (if Point (Dest m) =? 0 then [] else [1 :: str "TOPT " ++ itoa (Point (Dest m))])
  else [str "AREA:" ++ Area m].

Definition text_lines (m : Message) : list bytes :=
  head_lines m ++ control_lines m ++ body_lines m ++ net_lines m.

Lemma body_swap m :
  message_wf m ->
  Encode (replace_all (replace_all (replace_all (Body m) [13; 10] [10]) [13] [10]) [10] [13]) (MCharset m) ++ [13]
  = (body_lines m ≫= line_end).
Proof.
  intros Hm. pose proof (wf_body_cr m Hm). destruct (wf_body m Hm) as [Hb Hf].
  rewrite !(replace_absent (Body m) 13) by done. rewrite replace_byte_map, Encode_swap by done. apply swap_lines.
Qed.

Lemma Pack_text m : message_wf m -> Text (Pack m) = (text_lines m ≫= line_end).
Proof.
  intros Hm. unfold Pack, text_lines. cbn [Text]. rewrite !bind_app, <-body_swap by done.
  rewrite <-!app_assoc. f_equal.
  - unfold head_lines. case_bool_decide; [|cbn [mbind list_bind app]; by rewrite app_nil_r].
    rewrite !bind_app. cbn [mbind list_bind]. rewrite app_nil_r. f_equal.
    destruct (Point (Orig m) =? 0), (Point (Dest m) =? 0); cbn [mbind list_bind app]; by rewrite ?app_nil_r.
  - unfold control_lines. rewrite !bind_app, <-!kludge_lines, <-!app_assoc. repeat f_equal.
    + induction (Kludges m) as [|k ks IH]; [done|]. rewrite !bind_cons, bind_app, <-kludge_lines. by f_equal.
    + unfold net_lines. case_bool_decide; [done|]. by rewrite bind_app.
Qed.

Lemma value_line name v : one_line name -> value_ok v -> Forall one_line (kludge_line name v).
Proof.
  intros Hn [_ Hv]. unfold kludge_line. case_bool_decide; [constructor|]. constructor; [|constructor].
  apply one_line_cons; [lia..|]. apply one_line_app; [done|]. cbn [app]. by do 2 (apply one_line_cons; [lia..|]).
Qed.

Lemma name_line s : forallb (fun b => graphic b) s = true -> one_line s.
Proof. intros Hs. apply one_line_graphic, Forall_forall. intros b Hb%list_elem_of_In. by apply (proj1 (forallb_forall _ _) Hs). Qed.

Lemma CHRS_value cs : value_ok (CHRS cs) /\ CHRS cs <> [].
Proof. destruct cs; (split; [split; [reflexivity|split; by apply (bool_decide_unpack _)]|done]). Qed.

Lemma control_one_line m : message_wf m -> Forall one_line (control_lines m).
Proof.
  intros Hm. destruct Hm. unfold control_lines. repeat (apply Forall_app; split).
  1-4: apply value_line; [by apply name_line|]; try done; apply CHRS_value.
  clear -wf_kludges0. induction wf_kludges0 as [|k ks Hk _ IH]; [constructor|]. rewrite bind_cons.
  apply Forall_app. split; [|done]. destruct Hk as (_ & _ & _ & ? & _ & ? & _). by apply value_line.
Qed.

Lemma nets_lines_one prefix ls : one_line prefix -> Forall (nets_line prefix) ls -> Forall one_line ls.
Proof.
  intros Hp Hl. eapply Forall_impl; [exact Hl|]. intros l (toks & -> & _ & Hw).
  apply one_line_app; [done|by apply one_line_spaced].
Qed.

Lemma SortNets_ok ns : Forall net_ok ns -> Forall net_ok (SortNets ns).
Proof.
  rewrite !Forall_forall. intros Hn x Hx. apply Hn. unfold SortNets in Hx. apply (proj1 (compact_elem _ _)) in Hx.
  by rewrite (merge_sort_Permutation net_le ns) in Hx.
Qed.

Lemma text_one_line m :
  message_wf m -> one_line (Area m) -> Forall net_ok (SeenBy m) -> Forall net_ok (Path m) ->
  Forall one_line (text_lines m).
Proof.
  intros Hm Ha Hs Hp. pose proof (control_one_line m Hm). destruct (wf_body m Hm) as [Hb Hf].
  destruct (wf_orig m Hm) as [Ho _], (wf_dest m Hm) as [Hd _].
  unfold text_lines. apply Forall_app; split; [|apply Forall_app; split; [done|apply Forall_app; split]].
  - pose proof (one_line_znf _ Ho). pose proof (one_line_znf _ Hd).
    unfold head_lines, addr_ok, addr_num_ok in *. destruct_and!.
    case_bool_decide; [|constructor; [apply one_line_app; [by apply name_line|done]|constructor]].
    repeat (apply Forall_app; split).
    + constructor; [|constructor]. cbn [app]. auto 20 with one_line.
    + destruct (_ =? 0); [constructor|]. constructor; [|constructor]. cbn [app]. auto 20 with one_line.
    + destruct (_ =? 0); [constructor|]. constructor; [|constructor]. cbn [app]. auto 20 with one_line.
  - unfold body_lines. pose proof (Encode_no_CR _ _ Hb (wf_body_cr m Hm) Hf) as Hcr.
    pose proof (split_byte_free (Encode (Body m) (MCharset m)) 10) as H10.
    assert (Forall (fun b => b <> 13) (Encode (Body m) (MCharset m))) as H13.
    { apply Forall_forall. by intros b Hb' ->. }
    apply (Term.split_byte_Forall _ _ 10) in H13. rewrite Forall_forall in H10, H13 |- *.
    intros l Hl. split; [|by apply H10]. intros Hin. specialize (H13 l Hl). rewrite Forall_forall in H13. by apply (H13 13).
  - unfold net_lines. case_bool_decide; [constructor|]. apply Forall_app. split.
    + eapply nets_lines_one; [by apply (name_line (str "SEEN-BY:"))|]. by apply FormatNets_spec, SortNets_ok.
    + eapply nets_lines_one; [|by apply FormatNets_spec]. apply one_line_cons; [lia..|by apply name_line].
Qed.

Lemma parse_control m o d fm tp dcs :
  message_wf m ->
  foldl parse_line (MkParsed o d fm tp [] [] dcs [] [] [] [] []) (control_lines m)
  = MkParsed o d fm tp (MsgID m) (Reply m) (MCharset m) (TZUTC m) [] [] (Kludges m) [].
Proof.
  intros Hm. destruct Hm. unfold control_lines. rewrite !foldl_app.
  assert (forall name, forallb graphic name = true -> contains_byte name 58 = false ->
    (32 ∉ name) /\ (ch ":" ∉ name)) as Hn.
  { intros name Hg Hc. split; [|by apply contains_byte_false]. intros Hin%list_elem_of_In.
    by apply (proj1 (forallb_forall _ _) Hg) in Hin. }
  assert (forall p name v, forallb graphic name = true -> contains_byte name 58 = false -> to_upper name = name ->
    value_ok v -> foldl parse_line p (kludge_line name v) = if bool_decide (v = []) then p else parse_kludge p name v) as Hk.
  { intros p name v Hg Hc Hu Hv. destruct (Hn name Hg Hc). case_bool_decide as Hv0.
    - unfold kludge_line. by rewrite bool_decide_eq_true_2.
    - by apply parse_kludge_line. }
  rewrite !Hk by (reflexivity || done || apply CHRS_value).
  rewrite (bool_decide_eq_false_2 (CHRS _ = [])) by apply CHRS_value.
  assert (ParseCHRS (CHRS (MCharset m)) = Some (MCharset m)) as Hcs by (by destruct (MCharset m)).
  assert (forall v re cs tz, (if bool_decide (v = []) then MkParsed o d fm tp [] re cs tz [] [] [] []
    else parse_kludge (MkParsed o d fm tp [] re cs tz [] [] [] []) (str "MSGID") v)
    = MkParsed o d fm tp v re cs tz [] [] [] []) as -> by (intros; case_bool_decide; by subst).
  assert (forall v mi cs tz, (if bool_decide (v = []) then MkParsed o d fm tp mi [] cs tz [] [] [] []
    else parse_kludge (MkParsed o d fm tp mi [] cs tz [] [] [] []) (str "REPLY") v)
    = MkParsed o d fm tp mi v cs tz [] [] [] []) as -> by (intros; case_bool_decide; by subst).
  assert (forall v mi re tz, parse_kludge (MkParsed o d fm tp mi re dcs tz [] [] [] []) (str "CHRS") v
    = MkParsed o d fm tp mi re (default dcs (ParseCHRS v)) tz [] [] [] []) as -> by done.
  rewrite Hcs. cbn [from_option id].
  assert (forall v mi re cs, (if bool_decide (v = []) then MkParsed o d fm tp mi re cs [] [] [] [] []
    else parse_kludge (MkParsed o d fm tp mi re cs [] [] [] [] []) (str "TZUTC") v)
    = MkParsed o d fm tp mi re cs v [] [] [] []) as -> by (intros; case_bool_decide; by subst).
  by rewrite parse_kludges.
Qed.

Lemma parse_nets m o d fm tp mi re cs tz ks bo :
  Forall net_ok (SeenBy m) -> Forall net_ok (Path m) -> Area m <> [] ->
  foldl parse_line (MkParsed o d fm tp mi re cs tz [] [] ks bo) (net_lines m)
  = MkParsed o d fm tp mi re cs tz (Path m) (SortNets (SeenBy m)) ks bo.
Proof.
  intros Hs Hp Ha. unfold net_lines. rewrite bool_decide_eq_false_2, foldl_app by done.
  destruct (FormatNets_spec (str "SEEN-BY:") _ (SortNets_ok _ Hs)) as [Es Ls].
  destruct (FormatNets_spec (1 :: str "PATH:") _ Hp) as [Ep Lp].
  rewrite parse_seen, parse_path by done. cbn [length] in Es, Ep. by rewrite Es, Ep.
Qed.

Lemma ParseAddr_znf a : addr_ok a -> ParseAddr (znf a) = Ok (MkAddr (Zone a) (Net a) (Node a) 0 []).
Proof.
  intros (Hz & Hn & Hf & _).
  assert (addr_ok (MkAddr (Zone a) (Net a) (Node a) 0 [])) as Ha by (unfold addr_ok, addr_num_ok in *; cbn; lia).
  etransitivity; [|exact (footer_address _ Ha)]. f_equal.
  unfold znf, Addr_String. cbn [Zone Net Node Point Z.eqb]. by rewrite app_nil_r.
Qed.

Lemma znf_word a : addr_ok a -> word_tok (znf a).
Proof.
  intros (Hz & Hn & Hf & _). unfold addr_num_ok in *. unfold znf. split.
  - destruct (itoa (Zone a)) eqn:E; [by apply itoa_ne in E; [|lia]|done].
  - repeat (apply Forall_app; split); try (apply itoa_graphic; lia); by repeat constructor.
Qed.

Lemma parse_netmail_head m zf nf df zt nt dt dcs :
  message_wf m -> Area m = [] ->
  foldl parse_line (MkParsed (MkAddr zf nf df 0 []) (MkAddr zt nt dt 0 []) 0 0 [] [] dcs [] [] [] [] []) (head_lines m)
  = MkParsed (MkAddr (Zone (Orig m)) (Net (Orig m)) (Node (Orig m)) 0 [])
      (MkAddr (Zone (Dest m)) (Net (Dest m)) (Node (Dest m)) 0 []) (Point (Orig m)) (Point (Dest m))
      [] [] dcs [] [] [] [] [].
Proof.
  intros Hm Ha. destruct (wf_orig m Hm) as [Ho _], (wf_dest m Hm) as [Hd _].
  unfold head_lines. rewrite bool_decide_eq_true_2, !foldl_app by done. cbn [foldl].
  assert (forall p name v, parse_line p (1 :: name ++ 32 :: v) = let '(n, w) := splitKludge (name ++ 32 :: v) in parse_kludge p n w)
    as Hl by done.
  assert (foldl parse_line (MkParsed (MkAddr zf nf df 0 []) (MkAddr zt nt dt 0 []) 0 0 [] [] dcs [] [] [] [] [])
    [1 :: str "INTL " ++ znf (Dest m) ++ str " " ++ znf (Orig m)] =
    MkParsed (MkAddr (Zone (Orig m)) (Net (Orig m)) (Node (Orig m)) 0 [])
      (MkAddr (Zone (Dest m)) (Net (Dest m)) (Node (Dest m)) 0 []) 0 0 [] [] dcs [] [] [] [] []) as E.
  { cbn [foldl]. change (str "INTL " ++ ?v) with (str "INTL" ++ 32 :: v). rewrite Hl, splitKludge_space by (by apply (bool_decide_unpack _)).
    change (to_upper (str "INTL")) with (str "INTL"). unfold parse_kludge. cbn beta match.
    rewrite bool_decide_eq_true_2 by done. unfold applyINTL.
    assert (fields (trim_space (znf (Dest m) ++ str " " ++ znf (Orig m))) = [znf (Dest m); znf (Orig m)]) as ->.
    { pose proof (znf_word _ Hd). pose proof (znf_word _ Ho).
      assert (znf (Dest m) ++ str " " ++ znf (Orig m) = drop 1 (spaced [znf (Dest m); znf (Orig m)])) as ->.
      { cbn. by rewrite app_nil_r. }
      rewrite <-trim_space_skip. change (32 :: drop 1 (spaced [znf (Dest m); znf (Orig m)])) with (spaced [znf (Dest m); znf (Orig m)]).
      apply fields_trim_spaced; [|done]. constructor; [done|]. constructor; [done|constructor]. }
    by rewrite !ParseAddr_znf. }
  cbn [foldl] in E. rewrite E. clear E.
  unfold addr_ok, addr_num_ok in *. destruct_and!.
  assert (forall n, 0 <= n <= 65535 -> atoi (trim_space (itoa n)) = (n, true)) as Hn.
  { intros n Hn. rewrite trim_space_graphic by (apply itoa_graphic; lia). apply atoi_itoa. unfold min_int, max_int. lia. }
  assert (forall p name n, foldl parse_line p (if n =? 0 then [] else [1 :: name ++ 32 :: itoa n])
    = if n =? 0 then p else let '(k, w) := splitKludge (name ++ 32 :: itoa n) in parse_kludge p k w) as Hf.
  { intros p name n. by destruct (n =? 0). }
  change (str "FMPT " ++ ?v) with (str "FMPT" ++ 32 :: v). change (str "TOPT " ++ ?v) with (str "TOPT" ++ 32 :: v).
  rewrite !Hf, !splitKludge_space by (by apply (bool_decide_unpack _)).
  change (to_upper (str "FMPT")) with (str "FMPT"). change (to_upper (str "TOPT")) with (str "TOPT").
  assert (forall o d fm tp mi re cs tz v, parse_kludge (MkParsed o d fm tp mi re cs tz [] [] [] []) (str "FMPT") v
    = MkParsed o d (fst (atoi v)) tp mi re cs tz [] [] [] []) as Hfm by done.
  assert (forall o d fm tp mi re cs tz v, parse_kludge (MkParsed o d fm tp mi re cs tz [] [] [] []) (str "TOPT") v
    = MkParsed o d fm (fst (atoi v)) mi re cs tz [] [] [] []) as Htp by done.
  rewrite Hfm, !Hn by lia.
  destruct (Z.eqb_spec (Point (Orig m)) 0) as [->|], (Z.eqb_spec (Point (Dest m)) 0) as [->|];
    rewrite ?Htp, ?Hn by lia; done.
Qed.

Lemma packed_lines m :
  message_wf m -> one_line (Area m) -> Forall net_ok (SeenBy m) -> Forall net_ok (Path m) ->
  split_byte (remove_byte (Text (Pack m)) 10) 13
  = head_lines m ++ (control_lines m ++ body_lines m ++ net_lines m ++ [[]]).
Proof.
  intros. rewrite Pack_text, split_lines by (try apply text_one_line; done).
  unfold text_lines. by rewrite <-!app_assoc.
Qed.

Lemma body_decoded m : message_wf m ->
  Decode (join (trim_body (body_lines m ++ [[]])) [ch "010"]) (MCharset m) = Body m.
Proof.
  intros Hm. destruct (wf_body m Hm) as [Hb Hf]. rewrite trim_body_spec.
  2:{ destruct (wf_end m Hm) as [E|]; [left|by right]. unfold body_lines. rewrite E. by destruct (MCharset m). }
  case_bool_decide as E.
  - destruct (wf_end m Hm) as [->|(l & Hl & Hne)]; [by destruct (MCharset m)|].
    rewrite E in Hl. injection Hl as <-. done.
  - unfold body_lines. rewrite join_split. by apply Fits_decodes.
Qed.

Lemma text_decoded cs s : text_ok cs s -> trim_space (Decode (Encode s cs) cs) = s.
Proof. intros (Hb & Hf & Ht). by rewrite Fits_decodes. Qed.

Lemma date_parsed m : message_wf m -> ParseDate (FormatDate (default zero_civil (Date m))) = Date m.
Proof. intros Hm. destruct (wf_date m Hm) as (t & -> & Hc & Hn & Hy). by apply date_parses. Qed.

Lemma parse_after_head m o d fm tp dcs :
  message_wf m -> Forall net_ok (SeenBy m) -> Forall net_ok (Path m) ->
  foldl parse_line (MkParsed o d fm tp [] [] dcs [] [] [] [] []) (control_lines m ++ body_lines m ++ net_lines m ++ [[]])
  = MkParsed o d fm tp (MsgID m) (Reply m) (MCharset m) (TZUTC m)
      (if bool_decide (Area m = []) then [] else Path m)
      (if bool_decide (Area m = []) then [] else SortNets (SeenBy m))
      (Kludges m) (body_lines m ++ [[]]).
Proof.
  intros Hm Hs Hp. rewrite !foldl_app, parse_control by done. rewrite parse_body by apply Hm.
  case_bool_decide as Ha.
  - unfold net_lines. rewrite bool_decide_eq_true_2 by done. done.
  - by rewrite parse_nets.
Qed.

(** Netmail. *)
Lemma parse_packed_netmail m pktFrom pktTo dcs :
  message_wf m -> Area m = [] -> SeenBy m = [] -> Path m = [] -> ParseMessage (Pack m) pktFrom pktTo dcs = m.
Proof.
  intros Hm Ha Hs Hp. unfold ParseMessage.
  rewrite packed_lines by (rewrite ?Ha, ?Hs, ?Hp; first [done|apply one_line_nil|constructor]).
  assert ((match head_lines m ++ control_lines m ++ body_lines m ++ net_lines m ++ [[]] with
           | l :: ls => if has_prefix l (str "AREA:") then (to_upper (trim_space (drop 5 l)), ls)
                        else ([], head_lines m ++ control_lines m ++ body_lines m ++ net_lines m ++ [[]])
           | [] => ([], []) end) = ([], head_lines m ++ control_lines m ++ body_lines m ++ net_lines m ++ [[]])) as ->.
  { unfold head_lines at 1. rewrite bool_decide_eq_true_2 by done. done. }
  cbv zeta. rewrite foldl_app, parse_netmail_head, parse_after_head by (rewrite ?Hs, ?Hp; (done || constructor)).
  cbn [p_cs p_body p_orig p_dest p_fmpt p_topt p_msgid p_reply p_tz p_path p_seen p_kludges].
  rewrite body_decoded, (bool_decide_eq_true_2 (Area m = [])), (bool_decide_eq_true_2 ([] = [])) by done.
  unfold Pack. cbn [FromName ToName Subject DateTime Attr].
  rewrite !text_decoded, date_parsed by apply Hm.
  destruct (wf_orig m Hm) as [_ Ho], (wf_dest m Hm) as [_ Hd]. destruct m as [? ? ? ? ? [] []]. cbn in *. by subst.
Qed.

(** Echomail: the address comes from the origin line, and SEEN-BY is sorted. *)
Lemma parse_packed_echo m pktFrom pktTo dcs :
  message_wf m -> Area m <> [] -> to_upper (trim_space (Area m)) = Area m -> one_line (Area m) ->
  Forall net_ok (SeenBy m) -> Forall net_ok (Path m) -> OriginAddr (Body m) = Some (Orig m) ->
  ParseMessage (Pack m) pktFrom pktTo dcs =
    MkMessage (Area m) (MFrom m) (MTo m) (MSubject m) (Date m) (Orig m)
      (MkAddr (Zone pktTo) (Net (Dest m)) (Node (Dest m)) 0 []) (MAttr m) (MsgID m) (Reply m)
      (MCharset m) (TZUTC m) (Body m) (SortNets (SeenBy m)) (Path m) (Kludges m).
Proof.
  intros Hm Ha Hup H1 Hs Hp Ho. unfold ParseMessage. rewrite packed_lines by done.
  assert (head_lines m = [str "AREA:" ++ Area m]) as -> by (unfold head_lines; by rewrite bool_decide_eq_false_2).
  set (rest := control_lines m ++ body_lines m ++ net_lines m ++ [[]]).
  assert ((match [str "AREA:" ++ Area m] ++ rest with
           | l :: ls => if has_prefix l (str "AREA:") then (to_upper (trim_space (drop 5 l)), ls)
                        else ([], [str "AREA:" ++ Area m] ++ rest)
           | [] => ([], []) end) = (to_upper (trim_space (Area m)), rest)) as -> by done.
  rewrite Hup. cbv zeta. subst rest. rewrite parse_after_head by done.
  cbn [p_cs p_body p_orig p_dest p_fmpt p_topt p_msgid p_reply p_tz p_path p_seen p_kludges].
  rewrite body_decoded, Ho, !(bool_decide_eq_false_2 (Area m = [])) by done.
  unfold Pack. cbn [FromName ToName Subject DateTime Attr OrigNet OrigNode DestNet DestNode].
  by rewrite !text_decoded, date_parsed by apply Hm.
Qed.
End roundtrip.

(** ** The footer *)

Lemma Addr_String_short a : addr_ok a -> len (Addr_String a) <= 23.
Proof.
  unfold addr_ok, addr_num_ok. intros (? & ? & ? & ?). unfold Addr_String.
  pose proof (itoa_short (Zone a)). pose proof (itoa_short (Net a)). pose proof (itoa_short (Node a)).
  pose proof (itoa_short (Point a)). rewrite !len_app. change (len (str ":")) with 1. change (len (str "/")) with 1.
  destruct (Point a =? 0); [rewrite len_nil; lia|]. rewrite len_app. change (len (str ".")) with 1. lia.
Qed.

Lemma utf8_no_newline o : Forall (fun r => valid_rune r = true /\ r <> 10) o -> 10 ∉ utf8 o.
Proof.
  intros Ho. assert (Forall (fun b => b <> 10) (utf8 o)) as H.
  { apply Term.utf8_bytes; [lia|]. eapply Forall_impl; [exact Ho|]. cbn. intuition. }
  rewrite Forall_forall in H. intros Hin. by apply (H 10).
Qed.

Lemma origin_line_width o a :
  addr_ok a -> Forall (fun r => valid_rune r = true) o ->
  rune_count (str " * Origin: " ++ utf8 o ++ str " (" ++ Addr_String a ++ str ")")
  = len (str " * Origin: ") + len o + len (str " (" ++ Addr_String a ++ str ")").
Proof.
  intros Ha Hv. unfold rune_count. rewrite runes_ascii_app by (repeat constructor; lia).
  rewrite runes_utf8_app by done. rewrite runes_ascii, !len_app; [lia|].
  pose proof (Addr_String_graphic a Ha) as Hg.
  apply Forall_app. split; [repeat constructor; lia|]. apply Forall_app. split; [|repeat constructor; lia].
  eapply Forall_impl; [exact Hg|]. unfold graphic, between. intros b Hb. bool_prop. lia.
Qed.

(** * Theorems *)

(** C13: netmail packed for a packet and parsed on the other side is the same
    message: names, subject, date, the full addresses with their points, the
    control lines and the text, whatever packet it travels in and whatever
    character set the reader assumes. *)
Theorem netmail_roundtrip `{UnicodeTables} (m : Message) (pktFrom pktTo : Addr) (dcs : Charset)
    (Hm : message_wf m) (Ha : Area m = []) (Hs : SeenBy m = []) (Hp : Path m = []) :
  ParseMessage (Pack m) pktFrom pktTo dcs = m.
Proof. by apply parse_packed_netmail. Qed.

(** echomail packed and parsed is the same message, with SEEN-BY sorted: its
    area, texts, control lines and PATH survive, and the writer's address is the
    one on the origin line. *)
Theorem echomail_roundtrip `{UnicodeTables} (m : Message) (pktFrom pktTo : Addr) (dcs : Charset)
    (Hm : message_wf m) (Ha : Area m <> []) (Hup : to_upper (trim_space (Area m)) = Area m) (Hl : one_line (Area m))
    (Hs : Forall net_ok (SeenBy m)) (Hp : Forall net_ok (Path m)) (Ho : OriginAddr (Body m) = Some (Orig m)) :
  ParseMessage (Pack m) pktFrom pktTo dcs =
    MkMessage (Area m) (MFrom m) (MTo m) (MSubject m) (Date m) (Orig m)
      (MkAddr (Zone pktTo) (Net (Dest m)) (Node (Dest m)) 0 []) (MAttr m) (MsgID m) (Reply m)
      (MCharset m) (TZUTC m) (Body m) (SortNets (SeenBy m)) (Path m) (Kludges m).
Proof. by apply parse_packed_echo. Qed.

(** SEEN-BY and PATH lines are read back as the list they were written from,
    every line begins with its prefix and fits 79 columns, and [SortNets] sorts
    and drops duplicates without losing or inventing an entry. *)
Theorem FormatNets_roundtrip (prefix : bytes) (nets to : list Net2D)
    (Hn : Forall net_ok nets) (Hp : len prefix <= 60) :
  foldl (fun acc l => appendNets acc (drop (length prefix) l)) to (FormatNets prefix nets) = to ++ nets
  /\ Forall (fun l => has_prefix l prefix = true /\ len l <= 79) (FormatNets prefix nets)
  /\ StronglySorted net_le (SortNets nets) /\ NoDup (SortNets nets) /\ (forall n, n ∈ SortNets nets <-> n ∈ nets).
Proof.
  destruct (FormatNets_spec prefix nets Hn) as [E Hl]. split; [|split].
  - rewrite <-E at 2. clear E Hl. revert to. induction (FormatNets prefix nets) as [|l ls IH]; intros to; [by rewrite app_nil_r|].
    cbn [foldl]. rewrite IH, bind_cons. unfold appendNets. by rewrite app_assoc.
  - pose proof (format_go_width prefix nets prefix (-1) Hn Hp ltac:(lia)) as Hw. fold (FormatNets prefix nets) in Hw.
    apply Forall_and. split; [|done]. eapply Forall_impl; [exact Hl|]. intros l (toks & -> & _). apply has_prefix_app.
  - assert (StronglySorted net_le (merge_sort net_le nets)) as Hs by (apply (StronglySorted_merge_sort net_le)).
    destruct (compact_sorted _ Hs) as [H1 H2]. split; [exact H1|]. split; [exact H2|]. intros n.
    unfold SortNets. rewrite compact_elem. by rewrite (merge_sort_Permutation net_le nets).
Qed.

(** the footer of an echomail message keeps its origin line within 79
    columns without touching the address, and the address is found in it again,
    whatever the text before and whatever system name the line carries. *)
Theorem EchoFooter_origin `{UnicodeTables} (body tear : bytes) (origin : list Z) (a : Addr)
    (Ha : addr_ok a) (Hv : Forall (fun r => valid_rune r = true /\ r <> 10) origin) :
  OriginAddr (body ++ EchoFooter tear (utf8 origin) a) = Some (MkAddr (Zone a) (Net a) (Node a) (Point a) [])
  /\ exists o, EchoFooter tear (utf8 origin) a
                = str "--- " ++ tear ++ (ch "010") :: (str " * Origin: " ++ utf8 o ++ str " (" ++ Addr_String a ++ str ")")
            /\ o `prefix_of` origin
            /\ rune_count (str " * Origin: " ++ utf8 o ++ str " (" ++ Addr_String a ++ str ")") <= 79.
Proof.
  assert (Forall (fun r => valid_rune r = true) origin) as Hv' by (eapply Forall_impl; [exact Hv|]; cbn; tauto).
  set (addr := str " (" ++ Addr_String a ++ str ")").
  set (room := 79 - len (str " * Origin: ") - len addr).
  assert (0 <= room) as Hroom.
  { pose proof (Addr_String_short a Ha). subst room addr. rewrite !len_app.
    change (len (str " * Origin: ")) with 11. change (len (str " (")) with 2. change (len (str ")")) with 1. lia. }
  assert (exists o, (if room <? rune_count (utf8 origin) then utf8 (take (Z.to_nat (Z.max room 0)) (runes (utf8 origin)))
            else utf8 origin) = utf8 o /\ o `prefix_of` origin /\ len o <= room) as (o & Eo & Hpre & Hlen).
  { unfold rune_count. rewrite runes_utf8 by done. destruct (Z.ltb_spec room (len origin)).
    - exists (take (Z.to_nat (Z.max room 0)) origin). split; [done|]. split; [|unfold len; rewrite length_take; lia].
      eexists. symmetry. apply take_drop.
    - by exists origin. }
  assert (Forall (fun r => valid_rune r = true /\ r <> 10) o) as Ho.
  { destruct Hpre as [t ->]. by apply Forall_app in Hv as [? _]. }
  assert (Forall (fun r => valid_rune r = true) o) as Ho' by (eapply Forall_impl; [exact Ho|]; cbn; tauto).
  assert (EchoFooter tear (utf8 origin) a = str "--- " ++ tear ++ (ch "010") :: (str " * Origin: " ++ utf8 o ++ addr)) as E.
  { unfold EchoFooter. fold addr. fold room. by rewrite Eo. }
  split.
  - rewrite E. assert (body ++ str "--- " ++ tear ++ (ch "010") :: (str " * Origin: " ++ utf8 o ++ addr)
      = (body ++ str "--- " ++ tear ++ [ch "010"]) ++ origin_mark ++ (32 :: utf8 o) ++ addr) as -> by (by rewrite <-!app_assoc).
    apply OriginAddr_footer; [done|by apply utf8_no_newline].
  - exists o. split; [exact E|]. split; [done|]. unfold addr. rewrite origin_line_width by done. fold addr. subst room. lia.
Qed.

(** Witnesses. *)

Definition example_netmail : Message :=
  MkMessage [] (str "Максим") (str "Sysop") (str "Привет") (Some (Civil 2026 7 14 9 5 58 0))
    (MkAddr 2 410 9 3 []) (MkAddr 2 5030 1651 0 []) 1 (str "2:410/9.3 1a2b3c4d") [] CP866 (str "0200")
    (str "Как дела?" ++ (ch "010") :: str "--- Boar") [] [] [MkKludge (str "PID") (str "Boar 1.0")].

Lemma example_netmail_wf : @message_wf ascii_tables example_netmail.
Proof.
  constructor; cbn [MFrom MTo MSubject MCharset Date MsgID Reply TZUTC Kludges Body Orig Dest example_netmail].
  1-3: split; [repeat constructor; lia|split; vm_compute; reflexivity].
  - eexists. split; [reflexivity|]. split; [|split; [reflexivity|cbn [year]; lia]].
    unfold valid_civil. cbn [year month day hour minute second]. change (days_in 7 2026) with 31. lia.
  - split; [reflexivity|split; by apply (bool_decide_unpack _)].
  - split; [reflexivity|split; by apply (bool_decide_unpack _)].
  - split; [reflexivity|split; by apply (bool_decide_unpack _)].
  - constructor; [|constructor]. unfold kludge_ok. cbn [KName KValue].
    split; [by apply (bool_decide_unpack _)|]. split; [by apply (bool_decide_unpack _)|]. split; [reflexivity|].
    split; [split; by apply (bool_decide_unpack _)|]. split; [by apply (bool_decide_unpack _)|].
    split; [|done]. split; [reflexivity|split; by apply (bool_decide_unpack _)].
  - split; [repeat constructor; lia|vm_compute; reflexivity].
  - by apply (bool_decide_unpack _).
  - unfold body_lines. vm_compute (split_byte _ _). constructor; [done|]. constructor; [done|constructor].
  - right. exists (str "--- Boar"). split; [reflexivity|]. vm_compute. congruence.
  - split; [unfold addr_ok, addr_num_ok; cbn; lia|reflexivity].
  - split; [unfold addr_ok, addr_num_ok; cbn; lia|reflexivity].
Qed.

Lemma netmail_roundtrip_witness :
  @ParseMessage ascii_tables (@Pack example_netmail) (MkAddr 2 410 9 0 []) (MkAddr 2 410 51 0 []) CP437 = example_netmail.
Proof. exact (@netmail_roundtrip ascii_tables example_netmail _ _ CP437 example_netmail_wf eq_refl eq_refl eq_refl). Defined.

Definition example_echo : Message :=
  MkMessage (str "RU.BOAR") (str "Max") (str "All") (str "News") (Some (Civil 2026 7 14 9 5 58 0))
    (MkAddr 2 410 9 0 []) (MkAddr 2 410 51 0 []) 0 (str "2:410/9 1a2b3c4d") [] CP866 []
    (str "Hello" ++ (ch "010") :: EchoFooter (str "Boar") (str "Boar BBS") (MkAddr 2 410 9 0 []))
    [(5030, 1651); (410, 9); (5030, 1651)] [(410, 9)] [].

Lemma example_echo_wf : @message_wf ascii_tables example_echo.
Proof.
  constructor; cbn [MFrom MTo MSubject MCharset Date MsgID Reply TZUTC Kludges Orig Dest example_echo].
  1-3: split; [repeat constructor; lia|split; vm_compute; reflexivity].
  - eexists. split; [reflexivity|]. split; [|split; [reflexivity|cbn [year]; lia]].
    unfold valid_civil. cbn [year month day hour minute second]. change (days_in 7 2026) with 31. lia.
  - split; [reflexivity|split; by apply (bool_decide_unpack _)].
  - split; [reflexivity|split; by apply (bool_decide_unpack _)].
  - split; [reflexivity|split; by apply (bool_decide_unpack _)].
  - constructor.
  - split; [|vm_compute; reflexivity].
    apply Forall_forall. intros b Hb. unfold byte_ok.
    assert (forallb (between 0 255) (Body example_echo) = true) as H by (vm_compute; reflexivity).
    apply list_elem_of_In in Hb. apply (proj1 (forallb_forall _ _) H) in Hb. unfold between in Hb. bool_prop. lia.
  - apply contains_byte_false. vm_compute. reflexivity.
  - assert (body_lines example_echo = [str "Hello"; str "--- Boar"; str " * Origin: Boar BBS (2:410/9)"]) as ->
      by (vm_compute; reflexivity).
    do 3 (constructor; [done|]). constructor.
  - right. exists (str " * Origin: Boar BBS (2:410/9)"). split; [vm_compute; reflexivity|]. vm_compute. congruence.
  - split; [unfold addr_ok, addr_num_ok; cbn; lia|reflexivity].
  - split; [unfold addr_ok, addr_num_ok; cbn; lia|reflexivity].
Qed.

Lemma echomail_roundtrip_witness :
  SeenBy (@ParseMessage ascii_tables (@Pack example_echo) (MkAddr 2 410 51 0 []) (MkAddr 2 410 9 0 []) CP437)
  = [(410, 9); (5030, 1651)].
Proof.
  assert (Forall net_ok (SeenBy example_echo)) as Hs by (repeat (constructor; [unfold net_ok; cbn; lia|]); constructor).
  assert (Forall net_ok (Path example_echo)) as Hp by (repeat (constructor; [unfold net_ok; cbn; lia|]); constructor).
  assert (Area example_echo <> []) as Ha by done.
  assert (one_line (Area example_echo)) as Hl by (split; by apply (bool_decide_unpack _)).
  assert (@OriginAddr ascii_tables (Body example_echo) = Some (Orig example_echo)) as Ho by (vm_compute; reflexivity).
  rewrite (@echomail_roundtrip ascii_tables example_echo (MkAddr 2 410 51 0 []) (MkAddr 2 410 9 0 []) CP437
            example_echo_wf Ha eq_refl Hl Hs Hp Ho).
  vm_compute. reflexivity.
Defined.

Lemma FormatNets_roundtrip_witness :
  foldl (fun acc l => appendNets acc (drop 8 l)) [] (FormatNets (str "SEEN-BY:") [(410, 9); (410, 51); (5030, 1)])
  = [(410, 9); (410, 51); (5030, 1)]
  /\ FormatNets (str "SEEN-BY:") [(410, 9); (410, 51); (5030, 1)] = [str "SEEN-BY: 410/9 51 5030/1"].
Proof.
  split; [|vm_compute; reflexivity].
  assert (Forall net_ok [(410, 9); (410, 51); (5030, 1)]) as Hn by (repeat (constructor; [unfold net_ok; cbn; lia|]); constructor).
  assert (len (str "SEEN-BY:") <= 60) as Hp by (vm_compute; congruence).
  exact (proj1 (FormatNets_roundtrip (str "SEEN-BY:") _ [] Hn Hp)).
Defined.

Lemma runes_free rs :
  forallb (fun r => valid_rune r && negb (r =? 10)) rs = true -> Forall (fun r => valid_rune r = true /\ r <> 10) rs.
Proof.
  intros H. apply Forall_forall. intros r Hr%list_elem_of_In. apply (proj1 (forallb_forall _ _) H) in Hr.
  by bool_prop.
Qed.

Lemma EchoFooter_origin_witness :
  @OriginAddr ascii_tables (str "Hi" ++ EchoFooter (str "Boar") (utf8 (runes (str "Fake * Origin: (1:1/1)"))) (MkAddr 2 410 9 7 []))
  = Some (MkAddr 2 410 9 7 []).
Proof.
  assert (addr_ok (MkAddr 2 410 9 7 [])) as Ha by (unfold addr_ok, addr_num_ok; cbn; lia).
  assert (Forall (fun r => valid_rune r = true /\ r <> 10) (runes (str "Fake * Origin: (1:1/1)"))) as Hv.
  { apply runes_free. vm_compute. reflexivity. }
  exact (proj1 (@EchoFooter_origin ascii_tables (str "Hi") (str "Boar") _ _ Ha Hv)).
Defined.
