(* ===== verification/StoreDB.v ===== *)
(** * The database: [internal/store/db.go], [schema.go]

    SQLite's tables as lists of rows in order of row id, the transaction that
    rolls back on error, and the statements the store runs on every table.  A new
    row gets the largest id plus one, as an [INTEGER PRIMARY KEY] without
    AUTOINCREMENT does.  The constraints of the schema (UNIQUE, REFERENCES and
    its ON DELETE actions) are part of the operations that can meet them.  Times
    are nanoseconds since the epoch, 0 for the zero time; the clock is an
    argument.  Failures of the disk or of SQLite itself are not modelled. *)

From Stdlib Require Import Ascii String ZArith Lia Sorted.
From stdpp Require Import base tactics list gmap strings sorting.
From S2P Require Import Prelude GoStrings.
Open Scope Z_scope.

(** ** Errors *)

Inductive store_error :=
  | ErrHandleTaken | ErrBadCredentials | ErrNotFound | ErrMailboxFull | ErrBlocked
  | ErrForbidden | ErrNotValidated
  | InputError (msg : bytes)
  | ErrCorruptCredential
  | ErrConstraint.   (* SQLite refused the statement: UNIQUE or REFERENCES *)

Global Instance store_error_eq_dec : EqDecision store_error.
Proof. solve_decision. Defined.

Record Config := MkConfig { kdfIter : Z; approveNew : bool }.

(** The cryptographic functions the store calls. *)
Class Crypto := {
  pbkdf2_sha256 : bytes -> bytes -> Z -> bytes;   (* password, salt, iterations *)
  sha256 : bytes -> bytes;
  sha1 : bytes -> bytes
}.

(** [net/mail.ParseAddress]: the address and the name. *)
Class MailParser := { parse_address : bytes -> option (bytes * bytes) }.

(** ** Rows *)

Record credential := MkCred { c_hash : bytes; c_salt : bytes; c_iter : Z }.

Record UserRow := MkUser {
  u_id : Z; u_handle : bytes; u_key : bytes; u_location : bytes; u_cred : credential;
  u_sysop : bool; u_locked : bool; u_created : Z; u_last : Z; u_calls : Z;
  u_email : bytes; u_mode : Z; u_validated : bool
}.

Record MessageRow := MkMsg {
  m_id : Z; m_from : Z; m_to : Z; m_thread : Z; m_reply : Z;
  m_subject : bytes; m_body : bytes; m_sent : Z; m_read : Z;
  m_del_from : bool; m_del_to : bool
}.

Record BoardRow := MkBoard {
  b_id : Z; b_name : bytes; b_key : bytes; b_desc : bytes; b_sysop_only : bool; b_created : Z
}.

Record PostRow := MkPost {
  p_id : Z; p_board : Z; p_author : Z; p_thread : Z; p_reply : Z;
  p_subject : bytes; p_body : bytes; p_at : Z
}.

(** [board_reads], [echo_reads] and [file_reads]. *)
Record ReadRow := MkRead { r_user : Z; r_area : Z; r_last : Z }.

Record BulletinRow := MkBulletin { bu_id : Z; bu_author : Z; bu_title : bytes; bu_body : bytes; bu_at : Z }.

Record OnelinerRow := MkOneliner { o_id : Z; o_author : Z; o_text : bytes; o_at : Z }.

Record EventRow := MkEvent {
  e_id : Z; e_at : Z; e_kind : bytes; e_user : Z; e_handle : bytes; e_ip : bytes; e_detail : bytes
}.

Record VerificationRow := MkVerification {
  v_user : Z; v_email : bytes; v_hash : bytes; v_expires : Z; v_attempts : Z
}.

Record HitRow := MkHit { h_bucket : bytes; h_key : bytes; h_at : Z }.

Record KeyRow := MkKey {
  k_id : Z; k_user : Z; k_fingerprint : bytes; k_public : bytes; k_comment : bytes; k_added : Z
}.

(** [echo_areas] and [file_areas]. *)
Record AreaRow := MkArea { a_id : Z; a_tag : bytes; a_desc : bytes; a_created : Z }.

Record EchoRow := MkEcho {
  em_id : Z; em_area : Z; em_msgid : bytes; em_from : bytes; em_addr : bytes; em_to : bytes;
  em_subject : bytes; em_body : bytes; em_at : Z
}.

Record TossedRow := MkTossed { t_sum : bytes; t_name : bytes; t_at : Z }.

Record NetmailRow := MkNetmail {
  n_id : Z; n_outgoing : bool; n_msgid : bytes; n_reply : bytes; n_from : bytes; n_from_addr : bytes;
  n_to : bytes; n_to_addr : bytes; n_subject : bytes; n_body : bytes;
  n_posted : Z; n_received : Z; n_read : Z; n_author : option Z
}.

Record FileRow := MkFile {
  f_id : Z; f_area : Z; f_name : bytes; f_path : bytes; f_size : Z; f_crc : bytes;
  f_desc : bytes; f_ldesc : bytes; f_origin : bytes; f_from : bytes; f_received : Z; f_downloads : Z
}.

Record DB := MkDB {
  users : list UserRow;
  blocks : list (Z * Z);
  messages : list MessageRow;
  boards : list BoardRow;
  posts : list PostRow;
  board_reads : list ReadRow;
  bulletins : list BulletinRow;
  oneliners : list OnelinerRow;
  events : list EventRow;
  verifications : list VerificationRow;
  hits : list HitRow;
  ssh_keys : list KeyRow;
  echo_areas : list AreaRow;
  echo_messages : list EchoRow;
  echo_reads : list ReadRow;
  tossed : list TossedRow;
  netmail : list NetmailRow;
  file_areas : list AreaRow;
  files : list FileRow;
  file_reads : list ReadRow
}.

Definition on_users (f : list UserRow -> list UserRow) (db : DB) : DB :=
    MkDB (f (users db)) (blocks db) (messages db) (boards db) (posts db) (board_reads db) (bulletins db)
    (oneliners db) (events db) (verifications db) (hits db) (ssh_keys db) (echo_areas db) (echo_messages
    db) (echo_reads db) (tossed db) (netmail db) (file_areas db) (files db) (file_reads db).
Definition on_blocks (f : list (Z * Z) -> list (Z * Z)) (db : DB) : DB :=
    MkDB (users db) (f (blocks db)) (messages db) (boards db) (posts db) (board_reads db) (bulletins db)
    (oneliners db) (events db) (verifications db) (hits db) (ssh_keys db) (echo_areas db) (echo_messages
    db) (echo_reads db) (tossed db) (netmail db) (file_areas db) (files db) (file_reads db).
Definition on_messages (f : list MessageRow -> list MessageRow) (db : DB) : DB :=
    MkDB (users db) (blocks db) (f (messages db)) (boards db) (posts db) (board_reads db) (bulletins db)
    (oneliners db) (events db) (verifications db) (hits db) (ssh_keys db) (echo_areas db) (echo_messages
    db) (echo_reads db) (tossed db) (netmail db) (file_areas db) (files db) (file_reads db).
Definition on_boards (f : list BoardRow -> list BoardRow) (db : DB) : DB :=
    MkDB (users db) (blocks db) (messages db) (f (boards db)) (posts db) (board_reads db) (bulletins db)
    (oneliners db) (events db) (verifications db) (hits db) (ssh_keys db) (echo_areas db) (echo_messages
    db) (echo_reads db) (tossed db) (netmail db) (file_areas db) (files db) (file_reads db).
Definition on_posts (f : list PostRow -> list PostRow) (db : DB) : DB :=
    MkDB (users db) (blocks db) (messages db) (boards db) (f (posts db)) (board_reads db) (bulletins db)
    (oneliners db) (events db) (verifications db) (hits db) (ssh_keys db) (echo_areas db) (echo_messages
    db) (echo_reads db) (tossed db) (netmail db) (file_areas db) (files db) (file_reads db).
Definition on_board_reads (f : list ReadRow -> list ReadRow) (db : DB) : DB :=
    MkDB (users db) (blocks db) (messages db) (boards db) (posts db) (f (board_reads db)) (bulletins db)
    (oneliners db) (events db) (verifications db) (hits db) (ssh_keys db) (echo_areas db) (echo_messages
    db) (echo_reads db) (tossed db) (netmail db) (file_areas db) (files db) (file_reads db).
Definition on_bulletins (f : list BulletinRow -> list BulletinRow) (db : DB) : DB :=
    MkDB (users db) (blocks db) (messages db) (boards db) (posts db) (board_reads db) (f (bulletins db))
    (oneliners db) (events db) (verifications db) (hits db) (ssh_keys db) (echo_areas db) (echo_messages
    db) (echo_reads db) (tossed db) (netmail db) (file_areas db) (files db) (file_reads db).
Definition on_oneliners (f : list OnelinerRow -> list OnelinerRow) (db : DB) : DB :=
    MkDB (users db) (blocks db) (messages db) (boards db) (posts db) (board_reads db) (bulletins db) (f
    (oneliners db)) (events db) (verifications db) (hits db) (ssh_keys db) (echo_areas db)
    (echo_messages db) (echo_reads db) (tossed db) (netmail db) (file_areas db) (files db) (file_reads
    db).
Definition on_events (f : list EventRow -> list EventRow) (db : DB) : DB :=
    MkDB (users db) (blocks db) (messages db) (boards db) (posts db) (board_reads db) (bulletins db)
    (oneliners db) (f (events db)) (verifications db) (hits db) (ssh_keys db) (echo_areas db)
    (echo_messages db) (echo_reads db) (tossed db) (netmail db) (file_areas db) (files db) (file_reads
    db).
Definition on_verifications (f : list VerificationRow -> list VerificationRow) (db : DB) : DB :=
    MkDB (users db) (blocks db) (messages db) (boards db) (posts db) (board_reads db) (bulletins db)
    (oneliners db) (events db) (f (verifications db)) (hits db) (ssh_keys db) (echo_areas db)
    (echo_messages db) (echo_reads db) (tossed db) (netmail db) (file_areas db) (files db) (file_reads
    db).
Definition on_hits (f : list HitRow -> list HitRow) (db : DB) : DB :=
    MkDB (users db) (blocks db) (messages db) (boards db) (posts db) (board_reads db) (bulletins db)
    (oneliners db) (events db) (verifications db) (f (hits db)) (ssh_keys db) (echo_areas db)
    (echo_messages db) (echo_reads db) (tossed db) (netmail db) (file_areas db) (files db) (file_reads
    db).
Definition on_ssh_keys (f : list KeyRow -> list KeyRow) (db : DB) : DB :=
    MkDB (users db) (blocks db) (messages db) (boards db) (posts db) (board_reads db) (bulletins db)
    (oneliners db) (events db) (verifications db) (hits db) (f (ssh_keys db)) (echo_areas db)
    (echo_messages db) (echo_reads db) (tossed db) (netmail db) (file_areas db) (files db) (file_reads
    db).
Definition on_echo_areas (f : list AreaRow -> list AreaRow) (db : DB) : DB :=
    MkDB (users db) (blocks db) (messages db) (boards db) (posts db) (board_reads db) (bulletins db)
    (oneliners db) (events db) (verifications db) (hits db) (ssh_keys db) (f (echo_areas db))
    (echo_messages db) (echo_reads db) (tossed db) (netmail db) (file_areas db) (files db) (file_reads
    db).
Definition on_echo_messages (f : list EchoRow -> list EchoRow) (db : DB) : DB :=
    MkDB (users db) (blocks db) (messages db) (boards db) (posts db) (board_reads db) (bulletins db)
    (oneliners db) (events db) (verifications db) (hits db) (ssh_keys db) (echo_areas db) (f
    (echo_messages db)) (echo_reads db) (tossed db) (netmail db) (file_areas db) (files db) (file_reads
    db).
Definition on_echo_reads (f : list ReadRow -> list ReadRow) (db : DB) : DB :=
    MkDB (users db) (blocks db) (messages db) (boards db) (posts db) (board_reads db) (bulletins db)
    (oneliners db) (events db) (verifications db) (hits db) (ssh_keys db) (echo_areas db) (echo_messages
    db) (f (echo_reads db)) (tossed db) (netmail db) (file_areas db) (files db) (file_reads db).
Definition on_tossed (f : list TossedRow -> list TossedRow) (db : DB) : DB :=
    MkDB (users db) (blocks db) (messages db) (boards db) (posts db) (board_reads db) (bulletins db)
    (oneliners db) (events db) (verifications db) (hits db) (ssh_keys db) (echo_areas db) (echo_messages
    db) (echo_reads db) (f (tossed db)) (netmail db) (file_areas db) (files db) (file_reads db).
Definition on_netmail (f : list NetmailRow -> list NetmailRow) (db : DB) : DB :=
    MkDB (users db) (blocks db) (messages db) (boards db) (posts db) (board_reads db) (bulletins db)
    (oneliners db) (events db) (verifications db) (hits db) (ssh_keys db) (echo_areas db) (echo_messages
    db) (echo_reads db) (tossed db) (f (netmail db)) (file_areas db) (files db) (file_reads db).
Definition on_file_areas (f : list AreaRow -> list AreaRow) (db : DB) : DB :=
    MkDB (users db) (blocks db) (messages db) (boards db) (posts db) (board_reads db) (bulletins db)
    (oneliners db) (events db) (verifications db) (hits db) (ssh_keys db) (echo_areas db) (echo_messages
    db) (echo_reads db) (tossed db) (netmail db) (f (file_areas db)) (files db) (file_reads db).
Definition on_files (f : list FileRow -> list FileRow) (db : DB) : DB :=
    MkDB (users db) (blocks db) (messages db) (boards db) (posts db) (board_reads db) (bulletins db)
    (oneliners db) (events db) (verifications db) (hits db) (ssh_keys db) (echo_areas db) (echo_messages
    db) (echo_reads db) (tossed db) (netmail db) (file_areas db) (f (files db)) (file_reads db).
Definition on_file_reads (f : list ReadRow -> list ReadRow) (db : DB) : DB :=
    MkDB (users db) (blocks db) (messages db) (boards db) (posts db) (board_reads db) (bulletins db)
    (oneliners db) (events db) (verifications db) (hits db) (ssh_keys db) (echo_areas db) (echo_messages
    db) (echo_reads db) (tossed db) (netmail db) (file_areas db) (files db) (f (file_reads db)).

(** ** Statements *)

Section table.
Context {R : Type} (id : R -> Z).
Implicit Types rows : list R.

(** The id of the next row. *)
Definition next_id rows : Z := foldr (fun r m => Z.max (id r) m) 0 rows + 1.

Definition row_by (p : R -> bool) rows : option R := find p rows.
Definition row rows (i : Z) : option R := find (fun r => id r =? i) rows.
Definition update_where (p : R -> bool) (f : R -> R) rows : list R := (fun r => if p r then f r else r) <$> rows.
Definition delete_where (p : R -> bool) rows : list R := filter (fun r => p r = false) rows.
Definition select_where (p : R -> bool) rows : list R := filter (fun r => p r = true) rows.
Definition count_where (p : R -> bool) rows : Z := len (select_where p rows).
End table.

(** The last [n] rows: [ORDER BY id DESC LIMIT n] read oldest first.  A negative
    limit is no limit. *)
Definition newest {R} (n : Z) (rows : list R) : list R :=
  if n <? 0 then rows else drop (length rows - Z.to_nat n) rows.

(** The order of TEXT columns: bytes, most significant first. *)
Fixpoint bytes_leb (a b : bytes) : bool :=
  match a, b with
  | [], _ => true
  | _ :: _, [] => false
  | x :: a', y :: b' => (x <? y) || ((x =? y) && bytes_leb a' b')
  end.
Definition key_le {R} (key : R -> bytes) (x y : R) : Prop := bytes_leb (key x) (key y) = true.
Global Instance key_le_dec {R} (key : R -> bytes) x y : Decision (key_le key x y).
Proof. unfold key_le. apply _. Defined.
(** [ORDER BY key] *)
Definition order_by {R} (key : R -> bytes) (rows : list R) : list R := merge_sort (key_le key) rows.

(** SQLite's [lower] and [COLLATE NOCASE]: ASCII only. *)
Definition sql_lower (s : bytes) : bytes := lower_byte <$> s.

(** [INSERT ... ON CONFLICT (user, area) DO UPDATE SET last = max(last, ...)] *)
Definition same_read (u a : Z) (r : ReadRow) : bool := (r_user r =? u) && (r_area r =? a).
Definition upsert_read (u a i : Z) (rows : list ReadRow) : list ReadRow :=
  if existsb (same_read u a) rows
  then update_where (same_read u a) (fun r => MkRead (r_user r) (r_area r) (Z.max (r_last r) i)) rows
  else rows ++ [MkRead u a i].
Definition last_read_of (u a : Z) (rows : list ReadRow) : Z :=
  match find (same_read u a) rows with Some r => r_last r | None => 0 end.

(** [tx]: the new database on success; on error nothing is changed, which is
    what [Err] says. *)
Definition op (A : Type) : Type := DB -> result store_error (A * DB).

(** [notFound] *)
Definition or_not_found {A} (o : option A) : result store_error A :=
  match o with Some a => Ok a | None => Err ErrNotFound end.

(** The schema as [Open] leaves it in a new file. *)
Definition fresh_db : DB :=
  MkDB [] [] []
    [ MkBoard 1 (str "Announcements") (str "announcements") (str "News from the sysop") true 0;
      MkBoard 2 (str "General") (str "general") (str "Anything goes") false 0 ]
    [] [] [] [] [] [] [] [] [] [] [] [] [] [] [] [].

(** * Lemmas *)

(** A table: ids positive and increasing. *)
Definition table_ok {R} (id : R -> Z) (rows : list R) : Prop :=
  StronglySorted Z.lt (id <$> rows) /\ Forall (fun r => 0 < id r) rows.

(** A column without duplicates. *)
Definition unique {R K} (key : R -> K) (rows : list R) : Prop := NoDup (key <$> rows).

Section table_lemmas.
Context {R : Type} (id : R -> Z).
Implicit Types rows : list R.

Lemma next_id_bound rows : Forall (fun r => id r < next_id id rows) rows /\ 0 < next_id id rows.
Proof.
  unfold next_id. induction rows as [|r rows [IH1 IH2]]; cbn; [split; [constructor|lia]|]. split; [|lia].
  constructor; [lia|]. eapply Forall_impl; [exact IH1|]. cbn. lia.
Qed.

Lemma table_ok_nil : table_ok id [].
Proof. split; constructor. Qed.

Lemma sorted_app_last (l : list Z) x : StronglySorted Z.lt l -> Forall (fun y => y < x) l -> StronglySorted Z.lt (l ++ [x]).
Proof.
  induction 1 as [|y l Hl IH Hy]; intros Hx; [repeat constructor|]. apply Forall_cons in Hx as [? Hx].
  cbn. constructor; [by apply IH|]. apply Forall_app. split; [done|by repeat constructor].
Qed.

Lemma table_ok_insert rows r : table_ok id rows -> id r = next_id id rows -> table_ok id (rows ++ [r]).
Proof.
  intros [Hs Hp] Hr. destruct (next_id_bound rows) as [Hb Hn]. split.
  - rewrite fmap_app. cbn. apply sorted_app_last; [done|]. rewrite Hr. by apply Forall_fmap.
  - apply Forall_app. split; [done|]. constructor; [lia|constructor].
Qed.

Lemma sorted_filter (P : R -> Prop) `{forall x, Decision (P x)} rows :
  StronglySorted Z.lt (id <$> rows) -> StronglySorted Z.lt (id <$> filter P rows).
Proof.
  induction rows as [|r rows IH]; [done|]. cbn [fmap list_fmap]. inversion 1 as [|? ? Hs Hr]; subst.
  rewrite filter_cons. case_decide; [|by apply IH]. cbn [fmap list_fmap]. constructor; [by apply IH|].
  rewrite Forall_fmap in Hr |- *. apply Forall_forall. intros x [_ Hx]%list_elem_of_filter.
  rewrite Forall_forall in Hr. by apply Hr.
Qed.

Lemma Forall_filter_keep (P Q : R -> Prop) `{forall x, Decision (P x)} rows : Forall Q rows -> Forall Q (filter P rows).
Proof. rewrite !Forall_forall. intros HQ x [_ Hx]%list_elem_of_filter. auto. Qed.

Lemma table_ok_delete p rows : table_ok id rows -> table_ok id (delete_where p rows).
Proof. intros [Hs Hp]. split; [by apply sorted_filter|by apply Forall_filter_keep]. Qed.

Lemma fmap_update {K} (key : R -> K) p f rows :
  (forall r, key (f r) = key r) -> key <$> update_where p f rows = key <$> rows.
Proof.
  intros Hf. unfold update_where. rewrite <-list_fmap_compose. apply list_fmap_ext. intros _ r _. cbn.
  destruct (p r); [by rewrite Hf|done].
Qed.

Lemma Forall_update (Q : R -> Prop) p f rows :
  Forall Q rows -> (forall r, Q r -> p r = true -> Q (f r)) -> Forall Q (update_where p f rows).
Proof.
  intros HQ Hf. unfold update_where. apply Forall_fmap. eapply Forall_impl; [exact HQ|]. intros r Hr. cbn.
  destruct (p r) eqn:E; auto.
Qed.

Lemma table_ok_update p f rows : (forall r, id (f r) = id r) -> table_ok id rows -> table_ok id (update_where p f rows).
Proof.
  intros Hf [Hs Hp]. split; [by rewrite fmap_update|]. apply Forall_update; [done|]. intros r Hr _. by rewrite Hf.
Qed.

Lemma table_ids rows : table_ok id rows -> unique id rows.
Proof.
  intros [Hs _]. unfold unique. induction Hs as [|x l Hl IH Hx]; constructor; [|done].
  intros Hin. rewrite Forall_forall in Hx. specialize (Hx x Hin). lia.
Qed.

Lemma row_by_Some p rows r : row_by p rows = Some r -> r ∈ rows /\ p r = true.
Proof. intros [Hin Hp]%find_some. by rewrite list_elem_of_In. Qed.

Lemma row_Some rows i r : row id rows i = Some r -> r ∈ rows /\ id r = i.
Proof. intros [? ?%Z.eqb_eq]%row_by_Some. done. Qed.

Lemma find_app (p : R -> bool) l1 l2 : find p (l1 ++ l2) = match find p l1 with Some r => Some r | None => find p l2 end.
Proof. induction l1 as [|r l1 IH]; [done|]. cbn. by destruct (p r). Qed.

Lemma row_app rows r i : row id (rows ++ [r]) i = match row id rows i with Some r' => Some r' | None => if id r =? i then Some r else None end.
Proof. unfold row. by rewrite find_app. Qed.

Lemma row_absent rows i : Forall (fun r => id r <> i) rows -> row id rows i = None.
Proof. induction 1 as [|r rows Hr _ IH]; [done|]. unfold row. cbn. by destruct (Z.eqb_spec (id r) i). Qed.

Lemma row_insert rows r : id r = next_id id rows -> row id (rows ++ [r]) (id r) = Some r.
Proof.
  intros Hr. rewrite row_app, row_absent.
  - by rewrite Z.eqb_refl.
  - destruct (next_id_bound rows) as [Hb _]. eapply Forall_impl; [exact Hb|]. cbn. lia.
Qed.

Lemma row_elem rows r : table_ok id rows -> r ∈ rows -> row id rows (id r) = Some r.
Proof.
  intros Hok Hin. apply table_ids in Hok. unfold unique in Hok. induction rows as [|x rows IH]; [by apply elem_of_nil in Hin|].
  rewrite fmap_cons in Hok. apply NoDup_cons in Hok as [Hx Hok]. apply elem_of_cons in Hin as [->|Hin].
  - unfold row. cbn. by rewrite Z.eqb_refl.
  - unfold row. cbn. destruct (Z.eqb_spec (id x) (id r)) as [E|_]; [|by apply IH].
    exfalso. apply Hx. rewrite E. by apply list_elem_of_fmap_2.
Qed.

Lemma unique_insert {K} (key : R -> K) rows r : unique key rows -> Forall (fun r' => key r' <> key r) rows -> unique key (rows ++ [r]).
Proof.
  intros Hu Hr. unfold unique. rewrite fmap_app. apply NoDup_app. split; [done|]. split.
  - intros k (r' & -> & Hr')%list_elem_of_fmap Hk%list_elem_of_singleton. rewrite Forall_forall in Hr. by apply (Hr r').
  - apply NoDup_singleton.
Qed.

Lemma unique_delete {K} (key : R -> K) p rows : unique key rows -> unique key (delete_where p rows).
Proof.
  unfold unique, delete_where. induction rows as [|r rows IH]; [done|]. rewrite fmap_cons, filter_cons.
  intros [Hr Hu]%NoDup_cons. case_decide; [|by apply IH]. rewrite fmap_cons. constructor; [|by apply IH].
  intros (r' & E & Hr')%list_elem_of_fmap. apply list_elem_of_filter in Hr' as [_ Hr']. apply Hr. rewrite E.
  by apply list_elem_of_fmap_2.
Qed.

Lemma unique_elem {K} (key : R -> K) rows x y : unique key rows -> x ∈ rows -> y ∈ rows -> key x = key y -> x = y.
Proof.
  unfold unique. induction rows as [|r rows IH]; [by intros _ ?%elem_of_nil|]. rewrite fmap_cons.
  intros [Hr Hu]%NoDup_cons [->|Hx]%elem_of_cons [->|Hy]%elem_of_cons E; [done| | |by apply IH].
  - exfalso. apply Hr. rewrite E. by apply list_elem_of_fmap_2.
  - exfalso. apply Hr. rewrite <-E. by apply list_elem_of_fmap_2.
Qed.

Lemma unique_update {K} (key : R -> K) p f rows :
  (forall r, key (f r) = key r) -> unique key rows -> unique key (update_where p f rows).
Proof. intros Hf. unfold unique. by rewrite fmap_update. Qed.

Lemma existsb_false (p : R -> bool) rows : existsb p rows = false <-> Forall (fun r => p r = false) rows.
Proof.
  rewrite Forall_forall. split.
  - intros H r Hr. apply not_true_iff_false. intros Hp. apply not_true_iff_false in H. apply H, existsb_exists.
    exists r. by rewrite <-list_elem_of_In.
  - intros H. apply not_true_iff_false. intros (r & Hr & Hp)%existsb_exists. apply list_elem_of_In in Hr.
    by rewrite H in Hp.
Qed.

Lemma existsb_true (p : R -> bool) rows : existsb p rows = true <-> exists r, r ∈ rows /\ p r = true.
Proof. rewrite existsb_exists. by setoid_rewrite list_elem_of_In. Qed.

Lemma elem_of_delete p rows r : r ∈ delete_where p rows <-> p r = false /\ r ∈ rows.
Proof. apply (list_elem_of_filter (fun r => p r = false)). Qed.

Lemma elem_of_select p rows r : r ∈ select_where p rows <-> p r = true /\ r ∈ rows.
Proof. apply (list_elem_of_filter (fun r => p r = true)). Qed.

Lemma select_app (p : R -> bool) l1 l2 : select_where p (l1 ++ l2) = select_where p l1 ++ select_where p l2.
Proof. apply filter_app. Qed.

Lemma count_app (p : R -> bool) l1 l2 : count_where p (l1 ++ l2) = count_where p l1 + count_where p l2.
Proof. unfold count_where. by rewrite select_app, len_app. Qed.

Lemma count_one p (r : R) : count_where p [r] = if p r then 1 else 0.
Proof. unfold count_where, select_where. rewrite filter_cons. destruct (p r); by case_decide. Qed.

Lemma count_cons p r rows : count_where p (r :: rows) = (if p r then 1 else 0) + count_where p rows.
Proof. change (r :: rows) with ([r] ++ rows). by rewrite count_app, count_one. Qed.

Lemma count_nonneg p rows : 0 <= count_where p rows.
Proof. apply len_nonneg. Qed.

Lemma count_delete_le p q rows : count_where p (delete_where q rows) <= count_where p rows.
Proof.
  unfold delete_where. induction rows as [|r rows IH]; [done|]. rewrite filter_cons, (count_cons _ _ rows).
  case_decide; [rewrite count_cons|]; destruct (p r); lia.
Qed.

Lemma count_update_le p q f rows :
  (forall r, q r = true -> p (f r) = true -> p r = true) -> count_where p (update_where q f rows) <= count_where p rows.
Proof.
  intros Hf. induction rows as [|r rows IH]; [done|]. unfold update_where in *. rewrite fmap_cons, !count_cons.
  destruct (q r) eqn:Eq; [|destruct (p r); lia]. specialize (Hf r Eq).
  destruct (p (f r)); [rewrite Hf by done|destruct (p r)]; lia.
Qed.

Lemma delete_none p rows : Forall (fun r => p r = false) rows -> delete_where p rows = rows.
Proof. induction 1 as [|r rows Hr _ IH]; [done|]. unfold delete_where in *. by rewrite filter_cons_True, IH. Qed.

Lemma update_none p (f : R -> R) rows : Forall (fun r => p r = false) rows -> update_where p f rows = rows.
Proof. unfold update_where. induction 1 as [|r rows Hr _ IH]; [done|]. by rewrite fmap_cons, IH, Hr. Qed.

Lemma delete_all (p : R -> bool) rows : Forall (fun r => p r = true) rows -> delete_where p rows = [].
Proof.
  induction 1 as [|r rows Hr _ IH]; [done|]. unfold delete_where in *. rewrite filter_cons_False; [done|congruence].
Qed.

Lemma table_ok_suffix l1 l2 : table_ok id (l1 ++ l2) -> table_ok id l2.
Proof.
  intros [Hs Hp]. apply Forall_app in Hp as [_ Hp]. split; [|done]. rewrite fmap_app in Hs.
  induction (id <$> l1) as [|x l IH]; [done|]. inversion Hs; subst. by apply IH.
Qed.
End table_lemmas.
