(* ===== verification/StoreUsers.v ===== *)
(** * Accounts: [internal/store/users.go], [validate.go], [password.go],
    [blocks.go], [sshkeys.go], [email.go]

    Every operation on the users table and on the tables that hang off it, as a
    function of the database.  The salt and the verification code, which the
    code draws from [crypto/rand], are arguments, and so is the clock. *)

From Stdlib Require Import Ascii String ZArith Lia.
From stdpp Require Import base tactics list gmap strings sorting.
From S2P Require Import Prelude GoStrings Term StoreDB.
Open Scope Z_scope.

(** ** validate.go *)

Definition MinHandleLen : Z := 3.
Definition MaxHandleLen : Z := 20.
Definition MinPasswordLen : Z := 8.
Definition MaxPasswordLen : Z := 64.
Definition MaxLocationLen : Z := 30.
Definition MaxSubjectLen : Z := 60.
Definition MaxBodyBytes : Z := 16384.
Definition MaxInbox : Z := 500.
Definition MaxSearchResults : Z := 100.
Definition MinBoardNameLen : Z := 2.
Definition MaxBoardNameLen : Z := 30.
Definition MaxBoardDescLen : Z := 60.
Definition MaxOnelinerLen : Z := 70.
Definition MaxBoardPosts : Z := 500.

Definition reservedHandles : list bytes := [str "new"; str "all"; str "sysop"].

Definition isLetter (c : Z) : bool := between 97 122 c || between 65 90 c.

(** The loop of [ValidateHandle]; [prev] is [prevSpace]. *)
Fixpoint handle_chars (s : bytes) (prev : bool) : result store_error unit :=
  match s with
  | [] => Ok tt
  | c :: s' =>
      if isLetter c || is_digit c || (c =? ch "_") || (c =? ch "-") || (c =? ch ".") then handle_chars s' false
      else if c =? 32 then
        if prev || bool_decide (s' = []) then Err (InputError (str "Handles cannot have double or trailing spaces."))
        else handle_chars s' true
      else Err (InputError (str "Handles may only use letters, digits, spaces and _ - ."))
  end.

Section users.
Context `{UnicodeTables} `{Crypto} `{MailParser}.

Definition ValidateHandle (h : bytes) : result store_error unit :=
  _ ← guard_res (negb ((len h <? MinHandleLen) || (MaxHandleLen <? len h)))
        (InputError (str "Handles must be 3-20 characters."));
  _ ← guard_res (match h with c :: _ => isLetter c | [] => false end)
        (InputError (str "Handles must start with a letter."));
  _ ← handle_chars h false;
  guard_res (negb (bool_decide (to_lower h ∈ reservedHandles))) (InputError (str "That handle is reserved.")).

Definition ValidatePassword (p : bytes) : result store_error unit :=
  _ ← guard_res (negb (len p <? MinPasswordLen)) (InputError (str "Passwords must be at least 8 characters."));
  guard_res (negb (MaxPasswordLen <? len p)) (InputError (str "Passwords must be at most 64 characters.")).

Definition handleKey (h : bytes) : bytes := to_lower (trim_space h).

(** ** password.go *)

Definition deriveKey (password salt : bytes) (iter : Z) : bytes := pbkdf2_sha256 password salt iter.

Definition newCredential (salt password : bytes) (iter : Z) : credential :=
  MkCred (deriveKey password salt iter) salt iter.

Definition matches (c : credential) (password : bytes) : result store_error bool :=
  if (c_iter c <=? 0) || bool_decide (c_salt c = []) then Err ErrCorruptCredential
  else Ok (bool_decide (deriveKey password (c_salt c) (c_iter c) = c_hash c)).

(** ** users.go *)

Definition getUser (db : DB) (id : Z) : result store_error UserRow := or_not_found (row u_id (users db) id).

Definition UserCount (db : DB) : Z := len (users db).

Definition user_with_key (key : bytes) (u : UserRow) : bool := bool_decide (u_key u = key).

Definition CreateUser (cfg : Config) (now : Z) (salt handle password location : bytes) : op UserRow := fun db =>
  let handle := trim_space handle in
  _ ← ValidateHandle handle;
  _ ← ValidatePassword password;
  let cred := newCredential salt password (kdfIter cfg) in
  _ ← guard_res (negb (existsb (user_with_key (handleKey handle)) (users db))) ErrHandleTaken;
  let first := negb (bool_decide (users db = [])) in
  let u := MkUser (next_id u_id (users db)) handle (handleKey handle) (Clean location MaxLocationLen) cred
             (negb first) false now 0 0 [] 0 (negb first || negb (approveNew cfg)) in
  mret (u, on_users (fun us => us ++ [u]) db).

Definition Authenticate (handle password : bytes) (db : DB) : result store_error UserRow :=
  match row_by (user_with_key (handleKey handle)) (users db) with
  | None => Err ErrBadCredentials
  | Some u => ok ← matches (u_cred u) password;
              if ok : bool then mret u else Err ErrBadCredentials
  end.

(** [updateUser]: an UPDATE of one user's row, which must exist. *)
Definition updateUser (id : Z) (f : UserRow -> UserRow) : op unit := fun db =>
  match row u_id (users db) id with
  | None => Err ErrNotFound
  | Some _ => Ok (tt, on_users (update_where (fun u => u_id u =? id) f) db)
  end.

(** The updated user and the time of the login before. *)
Definition RecordLogin (now id : Z) : op (UserRow * Z) := fun db =>
  before ← getUser db id;
  let login u := MkUser (u_id u) (u_handle u) (u_key u) (u_location u) (u_cred u) (u_sysop u) (u_locked u)
                   (u_created u) now (u_calls u + 1) (u_email u) (u_mode u) (u_validated u) in
  let db' := on_users (update_where (fun u => u_id u =? id) login) db in
  u ← getUser db' id;
  mret ((u, u_last before), db').

Definition UserByID (id : Z) (db : DB) : result store_error UserRow := getUser db id.

Definition UserByHandle (handle : bytes) (db : DB) : result store_error UserRow :=
  or_not_found (row_by (user_with_key (handleKey handle)) (users db)).

(** [LIMIT n]: the first [n], all for a negative [n]. *)
Definition ListUsers (limit : Z) (db : DB) : list UserRow :=
  let us := order_by u_key (users db) in if limit <? 0 then us else take (Z.to_nat limit) us.
Definition Users (db : DB) : list UserRow := ListUsers (-1) db.

Definition with_cred (c : credential) (u : UserRow) : UserRow :=
  MkUser (u_id u) (u_handle u) (u_key u) (u_location u) c (u_sysop u) (u_locked u)
    (u_created u) (u_last u) (u_calls u) (u_email u) (u_mode u) (u_validated u).
Definition with_location (l : bytes) (u : UserRow) : UserRow :=
  MkUser (u_id u) (u_handle u) (u_key u) l (u_cred u) (u_sysop u) (u_locked u)
    (u_created u) (u_last u) (u_calls u) (u_email u) (u_mode u) (u_validated u).
Definition with_flags (sysop locked validated : bool) (u : UserRow) : UserRow :=
  MkUser (u_id u) (u_handle u) (u_key u) (u_location u) (u_cred u) sysop locked
    (u_created u) (u_last u) (u_calls u) (u_email u) (u_mode u) validated.
Definition with_email (email : bytes) (mode : Z) (u : UserRow) : UserRow :=
  MkUser (u_id u) (u_handle u) (u_key u) (u_location u) (u_cred u) (u_sysop u) (u_locked u)
    (u_created u) (u_last u) (u_calls u) email mode (u_validated u).

(** community.go *)
Definition requireSysop (db : DB) (userID : Z) : result store_error unit :=
  u ← getUser db userID; guard_res (u_sysop u) ErrForbidden.

Definition requireActor (actorID targetID : Z) (notSelf : bool) (db : DB) : result store_error unit :=
  if notSelf && (actorID =? targetID) then Err ErrForbidden else requireSysop db actorID.

Definition setPassword (cfg : Config) (salt : bytes) (id : Z) (password : bytes) : op unit := fun db =>
  _ ← ValidatePassword password;
  updateUser id (with_cred (newCredential salt password (kdfIter cfg))) db.

Definition ChangePassword (cfg : Config) (salt : bytes) (id : Z) (current next : bytes) : op unit := fun db =>
  u ← getUser db id;
  ok ← matches (u_cred u) current;
  if ok : bool then setPassword cfg salt id next db else Err ErrBadCredentials.

Definition ResetPassword (cfg : Config) (salt : bytes) (actorID id : Z) (password : bytes) : op unit := fun db =>
  _ ← requireActor actorID id false db;
  setPassword cfg salt id password db.

Definition SetLocation (id : Z) (location : bytes) : op UserRow := fun db =>
  '(_, db) ← updateUser id (with_location (Clean location MaxLocationLen)) db;
  u ← UserByID id db; mret (u, db).

Definition SetSysop (actorID id : Z) (sysop : bool) : op unit := fun db =>
  _ ← requireActor actorID id (negb sysop) db;
  updateUser id (fun u => with_flags sysop (u_locked u) (u_validated u || sysop) u) db.

Definition SetLocked (actorID id : Z) (locked : bool) : op unit := fun db =>
  _ ← requireActor actorID id true db;
  updateUser id (fun u => with_flags (u_sysop u) locked (u_validated u) u) db.

Definition BootstrapSysop (handle : bytes) : op UserRow := fun db =>
  u ← UserByHandle handle db;
  '(_, db) ← updateUser (u_id u) (fun u => with_flags true (u_locked u) true u) db;
  u ← UserByID (u_id u) db; mret (u, db).

Definition ValidateUser (actorID id : Z) : op unit := fun db =>
  _ ← requireActor actorID id false db;
  updateUser id (fun u => with_flags (u_sysop u) (u_locked u) true u) db.

Definition PendingUsers (db : DB) : list UserRow := select_where (fun u => negb (u_validated u)) (users db).
Definition SysopIDs (db : DB) : list Z := u_id <$> select_where u_sysop (users db).

(** [DELETE FROM users WHERE id = ?]: the row, and what the schema says of the
    rows that refer to it (CASCADE, and SET NULL for netmail). *)
Definition delete_user_row (id : Z) (db : DB) : DB :=
  on_users (delete_where (fun u => u_id u =? id))
  (on_blocks (delete_where (fun b => (fst b =? id) || (snd b =? id)))
  (on_board_reads (delete_where (fun r => r_user r =? id))
  (on_verifications (delete_where (fun v => v_user v =? id))
  (on_ssh_keys (delete_where (fun k => k_user k =? id))
  (on_echo_reads (delete_where (fun r => r_user r =? id))
  (on_file_reads (delete_where (fun r => r_user r =? id))
  (on_netmail (update_where (fun n => bool_decide (n_author n = Some id))
     (fun n => MkNetmail (n_id n) (n_outgoing n) (n_msgid n) (n_reply n) (n_from n) (n_from_addr n) (n_to n)
                 (n_to_addr n) (n_subject n) (n_body n) (n_posted n) (n_received n) (n_read n) None)) db))))))).

(** A letter with its deletion flags set. *)
Definition with_deleted (from to : bool) (m : MessageRow) : MessageRow :=
  MkMsg (m_id m) (m_from m) (m_to m) (m_thread m) (m_reply m) (m_subject m) (m_body m) (m_sent m) (m_read m) from to.

Definition DeleteUser (actorID id : Z) : op unit := fun db =>
  _ ← guard_res (negb (actorID =? id)) ErrForbidden;
  _ ← requireSysop db actorID;
  _ ← or_not_found (row u_id (users db) id);
  let db := delete_user_row id db in
  let db := on_messages (delete_where (fun m => m_to m =? id)) db in
  let db := on_messages (update_where (fun m => m_from m =? id) (fun m => with_deleted true (m_del_to m) m)) db in
  mret (tt, on_messages (delete_where (fun m => m_del_from m && m_del_to m)) db).

(** ** blocks.go *)

(** INSERT OR IGNORE still checks the references. *)
Definition Block (userID blockedID : Z) : op unit := fun db =>
  _ ← guard_res (negb (userID =? blockedID)) (InputError (str "You can't block yourself."));
  _ ← UserByID blockedID db;
  if existsb (fun b => bool_decide (b = (userID, blockedID))) (blocks db) then mret (tt, db)
  else match row u_id (users db) userID with
       | None => Err ErrConstraint
       | Some _ => mret (tt, on_blocks (fun bs => bs ++ [(userID, blockedID)]) db)
       end.

Definition Unblock (userID blockedID : Z) (db : DB) : DB :=
  on_blocks (delete_where (fun b => bool_decide (b = (userID, blockedID)))) db.

Definition IsBlocked (userID otherID : Z) (db : DB) : bool :=
  existsb (fun b => bool_decide (b = (userID, otherID))) (blocks db).

Definition BlockedUsers (userID : Z) (db : DB) : list UserRow :=
  order_by u_key (omap (fun b => if fst b =? userID then row u_id (users db) (snd b) else None) (blocks db)).

(** ** sshkeys.go *)

Definition MaxSSHKeys : Z := 5.
Definition maxSSHKeyCommentLen : Z := 40.

Definition AddSSHKey (now userID : Z) (fingerprint publicKey comment : bytes) : op KeyRow := fun db =>
  _ ← guard_res (count_where (fun k => k_user k =? userID) (ssh_keys db) <? MaxSSHKeys)
        (InputError (str "You already have 5 keys. Remove one first."));
  _ ← guard_res (negb (existsb (fun k => bool_decide (k_fingerprint k = fingerprint)) (ssh_keys db)))
        (InputError (str "That key is already in use."));
  match row u_id (users db) userID with
  | None => Err ErrConstraint
  | Some _ =>
      let k := MkKey (next_id k_id (ssh_keys db)) userID fingerprint publicKey (Clean comment maxSSHKeyCommentLen) now in
      mret (k, on_ssh_keys (fun ks => ks ++ [k]) db)
  end.

Definition SSHKeys (userID : Z) (db : DB) : list KeyRow := select_where (fun k => k_user k =? userID) (ssh_keys db).

Definition DeleteSSHKey (userID keyID : Z) : op unit := fun db =>
  let mine k := (k_id k =? keyID) && (k_user k =? userID) in
  if existsb mine (ssh_keys db) then Ok (tt, on_ssh_keys (delete_where mine) db) else Err ErrNotFound.

Definition UserBySSHKey (fingerprint : bytes) (db : DB) : result store_error UserRow :=
  k ← or_not_found (row_by (fun k => bool_decide (k_fingerprint k = trim_space fingerprint)) (ssh_keys db));
  getUser db (k_user k).

(** ** email.go *)

Definition EmailOff : Z := 0.
Definition EmailNotice : Z := 1.
Definition EmailCopy : Z := 2.

Definition EmailMode_String (m : Z) : bytes :=
  if m =? EmailNotice then str "notice only" else if m =? EmailCopy then str "full copy" else str "off".

Definition MaxEmailLen : Z := 254.
Definition EmailCodeTTL : Z := 900000000000.   (* 15 minutes *)
Definition maxEmailCodeTries : Z := 5.
Definition emailCodeDigits : nat := 6.
Definition emailCodeUpperBound : Z := 1000000.

Definition bad_email : store_error := InputError (str "That doesn't look like an email address.").

Definition ValidateEmail (addr : bytes) : result store_error unit :=
  let addr := trim_space addr in
  _ ← guard_res (negb (bool_decide (addr = []) || (MaxEmailLen <? len addr))) bad_email;
  _ ← guard_res (bool_decide (parse_address addr = Some (addr, []))) bad_email;
  let '(_, domain, _) := cut addr (ch "@") in
  guard_res (negb (negb (contains_byte domain (ch ".")) || contains_any addr [32; 9; 13; 10; 60; 62; 34])) bad_email.

(** [INSERT ... ON CONFLICT (user_id) DO UPDATE] *)
Definition upsert_verification (v : VerificationRow) (vs : list VerificationRow) : list VerificationRow :=
  if existsb (fun x => v_user x =? v_user v) vs then update_where (fun x => v_user x =? v_user v) (fun _ => v) vs
  else vs ++ [v].

(** [n] is the number drawn, below [emailCodeUpperBound]; the code is returned. *)
Definition StartEmailVerification (now n userID : Z) (addr : bytes) : op bytes := fun db =>
  let addr := trim_space addr in
  _ ← ValidateEmail addr;
  let code := pad_dec emailCodeDigits n in
  let v := MkVerification userID addr (sha256 code) (now + EmailCodeTTL) 0 in
  match row u_id (users db) userID with
  | None => Err ErrConstraint
  | Some _ => mret (code, on_verifications (upsert_verification v) db)
  end.

Definition pending_of (userID : Z) (db : DB) : option VerificationRow :=
  row_by (fun v => v_user v =? userID) (verifications db).

Definition PendingEmail (now userID : Z) (db : DB) : option bytes :=
  match pending_of userID db with
  | Some v => if v_expires v <? now then None else Some (v_email v)
  | None => None
  end.

Definition drop_pending (userID : Z) (db : DB) : DB := on_verifications (delete_where (fun v => v_user v =? userID)) db.

(** The transaction commits whatever the code was, so the database comes back
    beside the answer to the caller. *)
Definition ConfirmEmail (now userID : Z) (code : bytes) (db : DB) : result store_error UserRow * DB :=
  match pending_of userID db with
  | None => (Err (InputError (str "No address is waiting to be verified.")), db)
  | Some v =>
      if (v_expires v <? now) || (maxEmailCodeTries <=? v_attempts v) then
        (Err (InputError (str "That code has expired. Ask for a new one.")), drop_pending userID db)
      else if negb (bool_decide (sha256 (trim_space code) = v_hash v)) then
        (Err (InputError (str "Wrong code.")),
         on_verifications (update_where (fun v => v_user v =? userID)
           (fun v => MkVerification (v_user v) (v_email v) (v_hash v) (v_expires v) (v_attempts v + 1))) db)
      else if existsb (fun u => bool_decide (sql_lower (u_email u) = sql_lower (v_email v)) && negb (u_id u =? userID)) (users db) then
        (Err (InputError (str "That address already belongs to another account.")), drop_pending userID db)
      else
        let db' := drop_pending userID
                     (on_users (update_where (fun u => u_id u =? userID)
                        (fun u => with_email (v_email v) (Z.max (u_mode u) EmailNotice) u)) db) in
        match getUser db' userID with
        | Ok u => (Ok u, db')
        | Err e => (Err e, db)
        end
  end.

Definition SetEmailMode (userID mode : Z) : op UserRow := fun db =>
  _ ← guard_res (negb ((mode <? EmailOff) || (EmailCopy <? mode))) (InputError (str "Unknown email setting."));
  let mine u := (u_id u =? userID) && negb (bool_decide (u_email u = [])) in
  _ ← guard_res (existsb mine (users db)) (InputError (str "Add and verify an email address first."));
  let db := on_users (update_where mine (fun u => with_email (u_email u) mode u)) db in
  u ← UserByID userID db; mret (u, db).

(** The removal is committed before the row is read back. *)
Definition RemoveEmail (userID : Z) (db : DB) : result store_error UserRow * DB :=
  let db := on_users (update_where (fun u => u_id u =? userID) (with_email [] 0)) (drop_pending userID db) in
  (UserByID userID db, db).

End users.
