(* ===== verification/StoreMail.v ===== *)
(** * Private mail: [internal/store/messages.go]

    Letters between two users.  Each side has its own copy, deletes it on its
    own, and the row goes when both have. *)

From Stdlib Require Import Ascii String ZArith Lia Sorted.
From stdpp Require Import base tactics list gmap strings sorting.
From S2P Require Import Prelude GoStrings Term StoreDB StoreUsers.
Open Scope Z_scope.

Definition IsRead (m : MessageRow) : bool := negb (m_read m =? 0).

(** The SQL condition [visibleTo]. *)
Definition visibleTo (userID : Z) (m : MessageRow) : bool :=
  ((m_to m =? userID) && negb (m_del_to m)) || ((m_from m =? userID) && negb (m_del_from m)).

Definition in_inbox (userID : Z) (m : MessageRow) : bool := (m_to m =? userID) && negb (m_del_to m).
Definition in_outbox (userID : Z) (m : MessageRow) : bool := (m_from m =? userID) && negb (m_del_from m).

Definition cleanBody (body : bytes) : bytes :=
  let lines := split_byte (replace_all body [13; 10] [10]) 10 in
  trim (join ((fun ln => trim_right (StripControl ln) [32]) <$> lines) [10]) [10].

Definition cleanLetter (subject body : bytes) : result store_error (bytes * bytes) :=
  let subject := Clean subject MaxSubjectLen in
  _ ← guard_res (negb (bool_decide (subject = []))) (InputError (str "A subject is required."));
  let body := cleanBody body in
  _ ← guard_res (negb (bool_decide (body = []))) (InputError (str "The message is empty."));
  _ ← guard_res (negb (MaxBodyBytes <? len body)) (InputError (str "The message is too long (max 16 KB)."));
  mret (subject, body).

(** The thread and the parent of a reply. *)
Definition messageThread (db : DB) (senderID replyTo : Z) : Z * Z :=
  if replyTo =? 0 then (0, 0)
  else match row_by (fun m => (m_id m =? replyTo) && visibleTo senderID m) (messages db) with
       | Some m => (m_thread m, replyTo)
       | None => (0, 0)
       end.

Section mail.
Context `{UnicodeTables}.

Definition SendMessage (now fromID toID : Z) (subject body : bytes) (replyTo : Z) : op MessageRow := fun db =>
  '(subject, body) ← cleanLetter subject body;
  sender ← getUser db fromID;
  recipient ← getUser db toID;
  _ ← guard_res (u_validated sender || u_sysop recipient) ErrNotValidated;
  _ ← guard_res (u_sysop sender || negb (IsBlocked toID fromID db)) ErrBlocked;
  _ ← guard_res (count_where (in_inbox toID) (messages db) <? MaxInbox) ErrMailboxFull;
  let '(threadID, replyTo) := messageThread db fromID replyTo in
  let id := next_id m_id (messages db) in
  let m := MkMsg id fromID toID (if threadID =? 0 then id else threadID) replyTo subject body now 0 false false in
  mret (m, on_messages (fun ms => ms ++ [m]) db).

Definition Inbox (userID : Z) (db : DB) : list MessageRow := select_where (in_inbox userID) (messages db).
Definition Outbox (userID : Z) (db : DB) : list MessageRow := select_where (in_outbox userID) (messages db).

Definition Thread (msgID userID : Z) (db : DB) : result store_error (list MessageRow) :=
  m ← or_not_found (row_by (fun m => (m_id m =? msgID) && visibleTo userID m) (messages db));
  mret (select_where (fun x => (m_thread x =? m_thread m) && visibleTo userID x) (messages db)).

(** SQLite's [instr(s, q) > 0] for a non-empty [q]. *)
Definition instr (s q : bytes) : bool := 0 <=? index_sub s q.

Definition correspondent_matches (userID : Z) (query : bytes) (db : DB) (m : MessageRow) : bool :=
  existsb (fun u => ((u_id u =? m_from m) || (u_id u =? m_to m)) && negb (u_id u =? userID) && instr (u_key u) query)
    (users db).

Definition SearchMail (userID : Z) (query : bytes) (db : DB) : list MessageRow :=
  let query := to_lower (trim_space query) in
  if bool_decide (query = []) then []
  else newest MaxSearchResults
         (select_where (fun m => visibleTo userID m
            && (instr (sql_lower (m_subject m)) query || instr (sql_lower (m_body m)) query
                || correspondent_matches userID query db m)) (messages db)).

Definition UnreadCount (userID : Z) (db : DB) : Z :=
  count_where (fun m => in_inbox userID m && (m_read m =? 0)) (messages db).

Definition with_read (at_ : Z) (m : MessageRow) : MessageRow :=
  MkMsg (m_id m) (m_from m) (m_to m) (m_thread m) (m_reply m) (m_subject m) (m_body m) (m_sent m) at_
    (m_del_from m) (m_del_to m).

Definition MarkRead (now msgID userID : Z) : op unit := fun db =>
  let unread m := (m_id m =? msgID) && in_inbox userID m && (m_read m =? 0) in
  if existsb unread (messages db) then Ok (tt, on_messages (update_where unread (with_read now)) db)
  else if existsb (fun m => (m_id m =? msgID) && in_inbox userID m) (messages db) then Ok (tt, db)
  else Err ErrNotFound.

Definition DeleteMessage (msgID userID : Z) : op unit := fun db =>
  let mine m := (m_id m =? msgID) && visibleTo userID m in
  if existsb mine (messages db) then
    let db := on_messages (update_where mine (fun m =>
                with_deleted (m_del_from m || (m_from m =? userID)) (m_del_to m || (m_to m =? userID)) m)) db in
    Ok (tt, on_messages (delete_where (fun m => (m_id m =? msgID) && m_del_from m && m_del_to m)) db)
  else Err ErrNotFound.

End mail.
