(* ===== verification/StoreBoards.v ===== *)
(** * The public side: [internal/store/boards.go], [community.go], [events.go],
    [throttle.go]

    Boards and their posts with per-caller read marks, bulletins, the oneliner
    wall, the event log and the stored rate-limit hits. *)

From Stdlib Require Import Ascii String ZArith Lia Sorted.
From stdpp Require Import base tactics list gmap strings sorting.
From S2P Require Import Prelude GoStrings Term StoreDB StoreUsers StoreMail.
Open Scope Z_scope.

(** ** boards.go *)

(** A board with the counters of one caller. *)
Record BoardSummary := MkSummary { s_board : BoardRow; s_posts : Z; s_new : Z; s_last : Z }.

(** [COALESCE(MAX(at), 0)] *)
Definition max_at {R} (at_ : R -> Z) (rows : list R) : Z :=
  match rows with [] => 0 | r :: rows' => foldr (fun r m => Z.max (at_ r) m) (at_ r) rows' end.

(** The rows after the read mark that the caller did not write. *)
Definition new_post (userID last : Z) (p : PostRow) : bool := (last <? p_id p) && negb (p_author p =? userID).

Definition board_posts (boardID : Z) (db : DB) : list PostRow := select_where (fun p => p_board p =? boardID) (posts db).

Definition summary (userID : Z) (db : DB) (b : BoardRow) : BoardSummary :=
  let ps := board_posts (b_id b) db in
  MkSummary b (len ps) (count_where (new_post userID (last_read_of userID (b_id b) (board_reads db))) ps) (max_at p_at ps).

Definition Boards (userID : Z) (db : DB) : list BoardSummary := summary userID db <$> order_by b_key (boards db).

Definition Board (id : Z) (db : DB) : result store_error BoardRow := or_not_found (row b_id (boards db) id).

(** [sysopDelete], for a table whose row [id] goes. *)
Definition sysopDelete {R} (rid : R -> Z) (rows : DB -> list R) (on_rows : (list R -> list R) -> DB -> DB)
    (actorID id : Z) : op unit := fun db =>
  _ ← requireSysop db actorID;
  _ ← or_not_found (row rid (rows db) id);
  mret (tt, on_rows (delete_where (fun r => rid r =? id)) db).

Section boards.
Context `{UnicodeTables}.

Definition CreateBoard (now actorID : Z) (name description : bytes) (sysopOnly : bool) : op BoardRow := fun db =>
  let name := Clean name MaxBoardNameLen in
  _ ← guard_res (negb (rune_count name <? MinBoardNameLen)) (InputError (str "Board names must be 2-30 characters."));
  let description := Clean description MaxBoardDescLen in
  _ ← requireSysop db actorID;
  let key := to_lower name in
  _ ← guard_res (negb (existsb (fun b => bool_decide (b_key b = key)) (boards db)))
        (InputError (str "There is already a board called " ++ name ++ str "."));
  let b := MkBoard (next_id b_id (boards db)) name key description sysopOnly now in
  mret (b, on_boards (fun bs => bs ++ [b]) db).

(** The board goes with its posts and read marks. *)
Definition DeleteBoard (actorID id : Z) : op unit := fun db =>
  '(_, db) ← sysopDelete b_id boards on_boards actorID id db;
  mret (tt, on_posts (delete_where (fun p => p_board p =? id)) (on_board_reads (delete_where (fun r => r_area r =? id)) db)).

Definition Posts (boardID : Z) (db : DB) : list PostRow := newest MaxBoardPosts (board_posts boardID db).

Definition post_thread (db : DB) (boardID replyTo : Z) : Z * Z :=
  if replyTo =? 0 then (0, 0)
  else match row_by (fun p => (p_id p =? replyTo) && (p_board p =? boardID)) (posts db) with
       | Some p => (p_thread p, replyTo)
       | None => (0, 0)
       end.

Definition AddPost (now boardID authorID : Z) (subject body : bytes) (replyTo : Z) : op PostRow := fun db =>
  '(subject, body) ← cleanLetter subject body;
  author ← getUser db authorID;
  b ← or_not_found (row b_id (boards db) boardID);
  _ ← guard_res (negb (b_sysop_only b && negb (u_sysop author))) ErrForbidden;
  _ ← guard_res (u_validated author) ErrNotValidated;
  let '(threadID, replyTo) := post_thread db boardID replyTo in
  let id := next_id p_id (posts db) in
  let p := MkPost id boardID authorID (if threadID =? 0 then id else threadID) replyTo subject body now in
  mret (p, on_posts (fun ps => ps ++ [p]) db).

Definition DeletePost (postID userID : Z) : op unit := fun db =>
  u ← getUser db userID;
  p ← or_not_found (row p_id (posts db) postID);
  _ ← guard_res ((p_author p =? userID) || u_sysop u) ErrForbidden;
  mret (tt, on_posts (delete_where (fun p => p_id p =? postID)) db).

Definition LastRead (userID boardID : Z) (db : DB) : Z := last_read_of userID boardID (board_reads db).

(** The read marks refer to a user and a board. *)
Definition MarkBoardRead (userID boardID postID : Z) : op unit := fun db =>
  match row u_id (users db) userID, row b_id (boards db) boardID with
  | Some _, Some _ => Ok (tt, on_board_reads (upsert_read userID boardID postID) db)
  | _, _ => Err ErrConstraint
  end.

(** ** community.go *)

Definition AddBulletin (now authorID : Z) (title body : bytes) : op BulletinRow := fun db =>
  '(title, body) ← cleanLetter title body;
  _ ← requireSysop db authorID;
  let b := MkBulletin (next_id bu_id (bulletins db)) authorID title body now in
  mret (b, on_bulletins (fun bs => bs ++ [b]) db).

Definition Bulletins (db : DB) : list BulletinRow := reverse (bulletins db).
Definition BulletinsSince (t : Z) (db : DB) : Z := count_where (fun b => t <? bu_at b) (bulletins db).
Definition DeleteBulletin : Z -> Z -> op unit := sysopDelete bu_id bulletins on_bulletins.

(** The line and the handle of its author. *)
Definition AddOneliner (now authorID : Z) (text : bytes) : op (OnelinerRow * bytes) := fun db =>
  let text := Clean text MaxOnelinerLen in
  _ ← guard_res (negb (bool_decide (text = []))) (InputError (str "Say something first."));
  u ← UserByID authorID db;
  _ ← guard_res (u_validated u) ErrNotValidated;
  let o := MkOneliner (next_id o_id (oneliners db)) authorID text now in
  mret ((o, u_handle u), on_oneliners (fun os => os ++ [o]) db).

(** Each line with its author's handle, or nothing for an author who is gone. *)
Definition Oneliners (n : Z) (db : DB) : list (OnelinerRow * bytes) :=
  (fun o => (o, match row u_id (users db) (o_author o) with Some u => u_handle u | None => [] end))
  <$> newest n (oneliners db).

Definition DeleteOneliner : Z -> Z -> op unit := sysopDelete o_id oneliners on_oneliners.

End boards.

(** ** events.go *)

Definition maxEvents : Z := 5000.

Definition max_id {R} (id : R -> Z) (rows : list R) : Z := foldr (fun r m => Z.max (id r) m) 0 rows.

Definition LogEvent (now : Z) (kind : bytes) (userID : Z) (handle ip detail : bytes) (db : DB) : DB :=
  let db := on_events (fun es => es ++ [MkEvent (next_id e_id es) now kind userID handle ip detail]) db in
  on_events (delete_where (fun e => e_id e <=? max_id e_id (events db) - maxEvents)) db.

Definition Events (kind : bytes) (n : Z) (db : DB) : list EventRow :=
  reverse (newest n (select_where (fun e => bool_decide (kind = []) || bool_decide (e_kind e = kind)) (events db))).

(** ** throttle.go *)

Definition throttleRetention : Z := 172800000000000.   (* 48 hours *)

Definition RecordHit (bucket key : bytes) (at_ : Z) (db : DB) : DB :=
  on_hits (fun hs => delete_where (fun h => h_at h <? at_ - throttleRetention) (hs ++ [MkHit bucket key at_])) db.

Definition ClearHits (bucket key : bytes) (db : DB) : DB :=
  on_hits (delete_where (fun h => bool_decide (h_bucket h = bucket) && bool_decide (h_key h = key))) db.

(** [ORDER BY at] *)
Definition at_le (x y : HitRow) : Prop := h_at x <= h_at y.
Global Instance at_le_dec x y : Decision (at_le x y).
Proof. unfold at_le. apply _. Defined.

(** The events of a bucket since a time, by key, oldest first. *)
Definition LoadHits (bucket : bytes) (since : Z) (db : DB) : gmap bytes (list Z) :=
  foldl (fun m h => <[h_key h := default [] (m !! h_key h) ++ [h_at h]]> m) ∅
    (merge_sort at_le (select_where (fun h => bool_decide (h_bucket h = bucket) && (since <=? h_at h)) (hits db))).
