(* ===== verification/StoreEcho.v ===== *)
(** * FidoNet mail and files in the database: [internal/store/echo.go],
    [netmail.go], [files.go]

    Imported echomail and netmail with their duplicate checks and pruning, the
    file echoes, and the read marks of each. *)

From Stdlib Require Import Ascii String ZArith Lia Sorted.
From stdpp Require Import base tactics list gmap strings sorting.
From S2P Require Import Prelude GoStrings GoTime Term StoreDB StoreUsers StoreBoards.
From S2P Require FtnAddr FtnMessage.
Open Scope Z_scope.

(** ** echo.go *)

Definition MaxEchoTagLen : Z := 40.
Definition MaxEchoFromLen : Z := 36.
Definition MaxEchoAddrLen : Z := 40.
Definition MaxEchoBodyBytes : Z := 65536.
Definition MaxEchoMessages : Z := 2000.

Inductive TossResult := TossStored | TossDuplicate | TossSkipped.

Global Instance TossResult_eq_dec : EqDecision TossResult.
Proof. solve_decision. Defined.

(** An area with the counters of one caller. *)
Record AreaSummary := MkAreaSummary { as_area : AreaRow; as_count : Z; as_new : Z; as_last : Z }.

Definition area_messages (areaID : Z) (db : DB) : list EchoRow :=
  select_where (fun m => em_area m =? areaID) (echo_messages db).

Definition echo_summary (userID : Z) (db : DB) (a : AreaRow) : AreaSummary :=
  let ms := area_messages (a_id a) db in
  MkAreaSummary a (len ms) (count_where (fun m => last_read_of userID (a_id a) (echo_reads db) <? em_id m) ms)
    (max_at em_at ms).

Definition EchoAreas (userID : Z) (db : DB) : list AreaSummary := echo_summary userID db <$> order_by a_tag (echo_areas db).

Definition EchoAreaByID (id : Z) (db : DB) : result store_error AreaRow := or_not_found (row a_id (echo_areas db) id).

Definition EchoMessages (areaID : Z) (db : DB) : list EchoRow := reverse (newest MaxEchoMessages (area_messages areaID db)).

Definition EchoLastRead (userID areaID : Z) (db : DB) : Z := last_read_of userID areaID (echo_reads db).

Definition MarkEchoRead (userID areaID msgID : Z) : op unit := fun db =>
  match row u_id (users db) userID, row a_id (echo_areas db) areaID with
  | Some _, Some _ => Ok (tt, on_echo_reads (upsert_read userID areaID msgID) db)
  | _, _ => Err ErrConstraint
  end.

Definition sum_new (areas : list AreaSummary) : Z := foldl (fun n a => n + as_new a) 0 areas.
Definition EchoUnreadCount (userID : Z) (db : DB) : Z := sum_new (EchoAreas userID db).

Definition FTNFileSeen (sum : bytes) (db : DB) : bool := existsb (fun t => bool_decide (t_sum t = sum)) (tossed db).
Definition MarkFTNFile (now : Z) (sum name : bytes) (db : DB) : DB :=
  if FTNFileSeen sum db then db else on_tossed (fun ts => ts ++ [MkTossed sum name now]) db.

(** [utf8.RuneStart] *)
Definition rune_start (b : Z) : bool := negb (Z.land b 192 =? 128).

(** The loop of [truncateUTF8]: the largest index at most [n] where a rune starts, or 0. *)
Fixpoint back_to_rune (s : bytes) (n : nat) : nat :=
  match n with
  | S k => if rune_start (nth n s 0) then n else back_to_rune s k
  | O => O
  end.
Definition truncateUTF8 (s : bytes) (n : Z) : bytes :=
  if len s <=? n then s else take (back_to_rune s (Z.to_nat n)) s.

Definition or_default (s dflt : bytes) : bytes := if bool_decide (s = []) then dflt else s.

(** [INSERT OR IGNORE] of the area, and its id. *)
Definition ensureEchoArea (tag : bytes) (now : Z) (db : DB) : Z * DB :=
  match row_by (fun a => bool_decide (a_tag a = tag)) (echo_areas db) with
  | Some a => (a_id a, db)
  | None => let a := MkArea (next_id a_id (echo_areas db)) tag [] now in
            (a_id a, on_echo_areas (fun l => l ++ [a]) db)
  end.

(** Deletes the oldest rows of the area beyond the limit. *)
Definition pruneEchoArea (areaID : Z) (db : DB) : DB :=
  let n := len (area_messages areaID db) in
  if n <=? MaxEchoMessages then db
  else
    let old := em_id <$> take (Z.to_nat (n - MaxEchoMessages)) (area_messages areaID db) in
    on_echo_messages (delete_where (fun m => (em_area m =? areaID) && bool_decide (em_id m ∈ old))) db.

Section echo.
Context `{UnicodeTables} `{Crypto}.
Abbreviation FtnMsg := FtnMessage.Message (only parsing).

(** [t.Unix()] of the zero time for a message without a date. *)
Definition date_unix (d : option civil) : Z := match d with Some t => unix t | None => -62135596800 end.

Definition syntheticMsgID (m : FtnMsg) : bytes :=
  let nl := [10] in
  let text := FtnMessage.Area m ++ nl ++ FtnMessage.MFrom m ++ nl ++ FtnAddr.Addr_String (FtnMessage.Orig m) ++ nl
              ++ FtnMessage.MTo m ++ nl ++ FtnMessage.MSubject m ++ nl ++ itoa (date_unix (FtnMessage.Date m)) ++ nl
              ++ FtnMessage.Body m in
  str "boar-" ++ (sha1 text ≫= fun b => pad_hex 2 b).

Definition message_id (m : FtnMsg) : bytes := or_default (trim_space (FtnMessage.MsgID m)) (syntheticMsgID m).

Definition date_or (now : Z) (d : option civil) : Z := match d with Some t => unix_nano t | None => now end.

Definition ImportEcho (now : Z) (m : FtnMsg) (db : DB) : TossResult * DB :=
  let tag := to_upper (trim_space (FtnMessage.Area m)) in
  if bool_decide (FtnMessage.Area m = []) || bool_decide (tag = []) || (MaxEchoTagLen <? len tag) then (TossSkipped, db)
  else
    let msgid := message_id m in
    if existsb (fun e => bool_decide (em_msgid e = msgid)) (echo_messages db) then (TossDuplicate, db)
    else
      let '(areaID, db) := ensureEchoArea tag now db in
      let e := MkEcho (next_id em_id (echo_messages db)) areaID msgid
                 (or_default (Clean (FtnMessage.MFrom m) MaxEchoFromLen) (str "Unknown"))
                 (Clean (FtnAddr.Addr_String (FtnMessage.Orig m)) MaxEchoAddrLen)
                 (or_default (Clean (FtnMessage.MTo m) MaxEchoFromLen) (str "All"))
                 (or_default (Clean (FtnMessage.MSubject m) MaxSubjectLen) (str "(no subject)"))
                 (truncateUTF8 (FtnMessage.Body m) MaxEchoBodyBytes) (date_or now (FtnMessage.Date m)) in
      (TossStored, pruneEchoArea areaID (on_echo_messages (fun l => l ++ [e]) db)).

(** ** netmail.go *)

Definition MaxNetmailNameLen : Z := 36.
Definition MaxNetmailAddrLen : Z := 40.
Definition MaxNetmailBodySize : Z := 65536.
Definition MaxNetmailKept : Z := 1000.

Definition cleanNetmailName (s dflt : bytes) : bytes := or_default (Clean s MaxNetmailNameLen) dflt.

(** Whether the row was stored; the newest [MaxNetmailKept] rows are kept. *)
Definition insertNetmail (now : Z) (n : NetmailRow) : op bool := fun db =>
  if existsb (fun x => bool_decide (n_msgid x = n_msgid n)) (netmail db) then Ok (false, db)
  else
    _ ← guard_res (match n_author n with Some a => bool_decide (is_Some (row u_id (users db) a)) | None => true end) ErrConstraint;
    let n := MkNetmail (next_id n_id (netmail db)) (n_outgoing n) (n_msgid n) (n_reply n) (n_from n) (n_from_addr n)
               (n_to n) (n_to_addr n) (n_subject n) (n_body n) (n_posted n) now (n_read n) (n_author n) in
    mret (true, on_netmail (fun l => newest MaxNetmailKept (l ++ [n])) db).

Definition ImportNetmail (now : Z) (m : FtnMsg) : op TossResult := fun db =>
  if negb (bool_decide (FtnMessage.Area m = [])) then Ok (TossSkipped, db)
  else
    let n := MkNetmail 0 false (message_id m) (trim_space (FtnMessage.Reply m))
               (cleanNetmailName (FtnMessage.MFrom m) (str "Unknown"))
               (Clean (FtnAddr.Addr_String (FtnMessage.Orig m)) MaxNetmailAddrLen)
               (cleanNetmailName (FtnMessage.MTo m) (str "Sysop"))
               (Clean (FtnAddr.Addr_String (FtnMessage.Dest m)) MaxNetmailAddrLen)
               (or_default (Clean (FtnMessage.MSubject m) MaxSubjectLen) (str "(no subject)"))
               (truncateUTF8 (FtnMessage.Body m) MaxNetmailBodySize) (date_or now (FtnMessage.Date m)) 0 0 None in
    '(stored, db) ← insertNetmail now n db;
    mret (if stored : bool then TossStored else TossDuplicate, db).

Definition NetmailByMsgID (msgid : bytes) (db : DB) : result store_error NetmailRow :=
  or_not_found (row_by (fun n => bool_decide (n_msgid n = msgid)) (netmail db)).

Definition RecordSentNetmail (now : Z) (n : NetmailRow) : op NetmailRow := fun db =>
  let posted := if n_posted n =? 0 then now else n_posted n in
  let author := match n_author n with Some a => if a =? 0 then None else Some a | None => None end in
  let n := MkNetmail (n_id n) true (n_msgid n) (n_reply n) (cleanNetmailName (n_from n) (str "Sysop")) (n_from_addr n)
             (cleanNetmailName (n_to n) (str "Sysop")) (n_to_addr n) (Clean (n_subject n) MaxSubjectLen)
             (truncateUTF8 (n_body n) MaxNetmailBodySize) posted (n_received n) posted author in
  '(_, db) ← insertNetmail now n db;
  n ← NetmailByMsgID (n_msgid n) db; mret (n, db).

Definition netmailVisible (u : UserRow) (n : NetmailRow) : bool :=
  u_sysop u || (negb (n_outgoing n) && bool_decide (sql_lower (n_to n) = sql_lower (u_handle u)))
  || bool_decide (n_author n = Some (u_id u)).

Definition NetmailFor (u : UserRow) (db : DB) : list NetmailRow := reverse (select_where (netmailVisible u) (netmail db)).

Definition NetmailUnread (u : UserRow) (db : DB) : Z :=
  count_where (fun n => (n_read n =? 0) && negb (n_outgoing n) && netmailVisible u n) (netmail db).

Definition MarkNetmailRead (now id : Z) (db : DB) : DB :=
  on_netmail (update_where (fun n => (n_id n =? id) && (n_read n =? 0))
    (fun n => MkNetmail (n_id n) (n_outgoing n) (n_msgid n) (n_reply n) (n_from n) (n_from_addr n) (n_to n)
                (n_to_addr n) (n_subject n) (n_body n) (n_posted n) (n_received n) now (n_author n))) db.

(** ** files.go *)

Definition MaxFileAreaTagLen : Z := 40.
Definition MaxFileNameLen : Z := 255.
Definition MaxFileDescLen : Z := 4096.

Definition bad_file : store_error := InputError (str "bad file area or file name").

(** The area of a file, created on first sight; an area without a description
    takes the one given. *)
Definition ensureFileArea (now : Z) (tag areaDesc : bytes) (db : DB) : Z * DB :=
  match row_by (fun a => bool_decide (a_tag a = tag)) (file_areas db) with
  | None => let a := MkArea (next_id a_id (file_areas db)) tag (Clean areaDesc MaxSubjectLen) now in
            (a_id a, on_file_areas (fun l => l ++ [a]) db)
  | Some a =>
      (a_id a,
       if bool_decide (areaDesc = []) then db
       else on_file_areas (update_where (fun x => (a_id x =? a_id a) && bool_decide (a_desc x = []))
              (fun x => MkArea (a_id x) (a_tag x) (Clean areaDesc MaxSubjectLen) (a_created x))) db)
  end.

Definition named_in (areaID : Z) (name : bytes) (f : FileRow) : bool := (f_area f =? areaID) && bool_decide (f_name f = name).

(** The path of the file replaced, or nothing. *)
Definition AddFile (now : Z) (areaTag areaDesc : bytes) (f : FileRow) : op bytes := fun db =>
  let tag := to_upper (trim_space areaTag) in
  _ ← guard_res (negb (bool_decide (tag = []) || (MaxFileAreaTagLen <? len tag)
                       || bool_decide (f_name f = []) || (MaxFileNameLen <? len (f_name f)))) bad_file;
  let '(areaID, db) := ensureFileArea now tag areaDesc db in
  let old := match row_by (named_in areaID (f_name f)) (files db) with Some x => f_path x | None => [] end in
  let db := if bool_decide (old = []) then db else on_files (delete_where (named_in areaID (f_name f))) db in
  _ ← guard_res (negb (existsb (named_in areaID (f_name f)) (files db))) ErrConstraint;
  let row := MkFile (next_id f_id (files db)) areaID (f_name f) (f_path f) (f_size f) (f_crc f)
               (truncateUTF8 (f_desc f) MaxFileDescLen) (truncateUTF8 (f_ldesc f) MaxFileDescLen)
               (Clean (f_origin f) MaxEchoAddrLen) (Clean (f_from f) MaxEchoAddrLen) now 0 in
  mret (old, on_files (fun l => l ++ [row]) db).

(** A file of the area by name, ignoring ASCII case.  SQL does not say which of
    several comes first; this takes the oldest. *)
Definition RemoveFile (areaTag name : bytes) : op bytes := fun db =>
  let in_area f := existsb (fun a => bool_decide (a_tag a = to_upper areaTag) && (a_id a =? f_area f)) (file_areas db) in
  f ← or_not_found (row_by (fun f => in_area f && bool_decide (sql_lower (f_name f) = sql_lower name)) (files db));
  mret (f_path f, on_files (delete_where (fun x => bool_decide (f_path x = f_path f))) db).

Definition FilesIn (areaID : Z) (db : DB) : list FileRow := reverse (select_where (fun f => f_area f =? areaID) (files db)).

Definition file_summary (userID : Z) (db : DB) (a : AreaRow) : AreaSummary :=
  let fs := select_where (fun f => f_area f =? a_id a) (files db) in
  MkAreaSummary a (len fs) (count_where (fun f => last_read_of userID (a_id a) (file_reads db) <? f_id f) fs)
    (max_at f_received fs).

Definition FileAreas (userID : Z) (db : DB) : list AreaSummary := file_summary userID db <$> order_by a_tag (file_areas db).

Definition FileByID (id : Z) (db : DB) : result store_error FileRow := or_not_found (row f_id (files db) id).
Definition FilesLastSeen (userID areaID : Z) (db : DB) : Z := last_read_of userID areaID (file_reads db).

Definition MarkFilesSeen (userID areaID fileID : Z) : op unit := fun db =>
  match row u_id (users db) userID, row a_id (file_areas db) areaID with
  | Some _, Some _ => Ok (tt, on_file_reads (upsert_read userID areaID fileID) db)
  | _, _ => Err ErrConstraint
  end.

Definition NewFilesCount (userID : Z) (db : DB) : Z := sum_new (FileAreas userID db).

Definition CountDownload (id : Z) (db : DB) : DB :=
  on_files (update_where (fun f => f_id f =? id)
    (fun f => MkFile (f_id f) (f_area f) (f_name f) (f_path f) (f_size f) (f_crc f) (f_desc f) (f_ldesc f)
                (f_origin f) (f_from f) (f_received f) (f_downloads f + 1))) db.

End echo.
