(* ===== verification/StoreInv.v ===== *)
(** * The database stays well formed

    The consistency of the whole database as an invariant of every operation
    that changes it: ids, unique columns, references, and the bounds on
    mailboxes, keys, areas, netmail and the log.  A state is reachable when a
    sequence of operations leads to it from a new database. *)

From Stdlib Require Import Ascii String ZArith Lia Sorted.
From stdpp Require Import base tactics list gmap strings sorting.
From S2P Require Import Prelude GoStrings GoTime Term StoreDB StoreUsers StoreMail StoreBoards StoreEcho.
Open Scope Z_scope.

(** ** The invariant, one part per group of tables *)

Definition refers (ids : list Z) (i : Z) : Prop := i ∈ ids.

(** Whether operations of several statements run as a whole.  Two clauses need it: that of the rights, which are checked and
    changed in two statements, and that of the log, which is written and trimmed in two. *)
Class Atomicity := { rights_at_once : bool; log_at_once : bool }.

Section parts.
Context `{UnicodeTables} `{Atomicity}.

Record users_ok (us : list UserRow) : Prop := {
  us_table : table_ok u_id us;
  us_keys : unique u_key us;
  us_handle : Forall (fun u => u_key u = handleKey (u_handle u)) us;
  us_email : forall u1 u2, u1 ∈ us -> u2 ∈ us -> u_email u1 <> [] ->
               sql_lower (u_email u1) = sql_lower (u_email u2) -> u_id u1 = u_id u2;
  us_sysop : rights_at_once = true -> us <> [] -> exists u, u ∈ us /\ u_sysop u = true;
  us_valid : Forall (fun u => u_sysop u = true -> u_validated u = true) us
}.

Record blocks_ok (uids : list Z) (bs : list (Z * Z)) : Prop := {
  bl_unique : NoDup bs;
  bl_refs : Forall (fun b => refers uids (fst b) /\ refers uids (snd b) /\ fst b <> snd b) bs
}.

(** No letter is kept that both sides deleted; a copy that is kept belongs to a
    user; an inbox is bounded. *)
Record mail_ok (uids : list Z) (ms : list MessageRow) : Prop := {
  ml_table : table_ok m_id ms;
  ml_kept : Forall (fun m => m_del_from m && m_del_to m = false) ms;
  ml_refs : Forall (fun m => (m_del_to m = false -> refers uids (m_to m))
                             /\ (m_del_from m = false -> refers uids (m_from m))) ms;
  ml_thread : Forall (fun m => 0 < m_thread m) ms;
  ml_bound : forall u, count_where (in_inbox u) ms <= MaxInbox
}.

Record reads_ok (uids aids : list Z) (rs : list ReadRow) : Prop := {
  rd_unique : unique (fun r => (r_user r, r_area r)) rs;
  rd_refs : Forall (fun r => refers uids (r_user r) /\ refers aids (r_area r)) rs
}.

Record boards_ok (uids : list Z) (bs : list BoardRow) (ps : list PostRow) (rs : list ReadRow) : Prop := {
  bd_table : table_ok b_id bs;
  bd_keys : unique b_key bs;
  bd_posts : table_ok p_id ps;
  bd_refs : Forall (fun p => refers (b_id <$> bs) (p_board p) /\ 0 < p_thread p) ps;
  bd_reads : reads_ok uids (b_id <$> bs) rs
}.

Record wall_ok (bus : list BulletinRow) (os : list OnelinerRow) (es : list EventRow) : Prop := {
  wl_bulletins : table_ok bu_id bus;
  wl_oneliners : table_ok o_id os;
  wl_events : table_ok e_id es;
  wl_bound : log_at_once = true -> len es <= maxEvents
}.

Record verifications_ok (uids : list Z) (vs : list VerificationRow) : Prop := {
  vf_unique : unique v_user vs;
  vf_refs : Forall (fun v => refers uids (v_user v) /\ 0 <= v_attempts v <= maxEmailCodeTries) vs
}.

Record keys_ok (uids : list Z) (ks : list KeyRow) : Prop := {
  ky_table : table_ok k_id ks;
  ky_unique : unique k_fingerprint ks;
  ky_refs : Forall (fun k => refers uids (k_user k)) ks;
  ky_bound : forall u, count_where (fun k => k_user k =? u) ks <= MaxSSHKeys
}.

Record echo_ok (uids : list Z) (as_ : list AreaRow) (ms : list EchoRow) (rs : list ReadRow) : Prop := {
  ec_areas : table_ok a_id as_;
  ec_tags : unique a_tag as_;
  ec_table : table_ok em_id ms;
  ec_unique : unique em_msgid ms;
  ec_refs : Forall (fun m => refers (a_id <$> as_) (em_area m)) ms;
  ec_bound : forall a, count_where (fun m => em_area m =? a) ms <= MaxEchoMessages;
  ec_reads : reads_ok uids (a_id <$> as_) rs
}.

Record netmail_ok (uids : list Z) (ns : list NetmailRow) : Prop := {
  nm_table : table_ok n_id ns;
  nm_unique : unique n_msgid ns;
  nm_refs : Forall (fun n => forall a, n_author n = Some a -> refers uids a) ns;
  nm_bound : len ns <= MaxNetmailKept
}.

Record files_ok (uids : list Z) (as_ : list AreaRow) (fs : list FileRow) (rs : list ReadRow) : Prop := {
  fl_areas : table_ok a_id as_;
  fl_tags : unique a_tag as_;
  fl_table : table_ok f_id fs;
  fl_unique : unique (fun f => (f_area f, f_name f)) fs;
  fl_refs : Forall (fun f => refers (a_id <$> as_) (f_area f)) fs;
  fl_reads : reads_ok uids (a_id <$> as_) rs
}.

Definition uids (db : DB) : list Z := u_id <$> users db.

Record db_ok (db : DB) : Prop := {
  ok_users : users_ok (users db);
  ok_blocks : blocks_ok (uids db) (blocks db);
  ok_mail : mail_ok (uids db) (messages db);
  ok_boards : boards_ok (uids db) (boards db) (posts db) (board_reads db);
  ok_wall : wall_ok (bulletins db) (oneliners db) (events db);
  ok_verifications : verifications_ok (uids db) (verifications db);
  ok_keys : keys_ok (uids db) (ssh_keys db);
  ok_echo : echo_ok (uids db) (echo_areas db) (echo_messages db) (echo_reads db);
  ok_tossed : unique t_sum (tossed db);
  ok_netmail : netmail_ok (uids db) (netmail db);
  ok_files : files_ok (uids db) (file_areas db) (files db) (file_reads db)
}.

End parts.

(** ** The operations that change the database *)

Section steps.
Context `{UnicodeTables} `{Crypto} `{MailParser} (cfg : Config).

Inductive step (db : DB) : DB -> Prop :=
  | st_create now salt h p l u db' : CreateUser cfg now salt h p l db = Ok (u, db') -> step db db'
  | st_login now i r db' : RecordLogin now i db = Ok (r, db') -> step db db'
  | st_password salt i c n db' : ChangePassword cfg salt i c n db = Ok (tt, db') -> step db db'
  | st_reset salt a i p db' : ResetPassword cfg salt a i p db = Ok (tt, db') -> step db db'
  | st_location i l u db' : SetLocation i l db = Ok (u, db') -> step db db'
  | st_sysop a i b db' : SetSysop a i b db = Ok (tt, db') -> step db db'
  | st_locked a i b db' : SetLocked a i b db = Ok (tt, db') -> step db db'
  | st_bootstrap h u db' : BootstrapSysop h db = Ok (u, db') -> step db db'
  | st_validate a i db' : ValidateUser a i db = Ok (tt, db') -> step db db'
  | st_delete_user a i db' : DeleteUser a i db = Ok (tt, db') -> step db db'
  | st_block u b db' : Block u b db = Ok (tt, db') -> step db db'
  | st_unblock u b : step db (Unblock u b db)
  | st_add_key now u f k c r db' : AddSSHKey now u f k c db = Ok (r, db') -> step db db'
  | st_delete_key u k db' : DeleteSSHKey u k db = Ok (tt, db') -> step db db'
  | st_start_email now n u a c db' : StartEmailVerification now n u a db = Ok (c, db') -> step db db'
  | st_confirm now u c : step db (snd (ConfirmEmail now u c db))
  | st_email_mode u m r db' : SetEmailMode u m db = Ok (r, db') -> step db db'
  | st_remove_email u : step db (snd (RemoveEmail u db))
  | st_send now f t s b r m db' : SendMessage now f t s b r db = Ok (m, db') -> step db db'
  | st_mark_read now m u db' : MarkRead now m u db = Ok (tt, db') -> step db db'
  | st_delete_message m u db' : DeleteMessage m u db = Ok (tt, db') -> step db db'
  | st_create_board now a n d s b db' : CreateBoard now a n d s db = Ok (b, db') -> step db db'
  | st_delete_board a i db' : DeleteBoard a i db = Ok (tt, db') -> step db db'
  | st_post now b a s t r p db' : AddPost now b a s t r db = Ok (p, db') -> step db db'
  | st_delete_post p u db' : DeletePost p u db = Ok (tt, db') -> step db db'
  | st_board_read u b p db' : MarkBoardRead u b p db = Ok (tt, db') -> step db db'
  | st_bulletin now a t b r db' : AddBulletin now a t b db = Ok (r, db') -> step db db'
  | st_delete_bulletin a i db' : DeleteBulletin a i db = Ok (tt, db') -> step db db'
  | st_oneliner now a t r db' : AddOneliner now a t db = Ok (r, db') -> step db db'
  | st_delete_oneliner a i db' : DeleteOneliner a i db = Ok (tt, db') -> step db db'
  | st_event now k u h i d : step db (LogEvent now k u h i d db)
  | st_hit b k t : step db (RecordHit b k t db)
  | st_clear_hits b k : step db (ClearHits b k db)
  | st_echo now m : step db (snd (ImportEcho now m db))
  | st_echo_read u a m db' : MarkEchoRead u a m db = Ok (tt, db') -> step db db'
  | st_tossed now s n : step db (MarkFTNFile now s n db)
  | st_netmail now m r db' : ImportNetmail now m db = Ok (r, db') -> step db db'
  | st_sent now n r db' : RecordSentNetmail now n db = Ok (r, db') -> step db db'
  | st_netmail_read now i : step db (MarkNetmailRead now i db)
  | st_add_file now t d f o db' : AddFile now t d f db = Ok (o, db') -> step db db'
  | st_remove_file t n p db' : RemoveFile t n db = Ok (p, db') -> step db db'
  | st_files_seen u a f db' : MarkFilesSeen u a f db = Ok (tt, db') -> step db db'
  | st_download i : step db (CountDownload i db).

Inductive reachable : DB -> Prop :=
  | reach_fresh : reachable fresh_db
  | reach_step db db' : reachable db -> step db db' -> reachable db'.
End steps.

(** * Lemmas *)

Lemma elem_update {R} (p : R -> bool) (f : R -> R) rows x :
  x ∈ update_where p f rows -> exists y, y ∈ rows /\ (x = f y /\ p y = true \/ x = y /\ p y = false).
Proof.
  intros (y & -> & Hy)%list_elem_of_fmap. exists y. split; [done|]. destruct (p y); auto.
Qed.

Lemma uids_delete (d : Z) us i : i ∈ u_id <$> delete_where (fun u => u_id u =? d) us <-> i ∈ u_id <$> us /\ i <> d.
Proof.
  rewrite !list_elem_of_fmap. split.
  - intros (u & -> & [Hd Hu]%elem_of_delete). apply Z.eqb_neq in Hd. split; [by exists u|done].
  - intros [(u & -> & Hu) Hd]. exists u. split; [done|]. apply elem_of_delete. split; [by apply Z.eqb_neq|done].
Qed.

(** ** Accounts *)

Section users_lemmas.
Context `{UnicodeTables} `{Atomicity}.

Lemma users_insert us u :
  users_ok us -> u_id u = next_id u_id us -> u_key u = handleKey (u_handle u) ->
  Forall (fun x => u_key x <> u_key u) us -> u_email u = [] -> (us = [] -> u_sysop u = true) ->
  (u_sysop u = true -> u_validated u = true) -> users_ok (us ++ [u]).
Proof.
  intros [] Hi Hk Hf He Hs Hv. constructor.
  - by apply table_ok_insert.
  - by apply unique_insert.
  - apply Forall_app. split; [done|by constructor; [|constructor]].
  - intros u1 u2 H1 H2 Hne Heq. apply elem_of_app in H1 as [H1|H1%list_elem_of_singleton], H2 as [H2|H2%list_elem_of_singleton].
    + by apply us_email0.
    + subst u2. rewrite He in Heq. destruct (u_email u1); [done|discriminate Heq].
    + subst u1. by rewrite He in Hne.
    + by subst.
  - intros Ha _. destruct us as [|x us].
    + exists u. split; [apply list_elem_of_singleton; done|auto].
    + destruct (us_sysop0 Ha ltac:(done)) as (v & Hin & Hsv). exists v. split; [|done]. apply elem_of_app. by left.
  - apply Forall_app. split; [done|by constructor; [|constructor]].
Qed.

(** An update that leaves ids, keys, handles and emails alone. *)
Lemma users_update us p f :
  users_ok us ->
  (forall u, u_id (f u) = u_id u /\ u_key (f u) = u_key u /\ u_handle (f u) = u_handle u /\ u_email (f u) = u_email u) ->
  (forall u, (u_sysop u = true -> u_validated u = true) -> u_sysop (f u) = true -> u_validated (f u) = true) ->
  (rights_at_once = true -> us <> [] -> exists u, u ∈ us /\ u_sysop u = true /\ (p u = true -> u_sysop (f u) = true)) ->
  users_ok (update_where p f us).
Proof.
  intros [] Hf Hv Hs. constructor.
  - apply table_ok_update; [apply Hf|done].
  - apply unique_update; [apply Hf|done].
  - apply Forall_update; [done|]. intros u Hu _. destruct (Hf u) as (_ & -> & -> & _). done.
  - intros u1 u2 H1 H2. apply elem_update in H1 as (v1 & H1 & E1), H2 as (v2 & H2 & E2).
    assert (u_email u1 = u_email v1 /\ u_id u1 = u_id v1) as [-> ->] by (destruct E1 as [[-> _]|[-> _]]; [split; apply Hf|done]).
    assert (u_email u2 = u_email v2 /\ u_id u2 = u_id v2) as [-> ->] by (destruct E2 as [[-> _]|[-> _]]; [split; apply Hf|done]).
    by apply us_email0.
  - intros Ha Hne. destruct (Hs Ha) as (u & Hu & Hsu & Hfu); [by destruct us|].
    exists (if p u then f u else u). split; [by apply list_elem_of_fmap_2 with (f := fun r => if p r then f r else r)|].
    destruct (p u) eqn:E; auto.
  - apply Forall_update; [done|]. intros u Hu _. by apply Hv.
Qed.

Lemma users_update_keep us p f :
  users_ok us ->
  (forall u, u_id (f u) = u_id u /\ u_key (f u) = u_key u /\ u_handle (f u) = u_handle u /\ u_email (f u) = u_email u) ->
  (forall u, u_sysop u = true -> u_sysop (f u) = true) ->
  (forall u, (u_sysop u = true -> u_validated u = true) -> u_sysop (f u) = true -> u_validated (f u) = true) ->
  users_ok (update_where p f us).
Proof.
  intros Hu Hf Hs Hv. apply users_update; [done..|]. intros Ha Hne.
  destruct (us_sysop _ Hu Ha Hne) as (u & Hin & Hsu). exists u. auto.
Qed.

Lemma users_delete us d a :
  users_ok us -> (exists u, row u_id us a = Some u /\ u_sysop u = true) -> a <> d -> users_ok (delete_where (fun u => u_id u =? d) us).
Proof.
  intros [] (u & Hu & Hs) Had. apply row_Some in Hu as [Hin Hid]. constructor.
  - by apply table_ok_delete.
  - by apply unique_delete.
  - by apply Forall_filter_keep.
  - intros u1 u2 [_ H1]%elem_of_delete [_ H2]%elem_of_delete. by apply us_email0.
  - intros _ _. exists u. split; [|done]. apply elem_of_delete. split; [apply Z.eqb_neq; congruence|done].
  - by apply Forall_filter_keep.
Qed.

(** Setting one user's email to an address nobody else has. *)
Lemma users_email us i e mode :
  users_ok us -> Forall (fun u => e <> [] -> sql_lower (u_email u) = sql_lower e -> u_id u = i) us ->
  users_ok (update_where (fun u => u_id u =? i) (fun u => with_email e (mode u) u) us).
Proof.
  intros Hok Hfree. pose proof Hok as []. constructor.
  - by apply table_ok_update.
  - by apply unique_update.
  - apply Forall_update; [done|]. by intros u Hu _.
  - rewrite Forall_forall in Hfree. intros u1 u2 H1 H2 Hne Heq.
    apply elem_update in H1 as (v1 & H1 & E1), H2 as (v2 & H2 & E2).
    destruct E1 as [[-> Hp1]|[-> Hp1]], E2 as [[-> Hp2]|[-> Hp2]]; cbn in *; bool_prop.
    + congruence.
    + rewrite Hp1. symmetry. by apply (Hfree v2).
    + rewrite Hp2. apply (Hfree v1); [done| |done]. intros ->. destruct (u_email v1); [done|discriminate Heq].
    + by apply us_email0.
  - intros Ha Hne. destruct us as [|x us]; [done|]. destruct (us_sysop0 Ha ltac:(done)) as (u & Hin & Hsu).
    exists (if u_id u =? i then with_email e (mode u) u else u). split.
    + by apply list_elem_of_fmap_2 with (f := fun r => if u_id r =? i then with_email e (mode r) r else r).
    + by destruct (u_id u =? i).
  - apply Forall_update; [done|]. by intros u Hu _.
Qed.
End users_lemmas.

(** ** The references to users, and their deletion *)

Definition sub_ids (a b : list Z) : Prop := forall i, i ∈ a -> i ∈ b.

Ltac weaken H := eapply Forall_impl; [exact H|]; unfold refers; cbn; intuition eauto.

Lemma blocks_mono u u' bs : sub_ids u u' -> blocks_ok u bs -> blocks_ok u' bs.
Proof. intros Hs []. constructor; [done|]. weaken bl_refs0. Qed.

Lemma mail_mono u u' ms : sub_ids u u' -> mail_ok u ms -> mail_ok u' ms.
Proof. intros Hs []. constructor; try done. weaken ml_refs0. Qed.

Lemma reads_mono u u' a a' rs : sub_ids u u' -> sub_ids a a' -> reads_ok u a rs -> reads_ok u' a' rs.
Proof. intros Hs Ha []. constructor; [done|]. weaken rd_refs0. Qed.

Lemma boards_mono u u' bs ps rs : sub_ids u u' -> boards_ok u bs ps rs -> boards_ok u' bs ps rs.
Proof. intros Hs []. constructor; try done. eapply reads_mono; [done| |done]. by intros ?. Qed.

Lemma verifications_mono u u' vs : sub_ids u u' -> verifications_ok u vs -> verifications_ok u' vs.
Proof. intros Hs []. constructor; [done|]. weaken vf_refs0. Qed.

Lemma keys_mono u u' ks : sub_ids u u' -> keys_ok u ks -> keys_ok u' ks.
Proof. intros Hs []. constructor; try done. weaken ky_refs0. Qed.

Lemma echo_mono u u' a ms rs : sub_ids u u' -> echo_ok u a ms rs -> echo_ok u' a ms rs.
Proof. intros Hs []. constructor; try done. eapply reads_mono; [done| |done]. by intros ?. Qed.

Lemma netmail_mono u u' ns : sub_ids u u' -> netmail_ok u ns -> netmail_ok u' ns.
Proof. intros Hs []. constructor; try done. weaken nm_refs0. Qed.

Lemma files_mono u u' a fs rs : sub_ids u u' -> files_ok u a fs rs -> files_ok u' a fs rs.
Proof. intros Hs []. constructor; try done. eapply reads_mono; [done| |done]. by intros ?. Qed.

(** Rows that go with the user [d] leave only references to others. *)
Lemma Forall_delete {R} (P Q : R -> Prop) p rows :
  Forall P rows -> (forall r, P r -> p r = false -> Q r) -> Forall Q (delete_where p rows).
Proof. rewrite !Forall_forall. intros HP HPQ r [Hp Hr]%elem_of_delete. auto. Qed.

Lemma unique_filter_blocks bs p : NoDup bs -> NoDup (delete_where p bs : list (Z * Z)).
Proof. apply NoDup_filter. Qed.

Definition without (d : Z) (u u' : list Z) : Prop := forall i, i ∈ u -> i <> d -> i ∈ u'.

Lemma blocks_delete u u' d bs :
  without d u u' -> blocks_ok u bs -> blocks_ok u' (delete_where (fun b => (fst b =? d) || (snd b =? d)) bs).
Proof.
  intros Hw []. constructor; [by apply NoDup_filter|]. eapply Forall_delete; [exact bl_refs0|].
  intros b (? & ? & ?) E. bool_prop. unfold refers in *. auto.
Qed.

Lemma reads_delete u u' a d rs :
  without d u u' -> reads_ok u a rs -> reads_ok u' a (delete_where (fun r => r_user r =? d) rs).
Proof.
  intros Hw []. constructor; [by apply unique_delete|]. eapply Forall_delete; [exact rd_refs0|].
  intros r [? ?] E. bool_prop. unfold refers in *. auto.
Qed.

Lemma reads_delete_area u a a' d rs :
  without d a a' -> reads_ok u a rs -> reads_ok u a' (delete_where (fun r => r_area r =? d) rs).
Proof.
  intros Hw []. constructor; [by apply unique_delete|]. eapply Forall_delete; [exact rd_refs0|].
  intros r [? ?] E. bool_prop. unfold refers in *. auto.
Qed.

Lemma reads_upsert u a rs i j k : reads_ok u a rs -> refers u i -> refers a j -> reads_ok u a (upsert_read i j k rs).
Proof.
  intros [] Hi Hj. unfold upsert_read. destruct (existsb (same_read i j) rs) eqn:E.
  - constructor; [by apply unique_update|]. apply Forall_update; [done|]. by intros r Hr _.
  - apply existsb_false in E. constructor.
    + apply unique_insert; [done|]. eapply Forall_impl; [exact E|]. unfold same_read. cbn. intros r Hr [= <- <-].
      by rewrite !Z.eqb_refl in Hr.
    + apply Forall_app. split; [done|]. by constructor; [|constructor].
Qed.

(** ** Letters *)

Lemma mail_insert u ms m :
  mail_ok u ms -> m_id m = next_id m_id ms -> m_del_from m = false -> m_del_to m = false ->
  refers u (m_to m) -> refers u (m_from m) -> 0 < m_thread m ->
  count_where (in_inbox (m_to m)) ms < MaxInbox -> mail_ok u (ms ++ [m]).
Proof.
  intros [] Hi Hf Ht Hto Hfrom Hth Hc. constructor.
  - by apply table_ok_insert.
  - apply Forall_app. split; [done|]. constructor; [by rewrite Hf|constructor].
  - apply Forall_app. split; [done|]. by constructor; [|constructor].
  - apply Forall_app. split; [done|]. by constructor; [|constructor].
  - intros v. rewrite count_app, count_one. specialize (ml_bound0 v). unfold in_inbox at 2.
    destruct (Z.eqb_spec (m_to m) v) as [<-|]; cbn [andb]; [|lia]. destruct (negb _); lia.
Qed.

Lemma mail_read u ms p at_ : mail_ok u ms -> mail_ok u (update_where p (with_read at_) ms).
Proof.
  intros []. constructor.
  - by apply table_ok_update.
  - by apply Forall_update.
  - by apply Forall_update.
  - by apply Forall_update.
  - intros v. etransitivity; [|apply (ml_bound0 v)]. by apply count_update_le.
Qed.

(** Flags are set by [f] on the rows of [p]; rows deleted by both sides go. *)
Lemma mail_delete u u' ms p f q :
  mail_ok u ms ->
  (forall m, m_id (f m) = m_id m /\ m_thread (f m) = m_thread m /\ m_to (f m) = m_to m /\ m_from (f m) = m_from m) ->
  (forall m, m_del_to (f m) = false -> m_del_to m = false) ->
  (forall m, m_del_from (f m) = false -> m_del_from m = false) ->
  (forall m, p m = true -> q (f m) = m_del_from (f m) && m_del_to (f m)) ->
  (forall m, m ∈ ms -> m_del_to m = false -> refers u (m_to m) -> p m = false \/ m_del_to (f m) = false -> refers u' (m_to m)) ->
  (forall m, m ∈ ms -> m_del_from m = false -> refers u (m_from m) -> p m = false \/ m_del_from (f m) = false -> refers u' (m_from m)) ->
  mail_ok u' (delete_where q (update_where p f ms)).
Proof.
  intros [] Hk Hdt Hdf Hq Ht Hf. constructor.
  - apply table_ok_delete, table_ok_update; [apply Hk|done].
  - apply Forall_forall. intros r [Hqr Hr]%elem_of_delete. apply elem_update in Hr as (y & Hy & [[-> Hp]|[-> Hp]]).
    + by rewrite <-Hq.
    + rewrite Forall_forall in ml_kept0. by apply ml_kept0.
  - apply Forall_forall. intros r [_ Hr]%elem_of_delete. apply elem_update in Hr as (y & Hy & Hcase).
    rewrite Forall_forall in ml_refs0. destruct (ml_refs0 y Hy) as [H1 H2].
    destruct Hcase as [[-> Hp]|[-> Hp]].
    + destruct (Hk y) as (_ & _ & -> & ->). split; intros Hd; [apply Ht|apply Hf]; auto.
    + split; intros Hd; [apply Ht|apply Hf]; auto.
  - apply Forall_filter_keep, Forall_update; [done|]. intros m Hm _. destruct (Hk m) as (_ & -> & _). done.
  - intros v. etransitivity; [apply count_delete_le|]. etransitivity; [|apply (ml_bound0 v)].
    apply count_update_le. intros m _. unfold in_inbox. destruct (Hk m) as (_ & _ & -> & _).
    intros [-> Hd]%andb_prop. cbn [andb]. apply negb_true_iff in Hd. by rewrite (Hdt m Hd).
Qed.

Lemma mail_filter u ms p : mail_ok u ms -> mail_ok u (delete_where p ms).
Proof.
  intros []. constructor; [by apply table_ok_delete|by apply Forall_filter_keep..|].
  intros v. etransitivity; [apply count_delete_le|apply ml_bound0].
Qed.

(** ** Boards, log *)

Lemma refers_row {R} (id : R -> Z) rows i r : row id rows i = Some r -> refers (id <$> rows) i.
Proof. intros [Hin <-]%row_Some. by apply list_elem_of_fmap_2. Qed.

Lemma without_delete {R} (id : R -> Z) d rows : without d (id <$> rows) (id <$> delete_where (fun r => id r =? d) rows).
Proof.
  intros i (r & -> & Hr)%list_elem_of_fmap Hd. apply list_elem_of_fmap_2, elem_of_delete. split; [by apply Z.eqb_neq|done].
Qed.

Lemma sub_ids_app a b : sub_ids a (a ++ b).
Proof. intros i Hi. apply elem_of_app. by left. Qed.

Lemma sub_ids_insert {R} (id : R -> Z) rows r : sub_ids (id <$> rows) (id <$> (rows ++ [r])).
Proof. rewrite fmap_app. apply sub_ids_app. Qed.

Lemma boards_insert u bs ps rs b :
  boards_ok u bs ps rs -> b_id b = next_id b_id bs -> Forall (fun x => b_key x <> b_key b) bs -> boards_ok u (bs ++ [b]) ps rs.
Proof.
  intros [] Hi Hk. pose proof (sub_ids_insert b_id bs b). constructor; [by apply table_ok_insert|by apply unique_insert|done| |].
  - weaken bd_refs0.
  - eapply reads_mono; [|done|done]. by intros ?.
Qed.

Lemma boards_delete u bs ps rs d :
  boards_ok u bs ps rs ->
  boards_ok u (delete_where (fun b => b_id b =? d) bs) (delete_where (fun p => p_board p =? d) ps)
    (delete_where (fun r => r_area r =? d) rs).
Proof.
  intros []. pose proof (without_delete b_id d bs) as Hw.
  constructor; [by apply table_ok_delete|by apply unique_delete|by apply table_ok_delete| |by eapply reads_delete_area].
  eapply Forall_delete; [exact bd_refs0|]. intros p [? ?] E. bool_prop. split; [|done]. by apply Hw.
Qed.

Lemma boards_post u bs ps rs p :
  boards_ok u bs ps rs -> p_id p = next_id p_id ps -> refers (b_id <$> bs) (p_board p) -> 0 < p_thread p ->
  boards_ok u bs (ps ++ [p]) rs.
Proof.
  intros [] Hi Hb Ht. constructor; try done; [by apply table_ok_insert|].
  apply Forall_app. split; [done|]. by constructor; [|constructor].
Qed.

Lemma boards_delete_post u bs ps rs q : boards_ok u bs ps rs -> boards_ok u bs (delete_where q ps) rs.
Proof. intros []. constructor; try done; [by apply table_ok_delete|by apply Forall_filter_keep]. Qed.

Lemma boards_reads u u' bs ps rs rs' : boards_ok u bs ps rs -> reads_ok u' (b_id <$> bs) rs' -> boards_ok u' bs ps rs'.
Proof. by intros []. Qed.

Lemma sorted_range l lo hi : StronglySorted Z.lt l -> Forall (fun x => lo < x <= hi) l -> len l <= Z.max 0 (hi - lo).
Proof.
  intros Hs. revert lo. induction Hs as [|x l Hl IH Hx]; intros lo Hb; [rewrite len_nil; lia|].
  apply Forall_cons in Hb as [? Hb]. rewrite len_cons. assert (len l <= Z.max 0 (hi - x)); [|lia].
  apply IH. apply Forall_forall. intros y Hy. rewrite Forall_forall in Hb, Hx.
  specialize (Hb y Hy). specialize (Hx y Hy). cbn in Hb. lia.
Qed.

Lemma max_id_bound {R} (id : R -> Z) rows : Forall (fun r => id r <= max_id id rows) rows.
Proof.
  unfold max_id. induction rows as [|r rows IH]; constructor; cbn; [lia|]. eapply Forall_impl; [exact IH|]. cbn. lia.
Qed.

Lemma newest_has {R} n (l : list R) x : 0 < n -> x ∈ newest n (l ++ [x]).
Proof.
  intros Hn. unfold newest. destruct (Z.ltb_spec n 0); [lia|]. rewrite length_app. cbn [length].
  rewrite drop_app_le by lia. apply elem_of_app. right. by left.
Qed.

(** Trimming the log leaves [maxEvents] rows at most. *)
Lemma events_trimmed rows :
  table_ok e_id rows ->
  let es' := delete_where (fun x => e_id x <=? max_id e_id rows - maxEvents) rows in
  table_ok e_id es' /\ len es' <= maxEvents.
Proof.
  intros Ht. cbn zeta. pose proof (max_id_bound e_id rows) as Hm.
  pose proof (table_ok_delete e_id (fun x => e_id x <=? max_id e_id rows - maxEvents) rows Ht) as Hd. split; [done|].
  destruct Hd as [Hs _].
  pose proof (sorted_range _ (max_id e_id rows - maxEvents) (max_id e_id rows) Hs) as Hl.
  rewrite len_fmap in Hl. unfold maxEvents in *. rewrite Z.max_r in Hl by lia.
  assert (max_id e_id rows - (max_id e_id rows - 5000) = 5000) as E by lia. rewrite E in Hl. apply Hl.
  apply Forall_fmap. apply Forall_forall. intros x [Hx Hin]%elem_of_delete. cbn. bool_prop.
  rewrite Forall_forall in Hm. specialize (Hm x Hin). lia.
Qed.

Lemma events_bound es e :
  table_ok e_id es -> e_id e = next_id e_id es ->
  let es' := delete_where (fun x => e_id x <=? max_id e_id (es ++ [e]) - maxEvents) (es ++ [e]) in
  table_ok e_id es' /\ len es' <= maxEvents.
Proof. intros Ht Hi. by apply events_trimmed, table_ok_insert. Qed.

(** ** FidoNet tables *)

Lemma echo_area_insert u as_ ms rs a :
  echo_ok u as_ ms rs -> a_id a = next_id a_id as_ -> Forall (fun x => a_tag x <> a_tag a) as_ -> echo_ok u (as_ ++ [a]) ms rs.
Proof.
  intros [] Hi Hk. pose proof (sub_ids_insert a_id as_ a).
  constructor; try done; [by apply table_ok_insert|by apply unique_insert| |].
  - weaken ec_refs0.
  - eapply reads_mono; [|done|done]. by intros ?.
Qed.

Lemma delete_first {R} (id : R -> Z) (a b : list R) :
  unique id (a ++ b) -> delete_where (fun r => bool_decide (id r ∈ id <$> a)) (a ++ b) = b.
Proof.
  unfold unique. rewrite fmap_app. intros (_ & Hd & _)%NoDup_app. unfold delete_where. rewrite filter_app.
  change (delete_where (fun r => bool_decide (id r ∈ id <$> a)) a ++ delete_where (fun r => bool_decide (id r ∈ id <$> a)) b = b).
  rewrite delete_all.
  2:{ apply Forall_forall. intros r Hr. by apply bool_decide_eq_true_2, list_elem_of_fmap_2. }
  apply (delete_none (fun r => bool_decide (id r ∈ id <$> a))). apply Forall_forall. intros r Hr.
  apply bool_decide_eq_false_2. intros Hin. apply (Hd _ Hin). by apply list_elem_of_fmap_2.
Qed.

Lemma delete_old {R} (id : R -> Z) k (l : list R) :
  unique id l -> delete_where (fun r => bool_decide (id r ∈ id <$> take k l)) l = drop k l.
Proof. intros Hu. pose proof (delete_first id (take k l) (drop k l)) as E. rewrite take_drop in E. by apply E. Qed.

Lemma select_delete_comm {R} (p q : R -> bool) l : select_where p (delete_where q l) = delete_where q (select_where p l).
Proof. unfold select_where, delete_where. rewrite !list_filter_filter. apply list_filter_iff. tauto. Qed.

Lemma delete_select {R} (p q : R -> bool) l :
  delete_where (fun r => p r && q r) (select_where p l) = delete_where q (select_where p l).
Proof.
  unfold delete_where. induction l as [|r l IH]; [done|]. unfold select_where in *. rewrite filter_cons.
  case_decide as E; [|exact IH]. rewrite !filter_cons, E. cbn [andb]. by rewrite IH.
Qed.

Lemma unique_select {R K} (key : R -> K) p rows : unique key rows -> unique key (select_where p rows).
Proof.
  intros Hu. assert (select_where p rows = delete_where (fun r => negb (p r)) rows) as ->; [|by apply unique_delete].
  unfold select_where, delete_where. apply list_filter_iff. intros r. by destruct (p r).
Qed.

Lemma echo_prune u as_ ms rs db areaID :
  echo_messages db = ms -> table_ok em_id ms -> unique em_msgid ms ->
  Forall (fun m => refers (a_id <$> as_) (em_area m)) ms ->
  (forall a, a <> areaID -> count_where (fun m => em_area m =? a) ms <= MaxEchoMessages) ->
  table_ok a_id as_ -> unique a_tag as_ -> reads_ok u (a_id <$> as_) rs ->
  echo_ok u as_ (echo_messages (pruneEchoArea areaID db)) rs.
Proof.
  intros E Ht Hu Hr Hc Ha Hat Hrd. unfold pruneEchoArea, area_messages. rewrite E.
  destruct (Z.leb_spec (len (select_where (fun m => em_area m =? areaID) ms)) MaxEchoMessages) as [Hle|Hgt].
  - rewrite E. constructor; try done. intros a. destruct (Z.eq_dec a areaID) as [->|]; [exact Hle|by apply Hc].
  - cbn [on_echo_messages echo_messages]. rewrite E. set (sel := select_where (fun m => em_area m =? areaID) ms) in *.
    constructor; try done.
    + by apply table_ok_delete.
    + by apply unique_delete.
    + by apply Forall_filter_keep.
    + intros a. destruct (Z.eq_dec a areaID) as [->|Hne].
      * unfold count_where. rewrite select_delete_comm. fold sel.
        pose proof (delete_select (fun m => em_area m =? areaID)
          (fun m => bool_decide (em_id m ∈ em_id <$> take (Z.to_nat (len sel - MaxEchoMessages)) sel)) ms) as E2.
        fold sel in E2. rewrite E2, delete_old.
        -- unfold len, MaxEchoMessages in *. rewrite length_drop. lia.
        -- apply unique_select, table_ids, Ht.
      * etransitivity; [apply count_delete_le|by apply Hc].
Qed.

Lemma len_newest {R} n (l : list R) : 0 <= n -> len (newest n l) <= n.
Proof. intros Hn. unfold newest. destruct (Z.ltb_spec n 0); [lia|]. unfold len. rewrite length_drop. lia. Qed.

Lemma newest_suffix {R} n (l : list R) : newest n l `suffix_of` l.
Proof. unfold newest. destruct (n <? 0); [done|]. eexists. symmetry. apply take_drop. Qed.

Lemma netmail_insert u ns n :
  netmail_ok u ns -> n_id n = next_id n_id ns -> Forall (fun x => n_msgid x <> n_msgid n) ns ->
  (forall a, n_author n = Some a -> refers u a) -> netmail_ok u (newest MaxNetmailKept (ns ++ [n])).
Proof.
  intros [] Hi Hk Ha. destruct (newest_suffix MaxNetmailKept (ns ++ [n])) as [t Et].
  pose proof (table_ok_insert n_id ns n nm_table0 Hi) as Ht. pose proof (unique_insert n_msgid ns n nm_unique0 Hk) as Hu.
  assert (Forall (fun n => forall a, n_author n = Some a -> refers u a) (ns ++ [n])) as Hr.
  { apply Forall_app. split; [done|]. by constructor; [|constructor]. }
  rewrite Et in Ht, Hu, Hr. constructor.
  - by eapply table_ok_suffix.
  - unfold unique in *. rewrite fmap_app in Hu. by apply NoDup_app in Hu as (_ & _ & ?).
  - by apply Forall_app in Hr as [_ ?].
  - by apply len_newest.
Qed.

Lemma files_area_insert u as_ fs rs a :
  files_ok u as_ fs rs -> a_id a = next_id a_id as_ -> Forall (fun x => a_tag x <> a_tag a) as_ -> files_ok u (as_ ++ [a]) fs rs.
Proof.
  intros [] Hi Hk. pose proof (sub_ids_insert a_id as_ a).
  constructor; try done; [by apply table_ok_insert|by apply unique_insert| |].
  - weaken fl_refs0.
  - eapply reads_mono; [|done|done]. by intros ?.
Qed.

Lemma files_filter u as_ fs rs p : files_ok u as_ fs rs -> files_ok u as_ (delete_where p fs) rs.
Proof. intros []. constructor; try done; [by apply table_ok_delete|by apply unique_delete|by apply Forall_filter_keep]. Qed.

Lemma files_insert u as_ fs rs f :
  files_ok u as_ fs rs -> f_id f = next_id f_id fs -> refers (a_id <$> as_) (f_area f) ->
  Forall (fun x => named_in (f_area f) (f_name f) x = false) fs -> files_ok u as_ (fs ++ [f]) rs.
Proof.
  intros [] Hi Ha Hn. constructor; try done; [by apply table_ok_insert| |].
  - apply unique_insert; [done|]. eapply Forall_impl; [exact Hn|]. unfold named_in. cbn. intros x Hx [= E1 E2].
    rewrite E1, E2, Z.eqb_refl, bool_decide_eq_true_2 in Hx by done. done.
  - apply Forall_app. split; [done|]. by constructor; [|constructor].
Qed.

(** ** One group of tables changes, the others stay *)

Section frames.
Context `{UnicodeTables} `{Atomicity}.
Implicit Types db : DB.

Ltac frame := intros []; constructor; cbn [on_users on_blocks on_messages on_boards on_posts on_board_reads on_bulletins
  on_oneliners on_events on_verifications on_ssh_keys on_echo_areas on_echo_messages on_echo_reads on_tossed on_netmail
  on_file_areas on_files on_file_reads on_hits
  users blocks messages boards posts board_reads bulletins oneliners events verifications ssh_keys echo_areas
  echo_messages echo_reads tossed netmail file_areas files file_reads hits]; eauto.

Lemma frame_users db f : db_ok db -> u_id <$> f (users db) = u_id <$> users db -> users_ok (f (users db)) -> db_ok (on_users f db).
Proof. intros Hok Hi Hu. assert (uids (on_users f db) = uids db) as E by done. revert Hok. frame; rewrite E; done. Qed.

Lemma frame_blocks db f : db_ok db -> blocks_ok (uids db) (f (blocks db)) -> db_ok (on_blocks f db).
Proof. frame. Qed.
Lemma frame_messages db f : db_ok db -> mail_ok (uids db) (f (messages db)) -> db_ok (on_messages f db).
Proof. frame. Qed.
Lemma frame_boards db f : db_ok db -> boards_ok (uids db) (f (boards db)) (posts db) (board_reads db) -> db_ok (on_boards f db).
Proof. frame. Qed.
Lemma frame_posts db f : db_ok db -> boards_ok (uids db) (boards db) (f (posts db)) (board_reads db) -> db_ok (on_posts f db).
Proof. frame. Qed.
Lemma frame_board_reads db f : db_ok db -> boards_ok (uids db) (boards db) (posts db) (f (board_reads db)) -> db_ok (on_board_reads f db).
Proof. frame. Qed.
Lemma frame_bulletins db f : db_ok db -> table_ok bu_id (f (bulletins db)) -> db_ok (on_bulletins f db).
Proof. frame. by destruct ok_wall0. Qed.
Lemma frame_oneliners db f : db_ok db -> table_ok o_id (f (oneliners db)) -> db_ok (on_oneliners f db).
Proof. frame. by destruct ok_wall0. Qed.
Lemma frame_events db f : db_ok db -> table_ok e_id (f (events db)) /\ (log_at_once = true -> len (f (events db)) <= maxEvents) -> db_ok (on_events f db).
Proof. frame. by destruct ok_wall0; constructor; destruct_and?. Qed.
Lemma frame_verifications db f : db_ok db -> verifications_ok (uids db) (f (verifications db)) -> db_ok (on_verifications f db).
Proof. frame. Qed.
Lemma frame_keys db f : db_ok db -> keys_ok (uids db) (f (ssh_keys db)) -> db_ok (on_ssh_keys f db).
Proof. frame. Qed.
Lemma frame_echo_areas db f :
  db_ok db -> echo_ok (uids db) (f (echo_areas db)) (echo_messages db) (echo_reads db) -> db_ok (on_echo_areas f db).
Proof. frame. Qed.
Lemma frame_echo_reads db f :
  db_ok db -> echo_ok (uids db) (echo_areas db) (echo_messages db) (f (echo_reads db)) -> db_ok (on_echo_reads f db).
Proof. frame. Qed.
Lemma frame_echo_messages db f :
  db_ok db -> echo_ok (uids db) (echo_areas db) (f (echo_messages db)) (echo_reads db) -> db_ok (on_echo_messages f db).
Proof. frame. Qed.
Lemma frame_tossed db f : db_ok db -> unique t_sum (f (tossed db)) -> db_ok (on_tossed f db).
Proof. frame. Qed.
Lemma frame_netmail db f : db_ok db -> netmail_ok (uids db) (f (netmail db)) -> db_ok (on_netmail f db).
Proof. frame. Qed.
Lemma frame_file_areas db f :
  db_ok db -> files_ok (uids db) (f (file_areas db)) (files db) (file_reads db) -> db_ok (on_file_areas f db).
Proof. frame. Qed.
Lemma frame_files db f :
  db_ok db -> files_ok (uids db) (file_areas db) (f (files db)) (file_reads db) -> db_ok (on_files f db).
Proof. frame. Qed.
Lemma frame_file_reads db f :
  db_ok db -> files_ok (uids db) (file_areas db) (files db) (f (file_reads db)) -> db_ok (on_file_reads f db).
Proof. frame. Qed.
Lemma frame_hits db f : db_ok db -> db_ok (on_hits f db).
Proof. frame. Qed.

(** An update of one user that leaves ids, keys, handles and emails alone. *)
Lemma frame_update_user db p f :
  db_ok db ->
  (forall u, u_id (f u) = u_id u /\ u_key (f u) = u_key u /\ u_handle (f u) = u_handle u /\ u_email (f u) = u_email u) ->
  (forall u, u_sysop u = true -> u_sysop (f u) = true) ->
  (forall u, (u_sysop u = true -> u_validated u = true) -> u_sysop (f u) = true -> u_validated (f u) = true) ->
  db_ok (on_users (update_where p f) db).
Proof.
  intros Hok Hf Hs Hv. apply frame_users; [done|apply fmap_update; apply Hf|]. by apply users_update_keep; [apply Hok|..].
Qed.
End frames.

Lemma getUser_Ok db i u : getUser db i = Ok u -> row u_id (users db) i = Some u.
Proof. unfold getUser, or_not_found. destruct (row u_id (users db) i); congruence. Qed.

Lemma or_not_found_Ok {A} (o : option A) a : or_not_found o = Ok a -> o = Some a.
Proof. destruct o; cbn; congruence. Qed.

Lemma requireSysop_Ok db i x : requireSysop db i = Ok x -> exists u, row u_id (users db) i = Some u /\ u_sysop u = true.
Proof. unfold requireSysop. intros E. simp_res. exists x0. split; [by apply getUser_Ok|done]. Qed.

Ltac inv_op := repeat (simp_res; repeat match goal with
  | x : (_ * _)%type |- _ => destruct x
  | x : unit |- _ => destruct x
  | H : getUser _ _ = Ok _ |- _ => apply getUser_Ok in H
  | H : UserByID _ _ = Ok _ |- _ => apply getUser_Ok in H
  | H : or_not_found _ = Ok _ |- _ => apply or_not_found_Ok in H
  | H : requireSysop _ _ = Ok _ |- _ => apply requireSysop_Ok in H as (? & ? & ?)
  | H : (let '(_, _) := ?p in _) = Ok _ |- _ => destruct p eqn:?
  | H : (_, _) = (_, _) |- _ => injection H as H; subst
  end); simplify_eq.

(** The operations of the modelled board run as a whole. *)
#[export] Instance whole_operations : Atomicity := { rights_at_once := true; log_at_once := true }.
