(* ===== verification/StoreDemo.v ===== *)
(** * A small board, as a concrete state of the store

    Parameters with concrete functions, and a database that a handful of
    operations build from a new one.  The theorems of the store are tried on it. *)

From Stdlib Require Import Ascii String ZArith Lia.
From stdpp Require Import base tactics list gmap strings sorting.
From S2P Require Import Prelude GoStrings GoTime Term StoreDB StoreUsers StoreMail StoreBoards StoreEcho StoreInv.
From S2P Require FtnAddr FtnMessage.
Open Scope Z_scope.

#[export] Instance demo_tables : UnicodeTables := { unicode_lower := fun r => r; unicode_upper := fun r => r }.
#[export] Instance demo_crypto : Crypto := {
  pbkdf2_sha256 := fun password salt iter => password ++ salt ++ itoa iter;
  sha256 := fun s => s;
  sha1 := fun s => take 20 s
}.
#[export] Instance demo_mail : MailParser := {
  parse_address := fun s => if contains_byte s 64 then Some (s, []) else None
}.

Definition demo_cfg : Config := MkConfig 1000 true.
Definition demo_password : bytes := str "correct horse".

Definition demo_echo : FtnMessage.Message :=
  FtnMessage.MkMessage (str "FIDO.TEST") (str "Ann") (str "All") (str "Hello") None
    (FtnAddr.MkAddr 2 5020 1042 0 []) (FtnAddr.MkAddr 0 0 0 0 []) 0 (str "2:5020/1042 6a5b8c00") [] FtnCharset.CP437 []
    (str "First message") [] [] [].

(** The operations, one state after the other. *)
Definition run {A} (o : op A) (db : DB) : DB := match o db with Ok (_, db') => db' | Err _ => db end.

Definition demo1 : DB := run (CreateUser demo_cfg 100 (str "salt1") (str "Alice") demo_password (str "Oslo")) fresh_db.
Definition demo2 : DB := run (CreateUser demo_cfg 101 (str "salt2") (str "Bob") demo_password (str "Rome")) demo1.
Definition demo3 : DB := run (CreateUser demo_cfg 102 (str "salt3") (str "Carol") demo_password []) demo2.
Definition demo4 : DB := run (ValidateUser 1 2) demo3.
Definition demo5 : DB := run (SendMessage 103 1 2 (str "Welcome") (str "Hello Bob") 0) demo4.
Definition demo6 : DB := run (SendMessage 104 2 1 (str "Re: Welcome") (str "Thanks") 1) demo5.
Definition demo7 : DB := run (AddPost 105 2 2 (str "First") (str "Anyone here?") 0) demo6.
Definition demo8 : DB := run (MarkBoardRead 1 2 1) demo7.
Definition demo9 : DB := run (StartEmailVerification 106 42 2 (str "bob@example.org")) demo8.
Definition demo_db : DB := snd (ImportEcho 107 demo_echo demo9).

Lemma run_reachable {A} (o : op A) db :
  reachable demo_cfg db -> (forall a db', o db = Ok (a, db') -> step demo_cfg db db') -> is_ok (o db) = true ->
  reachable demo_cfg (run o db).
Proof.
  intros Hr Hs Hok. unfold run. destruct (o db) as [[a db']|]; [|done]. eapply reach_step; [exact Hr|]. by eapply Hs.
Qed.

Lemma demo9_reachable : reachable demo_cfg demo9.
Proof.
  apply run_reachable; [|by intros; eapply st_start_email|by vm_compute].
  apply run_reachable; [|by intros [] ? ?; eapply st_board_read|by vm_compute].
  apply run_reachable; [|by intros; eapply st_post|by vm_compute].
  apply run_reachable; [|by intros; eapply st_send|by vm_compute].
  apply run_reachable; [|by intros; eapply st_send|by vm_compute].
  apply run_reachable; [|by intros [] ? ?; eapply st_validate|by vm_compute].
  apply run_reachable; [|by intros; eapply st_create|by vm_compute].
  apply run_reachable; [|by intros; eapply st_create|by vm_compute].
  apply run_reachable; [|by intros; eapply st_create|by vm_compute].
  apply reach_fresh.
Qed.

Lemma demo_reachable : reachable demo_cfg demo_db.
Proof. eapply reach_step; [apply demo9_reachable|apply st_echo]. Qed.
