(* ===== verification/StoreOk.v ===== *)
(** * Every operation of the store keeps the database well formed

    One lemma per operation, and the theorem over the reachable states. *)

From Stdlib Require Import Ascii String ZArith Lia Sorted.
From stdpp Require Import base tactics list gmap strings sorting.
From S2P Require Import Prelude GoStrings GoTime Term StoreDB StoreUsers StoreMail StoreBoards StoreEcho StoreInv StoreDemo.
From S2P Require FtnAddr FtnMessage.
Open Scope Z_scope.

Section ops.
Context `{UnicodeTables} `{Crypto} `{MailParser} `{Atomicity} (cfg : Config).
Implicit Types db : DB.

(** ** Accounts *)

Lemma updateUser_ok i f db db' :
  updateUser i f db = Ok (tt, db') -> db_ok db ->
  (forall u, u_id (f u) = u_id u /\ u_key (f u) = u_key u /\ u_handle (f u) = u_handle u /\ u_email (f u) = u_email u) ->
  (forall u, u_sysop u = true -> u_sysop (f u) = true) ->
  (forall u, (u_sysop u = true -> u_validated u = true) -> u_sysop (f u) = true -> u_validated (f u) = true) ->
  db_ok db'.
Proof.
  intros E Hok Hf Hs Hv. revert E. unfold updateUser. destruct (row u_id (users db) i); [|done]. intros [= <-].
  by apply frame_update_user.
Qed.

Lemma CreateUser_ok now salt h p l db u db' : CreateUser cfg now salt h p l db = Ok (u, db') -> db_ok db -> db_ok db'.
Proof.
  unfold CreateUser. intros E Hok. inv_op. bool_prop.
  match goal with H : existsb _ _ = false |- _ => apply existsb_false in H as Hk end.
  set (u := MkUser _ _ _ _ _ _ _ _ _ _ _ _ _).
  assert (sub_ids (uids db) (uids (on_users (fun us => us ++ [u]) db))) as Hsub by apply sub_ids_insert.
  destruct Hok. constructor; cbn [on_users users blocks messages boards posts board_reads bulletins oneliners events
    verifications ssh_keys echo_areas echo_messages echo_reads tossed netmail file_areas files file_reads]; try done.
  - apply users_insert; try done.
    + eapply Forall_impl; [exact Hk|]. unfold user_with_key. cbn. intros y Hy. by bool_prop.
    + cbn. intros ->. by rewrite bool_decide_eq_true_2.
    + cbn. intros ->. done.
  - by eapply blocks_mono.
  - by eapply mail_mono.
  - by eapply boards_mono.
  - by eapply verifications_mono.
  - by eapply keys_mono.
  - by eapply echo_mono.
  - by eapply netmail_mono.
  - by eapply files_mono.
Qed.

Lemma RecordLogin_ok now i db r db' : RecordLogin now i db = Ok (r, db') -> db_ok db -> db_ok db'.
Proof. unfold RecordLogin. intros E Hok. inv_op. by apply frame_update_user. Qed.

Lemma setPassword_ok salt i p db db' : setPassword cfg salt i p db = Ok (tt, db') -> db_ok db -> db_ok db'.
Proof. unfold setPassword. intros E Hok. inv_op. by eapply updateUser_ok. Qed.

Lemma ChangePassword_ok salt i c n db db' : ChangePassword cfg salt i c n db = Ok (tt, db') -> db_ok db -> db_ok db'.
Proof. unfold ChangePassword. intros E Hok. inv_op. case_match; [|done]. by eapply setPassword_ok. Qed.

Lemma ResetPassword_ok salt a i p db db' : ResetPassword cfg salt a i p db = Ok (tt, db') -> db_ok db -> db_ok db'.
Proof. unfold ResetPassword. intros E Hok. inv_op. by eapply setPassword_ok. Qed.

Lemma SetLocation_ok i l db u db' : SetLocation i l db = Ok (u, db') -> db_ok db -> db_ok db'.
Proof. unfold SetLocation. intros E Hok. inv_op. by eapply updateUser_ok. Qed.

Lemma requireActor_Ok db a i (b : bool) x :
  requireActor a i b db = Ok x -> (b = true -> a <> i) /\ exists u, row u_id (users db) a = Some u /\ u_sysop u = true.
Proof.
  unfold requireActor. destruct b; cbn [andb].
  - destruct (Z.eqb_spec a i); [done|]. intros (u & ?)%requireSysop_Ok. eauto.
  - intros (u & ?)%requireSysop_Ok. eauto.
Qed.

Lemma SetSysop_ok a i b db db' : SetSysop a i b db = Ok (tt, db') -> db_ok db -> db_ok db'.
Proof.
  unfold SetSysop. intros E Hok. inv_op.
  match goal with H : requireActor _ _ _ _ = Ok _ |- _ => apply requireActor_Ok in H as (Ha & u & Hu & Hs) end.
  unfold updateUser in *. case_match; [|done]. inv_op.
  apply frame_users; [done|by apply fmap_update|]. apply users_update; [apply Hok|done| |].
  - cbn. intros v Hv ->. apply orb_true_r.
  - intros _ _. apply row_Some in Hu as [Hin Hid]. exists u. repeat split; [done..|]. cbn. intros Hi%Z.eqb_eq.
    destruct b; [done|]. by destruct Ha; [|congruence].
Qed.

Lemma SetLocked_ok a i b db db' : SetLocked a i b db = Ok (tt, db') -> db_ok db -> db_ok db'.
Proof. unfold SetLocked. intros E Hok. inv_op. by eapply updateUser_ok. Qed.

Lemma BootstrapSysop_ok h db u db' : BootstrapSysop h db = Ok (u, db') -> db_ok db -> db_ok db'.
Proof. unfold BootstrapSysop. intros E Hok. inv_op. by eapply updateUser_ok. Qed.

Lemma ValidateUser_ok a i db db' : ValidateUser a i db = Ok (tt, db') -> db_ok db -> db_ok db'.
Proof. unfold ValidateUser. intros E Hok. inv_op. by eapply updateUser_ok. Qed.

Lemma Block_ok u b db db' : Block u b db = Ok (tt, db') -> db_ok db -> db_ok db'.
Proof.
  unfold Block. intros E Hok. inv_op. bool_prop. case_match eqn:Ex; inv_op; [done|]. case_match; inv_op.
  apply existsb_false in Ex. apply frame_blocks; [done|]. destruct (ok_blocks _ Hok) as [Hn Hr]. constructor.
  - apply NoDup_app. split; [done|]. split; [|apply NoDup_singleton]. intros x Hx ->%list_elem_of_singleton.
    rewrite Forall_forall in Ex. specialize (Ex _ Hx). by bool_prop.
  - apply Forall_app. split; [done|]. constructor; [|constructor]. cbn. repeat split; [..|done]; by eapply refers_row.
Qed.

Lemma Unblock_ok u b db : db_ok db -> db_ok (Unblock u b db).
Proof.
  intros Hok. apply frame_blocks; [done|]. destruct (ok_blocks _ Hok) as [Hn Hr].
  constructor; [by apply NoDup_filter|by apply Forall_filter_keep].
Qed.

Lemma AddSSHKey_ok now u f k c db r db' : AddSSHKey now u f k c db = Ok (r, db') -> db_ok db -> db_ok db'.
Proof.
  unfold AddSSHKey. intros E Hok. inv_op. bool_prop. case_match; inv_op.
  match goal with H : existsb _ _ = false |- _ => apply existsb_false in H as Hf end.
  apply frame_keys; [done|]. destruct (ok_keys _ Hok) as [Kt Ku Kr Kb]. constructor.
  - by apply table_ok_insert.
  - apply unique_insert; [done|]. eapply Forall_impl; [exact Hf|]. cbn. intros y Hy. by bool_prop.
  - apply Forall_app. split; [done|]. constructor; [|constructor]. by eapply refers_row.
  - intros v. rewrite count_app, count_one. cbn [k_user]. specialize (Kb v).
    destruct (Z.eqb_spec u v) as [<-|]; lia.
Qed.

Lemma DeleteSSHKey_ok u k db db' : DeleteSSHKey u k db = Ok (tt, db') -> db_ok db -> db_ok db'.
Proof.
  unfold DeleteSSHKey. intros E Hok. case_match; [|done]. inv_op. apply frame_keys; [done|].
  destruct (ok_keys _ Hok) as [Kt Ku Kr Kb]. constructor; [by apply table_ok_delete|by apply unique_delete|by apply Forall_filter_keep|].
  intros v. etransitivity; [apply count_delete_le|apply Kb].
Qed.

Lemma drop_pending_ok i db : db_ok db -> db_ok (drop_pending i db).
Proof.
  intros Hok. apply frame_verifications; [done|]. destruct (ok_verifications _ Hok).
  constructor; [by apply unique_delete|by apply Forall_filter_keep].
Qed.

Lemma StartEmailVerification_ok now n u a db c db' :
  StartEmailVerification now n u a db = Ok (c, db') -> db_ok db -> db_ok db'.
Proof.
  unfold StartEmailVerification. intros E Hok. inv_op. case_match eqn:Er; inv_op.
  apply frame_verifications; [done|]. destruct (ok_verifications _ Hok) as [Hu Hr].
  apply refers_row in Er. unfold upsert_verification. set (v := MkVerification _ _ _ _ _).
  destruct (existsb _ _) eqn:Ex.
  - constructor.
    + unfold unique in *. assert (v_user <$> update_where (fun x => v_user x =? v_user v) (fun _ => v) (verifications db)
                          = v_user <$> verifications db) as ->; [|done].
      unfold update_where. rewrite <-list_fmap_compose. apply list_fmap_ext. intros _ y _. cbn.
      by destruct (Z.eqb_spec (v_user y) u).
    + apply Forall_update; [done|]. intros _ _ _. unfold maxEmailCodeTries. cbn. split; [done|lia].
  - apply existsb_false in Ex. constructor.
    + apply unique_insert; [done|]. eapply Forall_impl; [exact Ex|]. cbn. intros y Hy. by bool_prop.
    + apply Forall_app. split; [done|]. constructor; [|constructor]. unfold maxEmailCodeTries. cbn. split; [done|lia].
Qed.

Lemma ConfirmEmail_ok now u c db : db_ok db -> db_ok (snd (ConfirmEmail now u c db)).
Proof.
  intros Hok. unfold ConfirmEmail, pending_of. destruct (row_by _ _) as [v|] eqn:Ev; [|done].
  apply row_by_Some in Ev as [Hin Hv]. destruct (_ || _) eqn:Ee; [by apply drop_pending_ok|]. bool_prop.
  destruct (negb _) eqn:Ec; cbn [snd].
  - apply frame_verifications; [done|]. destruct (ok_verifications _ Hok) as [Hu Hr].
    constructor; [by apply unique_update|]. rewrite Forall_forall in Hr |- *. intros x (y & Hy & Hcase)%elem_update.
    specialize (Hr y Hy) as Hry. destruct Hcase as [[-> Hp]|[-> _]]; [|done]. bool_prop. cbn.
    assert (y = v) as ->; [|split; [apply Hry|lia]].
    eapply (unique_elem v_user); [exact Hu|done|done|congruence].
  - destruct (existsb _ (users db)) eqn:Ex; [by apply drop_pending_ok|]. apply existsb_false in Ex.
    destruct (getUser _ _); cbn [snd]; [|done]. apply drop_pending_ok.
    apply frame_users; [done|by apply fmap_update|]. apply users_email; [apply Hok|].
    eapply Forall_impl; [exact Ex|]. cbn. intros x Hx _ He. rewrite bool_decide_eq_true_2 in Hx by done.
    cbn [andb] in Hx. by bool_prop.
Qed.

Lemma SetEmailMode_ok u m db r db' : SetEmailMode u m db = Ok (r, db') -> db_ok db -> db_ok db'.
Proof. unfold SetEmailMode. intros E Hok. inv_op. by apply frame_update_user. Qed.

Lemma RemoveEmail_ok u db : db_ok db -> db_ok (snd (RemoveEmail u db)).
Proof.
  intros Hok. apply (drop_pending_ok u) in Hok. unfold RemoveEmail. cbn [snd]. set (db1 := drop_pending u db) in *. clearbody db1.
  apply frame_users; [done|by apply fmap_update|]. apply (users_email _ _ [] (fun _ => 0)); [apply Hok|].
  by apply Forall_true.
Qed.

Lemma messages_delete u d ms :
  mail_ok u ms -> 
  mail_ok (filter (fun i => i <> d) u)
    (delete_where (fun m => m_del_from m && m_del_to m)
      (update_where (fun m => m_from m =? d) (fun m => with_deleted true (m_del_to m) m)
        (delete_where (fun m => m_to m =? d) ms))).
Proof.
  intros Hm. apply (mail_filter _ _ (fun m => m_to m =? d)) in Hm. eapply mail_delete; [exact Hm|done..| |].
  - intros m [Hd _]%elem_of_delete _ Hr _. bool_prop. by apply list_elem_of_filter.
  - intros m _ _ Hr [Hp|Hp]; [|done]. bool_prop. by apply list_elem_of_filter.
Qed.

Lemma DeleteUser_ok a i db db' : DeleteUser a i db = Ok (tt, db') -> db_ok db -> db_ok db'.
Proof.
  unfold DeleteUser. intros E Hok. inv_op. bool_prop. destruct Hok.
  pose proof (without_delete u_id i (users db)) as Hw.
  constructor; cbn [delete_user_row on_users on_blocks on_messages on_board_reads on_verifications on_ssh_keys on_echo_reads
    on_netmail on_file_reads users blocks messages boards posts board_reads bulletins oneliners events
    verifications ssh_keys echo_areas echo_messages echo_reads tossed netmail file_areas files file_reads]; try done.
  - eapply users_delete; eauto.
  - by eapply blocks_delete.
  - eapply mail_mono; [|by eapply messages_delete]. intros j [Hj Hin]%list_elem_of_filter. by apply Hw.
  - eapply boards_reads; [done|]. eapply reads_delete; [exact Hw|]. apply ok_boards.
  - destruct ok_verifications. constructor; [by apply unique_delete|]. eapply Forall_delete; [exact vf_refs|].
    intros v [? ?] ?. bool_prop. split; [by apply Hw|done].
  - destruct ok_keys as [Kt Ku Kr Kb]. constructor; [by apply table_ok_delete|by apply unique_delete| |].
    + eapply Forall_delete; [exact Kr|]. intros k ? ?. bool_prop. by apply Hw.
    + intros v. etransitivity; [apply count_delete_le|apply Kb].
  - destruct ok_echo. constructor; try done. by eapply reads_delete.
  - destruct ok_netmail. constructor; [by apply table_ok_update|by apply unique_update| |unfold update_where; by rewrite len_fmap].
    apply Forall_forall. intros n (y & Hy & Hcase)%elem_update. rewrite Forall_forall in nm_refs.
    destruct Hcase as [[-> _]|[-> Hp]]; [done|]. intros j Hj. apply Hw; [by eapply nm_refs|]. bool_prop. congruence.
  - destruct ok_files. constructor; try done. by eapply reads_delete.
Qed.

(** ** Mail *)

Lemma messageThread_pos db f r : db_ok db -> 0 <= fst (messageThread db f r).
Proof.
  intros Hok. unfold messageThread. destruct (r =? 0); [done|]. destruct (row_by _ _) as [m|] eqn:E; [|done].
  apply row_by_Some in E as [Hin _]. destruct (ok_mail _ Hok). rewrite Forall_forall in ml_thread.
  specialize (ml_thread m Hin). cbn. lia.
Qed.

Lemma SendMessage_ok now f t s b r db m db' : SendMessage now f t s b r db = Ok (m, db') -> db_ok db -> db_ok db'.
Proof.
  unfold SendMessage. intros E Hok. inv_op. bool_prop. apply frame_messages; [done|].
  pose proof (messageThread_pos db f r Hok) as Ht. match goal with H : messageThread _ _ _ = _ |- _ => rewrite H in Ht end. cbn in Ht.
  apply mail_insert; cbn; try done; [apply Hok|by eapply refers_row..|].
  destruct (next_id_bound m_id (messages db)). case_match; bool_prop; lia.
Qed.

Lemma MarkRead_ok now m u db db' : MarkRead now m u db = Ok (tt, db') -> db_ok db -> db_ok db'.
Proof.
  unfold MarkRead. intros E Hok. repeat case_match; inv_op; [|done]. apply frame_messages; [done|]. apply mail_read, Hok.
Qed.

Lemma DeleteMessage_ok m u db db' : DeleteMessage m u db = Ok (tt, db') -> db_ok db -> db_ok db'.
Proof.
  unfold DeleteMessage. intros E Hok. case_match; inv_op. set (mine := fun x => _ && visibleTo u x) in *. set (f := fun x => with_deleted _ _ x).
  assert (mail_ok (uids db) (delete_where (fun x => (m_id x =? m) && m_del_from x && m_del_to x)
            (update_where mine f (messages db)))) as Hm.
  { eapply mail_delete; [apply Hok|done|..].
    - cbn. by intros x [? _]%orb_false_elim.
    - cbn. by intros x [? _]%orb_false_elim.
    - intros x [Hx _]%andb_prop. cbn. by rewrite Hx.
    - done.
    - done. }
  revert Hm. destruct Hok. by constructor.
Qed.

(** ** Boards, bulletins, oneliners, the log *)

Lemma CreateBoard_ok now a n d s db b db' : CreateBoard now a n d s db = Ok (b, db') -> db_ok db -> db_ok db'.
Proof.
  unfold CreateBoard. intros E Hok. inv_op. bool_prop.
  match goal with H : existsb _ _ = false |- _ => apply existsb_false in H as Hf end.
  apply frame_boards; [done|]. apply boards_insert; [apply Hok|done|].
  eapply Forall_impl; [exact Hf|]. cbn. intros y Hy. by bool_prop.
Qed.

Lemma sysopDelete_Ok {R} (rid : R -> Z) rows on_rows a i db db' :
  sysopDelete rid rows on_rows a i db = Ok (tt, db') ->
  (exists u, row u_id (users db) a = Some u /\ u_sysop u = true) /\ is_Some (row rid (rows db) i)
  /\ db' = on_rows (delete_where (fun r => rid r =? i)) db.
Proof. unfold sysopDelete. intros E. inv_op. eauto. Qed.

Lemma DeleteBoard_ok a i db db' : DeleteBoard a i db = Ok (tt, db') -> db_ok db -> db_ok db'.
Proof.
  unfold DeleteBoard. intros E Hok. inv_op.
  match goal with H : sysopDelete _ _ _ _ _ _ = _ |- _ => apply sysopDelete_Ok in H as (_ & _ & ->) end.
  pose proof (boards_delete _ _ _ _ i (ok_boards _ Hok)) as Hb. destruct Hok. by constructor.
Qed.

Lemma post_thread_pos db b r : db_ok db -> 0 <= fst (post_thread db b r).
Proof.
  intros Hok. unfold post_thread. destruct (r =? 0); [done|]. destruct (row_by _ _) as [p|] eqn:E; [|done].
  apply row_by_Some in E as [Hin _]. destruct (ok_boards _ Hok) as [_ _ _ Hr _]. rewrite Forall_forall in Hr.
  destruct (Hr p Hin). cbn. lia.
Qed.

Lemma AddPost_ok now b a s t r db p db' : AddPost now b a s t r db = Ok (p, db') -> db_ok db -> db_ok db'.
Proof.
  unfold AddPost. intros E Hok. inv_op. apply frame_posts; [done|].
  pose proof (post_thread_pos db b r Hok) as Ht. match goal with H : post_thread _ _ _ = _ |- _ => rewrite H in Ht end. cbn in Ht.
  apply boards_post; cbn; [apply Hok|done|by eapply refers_row|].
  destruct (next_id_bound p_id (posts db)). case_match; bool_prop; lia.
Qed.

Lemma DeletePost_ok p u db db' : DeletePost p u db = Ok (tt, db') -> db_ok db -> db_ok db'.
Proof. unfold DeletePost. intros E Hok. inv_op. apply frame_posts; [done|]. apply boards_delete_post, Hok. Qed.

Lemma MarkBoardRead_ok u b p db db' : MarkBoardRead u b p db = Ok (tt, db') -> db_ok db -> db_ok db'.
Proof.
  unfold MarkBoardRead. intros E Hok. repeat case_match; inv_op. apply frame_board_reads; [done|].
  eapply boards_reads; [apply Hok|]. apply reads_upsert; [apply Hok|by eapply refers_row..].
Qed.

Lemma AddBulletin_ok now a t b db r db' : AddBulletin now a t b db = Ok (r, db') -> db_ok db -> db_ok db'.
Proof.
  unfold AddBulletin. intros E Hok. inv_op. apply frame_bulletins; [done|]. apply table_ok_insert; [apply Hok|done].
Qed.

Lemma DeleteBulletin_ok a i db db' : DeleteBulletin a i db = Ok (tt, db') -> db_ok db -> db_ok db'.
Proof. intros (_ & _ & ->)%sysopDelete_Ok Hok. apply frame_bulletins; [done|]. apply table_ok_delete, Hok. Qed.

Lemma AddOneliner_ok now a t db r db' : AddOneliner now a t db = Ok (r, db') -> db_ok db -> db_ok db'.
Proof.
  unfold AddOneliner. intros E Hok. inv_op. apply frame_oneliners; [done|]. apply table_ok_insert; [apply Hok|done].
Qed.

Lemma DeleteOneliner_ok a i db db' : DeleteOneliner a i db = Ok (tt, db') -> db_ok db -> db_ok db'.
Proof. intros (_ & _ & ->)%sysopDelete_Ok Hok. apply frame_oneliners; [done|]. apply table_ok_delete, Hok. Qed.

Lemma LogEvent_ok now k u h i d db : db_ok db -> db_ok (LogEvent now k u h i d db).
Proof.
  intros Hok. unfold LogEvent. cbn [on_events events].
  pose proof (events_bound (events db) (MkEvent (next_id e_id (events db)) now k u h i d)) as Hb.
  destruct Hok. destruct ok_wall as [W1 W2 W3 W4]. specialize (Hb W3 eq_refl). cbn zeta in Hb.
  constructor; try done. constructor; try done; first [apply Hb | by intros; apply Hb].
Qed.

(** ** FidoNet *)

Lemma ensureEchoArea_ok tag now db i db' :
  ensureEchoArea tag now db = (i, db') -> db_ok db ->
  db_ok db' /\ refers (a_id <$> echo_areas db') i /\ echo_messages db' = echo_messages db.
Proof.
  unfold ensureEchoArea. intros E Hok. destruct (row_by _ _) as [a|] eqn:Er; injection E as <- <-.
  - apply row_by_Some in Er as [Hin _]. split_and!; [done| |done]. by apply list_elem_of_fmap_2.
  - split_and!; [| |done].
    + apply frame_echo_areas; [done|]. apply echo_area_insert; [apply Hok|done|]. cbn.
      apply Forall_forall. intros x Hx Ht. apply find_none with (x := x) in Er; [|by apply list_elem_of_In]. by bool_prop.
    + cbn. apply list_elem_of_fmap. exists (MkArea (next_id a_id (echo_areas db)) tag [] now).
      split; [done|]. apply elem_of_app. right. by apply list_elem_of_singleton.
Qed.

Lemma ImportEcho_ok now m db : db_ok db -> db_ok (snd (ImportEcho now m db)).
Proof.
  intros Hok. unfold ImportEcho. destruct (_ || _ || _); [done|]. destruct (existsb _ _) eqn:Ex; [done|].
  apply existsb_false in Ex. destruct (ensureEchoArea _ _ _) as [i db1] eqn:Ea.
  apply ensureEchoArea_ok in Ea as (Hok1 & Hi & Em); [|done]. cbn [snd].
  set (e := MkEcho _ _ _ _ _ _ _ _ _). set (db2 := on_echo_messages (fun l => l ++ [e]) db1).
  destruct (ok_echo _ Hok1) as [E1 E2 E3 E4 E5 E6 E7].
  assert (echo_ok (uids db1) (echo_areas db1) (echo_messages (pruneEchoArea i db2)) (echo_reads db1)) as He.
  { apply echo_prune with (ms := echo_messages db1 ++ [e]); try done.
    - by apply table_ok_insert.
    - apply unique_insert; [done|]. rewrite Em. eapply Forall_impl; [exact Ex|]. cbn. intros y Hy. by bool_prop.
    - apply Forall_app. split; [done|]. by constructor; [|constructor].
    - intros a Ha. rewrite count_app, count_one. cbn [em_area e]. specialize (E6 a). destruct (Z.eqb_spec i a); [congruence|lia]. }
  assert (exists f, pruneEchoArea i db2 = on_echo_messages f db2) as [f Ef].
  { unfold pruneEchoArea. destruct (_ <=? _); [|by eexists]. exists (fun l => l). by destruct db2. }
  rewrite Ef in He |- *. revert He. destruct Hok1. by constructor.
Qed.

Lemma MarkEchoRead_ok u a m db db' : MarkEchoRead u a m db = Ok (tt, db') -> db_ok db -> db_ok db'.
Proof.
  unfold MarkEchoRead. intros E Hok. repeat case_match; inv_op. apply frame_echo_reads; [done|].
  destruct (ok_echo _ Hok). constructor; try done. apply reads_upsert; [done|by eapply refers_row..].
Qed.

Lemma MarkFTNFile_ok now sm n db : db_ok db -> db_ok (MarkFTNFile now sm n db).
Proof.
  intros Hok. unfold MarkFTNFile, FTNFileSeen. case_match eqn:Ex; [done|]. apply existsb_false in Ex.
  apply frame_tossed; [done|]. apply unique_insert; [apply Hok|]. eapply Forall_impl; [exact Ex|]. cbn.
  intros y Hy. by bool_prop.
Qed.

Lemma insertNetmail_ok now n db b db' : insertNetmail now n db = Ok (b, db') -> db_ok db -> db_ok db'.
Proof.
  unfold insertNetmail. intros E Hok. destruct (existsb _ _) eqn:Ex; inv_op; [done|]. apply existsb_false in Ex.
  apply frame_netmail; [done|]. apply netmail_insert; cbn; [apply Hok|done| |].
  - eapply Forall_impl; [exact Ex|]. cbn. intros y Hy. by bool_prop.
  - intros a Ha. rewrite Ha in *. bool_prop. match goal with H : is_Some _ |- _ => destruct H end. by eapply refers_row.
Qed.

Lemma ImportNetmail_ok now m db r db' : ImportNetmail now m db = Ok (r, db') -> db_ok db -> db_ok db'.
Proof. unfold ImportNetmail. intros E Hok. case_match; inv_op; [done|]. by eapply insertNetmail_ok. Qed.

Lemma RecordSentNetmail_ok now n db r db' : RecordSentNetmail now n db = Ok (r, db') -> db_ok db -> db_ok db'.
Proof. unfold RecordSentNetmail. intros E Hok. inv_op. by eapply insertNetmail_ok. Qed.

Lemma MarkNetmailRead_ok now i db : db_ok db -> db_ok (MarkNetmailRead now i db).
Proof.
  intros Hok. apply frame_netmail; [done|]. destruct (ok_netmail _ Hok).
  constructor; [by apply table_ok_update|by apply unique_update|by apply Forall_update|unfold update_where; by rewrite len_fmap].
Qed.

Lemma ensureFileArea_ok now tag desc db i db' :
  ensureFileArea now tag desc db = (i, db') -> db_ok db ->
  db_ok db' /\ refers (a_id <$> file_areas db') i /\ files db' = files db.
Proof.
  unfold ensureFileArea. intros E Hok. destruct (row_by _ _) as [a|] eqn:Er.
  - apply row_by_Some in Er as [Hin _]. case_match; injection E as <- <-.
    + split_and!; [done| |done]. by apply list_elem_of_fmap_2.
    + set (f := fun x => MkArea _ _ _ _). set (p := fun x => _ && _). split_and!; [| |done].
      * apply frame_file_areas; [done|]. destruct (ok_files _ Hok).
        assert (a_id <$> update_where p f (file_areas db) = a_id <$> file_areas db) as Ei by by apply fmap_update.
        constructor; try done; [by apply table_ok_update|by apply unique_update|rewrite Ei; done..].
      * cbn. rewrite (fmap_update a_id p f) by done. by apply list_elem_of_fmap_2.
  - injection E as <- <-. split_and!; [| |done].
    + apply frame_file_areas; [done|]. apply files_area_insert; [apply Hok|done|]. cbn.
      apply Forall_forall. intros x Hx Ht. apply find_none with (x := x) in Er; [|by apply list_elem_of_In]. by bool_prop.
    + cbn. apply list_elem_of_fmap. exists (MkArea (next_id a_id (file_areas db)) tag (Clean desc MaxSubjectLen) now).
      split; [done|]. apply elem_of_app. right. by apply list_elem_of_singleton.
Qed.

Lemma AddFile_ok now t d f db o db' : AddFile now t d f db = Ok (o, db') -> db_ok db -> db_ok db'.
Proof.
  unfold AddFile. intros E Hok. inv_op. bool_prop.
  match goal with H : ensureFileArea _ _ _ _ = _ |- _ => apply ensureFileArea_ok in H as (Hok1 & Hi & _); [|done] end.
  match goal with H : existsb _ _ = false |- _ => apply existsb_false in H as Hf end.
  match type of Hf with Forall _ (files ?x) => set (db2 := x) in * end.
  assert (db_ok db2 /\ file_areas db2 = file_areas d0) as [Hok2 Ea].
  { unfold db2. case_match; [done|]. split; [|done]. apply frame_files; [done|]. apply files_filter, Hok1. }
  apply frame_files; [done|]. apply files_insert; cbn; [apply Hok2|done|by rewrite Ea|done].
Qed.

Lemma RemoveFile_ok t n db p db' : RemoveFile t n db = Ok (p, db') -> db_ok db -> db_ok db'.
Proof. unfold RemoveFile. intros E Hok. inv_op. apply frame_files; [done|]. apply files_filter, Hok. Qed.

Lemma MarkFilesSeen_ok u a f db db' : MarkFilesSeen u a f db = Ok (tt, db') -> db_ok db -> db_ok db'.
Proof.
  unfold MarkFilesSeen. intros E Hok. repeat case_match; inv_op. apply frame_file_reads; [done|].
  destruct (ok_files _ Hok). constructor; try done. apply reads_upsert; [done|by eapply refers_row..].
Qed.

Lemma CountDownload_ok i db : db_ok db -> db_ok (CountDownload i db).
Proof.
  intros Hok. apply frame_files; [done|]. destruct (ok_files _ Hok).
  constructor; try done; [by apply table_ok_update|by apply unique_update|by apply Forall_update].
Qed.

Lemma step_ok db db' : step cfg db db' -> db_ok db -> db_ok db'.
Proof.
  destruct 1; eauto using CreateUser_ok, RecordLogin_ok, ChangePassword_ok, ResetPassword_ok, SetLocation_ok, SetSysop_ok,
    SetLocked_ok, BootstrapSysop_ok, ValidateUser_ok, DeleteUser_ok, Block_ok, Unblock_ok, AddSSHKey_ok, DeleteSSHKey_ok,
    StartEmailVerification_ok, ConfirmEmail_ok, SetEmailMode_ok, RemoveEmail_ok, SendMessage_ok, MarkRead_ok, DeleteMessage_ok,
    CreateBoard_ok, DeleteBoard_ok, AddPost_ok, DeletePost_ok, MarkBoardRead_ok, AddBulletin_ok, DeleteBulletin_ok,
    AddOneliner_ok, DeleteOneliner_ok, LogEvent_ok, frame_hits, ImportEcho_ok, MarkEchoRead_ok, MarkFTNFile_ok,
    ImportNetmail_ok, RecordSentNetmail_ok, MarkNetmailRead_ok, AddFile_ok, RemoveFile_ok, MarkFilesSeen_ok, CountDownload_ok.
Qed.

Lemma fresh_ok : db_ok fresh_db.
Proof.
  assert (forall u, reads_ok u [] []) as Hr by (constructor; [constructor|constructor]).
  constructor; cbn; repeat match goal with |- _ /\ _ => split | |- _ => constructor end; cbn; try done; try lia;
    try (unfold table_ok, unique; cbn; repeat constructor; set_solver); try (intros; unfold count_where; cbn; done).
Qed.

End ops.

(** C1: The database is well formed in every reachable state: whatever operations ran, with whatever
    outcome, ids are positive, increasing and unique; handle keys are derived from the handles and
    handles, confirmed addresses, board names, key fingerprints, message ids and area tags are unique; there is
    a sysop as soon as there is a user and every sysop is validated; every letter, block, post, key,
    verification, read mark, echo message and file refers to rows that exist; no inbox exceeds
    [MaxInbox], no user [MaxSSHKeys], no area [MaxEchoMessages], the netmail table [MaxNetmailKept], the log
    [maxEvents] rows, and no pending code has been tried more than [maxEmailCodeTries] times. *)
Theorem reachable_ok `{UnicodeTables} `{Crypto} `{MailParser} (cfg : Config) (db : DB) :
  reachable cfg db -> db_ok db.
Proof. induction 1; [apply fresh_ok|by eapply step_ok]. Qed.

Lemma reachable_ok_witness : len (users demo_db) = 3 /\ len (messages demo_db) = 2 /\ db_ok demo_db.
Proof. split; [vm_compute; reflexivity|]. split; [vm_compute; reflexivity|]. apply (reachable_ok demo_cfg), demo_reachable. Defined.
