(* ===== verification/StoreMailSpec.v ===== *)
(** * What private mail promises

    Mailboxes as users see them: every user has an inbox and an outbox of
    letters.  The rows with their two deletion flags implement them: each
    operation on mail is refused or does what the operation of that name does
    to the mailboxes ([mail_refused], [mail_effect]), and nothing else touches them. *)

From Stdlib Require Import Ascii String ZArith Lia Sorted.
From stdpp Require Import base tactics list gmap strings sorting.
From S2P Require Import Prelude GoStrings GoTime Term StoreDB StoreUsers StoreMail StoreBoards StoreEcho StoreInv StoreDemo StoreOk.
From S2P Require FtnAddr FtnMessage.
Open Scope Z_scope.

(** ** The specification *)

Record mailbox := MkBox { box_in : list MessageRow; box_out : list MessageRow }.

(** A letter as its readers see it: without the flags of the two copies. *)
Definition letter (m : MessageRow) : MessageRow := with_deleted false false m.

Definition boxes (db : DB) (u : Z) : mailbox := MkBox (letter <$> Inbox u db) (letter <$> Outbox u db).

Definition map_box (f : list MessageRow -> list MessageRow) (b : mailbox) : mailbox := MkBox (f (box_in b)) (f (box_out b)).

Definition has_id (i : Z) (ms : list MessageRow) : bool := existsb (fun m => m_id m =? i) ms.
Definition holds (i : Z) (b : mailbox) : bool := has_id i (box_in b) || has_id i (box_out b).

Definition spec_send (m : MessageRow) (bs : Z -> mailbox) (u : Z) : mailbox :=
  MkBox (box_in (bs u) ++ if m_to m =? u then [m] else []) (box_out (bs u) ++ if m_from m =? u then [m] else []).

(** The reader's own copies go, nobody else's. *)
Definition spec_delete (i u : Z) (bs : Z -> mailbox) (v : Z) : mailbox :=
  if v =? u then map_box (delete_where (fun m => m_id m =? i)) (bs v) else bs v.

(** A letter that is opened is read for its sender too; the first time counts. *)
Definition spec_read (now i : Z) (bs : Z -> mailbox) (v : Z) : mailbox :=
  map_box (update_where (fun m => (m_id m =? i) && (m_read m =? 0)) (with_read now)) (bs v).

(** The account [d] goes with its mailbox; letters to it leave the outboxes, letters from it stay in
    the inboxes. *)
Definition spec_forget (d : Z) (bs : Z -> mailbox) (v : Z) : mailbox :=
  if v =? d then MkBox [] [] else MkBox (box_in (bs v)) (delete_where (fun m => m_to m =? d) (box_out (bs v))).

(** The operations on mail, and what they return besides the database: the letter that was sent. *)
Inductive mail_op :=
  | MSend (now from to : Z) (subject body : bytes) (reply : Z)
  | MRead (now i u : Z)
  | MDelete (i u : Z)
  | MForget (actor d : Z).

Definition mail_do `{UnicodeTables} (o : mail_op) : op (option MessageRow) := fun db =>
  match o with
  | MSend now f t s b r => '(m, db') ← SendMessage now f t s b r db; Ok (Some m, db')
  | MRead now i u => '(_, db') ← MarkRead now i u db; Ok (None, db')
  | MDelete i u => '(_, db') ← DeleteMessage i u db; Ok (None, db')
  | MForget a d => '(_, db') ← DeleteUser a d db; Ok (None, db')
  end.

(** Why an operation on the mailboxes [bs] is refused, if it is; the accounts and who blocks whom are those of [db]. *)
Definition mail_refused `{UnicodeTables} (db : DB) (bs : Z -> mailbox) (o : mail_op) : option store_error :=
  let account i := find (fun u => u_id u =? i) (users db) in
  match o with
  | MSend _ f t s b _ =>
      match cleanLetter s b, account f, account t with
      | Err e, _, _ => Some e
      | _, Some sender, Some recipient =>
          if negb (u_validated sender) && negb (u_sysop recipient) then Some ErrNotValidated
          else if negb (u_sysop sender) && bool_decide ((t, f) ∈ blocks db) then Some ErrBlocked
          else if MaxInbox <=? len (box_in (bs t)) then Some ErrMailboxFull
          else None
      | _, _, _ => Some ErrNotFound
      end
  | MRead _ i u => if has_id i (box_in (bs u)) then None else Some ErrNotFound
  | MDelete i u => if holds i (bs u) then None else Some ErrNotFound
  | MForget a d =>
      if a =? d then Some ErrForbidden
      else
        match account a, account d with
        | None, _ => Some ErrNotFound
        | Some actor, other => if negb (u_sysop actor) then Some ErrForbidden else match other with Some _ => None | None => Some ErrNotFound end
        end
  end.

(** The letter that is answered, if the sender still has it. *)
Definition parent (reply : Z) (b : mailbox) : option MessageRow :=
  if reply =? 0 then None else find (fun m => m_id m =? reply) (box_in b ++ box_out b).

(** A new letter, unread, in the thread of the one that it answers or in a thread of its own. *)
Definition new_letter (id now from to : Z) (subject body : bytes) (reply : Z) (b : mailbox) : MessageRow :=
  match parent reply b with
  | Some p => MkMsg id from to (m_thread p) reply subject body now 0 false false
  | None => MkMsg id from to id 0 subject body now 0 false false
  end.

(** What an operation that is not refused returns, and the mailboxes after it. *)
Definition mail_effect `{UnicodeTables} (o : mail_op) (bs : Z -> mailbox) (r : option MessageRow) (bs' : Z -> mailbox) : Prop :=
  match o with
  | MSend now f t s b reply => exists id subject body,
      (forall v, holds id (bs v) = false) /\ cleanLetter s b = Ok (subject, body)
      /\ let m := new_letter id now f t subject body reply (bs f) in r = Some m /\ forall v, bs' v = spec_send m bs v
  | MRead now i u => r = None /\ forall v, bs' v = spec_read now i bs v
  | MDelete i u => r = None /\ forall v, bs' v = spec_delete i u bs v
  | MForget _ d => r = None /\ forall v, bs' v = spec_forget d bs v
  end.

(** * Lemmas *)

Lemma select_fmap {R} (p : R -> bool) (f : R -> R) l : (forall r, p (f r) = p r) -> select_where p (f <$> l) = f <$> select_where p l.
Proof.
  intros Hf. induction l as [|r l IH]; [done|]. unfold select_where in *. rewrite fmap_cons, !filter_cons, Hf.
  case_decide; [|exact IH]. rewrite fmap_cons. by f_equal.
Qed.

Lemma delete_fmap {R} (p : R -> bool) (f : R -> R) l : (forall r, p (f r) = p r) -> delete_where p (f <$> l) = f <$> delete_where p l.
Proof.
  intros Hf. induction l as [|r l IH]; [done|]. unfold delete_where in *. rewrite fmap_cons, !filter_cons, Hf.
  case_decide; [|exact IH]. rewrite fmap_cons. by f_equal.
Qed.

Lemma has_id_letter i ms : has_id i (letter <$> ms) = has_id i ms.
Proof. induction ms as [|m ms IH]; [done|]. unfold has_id in *. cbn. by rewrite IH. Qed.

(** What a mailbox is after the rows changed: a row is looked at once. *)
Lemma select_update (p q : MessageRow -> bool) f g ms :
  Forall (fun m => p (if q m then f m else m) = p m /\ (p m = true -> letter (if q m then f m else m) = g (letter m))) ms ->
  letter <$> select_where p (update_where q f ms) = g <$> (letter <$> select_where p ms).
Proof.
  induction 1 as [|m ms [Hp Hg] _ IH]; [done|]. unfold update_where, select_where in *. rewrite fmap_cons, !filter_cons, Hp.
  case_decide as E; [|exact IH]. rewrite !fmap_cons, Hg by done. by f_equal.
Qed.

Lemma select_delete_update (p q d r : MessageRow -> bool) f ms :
  Forall (fun m => let m' := if q m then f m else m in
                   negb (d m') && p m' = p m && negb (r (letter m)) /\ (p m = true -> r (letter m) = false -> letter m' = letter m)) ms ->
  letter <$> select_where p (delete_where d (update_where q f ms)) = delete_where r (letter <$> select_where p ms).
Proof.
  induction 1 as [|m ms [Hp Hg] _ IH]; [done|]. unfold update_where, select_where, delete_where in *. cbn zeta in *.
  rewrite fmap_cons, !filter_cons. set (m' := if q m then f m else m) in *.
  destruct (d m') eqn:Ed; cbn [negb andb] in Hp.
  - rewrite decide_False by done. destruct (p m) eqn:Ep; [|by rewrite decide_False].
    rewrite decide_True, fmap_cons, filter_cons by done. destruct (r (letter m)); [|done]. by rewrite decide_False.
  - rewrite decide_True, filter_cons by done. rewrite Hp. destruct (p m) eqn:Ep; cbn [andb]; [|by rewrite !decide_False].
    rewrite (decide_True (P := true = true)), fmap_cons, filter_cons by done. destruct (r (letter m)) eqn:Er; cbn [negb].
    + by rewrite !decide_False.
    + rewrite !decide_True, fmap_cons by done. rewrite Hg by done. by f_equal.
Qed.

Lemma delete_ext {R} (p q : R -> bool) l : (forall r, r ∈ l -> p r = q r) -> delete_where p l = delete_where q l.
Proof.
  intros H. unfold delete_where. induction l as [|r l IH]; [done|]. rewrite !filter_cons.
  rewrite (H r) by apply list_elem_of_here. rewrite IH; [done|]. intros x Hx. apply H. by right.
Qed.

(** The flags of a row decide, whoever looks at it. *)
Ltac row_cases := cbn zeta; intros [id from to th re subj body sent rd df dt]; unfold in_inbox, in_outbox, visibleTo, letter, with_deleted; cbn;
  repeat match goal with |- context [Z.eqb ?x ?y] => destruct (Z.eqb_spec x y); cbn end;
  destruct df, dt; cbn; first [done|congruence|intuition congruence].

Section mail_spec.
Context `{UnicodeTables}.
Implicit Types db : DB.

Lemma letter_eq f t m m' : letter m' = letter m -> letter (with_deleted f t m') = letter m.
Proof. done. Qed.

Lemma has_id_select i p (ms : list MessageRow) : has_id i (letter <$> select_where p ms) = existsb (fun m => (m_id m =? i) && p m) ms.
Proof.
  rewrite has_id_letter. unfold has_id, select_where. induction ms as [|m ms IH]; [done|]. rewrite filter_cons.
  case_decide as E; cbn; rewrite IH; [by rewrite E, andb_true_r|]. destruct (p m); [done|]. by rewrite andb_false_r.
Qed.

Lemma existsb_orb {R} (p q : R -> bool) l : existsb p l || existsb q l = existsb (fun r => p r || q r) l.
Proof. induction l as [|r l IH]; [done|]. cbn. rewrite <-IH. by destruct (p r), (q r), (existsb p l). Qed.

Lemma existsb_ext_eq {R} (p q : R -> bool) l : (forall r, p r = q r) -> existsb p l = existsb q l.
Proof. intros E. induction l as [|r l IH]; [done|]. cbn. by rewrite E, IH. Qed.

Lemma holds_visible i u db : holds i (boxes db u) = existsb (fun m => (m_id m =? i) && visibleTo u m) (messages db).
Proof.
  unfold holds, boxes. cbn [box_in box_out]. unfold Inbox, Outbox. rewrite !has_id_select, existsb_orb.
  apply existsb_ext_eq. intros m. unfold visibleTo, in_inbox, in_outbox. by rewrite andb_orb_distrib_r.
Qed.

Lemma has_inbox i u db : has_id i (box_in (boxes db u)) = existsb (fun m => (m_id m =? i) && in_inbox u m) (messages db).
Proof. apply has_id_select. Qed.

Lemma elem_of_boxes db f p :
  p ∈ box_in (boxes db f) ++ box_out (boxes db f) <-> exists m, p = letter m /\ m ∈ messages db /\ visibleTo f m = true.
Proof.
  unfold boxes, Inbox, Outbox, visibleTo. cbn [box_in box_out]. rewrite <-fmap_app, list_elem_of_fmap. setoid_rewrite elem_of_app.
  setoid_rewrite elem_of_select. setoid_rewrite orb_true_iff. unfold in_inbox, in_outbox. naive_solver.
Qed.

(** The thread of a letter that its reader still has. *)
Lemma parent_row db f reply p : parent reply (boxes db f) = Some p ->
  reply <> 0 /\ exists m, p = letter m /\ m ∈ messages db /\ visibleTo f m = true /\ m_id m = reply.
Proof.
  unfold parent. destruct (Z.eqb_spec reply 0); [done|]. intros [Hp Ep]%find_some. split; [done|].
  rewrite <-list_elem_of_In in Hp. apply elem_of_boxes in Hp as (m & -> & Hm & Hv). exists m. split_and!; [done..|]. by apply Z.eqb_eq in Ep.
Qed.

Lemma parent_thread db f reply p : db_ok db -> parent reply (boxes db f) = Some p -> 0 < m_thread p.
Proof.
  intros Hok (_ & m & -> & Hm & _)%parent_row. destruct (ok_mail _ Hok) as [_ _ _ Hth _]. rewrite Forall_forall in Hth. exact (Hth m Hm).
Qed.

Lemma thread_parent db f reply :
  db_ok db -> messageThread db f reply = match parent reply (boxes db f) with Some p => (m_thread p, reply) | None => (0, 0) end.
Proof.
  intros Hok. destruct (ok_mail _ Hok) as [Ht%table_ids _ _ _ _]. unfold messageThread.
  destruct (parent reply (boxes db f)) as [p|] eqn:Ep.
  - apply parent_row in Ep as (Hr & m & -> & Hm & Hv & Ei). rewrite (proj2 (Z.eqb_neq reply 0) Hr). unfold row_by.
    destruct (find _ (messages db)) as [m'|] eqn:Em.
    + apply find_some in Em as [Hm' Em]. rewrite <-list_elem_of_In in Hm'. bool_prop.
      assert (m' = m) as ->; [|done]. apply (unique_elem m_id (messages db)); [done..|congruence].
    + pose proof (find_none _ _ Em m ltac:(by apply list_elem_of_In)) as Hn. cbn in Hn. by rewrite Ei, Z.eqb_refl, Hv in Hn.
  - unfold parent in Ep. destruct (reply =? 0); [done|]. unfold row_by. destruct (find _ (messages db)) as [m|] eqn:Em; [|done].
    exfalso. apply find_some in Em as [Hm Em]. rewrite <-list_elem_of_In in Hm. bool_prop.
    pose proof (find_none _ _ Ep (letter m) ltac:(apply list_elem_of_In, elem_of_boxes; by exists m)) as Hn. cbn in Hn. by apply Z.eqb_neq in Hn.
Qed.

(** A new number is nobody's. *)
Lemma next_unheld db v : holds (next_id m_id (messages db)) (boxes db v) = false.
Proof.
  rewrite holds_visible. apply existsb_false. destruct (next_id_bound m_id (messages db)) as [Hb _].
  eapply Forall_impl; [exact Hb|]. cbn. intros y Hy. destruct (Z.eqb_spec (m_id y) (next_id m_id (messages db))); [lia|done].
Qed.

Lemma send_boxes m db v : m_del_from m = false -> m_del_to m = false ->
  boxes (on_messages (fun ms => ms ++ [m]) db) v = spec_send (letter m) (boxes db) v.
Proof.
  intros Ef Et. unfold boxes, spec_send, Inbox, Outbox. cbn [on_messages messages box_in box_out]. rewrite !select_app, !fmap_app.
  unfold select_where at 2 4. rewrite !filter_cons, !filter_nil. unfold in_inbox, in_outbox. rewrite Ef, Et. cbn [negb letter with_deleted m_to m_from].
  rewrite !andb_true_r. f_equal; (f_equal; case_decide as D; [by rewrite D|by destruct (_ =? v)]).
Qed.

Lemma SendMessage_boxes now f t s b reply db :
  db_ok db ->
  match SendMessage now f t s b reply db with
  | Ok (m, db') => mail_refused db (boxes db) (MSend now f t s b reply) = None
      /\ mail_effect (MSend now f t s b reply) (boxes db) (Some m) (boxes db')
  | Err e => mail_refused db (boxes db) (MSend now f t s b reply) = Some e
  end.
Proof.
  intros Hok. unfold SendMessage, mail_refused. destruct (cleanLetter s b) as [[s' b']|e] eqn:Ec; cbn; [|done].
  unfold getUser, row. destruct (find (fun u => u_id u =? f) (users db)) as [x|]; cbn; [|done]. destruct (find (fun u => u_id u =? t) _) as [y|]; cbn; [|done].
  rewrite len_fmap. change (len (Inbox t db)) with (count_where (in_inbox t) (messages db)).
  rewrite <-negb_orb. destruct (u_validated x || u_sysop y); cbn; [|done].
  assert (IsBlocked t f db = bool_decide ((t, f) ∈ blocks db)) as ->.
  { unfold IsBlocked. apply eq_true_iff_eq. rewrite bool_decide_eq_true, existsb_exists. setoid_rewrite <-list_elem_of_In. split.
    - intros (z & Hz & ->%bool_decide_eq_true). done.
    - intros Hz. exists (t, f). split; [done|]. by apply bool_decide_eq_true. }
  assert (forall p q, p || negb q = negb (negb p && q)) as -> by (by intros [] []). destruct (negb (u_sysop x) && _); cbn; [done|].
  rewrite Z.leb_antisym. destruct (_ <? MaxInbox); cbn; [|done]. rewrite (thread_parent db f reply Hok).
  set (id := next_id m_id (messages db)). assert (new_letter id now f t s' b' reply (boxes db f) =
    let '(th, re) := match parent reply (boxes db f) with Some p => (m_thread p, reply) | None => (0, 0) end in
    MkMsg id f t (if th =? 0 then id else th) re s' b' now 0 false false) as En.
  { unfold new_letter. destruct (parent reply (boxes db f)) as [p|] eqn:Ep; [|done]. destruct (Z.eqb_spec (m_thread p) 0) as [Ez|]; [|done].
    pose proof (parent_thread db f reply p Hok Ep). lia. }
  destruct (match parent _ _ with Some _ => _ | None => _ end) as [th re]. cbn. split; [done|]. exists id, s', b'.
  split_and!; [intros v; apply next_unheld|done|by rewrite En|]. intros v. rewrite En. by apply send_boxes.
Qed.

Lemma map_box_eq l1 l2 r1 r2 : l1 = r1 -> l2 = r2 -> MkBox l1 l2 = MkBox r1 r2.
Proof. by intros -> ->. Qed.

Lemma DeleteMessage_boxes i u db :
  db_ok db ->
  match DeleteMessage i u db with
  | Ok (_, db') => holds i (boxes db u) = true /\ forall v, boxes db' v = spec_delete i u (boxes db) v
  | Err e => e = ErrNotFound /\ holds i (boxes db u) = false
  end.
Proof.
  intros Hok. unfold DeleteMessage. rewrite holds_visible. destruct (existsb _ (messages db)) eqn:Ex; [|done]. split; [done|].
  intros v. unfold boxes, spec_delete, Inbox, Outbox. cbn [on_messages messages]. destruct (ok_mail _ Hok) as [_ Hk _ _ _].
  destruct (Z.eqb_spec v u) as [->|Hv].
  - apply map_box_eq; cbn [box_in box_out]; (apply select_delete_update; eapply Forall_impl; [exact Hk|]); row_cases.
  - apply map_box_eq.
    + rewrite <-(delete_none (fun _ => false) (letter <$> select_where (in_inbox v) (messages db))) by by apply Forall_true.
      apply select_delete_update. eapply Forall_impl; [exact Hk|]. row_cases.
    + rewrite <-(delete_none (fun _ => false) (letter <$> select_where (in_outbox v) (messages db))) by by apply Forall_true.
      apply select_delete_update. eapply Forall_impl; [exact Hk|]. row_cases.
Qed.

Lemma MarkRead_boxes now i u db :
  db_ok db ->
  match MarkRead now i u db with
  | Ok (_, db') => has_id i (box_in (boxes db u)) = true /\ forall v, boxes db' v = spec_read now i (boxes db) v
  | Err e => e = ErrNotFound /\ has_id i (box_in (boxes db u)) = false
  end.
Proof.
  intros Hok. rewrite has_inbox. unfold MarkRead. destruct (ok_mail _ Hok) as [Ht _ _ _ _]. apply table_ids in Ht.
  assert (forall m0, m0 ∈ messages db -> m_id m0 = i -> in_inbox u m0 = true ->
          Forall (fun m => m_id m = i -> in_inbox u m = true) (messages db)) as Hu.
  { intros m0 H0 E0 Hin. apply Forall_forall. intros m Hm Em.
    assert (m = m0) as ->; [|done]. apply (unique_elem m_id (messages db)); [done..|congruence]. }
  destruct (existsb _ (messages db)) eqn:Ex.
  - apply existsb_true in Ex as (m0 & H0 & E0). bool_prop.
    split; [apply existsb_true; exists m0; split; [done|apply andb_true_intro; split; [by apply Z.eqb_eq|done]]|].
    assert (Forall (fun m => m_id m = i -> in_inbox u m = true) (messages db)) as Hall by by eapply Hu.
    intros v. apply map_box_eq; (apply select_update; eapply Forall_impl; [exact Hall|]);
    cbn; intros m Hm; split; [by destruct (_ && _)| |by destruct (_ && _)|]; intros _;
    unfold letter; cbn; destruct (Z.eqb_spec (m_id m) i) as [E|]; cbn; [|done| |done]; rewrite (Hm E); by destruct (m_read m =? 0).
  - destruct (existsb (fun m => (m_id m =? i) && in_inbox u m) (messages db)) eqn:Ei; [|done]. split; [done|].
    apply existsb_true in Ei as (m0 & H0 & E0). bool_prop. apply existsb_false in Ex.
    assert (Forall (fun m => m_id m = i -> in_inbox u m = true) (messages db)) as Hall by by eapply Hu.
    assert (update_where (fun _ => false) id (messages db) = messages db) as Hid by (apply update_none; by apply Forall_true).
    assert (Forall (fun m => m_id m = i -> m_read m <> 0) (messages db)) as Hr.
    { rewrite Forall_forall in Hall, Ex |- *. intros m Hm Em Hr. specialize (Ex m Hm). specialize (Hall m Hm Em).
      by rewrite Em, Z.eqb_refl, Hall, Hr in Ex. }
    intros v. unfold boxes at 1, Inbox, Outbox. rewrite <-Hid.
    apply map_box_eq; (apply select_update; eapply Forall_impl; [exact Hr|]); cbn; intros m Hm; (split; [done|]); intros _;
    destruct (Z.eqb_spec (m_id m) i) as [E|]; cbn; try done; specialize (Hm E); by destruct (Z.eqb_spec (m_read m) 0).
Qed.

Lemma delete_false {R} (l : list R) : delete_where (fun _ => false) l = l.
Proof. apply delete_none. by apply Forall_true. Qed.

Lemma DeleteUser_boxes `{Crypto} a d db db' :
  db_ok db -> DeleteUser a d db = Ok (tt, db') -> forall v, boxes db' v = spec_forget d (boxes db) v.
Proof.
  intros Hok E. unfold DeleteUser in E. inv_op. intros v. unfold boxes, spec_forget, Inbox, Outbox. cbn [on_messages delete_user_row
    on_users on_blocks on_board_reads on_verifications on_ssh_keys on_echo_reads on_file_reads on_netmail messages box_in box_out].
  destruct (ok_mail _ Hok) as [_ Hk _ _ _]. set (ms := delete_where (fun m => m_to m =? d) (messages db)).
  assert (Forall (fun m => m_to m <> d /\ m_del_from m && m_del_to m = false) ms) as Hms.
  { eapply Forall_delete; [exact Hk|]. cbn. intros m Hm Hd. by bool_prop. }
  destruct (Z.eqb_spec v d) as [->|Hv]; apply map_box_eq.
  - rewrite <-(delete_all (fun _ => true) (letter <$> select_where (in_inbox d) ms)) by by apply Forall_true.
    apply select_delete_update. eapply Forall_impl; [exact Hms|]. row_cases.
  - rewrite <-(delete_all (fun _ => true) (letter <$> select_where (in_outbox d) ms)) by by apply Forall_true.
    apply select_delete_update. eapply Forall_impl; [exact Hms|]. row_cases.
  - transitivity (letter <$> select_where (in_inbox v) ms).
    + rewrite <-(delete_false (letter <$> select_where (in_inbox v) ms)).
      apply select_delete_update. eapply Forall_impl; [exact Hms|]. row_cases.
    + f_equal. unfold ms. rewrite select_delete_comm. apply delete_none. apply Forall_forall.
      intros m [Hm _]%elem_of_select. unfold in_inbox in Hm. bool_prop. by apply Z.eqb_neq; congruence.
  - transitivity (letter <$> select_where (in_outbox v) ms).
    + rewrite <-(delete_false (letter <$> select_where (in_outbox v) ms)).
      apply select_delete_update. eapply Forall_impl; [exact Hms|]. row_cases.
    + unfold ms. rewrite select_delete_comm. by rewrite delete_fmap.
Qed.

Lemma boxes_same db db' : messages db' = messages db -> forall v, boxes db' v = boxes db v.
Proof. intros E v. unfold boxes, Inbox, Outbox. by rewrite E. Qed.

Lemma DeleteUser_refused `{Crypto} a d db :
  match DeleteUser a d db with
  | Ok _ => mail_refused db (boxes db) (MForget a d) = None
  | Err e => mail_refused db (boxes db) (MForget a d) = Some e
  end.
Proof.
  unfold DeleteUser, requireSysop, getUser, row, mail_refused. destruct (a =? d); cbn; [done|].
  destruct (find (fun u => u_id u =? a) (users db)) as [x|]; cbn; [|done]. destruct (u_sysop x); cbn; [|done].
  by destruct (find (fun u => u_id u =? d) (users db)).
Qed.

(** ** The operations that leave the letters alone *)

Lemma insertNetmail_messages now n db b db' : insertNetmail now n db = Ok (b, db') -> messages db' = messages db.
Proof. unfold insertNetmail. intros E. case_match; by inv_op. Qed.

Lemma updateUser_messages i f db db' : updateUser i f db = Ok (tt, db') -> messages db' = messages db.
Proof. unfold updateUser. intros E. case_match; by inv_op. Qed.

Lemma ImportEcho_messages `{Crypto} now m db : messages (snd (ImportEcho now m db)) = messages db.
Proof.
  unfold ImportEcho, ensureEchoArea, pruneEchoArea. repeat (case_match; cbn [snd]; simplify_eq; try done).
Qed.

Lemma ConfirmEmail_messages `{Crypto} now u c db : messages (snd (ConfirmEmail now u c db)) = messages db.
Proof. unfold ConfirmEmail. by repeat (case_match; cbn [snd]; try done). Qed.

Lemma AddFile_messages now t d f db o db' : AddFile now t d f db = Ok (o, db') -> messages db' = messages db.
Proof.
  unfold AddFile, ensureFileArea. intros E. inv_op. cbn.
  repeat (case_match; simplify_eq; cbn; try done).
Qed.
End mail_spec.

Ltac same_messages :=
  apply boxes_same; try done;
  repeat match goal with H : _ = Ok _ |- _ => progress (unfold CreateUser, RecordLogin, ChangePassword, ResetPassword, setPassword, SetLocation,
    SetSysop, SetLocked, BootstrapSysop, ValidateUser, Block, AddSSHKey, DeleteSSHKey, StartEmailVerification, SetEmailMode,
    CreateBoard, DeleteBoard, DeleteBulletin, DeleteOneliner, sysopDelete, AddPost, DeletePost, MarkBoardRead, AddBulletin, AddOneliner,
    MarkEchoRead, ImportNetmail, RecordSentNetmail, RemoveFile, MarkFilesSeen in H) end;
  inv_op; repeat (case_match; inv_op); cbn;
  eauto using insertNetmail_messages, updateUser_messages, ImportEcho_messages, ConfirmEmail_messages, AddFile_messages.

(** Each operation on mail is refused, with its error, or returns and changes the mailboxes as specified. *)
Lemma mail_do_spec `{UnicodeTables} `{Crypto} db o : db_ok db ->
  match mail_do o db with
  | Ok (r, db') => mail_refused db (boxes db) o = None /\ mail_effect o (boxes db) r (boxes db')
  | Err e => mail_refused db (boxes db) o = Some e
  end.
Proof.
  intros Hok. destruct o as [now f t s b r|now i u|i u|a d]; cbn [mail_do].
  - pose proof (SendMessage_boxes now f t s b r db Hok) as Hs. by destruct (SendMessage _ _ _ _ _ _ db) as [[m db']|e].
  - pose proof (MarkRead_boxes now i u db Hok) as Hm. cbn [mail_refused]. by destruct (MarkRead _ _ _ db) as [[[] db']|e]; destruct Hm as [Hm1 Hm2]; [rewrite Hm1|rewrite Hm2, Hm1].
  - pose proof (DeleteMessage_boxes i u db Hok) as Hm. cbn [mail_refused]. by destruct (DeleteMessage _ _ db) as [[[] db']|e]; destruct Hm as [Hm1 Hm2]; [rewrite Hm1|rewrite Hm2, Hm1].
  - pose proof (DeleteUser_refused a d db) as Hr. destruct (DeleteUser a d db) as [[[] db']|e] eqn:E; cbn; [|exact Hr].
    split; [exact Hr|]. split; [done|]. by eapply DeleteUser_boxes.
Qed.

(** C8: The message rows implement the mailboxes.  On any reachable database, sending, opening and deleting a letter and
    deleting an account are refused exactly when, and for the reason that, the specification of the mailboxes gives, and
    otherwise do what it says: a letter sent, with a number that nobody holds, in the thread of the letter it answers if the
    sender still has that, appears at the end of one inbox and of one outbox, and only while the inbox has room; a letter
    that its reader has is deleted from that reader's mailbox alone; one that is in the inbox is read for both sides, from
    the first time on; a deleted account takes its mailbox along and leaves what it sent in the inboxes of others.  And
    no other operation of the store touches any mailbox. *)
Theorem mail_refines `{UnicodeTables} `{Crypto} `{MailParser} (cfg : Config) (db : DB) :
  reachable cfg db ->
  (forall o, match mail_do o db with
             | Ok (r, db') => mail_refused db (boxes db) o = None /\ mail_effect o (boxes db) r (boxes db')
             | Err e => mail_refused db (boxes db) o = Some e
             end)
  /\ forall db', step cfg db db' -> (exists o r, mail_do o db = Ok (r, db')) \/ forall v, boxes db' v = boxes db v.
Proof.
  intros Hok%reachable_ok. split; [intros o; by apply mail_do_spec|]. intros db' Hs. destruct Hs.
  all: try (right; same_messages; fail).
  all: first [left; solve [eexists (MForget _ _), _; cbn [mail_do]; match goal with H : _ = Ok _ |- _ => by rewrite H end
      | eexists (MSend _ _ _ _ _ _), _; cbn [mail_do]; match goal with H : _ = Ok _ |- _ => by rewrite H end
      | eexists (MRead _ _ _), _; cbn [mail_do]; match goal with H : _ = Ok _ |- _ => by rewrite H end
      | eexists (MDelete _ _), _; cbn [mail_do]; match goal with H : _ = Ok _ |- _ => by rewrite H end]|idtac].
  right. apply boxes_same. unfold MarkFTNFile. by case_match.
Qed.

Lemma mail_refines_witness : exists db', mail_do (MDelete 1 2) demo_db = Ok (None, db')
  /\ holds 1 (boxes demo_db 2) = true /\ forall v, boxes db' v = spec_delete 1 2 (boxes demo_db) v.
Proof.
  destruct (mail_refines demo_cfg demo_db demo_reachable) as [Ho _]. specialize (Ho (MDelete 1 2)).
  destruct (mail_do (MDelete 1 2) demo_db) as [[r db']|e] eqn:E; [|exfalso; revert E; vm_compute; discriminate].
  destruct Ho as [Hr [-> Hv]]. exists db'. split_and!; [reflexivity|vm_compute; reflexivity|exact Hv].
Defined.
