(* ===== verification/StoreMailViews.v ===== *)
(** * What each user sees of the private mail

    The views of a mailbox ([Thread], [SearchMail], [UnreadCount]) and the rules
    of [SendMessage]. *)

From Stdlib Require Import Ascii String ZArith Lia Sorted.
From stdpp Require Import base tactics list gmap strings sorting.
From S2P Require Import Prelude GoStrings GoTime Term StoreDB StoreUsers StoreMail StoreBoards StoreEcho StoreInv StoreDemo StoreOk StoreMailSpec.
Open Scope Z_scope.

(** ** Sorted lists with the same rows *)

Lemma sorted_rows_eq (l1 l2 : list MessageRow) :
  StronglySorted Z.lt (m_id <$> l1) -> StronglySorted Z.lt (m_id <$> l2) -> (forall m, m ∈ l1 <-> m ∈ l2) -> l1 = l2.
Proof.
  revert l2. induction l1 as [|a l1 IH]; intros [|b l2] H1 H2 He; [done| | |].
  - by pose proof (proj2 (He b) (list_elem_of_here _ _)) as ?%elem_of_nil.
  - by pose proof (proj1 (He a) (list_elem_of_here _ _)) as ?%elem_of_nil.
  - rewrite !fmap_cons in H1, H2. inversion H1 as [|? ? S1 F1]; inversion H2 as [|? ? S2 F2]; subst.
    rewrite Forall_fmap, Forall_forall in F1, F2. cbn in F1, F2.
    assert (a = b) as ->.
    { pose proof (proj1 (He a) (list_elem_of_here _ _)) as Ha. pose proof (proj2 (He b) (list_elem_of_here _ _)) as Hb.
      apply elem_of_cons in Ha as [|Ha], Hb as [|Hb]; [done..|]. specialize (F1 b Hb). specialize (F2 a Ha). lia. }
    f_equal. apply IH; [done..|]. intros m. specialize (He m). rewrite !elem_of_cons in He. split; intros Hm.
    + destruct (proj1 He (or_intror Hm)) as [->|]; [|done]. specialize (F1 b Hm). lia.
    + destruct (proj2 He (or_intror Hm)) as [->|]; [|done]. specialize (F2 b Hm). lia.
Qed.

Lemma select_select {R} (p q : R -> bool) l : select_where q (select_where p l) = select_where (fun r => p r && q r) l.
Proof. unfold select_where. rewrite list_filter_filter. apply list_filter_iff. intros r. destruct (p r), (q r); cbn; naive_solver. Qed.

Lemma find_select {R} (p q : R -> bool) l : find q (select_where p l) = find (fun r => q r && p r) l.
Proof.
  induction l as [|r l IH]; [done|]. unfold select_where in *. rewrite filter_cons. case_decide as E; cbn.
  - rewrite E, andb_true_r. by rewrite IH.
  - destruct (p r); [done|]. by rewrite andb_false_r.
Qed.

Lemma find_fmap {R} (p : R -> bool) (f : R -> R) l : (forall r, p (f r) = p r) -> find p (f <$> l) = f <$> find p l.
Proof. intros Hf. induction l as [|r l IH]; [done|]. cbn. rewrite Hf. by destruct (p r). Qed.

Lemma newest_fmap {R S} (f : R -> S) n l : f <$> newest n l = newest n (f <$> l).
Proof. unfold newest. destruct (n <? 0); [done|]. by rewrite fmap_drop, length_fmap. Qed.

Lemma count_fmap {R} (p : R -> bool) (f : R -> R) l : (forall r, p (f r) = p r) -> count_where p (f <$> l) = count_where p l.
Proof. intros Hf. unfold count_where. by rewrite select_fmap, len_fmap. Qed.

(** ** A mailbox is all there is to see *)

Section views.
Context `{UnicodeTables}.
Implicit Types db : DB.

Definition letters (ms : list MessageRow) : list MessageRow := letter <$> ms.

Definition seen (u : Z) (db : DB) : list MessageRow := letter <$> select_where (visibleTo u) (messages db).

Lemma elem_of_seen u db m : m ∈ seen u db <-> m ∈ box_in (boxes db u) \/ m ∈ box_out (boxes db u).
Proof.
  unfold seen, boxes, Inbox, Outbox. cbn [box_in box_out]. rewrite !list_elem_of_fmap. split.
  - intros (r & -> & [[Hv|Hv]%orb_prop Hr]%elem_of_select); [left|right]; exists r; (split; [done|]); by apply elem_of_select.
  - intros [(r & -> & [Hv Hr]%elem_of_select)|(r & -> & [Hv Hr]%elem_of_select)]; exists r; (split; [done|]);
      apply elem_of_select; (split; [|done]); unfold visibleTo; apply orb_true_iff; [by left|by right].
Qed.

Lemma seen_sorted u db : db_ok db -> StronglySorted Z.lt (m_id <$> seen u db).
Proof.
  intros Hok. destruct (ok_mail _ Hok) as [[Hs _] _ _ _ _]. unfold seen. rewrite <-list_fmap_compose.
  rewrite (list_fmap_ext (m_id ∘ letter) m_id) by done. by apply sorted_filter.
Qed.

Lemma seen_eq u db1 db2 : db_ok db1 -> db_ok db2 -> boxes db1 u = boxes db2 u -> seen u db1 = seen u db2.
Proof.
  intros H1 H2 E. apply sorted_rows_eq; [by apply seen_sorted..|]. intros m. by rewrite !elem_of_seen, E.
Qed.

(** The views as functions of what the user sees. *)
Definition thread_of (i : Z) (ms : list MessageRow) : result store_error (list MessageRow) :=
  m ← or_not_found (row m_id ms i);
  mret (select_where (fun x => m_thread x =? m_thread m) ms).

Lemma Thread_seen i u db : letters <$> Thread i u db = thread_of i (seen u db).
Proof.
  unfold Thread, thread_of, seen, row, row_by. rewrite find_fmap, find_select by done.
  destruct (find _ (messages db)) as [m|]; [|done]. cbn. f_equal.
  rewrite select_fmap, select_select by done. f_equal. apply list_filter_iff. intros x. by rewrite andb_comm.
Qed.

Definition mail_match (u : Z) (query : bytes) (db : DB) (m : MessageRow) : bool :=
  instr (sql_lower (m_subject m)) query || instr (sql_lower (m_body m)) query || correspondent_matches u query db m.

Lemma SearchMail_seen u q db :
  letter <$> SearchMail u q db =
  let query := to_lower (trim_space q) in
  if bool_decide (query = []) then [] else newest MaxSearchResults (select_where (mail_match u query db) (seen u db)).
Proof.
  unfold SearchMail, seen. cbn zeta. case_bool_decide; [done|]. rewrite newest_fmap. f_equal.
  rewrite select_fmap, select_select by done. done.
Qed.

Lemma UnreadCount_boxes u db : UnreadCount u db = count_where (fun m => m_read m =? 0) (box_in (boxes db u)).
Proof.
  unfold UnreadCount, boxes, Inbox. cbn [box_in]. rewrite count_fmap by done. unfold count_where. by rewrite select_select.
Qed.

Lemma mail_match_users u q db1 db2 m : users db1 = users db2 -> mail_match u q db1 m = mail_match u q db2 m.
Proof. intros E. unfold mail_match, correspondent_matches. by rewrite E. Qed.

End views.

(** C9: Private mail is private: what [Thread], [SearchMail] and [UnreadCount] show a user depends on that
    user's own mailbox only (and on the handles of the accounts).  Two databases that differ in any other letter, or in
    copies that other users kept or deleted, show the user the same. *)
Theorem mail_noninterference `{UnicodeTables} `{Crypto} `{MailParser} (cfg : Config) (db1 db2 : DB) (u : Z) :
  reachable cfg db1 -> reachable cfg db2 -> users db1 = users db2 -> boxes db1 u = boxes db2 u ->
  (forall i, letters <$> Thread i u db1 = letters <$> Thread i u db2)
  /\ (forall q, letter <$> SearchMail u q db1 = letter <$> SearchMail u q db2)
  /\ UnreadCount u db1 = UnreadCount u db2.
Proof.
  intros Hr1%reachable_ok Hr2%reachable_ok Eu Eb. pose proof (seen_eq u db1 db2 Hr1 Hr2 Eb) as Es. split_and!.
  - intros i. by rewrite !Thread_seen, Es.
  - intros q. rewrite !SearchMail_seen, Es. cbn zeta. case_bool_decide; [done|]. f_equal. apply list_filter_iff.
    intros m. by rewrite (mail_match_users _ _ db1 db2).
  - by rewrite !UnreadCount_boxes, Eb.
Qed.

(** Bob deletes his copy of the letter; Alice's view stays. *)
Definition demo_deleted : DB := run (DeleteMessage 1 2) demo_db.

Lemma mail_noninterference_witness :
  messages demo_db <> messages demo_deleted
  /\ letters <$> Thread 2 1 demo_db = letters <$> Thread 2 1 demo_deleted.
Proof.
  split; [by vm_compute|].
  apply (mail_noninterference demo_cfg demo_db demo_deleted 1).
  - apply demo_reachable.
  - apply run_reachable; [apply demo_reachable|by intros [] ? ?; eapply st_delete_message|by vm_compute].
  - by vm_compute.
  - by vm_compute.
Defined.

(** ** Sending *)

Lemma cleanLetter_Ok `{UnicodeTables} subject body s b :
  cleanLetter subject body = Ok (s, b) <->
  (s = Clean subject MaxSubjectLen /\ b = cleanBody body) /\ s <> [] /\ b <> [] /\ len b <= MaxBodyBytes.
Proof.
  unfold cleanLetter. split.
  - intros E. simp_res. bool_prop. simplify_eq. done.
  - intros ([-> ->] & Hs & Hb & Hl). rewrite !bool_decide_eq_false_2 by done.
    destruct (Z.ltb_spec MaxBodyBytes (len (cleanBody body))); [lia|done].
Qed.

Lemma getUser_row db i u : row u_id (users db) i = Some u -> getUser db i = Ok u.
Proof. unfold getUser. by intros ->. Qed.

Lemma IsBlocked_elem u o db : IsBlocked u o db = true <-> (u, o) ∈ blocks db.
Proof.
  unfold IsBlocked. rewrite existsb_true. split.
  - intros (b & Hb & ->%bool_decide_eq_true_1). done.
  - intros Hb. exists (u, o). split; [done|by apply bool_decide_eq_true_2].
Qed.

(** Who may write to whom: a letter goes out exactly when both accounts exist, subject and body are
    not empty after cleaning and the body fits, the sender is validated or writes to a sysop, the recipient has
    not blocked the sender (a sysop is never blocked) and the recipient's inbox has room. *)
Theorem SendMessage_permission `{UnicodeTables} (now from to : Z) (subject body : bytes) (reply : Z) (db : DB) :
  is_ok (SendMessage now from to subject body reply db) = true <->
  Clean subject MaxSubjectLen <> [] /\ cleanBody body <> [] /\ len (cleanBody body) <= MaxBodyBytes
  /\ exists sender recipient,
       row u_id (users db) from = Some sender /\ row u_id (users db) to = Some recipient
       /\ (u_validated sender = true \/ u_sysop recipient = true)
       /\ (u_sysop sender = true \/ (to, from) ∉ blocks db)
       /\ len (Inbox to db) < MaxInbox.
Proof.
  split.
  - unfold SendMessage. destruct (_ ≫= _) as [[m db']|] eqn:E; [|done]. intros _. inv_op. bool_prop.
    match goal with H : cleanLetter _ _ = Ok _ |- _ => apply cleanLetter_Ok in H as ([-> ->] & ? & ? & ?) end.
    split_and!; [done..|]. do 2 eexists. split_and!; [done|done|by apply orb_prop| |done].
    match goal with H : (u_sysop _ || _) = true |- _ => apply orb_prop in H as [?|Hb]; [by left|right] end.
    rewrite <-IsBlocked_elem. by apply negb_true_iff, not_true_iff_false in Hb.
  - intros (Hs & Hb & Hl & sender & recipient & Hf & Ht & Hv & Hk & Hi). unfold SendMessage.
    rewrite (proj2 (cleanLetter_Ok subject body _ _)) by done. cbn [mbind result_bind].
    rewrite (getUser_row _ _ _ Hf), (getUser_row _ _ _ Ht). cbn [mbind result_bind].
    rewrite (proj2 (orb_true_iff _ _) Hv). cbn [guard_res mbind result_bind].
    assert (u_sysop sender || negb (IsBlocked to from db) = true) as ->.
    { apply orb_true_iff. destruct Hk as [|Hk]; [by left|right]. apply negb_true_iff, not_true_iff_false. by rewrite IsBlocked_elem. }
    cbn [guard_res mbind result_bind]. unfold Inbox in Hi. fold (count_where (in_inbox to) (messages db)) in Hi.
    rewrite (proj2 (Z.ltb_lt _ _) Hi). cbn [guard_res mbind result_bind]. by destruct (messageThread _ _ _).
Qed.

(** A reply joins the conversation: a letter that answers one its sender can see has the same thread, and
    the sender's view of the conversation afterwards is the view before with the new letter at the end. *)
Theorem reply_joins_thread `{UnicodeTables} `{Crypto} `{MailParser} (cfg : Config) (now from to : Z) (subject body : bytes)
    (reply : Z) (db db' : DB) (m : MessageRow) (ms : list MessageRow) :
  reachable cfg db -> reply <> 0 -> Thread reply from db = Ok ms -> SendMessage now from to subject body reply db = Ok (m, db') ->
  m_reply m = reply /\ Thread reply from db' = Ok (ms ++ [m]).
Proof.
  intros Hok%reachable_ok Hr Ht Hs. unfold Thread in *. destruct (row_by _ (messages db)) as [p|] eqn:Ep; [|done]. cbn in Ht. injection Ht as <-.
  destruct (ok_mail _ Hok) as [_ _ _ Hth _]. rewrite Forall_forall in Hth.
  pose proof Ep as [Hin _]%row_by_Some. specialize (Hth p Hin).
  unfold SendMessage, messageThread in Hs. rewrite (proj2 (Z.eqb_neq _ _) Hr), Ep in Hs. inv_op. cbn [m_reply on_messages messages].
  split; [done|]. unfold row_by in *. rewrite find_app, Ep. cbn [or_not_found mbind result_bind]. cbv [mret result_ret]. cbn [on_messages messages]. rewrite select_app. do 2 f_equal.
  assert ((m_thread p =? 0) = false) as -> by (apply Z.eqb_neq; lia).
  unfold select_where. rewrite filter_cons, filter_nil. cbn [m_thread]. rewrite Z.eqb_refl. cbn [andb].
  unfold visibleTo. cbn. by rewrite Z.eqb_refl, orb_true_r.
Qed.

Lemma reply_joins_thread_witness :
  exists db' m, m_reply m = 2 /\ Thread 2 1 db' = Ok (messages demo_db ++ [m]).
Proof.
  destruct (SendMessage 200 1 2 (str "Re: Welcome") (str "Any time") 2 demo_db) as [[m db']|] eqn:E; [|revert E; vm_compute; discriminate].
  exists db', m. apply (reply_joins_thread demo_cfg 200 1 2 (str "Re: Welcome") (str "Any time") 2 demo_db db' m).
  - apply demo_reachable.
  - discriminate.
  - vm_compute. reflexivity.
  - exact E.
Defined.
