(* ===== verification/StoreAccountSpec.v ===== *)
(** * What the accounts promise

    Who can change an account's rights and password, how handles, passwords and
    confirmation codes behave. *)

From Stdlib Require Import Ascii String ZArith Lia Sorted.
From stdpp Require Import base tactics list gmap strings sorting.
From S2P Require Import Prelude GoStrings GoTime Term StoreDB StoreUsers StoreMail StoreBoards StoreEcho StoreInv StoreDemo StoreOk.
From S2P Require FtnAddr FtnMessage.
Open Scope Z_scope.

(** ** Rows of one account before and after *)

Section rows.
Context {R : Type} (id : R -> Z).

Lemma row_update p f (rows : list R) i :
  (forall r, id (f r) = id r) -> row id (update_where p f rows) i = (fun r => if p r then f r else r) <$> row id rows i.
Proof.
  intros Hf. unfold row, update_where. induction rows as [|r rows IH]; [done|]. cbn.
  assert (id (if p r then f r else r) = id r) as E by (destruct (p r); [apply Hf|done]). rewrite E.
  destruct (id r =? i); [done|exact IH].
Qed.

Lemma row_delete p (rows : list R) i r : row id (delete_where p rows) i = Some r -> table_ok id rows -> row id rows i = Some r.
Proof. intros [[_ Hin]%elem_of_delete <-]%row_Some Ht. by apply row_elem. Qed.
End rows.

Section account.
Context `{UnicodeTables} `{Crypto} `{MailParser}.
Implicit Types db : DB.

Definition user_row db (i : Z) : option UserRow := row u_id (users db) i.
Definition sysop db (a : Z) : Prop := exists u, user_row db a = Some u /\ u_sysop u = true.

(** The rights of an account. *)
Definition rights (u : UserRow) : bool * bool * bool := (u_sysop u, u_locked u, u_validated u).

(** The operations that may change them, done by a sysop or at the console. *)
Inductive rights_change db (i : Z) : DB -> Prop :=
  | rc_sysop a b db' : sysop db a -> (b = false -> a <> i) -> SetSysop a i b db = Ok (tt, db') -> rights_change db i db'
  | rc_locked a b db' : sysop db a -> a <> i -> SetLocked a i b db = Ok (tt, db') -> rights_change db i db'
  | rc_validate a db' : sysop db a -> ValidateUser a i db = Ok (tt, db') -> rights_change db i db'
  | rc_console h u db' : u_key u = handleKey h -> u_id u = i -> BootstrapSysop h db = Ok (u, db') -> rights_change db i db'.

(** The operations that may change a password. *)
Inductive password_change (cfg : Config) db (i : Z) (u : UserRow) : DB -> Prop :=
  | pc_own salt current next db' : matches (u_cred u) current = Ok true ->
      ChangePassword cfg salt i current next db = Ok (tt, db') -> password_change cfg db i u db'
  | pc_reset salt a next db' : sysop db a -> ResetPassword cfg salt a i next db = Ok (tt, db') -> password_change cfg db i u db'.

(** Nothing that matters here changed, whoever the account belongs to. *)
Definition same_accounts db db' : Prop :=
  forall i u u', user_row db i = Some u -> user_row db' i = Some u' -> rights u' = rights u /\ u_cred u' = u_cred u.

Lemma same_users db db' : users db' = users db -> same_accounts db db'.
Proof. intros E i u u' Hu Hu'. unfold user_row in *. rewrite E in Hu'. by simplify_eq. Qed.

Lemma same_update p f db :
  (forall u, u_id (f u) = u_id u) -> (forall u, rights (f u) = rights u /\ u_cred (f u) = u_cred u) ->
  same_accounts db (on_users (update_where p f) db).
Proof.
  intros Hi Hf i u u' Hu Hu'. unfold user_row in *. cbn [on_users users] in Hu'. rewrite row_update, Hu in Hu' by done.
  cbn in Hu'. simplify_eq. destruct (p u); [apply Hf|done].
Qed.

Lemma same_insert db u : same_accounts db (on_users (fun us => us ++ [u]) db).
Proof.
  intros i v v' Hv Hv'. unfold user_row in *. cbn [on_users users] in Hv'. rewrite row_app, Hv in Hv'. by simplify_eq.
Qed.

Lemma insertNetmail_users now n db b db' : insertNetmail now n db = Ok (b, db') -> users db' = users db.
Proof. unfold insertNetmail. intros E. case_match; by inv_op. Qed.

Lemma ImportEcho_users now m db : users (snd (ImportEcho now m db)) = users db.
Proof. unfold ImportEcho, ensureEchoArea, pruneEchoArea. repeat (case_match; cbn [snd]; simplify_eq; try done). Qed.

Lemma AddFile_users now t d f db o db' : AddFile now t d f db = Ok (o, db') -> users db' = users db.
Proof. unfold AddFile, ensureFileArea. intros E. inv_op. cbn. repeat (case_match; simplify_eq; cbn; try done). Qed.

(** What happened to account [i] in one step. *)
Definition protected (cfg : Config) db db' : Prop :=
  forall i u u', user_row db i = Some u -> user_row db' i = Some u' ->
  (rights u' = rights u \/ rights_change db i db') /\ (u_cred u' = u_cred u \/ password_change cfg db i u db').

Lemma same_protected cfg db db' : same_accounts db db' -> protected cfg db db'.
Proof. intros Hs i u u' Hu Hu'. destruct (Hs i u u' Hu Hu'). auto. Qed.

(** An update of one account leaves the others alone. *)
Lemma updateUser_row i f db db' :
  updateUser i f db = Ok (tt, db') -> (forall u, u_id (f u) = u_id u) ->
  forall j, user_row db' j = (fun u => if u_id u =? i then f u else u) <$> user_row db j.
Proof.
  unfold updateUser. intros E Hf j. case_match; [|done]. simplify_eq. unfold user_row. cbn [on_users users]. by apply row_update.
Qed.

Lemma user_row_id db j u : user_row db j = Some u -> u_id u = j.
Proof. by intros [_ ?]%row_Some. Qed.

Lemma update_protected cfg i f db db' :
  updateUser i f db = Ok (tt, db') -> (forall u, u_id (f u) = u_id u) ->
  (forall u, user_row db i = Some u ->
     (rights (f u) = rights u \/ rights_change db i db') /\ (u_cred (f u) = u_cred u \/ password_change cfg db i u db')) ->
  protected cfg db db'.
Proof.
  intros E Hf Hi j u u' Hu Hu'. rewrite (updateUser_row _ _ _ _ E Hf), Hu in Hu'. cbn in Hu'. simplify_eq.
  pose proof (user_row_id _ _ _ Hu) as Ej. destruct (Z.eqb_spec (u_id u) i) as [Ei|]; [|auto].
  assert (j = i) as -> by congruence. by apply Hi.
Qed.

Lemma ConfirmEmail_same now u c db : same_accounts db (snd (ConfirmEmail now u c db)).
Proof.
  unfold ConfirmEmail. destruct (pending_of u db) as [v|]; [|by apply same_users].
  repeat (case_match; cbn [snd]; try by apply same_users).
  set (p := fun x => u_id x =? u). set (f := fun x => with_email _ _ x).
  intros i w w' Hw Hw'. by apply (same_update p f db ltac:(done) ltac:(done) i).
Qed.

Lemma RemoveEmail_same u db : same_accounts db (snd (RemoveEmail u db)).
Proof.
  set (p := fun x => u_id x =? u). set (f := with_email [] 0).
  intros i w w' Hw Hw'. by apply (same_update p f db ltac:(done) ltac:(done) i).
Qed.

Lemma DeleteUser_same a d db db' : db_ok db -> DeleteUser a d db = Ok (tt, db') -> same_accounts db db'.
Proof.
  intros Hok E. unfold DeleteUser in E. inv_op. intros i w w' Hw Hw'. unfold user_row in *.
  cbn [on_messages delete_user_row on_users on_blocks on_board_reads on_verifications on_ssh_keys on_echo_reads on_file_reads
    on_netmail users] in Hw'. apply row_delete in Hw'; [by simplify_eq|apply Hok].
Qed.

Lemma ChangePassword_protected cfg salt i c n db db' :
  ChangePassword cfg salt i c n db = Ok (tt, db') -> protected cfg db db'.
Proof.
  intros E. pose proof E as E0. unfold ChangePassword, setPassword in E. inv_op. case_match; [|done]. inv_op.
  eapply update_protected; [eassumption|done|]. intros u Hu. unfold user_row in Hu. simplify_eq. split; [by left|right]. by eapply pc_own.
Qed.

Lemma ResetPassword_protected cfg salt a i p db db' :
  ResetPassword cfg salt a i p db = Ok (tt, db') -> protected cfg db db'.
Proof.
  intros E. pose proof E as E0. unfold ResetPassword, setPassword in E. inv_op.
  match goal with Ha : requireActor _ _ _ _ = Ok _ |- _ => apply requireActor_Ok in Ha as (_ & Ha) end.
  eapply update_protected; [eassumption|done|]. intros u Hu. split; [by left|right]. by eapply pc_reset.
Qed.

Lemma rights_protected cfg i f db db' :
  updateUser i f db = Ok (tt, db') -> (forall u, u_id (f u) = u_id u) -> (forall u, u_cred (f u) = u_cred u) ->
  rights_change db i db' -> protected cfg db db'.
Proof. intros E Hi Hc Hr. eapply update_protected; [eassumption|done|]. intros u _. split; [by right|by left]. Qed.

Lemma BootstrapSysop_protected cfg h u db db' : db_ok db -> BootstrapSysop h db = Ok (u, db') -> protected cfg db db'.
Proof.
  intros Hok E. pose proof E as E0. unfold BootstrapSysop, UserByHandle in E. inv_op.
  match goal with Hr : row_by _ _ = Some ?v |- _ => apply row_by_Some in Hr as [Hin Hk]; rename v into w end.
  unfold user_with_key in Hk. bool_prop. apply (row_elem u_id) in Hin; [|apply Hok].
  match goal with E : updateUser (u_id w) ?f db = Ok _, Hu : row u_id (users db') (u_id w) = Some u |- _ =>
    pose proof (updateUser_row _ f _ _ E ltac:(done) (u_id w)) as Hrow;
    eapply rights_protected; [exact E|done|done|]; unfold user_row in Hrow; rewrite Hu, Hin in Hrow end.
  cbn in Hrow. rewrite Z.eqb_refl in Hrow. injection Hrow as Eu.
  eapply (rc_console _ _ h u); [by rewrite Eu|by rewrite Eu|exact E0].
Qed.

Lemma sysop_op_protected cfg a i b f db db' :
  requireActor a i b db = Ok tt -> updateUser i f db = Ok (tt, db') -> (forall u, u_id (f u) = u_id u) ->
  (forall u, u_cred (f u) = u_cred u) -> (sysop db a -> (b = true -> a <> i) -> rights_change db i db') -> protected cfg db db'.
Proof. intros (Hne & Ha)%requireActor_Ok E Hi Hc Hr. eapply rights_protected; eauto. Qed.
End account.

Ltac same_users :=
  apply same_protected, same_users; try done;
  repeat match goal with H : _ = Ok _ |- _ => progress (unfold Block, AddSSHKey, DeleteSSHKey, StartEmailVerification,
    SendMessage, MarkRead, DeleteMessage, CreateBoard, DeleteBoard, DeleteBulletin, DeleteOneliner, sysopDelete, AddPost, DeletePost,
    MarkBoardRead, AddBulletin, AddOneliner, MarkEchoRead, ImportNetmail, RecordSentNetmail, RemoveFile, MarkFilesSeen in H) end;
  inv_op; repeat (case_match; inv_op); cbn; eauto using insertNetmail_users, ImportEcho_users, AddFile_users.

(** C10: Rights and passwords are protected: whatever operation runs on a reachable database, an account
    keeps its sysop, lock and validation flags unless a sysop (never the account itself, for a
    demotion or a lock) or the console changed them, and keeps its password unless its owner gave the
    current one or a sysop reset it. *)
Theorem accounts_protected `{UnicodeTables} `{Crypto} `{MailParser} (cfg : Config) (db db' : DB) :
  reachable cfg db -> step cfg db db' -> protected cfg db db'.
Proof.
  intros Hok%reachable_ok Hs. destruct Hs.
  all: try (same_users; fail).
  - apply same_protected. match goal with H : CreateUser _ _ _ _ _ _ _ = _ |- _ => unfold CreateUser in H end. inv_op. apply same_insert.
  - apply same_protected. match goal with H : RecordLogin _ _ _ = _ |- _ => unfold RecordLogin in H end. inv_op. by apply same_update.
  - by eapply ChangePassword_protected.
  - by eapply ResetPassword_protected.
  - match goal with H : SetLocation _ _ _ = _ |- _ => unfold SetLocation in H end. inv_op.
    eapply update_protected; [eassumption|done|]. intros v _. split; by left.
  - match goal with H : SetSysop _ _ _ _ = _ |- _ => pose proof H as E; unfold SetSysop in E end. inv_op.
    eapply sysop_op_protected; [eassumption..|done|done|]. intros Ha Hne. eapply rc_sysop; [done| |done]. intros ->. by apply Hne.
  - match goal with H : SetLocked _ _ _ _ = _ |- _ => pose proof H as E; unfold SetLocked in E end. inv_op.
    eapply sysop_op_protected; [eassumption..|done|done|]. intros Ha Hne. by eapply rc_locked; [|apply Hne|].
  - by eapply BootstrapSysop_protected.
  - match goal with H : ValidateUser _ _ _ = _ |- _ => pose proof H as E; unfold ValidateUser in E end. inv_op.
    eapply sysop_op_protected; [eassumption..|done|done|]. intros Ha _. by eapply rc_validate.
  - apply same_protected. by eapply DeleteUser_same.
  - apply same_protected, ConfirmEmail_same.
  - apply same_protected. match goal with H : SetEmailMode _ _ _ = _ |- _ => unfold SetEmailMode in H end. inv_op. by apply same_update.
  - apply same_protected, RemoveEmail_same.
  - apply same_protected, same_users. unfold MarkFTNFile. by case_match.
Qed.

Lemma accounts_protected_witness : exists db', SetLocked 1 2 true demo_db = Ok (tt, db') /\ protected demo_cfg demo_db db'.
Proof.
  destruct (SetLocked 1 2 true demo_db) as [[[] db']|e] eqn:E.
  - exists db'. split; [reflexivity|]. apply accounts_protected; [apply demo_reachable|]. by eapply st_locked.
  - exfalso. revert E. vm_compute. discriminate.
Defined.

(** ** Passwords *)

Section passwords.
Context `{UnicodeTables} `{Crypto} `{MailParser}.
Implicit Types db : DB.

Lemma row_by_update {R} (p q : R -> bool) f (rows : list R) :
  (forall r, p (f r) = p r) -> row_by p (update_where q f rows) = (fun r => if q r then f r else r) <$> row_by p rows.
Proof.
  intros Hf. unfold row_by, update_where. induction rows as [|r rows IH]; [done|]. cbn.
  assert (p (if q r then f r else r) = p r) as -> by (destruct (q r); [apply Hf|done]). destruct (p r); [done|exact IH].
Qed.

Lemma find_key (us : list UserRow) u : unique u_key us -> u ∈ us -> row_by (user_with_key (u_key u)) us = Some u.
Proof.
  intros Hu Hin. destruct (row_by (user_with_key (u_key u)) us) as [v|] eqn:E.
  - apply row_by_Some in E as [Hv Hk]. unfold user_with_key in Hk. bool_prop. f_equal. by apply (unique_elem u_key us).
  - exfalso. apply find_none with (x := u) in E; [|by apply list_elem_of_In]. unfold user_with_key in E. by bool_prop.
Qed.

Lemma matches_new salt p q iter :
  0 < iter -> salt <> [] -> matches (newCredential salt p iter) q = Ok (bool_decide (deriveKey q salt iter = deriveKey p salt iter)).
Proof.
  intros Hi Hs. unfold matches, newCredential. cbn. rewrite bool_decide_eq_false_2 by done.
  by destruct (Z.leb_spec iter 0); [lia|].
Qed.

Lemma Authenticate_cred db h u q :
  row_by (user_with_key (handleKey h)) (users db) = Some u ->
  Authenticate h q db = (ok ← matches (u_cred u) q; if ok : bool then mret u else Err ErrBadCredentials).
Proof. unfold Authenticate. by intros ->. Qed.
End passwords.

(** A password opens its account and nothing else does: after signing up, the handle in any case or spacing
    with the password logs in, and a password with another PBKDF2 hash does not; after a change the new password
    logs in, one with another hash does not, and every other account logs in as before. *)
Theorem password_lifecycle `{UnicodeTables} `{Crypto} `{MailParser} (cfg : Config) (salt : bytes) (db : DB) :
  reachable cfg db -> 0 < kdfIter cfg -> salt <> [] ->
  (forall now h p l u db' h' q, CreateUser cfg now salt h p l db = Ok (u, db') -> handleKey h' = u_key u ->
     Authenticate h' q db' = if bool_decide (deriveKey q salt (kdfIter cfg) = deriveKey p salt (kdfIter cfg)) then Ok u else Err ErrBadCredentials)
  /\ (forall i u p next db' h' q, user_row db i = Some u -> ChangePassword cfg salt i p next db = Ok (tt, db') ->
     Authenticate h' q db' =
       if bool_decide (handleKey h' = u_key u) then
         if bool_decide (deriveKey q salt (kdfIter cfg) = deriveKey next salt (kdfIter cfg))
         then Ok (with_cred (newCredential salt next (kdfIter cfg)) u) else Err ErrBadCredentials
       else Authenticate h' q db).
Proof.
  intros Hok%reachable_ok Hi Hs. destruct (ok_users _ Hok) as [Ut Uk _ _ _ _]. split.
  - intros now h p l u db' h' q E Hk. unfold CreateUser in E. inv_op. bool_prop. cbn [u_key] in Hk.
    match goal with Hx : existsb _ _ = false |- _ => apply existsb_false in Hx as Hf end.
    erewrite Authenticate_cred.
    2:{ cbn [on_users users]. unfold row_by. rewrite find_app, Hk.
        assert (find (user_with_key (handleKey (trim_space h))) (users db) = None) as ->.
        { destruct (find _ _) as [v|] eqn:Ev; [|done]. apply find_some in Ev as [Hv Ev]. apply list_elem_of_In in Hv.
          rewrite Forall_forall in Hf. by rewrite Hf in Ev. }
        cbn. unfold user_with_key. cbn [u_key]. by rewrite bool_decide_eq_true_2. }
    cbn [u_cred]. rewrite matches_new by done. cbn. by case_bool_decide.
  - intros i u p next db' h' q Hu E. unfold ChangePassword, setPassword in E. inv_op. case_match; [|done]. inv_op.
    unfold user_row in Hu. unfold updateUser in *. rewrite Hu in *. inv_op.
    apply row_Some in Hu as [Hin Hid]. unfold Authenticate at 1. cbn [on_users users]. rewrite row_by_update by done.
    case_bool_decide as Hk.
    + rewrite Hk, find_key by done. cbn [fmap option_fmap option_map]. rewrite Hid, Z.eqb_refl. cbn [u_cred with_cred].
      rewrite matches_new by done. cbn. by case_bool_decide.
    + unfold Authenticate. destruct (row_by _ (users db)) as [v|] eqn:Ev; [|done]. cbn [fmap option_fmap option_map].
      destruct (Z.eqb_spec (u_id v) i) as [Ei|]; [|done]. exfalso. apply row_by_Some in Ev as [Hv Hkv]. unfold user_with_key in Hkv. bool_prop.
      apply Hk. rewrite <-Hkv. f_equal. apply (unique_elem u_id (users db)); [by apply table_ids|done|done|congruence].
Qed.

Lemma password_lifecycle_witness :
  exists u db', CreateUser demo_cfg 300 (str "grain") (str "Dave") (str "swordfish") [] demo_db = Ok (u, db')
    /\ Authenticate (str " dAVE") (str "swordfish") db' = Ok u.
Proof.
  destruct (CreateUser demo_cfg 300 (str "grain") (str "Dave") (str "swordfish") [] demo_db) as [[u db']|e] eqn:E.
  - exists u, db'. split; [reflexivity|].
    rewrite (proj1 (password_lifecycle demo_cfg (str "grain") demo_db demo_reachable ltac:(done) ltac:(done)) _ _ _ _ _ _
               (str " dAVE") (str "swordfish") E).
    + by rewrite bool_decide_eq_true_2.
    + revert E. vm_compute. by intros [= <- _].
  - exfalso. revert E. vm_compute. discriminate.
Defined.

(** ** Confirming an address *)

Section email.
Context `{UnicodeTables} `{Crypto} `{MailParser}.
Implicit Types db : DB.

Definition guess (now u : Z) (codes : list bytes) (db : DB) : DB := foldl (fun db c => snd (ConfirmEmail now u c db)) db codes.

Lemma row_by_const {R} (p : R -> bool) v (rows : list R) :
  p v = true -> existsb p rows = true -> row_by p (update_where p (fun _ => v) rows) = Some v.
Proof.
  intros Hv. unfold row_by, update_where. induction rows as [|r rows IH]; [done|]. cbn. destruct (p r) eqn:E; cbn; [by rewrite Hv|].
  rewrite E. exact IH.
Qed.

Lemma row_by_delete {R} (p : R -> bool) (rows : list R) : row_by p (delete_where p rows) = None.
Proof.
  destruct (row_by p _) as [r|] eqn:E; [|done]. apply row_by_Some in E as [[Hp _]%elem_of_delete Hp']. congruence.
Qed.

Lemma Start_pending now n u addr db code db' :
  StartEmailVerification now n u addr db = Ok (code, db') ->
  code = pad_dec emailCodeDigits n /\ users db' = users db /\ is_Some (user_row db u)
  /\ pending_of u db' = Some (MkVerification u (trim_space addr) (sha256 code) (now + EmailCodeTTL) 0).
Proof.
  unfold StartEmailVerification. intros E. inv_op. case_match eqn:Er; [|done]. inv_op. split_and!; [done..|].
  unfold pending_of, upsert_verification. cbn [on_verifications verifications]. destruct (existsb _ _) eqn:Ex; cbn in Ex.
  - apply row_by_const; [apply Z.eqb_refl|done].
  - unfold row_by. rewrite find_app. apply existsb_false in Ex.
    destruct (find _ _) as [v|] eqn:Ev; [|cbn; by rewrite Z.eqb_refl]. exfalso. apply find_some in Ev as [Hv Ev].
    apply list_elem_of_In in Hv. rewrite Forall_forall in Ex. by rewrite Ex in Ev.
Qed.

(** A wrong code counts, and the sixth try removes the pending address. *)
Lemma wrong_guess now u w db v :
  pending_of u db = Some v -> now <= v_expires v -> sha256 (trim_space w) <> v_hash v ->
  let db' := snd (ConfirmEmail now u w db) in
  users db' = users db /\
  pending_of u db' = if v_attempts v <? maxEmailCodeTries
                     then Some (MkVerification (v_user v) (v_email v) (v_hash v) (v_expires v) (v_attempts v + 1)) else None.
Proof.
  intros Hp Ht Hw. unfold ConfirmEmail. rewrite Hp. destruct (Z.ltb_spec (v_expires v) now); [lia|]. cbn [orb].
  rewrite (Z.ltb_antisym maxEmailCodeTries (v_attempts v)). destruct (maxEmailCodeTries <=? v_attempts v); cbn [negb snd].
  - split; [done|]. apply row_by_delete.
  - rewrite bool_decide_eq_false_2 by done. cbn [negb snd]. split; [done|]. unfold pending_of in *.
    cbn [on_verifications verifications]. rewrite row_by_update, Hp by done. cbn.
    apply row_by_Some in Hp as [_ Hu]. by rewrite Hu.
Qed.

Lemma guesses now u ws db v k :
  pending_of u db = Some v -> v_attempts v = k -> 0 <= k <= maxEmailCodeTries -> now <= v_expires v ->
  Forall (fun w => sha256 (trim_space w) <> v_hash v) ws ->
  users (guess now u ws db) = users db /\
  pending_of u (guess now u ws db) =
    if k + len ws <=? maxEmailCodeTries
    then Some (MkVerification (v_user v) (v_email v) (v_hash v) (v_expires v) (k + len ws)) else None.
Proof.
  intros Hp Hk Hr Ht Hw. revert db v k Hp Hk Hr Ht Hw. induction ws as [|w ws IH]; intros db v k Hp Hk Hr Ht Hw.
  - cbn [guess foldl]. rewrite len_nil, Z.add_0_r. destruct (Z.leb_spec k maxEmailCodeTries); [|lia]. subst k. by destruct v.
  - apply Forall_cons in Hw as [Hw Hws]. destruct (wrong_guess now u w db v Hp Ht Hw) as [Eu Ep].
    cbn [guess foldl]. set (db1 := snd (ConfirmEmail now u w db)) in *. fold (guess now u ws db1). rewrite <-Eu.
    rewrite len_cons. destruct (Z.ltb_spec (v_attempts v) maxEmailCodeTries) as [Hlt|Hge].
    + destruct (IH db1 _ (k + 1) Ep) as [IHu IHp]; cbn; [lia..|done|]. split; [done|]. rewrite IHp. cbn.
      by replace (k + 1 + len ws) with (k + (1 + len ws)) by lia.
    + destruct (Z.leb_spec (k + (1 + len ws)) maxEmailCodeTries); [pose proof (len_nonneg ws); lia|]. clear IH Hws.
      clearbody db1. revert db1 Eu Ep. induction ws as [|x ws IH]; intros db1 Eu Ep; [done|]. cbn [guess foldl].
      unfold ConfirmEmail at 2 4. rewrite Ep. cbn [snd]. apply IH; [rewrite len_cons in *; pose proof (len_nonneg ws); lia|done|done].
Qed.
End email.

Lemma code_format `{UnicodeTables} n : 0 <= n < emailCodeUpperBound ->
  length (pad_dec emailCodeDigits n) = 6%nat /\ trim_space (pad_dec emailCodeDigits n) = pad_dec emailCodeDigits n.
Proof.
  intros [Hn Hb]. destruct (udec_spec n Hn) as (_ & Hd & _ & Hk). specialize (Hk 6%nat ltac:(lia) Hb).
  unfold pad_dec, zpad, emailCodeDigits. split; [rewrite length_app, length_replicate; lia|].
  apply trim_space_graphic, Forall_app. split.
  - by apply Forall_replicate.
  - eapply Forall_impl; [exact Hd|]. intros b [? ?]%udigit_range. unfold graphic, between. by rewrite !(proj2 (Z.leb_le _ _)) by lia.
Qed.

(** A confirmation code can be tried five times: after [ws] wrong codes the right one, in time, confirms the
    address exactly when [ws] has at most four entries (the fifth wrong one uses the code up); a confirmed
    address is stored with at least [EmailNotice], and without the code nothing about the account
    changes.  The code has six digits. *)
Theorem email_code_tries `{UnicodeTables} `{Crypto} `{MailParser} (now n u : Z) (addr : bytes) (db db0 : DB) (code : bytes)
    (later : Z) (ws : list bytes) :
  StartEmailVerification now n u addr db = Ok (code, db0) -> 0 <= n < emailCodeUpperBound -> later <= now + EmailCodeTTL ->
  Forall (fun w => sha256 (trim_space w) <> sha256 code) ws ->
  Forall (fun x => u_id x <> u -> sql_lower (u_email x) <> sql_lower (trim_space addr)) (users db) ->
  length code = 6%nat /\ users (guess later u ws db0) = users db /\
  match ConfirmEmail later u code (guess later u ws db0) with
  | (Ok x, db') => len ws < maxEmailCodeTries /\ u_email x = trim_space addr /\ EmailNotice <= u_mode x
                   /\ user_row db' u = Some x /\ pending_of u db' = None
  | (Err _, db') => maxEmailCodeTries <= len ws /\ users db' = users db
  end.
Proof.
  intros Hs Hn Hl Hw Hfree. apply Start_pending in Hs as (Hc & Eu & [x Hx] & Hp).
  destruct (code_format n Hn) as [Hlen Htrim]. rewrite <-Hc in Hlen, Htrim.
  destruct (guesses later u ws db0 _ 0 Hp) as [Gu Gp]; [done|by unfold maxEmailCodeTries|done|done|]. split; [done|]. split; [congruence|].
  unfold maxEmailCodeTries in *. rewrite Z.add_0_l in Gp. set (db1 := guess later u ws db0) in *.
  unfold ConfirmEmail. rewrite Gp. destruct (Z.leb_spec (len ws) 5) as [Hle|Hgt]; [|split; [lia|congruence]].
  cbn [v_expires v_attempts v_hash v_email]. destruct (Z.ltb_spec (now + EmailCodeTTL) later); [lia|]. cbn [orb].
  unfold maxEmailCodeTries. destruct (Z.leb_spec 5 (len ws)); [split; [lia|cbn; congruence]|].
  rewrite bool_decide_eq_true_2 by congruence. cbn [negb].
  destruct (existsb _ (users db1)) eqn:Ex.
  { exfalso. apply existsb_true in Ex as (y & Hy & E). bool_prop. rewrite Gu, Eu in Hy. rewrite Forall_forall in Hfree. by apply (Hfree y). }
  set (db2 := drop_pending _ _). pose proof (user_row_id _ _ _ Hx) as Ei.
  assert (user_row db2 u = Some (with_email (trim_space addr) (Z.max (u_mode x) EmailNotice) x)) as Hrow.
  { unfold user_row, db2. cbn [drop_pending on_verifications on_users users].
    rewrite Gu, Eu, row_update by done. unfold user_row in Hx. rewrite Hx. cbn [fmap option_fmap option_map]. by rewrite Ei, Z.eqb_refl. }
  unfold getUser. unfold user_row in Hrow at 1. rewrite Hrow. cbn [or_not_found].
  split_and!; [lia|done|cbn; unfold EmailNotice; lia|exact Hrow|apply row_by_delete].
Qed.

Lemma email_code_tries_witness :
  match ConfirmEmail 500 3 (str "000007") (guess 500 3 [str "111111"; str "222222"] (run (StartEmailVerification 400 7 3 (str "carol@example.org")) demo_db)) with
  | (Ok x, _) => u_email x = str "carol@example.org" | (Err _, _) => False
  end.
Proof.
  destruct (StartEmailVerification 400 7 3 (str "carol@example.org") demo_db) as [[code db0]|e] eqn:E; [|exfalso; revert E; vm_compute; discriminate].
  unfold run. rewrite E. assert (code = str "000007") as ->.
  { revert E. vm_compute. by intros [= <- _]. }
  destruct (email_code_tries 400 7 3 (str "carol@example.org") demo_db db0 (str "000007") 500 [str "111111"; str "222222"] E) as (_ & _ & Hm).
  - split; [discriminate|reflexivity].
  - discriminate.
  - repeat (constructor; [vm_compute; discriminate|]). constructor.
  - apply Forall_forall. intros x Hx _. assert (u_email x = []) as ->.
    { revert x Hx. apply Forall_forall. vm_compute. repeat (constructor; [reflexivity|]). constructor. }
    vm_compute. discriminate.
  - destruct (ConfirmEmail _ _ _ _) as [[x|e] db']; [by destruct_and?|]. destruct Hm as [Hm _]. vm_compute in Hm. by apply Hm.
Defined.

(** ** Handles *)

Definition handle_char (c : Z) : bool :=
  isLetter c || is_digit c || (c =? ch "_") || (c =? ch "-") || (c =? ch ".").

(** What a handle may look like after its first letter; [prev] says that a space came before. *)
Definition handle_tail (s : bytes) (prev : bool) : Prop :=
  Forall (fun c => handle_char c = true \/ c = 32) s /\ last s <> Some 32
  /\ (forall a b, s <> a ++ 32 :: 32 :: b) /\ (prev = true -> head s <> Some 32).

Lemma handle_char_space : handle_char 32 = false.
Proof. reflexivity. Qed.

Lemma handle_chars_spec s prev : handle_chars s prev = Ok tt <-> handle_tail s prev.
Proof.
  unfold handle_tail. revert prev. induction s as [|c s IH]; intros prev; cbn [handle_chars].
  - split; [|done]. intros _. split_and!; [constructor|done|by intros [|? []] ?|done].
  - fold (handle_char c). destruct (handle_char c) eqn:Ec.
    + rewrite IH. assert (c <> 32) as Hc by (by intros ->). rewrite Forall_cons. split.
      * intros (Hf & Hl & Hd & _). split_and!; [by left|done| | |by intros _ [= ?]].
        -- destruct s; [cbn; congruence|done].
        -- intros [|x a] b E; [by injection E as ->|]. injection E as -> E. by apply (Hd a b).
      * intros ([_ Hf] & Hl & Hd & _). split_and!; [done| | |done].
        -- by destruct s.
        -- intros a b ->. by apply (Hd (c :: a) b).
    + destruct (Z.eqb_spec c 32) as [->|Hc].
      * destruct prev; cbn [orb].
        { split; [done|]. intros (_ & _ & _ & Hp). exfalso. by apply Hp. }
        case_bool_decide as Es.
        { subst s. split; [done|]. intros (_ & Hl & _). exfalso. by apply Hl. }
        rewrite IH. rewrite Forall_cons. split.
        -- intros (Hf & Hl & Hd & Hp). split_and!; [by right|done|by destruct s| |done].
           intros [|x a] b E.
           ++ injection E as ->. by apply Hp.
           ++ injection E as <- E. by apply (Hd a b).
        -- intros ([_ Hf] & Hl & Hd & _). split_and!; [done|by destruct s| |].
           ++ intros a b ->. by apply (Hd (32 :: a) b).
           ++ intros _. destruct s as [|x s]; [done|]. intros [= ->]. by apply (Hd [] s).
      * split; [done|]. intros (Hf & _). rewrite Forall_cons in Hf. destruct Hf as [[|] _]; congruence.
Qed.

(** A handle is valid exactly when it has 3 to 20 bytes, starts with an ASCII letter, holds only ASCII
    letters, digits, [_], [-], [.] and single inner spaces, and is none of the reserved names in any case. *)
Theorem ValidateHandle_spec `{UnicodeTables} (h : bytes) :
  ValidateHandle h = Ok tt <->
  3 <= len h <= 20 /\ (exists c h', h = c :: h' /\ isLetter c = true)
  /\ Forall (fun c => handle_char c = true \/ c = 32) h /\ last h <> Some 32 /\ (forall a b, h <> a ++ 32 :: 32 :: b)
  /\ to_lower h ∉ [str "new"; str "all"; str "sysop"].
Proof.
  unfold ValidateHandle, MinHandleLen, MaxHandleLen. rewrite bind_Ok. setoid_rewrite guard_res_Ok. split.
  - intros ([] & Hl & E). inv_op. bool_prop.
    match goal with E : handle_chars _ _ = Ok ?x |- _ => destruct x; apply handle_chars_spec in E as (? & ? & ? & _) end.
    split_and!; [lia|lia| |done..]. destruct h as [|c h]; [done|]. eauto.
  - intros (Hl & (c & h' & -> & Hc) & Hf & Hlast & Hd & Hr). exists tt. split.
    + apply negb_true_iff, orb_false_iff. split; apply Z.ltb_ge; lia.
    + rewrite Hc. cbn [guard_res mbind result_bind]. assert (handle_chars (c :: h') false = Ok tt) as ->.
      { apply handle_chars_spec. by split_and!. }
      cbn [mbind result_bind]. unfold reservedHandles. by rewrite bool_decide_eq_false_2.
Qed.
