(* ===== verification/Statements.v ===== *)
(** * The store's operations, statement by statement

    Most operations of [internal/store] are one statement or one transaction.  Those that are not are here, as the statements
    they run: other goroutines' statements come in between, and the program may stop there.  The theorems: run alone, each
    is the operation that the rest of the development uses; and whatever the interleaving, the database stays consistent,
    save for the two things that take two statements: the log's length, which the next entry restores, and that there is a
    sysop, which holds as long as no demotion is interrupted ([no_sysop_left] is what happens otherwise). *)

From Stdlib Require Import Ascii String ZArith Lia Sorted.
From stdpp Require Import base tactics list gmap strings sorting.
From S2P Require Import Prelude GoStrings GoTime Term StoreDB StoreUsers StoreMail StoreBoards StoreEcho StoreInv StoreDemo StoreOk StoreAccountSpec.
Open Scope Z_scope.

(** What is left to do of a call: its result, or a statement and what follows its answer. *)
Inductive script (A : Type) : Type :=
  | Done (r : result store_error A)
  | Statement {B : Type} (run : DB -> B * DB) (next : B -> script A).
Arguments Done {A} r.
Arguments Statement {A B} run next.

Fixpoint then_ {A C} (k : A -> script C) (c : script A) : script C :=
  match c with
  | Done (Ok a) => k a
  | Done (Err e) => Done (Err e)
  | Statement run next => Statement run (fun b => then_ k (next b))
  end.
Global Instance script_ret : MRet script := fun A a => Done (Ok a).
Global Instance script_bind : MBind script := fun A C k c => then_ k c.

(** A transaction, a query, a statement that does not fail, and what is decided without the database. *)
Definition transaction {A} (o : op A) : script A :=
  Statement (fun db => match o db with Ok (a, db') => (Ok a, db') | Err e => (Err e, db) end) Done.
Definition query {A} (q : DB -> result store_error A) : script A := Statement (fun db => (q db, db)) Done.
Definition exec (f : DB -> DB) : script unit := Statement (fun db => (tt, f db)) (fun _ => Done (Ok tt)).
Definition decided {A} (r : result store_error A) : script A := Done r.

(** One statement of a call. *)
Definition turn {A} (c : script A) (db : DB) : script A * DB :=
  match c with Done r => (Done r, db) | Statement run next => (next (fst (run db)), snd (run db)) end.

(** A call that nobody disturbs. *)
Fixpoint alone {A} (c : script A) (db : DB) : result store_error A * DB :=
  match c with Done r => (r, db) | Statement run next => alone (next (fst (run db))) (snd (run db)) end.

Definition forget {A} (c : script A) : script unit := _ ← c; mret tt.

(** ** users.go *)

Section scripts.
Context `{UnicodeTables} `{Crypto} `{MailParser} (cfg : Config) (demotions : bool).

Definition setPassword_steps (salt : bytes) (id : Z) (password : bytes) : script unit :=
  _ ← decided (ValidatePassword password);
  transaction (updateUser id (with_cred (newCredential salt password (kdfIter cfg)))).

Definition ChangePassword_steps (salt : bytes) (id : Z) (current next : bytes) : script unit :=
  u ← query (fun db => getUser db id);
  ok ← decided (matches (u_cred u) current);
  if ok : bool then setPassword_steps salt id next else decided (Err ErrBadCredentials).

Definition ResetPassword_steps (salt : bytes) (actorID id : Z) (password : bytes) : script unit :=
  _ ← query (requireActor actorID id false); setPassword_steps salt id password.

Definition SetLocation_steps (id : Z) (location : bytes) : script UserRow :=
  _ ← transaction (updateUser id (with_location (Clean location MaxLocationLen))); query (UserByID id).

Definition SetSysop_steps (actorID id : Z) (sysop : bool) : script unit :=
  _ ← query (requireActor actorID id (negb sysop));
  transaction (updateUser id (fun u => with_flags sysop (u_locked u) (u_validated u || sysop) u)).

Definition SetLocked_steps (actorID id : Z) (locked : bool) : script unit :=
  _ ← query (requireActor actorID id true);
  transaction (updateUser id (fun u => with_flags (u_sysop u) locked (u_validated u) u)).

Definition ValidateUser_steps (actorID id : Z) : script unit :=
  _ ← query (requireActor actorID id false);
  transaction (updateUser id (fun u => with_flags (u_sysop u) (u_locked u) true u)).

(** ** blocks.go, email.go *)

(** [INSERT OR IGNORE]; the row refers to two users. *)
Definition insert_block (userID blockedID : Z) : op unit := fun db =>
  if existsb (fun b => bool_decide (b = (userID, blockedID))) (blocks db) then mret (tt, db)
  else match row u_id (users db) userID, row u_id (users db) blockedID with
       | Some _, Some _ => mret (tt, on_blocks (fun bs => bs ++ [(userID, blockedID)]) db)
       | _, _ => Err ErrConstraint
       end.

Definition Block_steps (userID blockedID : Z) : script unit :=
  _ ← decided (guard_res (negb (userID =? blockedID)) (InputError (str "You can't block yourself.")));
  _ ← query (UserByID blockedID);
  transaction (insert_block userID blockedID).

Definition update_mode (userID mode : Z) : op unit := fun db =>
  let mine u := (u_id u =? userID) && negb (bool_decide (u_email u = [])) in
  _ ← guard_res (existsb mine (users db)) (InputError (str "Add and verify an email address first."));
  mret (tt, on_users (update_where mine (fun u => with_email (u_email u) mode u)) db).

Definition SetEmailMode_steps (userID mode : Z) : script UserRow :=
  _ ← decided (guard_res (negb ((mode <? EmailOff) || (EmailCopy <? mode))) (InputError (str "Unknown email setting.")));
  _ ← transaction (update_mode userID mode);
  query (UserByID userID).

Definition RemoveEmail_steps (userID : Z) : script UserRow :=
  _ ← exec (fun db => on_users (update_where (fun u => u_id u =? userID) (with_email [] 0)) (drop_pending userID db));
  query (UserByID userID).

(** ** messages.go, community.go, events.go, throttle.go, netmail.go *)

(** The UPDATE, and whether it changed a row. *)
Definition update_read (now msgID userID : Z) (db : DB) : result store_error bool * DB :=
  let unread m := (m_id m =? msgID) && in_inbox userID m && (m_read m =? 0) in
  (Ok (existsb unread (messages db)), on_messages (update_where unread (with_read now)) db).

Definition MarkRead_steps (now msgID userID : Z) : script unit :=
  changed ← Statement (update_read now msgID userID) Done;
  if changed : bool then mret tt
  else query (fun db => guard_res (existsb (fun m => (m_id m =? msgID) && in_inbox userID m) (messages db)) ErrNotFound).

Definition insert_oneliner (now authorID : Z) (text : bytes) : op OnelinerRow := fun db =>
  let o := MkOneliner (next_id o_id (oneliners db)) authorID text now in
  Ok (o, on_oneliners (fun os => os ++ [o]) db).

Definition AddOneliner_steps (now authorID : Z) (text : bytes) : script (OnelinerRow * bytes) :=
  let text := Clean text MaxOnelinerLen in
  _ ← decided (guard_res (negb (bool_decide (text = []))) (InputError (str "Say something first.")));
  u ← query (UserByID authorID);
  _ ← decided (guard_res (u_validated u) ErrNotValidated);
  o ← transaction (insert_oneliner now authorID text);
  mret (o, u_handle u).

Definition insert_event (now : Z) (kind : bytes) (userID : Z) (handle ip detail : bytes) : DB -> DB :=
  on_events (fun es => es ++ [MkEvent (next_id e_id es) now kind userID handle ip detail]).
Definition trim_events (db : DB) : DB := on_events (delete_where (fun e => e_id e <=? max_id e_id (events db) - maxEvents)) db.

Definition LogEvent_steps (now : Z) (kind : bytes) (userID : Z) (handle ip detail : bytes) : script unit :=
  _ ← exec (insert_event now kind userID handle ip detail); exec trim_events.

Definition RecordHit_steps (bucket key : bytes) (at_ : Z) : script unit :=
  _ ← exec (on_hits (fun hs => hs ++ [MkHit bucket key at_]));
  exec (on_hits (delete_where (fun h => h_at h <? at_ - throttleRetention))).

Definition sent_row (now : Z) (n : NetmailRow) : NetmailRow :=
  let posted := if n_posted n =? 0 then now else n_posted n in
  let author := match n_author n with Some a => if a =? 0 then None else Some a | None => None end in
  MkNetmail (n_id n) true (n_msgid n) (n_reply n) (cleanNetmailName (n_from n) (str "Sysop")) (n_from_addr n)
    (cleanNetmailName (n_to n) (str "Sysop")) (n_to_addr n) (Clean (n_subject n) MaxSubjectLen)
    (truncateUTF8 (n_body n) MaxNetmailBodySize) posted (n_received n) posted author.

Definition RecordSentNetmail_steps (now : Z) (n : NetmailRow) : script NetmailRow :=
  _ ← transaction (insertNetmail now (sent_row now n)); query (NetmailByMsgID (n_msgid n)).

(** ** Each of them, and the operation it is *)

(** A transaction leaves nothing when it fails. *)
Definition commit {A} (o : op A) (db : DB) : result store_error A * DB :=
  match o db with Ok (a, db') => (Ok a, db') | Err e => (Err e, db) end.
Definition committed (f : DB -> DB) (db : DB) : result store_error unit * DB := (Ok tt, f db).

(** [demotions]: whether other statements may come between the two of a demotion. *)
Inductive implements : forall A, script A -> (DB -> result store_error A * DB) -> Prop :=
  | im_password salt i c n : implements unit (ChangePassword_steps salt i c n) (commit (ChangePassword cfg salt i c n))
  | im_reset salt a i p : implements unit (ResetPassword_steps salt a i p) (commit (ResetPassword cfg salt a i p))
  | im_location i l : implements UserRow (SetLocation_steps i l) (commit (SetLocation i l))
  | im_sysop a i b : b || demotions = true -> implements unit (SetSysop_steps a i b) (commit (SetSysop a i b))
  | im_locked a i b : implements unit (SetLocked_steps a i b) (commit (SetLocked a i b))
  | im_validate a i : implements unit (ValidateUser_steps a i) (commit (ValidateUser a i))
  | im_block u b : implements unit (Block_steps u b) (commit (Block u b))
  | im_email_mode u m : implements UserRow (SetEmailMode_steps u m) (commit (SetEmailMode u m))
  | im_remove_email u : implements UserRow (RemoveEmail_steps u) (RemoveEmail u)
  | im_mark_read now m u : implements unit (MarkRead_steps now m u) (commit (MarkRead now m u))
  | im_oneliner now a t : implements (OnelinerRow * bytes) (AddOneliner_steps now a t) (commit (AddOneliner now a t))
  | im_event now k u h i d : implements unit (LogEvent_steps now k u h i d) (committed (LogEvent now k u h i d))
  | im_hit b k t : implements unit (RecordHit_steps b k t) (committed (RecordHit b k t))
  | im_sent now n : implements NetmailRow (RecordSentNetmail_steps now n) (commit (RecordSentNetmail now n)).

(** The calls that are under way, and the database.  Operations of one statement or one transaction run as a whole; a call
    starts, runs a statement, or goes, finished or not. *)
Inductive interleaved : list (script unit) -> DB -> Prop :=
  | il_fresh : interleaved [] fresh_db
  | il_whole calls db db' : interleaved calls db -> step cfg db db' -> interleaved calls db'
  | il_start A c o calls db : interleaved calls db -> implements A c o -> interleaved (calls ++ [forget c]) db
  | il_turn before c after db :
      interleaved (before ++ c :: after) db -> interleaved (before ++ fst (turn c db) :: after) (snd (turn c db))
  | il_gone before c after db : interleaved (before ++ c :: after) db -> interleaved (before ++ after) db.

(** * Theorems *)

(** ** Alone, they are the operations *)

Lemma alone_then {A C} (c : script A) (k : A -> script C) db :
  alone (then_ k c) db = match alone c db with (Ok a, db') => alone (k a) db' | (Err e, db') => (Err e, db') end.
Proof. revert db. induction c as [r|B run next IH]; intros db; cbn; [by destruct r|apply IH]. Qed.

Lemma same_messages (f : list MessageRow -> list MessageRow) db : f (messages db) = messages db -> on_messages f db = db.
Proof. intros E. unfold on_messages. rewrite E. by destruct db. Qed.

Lemma updated_there i f db db' :
  (forall u, u_id (f u) = u_id u) -> updateUser i f db = Ok (tt, db') -> exists u, UserByID i db' = Ok u.
Proof.
  intros Hf. unfold updateUser. destruct (row u_id (users db) i) as [u|] eqn:E; [|done]. intros [= <-].
  unfold UserByID, getUser. cbn [users on_users]. rewrite row_update by done. rewrite E. by eexists.
Qed.

Lemma insert_block_after u b db x :
  UserByID b db = Ok x ->
  insert_block u b db = if existsb (fun p => bool_decide (p = (u, b))) (blocks db) then mret (tt, db)
                        else match row u_id (users db) u with
                             | None => Err ErrConstraint
                             | Some _ => mret (tt, on_blocks (fun bs => bs ++ [(u, b)]) db)
                             end.
Proof. intros E%getUser_Ok. unfold insert_block. by rewrite E. Qed.

Lemma mode_updated u m db db' : update_mode u m db = Ok (tt, db') -> exists x, UserByID u db' = Ok x.
Proof.
  unfold update_mode. intros E. inv_op. match goal with H : existsb _ _ = true |- _ => apply existsb_exists in H as (x & Hin & Hx) end.
  bool_prop. unfold UserByID, getUser. cbn [users on_users]. rewrite row_update by done.
  destruct (row u_id (users db) u) as [y|] eqn:Er; [by eexists|]. exfalso.
  apply find_none with (x := x) in Er; [|done]. cbn in Er. bool_prop. congruence.
Qed.

Lemma set_mode_after u m db :
  SetEmailMode u m db = (_ ← guard_res (negb ((m <? EmailOff) || (EmailCopy <? m))) (InputError (str "Unknown email setting."));
                         '(_, db') ← update_mode u m db; x ← UserByID u db'; mret (x, db')).
Proof. unfold SetEmailMode, update_mode. destruct (guard_res _ _); cbn; [|done]. by destruct (guard_res _ _). Qed.

Lemma sent_is_there now n db b db' : insertNetmail now n db = Ok (b, db') -> exists x, NetmailByMsgID (n_msgid n) db' = Ok x.
Proof.
  intros E. assert (exists r, r ∈ netmail db' /\ n_msgid r = n_msgid n) as (r & Hr & Er).
  { unfold insertNetmail in E. destruct (existsb _ _) eqn:Ex.
    - injection E as <- <-. apply existsb_exists in Ex as (r & Hr & Er). exists r. split; [by apply list_elem_of_In|by bool_prop].
    - inv_op. eexists. split; [by apply newest_has|done]. }
  unfold NetmailByMsgID, or_not_found, row_by. destruct (find _ _) as [x|] eqn:Ef; [by eexists|]. exfalso.
  apply find_none with (x := r) in Ef; [|by apply list_elem_of_In]. cbn in Ef. by bool_prop.
Qed.

Ltac by_turns :=
  unfold commit, committed, forget, guard_res, query, transaction, exec, decided, mret, script_ret, mbind, script_bind, result_bind, result_ret; cbn;
  repeat (case_match; simplify_eq/=); try done.

End scripts.


(** ** In any interleaving the database stays consistent *)

(** What holds between the statements. *)
Definition between_statements (demotions : bool) : Atomicity := {| rights_at_once := negb demotions; log_at_once := false |}.

Section consistent.
Context `{UnicodeTables} `{Crypto} `{MailParser} (cfg : Config) (demotions : bool).
#[local] Instance here : Atomicity := between_statements demotions.
Implicit Types db : DB.

(** Every statement of a call keeps the database consistent, whatever the answers before it were. *)
Fixpoint keeps {A} (c : script A) : Prop :=
  match c with Done _ => True | Statement run next => (forall db, db_ok db -> db_ok (snd (run db))) /\ forall b, keeps (next b) end.

Lemma keeps_then {A C} (c : script A) (k : A -> script C) : keeps c -> (forall a, keeps (k a)) -> keeps (c ≫= k).
Proof. intros Hc Hk. induction c as [[a|e]|B run next IH]; cbn in *; [apply Hk|done|]. destruct Hc as [H1' H2']. split; [done|]. intros b. by apply IH. Qed.

Lemma keeps_decided {A} (r : result store_error A) : keeps (decided r).
Proof. done. Qed.
Lemma keeps_query {A} (q : DB -> result store_error A) : keeps (query q).
Proof. by split. Qed.
Lemma keeps_exec f : (forall db, db_ok db -> db_ok (f db)) -> keeps (exec f).
Proof. by split. Qed.
Lemma keeps_transaction {A} (o : op A) : (forall db a db', o db = Ok (a, db') -> db_ok db -> db_ok db') -> keeps (transaction o).
Proof. intros Ho. split; [|done]. intros db Hok. cbn. destruct (o db) as [[a db']|] eqn:E; [by eapply Ho|done]. Qed.

(** The statements that are none of the operations. *)
Lemma flags_ok i f db x db' :
  (forall u, u_id (f u) = u_id u /\ u_key (f u) = u_key u /\ u_handle (f u) = u_handle u /\ u_email (f u) = u_email u) ->
  (rights_at_once = true -> forall u, u_sysop u = true -> u_sysop (f u) = true) ->
  (forall u, (u_sysop u = true -> u_validated u = true) -> u_sysop (f u) = true -> u_validated (f u) = true) ->
  updateUser i f db = Ok (x, db') -> db_ok db -> db_ok db'.
Proof.
  intros Hf Hs Hv E Hok. unfold updateUser in E. case_match; [|done]. inv_op.
  apply frame_users; [done|by apply fmap_update; intros; apply Hf|]. apply users_update; [apply Hok|done..|].
  intros Ha Hne. destruct (us_sysop _ (ok_users _ Hok) Ha Hne) as (v & Hin & Hv'). exists v. auto.
Qed.

Lemma insert_block_ok u b db x db' : u <> b -> insert_block u b db = Ok (x, db') -> db_ok db -> db_ok db'.
Proof.
  intros Hne E Hok. destruct (row u_id (users db) b) as [y|] eqn:Eb.
  - apply (Block_ok u b db db'); [|done]. unfold Block. apply Z.eqb_neq in Hne. rewrite Hne. cbn.
    assert (UserByID b db = Ok y) as Ey by (unfold UserByID, getUser; by rewrite Eb). rewrite Ey. cbn.
    rewrite (insert_block_after _ _ _ _ Ey) in E. by destruct x.
  - unfold insert_block in E. rewrite Eb in E. destruct (existsb _ _); [by injection E as _ <-|]. by destruct (row _ _ _).
Qed.

Lemma update_mode_ok u m db x db' : update_mode u m db = Ok (x, db') -> db_ok db -> db_ok db'.
Proof. unfold update_mode. intros E Hok. inv_op. by apply frame_update_user. Qed.

Lemma update_read_ok now m u db : db_ok db -> db_ok (snd (update_read now m u db)).
Proof.
  intros Hok. cbn. destruct (MarkRead now m u db) as [[[] db']|] eqn:E.
  - apply (MarkRead_ok now m u db); [|done]. unfold MarkRead in *. destruct (existsb _ _) eqn:Ex; [done|].
    apply existsb_false in Ex. rewrite same_messages by (by apply update_none). by case_match.
  - unfold MarkRead in E. destruct (existsb _ _) eqn:Ex; [done|]. apply existsb_false in Ex. by rewrite same_messages by (by apply update_none).
Qed.

Lemma insert_oneliner_ok now a t db x db' : insert_oneliner now a t db = Ok (x, db') -> db_ok db -> db_ok db'.
Proof. intros [= _ <-] Hok. apply frame_oneliners; [done|]. by apply table_ok_insert; [apply Hok|]. Qed.

Lemma insert_event_ok now k u h i d db : db_ok db -> db_ok (insert_event now k u h i d db).
Proof. intros Hok. apply frame_events; [done|]. split; [by apply table_ok_insert; [apply Hok|]|done]. Qed.

Lemma trim_events_ok db : db_ok db -> db_ok (trim_events db) /\ len (events (trim_events db)) <= maxEvents.
Proof.
  intros Hok. destruct (events_trimmed (events db)) as [Ht Hl]; [apply Hok|]. split; [|done]. by apply frame_events.
Qed.

Lemma keeps_checked {A C} (r : result store_error A) (k : A -> script C) : (forall a, r = Ok a -> keeps (k a)) -> keeps (decided r ≫= k).
Proof. intros Hk. destruct r as [a|e]; [by apply Hk|done]. Qed.

Lemma setPassword_keeps salt i p : keeps (setPassword_steps cfg salt i p).
Proof. apply keeps_checked. intros _ _. apply keeps_transaction. intros db x db'. by apply flags_ok. Qed.

Ltac keep := repeat match goal with
  | |- keeps (query _) => apply keeps_query
  | |- keeps (decided _ ≫= _) => apply keeps_checked; intros ? ?
  | |- keeps (_ ≫= _) => apply keeps_then; [|intros ?]
  end.

Lemma implements_keeps A (c : script A) o : implements cfg demotions A c o -> keeps c.
Proof.
  destruct 1.
  - unfold ChangePassword_steps. keep. case_match; [apply setPassword_keeps|done].
  - apply keeps_then; [apply keeps_query|intros _; apply setPassword_keeps].
  - unfold SetLocation_steps. keep. apply keeps_transaction. intros ? ? ?. by apply flags_ok.
  - unfold SetSysop_steps. keep. apply keeps_transaction. intros ? ? ?. apply flags_ok; [done| |].
    + cbn. intros Hd v _. by destruct b, demotions.
    + cbn. intros v Hv ->. apply orb_true_r.
  - unfold SetLocked_steps. keep. apply keeps_transaction. intros ? ? ?. by apply flags_ok.
  - unfold ValidateUser_steps. keep. apply keeps_transaction. intros ? ? ?. by apply flags_ok.
  - unfold Block_steps. keep. apply keeps_transaction. intros ? ? ?. apply insert_block_ok. simp_res. by bool_prop.
  - unfold SetEmailMode_steps. keep. apply keeps_transaction, update_mode_ok.
  - unfold RemoveEmail_steps. keep. apply keeps_exec. intros db. apply (RemoveEmail_ok u db).
  - unfold MarkRead_steps. keep; [split; [apply update_read_ok|done]|]. case_match; [done|apply keeps_query].
  - unfold AddOneliner_steps. keep; [apply keeps_transaction; intros ? ? ?; apply insert_oneliner_ok|done].
  - unfold LogEvent_steps. keep; apply keeps_exec; intros db; [apply insert_event_ok|]. intros Hok. by apply trim_events_ok.
  - unfold RecordHit_steps. keep; apply keeps_exec; intros db; apply frame_hits.
  - unfold RecordSentNetmail_steps. keep. apply keeps_transaction. intros ? ? ?. apply insertNetmail_ok.
Qed.

Lemma keeps_turn {A} (c : script A) db : keeps c -> db_ok db -> keeps (fst (turn c db)) /\ db_ok (snd (turn c db)).
Proof. destruct c as [r|B run next]; cbn; [done|]. intros [H1' H2'] Hok. split; [apply H2'|by apply H1']. Qed.

Lemma interleaved_keeps calls db : interleaved cfg demotions calls db -> db_ok db /\ Forall keeps calls.
Proof.
  induction 1 as [|calls db db' _ [IH1 IH2] Hs|A c o calls db _ [IH1 IH2] Hi|before c after db _ [IH1 IH2]|before c after db _ [IH1 IH2]].
  - split; [apply fresh_ok|constructor].
  - split; [|done]. by eapply step_ok.
  - split; [done|]. apply Forall_app. split; [done|]. constructor; [|done]. apply keeps_then; [by eapply implements_keeps|done].
  - rewrite Forall_app, Forall_cons in *. destruct IH2 as (Hb & Hc & Ha). by destruct (keeps_turn c db Hc IH1).
  - rewrite Forall_app, Forall_cons in *. naive_solver.
Qed.

(** C2: Also statement by statement: whatever calls run, however their statements are interleaved and wherever they break off, the
    database is consistent, save that the log may be longer than [maxEvents], which is so no more after any call's trimming;
    there is a sysop too, unless a demotion may be interrupted between its check and its change. *)
Theorem interleaved_ok (calls : list (script unit)) (db : DB) :
  interleaved cfg demotions calls db -> @db_ok _ (between_statements demotions) db /\ len (events (trim_events db)) <= maxEvents.
Proof. intros [Hok _]%interleaved_keeps. split; [done|]. by apply trim_events_ok. Qed.

Lemma reachable_interleaved db : reachable cfg db -> interleaved cfg demotions [] db.
Proof. induction 1; [apply il_fresh|by eapply il_whole]. Qed.
End consistent.

(** ** Two sysops who demote each other *)

Definition two_sysops : DB := run (SetSysop 1 2 true) demo_db.
Definition alice_demotes_bob : script unit := forget (SetSysop_steps 1 2 false).
Definition bob_demotes_alice : script unit := forget (SetSysop_steps 2 1 false).

(** Both are found to be sysops, and then both are demoted. *)
Definition alice_checked : script unit := fst (turn alice_demotes_bob two_sysops).
Definition bob_checked : script unit := fst (turn bob_demotes_alice two_sysops).
Definition bob_demoted : script unit * DB := turn alice_checked two_sysops.
Definition both_demoted : script unit * DB := turn bob_checked (snd bob_demoted).

Lemma two_sysops_interleaved : interleaved demo_cfg true [alice_demotes_bob; bob_demotes_alice] two_sysops.
Proof.
  eapply (il_start demo_cfg true unit _ _ [alice_demotes_bob]); [|by apply im_sysop]. eapply (il_start demo_cfg true unit _ _ []); [|by apply im_sysop].
  apply (il_whole demo_cfg true [] demo_db); [apply reachable_interleaved, demo_reachable|].
  apply (st_sysop demo_cfg demo_db 1 2 true). unfold two_sysops, run.
  destruct (SetSysop 1 2 true demo_db) as [[[] db]|] eqn:E; [done|]. exfalso. revert E. vm_compute. discriminate.
Qed.

Lemma both_demoted_interleaved : interleaved demo_cfg true [fst bob_demoted; fst both_demoted] (snd both_demoted).
Proof.
  apply (il_turn demo_cfg true [fst bob_demoted] bob_checked [] (snd bob_demoted)).
  apply (il_turn demo_cfg true [] alice_checked [bob_checked] two_sysops).
  apply (il_turn demo_cfg true [alice_checked] bob_demotes_alice [] two_sysops).
  apply (il_turn demo_cfg true [] alice_demotes_bob [bob_demotes_alice] two_sysops).
  apply two_sysops_interleaved.
Qed.

(** [SetSysop] keeps sysops from demoting themselves, but it checks in one statement and changes in another: two sysops who
    demote each other at the same time both succeed, and the board is left without one. *)
Example no_sysop_left :
  alone alice_demotes_bob two_sysops = (Ok tt, snd bob_demoted)
  /\ fst (alone bob_checked (snd bob_demoted)) = Ok tt
  /\ (users (snd both_demoted) <> [] /\ Forall (fun u => u_sysop u = false) (users (snd both_demoted)))
  /\ fst (alone bob_demotes_alice (snd bob_demoted)) = Err ErrForbidden.
Proof. split; [vm_compute; reflexivity|]. split; [vm_compute; reflexivity|]. split; [|vm_compute; reflexivity].
  split; [vm_compute; discriminate|]. vm_compute. repeat constructor. Qed.

Lemma interleaved_ok_witness : @db_ok _ (between_statements true) (snd both_demoted) /\ len (events (snd both_demoted)) = 0.
Proof. split; [|vm_compute; reflexivity]. exact (proj1 (interleaved_ok demo_cfg true _ _ both_demoted_interleaved)). Defined.
