(* ===== verification/StoreBoardSpec.v ===== *)
(** * What the boards and the FidoNet tables promise

    Counting what is new for a caller, and what reusing the number of a deleted row does to read marks and authorship;
    importing once, cutting text without breaking a character, and who sees which netmail. *)

From Stdlib Require Import Ascii String ZArith Lia Sorted.
From stdpp Require Import base tactics list gmap strings sorting.
From S2P Require Import Prelude GoStrings GoTime Term StoreDB StoreUsers StoreMail StoreBoards StoreEcho StoreInv StoreDemo StoreOk.
From S2P Require FtnAddr FtnMessage.
Open Scope Z_scope.

Section boards.
Context `{UnicodeTables}.
Implicit Types db : DB.

Lemma count_zero {R} (p : R -> bool) l : Forall (fun r => p r = false) l -> count_where p l = 0.
Proof. induction 1 as [|r l Hr _ IH]; [done|]. by rewrite count_cons, Hr, IH. Qed.

Lemma select_one {R} (p : R -> bool) r : select_where p [r] = if p r then [r] else [].
Proof. unfold select_where. rewrite filter_cons, filter_nil. by destruct (p r). Qed.

Lemma find_upsert u a i rows v b :
  last_read_of v b (upsert_read u a i rows) =
  if same_read v b (MkRead u a i) then
    if existsb (same_read u a) rows then Z.max (last_read_of v b rows) i else i
  else last_read_of v b rows.
Proof.
  unfold last_read_of, upsert_read. destruct (same_read v b (MkRead u a i)) eqn:Es.
  - unfold same_read in Es. cbn in Es. bool_prop. subst. destruct (existsb _ rows) eqn:Ex.
    + clear -Ex. unfold update_where. induction rows as [|r rows IH]; [done|]. cbn in *. destruct (same_read v b r) eqn:E.
      * unfold same_read at 1. cbn. unfold same_read in E. by rewrite E.
      * rewrite E. by apply IH.
    + rewrite find_app. apply existsb_false in Ex.
      assert (find (same_read v b) rows = None) as ->.
      { induction Ex as [|r rows Hr _ IH]; [done|]. cbn. by rewrite Hr. }
      cbn. unfold same_read. cbn. by rewrite !Z.eqb_refl.
  - destruct (existsb _ rows) eqn:Ex.
    + clear Ex. unfold update_where. induction rows as [|r rows IH]; [done|]. cbn.
      destruct (same_read u a r) eqn:E.
      * assert (same_read v b (MkRead (r_user r) (r_area r) (Z.max (r_last r) i)) = false /\ same_read v b r = false) as [-> ->]; [|exact IH].
        unfold same_read in *. cbn in *. bool_prop. by subst.
      * by destruct (same_read v b r).
    + rewrite find_app. destruct (find _ rows); [done|]. cbn. by rewrite Es.
Qed.
End boards.

(** The count of new posts is right: a post adds one to its board's posts and to what is new for every
    caller but its author, unless the caller's mark is already at or past its number, and changes no other board; marking a board read up to
    its newest post leaves nothing new there, changes nobody else's counts, and a mark never goes back. *)
Theorem board_unread `{UnicodeTables} (db : DB) (boardID v : Z) (b : BoardRow) :
  (forall now author s t r p db', AddPost now boardID author s t r db = Ok (p, db') ->
     s_posts (summary v db' b) = s_posts (summary v db b) + (if b_id b =? boardID then 1 else 0)
     /\ s_new (summary v db' b) = s_new (summary v db b)
          + (if (b_id b =? boardID) && negb (author =? v) && (LastRead v boardID db <? p_id p) then 1 else 0))
  /\ (forall i db', MarkBoardRead v boardID i db = Ok (tt, db') ->
       (Forall (fun p => p_id p <= i) (board_posts boardID db) -> b_id b = boardID -> s_new (summary v db' b) = 0)
       /\ (forall w, (w, b_id b) <> (v, boardID) -> summary w db' b = summary w db b)
       /\ (0 <= i -> LastRead v boardID db <= LastRead v boardID db')).
Proof.
  split.
  - intros now author s t r p db' E. unfold AddPost in E. inv_op. unfold summary, board_posts, LastRead.
    cbn [on_posts posts board_reads s_posts s_new p_id].
    rewrite select_app, len_app, count_app, select_one. cbn [p_board]. rewrite (Z.eqb_sym boardID).
    destruct (Z.eqb_spec (b_id b) boardID) as [->|]; cbn [andb]; [|done].
    rewrite count_one. unfold new_post at 2. cbn [p_id p_author]. split; [done|]. by rewrite andb_comm.
  - intros i db' E. unfold MarkBoardRead in E. repeat case_match; inv_op. split_and!.
    + intros Hall Hb. unfold summary. cbn [s_new on_board_reads posts board_reads]. rewrite Hb.
      apply count_zero. unfold board_posts in *. cbn [posts]. eapply Forall_impl; [exact Hall|]. cbn. intros p Hp.
      unfold new_post. rewrite find_upsert. unfold same_read at 1. cbn. rewrite !Z.eqb_refl. cbn.
      apply andb_false_intro1, Z.ltb_ge. destruct (existsb _ _); lia.
    + intros w Hne. unfold summary, board_posts. cbn [on_board_reads posts board_reads]. rewrite find_upsert.
      assert (same_read w (b_id b) (MkRead v boardID i) = false) as ->; [|done].
      unfold same_read. cbn. destruct (Z.eqb_spec v w), (Z.eqb_spec boardID (b_id b)); cbn; try done. congruence.
    + intros Hi. unfold LastRead. cbn [on_board_reads board_reads]. rewrite find_upsert. unfold same_read at 1. cbn.
      rewrite !Z.eqb_refl. cbn. destruct (existsb _ _) eqn:Ex; [lia|]. unfold last_read_of.
      destruct (find _ _) as [x|] eqn:Ef; [|done]. exfalso. apply find_some in Ef as [Hin Hx]. apply existsb_false in Ex.
      rewrite Forall_forall in Ex. rewrite Ex in Hx; [done|]. by apply list_elem_of_In.
Qed.

Lemma board_unread_witness :
  exists p db', AddPost 200 2 1 (str "Second") (str "Hi Bob") 0 demo_db = Ok (p, db')
    /\ s_posts (summary 2 db' (MkBoard 2 [] [] [] false 0)) = s_posts (summary 2 demo_db (MkBoard 2 [] [] [] false 0)) + 1
    /\ s_new (summary 2 db' (MkBoard 2 [] [] [] false 0)) = 1.
Proof.
  destruct (AddPost 200 2 1 (str "Second") (str "Hi Bob") 0 demo_db) as [[p db']|e] eqn:E; [|exfalso; revert E; vm_compute; discriminate].
  exists p, db'. split; [reflexivity|].
  destruct (proj1 (board_unread demo_db 2 2 (MkBoard 2 [] [] [] false 0)) _ _ _ _ _ _ _ E) as [-> ->]. split; [reflexivity|].
  revert E. vm_compute. by intros [= <- _].
Defined.

(** ** Numbers that are used again *)

Definition general : BoardRow := MkBoard 2 (str "General") (str "general") [] false 0.

Lemma next_id_eq {R} (id : R -> Z) rows m r : Forall (fun r => id r <= m) rows -> r ∈ rows -> id r = m -> 0 <= m -> next_id id rows = m + 1.
Proof.
  intros Hf Hin <- Hm. destruct (next_id_bound id rows) as [Hb _]. rewrite Forall_forall in Hb. specialize (Hb r Hin).
  enough (next_id id rows <= id r + 1) by lia. clear Hb Hin. unfold next_id.
  induction Hf as [|x rows Hx _ IH]; cbn; lia.
Qed.

(** A post that follows the deletion of the newest one gets its number again, and with it the read marks: a
    caller who had read the deleted post is never told of the new one.  Here Alice has read Bob's only
    post; Bob deletes it and writes another; Alice has nothing new. *)
Theorem reused_post_is_hidden :
  let db1 := run (DeletePost 1 2) demo_db in
  let db2 := run (AddPost 200 2 2 (str "Second") (str "Still here?") 0) db1 in
  LastRead 1 2 demo_db = 1 /\ posts db1 = [] /\ (p_subject <$> posts db2) = [str "Second"] /\ (p_id <$> posts db2) = [1]
  /\ s_new (summary 1 db2 general) = 0 /\ s_new (summary 3 db2 general) = 1.
Proof. vm_compute. auto 10. Qed.

(** An account created after the newest one was deleted gets its number, and what the schema kept under that number: the posts of
    the deleted user carry the new one's handle, and the new user may delete them. *)
Theorem reused_account_owns_posts `{UnicodeTables} `{Crypto} `{MailParser} (cfg : Config) (db db1 db2 : DB) (a d now : Z)
    (salt h pw l : bytes) (u : UserRow) (p : PostRow) :
  reachable cfg db -> d + 1 = next_id u_id (users db) -> is_Some (row u_id (users db) (d - 1)) ->
  DeleteUser a d db = Ok (tt, db1) -> CreateUser cfg now salt h pw l db1 = Ok (u, db2) ->
  p ∈ posts db -> p_author p = d ->
  u_id u = d /\ p ∈ posts db2 /\ is_ok (DeletePost (p_id p) (u_id u) db2) = true.
Proof.
  intros Hok%reachable_ok Hd [w Hw] Hdel Hc Hp Ha.
  destruct (ok_boards _ Hok) as [_ _ Hpt _ _]. destruct (ok_users _ Hok) as [Hut _ _ _ _ _].
  unfold DeleteUser in Hdel. inv_op. unfold CreateUser in Hc. inv_op. bool_prop.
  cbn [on_messages delete_user_row on_users on_blocks on_board_reads on_verifications on_ssh_keys on_echo_reads on_file_reads
    on_netmail users posts u_id] in *.
  assert (next_id u_id (delete_where (fun u => u_id u =? p_author p) (users db)) = p_author p) as En.
  { transitivity (p_author p - 1 + 1); [|lia]. pose proof Hw as [Hin Hid]%row_Some. destruct (next_id_bound u_id (users db)) as [Hb _].
    apply (next_id_eq u_id _ (p_author p - 1) w); [|apply elem_of_delete; split; [apply Z.eqb_neq; lia|done]|done|].
    - eapply Forall_delete; [exact Hb|]. cbn. intros r Hr Hne. bool_prop. lia.
    - destruct Hut as [_ Hpos]. rewrite Forall_forall in Hpos. specialize (Hpos w Hin). lia. }
  split; [exact En|]. split; [done|]. unfold DeletePost, getUser.
  cbn [on_messages delete_user_row on_users on_blocks on_board_reads on_verifications on_ssh_keys on_echo_reads on_file_reads
    on_netmail users posts].
  match goal with |- context [row u_id (?us ++ [?x]) _] => pose proof (row_insert u_id us x eq_refl) as Hrow end.
  cbn [u_id] in Hrow. rewrite Hrow. cbn [or_not_found mbind result_bind]. rewrite (row_elem p_id) by done.
  cbn [or_not_found mbind result_bind]. by rewrite En, Z.eqb_refl.
Qed.

Lemma reused_account_owns_posts_witness :
  exists p, p_author p = 2 /\ is_ok (DeletePost (p_id p) 2 (run (CreateUser demo_cfg 500 (str "salt4") (str "Mallory") demo_password [])
                          (run (DeleteUser 1 2) (run (DeleteUser 1 3) demo_db)))) = true.
Proof.
  set (db0 := run (DeleteUser 1 3) demo_db).
  assert (reachable demo_cfg db0) as Hr.
  { apply run_reachable; [apply demo_reachable|by intros [] ? ?; eapply st_delete_user|by vm_compute]. }
  destruct (DeleteUser 1 2 db0) as [[[] db1]|e] eqn:E1; [|exfalso; revert E1; vm_compute; discriminate].
  assert (run (DeleteUser 1 2) db0 = db1) as -> by (unfold run; by rewrite E1).
  destruct (CreateUser demo_cfg 500 (str "salt4") (str "Mallory") demo_password [] db1) as [[u db2]|e] eqn:E2.
  2:{ exfalso. revert E1 E2. vm_compute. by intros [= <-]. }
  assert (run (CreateUser demo_cfg 500 (str "salt4") (str "Mallory") demo_password []) db1 = db2) as -> by (unfold run; by rewrite E2).
  assert (exists p, p ∈ posts db0 /\ p_author p = 2) as (p & Hp & Ha).
  { eexists. split; [vm_compute; apply list_elem_of_here|reflexivity]. }
  exists p. split; [done|]. rewrite <-Ha. 
  destruct (reused_account_owns_posts demo_cfg db0 db1 db2 1 2 500 (str "salt4") (str "Mallory") demo_password [] u p)
    as (Eu & _ & Hok); [done|by vm_compute|vm_compute; by eexists|done|done|done|done|]. rewrite Eu in Hok. by rewrite Ha.
Defined.

(** ** Cutting UTF-8 *)

Lemma rune_start_byte b : 0 <= b < 256 -> rune_start b = negb (between 128 191 b).
Proof.
  intros Hb. assert (forallb (fun c => eqb (rune_start c) (negb (between 128 191 c))) (seqZ 0 256) = true) as Hall by by vm_compute.
  rewrite forallb_forall in Hall. apply eqb_true_iff, Hall, list_elem_of_In, elem_of_seqZ. lia.
Qed.

Lemma encode_rune_starts r :
  exists b s, encode_rune r = b :: s /\ rune_start b = true /\ Forall (fun c => rune_start c = false) s.
Proof.
  assert (forall b, 0 <= b < 128 \/ 192 <= b < 256 -> rune_start b = true) as Hs.
  { intros b Hb. rewrite rune_start_byte by lia. unfold between. apply negb_true_iff, andb_false_iff.
    destruct Hb; [left|right]; apply Z.leb_gt; lia. }
  assert (forall x, rune_start (128 + x mod 64) = false) as Hc.
  { intros x. pose proof (Z.mod_pos_bound x 64 eq_refl). rewrite rune_start_byte by lia. unfold between.
    apply negb_false_iff, andb_true_iff. split; apply Z.leb_le; lia. }
  unfold encode_rune. destruct (valid_rune r) eqn:Hv; cbn [negb]; [|exists 239, [191; 189]; by repeat constructor].
  assert (0 <= r <= 1114111) as Hr.
  { unfold valid_rune in Hv. apply orb_prop in Hv as [Hv|Hv]; apply andb_prop in Hv as [?%Z.leb_le Hv]; [apply Z.ltb_lt in Hv|apply Z.leb_le in Hv]; lia. }
  repeat match goal with |- context [?x <? ?y] => destruct (Z.ltb_spec x y) end; do 2 eexists; (split; [reflexivity|]);
    (split; [apply Hs; dlia|repeat constructor; apply Hc]).
Qed.

Lemma back_to_rune_spec s p n :
  (p <= n)%nat -> p = 0%nat \/ rune_start (nth p s 0) = true ->
  (forall i, (p < i <= n)%nat -> rune_start (nth i s 0) = false) -> back_to_rune s n = p.
Proof.
  intros Hpn Hp Hi. induction n as [|n IH]; [cbn; lia|]. cbn [back_to_rune]. destruct (decide (p = S n)) as [->|Hne].
  - destruct Hp as [|Hp]; [lia|]. by rewrite Hp.
  - rewrite Hi by lia. apply IH; [lia|]. intros i Hin. apply Hi. lia.
Qed.

(** The rune a byte belongs to. *)
Lemma rune_at rs n :
  (n < length (utf8 rs))%nat ->
  exists rs1 r rs2, rs = rs1 ++ r :: rs2 /\ (length (utf8 rs1) <= n < length (utf8 rs1) + length (encode_rune r))%nat.
Proof.
  revert n. induction rs as [|r rs IH]; intros n Hn; [cbn in Hn; lia|]. rewrite utf8_cons, length_app in Hn.
  destruct (decide (n < length (encode_rune r))%nat).
  - exists [], r, rs. split; [done|]. cbn. lia.
  - destruct (IH (n - length (encode_rune r))%nat) as (rs1 & x & rs2 & -> & Hx); [lia|].
    exists (r :: rs1), x, rs2. split; [done|]. rewrite utf8_cons, length_app. lia.
Qed.

(** Cutting a text to a byte limit never cuts a character in two: valid UTF-8 within the limit stays as it is,
    and a longer text becomes the longest run of whole leading characters that fits. *)
Theorem truncateUTF8_whole (rs : list Z) (n : Z) :
  0 <= n ->
  exists rs1 rs2, rs = rs1 ++ rs2 /\ truncateUTF8 (utf8 rs) n = utf8 rs1 /\ len (utf8 rs1) <= n
    /\ match rs2 with [] => True | r :: _ => n < len (utf8 (rs1 ++ [r])) end.
Proof.
  intros Hn. unfold truncateUTF8. destruct (Z.leb_spec (len (utf8 rs)) n) as [Hle|Hgt].
  - exists rs, []. rewrite app_nil_r. done.
  - destruct (rune_at rs (Z.to_nat n)) as (rs1 & r & rs2 & -> & Hr); [unfold len in Hgt; lia|].
    exists rs1, (r :: rs2). split; [done|]. rewrite utf8_app, utf8_cons.
    assert (back_to_rune (utf8 rs1 ++ encode_rune r ++ utf8 rs2) (Z.to_nat n) = length (utf8 rs1)) as ->.
    { destruct (encode_rune_starts r) as (b & s & E & Hb & Hs). rewrite E in Hr |- *. cbn in Hr. apply back_to_rune_spec; [lia| |].
      - right. rewrite app_nth2, Nat.sub_diag by lia. done.
      - intros i Hi. rewrite app_nth2 by lia. destruct (i - length (utf8 rs1))%nat as [|k] eqn:Ek; [lia|]. cbn.
        rewrite app_nth1 by lia. rewrite Forall_forall in Hs. apply Hs. apply list_elem_of_In, nth_In. lia. }
    rewrite take_app_length. split; [done|]. unfold len. rewrite utf8_app, length_app. split; [lia|].
    unfold utf8 at 2. cbn. rewrite app_nil_r. lia.
Qed.

Lemma truncateUTF8_whole_witness :
  exists rs1 rs2, [233; 233; 8364] = rs1 ++ rs2 /\ truncateUTF8 (utf8 [233; 233; 8364]) 6 = utf8 rs1 /\ len (utf8 rs1) <= 6
    /\ match rs2 with [] => True | r :: _ => 6 < len (utf8 (rs1 ++ [r])) end.
Proof. apply (truncateUTF8_whole [233; 233; 8364] 6). lia. Defined.

Lemma truncateUTF8_len s n : 0 <= n -> len (truncateUTF8 s n) <= n.
Proof.
  intros Hn. unfold truncateUTF8. destruct (Z.leb_spec (len s) n); [done|]. unfold len. rewrite length_take.
  enough (back_to_rune s (Z.to_nat n) <= Z.to_nat n)%nat by lia. induction (Z.to_nat n) as [|k IH]; [done|].
  cbn. destruct (rune_start _); lia.
Qed.

(** ** Importing echomail *)

Section echo.
Context `{UnicodeTables} `{Crypto}.

Lemma prune_keeps areaID db e ms :
  echo_messages db = ms ++ [e] -> em_area e = areaID -> table_ok em_id (echo_messages db) ->
  e ∈ echo_messages (pruneEchoArea areaID db).
Proof.
  intros E Ha Ht. unfold pruneEchoArea. set (sel := area_messages areaID db). destruct (Z.leb_spec (len sel) MaxEchoMessages).
  - rewrite E. apply elem_of_app. right. by apply list_elem_of_singleton.
  - cbn [on_echo_messages echo_messages]. apply elem_of_delete. split; [|rewrite E; apply elem_of_app; right; by apply list_elem_of_singleton].
    apply andb_false_intro2, bool_decide_eq_false_2. intros Hin.
    assert (sel = area_messages areaID db) as Es by done. unfold area_messages in Es. rewrite E, select_app in Es.
    assert (select_where (fun m => em_area m =? areaID) [e] = [e]) as Ee.
    { unfold select_where. rewrite filter_cons, filter_nil, Ha, Z.eqb_refl. by rewrite decide_True. }
    rewrite Ee in Es. set (front := select_where _ ms) in *.
    assert (unique em_id sel) as Hu by (apply unique_select, table_ids, Ht).
    rewrite Es, len_app in *. change (len [e]) with 1 in *. unfold MaxEchoMessages in *.
    rewrite take_app_le in Hin by (unfold len in *; lia). unfold unique in Hu. rewrite fmap_app in Hu.
    apply NoDup_app in Hu as (_ & Hd & _). apply (Hd (em_id e)); [|by apply list_elem_of_singleton].
    apply list_elem_of_fmap in Hin as (x & -> & Hx). apply list_elem_of_fmap_2. by apply elem_of_take in Hx as (i & Hi%list_elem_of_lookup_2 & _).
Qed.
End echo.

(** Echomail is imported once: a message that is stored is in its area, cleaned, under its id, and importing it again at any time
    is a duplicate that changes nothing; a message without an area, or seen before, changes nothing. *)
Theorem ImportEcho_once `{UnicodeTables} `{Crypto} `{MailParser} (cfg : Config) (now : Z) (m : FtnMessage.Message) (db : DB) :
  reachable cfg db ->
  match ImportEcho now m db with
  | (TossStored, db') =>
      (forall later, ImportEcho later m db' = (TossDuplicate, db'))
      /\ exists e a, e ∈ echo_messages db' /\ em_msgid e = message_id m /\ len (em_body e) <= MaxEchoBodyBytes
           /\ a ∈ echo_areas db' /\ a_id a = em_area e /\ a_tag a = to_upper (trim_space (FtnMessage.Area m))
  | (_, db') => db' = db
  end.
Proof.
  intros Hok%reachable_ok. unfold ImportEcho at 1. destruct (_ || _ || _) eqn:Eg; [done|]. destruct (existsb _ _) eqn:Ex; [done|].
  destruct (ensureEchoArea _ _ _) as [i db1] eqn:Ea. set (e := MkEcho _ _ _ _ _ _ _ _ _). set (db2 := on_echo_messages _ db1).
  assert (exists a, a ∈ echo_areas db1 /\ a_id a = i /\ a_tag a = to_upper (trim_space (FtnMessage.Area m))) as (a & Hain & Hai & Hat).
  { unfold ensureEchoArea in Ea. destruct (row_by _ _) as [a|] eqn:Er; injection Ea as <- <-.
    - apply row_by_Some in Er as [Hin Ht]. bool_prop. eauto.
    - eexists. split; [apply elem_of_app; right; by apply list_elem_of_singleton|done]. }
  apply ensureEchoArea_ok in Ea as (Hok1 & _ & Em); [|done].
  assert (e ∈ echo_messages (pruneEchoArea i db2)) as Hin.
  { apply prune_keeps with (ms := echo_messages db1); [done|done|]. apply table_ok_insert; [|done]. apply Hok1. }
  split.
  - intros later. unfold ImportEcho. rewrite Eg. assert (existsb (fun x => bool_decide (em_msgid x = message_id m)) (echo_messages (pruneEchoArea i db2)) = true) as ->; [|done].
    apply existsb_true. exists e. split; [done|]. by apply bool_decide_eq_true_2.
  - exists e, a. split; [done|]. split; [done|]. split; [by apply truncateUTF8_len|]. split; [|done].
    unfold pruneEchoArea. by destruct (_ <=? _).
Qed.

Lemma ImportEcho_once_witness : ImportEcho 999 demo_echo demo_db = (TossDuplicate, demo_db).
Proof.
  pose proof (ImportEcho_once demo_cfg 107 demo_echo demo9 demo9_reachable) as Hm.
  assert (ImportEcho 107 demo_echo demo9 = (TossStored, demo_db)) as E.
  { unfold demo_db. rewrite (surjective_pairing (ImportEcho 107 demo_echo demo9)) at 1. f_equal. }
  rewrite E in Hm. apply Hm.
Defined.
