(* ===== verification/Telnet.v ===== *)
(** * Telnet: [internal/telnet/conn.go]

    A connection as its state, the bytes that still arrive and the bytes that were
    sent.  [broken] says that writing to the network fails.  Deadlines and the
    mutexes are not modelled: one goroutine reads, and each operation on the size or
    the writer is one critical section. *)

From Stdlib Require Import Ascii String ZArith Lia.
From stdpp Require Import base tactics list gmap strings.
From S2P Require Import Prelude.
Open Scope Z_scope.

Definition SE : Z := 240.
Definition SB : Z := 250.
Definition WILL : Z := 251.
Definition WONT : Z := 252.
Definition DO : Z := 253.
Definition DONT : Z := 254.
Definition IAC : Z := 255.
Definition OptBinary : Z := 0.
Definition OptEcho : Z := 1.
Definition OptSGA : Z := 3.
Definition OptNAWS : Z := 31.

Definition DefaultWidth : Z := 80.
Definition DefaultHeight : Z := 24.
Definition minWidth : Z := 20.
Definition maxWidth : Z := 512.
Definition minHeight : Z := 5.
Definition maxHeight : Z := 512.
Definition maxSubneg : Z := 64.

Record Conn := MkConn {
  lastCR : bool; refused : gset (Z * Z); binary : bool; width : Z; height : Z;
  pending : bytes;    (* what the reader will deliver *)
  sent : bytes;       (* what was written to the network *)
  broken : bool
}.

Definition set_lastCR (b : bool) (c : Conn) : Conn :=
  MkConn b (refused c) (binary c) (width c) (height c) (pending c) (sent c) (broken c).
Definition set_refused (r : gset (Z * Z)) (c : Conn) : Conn :=
  MkConn (lastCR c) r (binary c) (width c) (height c) (pending c) (sent c) (broken c).
Definition set_binary (b : bool) (c : Conn) : Conn :=
  MkConn (lastCR c) (refused c) b (width c) (height c) (pending c) (sent c) (broken c).
Definition set_size (w h : Z) (c : Conn) : Conn :=
  MkConn (lastCR c) (refused c) (binary c) w h (pending c) (sent c) (broken c).
Definition set_pending (p : bytes) (c : Conn) : Conn :=
  MkConn (lastCR c) (refused c) (binary c) (width c) (height c) p (sent c) (broken c).
Definition set_sent (s : bytes) (c : Conn) : Conn :=
  MkConn (lastCR c) (refused c) (binary c) (width c) (height c) (pending c) s (broken c).

Inductive telnet_error := EOF | WriteFailed | OutOfFuel.

(** ** State and error *)

Definition io (A : Type) : Type := Conn -> result telnet_error A * Conn.
Definition ret {A} (a : A) : io A := fun c => (Ok a, c).
Definition bind {A B} (m : io A) (f : A -> io B) : io B := fun c =>
  match m c with (Ok a, c') => f a c' | (Err e, c') => (Err e, c') end.
Definition modify (f : Conn -> Conn) : io unit := fun c => (Ok tt, f c).
Declare Scope telnet_scope.
Notation "'let*' x := m 'in' f" := (bind m (fun x => f)) (at level 10, x pattern, m at level 100, f at level 200) : telnet_scope.
Local Open Scope telnet_scope.

(** [c.r.ReadByte] *)
Definition next_byte : io Z := fun c =>
  match pending c with [] => (Err EOF, c) | b :: rest => (Ok b, set_pending rest c) end.

Definition writeRaw (p : bytes) : io unit := fun c =>
  if broken c then (Err WriteFailed, c) else (Ok tt, set_sent (sent c ++ p) c).

(** ** Operations *)

Definition New (input : bytes) : Conn := MkConn false ∅ false DefaultWidth DefaultHeight input [] false.

Definition Negotiate : io unit :=
  writeRaw [IAC; WILL; OptEcho; IAC; WILL; OptSGA; IAC; DO; OptSGA; IAC; DO; OptNAWS].

(** The reply the switch of [negotiate] settles on. *)
Definition refusal (bin : bool) (cmd opt : Z) : option Z :=
  if cmd =? DO then
    if (opt =? OptEcho) || (opt =? OptSGA) || ((opt =? OptBinary) && bin) then None else Some WONT
  else if cmd =? WILL then
    if (opt =? OptNAWS) || (opt =? OptSGA) || ((opt =? OptBinary) && bin) then None else Some DONT
  else None.

Definition negotiate (cmd opt : Z) : io unit := fun c =>
  match refusal (binary c) cmd opt with
  | None => (Ok tt, c)
  | Some reply =>
      if decide ((reply, opt) ∈ refused c) then (Ok tt, c)
      else writeRaw [IAC; reply; opt] (set_refused ({[(reply, opt)]} ∪ refused c) c)
  end.

Definition clamp (lo hi x : Z) : Z := Z.min (Z.max x lo) hi.

Definition setSize (w h : Z) (c : Conn) : Conn :=
  set_size (if 0 <? w then clamp minWidth maxWidth w else width c)
           (if 0 <? h then clamp minHeight maxHeight h else height c) c.

Definition Size (c : Conn) : Z * Z := (width c, height c).

(** The loop of [readSubneg]: the bytes kept and what follows the end. *)
Fixpoint subneg_go (input buf : bytes) : option bytes * bytes :=
  match input with
  | [] => (None, [])
  | b :: rest =>
      if b =? IAC then
        match rest with
        | [] => (None, [])
        | next :: rest' =>
            if next =? SE then (Some buf, rest')
            else if next =? IAC then subneg_go rest' (if len buf <? maxSubneg then buf ++ [b] else buf)
            else subneg_go rest' buf
        end
      else subneg_go rest (if len buf <? maxSubneg then buf ++ [b] else buf)
  end.

Definition readSubneg : io unit := fun c =>
  let '(buf, rest) := subneg_go (pending c) [] in
  let c := set_pending rest c in
  match buf with
  | None => (Err EOF, c)
  | Some buf =>
      (Ok tt,
       match buf with
       | opt :: w1 :: w0 :: h1 :: h0 :: _ =>
           if opt =? OptNAWS then setSize (Z.lor (Z.shiftl w1 8) w0) (Z.lor (Z.shiftl h1 8) h0) c else c
       | _ => c
       end)
  end.

(** [Some b] for a data byte. *)
Definition readCommand : io (option Z) :=
  let* cmd := next_byte in
  if cmd =? IAC then ret (Some IAC)
  else if (cmd =? DO) || (cmd =? DONT) || (cmd =? WILL) || (cmd =? WONT) then
    let* opt := next_byte in
    let* _ := negotiate cmd opt in
    ret None
  else if cmd =? SB then let* _ := readSubneg in ret None
  else ret None.

(** The loop of [ReadByte]; every turn takes at least one byte. *)
Fixpoint read_loop (fuel : nat) : io Z :=
  match fuel with
  | O => fun c => (Err OutOfFuel, c)
  | S fuel =>
      let* b := next_byte in
      if b =? IAC then
        let* data := readCommand in
        match data with
        | None => read_loop fuel
        | Some d => let* _ := modify (set_lastCR false) in ret d
        end
      else fun c =>
        if binary c then (Ok b, set_lastCR false c)
        else if lastCR c && ((b =? 10) || (b =? 0)) then read_loop fuel (set_lastCR false c)
        else (Ok b, set_lastCR (b =? 13) c)
  end.

Definition ReadByte : io Z := fun c => read_loop (S (length (pending c))) c.

Definition SetBinary (on : bool) : io unit := fun c =>
  let '(will, do_) := if on then (WILL, DO) else (WONT, DONT) in
  writeRaw [IAC; will; OptBinary; IAC; do_; OptBinary] (set_binary on c).

(** What [Write] sends: 0xFF doubled. *)
Definition escape (p : bytes) : bytes := mbind (fun b => if b =? IAC then [b; IAC] else [b]) p.

Definition Write (p : bytes) : io Z := let* _ := writeRaw (escape p) in ret (len p).

(** * Theorems *)

(** ** Reading ends *)

Definition shorter (c c' : Conn) : Prop := (length (pending c') < length (pending c))%nat.
Definition no_longer (c c' : Conn) : Prop := (length (pending c') <= length (pending c))%nat.

Lemma subneg_shorter input buf : (length (snd (subneg_go input buf)) <= length input)%nat.
Proof.
  revert buf. induction input as [input IH] using (well_founded_induction (Wf_nat.well_founded_ltof _ (@length Z))).
  intros buf. destruct input as [|b rest]; [done|]. cbn [subneg_go]. unfold Wf_nat.ltof in IH.
  destruct (b =? IAC).
  - destruct rest as [|x rest]; [cbn; lia|]. destruct (x =? SE); [cbn; lia|].
    destruct (x =? IAC); (etransitivity; [apply IH; cbn; lia|cbn; lia]).
  - etransitivity; [apply IH; cbn; lia|cbn; lia].
Qed.

Lemma writeRaw_pending p c : pending (snd (writeRaw p c)) = pending c.
Proof. unfold writeRaw. by destruct (broken c). Qed.

Lemma negotiate_pending cmd opt c : pending (snd (negotiate cmd opt c)) = pending c.
Proof. unfold negotiate. destruct (refusal _ _ _); [|done]. case_decide; [done|]. by rewrite writeRaw_pending. Qed.

Lemma setSize_pending w h c : pending (setSize w h c) = pending c.
Proof. done. Qed.

Lemma readSubneg_pending c : pending (snd (readSubneg c)) = snd (subneg_go (pending c) []).
Proof.
  unfold readSubneg. destruct (subneg_go (pending c) []) as [buf rest]. destruct buf as [buf|]; [|done].
  cbn [snd]. repeat (case_match; try done).
Qed.

Lemma readCommand_shorter c : no_longer c (snd (readCommand c)).
Proof.
  unfold no_longer, readCommand, bind, next_byte. destruct (pending c) as [|cmd rest] eqn:E; [cbn; rewrite E; cbn; lia|].
  cbn [fst]. destruct (cmd =? IAC); [cbn; lia|]. destruct (_ || _).
  - cbn. destruct rest as [|opt rest]; cbn; [lia|].
    pose proof (negotiate_pending cmd opt (set_pending rest (set_pending (opt :: rest) c))) as Hn.
    destruct (negotiate _ _ _) as [[]]; cbn in *; rewrite Hn; lia.
  - destruct (cmd =? SB); [|cbn; lia]. pose proof (readSubneg_pending (set_pending rest c)) as Hs.
    pose proof (subneg_shorter rest []). destruct (readSubneg _) as [[]]; cbn in *; rewrite Hs; lia.
Qed.

Lemma read_loop_fuel fuel c : (length (pending c) < fuel)%nat -> fst (read_loop fuel c) <> Err OutOfFuel.
Proof.
  revert c. induction fuel as [|fuel IH]; intros c Hf; [lia|]. cbn [read_loop]. unfold bind at 1, next_byte.
  destruct (pending c) as [|b rest] eqn:E; [done|]. cbn in Hf. destruct (b =? IAC).
  - unfold bind at 1. pose proof (readCommand_shorter (set_pending rest c)) as Hs. unfold no_longer in Hs. cbn in Hs.
    destruct (readCommand (set_pending rest c)) as [[[d|]|e] c'] eqn:Ec; [done|apply IH; cbn in *; lia|].
    cbn. intros [= ->]. clear -Ec. unfold readCommand, bind, next_byte, negotiate, writeRaw, readSubneg in Ec.
    repeat (case_match; simplify_eq; try done).
  - cbn. destruct (binary c); [done|]. destruct (_ && _); [|done]. apply IH. cbn. lia.
Qed.

(** ** What reading may do to a connection *)

Section reading.
Context (R : Conn -> Conn -> Prop) `{!PreOrder R}.
Hypothesis R_pending : forall c p, R c (set_pending p c).
Hypothesis R_lastCR : forall c b, R c (set_lastCR b c).
Hypothesis R_negotiate : forall c cmd opt, R c (snd (negotiate cmd opt c)).
Hypothesis R_setSize : forall c w h, R c (setSize w h c).

Lemma bind_rel {A B} (m : io A) (f : A -> io B) c :
  R c (snd (m c)) -> (forall a c', R c' (snd (f a c'))) -> R c (snd (bind m f c)).
Proof. unfold bind. intros Hm Hf. destruct (m c) as [[a|e] c']; [|done]. etransitivity; [exact Hm|apply Hf]. Qed.

Lemma next_byte_rel c : R c (snd (next_byte c)).
Proof. unfold next_byte. destruct (pending c); [reflexivity|apply R_pending]. Qed.

Lemma readSubneg_rel c : R c (snd (readSubneg c)).
Proof.
  unfold readSubneg. destruct (subneg_go (pending c) []) as [[buf|] rest]; cbn [snd]; [|apply R_pending].
  repeat case_match; try apply R_pending. etransitivity; [apply R_pending|apply R_setSize].
Qed.

Lemma readCommand_rel c : R c (snd (readCommand c)).
Proof.
  unfold readCommand. apply bind_rel; [apply next_byte_rel|]. intros cmd c1. destruct (cmd =? IAC); [reflexivity|].
  destruct (_ || _).
  - apply bind_rel; [apply next_byte_rel|]. intros opt c2. apply bind_rel; [apply R_negotiate|]. intros _ c3. reflexivity.
  - destruct (cmd =? SB); [|reflexivity]. apply bind_rel; [apply readSubneg_rel|]. intros _ c3. reflexivity.
Qed.

Lemma read_loop_rel fuel c : R c (snd (read_loop fuel c)).
Proof.
  revert c. induction fuel as [|fuel IH]; intros c; [reflexivity|]. cbn [read_loop]. apply bind_rel; [apply next_byte_rel|].
  intros b c1. destruct (b =? IAC).
  - apply bind_rel; [apply readCommand_rel|]. intros [d|] c2; [|apply IH]. apply bind_rel; [apply R_lastCR|]. intros _ c3. reflexivity.
  - destruct (binary c1); [apply R_lastCR|]. destruct (_ && _); [|apply R_lastCR]. etransitivity; [apply R_lastCR|apply IH].
Qed.
End reading.

(** Reading [n] bytes, or until the connection fails. *)
Fixpoint read_bytes (n : nat) (c : Conn) : bytes * Conn :=
  match n with
  | O => ([], c)
  | S n => match ReadByte c with
           | (Ok b, c') => let '(bs, c'') := read_bytes n c' in (b :: bs, c'')
           | (Err _, c') => ([], c')
           end
  end.

Lemma read_bytes_rel (R : Conn -> Conn -> Prop) `{!PreOrder R} n c :
  (forall c, R c (snd (ReadByte c))) -> R c (snd (read_bytes n c)).
Proof.
  intros HR. revert c. induction n as [|n IH]; intros c; [reflexivity|]. cbn [read_bytes]. specialize (HR c).
  destruct (ReadByte c) as [[b|e] c']; [|exact HR]. specialize (IH c'). destruct (read_bytes n c') as [bs c'']. by etransitivity.
Qed.

Lemma readCommand_broken c : broken (snd (readCommand c)) = broken c.
Proof.
  unfold readCommand, bind, next_byte, negotiate, writeRaw, readSubneg, ret, setSize.
  repeat (case_match; simplify_eq; cbn; try done).
Qed.

(** The reader always answers: one data byte or an error of the network, whatever the peer sends; commands and
    subnegotiations without end included. *)
Theorem ReadByte_total (c : Conn) :
  (exists b, fst (ReadByte c) = Ok b) \/ fst (ReadByte c) = Err EOF \/ (fst (ReadByte c) = Err WriteFailed /\ broken c = true).
Proof.
  pose proof (read_loop_fuel (S (length (pending c))) c ltac:(lia)) as Hf.
  assert (forall e, fst (ReadByte c) = Err e -> e = EOF \/ e = OutOfFuel \/ e = WriteFailed /\ broken c = true) as He.
  { clear Hf. unfold ReadByte. generalize (S (length (pending c))). intros fuel. revert c. induction fuel as [|fuel IH]; intros c e.
    { intros [= <-]. auto. }
    cbn [read_loop]. unfold bind at 1, next_byte. destruct (pending c) as [|b rest]; [intros [= <-]; auto|].
    destruct (b =? IAC).
    - unfold bind at 1. destruct (readCommand (set_pending rest c)) as [[[d|]|e'] c'] eqn:Ec; cbn; [done| |].
      + intros E. destruct (IH c' e E) as [|[|[-> Hb]]]; [auto..|]. right. right. split; [done|].
        pose proof (readCommand_broken (set_pending rest c)) as Hr. rewrite Ec in Hr. cbn in Hr. congruence.
      + intros [= <-]. unfold readCommand, bind, next_byte, negotiate, writeRaw, readSubneg in Ec.
        repeat (case_match; simplify_eq; try done; auto).
    - cbn. destruct (binary c); [done|]. destruct (_ && _); [|done]. intros E. apply (IH (set_lastCR false (set_pending rest c)) e E). }
  destruct (fst (ReadByte c)) as [b|e] eqn:E; [by left; exists b|]. destruct (He e eq_refl) as [->|[->|[-> Hb]]]; [auto| |auto].
  by exfalso.
Qed.

(** ** Negotiation *)

Definition reply_bytes (rs : list (Z * Z)) : bytes := mbind (fun r => [IAC; fst r; snd r]) rs.

(** Between two states of a connection that is only read from: what was sent, and that it was new. *)
Definition replied (c c' : Conn) : Prop :=
  refused c ⊆ refused c' /\ exists rs,
    sent c' = sent c ++ reply_bytes rs /\ NoDup rs
    /\ Forall (fun r => (fst r = WONT \/ fst r = DONT) /\ (r ∉ refused c) /\ (r ∈ refused c')) rs.

Lemma replied_none c c' : refused c' = refused c -> sent c' = sent c -> replied c c'.
Proof. intros Er E. split; [by rewrite Er|]. exists []. rewrite E. cbn. rewrite app_nil_r. split_and!; [done|constructor|constructor]. Qed.

#[local] Instance replied_preorder : PreOrder replied.
Proof.
  split.
  - intros c. by apply replied_none.
  - intros c1 c2 c3 [Hs (rs & E & Hn & Hf)] [Hs' (rs' & E' & Hn' & Hf')]. split; [set_solver|]. exists (rs ++ rs').
    unfold reply_bytes in *. rewrite E', E, bind_app, app_assoc. split; [done|]. rewrite Forall_forall in Hf, Hf'. split.
    + apply NoDup_app. split_and!; [done| |done]. intros r Hr Hr'. destruct (Hf r Hr) as (_ & _ & ?). by destruct (Hf' r Hr') as (_ & ? & _).
    + apply Forall_app. split; apply Forall_forall; intros r Hr; [destruct (Hf r Hr) as (? & ? & ?)|destruct (Hf' r Hr) as (? & ? & ?)]; set_solver.
Qed.

Lemma negotiate_replied c cmd opt : replied c (snd (negotiate cmd opt c)).
Proof.
  unfold negotiate. destruct (refusal _ _ _) as [reply|] eqn:Er; [|by apply replied_none].
  case_decide as Hd; [by apply replied_none|]. unfold writeRaw. cbn [broken set_refused]. destruct (broken c).
  - split; [cbn; set_solver|]. exists []. cbn. rewrite app_nil_r. split_and!; [done|constructor|constructor].
  - split; [cbn; set_solver|]. exists [(reply, opt)]. cbn. split; [done|]. split; [apply NoDup_singleton|].
    constructor; [|constructor]. cbn. split; [|split; [done|set_solver]].
    unfold refusal in Er. repeat case_match; simplify_eq; auto.
Qed.

(** Negotiation cannot loop: over everything read from a connection, the replies sent are refusals ([IAC WONT
    opt] or [IAC DONT opt]), each at most once in the life of the connection. *)
Theorem negotiation_finite (n : nat) (c : Conn) : replied c (snd (read_bytes n c)).
Proof.
  apply read_bytes_rel; [apply _|]. intros c1. unfold ReadByte. apply read_loop_rel; [apply _|..]; intros; by (apply negotiate_replied || apply replied_none).
Qed.

(** ** The window size *)

Definition size_ok (c : Conn) : Prop := minWidth <= width c <= maxWidth /\ minHeight <= height c <= maxHeight.

#[local] Instance size_preorder : PreOrder (fun c c' => size_ok c -> size_ok c').
Proof. split; intros ?; auto. Qed.

(** The window size the screens are drawn for stays between 20x5 and 512x512, whatever sizes the peer reports. *)
Theorem size_bounded (n : nat) (input : bytes) : size_ok (snd (read_bytes n (New input))).
Proof.
  assert (size_ok (New input)) as H0 by by vm_compute.
  revert H0. apply (read_bytes_rel (fun c c' => size_ok c -> size_ok c')). intros c. unfold ReadByte.
  apply (read_loop_rel (fun c c' => size_ok c -> size_ok c')); [done|done| |].
  - intros c1 cmd opt Hs. unfold size_ok, negotiate, writeRaw in *. by repeat case_match.
  - intros c1 w h [Hw Hh]. unfold size_ok, setSize, clamp, minWidth, maxWidth, minHeight, maxHeight in *. cbn.
    destruct (0 <? w), (0 <? h); lia.
Qed.

(** ** Data *)

(** A line break as the client sends it, CR LF or CR NUL, is CR for the reader. *)
Fixpoint normalise (cr : bool) (data : bytes) : bytes :=
  match data with
  | [] => []
  | b :: data => if cr && ((b =? 10) || (b =? 0)) then normalise false data else b :: normalise (b =? 13) data
  end.

Definition received (bin cr : bool) (data : bytes) : bytes := if bin then data else normalise cr data.

Lemma escape_cons b data : escape (b :: data) = (if b =? IAC then [b; IAC] else [b]) ++ escape data.
Proof. done. Qed.

Lemma read_loop_escape fuel c data r c' :
  pending c = escape data -> (length (pending c) < fuel)%nat -> read_loop fuel c = (r, c') ->
  match received (binary c) (lastCR c) data with
  | [] => r = Err EOF
  | b :: tail => r = Ok b /\ exists data', pending c' = escape data' /\ binary c' = binary c /\ received (binary c') (lastCR c') data' = tail
  end.
Proof.
  revert c data. induction fuel as [|fuel IH]; intros c data Hp Hf E; [lia|]. cbn [read_loop] in E. unfold bind at 1, next_byte in E.
  rewrite Hp in E. destruct data as [|b data].
  { cbn in E. injection E as <- _. unfold received. by destruct (binary c). }
  rewrite escape_cons in E. destruct (Z.eqb_spec b IAC) as [->|Hb]; cbn [app] in E.
  - rewrite Z.eqb_refl in E. unfold readCommand, bind, next_byte in E. cbn [pending set_pending] in E. rewrite Z.eqb_refl in E.
    cbn in E. injection E as <- <-. unfold received. cbn. rewrite andb_false_r.
    destruct (binary c) eqn:Eb; (split; [done|]); exists data; cbn; by rewrite ?Eb.
  - rewrite (proj2 (Z.eqb_neq _ _) Hb) in E. cbn [binary set_pending lastCR] in E. unfold received.
    destruct (binary c) eqn:Eb; [injection E as <- <-; split; [done|]; exists data; cbn; by rewrite ?Eb|].
    cbn [normalise]. destruct (lastCR c && ((b =? 10) || (b =? 0))) eqn:Ek.
    + specialize (IH (set_lastCR false (set_pending (escape data) c)) data eq_refl). cbn in IH. unfold received in IH. rewrite Eb in IH.
      apply IH; [|exact E]. rewrite Hp, escape_cons, (proj2 (Z.eqb_neq _ _) Hb) in Hf. cbn in *. lia.
    + injection E as <- <-. split; [done|]. exists data. cbn. by rewrite Eb.
Qed.

Lemma read_bytes_escape n c data :
  pending c = escape data -> fst (read_bytes n c) = take n (received (binary c) (lastCR c) data).
Proof.
  revert c data. induction n as [|n IH]; intros c data Hp; [done|]. cbn [read_bytes]. unfold ReadByte.
  destruct (read_loop _ c) as [r c'] eqn:E. pose proof (read_loop_escape (S (length (pending c))) c data r c' Hp ltac:(lia) E) as Hr. clear E.
  destruct (received (binary c) (lastCR c) data) as [|b tail].
  - subst r. by rewrite take_nil.
  - destruct Hr as (-> & data' & Hp' & Hb & Hr). specialize (IH c' data' Hp').
    destruct (read_bytes n c') as [bs c'']. cbn in *. rewrite IH. by rewrite Hr.
Qed.

(** C15: What one side writes the other reads: in binary mode the very bytes, 0xFF included; otherwise with each CR LF
    and CR NUL reduced to CR and nothing else changed. *)
Theorem telnet_roundtrip (data : bytes) (w c : Conn) (n : nat) :
  broken w = false -> sent w = [] -> pending c = sent (snd (Write data w)) -> (length data <= n)%nat ->
  fst (Write data w) = Ok (len data)
  /\ fst (read_bytes n c) = if binary c then data else normalise (lastCR c) data.
Proof.
  intros Hb Hs Hp Hn. unfold Write, bind, writeRaw in *. rewrite Hb in *. cbn in Hp. rewrite Hs in Hp. cbn in Hp. split; [done|].
  rewrite (read_bytes_escape n c data Hp). unfold received.
  assert (forall cr, (length (normalise cr data) <= length data)%nat) as Hlen.
  { clear. induction data as [|b data IH]; intros cr; [done|]. cbn. destruct (_ && _); cbn; [specialize (IH false)|specialize (IH (b =? 13))]; lia. }
  destruct (binary c); [by rewrite take_ge by lia|]. specialize (Hlen (lastCR c)). by rewrite take_ge by lia.
Qed.

Lemma telnet_roundtrip_witness :
  fst (read_bytes 9 (New (escape [104; 13; 10; 255; 13; 0; 33]))) = [104; 13; 255; 13; 33].
Proof.
  apply (telnet_roundtrip [104; 13; 10; 255; 13; 0; 33] (New []) (New (escape [104; 13; 10; 255; 13; 0; 33])) 9);
    [reflexivity|reflexivity|reflexivity|cbn; lia].
Defined.
