(* ===== verification/GoFiles.v ===== *)
(** * Paths and files

    Go's [path/filepath] for Unix as the source uses it, and a file system: the
    regular files by path.  Directories are there whenever a file needs them, a rename
    replaces its target, and no operation fails for want of space or rights. *)

From Stdlib Require Import Ascii String ZArith Lia Sorted.
From stdpp Require Import base tactics list gmap strings sorting.
From S2P Require Import Prelude GoStrings StoreDB.
Open Scope Z_scope.

Definition slash : Z := 47.

(** ** [path/filepath] *)

(** One element of a path, after the elements [st] (last first). *)
Definition push_elem (rooted : bool) (st : list bytes) (e : bytes) : list bytes :=
  if bool_decide (e = []) || bool_decide (e = str ".") then st
  else if bool_decide (e = str "..") then
    match st with
    | top :: st' => if bool_decide (top = str "..") then e :: st else st'
    | [] => if rooted then [] else [e]
    end
  else e :: st.

Definition rooted (p : bytes) : bool := has_prefix p [slash].

(** The elements [Clean] keeps. *)
Definition elements (p : bytes) : list bytes := reverse (foldl (push_elem (rooted p)) [] (split_byte p slash)).

Definition of_elements (r : bool) (es : list bytes) : bytes :=
  if r then slash :: join es [slash] else if bool_decide (es = []) then str "." else join es [slash].

Definition filepath_Clean (p : bytes) : bytes := of_elements (rooted p) (elements p).

Definition filepath_Join (parts : list bytes) : bytes :=
  let parts := filter (fun p => p <> []) parts in
  if bool_decide (parts = []) then [] else filepath_Clean (join parts [slash]).

(** The part after the last slash of [p], trailing slashes aside. *)
Definition filepath_Base (p : bytes) : bytes :=
  if bool_decide (p = []) then str "."
  else
    let p' := trim_right p [slash] in
    if bool_decide (p' = []) then [slash] else slice_from p' (last_index_byte p' slash + 1).

(** Everything up to the last slash, cleaned. *)
Definition filepath_Dir (p : bytes) : bytes := filepath_Clean (slice_to p (last_index_byte p slash + 1)).

(** From the last dot of the last element. *)
Definition filepath_Ext (p : bytes) : bytes :=
  let base := slice_from p (last_index_byte p slash + 1) in
  let i := last_index_byte base (ch ".") in
  if i <? 0 then [] else slice_from base i.

Fixpoint strip_common (a b : list bytes) : list bytes * list bytes :=
  match a, b with
  | x :: a', y :: b' => if bool_decide (x = y) then strip_common a' b' else (a, b)
  | _, _ => (a, b)
  end.

(** The path from [base] to [targ], if it can be told. *)
Definition filepath_Rel (base targ : bytes) : option bytes :=
  if negb (eqb (rooted base) (rooted targ)) then None
  else
    let '(b, t) := strip_common (elements base) (elements targ) in
    if existsb (fun e => bool_decide (e = str "..")) b then None
    else Some (of_elements false (((fun _ => str "..") <$> b) ++ t)).

(** ** [strings.EqualFold] *)

(** The pairs of different runes with one of them beyond ASCII that [unicode.SimpleFold]
    connects. *)
Class FoldTables := { fold_pair : Z -> Z -> bool }.

Section fold.
Context `{FoldTables}.

Definition equal_fold_rune (s t : Z) : bool :=
  (s =? t) || (if (s <? 128) && (t <? 128) then (lower_byte s =? lower_byte t) else fold_pair s t).

Fixpoint equal_fold_runes (s t : list Z) : bool :=
  match s, t with
  | [], [] => true
  | a :: s', b :: t' => equal_fold_rune a b && equal_fold_runes s' t'
  | _, _ => false
  end.

Definition EqualFold (s t : bytes) : bool := equal_fold_runes (runes s) (runes t).
End fold.

(** ** The file system *)

Abbreviation FS := (gmap bytes bytes).

(** The name of [p] in [dir], for a file directly in it. *)
Definition name_in (dir p : bytes) : option bytes :=
  let prefix := dir ++ [slash] in
  if has_prefix p prefix && negb (contains_byte (drop (length prefix) p) slash)
  then Some (drop (length prefix) p) else None.

(** [os.ReadDir]: the names of the files, in order.  Every caller skips the directories. *)
Definition read_dir (fs : FS) (dir : bytes) : list bytes :=
  order_by (fun n => n) (omap (fun p => name_in dir p) (fst <$> map_to_list fs)).

(** [os.Rename] *)
Definition rename (src dst : bytes) (fs : FS) : option FS :=
  match fs !! src with
  | None => None
  | Some content => Some (<[dst := content]> (delete src fs))
  end.

(** * Lemmas *)

(** An element [Clean] leaves alone. *)
Definition plain (e : bytes) : Prop := e <> [] /\ e <> str "." /\ e <> str ".." /\ slash ∉ e.

(** A clean absolute path. *)
Definition clean_abs (es : list bytes) : bytes := slash :: join es [slash].

Lemma push_plain r es : Forall plain es -> forall st, foldl (push_elem r) st es = reverse es ++ st.
Proof.
  induction 1 as [|e es (H1 & H2 & H3 & _) _ IH]; intros st; [done|]. cbn [foldl]. rewrite IH.
  unfold push_elem. rewrite !bool_decide_eq_false_2 by done. cbn [orb]. by rewrite reverse_cons, <-app_assoc.
Qed.

Lemma elements_clean es : Forall plain es -> elements (clean_abs es) = es.
Proof.
  intros Hp. unfold elements, clean_abs. assert (rooted (slash :: join es [slash]) = true) as -> by by destruct (join es [slash]).
  assert (split_byte (slash :: join es [slash]) slash = [] :: split_byte (join es [slash]) slash) as ->.
  { apply (split_byte_app [] slash). by apply not_elem_of_nil. }
  cbn [foldl]. destruct es as [|e es]; [done|]. rewrite split_join.
  - rewrite push_plain by done. by rewrite app_nil_r, reverse_involutive.
  - done.
  - eapply Forall_impl; [exact Hp|]. by intros ? (_ & _ & _ & ?).
Qed.

Lemma Clean_clean es : Forall plain es -> filepath_Clean (clean_abs es) = clean_abs es.
Proof. intros Hp. unfold filepath_Clean. rewrite elements_clean by done. unfold rooted. by destruct (join es [slash]). Qed.

Lemma join_app_one es x : es <> [] -> join es [slash] ++ slash :: x = join (es ++ [x]) [slash].
Proof.
  induction es as [|e es IH]; [done|]. intros _. destruct es as [|e' es]; [done|].
  change (join (e :: e' :: es) [slash]) with (e ++ [slash] ++ join (e' :: es) [slash]).
  rewrite <-!app_assoc, IH by done. done.
Qed.

(** Joining a plain name to a clean directory puts it directly there. *)
Lemma Join_plain es x : es <> [] -> Forall plain es -> plain x -> filepath_Join [clean_abs es; x] = clean_abs (es ++ [x]).
Proof.
  intros Hne Hp Hx. unfold filepath_Join. rewrite filter_cons_True by done. rewrite filter_cons_True by apply Hx.
  rewrite filter_nil. rewrite bool_decide_eq_false_2 by done. cbn [join]. unfold clean_abs at 1.
  rewrite <-app_comm_cons. change ([slash] ++ x) with (slash :: x). rewrite join_app_one by done.
  fold (clean_abs (es ++ [x])). apply Clean_clean, Forall_app. by split; [|constructor].
Qed.

Lemma clean_abs_inj es es' : Forall plain es -> Forall plain es' -> clean_abs es = clean_abs es' -> es = es'.
Proof. intros H H' E. rewrite <-(elements_clean es), <-(elements_clean es') by done. by rewrite E. Qed.

(** Plain elements, decided. *)
Definition is_plain (e : bytes) : bool :=
  negb (bool_decide (e = [])) && negb (bool_decide (e = str ".")) && negb (bool_decide (e = str "..")) && negb (contains_byte e slash).

Lemma is_plain_spec e : is_plain e = true -> plain e.
Proof. unfold is_plain. intros Hp. bool_prop. split_and!; [done..|]. by apply contains_byte_false. Qed.

Lemma all_plain es : forallb is_plain es = true -> Forall plain es.
Proof. intros Hp. apply Forall_forall. intros e He. apply is_plain_spec. rewrite forallb_forall in Hp. by apply Hp, list_elem_of_In. Qed.
