(* ===== verification/FtnOutbound.v ===== *)
(** * The mailer's directories: [internal/ftn/bso.go], [inbound.go]

    The Binkley-style outbound the BBS queues packets in, and the packets and
    bundles it finds in an inbound. *)

From Stdlib Require Import Ascii String ZArith Lia Sorted.
From stdpp Require Import base tactics list gmap strings sorting.
From S2P Require Import Prelude GoStrings GoTime GoFiles FtnAddr FtnCharset FtnPacket FtnMessage.
Open Scope Z_scope.

(** ** bso.go *)

Inductive Flavour := Normal | Crash | Hold | Direct.

Definition flavour_byte (f : Flavour) : Z :=
  match f with Normal => ch "o" | Crash => ch "c" | Hold => ch "h" | Direct => ch "d" end.

Record Outbound := MkOutbound { Root : bytes; DefaultZone : Z }.

(** The directory and the file stem of an address. *)
Definition out_base (o : Outbound) (a : Addr) : bytes * bytes :=
  let dir := if Zone a =? DefaultZone o then Root o else Root o ++ str "." ++ pad_hex 3 (Zone a) in
  let stem := pad_hex 4 (Net a) ++ pad_hex 4 (Node a) in
  if IsPoint a then (filepath_Join [dir; stem ++ str ".pnt"], pad_hex 8 (Point a)) else (dir, stem).

Definition PacketPath (o : Outbound) (a : Addr) (f : Flavour) : bytes :=
  let '(dir, stem) := out_base o a in
  match f with
  | Normal => filepath_Join [dir; stem ++ str ".out"]
  | _ => filepath_Join [dir; stem ++ str "." ++ [flavour_byte f] ++ str "ut"]
  end.

Inductive queue_error := ErrBusy | ErrExisting (e : packet_error) | ErrRename.

Definition with_messages (p : Packet) (ms : list PackedMessage) : Packet :=
  MkPacket (From p) (To p) (Password p) (Created p) (Messages p ++ ms).

Section queue.
Context `{UnicodeTables}.

(** The packet the new messages go in. *)
Definition existing_packet (header : Packet) (data : option bytes) : result queue_error Packet :=
  match data with
  | None => Ok header
  | Some data => match ReadPacket data with
                 | (Some p, None) => Ok p
                 | (_, Some e) => Err (ErrExisting e)
                 | (None, None) => Ok header
                 end
  end.

(** The outcome and every state the files go through, in order.  [pid] is the process, [rnd] the number
    [CreateTemp] picked.  The writes to the temporary file are one step. *)
Definition Queue (o : Outbound) (pid : Z) (rnd : bytes) (now : civil) (dest : Addr) (f : Flavour) (header : Packet)
    (msgs : list PackedMessage) (fs : FS) : result queue_error unit * list FS :=
  let '(dir, stem) := out_base o dest in
  let bsy := filepath_Join [dir; stem ++ str ".bsy"] in
  match fs !! bsy with
  | Some _ => (Err ErrBusy, [fs])
  | None =>
      let fs0 := <[bsy := []]> fs in
      let fs1 := <[bsy := itoa pid ++ str " boar" ++ [10]]> fs0 in
      let path := PacketPath o dest f in
      match existing_packet header (fs1 !! path) with
      | Err e => (Err e, [fs; fs0; fs1; delete bsy fs1])
      | Ok pkt =>
          let tmp := filepath_Join [dir; stem ++ str ".tmp" ++ rnd] in
          let fs2 := <[tmp := []]> fs1 in
          let fs3 := <[tmp := WriteTo (with_messages pkt msgs) now]> fs2 in
          match rename tmp path fs3 with
          | None => (Err ErrRename, [fs; fs0; fs1; fs2; fs3; delete tmp fs3; delete bsy (delete tmp fs3)])
          | Some fs4 => (Ok tt, [fs; fs0; fs1; fs2; fs3; fs4; delete tmp fs4; delete bsy (delete tmp fs4)])
          end
      end
  end.
End queue.

(** ** inbound.go *)

Definition maxPacketBytes : Z := 16777216.
Definition maxBundleBytes : Z := 268435456.

(** [archive/zip]: the members of an archive, each with its name, its stated size and its content if
    it can be read, or nothing if the archive cannot be opened. *)
Class ZipReader := { zip_members : bytes -> option (list (bytes * Z * option bytes)) }.

Inductive inbound_error := ErrTooLarge | ErrTooShort | ErrPacket (e : packet_error) | ErrZip | ErrMember.

Section inbound.
Context `{UnicodeTables} `{FoldTables} `{ZipReader}.

Definition NamedPacket : Type := bytes * Packet.

(** [ReadPacket] of at most [maxPacketBytes] bytes. *)
Definition read_limited (data : bytes) : result inbound_error Packet :=
  match ReadPacket (slice_to data maxPacketBytes) with
  | (_, Some e) => Err (ErrPacket e)
  | (Some p, None) => Ok p
  | (None, None) => Err ErrMember
  end.

(** The packets of an archive and the last error among its members. *)
Fixpoint zip_packets (base : bytes) (members : list (bytes * Z * option bytes)) (last : option inbound_error)
    : list NamedPacket * option inbound_error :=
  match members with
  | [] => ([], last)
  | (name, size, content) :: rest =>
      if negb (EqualFold (filepath_Ext name) (str ".pkt")) || (maxPacketBytes <? size) then zip_packets base rest last
      else
        match content with
        | None => zip_packets base rest (Some ErrMember)
        | Some data =>
            match read_limited data with
            | Err e => zip_packets base rest (Some e)
            | Ok p => let '(ps, l) := zip_packets base rest last in ((base ++ str ":" ++ name, p) :: ps, l)
            end
        end
  end.

(** The packets [EachPacket] hands to its function, in order, and the error it ends with when the function never
    fails. *)
Definition EachPacket (name content : bytes) : list NamedPacket * option inbound_error :=
  if maxBundleBytes <? len content then ([], Some ErrTooLarge)
  else if len content <? 4 then ([], Some ErrTooShort)
  else if negb (bool_decide (slice_to content 4 = [80; 75; 3; 4])) then
    if maxPacketBytes <? len content then ([], Some ErrTooLarge)
    else match read_limited content with
         | Err e => ([], Some e)
         | Ok p => ([(filepath_Base name, p)], None)
         end
  else
    match zip_members content with
    | None => ([], Some ErrZip)
    | Some ms =>
        let '(ps, last) := zip_packets (filepath_Base name) ms None in
        (ps, if bool_decide (ps = []) then last else None)
    end.

Definition ReadPackets (name content : bytes) : list NamedPacket * option inbound_error := EachPacket name content.

Definition messages_of (np : NamedPacket) : list Message :=
  (fun pm => ParseMessage pm (From (snd np)) (To (snd np)) (DefaultCharset (From (snd np)))) <$> Messages (snd np).

(** The messages [EachMessage] hands to its function, and the error after the last. *)
Definition EachMessage (name content : bytes) : list Message * option inbound_error :=
  let '(ps, e) := EachPacket name content in (mbind messages_of ps, e).

Definition MessagesInFile (name content : bytes) : list Message * option inbound_error := EachMessage name content.

Definition IsMailBundle (name : bytes) : bool :=
  let ext := to_lower (filepath_Ext (filepath_Base name)) in
  if bool_decide (ext = str ".pkt") then true
  else if len ext =? 4 then
    let day := slice ext 1 3 in
    let c := nth 3 ext 0 in
    bool_decide (day ∈ [str "su"; str "mo"; str "tu"; str "we"; str "th"; str "fr"; str "sa"])
    && (is_digit c || between 97 122 c)
  else false.
End inbound.

(** * Theorems *)

(** ** Numbers in names *)

Definition hex_value (b : Z) : Z := if b <? 58 then b - 48 else b - 87.
Definition hex_char (b : Z) : Prop := 48 <= b <= 57 \/ 97 <= b <= 102.

Lemma uhex_spec n :
  0 <= n -> Forall hex_char (uhex n) /\ uhex n <> [] /\ digits_value 16 hex_value (uhex n) 0 = n
  /\ (forall k, (0 < k)%nat -> n < 16 ^ Z.of_nat k -> (length (uhex n) <= k)%nat).
Proof.
  intros Hn. unfold uhex. destruct (digits_spec 16 hex_digit hex_value hex_char) with (fuel := digit_fuel n) (n := n) (acc := [] : bytes)
    as (ds & -> & Hne & HP & Hv & Hk); [lia| | |unfold digit_fuel; lia|].
  - intros d Hd. unfold hex_digit, hex_value, hex_char. destruct (Z.ltb_spec d 10).
    + destruct (Z.ltb_spec (48 + d) 58); lia.
    + destruct (Z.ltb_spec (87 + d) 58); lia.
  - split; [done|]. apply digit_fuel_enough; lia.
  - rewrite app_nil_r. split_and!; [done|done| |done]. rewrite Hv. lia.
Qed.

Lemma hex_zeros k s : digits_value 16 hex_value (replicate k 48 ++ s) 0 = digits_value 16 hex_value s 0.
Proof. unfold digits_value. rewrite fold_left_app. f_equal. induction k as [|k IH]; [done|]. cbn. exact IH. Qed.

Lemma pad_hex_chars w n : 0 <= n -> Forall hex_char (pad_hex w n).
Proof.
  intros Hn. unfold pad_hex, zpad. apply Forall_app. split; [|by apply uhex_spec]. apply Forall_replicate. unfold hex_char. lia.
Qed.

Lemma pad_hex_inj w n m : 0 <= n -> 0 <= m -> pad_hex w n = pad_hex w m -> n = m.
Proof.
  intros Hn Hm E. destruct (uhex_spec n Hn) as (_ & _ & En & _), (uhex_spec m Hm) as (_ & _ & Em & _).
  rewrite <-En, <-Em. unfold pad_hex, zpad in E. rewrite <-(hex_zeros (w - length (uhex n))), E. apply hex_zeros.
Qed.

Lemma pad_hex_length w n : 0 <= n < 16 ^ Z.of_nat w -> (0 < w)%nat -> length (pad_hex w n) = w.
Proof.
  intros [Hn Hw] H0. destruct (uhex_spec n Hn) as (_ & _ & _ & Hk). specialize (Hk w H0 Hw).
  unfold pad_hex, zpad. rewrite length_app, length_replicate. lia.
Qed.

(** ** Where packets go *)

Lemma flavour_no_slash f : slash ∉ str "." ++ [flavour_byte f] ++ str "ut".
Proof. unfold slash. destruct f; cbn; set_unfold; lia. Qed.

Section outbound.
Context (es : list bytes) (r : bytes).
Hypothesis es_plain : Forall plain es.
Hypothesis r_plain : plain r.

Definition net_ok (a : Addr) : Prop :=
  0 <= Zone a /\ 0 <= Net a < 65536 /\ 0 <= Node a < 65536 /\ 0 <= Point a < 65536.

Definition stem_of (a : Addr) : bytes := pad_hex 4 (Net a) ++ pad_hex 4 (Node a).
Definition zone_dir (o : Outbound) (a : Addr) : bytes :=
  if Zone a =? DefaultZone o then r else r ++ str "." ++ pad_hex 3 (Zone a).

(** The elements of the directory and the stem of [out_base]. *)
Definition dir_elems (o : Outbound) (a : Addr) : list bytes :=
  es ++ zone_dir o a :: if IsPoint a then [stem_of a ++ str ".pnt"] else [].
Definition file_stem (a : Addr) : bytes := if IsPoint a then pad_hex 8 (Point a) else stem_of a.

Lemma hex_plain s t : Forall hex_char s -> s <> [] -> slash ∉ t -> plain (s ++ t).
Proof.
  intros Hs Hne Ht. destruct s as [|b s]; [done|]. assert (hex_char b) as Hb by by inversion Hs.
  split_and!; [done| | |].
  - intros [= ->]. destruct Hb; lia.
  - intros [= ->]. destruct Hb; lia.
  - rewrite elem_of_app. intros [Hin|]; [|done]. rewrite Forall_forall in Hs. destruct (Hs _ Hin); unfold slash in *; lia.
Qed.

Lemma stem_chars a : net_ok a -> Forall hex_char (stem_of a) /\ length (stem_of a) = 8%nat.
Proof.
  intros (_ & Hn & Hd & _). unfold stem_of. split.
  - apply Forall_app. split; apply pad_hex_chars; lia.
  - rewrite length_app, !pad_hex_length by lia. done.
Qed.

Lemma file_stem_chars a : net_ok a -> Forall hex_char (file_stem a) /\ length (file_stem a) = 8%nat.
Proof.
  intros Ha. unfold file_stem. destruct (IsPoint a); [|by apply stem_chars]. destruct Ha as (_ & _ & _ & Hp).
  split; [apply pad_hex_chars; lia|]. apply pad_hex_length; lia.
Qed.

Lemma zone_dir_plain o a : net_ok a -> plain (zone_dir o a).
Proof.
  intros (Hz & _). unfold zone_dir. destruct (_ =? _); [done|]. destruct r_plain as (H1 & H2 & H3 & H4).
  assert (slash ∉ str "." ++ pad_hex 3 (Zone a)) as Hs.
  { rewrite elem_of_app. intros [Hin|Hin]; [by apply list_elem_of_singleton in Hin|].
    pose proof (pad_hex_chars 3 (Zone a) Hz) as Hc. rewrite Forall_forall in Hc. destruct (Hc _ Hin); unfold slash in *; lia. }
  assert (pad_hex 3 (Zone a) <> []) as Hne.
  { unfold pad_hex, zpad. destruct (uhex_spec (Zone a) Hz) as (_ & Hu & _). intros [_ E]%app_nil. done. }
  assert ((2 <= length (str "." ++ pad_hex 3 (Zone a)))%nat) as Hlen by (destruct (pad_hex 3 (Zone a)); [done|cbn; lia]).
  split_and!.
  - by destruct r.
  - intros E. apply (f_equal length) in E. rewrite length_app in E. cbn in *. lia.
  - intros E. apply (f_equal length) in E. rewrite length_app in E. destruct r; [done|]. cbn in *. lia.
  - rewrite elem_of_app. tauto.
Qed.

Lemma dir_elems_plain o a : net_ok a -> Forall plain (dir_elems o a) /\ dir_elems o a <> [].
Proof.
  intros Ha. unfold dir_elems. split; [|by destruct es]. apply Forall_app. split; [done|]. constructor; [by apply zone_dir_plain|].
  destruct (IsPoint a); [|constructor]. constructor; [|constructor]. destruct (stem_chars a Ha) as [Hc Hl].
  apply hex_plain; [done|by destruct (stem_of a)|]. set_unfold. unfold slash. lia.
Qed.

Lemma out_base_elems o a : Root o = clean_abs (es ++ [r]) -> net_ok a -> out_base o a = (clean_abs (dir_elems o a), file_stem a).
Proof.
  intros Hr Ha. unfold out_base, dir_elems, file_stem. fold (stem_of a). rewrite Hr.
  assert ((if Zone a =? DefaultZone o then clean_abs (es ++ [r]) else clean_abs (es ++ [r]) ++ str "." ++ pad_hex 3 (Zone a))
          = clean_abs (es ++ [zone_dir o a])) as ->.
  { unfold zone_dir. destruct (_ =? _); [done|]. unfold clean_abs. cbn [app]. f_equal.
    destruct (decide (es = [])) as [->|Hne]; [done|]. rewrite <-!join_app_one by done. by rewrite <-app_assoc. }
  destruct (IsPoint a) eqn:Ep; [|done]. f_equal.
  destruct (stem_chars a Ha) as [Hc Hl]. rewrite Join_plain.
  - by rewrite <-app_assoc.
  - by destruct es.
  - apply Forall_app. split; [done|]. constructor; [by apply zone_dir_plain|constructor].
  - apply hex_plain; [done|by destruct (stem_of a)|]. set_unfold. unfold slash. lia.
Qed.

Lemma out_file o a suffix :
  Root o = clean_abs (es ++ [r]) -> net_ok a -> slash ∉ suffix ->
  filepath_Join [fst (out_base o a); snd (out_base o a) ++ suffix] = clean_abs (dir_elems o a ++ [file_stem a ++ suffix])
  /\ Forall plain (dir_elems o a ++ [file_stem a ++ suffix]).
Proof.
  intros Hr Ha Hs. rewrite (out_base_elems o a Hr Ha). cbn [fst snd]. destruct (dir_elems_plain o a Ha) as [Hd Hne].
  destruct (file_stem_chars a Ha) as [Hc Hl].
  assert (plain (file_stem a ++ suffix)) as Hp by (apply hex_plain; [done|by destruct (file_stem a)|done]).
  split; [by apply Join_plain|]. apply Forall_app. split; [done|by constructor].
Qed.

Lemma PacketPath_eq o a f :
  PacketPath o a f = filepath_Join [fst (out_base o a); snd (out_base o a) ++ str "." ++ [flavour_byte f] ++ str "ut"].
Proof. unfold PacketPath. destruct (out_base o a) as [dir stem]. by destruct f. Qed.

End outbound.

(** Mail for one node is never left where another node's is picked up: below a clean absolute root, packet paths are
    equal only for the same zone, net, node and point and the same flavour. *)
Theorem PacketPath_injective (es : list bytes) (r : bytes) (o : Outbound) (a b : Addr) (f g : Flavour) :
  Forall plain es -> plain r -> Root o = clean_abs (es ++ [r]) -> net_ok a -> net_ok b ->
  PacketPath o a f = PacketPath o b g ->
  f = g /\ Zone a = Zone b /\ Net a = Net b /\ Node a = Node b /\ Point a = Point b.
Proof.
  intros Hes Hrp Hr Ha Hb E. rewrite !PacketPath_eq in E.
  destruct (out_file es r Hes Hrp o a _ Hr Ha (flavour_no_slash f)) as [Ea Pa].
  destruct (out_file es r Hes Hrp o b _ Hr Hb (flavour_no_slash g)) as [Eb Pb].
  rewrite Ea, Eb in E. apply clean_abs_inj in E; [|done|done]. unfold dir_elems in E. rewrite <-!app_assoc in E.
  apply app_inv_head in E. rewrite <-!app_comm_cons in E. injection E as Ez E.
  assert (Zone a = Zone b) as Hz.
  { unfold zone_dir in Ez. destruct Ha as (Hza & _), Hb as (Hzb & _). destruct (Z.eqb_spec (Zone a) (DefaultZone o)), (Z.eqb_spec (Zone b) (DefaultZone o)).
    - congruence.
    - apply (f_equal length) in Ez. rewrite length_app in Ez. cbn in Ez. lia.
    - apply (f_equal length) in Ez. rewrite length_app in Ez. cbn in Ez. lia.
    - apply app_inv_head in Ez. apply app_inv_head in Ez. by apply pad_hex_inj in Ez. }
  assert (forall x y : Addr, net_ok x -> net_ok y -> stem_of x = stem_of y -> Net x = Net y /\ Node x = Node y) as Hstem.
  { intros x y (_ & Hx1 & Hx2 & _) (_ & Hy1 & Hy2 & _) Es. unfold stem_of in Es. apply app_inj_1 in Es as [E1 E2].
    - apply pad_hex_inj in E1; [|lia..]. apply pad_hex_inj in E2; [|lia..]. done.
    - rewrite !pad_hex_length by lia. done. }
  assert (forall s t : bytes, length s = length t -> s ++ str "." ++ [flavour_byte f] ++ str "ut" = t ++ str "." ++ [flavour_byte g] ++ str "ut" -> s = t /\ f = g) as Hname.
  { intros s t Hl En. apply app_inj_1 in En as [-> En]; [|done]. split; [done|]. injection En as En. by destruct f, g. }
  unfold file_stem in E. destruct (IsPoint a) eqn:Epa, (IsPoint b) eqn:Epb; cbn [app] in E; try discriminate E.
  - injection E as E1 E2. destruct Ha as (Ha0 & Ha1 & Ha2 & Hap), Hb as (Hb0 & Hb1 & Hb2 & Hbp).
    apply app_inv_tail in E1. apply Hstem in E1 as [-> ->]; [|done|done].
    apply Hname in E2 as [E2 ->]; [|rewrite !pad_hex_length by lia; done]. apply pad_hex_inj in E2; [done|lia..].
  - injection E as E2. apply Hname in E2 as [E2 ->]; [|by rewrite (proj2 (stem_chars a Ha)), (proj2 (stem_chars b Hb))].
    apply Hstem in E2 as [-> ->]; [|done|done]. unfold IsPoint in *. bool_prop. split_and!; try done. congruence.
Qed.

Definition demo_root : bytes := str "/var/spool/ftn/out".
Definition demo_outbound : Outbound := MkOutbound demo_root 2.
Definition demo_elems : list bytes := [str "var"; str "spool"; str "ftn"].

Lemma demo_elems_plain : Forall plain demo_elems /\ plain (str "out").
Proof. split; [apply all_plain; reflexivity|apply is_plain_spec; reflexivity]. Qed.

Lemma PacketPath_injective_witness :
  PacketPath demo_outbound (MkAddr 2 5020 1042 7 []) Crash = str "/var/spool/ftn/out/139c0412.pnt/00000007.cut"
  /\ (PacketPath demo_outbound (MkAddr 2 5020 1042 7 []) Crash = PacketPath demo_outbound (MkAddr 2 5020 1042 7 (str "fidonet")) Crash
      -> Zone (MkAddr 2 5020 1042 7 []) = Zone (MkAddr 2 5020 1042 7 (str "fidonet"))).
Proof.
  split; [by vm_compute|]. intros E.
  apply (PacketPath_injective demo_elems (str "out") demo_outbound (MkAddr 2 5020 1042 7 []) (MkAddr 2 5020 1042 7 (str "fidonet")) Crash Crash);
    [apply demo_elems_plain|apply demo_elems_plain|reflexivity|unfold net_ok; cbn; lia|unfold net_ok; cbn; lia|exact E].
Defined.

(** ** Queueing *)

(** The files of one [Queue]: the flag, the temporary file and the packet. *)
Definition bsy_path (o : Outbound) (a : Addr) : bytes := filepath_Join [fst (out_base o a); snd (out_base o a) ++ str ".bsy"].
Definition tmp_path (o : Outbound) (a : Addr) (rnd : bytes) : bytes := filepath_Join [fst (out_base o a); snd (out_base o a) ++ str ".tmp" ++ rnd].

Lemma queue_paths es r o a f rnd :
  Forall plain es -> plain r -> Root o = clean_abs (es ++ [r]) -> net_ok a -> slash ∉ rnd ->
  bsy_path o a <> tmp_path o a rnd /\ bsy_path o a <> PacketPath o a f /\ tmp_path o a rnd <> PacketPath o a f.
Proof.
  intros Hes Hrp Hr Ha Hrnd.
  assert (slash ∉ str ".bsy") as Sb by (unfold slash; set_unfold; lia).
  assert (slash ∉ str ".tmp" ++ rnd) as St.
  { rewrite elem_of_app. intros [Hin|]; [|done]. unfold slash in Hin. set_unfold. lia. }
  destruct (out_file es r Hes Hrp o a _ Hr Ha Sb) as [Eb Pb], (out_file es r Hes Hrp o a _ Hr Ha St) as [Et Pt],
    (out_file es r Hes Hrp o a _ Hr Ha (flavour_no_slash f)) as [Ep Pp].
  unfold bsy_path, tmp_path. rewrite PacketPath_eq, Eb, Et, Ep.
  assert (forall x y, x <> y -> Forall plain (dir_elems es r o a ++ [file_stem a ++ x]) -> Forall plain (dir_elems es r o a ++ [file_stem a ++ y]) ->
            clean_abs (dir_elems es r o a ++ [file_stem a ++ x]) <> clean_abs (dir_elems es r o a ++ [file_stem a ++ y])) as Hne.
  { intros x y Hxy Hx Hy E. apply clean_abs_inj in E; [|done|done]. apply app_inv_head in E. injection E as E. by apply app_inv_head in E. }
  split_and!; (apply Hne; [|done|done]); [discriminate|by destruct f|by destruct f].
Qed.

(** Lookups in a map built from the first by inserting and deleting. *)
Ltac lookups := repeat (rewrite lookup_insert || rewrite lookup_delete);
  repeat (case_decide; try congruence); simplify_eq; first [done|by left|by right|by right; left|by right; right; eexists|congruence].

(** What a successful [Queue] leaves: what was waiting, and the messages after it. *)
Lemma Queue_written `{UnicodeTables} (es : list bytes) (r : bytes) (o : Outbound) (pid : Z) (rnd : bytes) (now : civil) (a : Addr)
    (f : Flavour) (header : Packet) (msgs : list PackedMessage) (fs : FS) states :
  Forall plain es -> plain r -> Root o = clean_abs (es ++ [r]) -> net_ok a -> slash ∉ rnd ->
  Queue o pid rnd now a f header msgs fs = (Ok tt, states) ->
  exists new pkt, last states = Some new /\ existing_packet header (fs !! PacketPath o a f) = Ok pkt
    /\ new !! PacketPath o a f = Some (WriteTo (with_messages pkt msgs) now).
Proof.
  intros Hes Hrp Hr Ha Hrnd HQ. destruct (queue_paths es r o a f rnd Hes Hrp Hr Ha Hrnd) as (N1 & N2 & N3).
  unfold Queue, bsy_path, tmp_path in *. destruct (out_base o a) as [dir stem]. cbn [fst snd] in *.
  set (bsy := filepath_Join [dir; stem ++ str ".bsy"]) in *. set (tmp := filepath_Join [dir; stem ++ str ".tmp" ++ rnd]) in *.
  set (path := PacketPath o a f) in *. clearbody bsy tmp path. destruct (fs !! bsy) eqn:Eb; [done|].
  rewrite !lookup_insert_ne in HQ by congruence. destruct (existing_packet header (fs !! path)) as [pkt|e]; [|done].
  unfold rename in HQ. rewrite lookup_insert_eq in HQ. injection HQ as <-. eexists _, pkt. split; [reflexivity|]. split; [done|].
  rewrite !lookup_delete_ne by congruence. apply lookup_insert_eq.
Qed.

(** What an unsuccessful one leaves, when the node is busy: nothing new. *)
Lemma Queue_busy `{UnicodeTables} (o : Outbound) (pid : Z) (rnd : bytes) (now : civil) (a : Addr)
    (f : Flavour) (header : Packet) (msgs : list PackedMessage) (fs : FS) states :
  Queue o pid rnd now a f header msgs fs = (Err ErrBusy, states) -> states = [fs].
Proof. unfold Queue. destruct (out_base o a). repeat case_match; intros; simplify_eq; try done. unfold existing_packet in *. repeat case_match; simplify_eq. Qed.

(** C25: Queueing is atomic and keeps to itself: whatever the outcome, in every state the files pass through the packet is what it was
    or the complete new one, the node's busy flag is up in every state but the first and the last, no other file is touched, and in the end the flag and the
    temporary file are gone; on success the new packet is the waiting one, or the header given, with the
    messages at its end; a busy node or an unreadable packet leaves everything as it was. *)
Theorem Queue_atomic `{UnicodeTables} (es : list bytes) (r : bytes) (o : Outbound) (pid : Z) (rnd : bytes) (now : civil) (a : Addr)
    (f : Flavour) (header : Packet) (msgs : list PackedMessage) (fs : FS) :
  Forall plain es -> plain r -> Root o = clean_abs (es ++ [r]) -> net_ok a -> slash ∉ rnd -> fs !! tmp_path o a rnd = None ->
  let path := PacketPath o a f in
  match Queue o pid rnd now a f header msgs fs with
  | (res, states) =>
      exists new, last states = Some new
      /\ (forall p, p <> path -> new !! p = fs !! p)
      /\ Forall (fun s => (s !! path = fs !! path \/ s !! path = new !! path)
                          /\ (s = fs \/ s = new \/ is_Some (s !! bsy_path o a))
                          /\ forall p, p <> path -> p <> bsy_path o a -> p <> tmp_path o a rnd -> s !! p = fs !! p) states
      /\ match res with
         | Ok _ => exists pkt, existing_packet header (fs !! path) = Ok pkt /\ new !! path = Some (WriteTo (with_messages pkt msgs) now)
         | Err e => new = fs /\ (e = ErrBusy \/ exists e', e = ErrExisting e')
         end
  end.
Proof.
  intros Hes Hrp Hr Ha Hrnd Htmp. cbn zeta. destruct (queue_paths es r o a f rnd Hes Hrp Hr Ha Hrnd) as (N1 & N2 & N3).
  unfold Queue, bsy_path, tmp_path in *. destruct (out_base o a) as [dir stem]. cbn [fst snd] in *.
  set (bsy := filepath_Join [dir; stem ++ str ".bsy"]) in *. set (tmp := filepath_Join [dir; stem ++ str ".tmp" ++ rnd]) in *.
  set (path := PacketPath o a f) in *. clearbody bsy tmp path.
  destruct (fs !! bsy) eqn:Eb.
  { exists fs. split; [done|]. split; [done|]. split; [|eauto]. constructor; [|constructor]. split_and!; [by left|by left|done]. }
  assert (<[bsy := itoa pid ++ str " boar" ++ [10]]> (<[bsy := []]> fs) !! path = fs !! path) as Ep by (by rewrite !lookup_insert_ne by congruence).
  rewrite Ep. destruct (existing_packet header (fs !! path)) as [pkt|e] eqn:Ee.
  - unfold rename. rewrite lookup_insert_eq. cbv beta iota. eexists. split; [reflexivity|].
    match goal with |- context [?x !! path = Some _] => set (new := x) in * end.
    assert (new !! path = Some (WriteTo (with_messages pkt msgs) now)) as Enew by (unfold new; lookups).
    assert (forall p, p <> path -> new !! p = fs !! p) as Eother by (intros p Hp; unfold new; lookups).
    split; [exact Eother|]. split; [|eauto]. rewrite Enew.
    do 7 (apply Forall_cons; split; [split_and!; [lookups|lookups|intros p Hp1 Hp2 Hp3; lookups]|]).
    constructor; [|constructor]. split_and!; [by right|by right; left|intros p Hp _ _; by apply Eother].
  - assert (delete bsy (<[bsy := itoa pid ++ str " boar" ++ [10]]> (<[bsy := []]> fs)) = fs) as Enew.
    { apply map_eq. intros p. lookups. }
    rewrite Enew. exists fs. split; [done|]. split; [done|]. split; [|split; [done|right]].
    + repeat (apply Forall_cons; split; [split_and!; [lookups|lookups|intros p Hp1 Hp2 Hp3; lookups]|]). constructor.
    + unfold existing_packet in Ee. repeat case_match; simplify_eq; eauto.
Qed.

Lemma Queue_atomic_witness :
  exists new, last (snd (Queue (H := ascii_tables) demo_outbound 77 (str "12345") (Civil 2026 1 2 3 4 5 0) (MkAddr 2 5020 1042 0 []) Hold
      (MkPacket (MkAddr 2 5030 1 0 []) (MkAddr 2 5020 1042 0 []) [] None []) [] ∅)) = Some new
    /\ is_Some (new !! str "/var/spool/ftn/out/139c0412.hut").
Proof.
  pose proof (Queue_atomic (H := ascii_tables) demo_elems (str "out") demo_outbound 77 (str "12345") (Civil 2026 1 2 3 4 5 0) (MkAddr 2 5020 1042 0 []) Hold
      (MkPacket (MkAddr 2 5030 1 0 []) (MkAddr 2 5020 1042 0 []) [] None []) [] ∅) as Hq.
  match type of Hq with context [Queue ?x1 ?x2 ?x3 ?x4 ?x5 ?x6 ?x7 ?x8 ?x9] =>
    assert (is_ok (fst (Queue (H := ascii_tables) x1 x2 x3 x4 x5 x6 x7 x8 x9)) = true) as Hres by (vm_compute; reflexivity) end.
  destruct (Queue (H := ascii_tables) _ _ _ _ _ _ _ _ _) as [res states]. cbn [fst snd] in *.
  destruct Hq as (new & Hl & _ & _ & Hr).
  - apply demo_elems_plain.
  - apply demo_elems_plain.
  - reflexivity.
  - unfold net_ok. cbn. lia.
  - unfold slash. set_unfold. lia.
  - reflexivity.
  - exists new. split; [exact Hl|]. destruct res; [|discriminate Hres]. destruct Hr as (pkt & _ & Hn). eexists. exact Hn.
Defined.
