(* ===== verification/Toss.v ===== *)
(** * Tossing inbound mail and files: [internal/ftntoss/toss.go], [tic.go]

    One pass over an inbound directory: its bundles become messages in the database, its
    TIC files put files in their areas, and what was read is moved aside.  The state of a pass is the file
    system, the database and the counters.  The clock ticks at each file that is moved, so that no two
    moves have the same time; [mtime] gives the age of a file.  While a file is moved every system call may fail ([Disk]),
    and the pass keeps a record of the states that the disk went through, for a stop at any point. *)

From Stdlib Require Import Ascii String ZArith Lia Sorted.
From stdpp Require Import base tactics list gmap strings sorting.
From S2P Require Import Prelude GoStrings GoTime GoFiles StoreDB StoreUsers StoreBoards StoreEcho.
From S2P Require FtnAddr FtnMessage FtnOutbound.
Open Scope Z_scope.

Record Stats := MkStats {
  sFiles : Z; sStored : Z; sDuplicate : Z; sSkipped : Z; sFailed : Z; sNetmail : Z; sFilesIn : Z; sFilesBad : Z
}.
Definition no_stats : Stats := MkStats 0 0 0 0 0 0 0 0.
Definition add_stats (a b : Stats) : Stats :=
  MkStats (sFiles a + sFiles b) (sStored a + sStored b) (sDuplicate a + sDuplicate b) (sSkipped a + sSkipped b)
    (sFailed a + sFailed b) (sNetmail a + sNetmail b) (sFilesIn a + sFilesIn b) (sFilesBad a + sFilesBad b).

(** The addresses of the node and the root of the file store, if there is one. *)
Record Tosser := MkTosser { Own : list FtnAddr.Addr; FileRoot : option bytes }.

(** Where moving a file fails. *)
Inductive move_error := OpenFailed | CreateFailed | CopyFailed | CloseFailed | RenameFailed | RemoveFailed.

Inductive toss_error := ErrOpen | ErrMove (e : move_error) | ErrRel | ErrStore (e : store_error).

(** [p_past]: the states of the disk on the way. *)
Record Pass := MkPass { p_fs : FS; p_db : DB; p_st : Stats; p_clock : Z; p_past : list FS }.

Definition with_fs (fs : FS) (p : Pass) : Pass := MkPass fs (p_db p) (p_st p) (p_clock p) (p_past p ++ [fs]).
Definition with_db (db : DB) (p : Pass) : Pass := MkPass (p_fs p) db (p_st p) (p_clock p) (p_past p).
Definition count (s : Stats) (p : Pass) : Pass := MkPass (p_fs p) (p_db p) (add_stats (p_st p) s) (p_clock p) (p_past p).

Definition one_file : Stats := MkStats 1 0 0 0 0 0 0 0.
Definition one_stored : Stats := MkStats 0 1 0 0 0 0 0 0.
Definition one_duplicate : Stats := MkStats 0 0 1 0 0 0 0 0.
Definition one_skipped : Stats := MkStats 0 0 0 1 0 0 0 0.
Definition one_failed : Stats := MkStats 0 0 0 0 1 0 0 0.
Definition one_netmail : Stats := MkStats 0 0 0 0 0 1 0 0.
Definition one_in : Stats := MkStats 0 0 0 0 0 0 1 0.
Definition one_bad : Stats := MkStats 0 0 0 0 0 0 0 1.

(** What a step of a pass answers, with the state it leaves, also when it fails. *)
Definition act : Type := Pass -> result toss_error unit * Pass.
Definition done_ : act := fun p => (Ok tt, p).
Definition fail (e : toss_error) : act := fun p => (Err e, p).
Definition andthen (a b : act) : act := fun p => match a p with (Ok _, p') => b p' | (Err e, p') => (Err e, p') end.

Fixpoint each {A} (f : A -> act) (l : list A) : act :=
  match l with [] => done_ | x :: l' => andthen (f x) (each f l') end.

(** ** Moving files *)

(** Which system calls of a move fail: the rename; opening the source; creating the copy; [io.Copy], after so many bytes;
    closing the copy; giving it its name; removing the source; removing a copy that was given up. *)
Record faults := MkFaults {
  no_rename : bool; no_open : bool; no_create : bool; short_copy : option nat; no_close : bool; no_rename_part : bool; no_remove : bool; no_undo : bool
}.

(** Those of the move at a time of the clock. *)
Class Disk := { fails : Z -> faults }.

(** The copy as it grows, from the empty file that [os.OpenFile] makes or leaves of one that is there. *)
Definition copying (tmp c : bytes) (n : nat) (fs : FS) : list FS := (fun k => <[tmp := take k c]> fs) <$> seq 0 (S n).

(** The copy is given up. *)
Definition undo (w : faults) (tmp : bytes) (fs : FS) : list FS := if no_undo w then [] else [delete tmp fs].

(** [moveAside] once it has the name: whether it worked, and the states passed through, the first one included. *)
Definition move_to (w : faults) (path dest : bytes) (fs : FS) : result move_error unit * list FS :=
  match (if no_rename w then None else rename path dest fs) with
  | Some fs' => (Ok tt, [fs; fs'])
  | None =>
      match (if no_open w then None else fs !! path) with
      | None => (Err OpenFailed, [fs])
      | Some c =>
          if no_create w then (Err CreateFailed, [fs])
          else
            match short_copy w with
            | Some n => (Err CopyFailed, (fs :: copying dest c n fs) ++ undo w dest fs)
            | None =>
                let steps := fs :: copying dest c (length c) fs in
                if no_close w then (Err CloseFailed, steps ++ undo w dest fs)
                else if no_remove w then (Err RemoveFailed, steps) else (Ok tt, steps ++ [delete path (<[dest := c]> fs)])
            end
      end
  end.

(** [moveFile] of tic.go, in the same way. *)
Definition part (dst : bytes) : bytes := dst ++ str ".part".

Definition moveFile (w : faults) (src dst : bytes) (fs : FS) : result move_error unit * list FS :=
  match (if no_rename w then None else rename src dst fs) with
  | Some fs' => (Ok tt, [fs; fs'])
  | None =>
      match (if no_open w then None else fs !! src) with
      | None => (Err OpenFailed, [fs])
      | Some c =>
          if no_create w then (Err CreateFailed, [fs])
          else
            let tmp := part dst in
            match short_copy w with
            | Some n => (Err CopyFailed, (fs :: copying tmp c n fs) ++ undo w tmp fs)
            | None =>
                let steps := fs :: copying tmp c (length c) fs in
                if no_close w then (Err CloseFailed, steps ++ undo w tmp fs)
                else if no_rename_part w then (Err RenameFailed, steps)
                else
                  let fs1 := <[dst := c]> (delete tmp fs) in
                  if no_remove w then (Err RemoveFailed, steps ++ [fs1]) else (Ok tt, steps ++ [fs1; delete src fs1])
            end
      end
  end.

Definition moving `{Disk} (move : faults -> FS -> result move_error unit * list FS) : act := fun p =>
  let '(r, states) := move (fails (p_clock p)) (p_fs p) in
  (match r with Ok _ => Ok tt | Err e => Err (ErrMove e) end,
   MkPass (default (p_fs p) (last states)) (p_db p) (p_st p) (p_clock p + 1) (p_past p ++ states)).

(** [moveAside]: the file gets a time stamp when its name is taken. *)
Definition moveAside `{Disk} (path dir name : bytes) : act := fun p =>
  let dest := filepath_Join [dir; name] in
  let dest := match p_fs p !! dest with Some _ => dest ++ str "." ++ itoa (p_clock p) | None => dest end in
  moving (fun w => move_to w path dest) p.

Section toss.
Context `{UnicodeTables} `{FoldTables} `{Crypto} `{FtnOutbound.ZipReader} `{Disk} (now : Z) (mtime : bytes -> Z).

(** [hex.EncodeToString] of the SHA-256. *)
Definition fileSHA256 (content : bytes) : bytes := mbind (fun b => pad_hex 2 b) (sha256 content).

(** The function Toss hands to [EachMessage]. *)
Definition toss_message (own : list FtnAddr.Addr) (secure : bool) (m : FtnMessage.Message) : act := fun p =>
  let tally r p := match r with TossStored => count one_stored p | TossDuplicate => count one_duplicate p | TossSkipped => count one_skipped p end in
  if bool_decide (FtnMessage.Area m = []) && FtnAddr.Contains own (FtnMessage.Dest m) then
    match ImportNetmail now m (p_db p) with
    | Err e => (Err (ErrStore e), p)
    | Ok (r, db) => (Ok tt, tally r (with_db db (if bool_decide (r = TossStored) then count one_netmail p else p)))
    end
  else if negb (bool_decide (FtnMessage.Area m = [])) && secure then
    let '(r, db) := ImportEcho now m (p_db p) in (Ok tt, tally r (with_db db p))
  else (Ok tt, tally TossSkipped p).

(** [EachMessage] with that function: it stops at the first message that fails. *)
Definition toss_messages (own : list FtnAddr.Addr) (secure : bool) (name content : bytes) : act :=
  let '(ms, e) := FtnOutbound.EachMessage name content in
  andthen (each (toss_message own secure) ms) (match e with None => done_ | Some _ => fail ErrOpen end).

(** The loop body of [Toss] for the entry [name]. *)
Definition toss_file (t : Tosser) (inbound done bad : bytes) (secure : bool) (name : bytes) : act := fun p =>
  if negb (FtnOutbound.IsMailBundle name) then (Ok tt, p)
  else
    let path := filepath_Join [inbound; name] in
    match p_fs p !! path with
    | None => (Err ErrOpen, p)
    | Some content =>
        let sum := fileSHA256 content in
        if FTNFileSeen sum (p_db p) then let '(_, p) := moveAside path done name p in (Ok tt, p)
        else
          match toss_messages (Own t) secure path content (count one_file p) with
          | (Err _, p) => moveAside path bad name (count one_failed p)
          | (Ok _, p) => moveAside path done name (with_db (MarkFTNFile now sum name (p_db p)) p)
          end
    end.

(** ** tic.go *)

Definition maxTICBytes : Z := 65536.
Definition MaxFileBytes : Z := 1073741824.
Definition ticWaitForFile : Z := 86400000000000.

Record TIC := MkTIC {
  tArea : bytes; tAreaDesc : bytes; tFile : bytes; tReplaces : bytes; tOrigin : bytes; tFrom : bytes;
  tDesc : list bytes; tLDesc : list bytes; tSize : Z; tCRC : option Z
}.

Definition safeAreaTag (s : bytes) : bool :=
  let alnum c := isLetter c || is_digit c in
  match s with
  | [] => false
  | c :: s' => alnum c && (len s' <=? 39)
               && forallb (fun c => alnum c || contains_byte (str "._!-") c) s'
  end.

Definition unsafeInName (s : bytes) : bool := existsb (fun c => (c =? 47) || (c =? 92) || (c <? 32) || (c =? 127)) s.

(** [ParseUint(s, 16, 32)] *)
Definition hex_digit_value (b : Z) : option Z :=
  if is_digit b then Some (b - 48)
  else if between 97 102 b then Some (b - 87) else if between 65 70 b then Some (b - 55) else None.
Definition parse_hex32 (s : bytes) : option Z :=
  if bool_decide (s = []) then None
  else foldl (fun v b => match v, hex_digit_value b with
                         | Some v, Some d => let v := 16 * v + d in if v <? 4294967296 then Some v else None
                         | _, _ => None
                         end) (Some 0) s.

Definition tic_line (t : TIC) (line : bytes) : TIC :=
  let line := trim_right line [13] in
  let '(key, value, _) := cut (trim_left line [32; 9]) 32 in
  let value := trim_space value in
  let key := to_lower key in
  let '(MkTIC area adesc file repl orig from desc ldesc size crc) := t in
  if bool_decide (key = str "area") then MkTIC (to_upper value) adesc file repl orig from desc ldesc size crc
  else if bool_decide (key = str "areadesc") then MkTIC area value file repl orig from desc ldesc size crc
  else if bool_decide (key = str "file") then MkTIC area adesc value repl orig from desc ldesc size crc
  else if bool_decide (key = str "lfile") || bool_decide (key = str "fullname") then
    MkTIC area adesc (if bool_decide (file = []) then value else file) repl orig from desc ldesc size crc
  else if bool_decide (key = str "replaces") then MkTIC area adesc file value orig from desc ldesc size crc
  else if bool_decide (key = str "origin") then MkTIC area adesc file repl value from desc ldesc size crc
  else if bool_decide (key = str "from") then MkTIC area adesc file repl orig value desc ldesc size crc
  else if bool_decide (key = str "desc") then MkTIC area adesc file repl orig from (desc ++ [value]) ldesc size crc
  else if bool_decide (key = str "ldesc") then MkTIC area adesc file repl orig from desc (ldesc ++ [value]) size crc
  else if bool_decide (key = str "size") then
    MkTIC area adesc file repl orig from desc ldesc (match atoi value with (n, true) => n | _ => size end) crc
  else if bool_decide (key = str "crc") then
    MkTIC area adesc file repl orig from desc ldesc size (match parse_hex32 value with Some n => Some n | None => crc end)
  else t.

Inductive tic_error := ErrTooLong | ErrBadArea | ErrBadFile | ErrNoCRC.

(** The scanner reads at most [maxTICBytes] and cannot take that many without a line break. *)
Definition ParseTIC (content : bytes) : result tic_error TIC :=
  let data := slice_to content maxTICBytes in
  _ ← guard_res (negb ((len data =? maxTICBytes) && negb (contains_byte data 10))) ErrTooLong;
  let t := foldl tic_line (MkTIC [] [] [] [] [] [] [] [] (-1) None) (split_byte data 10) in
  _ ← guard_res (safeAreaTag (tArea t)) ErrBadArea;
  _ ← guard_res (negb (bool_decide (tFile t = []) || (255 <? len (tFile t)) || unsafeInName (tFile t)
                       || has_prefix (tFile t) (str "."))) ErrBadFile;
  _ ← guard_res (bool_decide (is_Some (tCRC t))) ErrNoCRC;
  mret t.

Definition IsTIC (name : bytes) : bool := EqualFold (filepath_Ext name) (str ".tic").

Definition areaDir (root tag : bytes) : bytes := filepath_Join [root; to_lower tag].

Definition findInDir (fs : FS) (dir name : bytes) : option bytes :=
  (fun n => filepath_Join [dir; n]) <$> find (fun n => EqualFold n name) (read_dir fs dir).

(** [crc32.ChecksumIEEE] *)
Fixpoint crc_bits (n : nat) (c : Z) : Z :=
  match n with
  | O => c
  | S n => crc_bits n (if Z.odd c then Z.lxor (Z.shiftr c 1) 3988292384 else Z.shiftr c 1)
  end.
Definition crc32 (s : bytes) : Z :=
  Z.lxor (foldl (fun c b => Z.lxor (crc_bits 8 (Z.land (Z.lxor c b) 255)) (Z.shiftr c 8)) 4294967295 s) 4294967295.

Definition checkFile (content : bytes) (t : TIC) : bool :=
  negb (MaxFileBytes <? len content)
  && negb ((0 <=? tSize t) && negb (len content =? tSize t))
  && bool_decide (tCRC t = Some (crc32 content)).

Definition setAside (bad : bytes) (paths : list bytes) : act := fun p =>
  each (fun path => moveAside path bad (filepath_Base path)) paths (count one_bad p).

(** [%08X] *)
Definition hex8_upper (n : Z) : bytes := upper_byte <$> pad_hex 8 n.

(** The file a TIC replaces leaves its area. *)
Definition drop_replaced (root : bytes) (t : TIC) (p : Pass) : Pass :=
  if negb (bool_decide (tReplaces t = [])) && negb (EqualFold (tReplaces t) (tFile t)) then
    match RemoveFile (tArea t) (tReplaces t) (p_db p) with
    | Ok (old, db) => with_db db (with_fs (delete (filepath_Join [root; old]) (p_fs p)) p)
    | Err _ => p
    end
  else p.

Definition tossTIC (root inbound ticPath done bad : bytes) : act := fun p =>
  match p_fs p !! ticPath with
  | None => (Err ErrOpen, p)
  | Some content =>
      match ParseTIC content with
      | Err _ => setAside bad [ticPath] p
      | Ok t =>
          match findInDir (p_fs p) inbound (tFile t) with
          | None => if ticWaitForFile <? now - mtime ticPath then setAside bad [ticPath] p else (Ok tt, p)
          | Some data =>
              match p_fs p !! data with
              | None => (Err ErrOpen, p)
              | Some file =>
                  if negb (checkFile file t) then setAside bad [ticPath; data] p
                  else
                    let dst := filepath_Join [areaDir root (tArea t); tFile t] in
                    let p := drop_replaced root t p in
                    match moving (fun w => moveFile w data dst) p with
                    | (Err e, p) => (Err e, p)
                    | (Ok _, p) =>
                        match filepath_Rel root dst with
                        | None => (Err ErrRel, p)
                        | Some rel =>
                            let f := MkFile 0 0 (tFile t) rel (len file) (hex8_upper (default 0 (tCRC t))) (join (tDesc t) [10])
                                       (join (tLDesc t) [10]) (tOrigin t) (tFrom t) 0 0 in
                            match AddFile now (tArea t) (tAreaDesc t) f (p_db p) with
                            | Err e => (Err (ErrStore e), p)
                            | Ok (_, db) => moveAside ticPath done (filepath_Base ticPath) (count one_in (with_db db p))
                            end
                        end
                    end
              end
          end
      end
  end.

Definition tossTICs (root inbound done bad : bytes) : act := fun p =>
  each (fun name p => if IsTIC name then tossTIC root inbound (filepath_Join [inbound; name]) done bad p else (Ok tt, p))
    (read_dir (p_fs p) inbound) p.

(** ** The pass *)

Definition Toss (t : Tosser) (inbound done bad : bytes) (secure : bool) : act := fun p =>
  if bool_decide (inbound = []) then (Ok tt, p)
  else
    andthen (each (toss_file t inbound done bad secure) (read_dir (p_fs p) inbound))
      (match FileRoot t with
       | Some root => if secure then tossTICs root inbound done bad else done_
       | None => done_
       end) p.

Definition DefaultDirs (inbound : bytes) : bytes * bytes :=
  let parent := filepath_Dir (trim_right inbound [slash]) in
  (filepath_Join [parent; str "tossed"], filepath_Join [parent; str "bad"]).

(** The directories and the security of one inbound. *)
Definition inbound_plan (inbound : bytes) : bytes * bytes * bool :=
  if has_suffix (filepath_Clean inbound) (str "in.insecure")
  then (DefaultDirs (filepath_Join [filepath_Dir inbound; str "in"]), false)
  else (DefaultDirs inbound, true).

Definition TossAll (t : Tosser) (inbounds : list bytes) : act :=
  each (fun inbound => if bool_decide (inbound = []) then done_
                       else let '(done, bad, secure) := inbound_plan inbound in Toss t inbound done bad secure) inbounds.
End toss.
