(* ===== verification/TossSpec.v ===== *)
(** * What tossing promises

    Strangers can only leave netmail for the node, no file is lost, at no moment and whatever system call fails, a file echo
    writes only checked files in the directory of their area, and the database stays reachable. *)

From Stdlib Require Import Ascii String ZArith Lia Sorted.
From stdpp Require Import base tactics list gmap strings sorting.
From S2P Require Import Prelude GoStrings GoTime GoFiles Term StoreDB StoreUsers StoreBoards StoreEcho StoreInv StoreDemo StoreOk Toss.
From S2P Require FtnAddr FtnMessage FtnPacket FtnOutbound.
Open Scope Z_scope.

Example crc32_check : crc32 (str "123456789") = 3421780262.
Proof. vm_compute. reflexivity. Qed.

(** ** Relations between the state before and after *)

Section rel.
Context (R : Pass -> Pass -> Prop) `{!PreOrder R}.

Lemma andthen_rel (a b : act) p : R p (snd (a p)) -> (forall p, R p (snd (b p))) -> R p (snd (andthen a b p)).
Proof. unfold andthen. intros Ha Hb. destruct (a p) as [[[]|e] p']; [|done]. etransitivity; [exact Ha|apply Hb]. Qed.

Lemma each_rel {A} (f : A -> act) l : (forall x p, x ∈ l -> R p (snd (f x p))) -> forall p, R p (snd (each f l p)).
Proof.
  induction l as [|x l IH]; intros Hf p; [reflexivity|]. cbn [each]. apply andthen_rel; [apply Hf, list_elem_of_here|].
  intros p'. apply IH. intros y q Hy. apply Hf. by right.
Qed.
End rel.

Section pass.
Context `{UnicodeTables} `{FoldTables} `{Crypto} `{MailParser} `{FtnOutbound.ZipReader} `{Disk} (cfg : Config) (now : Z) (mtime : bytes -> Z).

(** ** The database *)

Definition db_steps (p p' : Pass) : Prop := reachable cfg (p_db p) -> reachable cfg (p_db p').

#[export] Instance db_steps_preorder : PreOrder db_steps.
Proof. split; unfold db_steps; intros ?; auto. Qed.

Lemma db_same p p' : p_db p' = p_db p -> db_steps p p'.
Proof. unfold db_steps. by intros ->. Qed.

Lemma db_one p p' : step cfg (p_db p) (p_db p') -> db_steps p p'.
Proof. intros Hs Hr. by eapply reach_step. Qed.

Lemma moveAside_db path dir name p : p_db (snd (moveAside path dir name p)) = p_db p.
Proof. unfold moveAside, moving. by destruct (move_to _ _ _ _). Qed.

Definition same_db (p p' : Pass) : Prop := p_db p' = p_db p.

#[export] Instance same_db_preorder : PreOrder same_db.
Proof. split; [done|]. unfold same_db. by intros ? ? ? -> ->. Qed.

Lemma moves_db (path : bytes -> bytes) dir (name : bytes -> bytes) l p :
  p_db (snd (each (fun x => moveAside (path x) dir (name x)) l p)) = p_db p.
Proof.
  apply (each_rel same_db). intros x q _. apply moveAside_db.
Qed.

Lemma toss_message_db own secure m p : db_steps p (snd (toss_message now own secure m p)).
Proof.
  unfold toss_message. destruct (_ && _).
  - destruct (ImportNetmail now m (p_db p)) as [[r db]|e] eqn:E; [|reflexivity]. apply db_one. eapply st_netmail. rewrite E.
    cbn. f_equal. f_equal. by destruct r.
  - destruct (_ && _); [|by apply db_same].
    destruct (ImportEcho now m (p_db p)) as [r db] eqn:E. apply db_one.
    match goal with |- step _ _ ?x => replace x with (snd (ImportEcho now m (p_db p))) end; [apply st_echo|]. rewrite E. by destruct r.
Qed.

Lemma toss_messages_db own secure name content p : db_steps p (snd (toss_messages now own secure name content p)).
Proof.
  unfold toss_messages. destruct (FtnOutbound.EachMessage _ _) as [ms e]. apply andthen_rel; [apply _| |].
  - apply each_rel; [apply _|]. intros m q _. apply toss_message_db.
  - intros q. destruct e; by apply db_same.
Qed.

Lemma toss_file_db t inbound done bad secure name p : db_steps p (snd (toss_file now t inbound done bad secure name p)).
Proof.
  unfold toss_file. destruct (negb _); [reflexivity|]. destruct (p_fs p !! _) as [content|]; [|reflexivity].
  destruct (FTNFileSeen _ _) eqn:Es.
  - pose proof (moveAside_db (filepath_Join [inbound; name]) done name p) as Hm. destruct (moveAside _ _ _ p). by apply db_same.
  - pose proof (toss_messages_db (Own t) secure (filepath_Join [inbound; name]) content (count one_file p)) as Hm.
    destruct (toss_messages _ _ _ _ _ _) as [[[]|e] p1]; cbn [snd] in Hm.
    + intros Hr. rewrite moveAside_db. cbn. eapply reach_step; [by apply Hm|apply st_tossed].
    + intros Hr. rewrite moveAside_db. by apply Hm.
Qed.

Lemma setAside_db bad paths p : p_db (snd (setAside bad paths p)) = p_db p.
Proof. unfold setAside. by rewrite (moves_db (fun x => x) bad filepath_Base). Qed.

Lemma drop_replaced_db root t p : db_steps p (drop_replaced root t p).
Proof.
  unfold drop_replaced. destruct (_ && _); [|reflexivity]. destruct (RemoveFile _ _ _) as [[old db]|e] eqn:E; [|reflexivity].
  apply db_one. by eapply st_remove_file.
Qed.

Lemma tossTIC_db root inbound ticPath done bad p : db_steps p (snd (tossTIC now mtime root inbound ticPath done bad p)).
Proof.
  unfold tossTIC. destruct (p_fs p !! ticPath) as [content|]; [|reflexivity].
  destruct (ParseTIC content) as [t|e]; [|apply db_same, setAside_db].
  destruct (findInDir _ _ _) as [data|]; [|destruct (_ <? _); [apply db_same, setAside_db|reflexivity]].
  destruct (p_fs p !! data) as [file|]; [|reflexivity]. destruct (negb _); [apply db_same, setAside_db|].
  pose proof (drop_replaced_db root t p) as Hd. set (p1 := drop_replaced root t p) in *. clearbody p1.
  assert (p_db (snd (moving (fun w => moveFile w data (filepath_Join [areaDir root (tArea t); tFile t])) p1)) = p_db p1) as Hm.
  { unfold moving. by destruct (moveFile _ _ _ _). }
  destruct (moving _ p1) as [[[]|e] p2]; cbn [snd] in Hm; [|intros Hr; cbn; rewrite Hm; by apply Hd].
  assert (db_steps p p2) as Hd2 by (intros Hr; rewrite Hm; by apply Hd). destruct (filepath_Rel _ _) as [rel|]; [|exact Hd2].
  cbn zeta. destruct (AddFile _ _ _ _ _) as [[o db]|e] eqn:E; [|exact Hd2].
  intros Hr. rewrite moveAside_db. cbn. eapply reach_step; [by apply Hd2|]. by eapply st_add_file.
Qed.

Lemma Toss_db t inbound done bad secure p : db_steps p (snd (Toss now mtime t inbound done bad secure p)).
Proof.
  unfold Toss. case_bool_decide; [reflexivity|]. apply andthen_rel; [apply _| |].
  - apply each_rel; [apply _|]. intros x q _. apply toss_file_db.
  - intros q. destruct (FileRoot t); [destruct secure|]; try reflexivity. unfold tossTICs. apply each_rel; [apply _|].
    intros x q' _. destruct (IsTIC x); [apply tossTIC_db|reflexivity].
Qed.

(** ** Strangers *)

(** The netmail [n] came in as [m], for one of the addresses [own]. *)
Definition for_us (own : list FtnAddr.Addr) (n : NetmailRow) : Prop := exists m : FtnMessage.Message,
  FtnMessage.Area m = [] /\ FtnAddr.Contains own (FtnMessage.Dest m) = true
  /\ n_to_addr n = Clean (FtnAddr.Addr_String (FtnMessage.Dest m)) MaxNetmailAddrLen /\ n_outgoing n = false /\ n_read n = 0 /\ n_author n = None.

(** Nothing but the netmail and the list of the tossed files is another, and what is new there is unread netmail for the node. *)
Definition only_mail (own : list FtnAddr.Addr) (p p' : Pass) : Prop := exists ns ts,
  p_db p' = on_netmail (fun _ => ns) (on_tossed (fun _ => ts) (p_db p)) /\ Forall (fun n => n ∈ netmail (p_db p) \/ for_us own n) ns.

#[export] Instance only_mail_preorder own : PreOrder (only_mail own).
Proof.
  split.
  - intros p. exists (netmail (p_db p)), (tossed (p_db p)). split; [by destruct (p_db p)|]. apply Forall_forall. by left.
  - intros p1 p2 p3 (n & t & E & Hn) (n' & t' & E' & Hn'). exists n', t'. split; [rewrite E', E; by destruct (p_db p1)|].
    eapply Forall_impl; [exact Hn'|]. rewrite Forall_forall in Hn. rewrite E. intros x [Hx|Hx]; [by apply Hn|by right].
Qed.

Lemma only_same own p p' : p_db p' = p_db p -> only_mail own p p'.
Proof. intros E. exists (netmail (p_db p)), (tossed (p_db p)). rewrite E. split; [by destruct (p_db p)|]. apply Forall_forall. by left. Qed.

Lemma ImportNetmail_only own m db r db' :
  FtnMessage.Area m = [] -> FtnAddr.Contains own (FtnMessage.Dest m) = true -> ImportNetmail now m db = Ok (r, db') ->
  exists ns, db' = on_netmail (fun _ => ns) db /\ Forall (fun n => n ∈ netmail db \/ for_us own n) ns.
Proof.
  assert (forall db : DB, db = on_netmail (fun _ => netmail db) db) as Hid by by intros [].
  intros Ha Hc. unfold ImportNetmail, insertNetmail. intros E. assert (Forall (fun n => n ∈ netmail db \/ for_us own n) (netmail db)) as Hall by (apply Forall_forall; by left).
  case_match; inv_op; [eauto|]. case_match; inv_op; [eauto|]. eexists. split; [reflexivity|].
  apply Forall_forall. intros n Hn. match type of Hn with _ ∈ newest _ ?l => assert (n ∈ l) as Hi end.
  { unfold newest in Hn. destruct (_ <? 0); [done|]. apply list_elem_of_lookup in Hn as [i Hi]. rewrite lookup_drop in Hi. by eapply list_elem_of_lookup_2. }
  apply elem_of_app in Hi as [Hi|Hi]; [by left|]. apply list_elem_of_singleton in Hi as ->. right. exists m. by split_and!.
Qed.

Lemma toss_file_stranger t inbound done bad name p : only_mail (Own t) p (snd (toss_file now t inbound done bad false name p)).
Proof.
  assert (forall m q, only_mail (Own t) q (snd (toss_message now (Own t) false m q))) as Hmsg.
  { intros m q. unfold toss_message. rewrite andb_false_r. destruct (bool_decide_reflect (FtnMessage.Area m = [])) as [Ha|]; cbn [andb]; [|by apply only_same].
    destruct (FtnAddr.Contains _ _) eqn:Hc; [|by apply only_same].
    destruct (ImportNetmail now m (p_db q)) as [[r db]|e] eqn:E; [|reflexivity]. apply (ImportNetmail_only (Own t)) in E as (n & -> & Hn); [|done..].
    exists n, (tossed (p_db q)). split; [destruct r; cbn; by destruct (p_db q)|done]. }
  assert (forall path content q, only_mail (Own t) q (snd (toss_messages now (Own t) false path content q))) as Hmsgs.
  { intros path content q. unfold toss_messages. destruct (FtnOutbound.EachMessage _ _) as [ms e]. apply andthen_rel; [apply _| |].
    - apply each_rel; [apply _|]. intros m q' _. apply Hmsg.
    - intros q'. destruct e; apply only_same; done. }
  unfold toss_file. destruct (negb _); [reflexivity|]. destruct (p_fs p !! _) as [content|]; [|reflexivity].
  destruct (FTNFileSeen _ _).
  - pose proof (moveAside_db (filepath_Join [inbound; name]) done name p) as Hm. destruct (moveAside _ _ _ p). by apply only_same.
  - specialize (Hmsgs (filepath_Join [inbound; name]) content (count one_file p)).
    destruct (toss_messages _ _ _ _ _ _) as [[[]|e] p1]; cbn [snd] in Hmsgs; (etransitivity; [exact Hmsgs|]); [|apply only_same; by rewrite moveAside_db].
    transitivity (with_db (MarkFTNFile now (fileSHA256 content) name (p_db p1)) p1); [|apply only_same; by rewrite moveAside_db].
    unfold MarkFTNFile. case_match; [by apply only_same|]. exists (netmail (p_db p1)), (tossed (p_db p1) ++ [MkTossed (fileSHA256 content) name now]).
    split; [cbn; by destruct (p_db p1)|]. apply Forall_forall. by left.
Qed.
End pass.

(** C23: Anybody may call and leave files in the insecure inbound, and all that they can change is the node's netmail: whatever
    the files there hold, and wherever a pass stops, of the whole database only the netmail and the list of the files tossed
    are another afterwards, and what is new in the netmail is unread, incoming, and was addressed to one of the node's own
    addresses: no echo area or message, file area, user, board, letter or post comes, goes or changes. *)
Theorem insecure_inbound `{UnicodeTables} `{FoldTables} `{Crypto} `{MailParser} `{FtnOutbound.ZipReader} `{Disk}
    (now : Z) (mtime : bytes -> Z) (t : Tosser) (inbounds : list bytes) (p : Pass) :
  Forall (fun inbound => has_suffix (filepath_Clean inbound) (str "in.insecure") = true) inbounds ->
  only_mail (Own t) p (snd (TossAll now mtime t inbounds p)).
Proof.
  intros Hin. unfold TossAll. apply each_rel; [apply _|]. intros x q Hx. case_bool_decide; [reflexivity|]. rewrite Forall_forall in Hin.
  unfold inbound_plan. rewrite (Hin x Hx). destruct (DefaultDirs _) as [done bad]. unfold Toss. case_bool_decide; [reflexivity|].
  apply andthen_rel; [apply _| |].
  - apply each_rel; [apply _|]. intros y q' _. apply toss_file_stranger.
  - intros q'. destruct (FileRoot t); reflexivity.
Qed.

#[local] Instance demo_fold : FoldTables := { fold_pair := fun _ _ => false }.
#[local] Instance demo_zip : FtnOutbound.ZipReader := { FtnOutbound.zip_members := fun _ => None }.
#[local] Instance calm : Disk := { fails := fun _ => MkFaults false false false None false false false false }.

(** A stranger left a packet that is none. *)
Definition demo_pass : Pass := MkPass {[str "/spool/in.insecure/x.pkt" := str "not a packet"]} demo_db no_stats 1000 [].

(** Another left a packet with a letter to the node's sysop and a message for an echo. *)
Definition our_node : FtnAddr.Addr := FtnAddr.MkAddr 2 410 51 0 [].
Definition stranger_message (text : bytes) : FtnPacket.PackedMessage :=
  FtnPacket.MkPM 9 410 51 410 0 0 (str "07 Oct 26  09:00:00") (str "Kasia") (str "Petros") (str "hello") (text ++ str "hi" ++ [13]).
Definition stranger_packet : bytes :=
  FtnPacket.WriteTo (FtnPacket.MkPacket (FtnAddr.MkAddr 2 410 9 0 []) our_node [] (Some (Civil 2026 10 7 9 0 0 0))
    [stranger_message []; stranger_message (str "AREA:BINKD" ++ [13])]) (Civil 2026 10 7 9 0 0 0).
Definition stranger_pass : Pass := MkPass {[str "/spool/in.insecure/x.pkt" := stranger_packet]} demo_db no_stats 1000 [].

Lemma insecure_inbound_witness :
  let after := snd (TossAll 1 (fun _ => 0) (MkTosser [our_node] None) [str "/spool/in.insecure"] stranger_pass) in
  sNetmail (p_st after) = 1 /\ sSkipped (p_st after) = 1 /\ only_mail [our_node] stranger_pass after.
Proof.
  cbv zeta. split_and!; [vm_compute; reflexivity..|].
  apply (insecure_inbound 1 (fun _ => 0) (MkTosser [our_node] None) [str "/spool/in.insecure"] stranger_pass). constructor; [vm_compute; reflexivity|constructor].
Defined.

Example demo_pass_moved :
  let p := snd (TossAll 1 (fun _ => 0) (MkTosser [] None) [str "/spool/in.insecure"] demo_pass) in
  p_fs p !! str "/spool/bad/x.pkt" = Some (str "not a packet") /\ sFailed (p_st p) = 1.
Proof. split; vm_compute; reflexivity. Qed.

(** ** No file is lost *)

(** [q] ends in no time stamp from [t] on. *)
Definition stamp_free (t : Z) (q : bytes) : Prop := forall h t', t <= t' -> q <> h ++ str "." ++ itoa t'.

Definition stamps_ok (p : Pass) : Prop :=
  0 <= p_clock p /\ forall q, is_Some (p_fs p !! q) -> stamp_free (p_clock p) q.

(** Every content is still somewhere. *)
Definition keeps (fs fs' : FS) : Prop := forall q c, fs !! q = Some c -> exists q', fs' !! q' = Some c.

#[local] Instance keeps_preorder : PreOrder keeps.
Proof. split; [intros fs q c Hq; eauto|]. intros f1 f2 f3 K12 K23 q c (q' & Hq')%K12. by eapply K23. Qed.

(** In all the states passed through, too. *)
Definition conserves (p p' : Pass) : Prop :=
  stamps_ok p -> stamps_ok p' /\ keeps (p_fs p) (p_fs p') /\ exists states, p_past p' = p_past p ++ states /\ Forall (keeps (p_fs p)) states.

#[local] Instance conserves_preorder : PreOrder conserves.
Proof.
  split.
  - intros p Hp. split_and!; [done|reflexivity|]. exists []. by rewrite app_nil_r.
  - intros p1 p2 p3 H12 H23 H1. destruct (H12 H1) as (H2 & K12 & l12 & E12 & F12). destruct (H23 H2) as (H3 & K23 & l23 & E23 & F23).
    split_and!; [done|by etransitivity|]. exists (l12 ++ l23). rewrite E23, E12, app_assoc. split; [done|]. apply Forall_app. split; [done|].
    eapply Forall_impl; [exact F23|]. intros s Hs. by etransitivity.
Qed.

Lemma stamp_free_later t t' q : t <= t' -> stamp_free t q -> stamp_free t' q.
Proof. intros Ht Hq h t'' Hle. apply Hq. lia. Qed.

Lemma itoa_no_dot_slash t : 0 <= t -> (ch "." ∉ itoa t) /\ (slash ∉ itoa t).
Proof.
  intros Ht. rewrite itoa_nonneg by done. pose proof (udec_digits t Ht) as Hd. rewrite Forall_forall in Hd.
  split; intros Hin; apply Hd in Hin; rewrite udigit_range in Hin; unfold slash in *; lia.
Qed.

Lemma itoa_inj t t' : 0 <= t -> 0 <= t' -> itoa t = itoa t' -> t = t'.
Proof.
  intros Ht Ht'. rewrite !itoa_nonneg by done. intros E. destruct (udec_spec t Ht) as (_ & _ & <- & _).
  destruct (udec_spec t' Ht') as (_ & _ & <- & _). by rewrite E.
Qed.

(** A separator that does not occur behind splits a list in one way. *)
Lemma app_last_sep (a b x y : bytes) c : c ∉ x -> c ∉ y -> a ++ c :: x = b ++ c :: y -> a = b /\ x = y.
Proof.
  intros Hx Hy E. pose proof (last_index_byte_app a c x Hx) as La. pose proof (last_index_byte_app b c y Hy) as Lb.
  rewrite E, Lb in La. apply app_inj_1 in E as [-> [= ->]]; [done|]. unfold len in La. lia.
Qed.

(** A stamp is in the last element of a path. *)
Lemma stamp_in_name t d n : 0 <= t -> stamp_free t (d ++ slash :: n) <-> stamp_free t n.
Proof.
  intros Ht. split; intros Hf h t' Hle E.
  - apply (Hf (d ++ slash :: h) t' Hle). rewrite E. by rewrite <-app_assoc.
  - destruct (itoa_no_dot_slash t' ltac:(lia)) as [_ Hs].
    assert (slash ∉ str "." ++ itoa t') as Hns by (rewrite elem_of_app; intros [Hin|]; [apply list_elem_of_singleton in Hin; discriminate|done]).
    revert h d E. induction h as [|x h IH]; intros d E.
    + apply Hns. cbn [app] in E. change (46 :: itoa t') with (str "." ++ itoa t') in E. rewrite <-E, elem_of_app. right. apply list_elem_of_here.
    + destruct d as [|y d]; cbn in E; injection E as Ex E; [by apply (Hf h t' Hle)|by apply (IH d)].
Qed.

Lemma join_last es x : es <> [] -> clean_abs (es ++ [x]) = clean_abs es ++ slash :: x.
Proof. intros Hne. unfold clean_abs. rewrite <-join_app_one by done. done. Qed.

(** A state on the way of a move: nothing is lost, and only the new name may be new. *)
Definition on_way (dest : bytes) (fs s : FS) : Prop := keeps fs s /\ forall q, is_Some (s !! q) -> q = dest \/ is_Some (fs !! q).

Lemma way_same dest fs : on_way dest fs fs.
Proof. split; [reflexivity|]. by right. Qed.

Lemma way_insert dest fs x : fs !! dest = None -> on_way dest fs (<[dest := x]> fs).
Proof.
  intros Hd. split.
  - intros q c Hq. exists q. by rewrite lookup_insert_ne by congruence.
  - intros q. rewrite lookup_insert. case_decide; [by left|by right].
Qed.

Lemma way_moved dest fs path c : fs !! dest = None -> fs !! path = Some c -> on_way dest fs (delete path (<[dest := c]> fs)).
Proof.
  intros Hd Hp. split.
  - intros q x Hq. destruct (decide (q = path)) as [->|Hne].
    + exists dest. rewrite lookup_delete_ne, lookup_insert_eq by congruence. congruence.
    + exists q. by rewrite lookup_delete_ne, lookup_insert_ne by congruence.
  - intros q. rewrite lookup_delete. case_decide; [by intros []|]. rewrite lookup_insert. case_decide; [by left|by right].
Qed.

Lemma way_growing dest fs c n : fs !! dest = None -> Forall (on_way dest fs) (copying dest c n fs).
Proof. intros Hd. unfold copying. apply Forall_fmap, Forall_forall. intros k _. by apply way_insert. Qed.

Lemma way_undo w dest fs : fs !! dest = None -> Forall (on_way dest fs) (undo w dest fs).
Proof. intros Hd. unfold undo. destruct (no_undo w); constructor; [|done]. rewrite delete_id by done. apply way_same. Qed.

(** Whatever fails, at every moment of the move; and one that works takes the file away from its old name. *)
Lemma move_to_way w path dest fs : fs !! dest = None ->
  let '(r, states) := move_to w path dest fs in
  Forall (on_way dest fs) states /\ exists new, last states = Some new
  /\ match r with Ok _ => exists c, fs !! path = Some c /\ new = delete path (<[dest := c]> fs) | Err _ => fs !! path = new !! path end.
Proof.
  intros Hd. unfold move_to, rename. destruct (fs !! path) as [c|] eqn:Ep.
  2:{ destruct (no_rename w), (no_open w); (split; [apply Forall_singleton, way_same|]; exists fs; by rewrite Ep). }
  assert (path <> dest) as Hne by congruence. pose proof (way_same dest fs) as W0. pose proof (way_moved dest fs path c Hd Ep) as W1.
  pose proof (fun n => way_growing dest fs c n Hd) as Wc. pose proof (way_undo w dest fs Hd) as Wu.
  assert (forall x, <[dest := x]> fs !! path = Some c) as Ei by (intros x; by rewrite lookup_insert_ne).
  assert (forall n, last (fs :: copying dest c n fs) = Some (<[dest := take n c]> fs)) as El.
  { intros n. unfold copying. rewrite seq_S, fmap_app, app_comm_cons. apply last_snoc. }
  assert (forall n, exists new, last ((fs :: copying dest c n fs) ++ undo w dest fs) = Some new /\ Some c = new !! path) as Eu.
  { intros n. unfold undo. destruct (no_undo w); [rewrite app_nil_r, El; eexists; by split; [|rewrite Ei]|].
    rewrite last_snoc. eexists. split; [reflexivity|]. by rewrite lookup_delete_ne. }
  destruct (no_rename w).
  2:{ rewrite <-delete_insert_ne by done. split; [constructor; [done|by apply Forall_singleton]|]. eauto. }
  destruct (no_open w); [split; [by apply Forall_singleton|]; exists fs; by rewrite Ep|]. destruct (no_create w); [split; [by apply Forall_singleton|]; exists fs; by rewrite Ep|].
  destruct (short_copy w) as [n|]; [split; [apply Forall_app; split; [by constructor|done]|apply Eu]|].
  destruct (no_close w); [split; [apply Forall_app; split; [by constructor|done]|apply Eu]|].
  destruct (no_remove w); [split; [by constructor|]; eexists; by split; [apply El|rewrite Ei]|].
  split; [apply Forall_app; split; [by constructor|by apply Forall_singleton]|]. eexists. split; [apply last_snoc|]. eauto.
Qed.

Lemma last_elem {A} (l : list A) x : last l = Some x -> x ∈ l.
Proof. rewrite last_lookup. apply list_elem_of_lookup_2. Qed.

Lemma moveAside_conserves `{Disk} path dir name es p :
  es <> [] -> Forall plain es -> dir = clean_abs es -> plain name ->
  (exists d, path = d ++ slash :: name) -> conserves p (snd (moveAside path dir name p)).
Proof.
  intros Hne Hes -> Hn [d Hd] [Hc Hs]. unfold moveAside. rewrite Join_plain by done.
  set (dest0 := clean_abs (es ++ [name])). set (dest := match p_fs p !! dest0 with Some _ => _ | None => _ end).
  destruct (p_fs p !! path) as [content|] eqn:Ep.
  2:{ unfold moving, move_to, rename. rewrite Ep. destruct (no_rename _), (no_open _); cbn [snd]; rewrite ?Ep; cbn; (split_and!;
      [split; [cbn; lia|]; intros q Hq; apply (stamp_free_later (p_clock p)); [cbn; lia|by apply Hs]|reflexivity|]; exists [p_fs p]; split; [done|]; by constructor). }
  assert (stamp_free (p_clock p) name) as Hfn.
  { apply (stamp_in_name _ d); [done|]. rewrite <-Hd. apply Hs. by rewrite Ep. }
  assert (p_fs p !! dest = None /\ stamp_free (p_clock p + 1) dest) as [Hfree Hsd].
  { unfold dest. destruct (p_fs p !! dest0) eqn:E0.
    - split.
      + destruct (p_fs p !! (dest0 ++ str "." ++ itoa (p_clock p))) eqn:E1; [|done]. exfalso.
        apply (Hs (dest0 ++ str "." ++ itoa (p_clock p)) ltac:(by rewrite E1) dest0 (p_clock p)); [lia|done].
      + intros h t' Hle E. apply app_last_sep in E as [_ E]; [|apply itoa_no_dot_slash; lia..]. apply itoa_inj in E; lia.
    - split; [done|]. apply (stamp_free_later (p_clock p)); [lia|]. unfold dest0. rewrite join_last by done. by apply stamp_in_name. }
  unfold moving. pose proof (move_to_way (fails (p_clock p)) path dest (p_fs p) Hfree) as Hw.
  destruct (move_to _ _ _ _) as [r states]. destruct Hw as (Hw & new & El & _). cbn [snd]. rewrite El. cbn [default].
  rewrite Forall_forall in Hw. destruct (Hw new (last_elem _ _ El)) as [Kn Dn]. split_and!.
  - split; cbn [p_clock p_fs]; [lia|]. intros q Hq. destruct (Dn q Hq) as [->|Hq']; [done|]. apply (stamp_free_later (p_clock p)); [lia|by apply Hs].
  - exact Kn.
  - exists states. split; [done|]. apply Forall_forall. intros s Hsn. by apply Hw.
Qed.

Definition same_files (p p' : Pass) : Prop := p_fs p' = p_fs p /\ p_clock p' = p_clock p /\ p_past p' = p_past p.

#[local] Instance same_files_preorder : PreOrder same_files.
Proof. split; [done|]. unfold same_files. intros p1 p2 p3 (? & ? & ?) (? & ? & ?). split_and!; congruence. Qed.

Lemma same_files_conserves p p' : same_files p p' -> conserves p p'.
Proof.
  intros (Ef & Ec & Ep) [Hc Hs]. split_and!; [split; rewrite ?Ec, ?Ef; done|by rewrite Ef|]. exists []. by rewrite Ep, app_nil_r.
Qed.

Section conserve.
Context `{UnicodeTables} `{FoldTables} `{Crypto} `{FtnOutbound.ZipReader} `{Disk} (now : Z) (mtime : bytes -> Z).

Lemma toss_message_files own secure m p : same_files p (snd (toss_message now own secure m p)).
Proof.
  unfold toss_message. destruct (_ && _).
  - destruct (ImportNetmail now m (p_db p)) as [[r db]|e]; [|done]. by destruct r.
  - destruct (_ && _); [|done]. destruct (ImportEcho now m (p_db p)) as [r db]. by destruct r.
Qed.

Lemma toss_messages_files own secure name content p : same_files p (snd (toss_messages now own secure name content p)).
Proof.
  unfold toss_messages. destruct (FtnOutbound.EachMessage _ _) as [ms e]. apply andthen_rel; [apply _| |].
  - apply each_rel; [apply _|]. intros m q _. apply toss_message_files.
  - intros q. by destruct e.
Qed.

Lemma toss_file_conserves t ies des bes secure name p :
  ies <> [] -> des <> [] -> bes <> [] -> Forall plain ies -> Forall plain des -> Forall plain bes -> plain name ->
  conserves p (snd (toss_file now t (clean_abs ies) (clean_abs des) (clean_abs bes) secure name p)).
Proof.
  intros Hi Hd Hb Pi Pd Pb Hn. unfold toss_file. destruct (negb _); [reflexivity|]. destruct (p_fs p !! _) as [content|]; [|reflexivity].
  assert (exists d, filepath_Join [clean_abs ies; name] = d ++ slash :: name) as Hpath.
  { exists (clean_abs ies). rewrite Join_plain by done. by apply join_last. }
  set (path := filepath_Join [clean_abs ies; name]) in *. clearbody path. destruct (FTNFileSeen _ _).
  - pose proof (moveAside_conserves path _ name des p Hd Pd eq_refl Hn Hpath) as Hm. by destruct (moveAside _ _ _ p).
  - pose proof (toss_messages_files (Own t) secure path content (count one_file p)) as Hm.
    destruct (toss_messages _ _ _ _ _ _) as [[[]|e] p1]; cbn [snd] in Hm; apply same_files_conserves in Hm;
      (etransitivity; [apply same_files_conserves; by split|]); (etransitivity; [exact Hm|]).
    + etransitivity; [|by apply (moveAside_conserves path _ name des)]. by apply same_files_conserves.
    + etransitivity; [|by apply (moveAside_conserves path _ name bes)]. by apply same_files_conserves.
Qed.
End conserve.

(** C24: No mail is lost on its way through: at every moment of a pass that moves mail over clean directories, whichever of its
    system calls fail and wherever it is stopped, what any file held when it began is held, whole, by some file: the pass
    only adds to the states of the disk passed through, and all of them, and the one it ends with, have it.  Bundles
    are renamed, or copied and then removed, to the done or the bad directory, under a name that no other file has: one that
    is taken there gets a time stamp. *)
Theorem toss_loses_nothing `{UnicodeTables} `{FoldTables} `{Crypto} `{FtnOutbound.ZipReader} `{Disk} (now : Z) (mtime : bytes -> Z)
    (own : list FtnAddr.Addr) (ies des bes : list bytes) (secure : bool) (p : Pass) :
  ies <> [] -> des <> [] -> bes <> [] -> Forall plain ies -> Forall plain des -> Forall plain bes ->
  Forall plain (read_dir (p_fs p) (clean_abs ies)) -> stamps_ok p ->
  let after := snd (Toss now mtime (MkTosser own None) (clean_abs ies) (clean_abs des) (clean_abs bes) secure p) in
  keeps (p_fs p) (p_fs after) /\ exists states, p_past after = p_past p ++ states /\ Forall (keeps (p_fs p)) states.
Proof.
  intros Hi Hd Hb Pi Pd Pb Hn Hs. cbv zeta. revert Hs. enough (conserves p (snd (Toss now mtime (MkTosser own None) (clean_abs ies) (clean_abs des) (clean_abs bes) secure p))) as Hc.
  { intros Hs. by apply Hc. }
  unfold Toss. case_bool_decide; [reflexivity|]. apply andthen_rel; [apply _| |].
  - apply each_rel; [apply _|]. intros x q Hx. apply toss_file_conserves; try done. rewrite Forall_forall in Hn. by apply Hn.
  - intros q. reflexivity.
Qed.

(** A bad packet, on a disk where the rename fails, and the removal of the old file. *)
Lemma toss_loses_nothing_witness :
  let disk : Disk := {| fails := fun _ => MkFaults true false false None false false true false |} in
  let after := snd (Toss (H3 := disk) 1 (fun _ => 0) (MkTosser [] None) (str "/spool/in.insecure") (str "/spool/tossed") (str "/spool/bad") false demo_pass) in
  length (p_past after) = 14%nat
  /\ exists states, p_past after = [] ++ states /\ Forall (keeps (p_fs demo_pass)) states.
Proof.
  intros disk after. split; [vm_compute; reflexivity|].
  apply (toss_loses_nothing (H3 := disk) 1 (fun _ => 0) [] [str "spool"; str "in.insecure"] [str "spool"; str "tossed"] [str "spool"; str "bad"] false demo_pass).
  - discriminate.
  - discriminate.
  - discriminate.
  - apply all_plain. vm_compute. reflexivity.
  - apply all_plain. vm_compute. reflexivity.
  - apply all_plain. vm_compute. reflexivity.
  - assert (read_dir (p_fs demo_pass) (clean_abs [str "spool"; str "in.insecure"]) = [str "x.pkt"]) as -> by (vm_compute; reflexivity).
    apply all_plain. vm_compute. reflexivity.
  - split; [discriminate|]. cbn [p_clock demo_pass p_fs]. intros q Hq. apply lookup_singleton_is_Some in Hq as <-.
    intros h t' Ht' E. change (str "/spool/in.insecure/x.pkt") with (str "/spool/in.insecure/x" ++ ch "." :: str "pkt") in E.
    apply app_last_sep in E as [_ E]; [|set_unfold; lia|apply itoa_no_dot_slash; lia].
    assert (ch "p" ∈ itoa t') as Hin by (rewrite <-E; apply list_elem_of_here).
    rewrite itoa_nonneg in Hin by lia. pose proof (udec_digits t' ltac:(lia)) as Hd. rewrite Forall_forall in Hd.
    apply Hd, udigit_range in Hin. lia.
Defined.

(** ** File echoes *)

Section tic.
Context `{UnicodeTables} `{FoldTables} `{Crypto} `{FtnOutbound.ZipReader} `{Disk} (now : Z) (mtime : bytes -> Z).

Definition tag_char (c : Z) : Prop := 48 <= c <= 57 \/ 65 <= c <= 90 \/ 97 <= c <= 122 \/ c = 46 \/ c = 95 \/ c = 33 \/ c = 45.

Lemma safeAreaTag_chars s :
  safeAreaTag s = true -> exists c s', s = c :: s' /\ tag_char c /\ c <> 46 /\ Forall tag_char s'.
Proof.
  assert (forall c, isLetter c || is_digit c = true -> tag_char c /\ c <> 46) as Ha.
  { intros c Hc. unfold isLetter, is_digit, between, tag_char in *. apply orb_prop in Hc as [Hc|Hc]; [apply orb_prop in Hc as [Hc|Hc]|];
      apply andb_prop in Hc as [?%Z.leb_le ?%Z.leb_le]; lia. }
  destruct s as [|c s]; [done|]. cbn. intros Hs. bool_prop. exists c, s. split; [done|].
  match goal with Hx : isLetter c || _ = true |- _ => destruct (Ha c Hx) end. split_and!; [done..|].
  match goal with Hx : forallb _ s = true |- _ => rewrite forallb_forall in Hx; rename Hx into Hall end.
  apply Forall_forall. intros x Hx%list_elem_of_In%Hall. apply orb_prop in Hx as [Hx|Hx]; [by apply Ha|].
  unfold tag_char. cbn in Hx. repeat (apply orb_prop in Hx as [Hx|Hx]; [apply Z.eqb_eq in Hx; lia|]). done.
Qed.

Lemma lower_tag_plain s : safeAreaTag s = true -> plain (to_lower s) /\ to_lower s = (lower_byte <$> s).
Proof.
  intros (c & s' & -> & Hc & Hdot & Hs)%safeAreaTag_chars.
  assert (to_lower (c :: s') = (lower_byte <$> (c :: s'))) as E.
  { unfold to_lower. assert (is_ascii (c :: s') = true) as ->; [|done]. apply forallb_forall. intros x Hx%list_elem_of_In.
    apply Z.ltb_lt. apply elem_of_cons in Hx as [->|Hx]; [unfold tag_char in Hc; lia|].
    rewrite Forall_forall in Hs. specialize (Hs x Hx). unfold tag_char in Hs. lia. }
  split; [|done]. rewrite E. assert (forall x, tag_char x -> lower_byte x <> 47 /\ (x <> 46 -> lower_byte x <> 46)) as Hl.
  { intros x Hx. unfold lower_byte, between, tag_char in *. destruct (Z.leb_spec 65 x), (Z.leb_spec x 90); cbn; lia. }
  destruct (Hl c Hc) as [_ Hc46]. specialize (Hc46 Hdot). split_and!.
  - done.
  - cbn. by intros [= ? _].
  - cbn. by intros [= ? _].
  - rewrite list_elem_of_fmap. intros (x & Ex & Hx). assert (tag_char x) as Htx.
    { apply elem_of_cons in Hx as [->|Hx]; [done|]. rewrite Forall_forall in Hs. by apply Hs. }
    destruct (Hl x Htx) as [Hne _]. by apply Hne.
Qed.

Lemma ParseTIC_Ok content t :
  ParseTIC content = Ok t ->
  safeAreaTag (tArea t) = true /\ plain (tFile t) /\ has_prefix (tFile t) (str ".") = false /\ len (tFile t) <= 255 /\ is_Some (tCRC t).
Proof.
  unfold ParseTIC. generalize (slice_to content maxTICBytes). intros data. cbn zeta.
  generalize (foldl tic_line (MkTIC [] [] [] [] [] [] [] [] (-1) None) (split_byte data 10)). intros t0 E. simp_res. bool_prop.
  assert (slash ∉ tFile t) as Hs.
  { intros Hin. match goal with Hx : unsafeInName _ = false |- _ => unfold unsafeInName in Hx; rewrite existsb_false in Hx;
      rewrite Forall_forall in Hx; specialize (Hx slash Hin) end. discriminate. }
  split_and!; [done| |done|done|done]. split_and!; [done| | |done].
  - intros E. by rewrite E in *.
  - intros E. by rewrite E in *.
Qed.
End tic.

(** A file echo cannot write outside its area, nor publish a file that is not the one announced: a TIC that
    [ParseTIC] accepts names a plain file directly in the directory of its area below the root, whatever bytes
    it holds, and the path recorded in the database is area/file; and a TIC that puts a file in place found one of
    the announced size and CRC-32, at most [MaxFileBytes] long. *)
Theorem tic_contained `{UnicodeTables} `{FoldTables} `{Crypto} `{Disk} (now : Z) (mtime : bytes -> Z) (es : list bytes)
    (inbound ticPath done bad content : bytes) (t : TIC) (p : Pass) :
  Forall plain es -> es <> [] -> ParseTIC content = Ok t ->
  let root := clean_abs es in
  let dst := filepath_Join [areaDir root (tArea t); tFile t] in
  dst = clean_abs (es ++ [to_lower (tArea t); tFile t])
  /\ plain (to_lower (tArea t)) /\ plain (tFile t)
  /\ filepath_Rel root dst = Some (to_lower (tArea t) ++ slash :: tFile t)
  /\ (p_fs p !! ticPath = Some content ->
      sFilesIn (p_st (snd (tossTIC now mtime root inbound ticPath done bad p))) <> sFilesIn (p_st p) ->
      exists data file, findInDir (p_fs p) inbound (tFile t) = Some data /\ p_fs p !! data = Some file
        /\ len file <= MaxFileBytes /\ (0 <= tSize t -> len file = tSize t) /\ tCRC t = Some (crc32 file)).
Proof.
  intros Hes Hne Hp. cbn zeta. destruct (ParseTIC_Ok _ _ Hp) as (Ha & Hf & _). destruct (lower_tag_plain _ Ha) as [Hl _].
  assert (filepath_Join [areaDir (clean_abs es) (tArea t); tFile t] = clean_abs (es ++ [to_lower (tArea t); tFile t])) as Edst.
  { unfold areaDir. rewrite Join_plain by done. rewrite Join_plain; [by rewrite <-app_assoc|by destruct es| |done].
    apply Forall_app. by split; [|constructor]. }
  split_and!; [done..| |].
  - rewrite Edst. unfold filepath_Rel. rewrite (elements_clean es Hes), elements_clean.
    2:{ apply Forall_app. split; [done|]. constructor; [done|]. constructor; [done|constructor]. }
    assert (forall l, rooted (clean_abs l) = true) as Hr by (intros l; unfold clean_abs, rooted; by destruct (join l [slash])).
    rewrite !Hr. cbn [eqb negb]. assert (forall l x, strip_common l (l ++ x) = ([], x)) as Hstrip.
    { clear. induction l as [|e l IH]; intros x; [by destruct x|]. cbn. by rewrite bool_decide_eq_true_2. }
    rewrite Hstrip. cbn. done.
  - intros Hc Hin. unfold tossTIC in Hin. rewrite Hc, Hp in Hin.
    assert (forall path dir name q, sFilesIn (p_st (snd (moveAside path dir name q))) = sFilesIn (p_st q)) as Hmv.
    { intros path dir name q. unfold moveAside, moving. by destruct (move_to _ _ _ _). }
    assert (forall paths q, sFilesIn (p_st (snd (setAside bad paths q))) = sFilesIn (p_st q)) as Hset.
    { intros paths q. unfold setAside. transitivity (sFilesIn (p_st (count one_bad q))); [|cbn; lia]. generalize (count one_bad q).
      induction paths as [|x paths IH]; intros q0; [done|]. cbn [each]. unfold andthen. specialize (Hmv x bad (filepath_Base x) q0).
      destruct (moveAside _ _ _ q0) as [[[]|e] q1]; [|done]. cbn [snd] in Hmv. rewrite IH. done. }
    destruct (findInDir _ _ _) as [data|] eqn:Ed.
    2:{ destruct (_ <? _); [|done]. by rewrite Hset in Hin. }
    destruct (p_fs p !! data) as [file|] eqn:Ef; [|done]. destruct (checkFile file t) eqn:Ec; cbn [negb] in Hin; [|by rewrite Hset in Hin].
    exists data, file. unfold checkFile in Ec. bool_prop. split_and!; [done|done|done| |done].
    intros Hsz. match goal with Hx : _ && _ = false |- _ => apply andb_false_iff in Hx as [Hx|Hx]; bool_prop; [lia|] end. lia.
Qed.

Definition demo_tic : bytes := str "Area nodelist" ++ [13; 10] ++ str "File NODEDIFF.A01" ++ [13; 10] ++ str "Size 9" ++ [10] ++ str "Crc CBF43926" ++ [10].

Lemma tic_contained_witness :
  exists t, ParseTIC demo_tic = Ok t
    /\ filepath_Join [areaDir (str "/srv/files") (tArea t); tFile t] = str "/srv/files/nodelist/NODEDIFF.A01".
Proof.
  assert (is_ok (ParseTIC demo_tic) = true) as Hok by (vm_compute; reflexivity).
  destruct (ParseTIC demo_tic) as [t|e] eqn:E; [|discriminate Hok]. exists t. split; [reflexivity|].
  destruct (tic_contained 1 (fun _ => 0) [str "srv"; str "files"] [] [] [] [] demo_tic t demo_pass) as (Hd & _).
  - apply all_plain. vm_compute. reflexivity.
  - discriminate.
  - exact E.
  - change (str "/srv/files") with (clean_abs [str "srv"; str "files"]). rewrite Hd.
    assert ((fun t => (tArea t, tFile t)) <$> ParseTIC demo_tic = Ok (str "NODELIST", str "NODEDIFF.A01")) as Ef by (vm_compute; reflexivity).
    rewrite E in Ef. injection Ef as -> ->. vm_compute. reflexivity.
Defined.

(** * Moving a file into its area: [moveFile] of [internal/ftntoss/tic.go]

    A rename, or a copy where the area is on another file system; every system call may fail.  The theorems, for all the states
    that the disk passes through, so that a stop at any point is covered: the content is never lost and never
    half there, and a move that reports no error is a rename. *)
Module Moving.

Lemma part_ne dst : part dst <> dst.
Proof. intros E%(f_equal length). unfold part in E. rewrite length_app in E. cbn in E. lia. Qed.

(** What holds of every state on the way. *)
Definition on_the_way (src dst c : bytes) (fs s : FS) : Prop :=
  (s !! src = Some c \/ s !! dst = Some c) /\ (s !! dst = fs !! dst \/ s !! dst = Some c)
  /\ forall p, p <> src -> p <> dst -> p <> part dst -> s !! p = fs !! p.

Ltac looks :=
  repeat first [ rewrite lookup_insert_eq | rewrite lookup_delete_eq | rewrite lookup_insert_ne by congruence | rewrite lookup_delete_ne by congruence ].
Ltac on_way := unfold on_the_way; split_and!; [| |intros p ? ? ?]; looks; auto.

Section move.
Variables (src dst c : bytes) (fs : FS).
Hypothesis Hsrc : fs !! src = Some c.
Hypothesis Hne : src <> dst.
Hypothesis Hpart : src <> part dst.

Lemma way_start : on_the_way src dst c fs fs.
Proof. pose proof (part_ne dst). on_way. Qed.

Lemma way_copying n : Forall (on_the_way src dst c fs) (copying (part dst) c n fs).
Proof. unfold copying. apply Forall_fmap, Forall_forall. intros k _. cbn. pose proof (part_ne dst). on_way. Qed.

Lemma way_dropped w : Forall (on_the_way src dst c fs) (undo w (part dst) fs).
Proof. pose proof (part_ne dst). unfold undo. destruct (no_undo w); constructor; [on_way|constructor]. Qed.

Lemma way_there : on_the_way src dst c fs (<[dst := c]> (delete (part dst) fs)).
Proof. pose proof (part_ne dst). on_way. Qed.

Lemma way_end : on_the_way src dst c fs (delete src (<[dst := c]> (delete (part dst) fs))).
Proof. pose proof (part_ne dst). on_way. Qed.

Lemma way_renamed : on_the_way src dst c fs (<[dst := c]> (delete src fs)).
Proof. pose proof (part_ne dst). on_way. Qed.

Lemma last_copying n : last (fs :: copying (part dst) c n fs) = Some (<[part dst := take n c]> fs).
Proof. unfold copying. rewrite seq_S, fmap_app, app_comm_cons. apply last_snoc. Qed.

(** C39: Moving a file loses nothing, whichever call fails and wherever the program stops: in every state of the disk the content
    is whole at its old place or at the new one, the new place holds what it did before or all of the content, and no other
    file has changed but [dst.part]; after an error the file is still at its old place, and after success only at the new one. *)
Theorem moveFile_safe (w : faults) :
  let '(r, states) := moveFile w src dst fs in
  Forall (on_the_way src dst c fs) states
  /\ exists new, last states = Some new
     /\ match r with Ok _ => new !! dst = Some c /\ new !! src = None | Err _ => new !! src = Some c end.
Proof.
  unfold moveFile, rename. rewrite Hsrc.
  assert (forall s : FS, s !! src = Some c -> forall k, <[part dst := k]> s !! src = Some c) as Hs by (intros s E k; by rewrite lookup_insert_ne).
  destruct (no_rename w).
  2:{ split; [apply Forall_cons_2, Forall_singleton; [apply way_start|apply way_renamed]|]. eexists. split; [reflexivity|].
      by rewrite lookup_insert_eq, lookup_insert_ne, lookup_delete_eq. }
  destruct (no_open w); [split; [apply Forall_singleton, way_start|eauto]|].
  destruct (no_create w); [split; [apply Forall_singleton, way_start|eauto]|].
  pose proof way_copying as Hc. assert (forall n, exists new, last ((fs :: copying (part dst) c n fs) ++ undo w (part dst) fs) = Some new /\ new !! src = Some c) as Eu.
  { intros n. unfold undo. destruct (no_undo w); [rewrite app_nil_r, last_copying; eexists; split; [done|by apply Hs]|].
    rewrite last_snoc. eexists. split; [done|]. by rewrite lookup_delete_ne. }
  pose proof (way_dropped w) as Hd. pose proof way_start as H0.
  destruct (short_copy w) as [n|]; [split; [apply Forall_app; split; [by constructor|done]|apply Eu]|].
  destruct (no_close w); [split; [apply Forall_app; split; [by constructor|done]|apply Eu]|].
  destruct (no_rename_part w).
  { split; [by constructor; [apply way_start|]|]. eexists. split; [apply last_copying|]. by apply Hs. }
  destruct (no_remove w).
  - split; [apply Forall_app; split; [by constructor; [apply way_start|]|apply Forall_singleton, way_there]|].
    eexists. split; [by rewrite last_snoc|]. rewrite lookup_insert_ne, lookup_delete_ne by done. exact Hsrc.
  - split; [apply Forall_app; split; [by constructor; [apply way_start|]|apply Forall_cons_2, Forall_singleton; [apply way_there|apply way_end]]|].
    eexists. split; [by rewrite last_app_cons|].
    by rewrite lookup_delete_ne, lookup_insert_eq, lookup_delete_eq by done.
Qed.

(** A move without an error is a rename, whichever way it was done, if no file had the name of the copy. *)
Theorem moveFile_is_rename (w : faults) :
  fs !! part dst = None -> fst (moveFile w src dst fs) = Ok tt -> last (snd (moveFile w src dst fs)) = rename src dst fs.
Proof.
  intros Hfree. unfold moveFile. destruct (no_rename w) eqn:Er.
  - rewrite Hsrc. destruct (no_open w), (no_create w), (short_copy w), (no_close w), (no_rename_part w), (no_remove w); try done.
    intros _. unfold rename. rewrite Hsrc. cbn [snd]. rewrite last_app_cons. f_equal.
    rewrite delete_id by done. by rewrite delete_insert_ne.
  - unfold rename. rewrite Hsrc. done.
Qed.
End move.

Definition copy_only : faults := MkFaults true false false None false false false false.

Definition demo_inbound : FS := {[str "/in/a.zip" := str "content"]}.
Definition demo_moved : result move_error unit * list FS := moveFile copy_only (str "/in/a.zip") (str "/files/a.zip") demo_inbound.

Lemma moveFile_safe_witness :
  fst demo_moved = Ok tt /\ Forall (on_the_way (str "/in/a.zip") (str "/files/a.zip") (str "content") demo_inbound) (snd demo_moved).
Proof.
  split; [vm_compute; reflexivity|].
  pose proof (moveFile_safe (str "/in/a.zip") (str "/files/a.zip") (str "content") demo_inbound eq_refl ltac:(discriminate) ltac:(discriminate) copy_only) as H.
  fold demo_moved in H. destruct demo_moved as [r states]. exact (proj1 H).
Defined.

Lemma moveFile_is_rename_witness : last (snd demo_moved) = rename (str "/in/a.zip") (str "/files/a.zip") demo_inbound.
Proof.
  apply (moveFile_is_rename (str "/in/a.zip") (str "/files/a.zip") (str "content") demo_inbound); solve [discriminate | vm_compute; reflexivity].
Defined.

(** The copy's name may be another file's of the area: that file is gone afterwards.  And when the last rename fails, the copy
    stays. *)
Example part_taken :
  let fs : FS := <[str "/files/a.zip.part" := str "another file"]> {[str "/in/a.zip" := str "content"]} in
  last (snd (moveFile copy_only (str "/in/a.zip") (str "/files/a.zip") fs)) = Some {[str "/files/a.zip" := str "content"]}
  /\ (x ← last (snd (moveFile (MkFaults true false false None false true false false) (str "/in/a.zip") (str "/files/a.zip") {[str "/in/a.zip" := str "content"]}));
      x !! str "/files/a.zip.part") = Some (str "content").
Proof. split; vm_compute; reflexivity. Qed.
End Moving.
