(* ===== verification/Limits.v ===== *)
(** * Limits on callers: [internal/bbs/limiter.go], [connlimit.go], [backoff.go]

    The sliding-window rate limiter with its copy in the database, the connection
    limiter and the login backoff.  Each operation is one critical section; times are
    nanoseconds, and the clock is an argument. *)

From Stdlib Require Import Ascii String ZArith Lia Sorted.
From stdpp Require Import base tactics list gmap strings sorting.
From S2P Require Import Prelude StoreDB StoreBoards.
Open Scope Z_scope.

(** ** limiter.go *)

(** [swept] is [None] for the zero time; [bucket] is set for a limiter with a store. *)
Record rateLimiter := MkLimiter {
  limit : Z; window : Z; hits_of : gmap bytes (list Z); swept : option Z; bucket : option bytes
}.

Definition set_hits (h : gmap bytes (list Z)) (r : rateLimiter) : rateLimiter :=
  MkLimiter (limit r) (window r) h (swept r) (bucket r).

Definition newRateLimiter (lim win : Z) : rateLimiter := MkLimiter lim win ∅ None None.

Definition newPersistentLimiter (lim win : Z) (b : bytes) (now : Z) (db : DB) : rateLimiter :=
  MkLimiter lim win (LoadHits b (now - win) db) None (Some b).

(** The hits of [key] after the cut-off, and the map without the others. *)
Definition kept (cutoff : Z) (ts : list Z) : list Z := filter (fun t => cutoff < t) ts.

Definition recent (key : bytes) (now : Z) (r : rateLimiter) : list Z * rateLimiter :=
  let ts := kept (now - window r) (default [] (hits_of r !! key)) in
  (ts, set_hits (if bool_decide (ts = []) then delete key (hits_of r) else <[key := ts]> (hits_of r)) r).

Definition blocked (key : bytes) (now : Z) (r : rateLimiter) : bool * rateLimiter :=
  let '(ts, r) := recent key now r in (limit r <=? len ts, r).

Definition sweep (now : Z) (r : rateLimiter) : rateLimiter :=
  if match swept r with Some s => now - s <? window r | None => false end then r
  else
    let r := MkLimiter (limit r) (window r) (hits_of r) (Some now) (bucket r) in
    foldr (fun key r => snd (recent key now r)) r (fst <$> map_to_list (hits_of r)).

Definition hit (key : bytes) (now : Z) (r : rateLimiter) (db : DB) : rateLimiter * DB :=
  let '(ts, r) := recent key now r in
  let r := sweep now (set_hits (<[key := ts ++ [now]]> (hits_of r)) r) in
  (r, match bucket r with Some b => RecordHit b key now db | None => db end).

Definition reset (key : bytes) (r : rateLimiter) (db : DB) : rateLimiter * DB :=
  (set_hits (delete key (hits_of r)) r, match bucket r with Some b => ClearHits b key db | None => db end).

(** How many, and when the last was. *)
Definition stats (key : bytes) (now : Z) (r : rateLimiter) : (Z * option Z) * rateLimiter :=
  let '(ts, r) := recent key now r in ((len ts, last ts), r).

(** ** connlimit.go *)

Record connLimiter := MkConnLimiter { maxTotal : Z; maxPerIP : Z; total : Z; perIP : gmap bytes Z }.

Definition newConnLimiter (mt mi : Z) : connLimiter := MkConnLimiter mt mi 0 ∅.
Definition per_ip (c : connLimiter) (key : bytes) : Z := default 0 (perIP c !! key).

Definition conn_acquire (key : bytes) (c : connLimiter) : bool * connLimiter :=
  if (maxTotal c <=? total c) || (maxPerIP c <=? per_ip c key) then (false, c)
  else (true, MkConnLimiter (maxTotal c) (maxPerIP c) (total c + 1) (<[key := per_ip c key + 1]> (perIP c))).

Definition conn_release (key : bytes) (c : connLimiter) : connLimiter :=
  let n := per_ip c key - 1 in
  MkConnLimiter (maxTotal c) (maxPerIP c) (total c - 1) (if n <=? 0 then delete key (perIP c) else <[key := n]> (perIP c)).

(** ** backoff.go *)

Definition backoffWindow : Z := 900000000000.
Definition backoffFree : Z := 3.
Definition backoffBase : Z := 2000000000.
Definition backoffMax : Z := 60000000000.

Record loginBackoff := MkBackoff { fails : rateLimiter; busy : gset bytes }.

Definition newLoginBackoff (f : rateLimiter) : loginBackoff := MkBackoff f ∅.

Definition delayFor (n : Z) : Z :=
  if n <? backoffFree then 0 else Z.min (Z.shiftl backoffBase (Z.min (n - backoffFree) 10)) backoffMax.

(** The wait, or the reservation. *)
Definition begin_ (key : bytes) (now : Z) (b : loginBackoff) : (Z * bool) * loginBackoff :=
  if decide (key ∈ busy b) then ((backoffBase, false), b)
  else
    let '((n, last), f) := stats key now (fails b) in
    let wait := default 0 last + delayFor n - now in
    if (0 <? n) && (0 <? wait) then ((wait, false), MkBackoff f (busy b))
    else ((0, true), MkBackoff f ({[key]} ∪ busy b)).

Definition release_ (key : bytes) (b : loginBackoff) : loginBackoff := MkBackoff (fails b) (busy b ∖ {[key]}).

(** [end] gives the reservation back in one critical section and records the outcome in
    a second one, after it: [end_unlock], then [end_record]. *)
Definition end_unlock (key : bytes) (b : loginBackoff) : loginBackoff := MkBackoff (fails b) (busy b ∖ {[key]}).

Definition end_record (key : bytes) (ok : bool) (now : Z) (b : loginBackoff) (db : DB) : loginBackoff * DB :=
  let '(f, db) := if ok then reset key (fails b) db else hit key now (fails b) db in
  (MkBackoff f (busy b), db).

Definition end_ (key : bytes) (ok : bool) (now : Z) (b : loginBackoff) (db : DB) : loginBackoff * DB :=
  end_record key ok now (end_unlock key b) db.

(** * Theorems *)

(** ** The limiter counts the hits of its window *)

Inductive limiter_op := OpHit (key : bytes) | OpReset (key : bytes) | OpAsk (key : bytes).

(** One operation at a time, on the limiter and its store. *)
Definition limiter_step (s : rateLimiter * DB) (o : Z * limiter_op) : rateLimiter * DB :=
  let '(r, db) := s in
  match o with
  | (now, OpHit key) => hit key now r db
  | (now, OpReset key) => reset key r db
  | (now, OpAsk key) => (snd (blocked key now r), db)
  end.

(** What happened, by key: the hits since the last reset. *)
Definition log_step (log : list (bytes * Z)) (o : Z * limiter_op) : list (bytes * Z) :=
  match o with
  | (now, OpHit key) => log ++ [(key, now)]
  | (now, OpReset key) => delete_where (fun e => bool_decide (fst e = key)) log
  | (_, OpAsk _) => log
  end.

Definition log_of (key : bytes) (log : list (bytes * Z)) : list Z := snd <$> select_where (fun e => bool_decide (fst e = key)) log.

Definition db_of (b key : bytes) (db : DB) : list Z :=
  h_at <$> select_where (fun h => bool_decide (h_bucket h = b) && bool_decide (h_key h = key)) (hits db).

(** Times do not go back. *)
Fixpoint ordered (t : Z) (ops : list (Z * limiter_op)) : Prop :=
  match ops with [] => True | (now, _) :: ops => t <= now /\ ordered now ops end.

Definition limiter_inv (t : Z) (b : bytes) (r : rateLimiter) (db : DB) (log : list (bytes * Z)) : Prop :=
  forall key c, t - window r <= c ->
    kept c (default [] (hits_of r !! key)) = kept c (log_of key log)
    /\ kept c (db_of b key db) = kept c (log_of key log).

Lemma kept_kept c c' ts : c' <= c -> kept c (kept c' ts) = kept c ts.
Proof. intros Hc. unfold kept. rewrite list_filter_filter. apply list_filter_iff. intros t. lia. Qed.

Lemma kept_app c l1 l2 : kept c (l1 ++ l2) = kept c l1 ++ kept c l2.
Proof. apply filter_app. Qed.

Lemma recent_lookup key now r k c :
  now - window r <= c -> kept c (default [] (hits_of (snd (recent key now r)) !! k)) = kept c (default [] (hits_of r !! k)).
Proof.
  intros Hc. unfold recent. cbn [snd set_hits hits_of]. set (ts := kept (now - window r) _). destruct (decide (k = key)) as [->|Hk].
  - rewrite <-(kept_kept c (now - window r) (default [] (hits_of r !! key))) by done. fold ts. case_bool_decide as Et.
    + rewrite lookup_delete_eq. by rewrite Et.
    + by rewrite lookup_insert_eq.
  - case_bool_decide; [by rewrite lookup_delete_ne|by rewrite lookup_insert_ne].
Qed.

Lemma recent_fields key now r : limit (snd (recent key now r)) = limit r /\ window (snd (recent key now r)) = window r /\ bucket (snd (recent key now r)) = bucket r.
Proof. done. Qed.

Lemma sweep_spec now r :
  limit (sweep now r) = limit r /\ window (sweep now r) = window r /\ bucket (sweep now r) = bucket r
  /\ forall k c, now - window r <= c -> kept c (default [] (hits_of (sweep now r) !! k)) = kept c (default [] (hits_of r !! k)).
Proof.
  unfold sweep. match goal with |- context [if ?b then _ else _] => destruct b end; [done|]. cbn zeta. set (r0 := MkLimiter _ _ _ _ _).
  change (hits_of r) with (hits_of r0). change (limit r) with (limit r0). change (window r) with (window r0). change (bucket r) with (bucket r0).
  generalize (fst <$> map_to_list (hits_of r0)). intros keys. induction keys as [|key keys (H1 & H2 & H3 & H4)]; [done|]. cbn [foldr].
  set (r1 := foldr _ _ _) in *. destruct (recent_fields key now r1) as (-> & -> & ->). split_and!; [done..|].
  intros k c Hc. rewrite recent_lookup by (by rewrite H2). by apply H4.
Qed.

Lemma log_of_app key log k t : log_of key (log ++ [(k, t)]) = log_of key log ++ if bool_decide (k = key) then [t] else [].
Proof.
  unfold log_of. rewrite select_app, fmap_app. f_equal. unfold select_where. rewrite filter_cons, filter_nil. cbn.
  by destruct (bool_decide (k = key)).
Qed.

Lemma log_of_reset key log k : log_of key (delete_where (fun e => bool_decide (fst e = k)) log) = if bool_decide (k = key) then [] else log_of key log.
Proof.
  unfold log_of, delete_where, select_where. rewrite list_filter_filter. case_bool_decide as Hk.
  - subst k. induction log as [|e log IH]; [done|]. rewrite filter_cons_False; [exact IH|]. by destruct (bool_decide (fst e = key)); intros [? ?].
  - f_equal. apply list_filter_iff. intros e. split; [tauto|]. intros He. split; [done|]. apply bool_decide_eq_true_1 in He. apply bool_decide_eq_false_2. congruence.
Qed.

Lemma kept_fmap c (l : list HitRow) : kept c (h_at <$> l) = h_at <$> filter (fun h => c < h_at h) l.
Proof.
  unfold kept. induction l as [|h l IH]; [done|]. rewrite fmap_cons, !filter_cons. case_decide; [|exact IH]. rewrite fmap_cons. by f_equal.
Qed.

Lemma db_of_hit b key k now db :
  0 <= now -> forall c, now - throttleRetention <= c ->
  kept c (db_of b key (RecordHit b k now db)) = kept c (db_of b key db) ++ (if bool_decide (k = key) then kept c [now] else []).
Proof.
  intros Hn c Hc. unfold db_of, RecordHit. cbn [on_hits hits].
  assert (forall l : list HitRow, kept c (h_at <$> select_where (fun h => bool_decide (h_bucket h = b) && bool_decide (h_key h = key))
            (delete_where (fun h => h_at h <? now - throttleRetention) l))
          = kept c (h_at <$> select_where (fun h => bool_decide (h_bucket h = b) && bool_decide (h_key h = key)) l)) as Hdel.
  { intros l. rewrite !kept_fmap. f_equal. unfold delete_where, select_where. rewrite !list_filter_filter. apply list_filter_iff. intros h.
    split; [tauto|]. intros [Hh Hp]. split_and!; try done. apply Z.ltb_ge. unfold throttleRetention in *. lia. }
  rewrite Hdel, select_app, fmap_app, kept_app. f_equal. unfold select_where. rewrite filter_cons, filter_nil. cbn.
  rewrite bool_decide_eq_true_2 by done. cbn. by destruct (bool_decide (k = key)).
Qed.

Lemma db_of_clear b key k db : db_of b key (ClearHits b k db) = if bool_decide (k = key) then [] else db_of b key db.
Proof.
  unfold db_of, ClearHits, delete_where, select_where. cbn [on_hits hits]. rewrite list_filter_filter. case_bool_decide as Hk.
  - subst k. induction (hits db) as [|h l IH]; [done|]. rewrite filter_cons_False; [exact IH|].
    by destruct (bool_decide (h_bucket h = b)), (bool_decide (h_key h = key)); intros [? ?].
  - f_equal. apply list_filter_iff. intros h. split; [tauto|]. intros He. split; [done|].
    apply andb_prop in He as [_ He%bool_decide_eq_true_1]. rewrite (bool_decide_eq_false_2 (h_key h = k)) by congruence. apply andb_false_r.
Qed.

Lemma limiter_step_inv t b r db log o :
  bucket r = Some b -> 0 <= t <= fst o -> window r <= throttleRetention -> limiter_inv t b r db log ->
  let '(r', db') := limiter_step (r, db) o in
  limiter_inv (fst o) b r' db' (log_step log o) /\ bucket r' = Some b /\ window r' = window r /\ limit r' = limit r.
Proof.
  intros Hb Ht Hw Hinv. destruct o as [now [key|key|key]]; cbn [fst] in *; cbn [limiter_step log_step].
  - unfold hit. destruct (recent key now r) as [ts r1] eqn:Er. set (r2 := set_hits (<[key := ts ++ [now]]> (hits_of r1)) r1).
    destruct (sweep_spec now r2) as (S1 & S2 & S3 & S4).
    unfold recent in Er. injection Er as Ets Er1.
    assert (bucket r2 = Some b /\ window r2 = window r /\ limit r2 = limit r) as (Eb & Ew & El) by (by subst r2 r1).
    rewrite S3, Eb. split; [|rewrite S1, S2; done]. intros k c Hc. rewrite S2, Ew in Hc. rewrite S4 by (rewrite Ew; lia).
    destruct (Hinv k c ltac:(lia)) as [Hm Hd]. rewrite db_of_hit by (unfold throttleRetention in *; lia). rewrite log_of_app, kept_app, Hd.
    split; [|by destruct (bool_decide (key = k))]. unfold r2. cbn [set_hits hits_of]. destruct (decide (key = k)) as [Hk|Hk].
    + subst k. rewrite bool_decide_eq_true_2 by done. rewrite lookup_insert_eq. simpl (default _ _). rewrite kept_app. f_equal. rewrite <-Ets, kept_kept by lia. exact Hm.
    + rewrite bool_decide_eq_false_2 by done. rewrite lookup_insert_ne by done. change (kept c []) with (@nil Z). rewrite app_nil_r, <-Hm, <-Er1.
      pose proof (recent_lookup key now r k c ltac:(lia)) as Hr. exact Hr.
  - unfold reset. rewrite Hb. split; [|done]. intros k c Hc. cbn in Hc. destruct (Hinv k c ltac:(lia)) as [Hm Hd].
    rewrite log_of_reset, db_of_clear. cbn [set_hits hits_of]. case_bool_decide as Hk; [subst k; by rewrite lookup_delete_eq|].
    by rewrite lookup_delete_ne.
  - unfold blocked. destruct (recent key now r) as [ts r1] eqn:Er. cbn [snd]. pose proof (recent_fields key now r) as Hf. rewrite Er in Hf. cbn [snd] in Hf.
    destruct Hf as (-> & Ew & ->). split; [|done]. intros k c Hc. rewrite Ew in Hc. destruct (Hinv k c ltac:(lia)) as [Hm Hd]. split; [|done].
    rewrite <-Hm. pose proof (recent_lookup key now r k c ltac:(lia)) as Hr. by rewrite Er in Hr.
Qed.

Lemma collect_hits (key : bytes) (l : list HitRow) (m : gmap bytes (list Z)) :
  default [] (foldl (fun m h => <[h_key h := default [] (m !! h_key h) ++ [h_at h]]> m) m l !! key)
  = default [] (m !! key) ++ (h_at <$> select_where (fun h => bool_decide (h_key h = key)) l).
Proof.
  revert m. induction l as [|h l IH]; intros m; [by rewrite app_nil_r|]. cbn [foldl]. rewrite IH. unfold select_where.
  rewrite filter_cons. destruct (decide (h_key h = key)) as [<-|Hk].
  - rewrite lookup_insert_eq. rewrite decide_True by by apply bool_decide_eq_true_2. simpl (default _ (Some _)).
    by rewrite <-app_assoc.
  - rewrite lookup_insert_ne by done. rewrite decide_False; [done|]. by intros ?%bool_decide_eq_true_1.
Qed.

Lemma LoadHits_kept b key now win db :
  kept (now - win) (default [] (LoadHits b (now - win) db !! key)) ≡ₚ kept (now - win) (db_of b key db).
Proof.
  unfold LoadHits. rewrite collect_hits. cbn [app]. rewrite lookup_empty. simpl (default _ None). cbn [app].
  unfold db_of. rewrite !kept_fmap. apply fmap_Permutation. unfold select_where.
  rewrite merge_sort_Permutation. rewrite !list_filter_filter.
  rewrite (list_filter_iff _ (fun h => now - win < h_at h /\ bool_decide (h_bucket h = b) && bool_decide (h_key h = key) = true)); [done|].
  intros h. rewrite !andb_true_iff, Z.leb_le. split; [tauto|]. intros (? & ? & ?). split_and!; try done. lia.
Qed.

Lemma ordered_last t ops now : ordered t (ops ++ [(now, OpAsk [])]) -> t <= now.
Proof. revert t. induction ops as [|[t' o] ops IH]; intros t; cbn; [tauto|]. intros [? ?%IH]. lia. Qed.

Lemma limiter_run b r db log t ops now :
  bucket r = Some b -> 0 <= t -> window r <= throttleRetention -> ordered t (ops ++ [(now, OpAsk [])]) -> limiter_inv t b r db log ->
  let '(r', db') := foldl limiter_step (r, db) ops in
  limiter_inv now b r' db' (foldl log_step log ops) /\ bucket r' = Some b /\ window r' = window r /\ limit r' = limit r.
Proof.
  revert r db log t. induction ops as [|[t' o] ops IH]; intros r db log t Hb Ht Hw Ho Hinv.
  - cbn in *. split; [|done]. intros key c Hc. apply Hinv. lia.
  - cbn [app ordered foldl] in Ho |- *. destruct Ho as [Ht' Ho].
    pose proof (limiter_step_inv t b r db log (t', o) Hb ltac:(cbn; lia) Hw Hinv) as Hs.
    destruct (limiter_step (r, db) (t', o)) as [r1 db1]. destruct Hs as (Hinv1 & Hb1 & Hw1 & Hl1). cbn [fst] in Hinv1.
    specialize (IH r1 db1 (log_step log (t', o)) t' Hb1 ltac:(lia) ltac:(congruence) Ho Hinv1).
    destruct (foldl limiter_step (r1, db1) ops) as [r2 db2]. destruct IH as (? & ? & ? & ?). split_and!; [done|done|congruence..].
Qed.

(** C30: The rate limiter counts what it says, and a restart forgets nothing: after any hits, resets and questions in the order of
    time, a key is blocked exactly when its hits since the last reset, within the window, reach the limit; and a limiter
    loaded anew from the database at that moment gives the same answer for every key. *)
Theorem limiter_window (lim win : Z) (b : bytes) (t now : Z) (ops : list (Z * limiter_op)) (db : DB) (key : bytes) :
  0 <= t -> win <= throttleRetention -> (forall k, db_of b k db = []) -> ordered t (ops ++ [(now, OpAsk [])]) ->
  let '(r, db') := foldl limiter_step (MkLimiter lim win ∅ None (Some b), db) ops in
  let counted := len (kept (now - win) (log_of key (foldl log_step [] ops))) in
  fst (blocked key now r) = (lim <=? counted)
  /\ fst (blocked key now (newPersistentLimiter lim win b now db')) = (lim <=? counted).
Proof.
  intros Ht Hw Hdb Ho.
  assert (limiter_inv t b (MkLimiter lim win ∅ None (Some b)) db []) as H0.
  { intros k c Hc. cbn [hits_of]. rewrite lookup_empty, Hdb. done. }
  pose proof (limiter_run b (MkLimiter lim win ∅ None (Some b)) db [] t ops now eq_refl Ht Hw Ho H0) as Hr.
  destruct (foldl limiter_step _ ops) as [r db']. destruct Hr as (Hinv & Hb & Hwin & Hlim). cbn in Hwin, Hlim.
  destruct (Hinv key (now - win) ltac:(rewrite Hwin; lia)) as [Hm Hd].
  unfold blocked, recent. cbn [fst limit window newPersistentLimiter set_hits hits_of]. rewrite Hlim, Hwin, Hm. split; [done|].
  unfold len. rewrite LoadHits_kept. by rewrite Hd.
Qed.

Lemma limiter_window_witness :
  let ops := [(10, OpHit (str "1.2.3.4")); (20, OpHit (str "1.2.3.4")); (30, OpAsk (str "1.2.3.4"))] in
  fst (blocked (str "1.2.3.4") 40 (fst (foldl limiter_step (MkLimiter 2 100 ∅ None (Some (str "login")), fresh_db) ops))) = true.
Proof.
  cbn zeta.
  pose proof (limiter_window 2 100 (str "login") 5 40 [(10, OpHit (str "1.2.3.4")); (20, OpHit (str "1.2.3.4")); (30, OpAsk (str "1.2.3.4"))] fresh_db
    (str "1.2.3.4") ltac:(lia) ltac:(by vm_compute) ltac:(done) ltac:(cbn; lia)) as Hw.
  destruct (foldl limiter_step _ _) as [r db']. destruct Hw as [Hw _]. cbn [fst]. rewrite Hw. vm_compute. reflexivity.
Defined.

(** ** The login backoff *)

Lemma delayFor_bounds n : 0 <= delayFor n <= backoffMax.
Proof.
  unfold delayFor, backoffFree, backoffMax. destruct (Z.ltb_spec n 3); [lia|].
  assert (0 <= Z.shiftl backoffBase (Z.min (n - 3) 10)) by (apply Z.shiftl_nonneg; unfold backoffBase; lia). lia.
Qed.

Lemma delayFor_step n : backoffFree <= n -> delayFor (n + 1) = Z.min (2 * delayFor n) backoffMax.
Proof.
  intros Hn. unfold backoffFree in Hn. destruct (Z.le_gt_cases 13 n) as [Hb|Hs].
  - unfold delayFor, backoffFree. destruct (Z.ltb_spec (n + 1) 3); [lia|]. destruct (Z.ltb_spec n 3); [lia|].
    rewrite (Z.min_r (n + 1 - 3)), (Z.min_r (n - 3)) by lia. reflexivity.
  - assert (n = 3 \/ n = 4 \/ n = 5 \/ n = 6 \/ n = 7 \/ n = 8 \/ n = 9 \/ n = 10 \/ n = 11 \/ n = 12) as Hc by lia.
    repeat destruct Hc as [->|Hc]; try reflexivity. by subst.
Qed.

(** Attempts on one backoff, the holders of reservations beside it: any number of
    connections run [begin], then [release] or the two halves of [end]. *)
Inductive backoff_step : Z -> loginBackoff * DB * list bytes -> loginBackoff * DB * list bytes -> Prop :=
| bs_begin now key b db held :
    backoff_step now (b, db, held)
      (snd (begin_ key now b), db, if snd (fst (begin_ key now b)) then key :: held else held)
| bs_release now key b db held1 held2 :
    backoff_step now (b, db, held1 ++ key :: held2) (release_ key b, db, held1 ++ held2)
| bs_unlock now key b db held1 held2 :
    backoff_step now (b, db, held1 ++ key :: held2) (end_unlock key b, db, held1 ++ held2)
| bs_record now key ok b db held :
    backoff_step now (b, db, held) (end_record key ok now b db, held).

(** Runs from [t], times not going back. *)
Inductive backoff_run (s0 : loginBackoff * DB * list bytes) (t : Z) : Z -> loginBackoff * DB * list bytes -> Prop :=
| br_start : backoff_run s0 t t s0
| br_step t1 now s1 s2 : backoff_run s0 t t1 s1 -> t1 <= now -> backoff_step now s1 s2 -> backoff_run s0 t now s2.

(** No hit of the limiter is in the future. *)
Definition hits_past (now : Z) (r : rateLimiter) : Prop :=
  forall key t, t ∈ default [] (hits_of r !! key) -> t <= now.

Definition backoff_inv (now : Z) (s : loginBackoff * DB * list bytes) : Prop :=
  let '(b, _, held) := s in
  NoDup held /\ (forall key, key ∈ held <-> key ∈ busy b) /\ hits_past now (fails b).

Lemma recent_past key now t r : hits_past t r -> hits_past t (snd (recent key now r)) /\ forall x, x ∈ fst (recent key now r) -> x <= t.
Proof.
  intros Hp. unfold recent. cbn [fst snd set_hits hits_of].
  assert (forall x, x ∈ kept (now - window r) (default [] (hits_of r !! key)) -> x <= t) as Hk.
  { intros x. unfold kept. rewrite list_elem_of_filter. intros [_ Hx]. by eapply Hp. }
  split; [|exact Hk]. intros k x. destruct (decide (k = key)) as [->|Hne]; case_bool_decide; cbn [set_hits hits_of].
  - rewrite lookup_delete_eq. intros Hx. cbn in Hx. by apply not_elem_of_nil in Hx.
  - rewrite lookup_insert_eq. apply Hk.
  - rewrite lookup_delete_ne by done. apply Hp.
  - rewrite lookup_insert_ne by done. apply Hp.
Qed.

Lemma sweep_past now t r : hits_past t r -> hits_past t (sweep now r).
Proof.
  intros Hp. unfold sweep. match goal with |- context [if ?b then _ else _] => destruct b end; [done|]. cbn zeta.
  set (r0 := MkLimiter _ _ _ _ _). assert (hits_past t r0) as H0 by exact Hp. generalize (fst <$> map_to_list (hits_of r0)).
  intros keys. induction keys as [|key keys IH]; [done|]. cbn [foldr]. by apply recent_past.
Qed.

Lemma end_record_past key ok now b db : hits_past now (fails b) -> hits_past now (fails (fst (end_record key ok now b db))).
Proof.
  intros Hp. unfold end_record. destruct ok.
  - unfold reset. cbn [fst fails]. intros k x. cbn [set_hits hits_of]. destruct (decide (k = key)) as [->|Hne].
    + rewrite lookup_delete_eq. intros Hx. by apply not_elem_of_nil in Hx.
    + rewrite lookup_delete_ne by done. apply Hp.
  - unfold hit. destruct (recent key now (fails b)) as [ts r] eqn:Er. cbn [fst fails]. apply sweep_past.
    destruct (recent_past key now now _ Hp) as [Hr Hts]. rewrite Er in Hr, Hts. cbn [fst snd] in Hr, Hts.
    intros k x. cbn [set_hits hits_of]. destruct (decide (k = key)) as [->|Hne].
    + rewrite lookup_insert_eq. simpl (default _ _). intros [Hx| ->%list_elem_of_singleton]%elem_of_app; [by apply Hts|lia].
    + rewrite lookup_insert_ne by done. apply Hr.
Qed.

Lemma begin_fields key now b :
  busy (snd (begin_ key now b)) = (if snd (fst (begin_ key now b)) then {[key]} ∪ busy b else busy b)
  /\ (snd (fst (begin_ key now b)) = true -> key ∉ busy b)
  /\ (fails (snd (begin_ key now b)) = fails b \/ fails (snd (begin_ key now b)) = snd (recent key now (fails b))).
Proof.
  unfold begin_. case_decide as Hk; [by split_and!; [done..|left]|]. unfold stats. destruct (recent key now (fails b)) as [ts r].
  destruct (_ && _); cbn; by split_and!; [..|right].
Qed.

Lemma held_give_up key b held1 held2 :
  NoDup (held1 ++ key :: held2) -> (forall k, k ∈ held1 ++ key :: held2 <-> k ∈ busy b) ->
  NoDup (held1 ++ held2) /\ forall k, k ∈ held1 ++ held2 <-> k ∈ busy b ∖ {[key]}.
Proof.
  rewrite <-Permutation_middle. intros Hnd Hb. apply NoDup_cons in Hnd as [Hni Hnd]. split; [done|].
  intros k. rewrite elem_of_difference, elem_of_singleton, <-Hb, !elem_of_app, elem_of_cons. rewrite elem_of_app in Hni.
  split; [intros Hk; split; [tauto|]; by intros ->|tauto].
Qed.

Lemma backoff_step_inv now s1 s2 : backoff_step now s1 s2 -> backoff_inv now s1 -> backoff_inv now s2.
Proof.
  intros Hs. destruct Hs as [now key b db held|now key b db held1 held2|now key b db held1 held2|now key ok b db held]; intros (Hnd & Hb & Hp).
  - destruct (begin_fields key now b) as (Hbusy & Hfree & Hf). unfold backoff_inv. rewrite Hbusy.
    assert (hits_past now (fails (snd (begin_ key now b)))) as Hp' by (destruct Hf as [-> | ->]; [done|by apply recent_past]).
    destruct (snd (fst (begin_ key now b))) eqn:Eg; [|done]. specialize (Hfree eq_refl). split_and!; [|intros k; set_solver|done].
    constructor; [by rewrite Hb|done].
  - destruct (held_give_up key b held1 held2 Hnd Hb) as [? ?]. done.
  - destruct (held_give_up key b held1 held2 Hnd Hb) as [? ?]. done.
  - unfold backoff_inv. pose proof (end_record_past key ok now b db Hp) as Hr. unfold end_record in *.
    destruct ok; [destruct (reset key (fails b) db)|destruct (hit key now (fails b) db)]; done.
Qed.

Lemma hits_past_later t now r : t <= now -> hits_past t r -> hits_past now r.
Proof. intros Ht Hp k x Hx%Hp. lia. Qed.

Lemma backoff_run_inv f db t now s :
  hits_past t f -> backoff_run (newLoginBackoff f, db, []) t now s -> backoff_inv now s.
Proof.
  intros Hp. induction 1 as [|t1 now s1 s2 _ IH Ht Hs].
  - split_and!; [constructor|intros k; set_solver|done].
  - apply (backoff_step_inv now s1 s2 Hs). destruct s1 as [[b1 db1] held1]. destruct IH as (? & ? & ?). split_and!; [done..|by eapply hits_past_later].
Qed.

(** The login backoff bounds guessing without locking the owner out.  In every reachable state, however many connections
    try at once: a handle has at most one password check between [begin] and the release of its reservation; a try that
    is turned away is told a wait that is positive and never above a minute; a handle that is not being checked is
    turned away only if it has failed before; and once the last failure is the delay old, the next try goes through. *)
Theorem login_backoff (f : rateLimiter) (db0 db : DB) (t t1 now : Z) (b : loginBackoff) (held : list bytes) (key : bytes) :
  hits_past t f -> backoff_run (newLoginBackoff f, db0, []) t t1 (b, db, held) -> t1 <= now ->
  let '((wait, granted), b') := begin_ key now b in
  NoDup held
  /\ (key ∈ held -> granted = false)
  /\ (granted = false -> 0 < wait <= backoffMax)
  /\ (key ∉ held -> granted = true <->
        match last (fst (recent key now (fails b))) with
        | None => True
        | Some l => l + delayFor (len (fst (recent key now (fails b)))) <= now
        end).
Proof.
  intros Hp Hrun Hnow. destruct (backoff_run_inv f db0 t t1 _ Hp Hrun) as (Hnd & Hb & Hf).
  apply (hits_past_later t1 now) in Hf; [|done]. destruct (recent_past key now now _ Hf) as [_ Hts].
  unfold begin_. case_decide as Hk; [split_and!; [done..|by unfold backoffBase, backoffMax|intros Hn; by rewrite Hb in Hn]|].
  unfold stats. destruct (recent key now (fails b)) as [ts r]. cbn [fst] in Hts |- *.
  destruct (last ts) as [l|] eqn:El.
  - assert (0 < len ts) as Hlen by (destruct ts; [done|unfold len; cbn; lia]).
    assert (l <= now) as Hl by (apply Hts; by apply last_Some_elem_of).
    pose proof (delayFor_bounds (len ts)) as Hd. simpl (default _ _). destruct (Z.ltb_spec 0 (len ts)); [|lia]. cbn [andb].
    destruct (Z.ltb_spec 0 (l + delayFor (len ts) - now)); cbn; split_and!; try done; try lia; intros Hn; try lia; by rewrite Hb in Hn.
  - apply last_None in El as ->. cbn. split_and!; try done. by rewrite Hb.
Qed.

Lemma login_backoff_witness :
  let key := str "operator" in
  let b0 := newLoginBackoff (newRateLimiter 1000 backoffWindow) in
  let tries := fold_left (fun b now => fst (end_ key false now b fresh_db)) [1; 2; 3] b0 in
  let '((wait, granted), _) := begin_ key 10 tries in granted = false /\ wait = backoffBase - 7.
Proof.
  cbn zeta. set (key := str "operator"). set (b0 := newLoginBackoff (newRateLimiter 1000 backoffWindow)).
  assert (hits_past 0 (fails b0)) as Hp by (intros k x; vm_compute; intros Hx; by apply not_elem_of_nil in Hx).
  set (b1 := fst (end_record key false 1 b0 fresh_db)).
  assert (backoff_run (newLoginBackoff (newRateLimiter 1000 backoffWindow), fresh_db, []) 0 1 (b1, snd (end_record key false 1 b0 fresh_db), [])) as Hr.
  { eapply br_step; [apply br_start|lia|]. unfold b1. rewrite <-(surjective_pairing (end_record key false 1 b0 fresh_db)) at 1.
    pose proof (bs_record 1 key false b0 fresh_db []) as Hs. by destruct (end_record key false 1 b0 fresh_db). }
  pose proof (login_backoff _ _ _ 0 1 2 b1 [] key Hp Hr ltac:(lia)) as Hl.
  destruct (begin_ key 2 b1) as [[w g] b']. destruct Hl as (_ & _ & _ & _). vm_compute. done.
Defined.

(** The gap between the two halves of [end]: the reservation is free before the failure is
    counted, so that a second try begins with the old count, where the same two tries one
    after the other make the second wait. *)
Example backoff_gap :
  let key := str "operator" in
  let b3 := fold_left (fun b now => fst (end_ key false now b fresh_db)) [1; 2] (newLoginBackoff (newRateLimiter 1000 backoffWindow)) in
  let checking := snd (begin_ key 3 b3) in
  fst (begin_ key 4 (end_unlock key checking)) = (0, true)
  /\ snd (fst (begin_ key 4 (fst (end_ key false 4 checking fresh_db)))) = false.
Proof. vm_compute. done. Qed.

(** ** The connection limiter *)

Definition count_key (key : bytes) (open : list bytes) : Z := len (select_where (fun k => bool_decide (k = key)) open).

(** The limiter and the keys of the connections it let in: a refused caller is not let in,
    and each connection gives its slot back once. *)
Inductive conn_reach (mt mi : Z) : connLimiter -> list bytes -> Prop :=
| cr_new : conn_reach mt mi (newConnLimiter mt mi) []
| cr_acquire key c open : conn_reach mt mi c open ->
    conn_reach mt mi (snd (conn_acquire key c)) (if fst (conn_acquire key c) then key :: open else open)
| cr_release key c open1 open2 : conn_reach mt mi c (open1 ++ key :: open2) ->
    conn_reach mt mi (conn_release key c) (open1 ++ open2).

Definition conn_inv (mt mi : Z) (c : connLimiter) (open : list bytes) : Prop :=
  maxTotal c = mt /\ maxPerIP c = mi /\ total c = len open
  /\ (forall key, perIP c !! key = if count_key key open =? 0 then None else Some (count_key key open))
  /\ total c <= Z.max 0 mt /\ forall key, count_key key open <= Z.max 0 mi.

Lemma count_key_cons key k open : count_key key (k :: open) = count_key key open + if bool_decide (k = key) then 1 else 0.
Proof.
  unfold count_key, select_where, len. rewrite filter_cons.
  destruct (bool_decide (k = key)); [rewrite decide_True by done|rewrite decide_False by done]; cbn [length]; lia.
Qed.

Lemma count_key_nonneg key open : 0 <= count_key key open.
Proof. unfold count_key, len. lia. Qed.

Lemma count_key_middle key k open1 open2 :
  count_key key (open1 ++ k :: open2) = count_key key (open1 ++ open2) + if bool_decide (k = key) then 1 else 0.
Proof.
  rewrite <-count_key_cons. unfold count_key, select_where, len. by rewrite <-Permutation_middle.
Qed.

Lemma conn_inv_per_ip mt mi c open key : conn_inv mt mi c open -> per_ip c key = count_key key open.
Proof.
  intros (_ & _ & _ & Hp & _). unfold per_ip. rewrite Hp. destruct (Z.eqb_spec (count_key key open) 0) as [->|]; done.
Qed.

Lemma conn_reach_inv mt mi c open : conn_reach mt mi c open -> conn_inv mt mi c open.
Proof.
  induction 1 as [|key c open _ IH|key c open1 open2 _ IH].
  - unfold conn_inv, newConnLimiter, count_key. cbn. split_and!; try done; intros; unfold len; cbn; lia.
  - pose proof (conn_inv_per_ip _ _ _ _ key IH) as Hk. destruct IH as (Hmt & Hmi & Ht & Hp & Hct & Hci).
    unfold conn_acquire. rewrite Hk, Hmt, Hmi. destruct (Z.leb_spec mt (total c)), (Z.leb_spec mi (count_key key open)); cbn; try done.
    unfold conn_inv. cbn. split_and!; try done; try lia; [unfold len in *; cbn; lia|..].
    + intros k. rewrite count_key_cons. pose proof (count_key_nonneg k open). case_bool_decide as Ek.
      * subst k. rewrite lookup_insert_eq. destruct (Z.eqb_spec (count_key key open + 1) 0); [lia|done].
      * rewrite lookup_insert_ne, Z.add_0_r by done. apply Hp.
    + intros k. rewrite count_key_cons. specialize (Hci k). case_bool_decide as Ek; [subst k|]; lia.
  - pose proof (conn_inv_per_ip _ _ _ _ key IH) as Hk. destruct IH as (Hmt & Hmi & Ht & Hp & Hct & Hci).
    unfold conn_release. rewrite Hk, count_key_middle, bool_decide_eq_true_2 by done. unfold conn_inv. cbn.
    split_and!; try done; try lia; [unfold len in *; rewrite length_app in *; cbn in *; lia|..].
    + intros k. pose proof (count_key_nonneg key (open1 ++ open2)) as Hn. specialize (Hp k). rewrite count_key_middle in Hp. case_bool_decide as Ek.
      * subst k. destruct (Z.leb_spec (count_key key (open1 ++ open2) + 1 - 1) 0).
        -- rewrite lookup_delete_eq. destruct (Z.eqb_spec (count_key key (open1 ++ open2)) 0); [done|lia].
        -- rewrite lookup_insert_eq. destruct (Z.eqb_spec (count_key key (open1 ++ open2)) 0); [lia|]. f_equal. lia.
      * rewrite Z.add_0_r in Hp. destruct (_ <=? _); [rewrite lookup_delete_ne by done|rewrite lookup_insert_ne by done]; done.
    + intros k. specialize (Hci k). rewrite count_key_middle in Hci. destruct (bool_decide _); lia.
Qed.

(** The connection limiter counts the connections that are open: after any history of callers let in and gone, the total
    and each address's count are those of the open connections, neither cap is ever passed, no address without a connection
    keeps an entry, and a caller is let in exactly when both caps leave room. *)
Theorem connection_caps (mt mi : Z) (c : connLimiter) (open : list bytes) (key : bytes) :
  conn_reach mt mi c open ->
  total c = len open /\ per_ip c key = count_key key open
  /\ len open <= Z.max 0 mt /\ count_key key open <= Z.max 0 mi
  /\ (perIP c !! key = None <-> count_key key open = 0)
  /\ (fst (conn_acquire key c) = true <-> len open < mt /\ count_key key open < mi).
Proof.
  intros Hr. pose proof (conn_reach_inv _ _ _ _ Hr) as Hi. pose proof (conn_inv_per_ip _ _ _ _ key Hi) as Hk.
  destruct Hi as (Hmt & Hmi & Ht & Hp & Hct & Hci). split_and!; try done; [lia|..].
  - rewrite Hp. destruct (Z.eqb_spec (count_key key open) 0); [done|]. split; [done|lia].
  - unfold conn_acquire. rewrite Hk, Hmt, Hmi, Ht. destruct (Z.leb_spec mt (len open)), (Z.leb_spec mi (count_key key open)); cbn; split; try done; lia.
Qed.

Lemma connection_caps_witness :
  let c := snd (conn_acquire (str "10.0.0.1") (newConnLimiter 2 1)) in
  total c = 1 /\ fst (conn_acquire (str "10.0.0.1") c) = false.
Proof.
  cbn zeta. pose proof (connection_caps 2 1 _ _ (str "10.0.0.1") (cr_acquire 2 1 (str "10.0.0.1") _ _ (cr_new 2 1))) as (Ht & _ & _ & _ & _ & Ha).
  split; [rewrite Ht; vm_compute; done|]. destruct (fst _); [|done]. destruct Ha as [[_ Ha] _]; [done|]. vm_compute in Ha. done.
Defined.
