(* ===== verification/Ui.v ===== *)
(** * The screen toolkit: [internal/bbs/ui.go], and the palette and text helpers of [screens.go]

    Frames, panels, key bars and menus as pipe-coded text.  The screen width is an argument ([session.width], at
    most 79 and at least 19), and so are the time shown in a header and whether the terminal has colour.
    The theorem: every row of a panel shows exactly the panel's width. *)

From Stdlib Require Import Ascii String ZArith Lia.
From stdpp Require Import base tactics list gmap strings.
From S2P Require Import Prelude GoStrings Term.
Open Scope Z_scope.

(** ** screens.go: the palette *)

Definition colFrame : bytes := str "|06".
Definition colBorder : bytes := str "|08".
Definition colKey : bytes := str "|14".
Definition colTitle : bytes := str "|14".
Definition colLabel : bytes := str "|07".
Definition colDim : bytes := str "|08".
Definition colAlert : bytes := str "|12".
Definition colOK : bytes := str "|10".
Definition colInfo : bytes := str "|03".
Definition colValue : bytes := str "|11".
Definition colHandle : bytes := str "|14".
Definition colBright : bytes := str "|15".
Definition colSysop : bytes := str "|13".

Definition nl : bytes := [10].

(** [plural], [pluralVerb], [prefixed] and [keysOf]. *)
Definition plural (n : Z) (word : bytes) : bytes :=
  itoa n ++ str " " ++ word ++ (if n =? 1 then [] else str "s").

Definition pluralVerb (n : Z) (word : bytes) : bytes :=
  (if n =? 1 then str "is " else str "are ") ++ plural n word.

(** ** ui.go *)

Definition dTL : bytes := str "╔".
Definition dTR : bytes := str "╗".
Definition dBL : bytes := str "╚".
Definition dBR : bytes := str "╝".
Definition dH : bytes := str "═".
Definition dV : bytes := str "║".
Definition sTL : bytes := str "┌".
Definition sTR : bytes := str "┐".
Definition sBL : bytes := str "└".
Definition sBR : bytes := str "┘".
Definition sH : bytes := str "─".
Definition sV : bytes := str "│".
Definition sLT : bytes := str "├".
Definition sRT : bytes := str "┤".

Definition separator : bytes := 0 :: str "sep".

Definition menuLabelWidth : Z := 16.
Definition panelGap : Z := 1.
Definition panelPad : Z := 4.
Definition headerRows : Z := 3.

(** [strings.Repeat] for a count that is never negative where it is used: screen widths are at
    least 19 ([width_bounds]).  The one use that can fail is [welcome_pad]. *)
Definition Repeat (s : bytes) (n : Z) : bytes := concat (replicate (Z.to_nat n) s).
Definition spaces (n : Z) : bytes := replicate (Z.to_nat n) 32.

(** [session.width] for a window of [w] columns; [session.inner]. *)
Definition maxScreenWidth : Z := 80.
Definition session_width (w : Z) : Z := Z.min w maxScreenWidth - 1.
Definition inner (width : Z) : Z := width - panelPad.

(** [center] of login.go. *)
Definition center (text : bytes) (width : Z) : bytes := spaces (Z.max (Z.quot (width - VisibleLen text) 2) 0) ++ text.

Record menuItem := MkItem { mi_key : Z; mi_label : bytes; mi_note : bytes }.

(** [header], for the board [name], the caller's [handle] (empty before login) and the time [hm]. *)
Definition header (w : Z) (name handle title hm : bytes) : bytes :=
  let lft := str " " ++ colFrame ++ str "■ " ++ colTitle ++ safe name ++ str "  " ++ colBorder ++ str "│ " ++ colBright ++ safe title in
  let rgt := colLabel ++ hm ++ str " " in
  let rgt := if bool_decide (handle = []) then rgt else colInfo ++ safe handle ++ colBorder ++ str " · " ++ rgt in
  let gap := w - 2 - VisibleLen lft - VisibleLen rgt in
  let '(lft, gap) :=
    if gap <? 1 then
      let lft := TruncateVisible lft (Z.max (w - 3 - VisibleLen rgt) 0) in
      (lft, w - 2 - VisibleLen lft - VisibleLen rgt)
    else (lft, gap) in
  str "|CL|RE"
  ++ colFrame ++ dTL ++ Repeat dH (w - 2) ++ dTR ++ nl
  ++ colFrame ++ dV ++ lft ++ spaces (Z.max gap 0) ++ rgt ++ colFrame ++ dV ++ nl
  ++ colFrame ++ dBL ++ Repeat dH (w - 2) ++ dBR ++ colLabel ++ nl.

Definition rule (w : Z) : bytes := colBorder ++ Repeat sH w ++ colLabel.

Definition boxTop (title : bytes) (width : Z) : bytes :=
  if bool_decide (title = []) then colBorder ++ sTL ++ Repeat sH (width - 2) ++ sTR
  else
    let head := colBorder ++ sTL ++ sH ++ str " " ++ colTitle ++ safe title ++ str " " in
    let fill := width - 1 - VisibleLen head in
    head ++ colBorder ++ Repeat sH (Z.max fill 0) ++ sTR.

Definition boxRow (line : bytes) (width : Z) : bytes :=
  if bool_decide (line = separator) then colBorder ++ sLT ++ Repeat sH (width - 2) ++ sRT
  else colBorder ++ sV ++ str " " ++ colLabel ++ fit line (inner width) ++ str "|16" ++ colBorder ++ str " " ++ sV.

Definition boxBottom (width : Z) : bytes := colBorder ++ sBL ++ Repeat sH (width - 2) ++ sBR ++ colLabel.

Definition boxLines (title : bytes) (width : Z) (body : list bytes) : list bytes :=
  boxTop title width :: ((fun ln => boxRow ln width) <$> body) ++ [boxBottom width].

(** What [box] prints. *)
Definition box (w : Z) (title : bytes) (body : list bytes) : bytes := boxLines title w body ≫= fun ln => ln ++ nl.

(** The rows [table] prints at once and those it pages. *)
Definition table_top (w : Z) (title heading : bytes) : bytes :=
  boxTop title w ++ nl ++ (if bool_decide (heading = []) then [] else boxRow (colDim ++ heading) w ++ nl ++ boxRow separator w ++ nl).
Definition table_empty (w : Z) (title empty : bytes) : bytes :=
  boxTop title w ++ nl ++ boxRow [] w ++ nl ++ boxRow (str "  " ++ colDim ++ empty) w ++ nl ++ boxRow [] w ++ nl ++ boxBottom w ++ nl.
Definition table_rows (w : Z) (rows : list bytes) : list bytes := ((fun r => boxRow r w) <$> rows) ++ [boxBottom w].

Section ui.
Context `{UnicodeTables}.

Definition keycap (color : bool) (k : Z) : bytes :=
  if color then str "|22|15 " ++ encode_rune k ++ str " |16" else str "[" ++ encode_rune k ++ str "]".

Definition menuLine (color : bool) (m : menuItem) : bytes :=
  if mi_key m =? 0 then []
  else keycap color (mi_key m) ++ str " " ++ colLabel ++ Pad (mi_label m) menuLabelWidth ++ str " " ++ mi_note m.

Definition menu (color : bool) (w : Z) (title : bytes) (items : list menuItem) : bytes := box w title (menuLine color <$> items).

(** The column of [menuColumns] padded to [rows] lines. *)
Definition menu_column (color : bool) (rows : nat) (items : list menuItem) : list bytes :=
  (menuLine color <$> items) ++ replicate (rows - length items) [].

Definition menuColumns (color : bool) (w : Z) (leftTitle : bytes) (lft : list menuItem) (rightTitle : bytes)
    (rgt : list menuItem) : bytes :=
  let lw := Z.quot (w - panelGap) 2 in
  let rw := w - panelGap - lw in
  let rows := Nat.max (length lft) (length rgt) in
  let a := boxLines leftTitle lw (menu_column color rows lft) in
  let b := boxLines rightTitle rw (menu_column color rows rgt) in
  zip_with (fun x y => x ++ spaces panelGap ++ y ++ nl) a b ≫= id.

(** The upper-case first letter of a word, as [strings.ToUpper(w[:1])]. *)
Definition first_key (w : bytes) : bytes := to_upper (slice_to w 1).
Definition keysOf (words : list bytes) : bytes := words ≫= first_key.

(** The loop of [actions] after the first word: [col] columns are used. *)
Fixpoint actions_go (color : bool) (limit col : Z) (words : list bytes) : bytes :=
  match words with
  | [] => []
  | w :: words =>
      let part := keycap color (default 0 (head (first_key w))) ++ str " " ++ colLabel ++ w in
      let width := VisibleLen part in
      if limit <? col + 2 + width then nl ++ str " " ++ part ++ actions_go color limit (1 + width) words
      else str "  " ++ part ++ actions_go color limit (col + 2 + width) words
  end.

Definition actions (color : bool) (w : Z) (words : list bytes) : bytes :=
  str " " ++
  match words with
  | [] => []
  | word :: words =>
      let part := keycap color (default 0 (head (first_key word))) ++ str " " ++ colLabel ++ word in
      part ++ actions_go color (w - 4) (1 + VisibleLen part) words
  end.

Definition keyBar (color : bool) (items : list menuItem) : bytes :=
  str " " ++ join ((fun m => keycap color (mi_key m) ++ str " " ++ colLabel ++ mi_label m
                             ++ (if bool_decide (mi_note m = []) then [] else str " " ++ mi_note m)) <$> items) (str "   ").

Definition pauseText : bytes :=
  str " " ++ colBorder ++ sH ++ sH ++ str " " ++ colLabel ++ str "press any key" ++ colBorder ++ str " " ++ sH ++ sH.

Definition note (color_ text : bytes) : bytes := nl ++ str " " ++ color_ ++ text ++ nl.

(** [prefixed] of compose.go: "Re: " or "Fwd: " once. *)
Definition prefixed (prefix subject : bytes) (max_len : Z) : bytes :=
  if has_prefix (to_lower subject) (to_lower prefix) then subject else Truncate (prefix ++ subject) max_len.
End ui.

(** * Theorems *)

(** ** Columns shown *)

(** [Text s k]: whole characters, doubled pipes and colour codes only, showing [k] columns.  Unlike any text that
    [Vis] accepts, it does not change meaning next to another. *)
Inductive Text : bytes -> Z -> Prop :=
  | Text_nil : Text [] 0
  | Text_rune r s k : r <> pipe -> valid_rune r = true -> Text s k -> Text (encode_rune r ++ s) (1 + k)
  | Text_pipe s k : Text s k -> Text (pipe :: pipe :: s) (1 + k)
  | Text_code c0 c1 s k : isCode c0 c1 = true -> [c0; c1] <> str "CL" -> Text s k -> Text (pipe :: c0 :: c1 :: s) k.

Lemma Text_Vis s k : Text s k -> Vis s k.
Proof. induction 1; by constructor. Qed.

Lemma Text_len s k : Text s k -> VisibleLen s = k.
Proof. intros Hs%Text_Vis. pose proof (VisibleLen_vis _ _ 0 Hs) as E. cbn [replicate] in E. rewrite app_nil_r in E. lia. Qed.

Lemma Text_eq s k k' : Text s k -> k = k' -> Text s k'.
Proof. by intros ? <-. Qed.

Lemma Text_app s t k m : Text s k -> Text t m -> Text (s ++ t) (k + m).
Proof.
  intros Hs Ht. induction Hs as [|r s k Hr Hv _ IH|s k _ IH|c0 c1 s k Hc Hcl _ IH]; [done|..].
  - rewrite <-app_assoc, <-Z.add_assoc. by apply Text_rune.
  - rewrite <-Z.add_assoc. by apply Text_pipe.
  - by apply Text_code.
Qed.

Lemma Text_utf8 rs : Forall (fun r => valid_rune r = true /\ r <> pipe) rs -> Text (utf8 rs) (len rs).
Proof.
  induction 1 as [|r rs [Hv Hp] _ IH]; [constructor|]. rewrite utf8_cons. eapply Text_eq; [by apply Text_rune|]. by rewrite len_cons.
Qed.

(** A literal of the source: its columns are computed. *)
Definition is_text (s : bytes) : bool :=
  bool_decide (utf8 (runes s) = s) && forallb (fun r => valid_rune r && negb (r =? pipe)) (runes s).

Lemma Text_literal s : is_text s = true -> Text s (rune_count s).
Proof.
  intros [Hu%bool_decide_eq_true_1 Hr]%andb_prop. rewrite <-Hu at 1. apply Text_utf8. apply Forall_forall. intros r Hin.
  rewrite forallb_forall in Hr. specialize (Hr r). rewrite <-list_elem_of_In in Hr. apply Hr in Hin.
  apply andb_prop in Hin as [? Hp%negb_true_iff%Z.eqb_neq]. done.
Qed.

Lemma Text_colour a b s k : isCode a b = true -> [a; b] <> str "CL" -> Text s k -> Text ([pipe; a; b] ++ s) k.
Proof. by constructor. Qed.

Lemma Text_Repeat s n : is_text s = true -> Text (Repeat s n) (Z.max n 0 * rune_count s).
Proof.
  intros Hs%Text_literal. unfold Repeat. replace (Z.max n 0) with (Z.of_nat (Z.to_nat n)) by lia.
  induction (Z.to_nat n) as [|m IH]; [constructor|]. cbn [replicate concat]. eapply Text_eq; [by apply Text_app|]. lia.
Qed.

Lemma Text_spaces n : Text (spaces n) (Z.max n 0).
Proof.
  unfold spaces. replace (Z.max n 0) with (len (replicate (Z.to_nat n) 32)) by (unfold len; rewrite length_replicate; lia).
  rewrite <-(utf8_ascii (replicate (Z.to_nat n) 32)) at 1 by (apply Forall_replicate; lia).
  apply Text_utf8. by apply Forall_replicate.
Qed.

Lemma Text_escape rs : Forall (fun r => valid_rune r = true) rs -> Text (Escape (utf8 rs)) (len rs).
Proof.
  induction 1 as [|r rs Hr _ IH]; [constructor|]. rewrite utf8_cons, len_cons. destruct (decide (r = pipe)) as [->|Hp].
  - change (encode_rune pipe) with [pipe]. cbn [app]. rewrite Escape_cons, Z.eqb_refl. cbn [app]. by apply Text_pipe.
  - assert (forall a s, contains_byte a pipe = false -> Escape (a ++ s) = a ++ Escape s) as Happ.
    { intros a s. induction a as [|c a IHa]; [done|]. cbn [contains_byte existsb app]. intros [Hc Ha]%orb_false_elim.
      rewrite Escape_cons. rewrite Z.eqb_sym in Hc. rewrite Hc. cbn [app]. by rewrite IHa. }
    rewrite Happ by by apply encode_rune_no_pipe. by apply Text_rune.
Qed.

Lemma Text_safe v : bytes_ok v -> Text (safe v) (rune_count (StripControl v)).
Proof.
  intros Hv. unfold safe, rune_count. rewrite (StripControl_runes v Hv). unfold StripControl, map_runes.
  set (rs := omap _ _). assert (rs = filter (fun r => keep_rune r = true) (runes v)) as Ers.
  { subst rs. induction (runes v) as [|r rs IH]; [done|]. rewrite filter_cons, <-IH. cbn [omap list_omap].
    by destruct (keep_rune r) eqn:E; case_decide. }
  rewrite <-Ers. apply Text_escape. rewrite Ers. apply Forall_forall.
  intros r [_ Hr]%list_elem_of_filter. by eapply Forall_forall in Hr; [|by apply runes_valid].
Qed.

Lemma Text_nonneg s k : Text s k -> 0 <= k.
Proof. induction 1; lia. Qed.

Lemma truncate_rune r s n v : valid_rune r = true -> r <> pipe ->
  truncate_go (encode_rune r ++ s) n v 0 = if v =? n then [] else encode_rune r ++ truncate_go s n (v + 1) 0.
Proof.
  intros Hr Hp. destruct (encode_rune_cons r) as (b & bs & Eb).
  assert (b <> pipe) as Hb.
  { pose proof (encode_rune_no_pipe r Hr Hp) as Hn. rewrite Eb in Hn. apply contains_byte_false in Hn.
    intros ->. apply Hn, list_elem_of_here. }
  rewrite Eb. cbn [app truncate_go]. apply Z.eqb_neq in Hb as Hb'. rewrite Hb'. cbn [andb].
  change (b :: bs ++ s) with ((b :: bs) ++ s). rewrite <-Eb, decode_encode_rune, Eb by done.
  cbn [snd length app]. destruct (v =? n); [done|]. f_equal. rewrite Nat.sub_succ, Nat.sub_0_r. apply truncate_copy.
Qed.

Lemma Text_truncate n s k v : Text s k -> v <= n -> Text (truncate_go s n v 0) (Z.min k (n - v)).
Proof.
  intros Hs. revert v. induction Hs as [|r s k Hp Hr Hs IH|s k Hs IH|c0 c1 s k Hc Hcl Hs IH]; intros v Hv.
  - eapply Text_eq; [constructor|lia].
  - rewrite truncate_rune by done. apply Text_nonneg in Hs. destruct (Z.eqb_spec v n); [eapply Text_eq; [constructor|lia]|].
    eapply Text_eq; [apply Text_rune; [done|done|apply IH; lia]|lia].
  - cbn [truncate_go]. rewrite Z.eqb_refl, bool_decide_eq_true_2 by done. cbn [andb]. apply Text_nonneg in Hs.
    destruct (Z.eqb_spec v n); [eapply Text_eq; [constructor|lia]|].
    eapply Text_eq; [apply Text_pipe, IH; lia|lia].
  - pose proof (isCode_ascii _ _ Hc) as (_ & _ & Hp & _). cbn [truncate_go]. rewrite Z.eqb_refl. cbn [head].
    rewrite bool_decide_eq_false_2 by congruence. cbn [andb]. rewrite Hc. apply Text_code; [done|done|by apply IH].
Qed.

Lemma Text_fit s k w : Text s k -> 0 <= w -> Text (fit s w) w.
Proof.
  intros Hs Hw. pose proof (Text_truncate w s k 0 Hs Hw) as Ht. unfold fit, TruncateVisible.
  rewrite (Text_len _ _ Ht). eapply Text_eq; [apply Text_app; [exact Ht|apply Text_spaces]|]. apply Text_nonneg in Hs. lia.
Qed.

(** [cols]: the columns of a concatenation of literals, colours and texts with known columns. *)
Ltac cols :=
  lazymatch goal with
  | H : Text ?s _ |- Text ?s _ => exact H
  | |- Text (_ ++ _) _ => eapply Text_app; [cols|cols]
  | |- Text [] _ => apply Text_nil
  | |- Text (spaces _) _ => apply Text_spaces
  | |- Text (Repeat _ _) _ => apply Text_Repeat; vm_compute; reflexivity
  | |- Text (safe _) _ => apply Text_safe; assumption
  | |- Text _ _ =>
      first [ (apply Text_code; [vm_compute; reflexivity|congruence|apply Text_nil])
            | (apply Text_literal; vm_compute; reflexivity) ]
  end.

(** A body row: the separator or text in which no code is cut. *)
Definition body_row (ln : bytes) : Prop := ln = separator \/ exists k, Text ln k.

Lemma boxRow_width ln w : panelPad <= w -> body_row ln -> VisibleLen (boxRow ln w) = w.
Proof.
  unfold panelPad. intros Hw Hln. unfold boxRow. case_bool_decide as Hs.
  - erewrite Text_len; [|cols]. change (rune_count sLT) with 1. change (rune_count sH) with 1. change (rune_count sRT) with 1. lia.
  - destruct Hln as [?|[k Hk]]; [done|]. pose proof (Text_fit ln k (inner w) Hk ltac:(unfold inner, panelPad; lia)) as Hf.
    erewrite Text_len; [|cols]. change (rune_count sV) with 1. change (rune_count (str " ")) with 1. unfold inner, panelPad. lia.
Qed.

Lemma boxBottom_width w : panelPad <= w -> VisibleLen (boxBottom w) = w.
Proof.
  unfold panelPad. intros Hw. unfold boxBottom. erewrite Text_len; [|cols].
  change (rune_count sBL) with 1. change (rune_count sH) with 1. change (rune_count sBR) with 1. lia.
Qed.

Lemma boxTop_width title w : bytes_ok title -> panelPad + 2 + rune_count (StripControl title) <= w -> VisibleLen (boxTop title w) = w.
Proof.
  unfold panelPad. intros Ht Hw. assert (0 <= rune_count (StripControl title)) as H0 by apply len_nonneg. unfold boxTop. case_bool_decide.
  - erewrite Text_len; [|cols]. change (rune_count sTL) with 1. change (rune_count sH) with 1. change (rune_count sTR) with 1. lia.
  - set (hd := colBorder ++ sTL ++ sH ++ str " " ++ colTitle ++ safe title ++ str " ").
    assert (Text hd (4 + rune_count (StripControl title))) as Hh.
    { eapply Text_eq; [unfold hd; cols|]. change (rune_count sTL) with 1. change (rune_count sH) with 1. change (rune_count (str " ")) with 1. lia. }
    rewrite (Text_len _ _ Hh). clearbody hd. erewrite Text_len; [|cols]. change (rune_count sH) with 1. change (rune_count sTR) with 1. lia.
Qed.

(** Panels line up: every row of a panel, the frame, the dividers and each line of its body, shows exactly the panel's
    width, whatever the body says and however long it is, for a title that fits the frame. *)
Theorem panel_aligned (title : bytes) (w : Z) (body : list bytes) :
  bytes_ok title -> panelPad + 2 + rune_count (StripControl title) <= w -> Forall body_row body ->
  Forall (fun ln => VisibleLen ln = w) (boxLines title w body).
Proof.
  intros Ht Hw Hb. assert (0 <= rune_count (StripControl title)) as H0 by apply len_nonneg. unfold boxLines.
  apply Forall_cons; split; [by apply boxTop_width|]. apply Forall_app; split.
  - apply Forall_fmap. eapply Forall_impl; [exact Hb|]. intros ln Hln. apply boxRow_width; [unfold panelPad in *; lia|done].
  - apply Forall_singleton. apply boxBottom_width. unfold panelPad in *. lia.
Qed.

Lemma panel_aligned_witness :
  Forall (fun ln => VisibleLen ln = 30) (boxLines (str "Wörld|14") 30 [colBright ++ sH ++ safe (str "|07x"); separator; []]).
Proof.
  apply panel_aligned.
  - apply Forall_forall. intros b Hb. cbn in Hb. unfold byte_ok. repeat (apply elem_of_cons in Hb as [->|Hb]; [lia|]). by apply not_elem_of_nil in Hb.
  - by vm_compute.
  - apply Forall_cons; split; [right|apply Forall_cons; split; [by left|apply Forall_singleton; right; exists 0; constructor]].
    assert (bytes_ok (str "|07x")) as Hv by (repeat (apply Forall_cons; split; [by vm_compute|]); constructor).
    eexists. cols.
Defined.
