(* ===== verification/Nodes.v ===== *)
(** * The callers on line: [internal/bbs/node.go]

    The node table that hands out node numbers, and the notices queued for each node.  A [*node] is its number:
    it stands for one caller from [acquire] to [release].  Each operation is one critical section, except adding a
    notice, whose two halves (queue the text, signal the session) are separate, as other goroutines run between
    them.  Hanging up writes to terminals outside the lock: the operations return the terminals to hang up.
    The theorems: node numbers are handed out once each, lowest first, within the bounds, and never again once the
    system goes down; and no notice is lost or waits without a signal. *)

From Stdlib Require Import Ascii String ZArith Lia Sorted.
From stdpp Require Import base tactics list gmap strings sorting.
From S2P Require Import Prelude.
Open Scope Z_scope.

Definition maxPendingNotices : Z := 20.

Inductive node_error := errNodesBusy | errShuttingDown.

(** [nd_term] names the caller's terminal, [nd_signal] is the buffer of one of the channel [notify]. *)
Record node := MkNode {
  nd_id : Z; nd_term : Z; nd_since : Z; nd_signal : bool;
  nd_user : Z; nd_handle : bytes; nd_location : bytes; nd_activity : bytes; nd_secure : bool; nd_notices : list bytes
}.

Record NodeInfo := MkInfo {
  ni_id : Z; ni_user : Z; ni_handle : bytes; ni_location : bytes; ni_activity : bytes; ni_secure : bool; ni_since : Z
}.

Definition setUser (id : Z) (handle location : bytes) (n : node) : node :=
  MkNode (nd_id n) (nd_term n) (nd_since n) (nd_signal n) id handle location (nd_activity n) (nd_secure n) (nd_notices n).

Definition setActivity (a : bytes) (n : node) : node :=
  MkNode (nd_id n) (nd_term n) (nd_since n) (nd_signal n) (nd_user n) (nd_handle n) (nd_location n) a (nd_secure n) (nd_notices n).

Definition set_notices (l : list bytes) (n : node) : node :=
  MkNode (nd_id n) (nd_term n) (nd_since n) (nd_signal n) (nd_user n) (nd_handle n) (nd_location n) (nd_activity n) (nd_secure n) l.

Definition set_signal (b : bool) (n : node) : node :=
  MkNode (nd_id n) (nd_term n) (nd_since n) b (nd_user n) (nd_handle n) (nd_location n) (nd_activity n) (nd_secure n) (nd_notices n).

(** [addNotice]: under the lock, then the signal. *)
Definition queue_notice (text : bytes) (n : node) : node :=
  if len (nd_notices n) <? maxPendingNotices then set_notices (nd_notices n ++ [text]) n else n.

(** Its two halves, in order; other goroutines may run between them.  A signal that is pending already stays. *)
Definition addNotice_steps (text : bytes) : list (node -> node) := [queue_notice text; set_signal true].

Definition addNotice (text : bytes) (n : node) : node := foldl (fun n f => f n) n (addNotice_steps text).

#[global] Arguments addNotice : simpl never.

(** [<-n.notify], which waits until the signal is there. *)
Definition receive (n : node) : option node := if nd_signal n then Some (set_signal false n) else None.

Definition takeNotices (n : node) : list bytes * node := (nd_notices n, set_notices [] n).

Definition info (n : node) : NodeInfo :=
  MkInfo (nd_id n) (nd_user n) (nd_handle n) (nd_location n) (nd_activity n) (nd_secure n) (nd_since n).

Record nodeTable := MkTable { tmax : Z; tnodes : gmap Z node; closing : bool }.

Definition set_nodes (ns : gmap Z node) (t : nodeTable) : nodeTable := MkTable (tmax t) ns (closing t).

Definition newNodeTable (max : Z) : nodeTable := MkTable max ∅ false.

(** The loop of [acquire] over the numbers from [id] on. *)
Fixpoint first_free (ns : gmap Z node) (id : Z) (count : nat) : option Z :=
  match count with
  | O => None
  | S count => match ns !! id with None => Some id | Some _ => first_free ns (id + 1) count end
  end.

Definition acquire (term : Z) (secure : bool) (now : Z) (t : nodeTable) : result node_error Z * nodeTable :=
  if closing t then (Err errShuttingDown, t)
  else
    match first_free (tnodes t) 1 (Z.to_nat (tmax t)) with
    | Some id => (Ok id, set_nodes (<[id := MkNode id term now false 0 [] [] (str "Logging in") secure []]> (tnodes t)) t)
    | None => (Err errNodesBusy, t)
    end.

Definition release (id : Z) (t : nodeTable) : nodeTable := set_nodes (delete id (tnodes t)) t.

(** A session's operation on its own node. *)
Definition on_node (id : Z) (f : node -> node) (t : nodeTable) : nodeTable := set_nodes (alter f id (tnodes t)) t.

(** The nodes of the table; the code goes over them in any order. *)
Definition all_nodes (t : nodeTable) : list node := snd <$> map_to_list (tnodes t).

Definition by_id (a b : NodeInfo) : Prop := ni_id a <= ni_id b.
#[global] Instance by_id_dec : RelDecision by_id := fun a b => Z_le_dec (ni_id a) (ni_id b).

Definition online (t : nodeTable) : list NodeInfo := merge_sort by_id (info <$> all_nodes t).

Definition each (f : node -> node) (t : nodeTable) : nodeTable := set_nodes (f <$> tnodes t) t.

Definition notify (userID : Z) (text : bytes) (t : nodeTable) : Z * nodeTable :=
  (len (filter (fun n => nd_user n = userID) (all_nodes t)),
   each (fun n => if nd_user n =? userID then addNotice text n else n) t).

Definition broadcast (text : bytes) (skipNode : Z) (t : nodeTable) : nodeTable :=
  each (fun n => if negb (nd_id n =? skipNode) && negb (nd_user n =? 0) then addNotice text n else n) t.

(** What [hangUpNode] sends before closing the terminal. *)
Definition hangUp_text (msg : bytes) : bytes := [13; 10; 13; 10] ++ msg ++ [13; 10].

(** The terminals hung up. *)
Definition kick (nodeID : Z) (t : nodeTable) : bool * list Z :=
  match tnodes t !! nodeID with Some n => (true, [nd_term n]) | None => (false, []) end.

Definition kickUser (userID : Z) (t : nodeTable) : Z * list Z :=
  let victims := filter (fun n => nd_user n = userID) (all_nodes t) in (len victims, nd_term <$> victims).

Definition closeAll (t : nodeTable) : list Z * nodeTable :=
  (nd_term <$> all_nodes t, MkTable (tmax t) (tnodes t) true).

(** * Theorems *)

(** ** Node numbers *)

Lemma first_free_spec ns id count :
  match first_free ns id count with
  | Some i => id <= i < id + Z.of_nat count /\ ns !! i = None /\ forall j, id <= j < i -> is_Some (ns !! j)
  | None => forall j, id <= j < id + Z.of_nat count -> is_Some (ns !! j)
  end.
Proof.
  revert id. induction count as [|count IH]; intros id; cbn [first_free]; [lia|].
  destruct (ns !! id) as [n|] eqn:E; [|split_and!; [lia|lia|done|lia]].
  specialize (IH (id + 1)). destruct (first_free ns (id + 1) count) as [i|].
  - destruct IH as (Hi & Hn & Hj). split_and!; [lia|lia|done|]. intros j Hj'. destruct (decide (j = id)) as [->|]; [by rewrite E|]. apply Hj. lia.
  - intros j Hj. destruct (decide (j = id)) as [->|]; [by rewrite E|]. apply IH. lia.
Qed.

(** What happens to the table while callers come and go: [held] are the numbers of the sessions that run. *)
Inductive table_step : nodeTable * list Z -> nodeTable * list Z -> Prop :=
| ts_acquire term secure now t held id t' :
    acquire term secure now t = (Ok id, t') -> table_step (t, held) (t', id :: held)
| ts_refuse term secure now t held e t' : acquire term secure now t = (Err e, t') -> table_step (t, held) (t', held)
| ts_release id t held1 held2 : table_step (t, held1 ++ id :: held2) (release id t, held1 ++ held2)
| ts_user id uid handle location t held : table_step (t, held) (on_node id (setUser uid handle location) t, held)
| ts_activity id a t held : table_step (t, held) (on_node id (setActivity a) t, held)
| ts_take id t held : table_step (t, held) (on_node id (fun n => snd (takeNotices n)) t, held)
| ts_notify userID text t held : table_step (t, held) (snd (notify userID text t), held)
| ts_broadcast text skip t held : table_step (t, held) (broadcast text skip t, held)
| ts_close t held : table_step (t, held) (snd (closeAll t), held).

Definition table_inv (max : Z) (s : nodeTable * list Z) : Prop :=
  let '(t, held) := s in
  tmax t = max /\ NoDup held /\ (forall id, id ∈ held <-> is_Some (tnodes t !! id)) /\ Forall (fun id => 1 <= id <= max) held
  /\ (forall id n, tnodes t !! id = Some n -> nd_id n = id /\ len (nd_notices n) <= maxPendingNotices).

(** A session's operation, and [each], keep the numbers. *)
Lemma on_nodes_inv max t held (f : node -> node) (ns : gmap Z node) :
  (forall n, nd_id (f n) = nd_id n /\ (len (nd_notices n) <= maxPendingNotices -> len (nd_notices (f n)) <= maxPendingNotices)) ->
  (forall id, ns !! id = tnodes t !! id \/ ns !! id = f <$> tnodes t !! id) ->
  table_inv max (t, held) -> table_inv max (set_nodes ns t, held).
Proof.
  intros Hf Hns (Hm & Hnd & Hh & Hb & Hn). split_and!; [done|done| |done|]; cbn [set_nodes tnodes].
  - intros id. rewrite Hh. destruct (Hns id) as [-> | ->]; [done|]. by rewrite fmap_is_Some.
  - intros id n. destruct (Hns id) as [-> | ->]; [apply Hn|]. rewrite fmap_Some. intros (m & Em & ->).
    destruct (Hf m) as [-> Hl]. destruct (Hn id m Em). split; [done|]. by apply Hl.
Qed.

Lemma addNotice_bound text n :
  nd_id (addNotice text n) = nd_id n
  /\ (len (nd_notices n) <= maxPendingNotices -> len (nd_notices (addNotice text n)) <= maxPendingNotices).
Proof.
  unfold addNotice. cbn [addNotice_steps foldl]. unfold queue_notice. destruct (Z.ltb_spec (len (nd_notices n)) maxPendingNotices); [|done].
  cbn. rewrite len_app. split; [done|]. intros _. unfold len in *. cbn. lia.
Qed.

Lemma alter_cases (f : node -> node) (id : Z) (ns : gmap Z node) i : alter f id ns !! i = ns !! i \/ alter f id ns !! i = f <$> ns !! i.
Proof. destruct (decide (i = id)) as [->|]; [right; by rewrite lookup_alter_eq|left; by rewrite lookup_alter_ne]. Qed.

Lemma fmap_cases (f : node -> node) (ns : gmap Z node) i : (f <$> ns) !! i = ns !! i \/ (f <$> ns) !! i = f <$> ns !! i.
Proof. right. apply lookup_fmap. Qed.

Lemma table_step_inv max s1 s2 : table_step s1 s2 -> table_inv max s1 -> table_inv max s2.
Proof.
  intros Hs. destruct Hs as [term secure now t held id t' Ha|term secure now t held e t' Ha|id t held1 held2|id uid handle location t held|id a t held|id t held|userID text t held|text skip t held|t held].
  - unfold acquire in Ha. destruct (closing t); [done|]. pose proof (first_free_spec (tnodes t) 1 (Z.to_nat (tmax t))) as Hf.
    destruct (first_free _ _ _) as [i|]; [|done]. injection Ha as -> <-. intros (Hm & Hnd & Hh & Hb & Hn). destruct Hf as (Hi & Hfree & _).
    split_and!; [done| | | |]; cbn [set_nodes tnodes].
    + apply NoDup_cons. split; [|done]. rewrite Hh, Hfree. by intros [? ?].
    + intros j. rewrite elem_of_cons, Hh. destruct (decide (j = id)) as [->|]; [rewrite lookup_insert_eq; split; [done|by left]|].
      rewrite lookup_insert_ne by done. tauto.
    + apply Forall_cons. split; [lia|done].
    + intros j n. destruct (decide (j = id)) as [->|]; [rewrite lookup_insert_eq; by intros [= <-]|]. rewrite lookup_insert_ne by done. apply Hn.
  - unfold acquire in Ha. destruct (closing t); [by injection Ha as _ <-|]. destruct (first_free _ _ _); [done|]. by injection Ha as _ <-.
  - intros (Hm & Hnd & Hh & Hb & Hn). rewrite <-Permutation_middle in Hnd. apply NoDup_cons in Hnd as [Hni Hnd]. rewrite elem_of_app in Hni.
    split_and!; [done|done| | |]; cbn [release set_nodes tnodes].
    + intros j. rewrite elem_of_app. specialize (Hh j). rewrite elem_of_app, elem_of_cons in Hh. destruct (decide (j = id)) as [->|].
      * rewrite lookup_delete_eq. split; [tauto|by intros [? ?]].
      * rewrite lookup_delete_ne by done. rewrite <-Hh. tauto.
    + rewrite Forall_app, Forall_cons in Hb. apply Forall_app. tauto.
    + intros j n. destruct (decide (j = id)) as [->|]; [by rewrite lookup_delete_eq|]. rewrite lookup_delete_ne by done. apply Hn.
  - apply on_nodes_inv with (setUser uid handle location); [done|]. apply alter_cases.
  - apply on_nodes_inv with (setActivity a); [done|]. apply alter_cases.
  - apply on_nodes_inv with (fun n => snd (takeNotices n)); [done|]. apply alter_cases.
  - apply on_nodes_inv with (fun n => if nd_user n =? userID then addNotice text n else n); [|apply fmap_cases].
    intros n. destruct (_ =? _); [apply addNotice_bound|done].
  - apply on_nodes_inv with (fun n => if negb (nd_id n =? skip) && negb (nd_user n =? 0) then addNotice text n else n); [|apply fmap_cases].
    intros n. destruct (_ && _); [apply addNotice_bound|done].
  - done.
Qed.

Definition table_reach (max : Z) : nodeTable * list Z -> Prop := rtc table_step (newNodeTable max, []).

Lemma table_reach_inv max s : table_reach max s -> table_inv max s.
Proof.
  intros Hr. assert (table_inv max (newNodeTable max, [])) as H0.
  { split_and!; [done|constructor|intros id; cbn; rewrite lookup_empty; split; [by intros ?%not_elem_of_nil|by intros [? ?]]|constructor|done]. }
  revert H0. induction Hr as [|s1 s2 s3 Hs _ IH]; [done|]. intros H. apply IH. by eapply table_step_inv.
Qed.

#[local] Instance by_id_trans : Transitive by_id.
Proof. intros a b c. unfold by_id. lia. Qed.
#[local] Instance by_id_total : Total by_id.
Proof. intros a b. unfold by_id. lia. Qed.

Lemma elem_all_nodes t n : n ∈ all_nodes t <-> exists id, tnodes t !! id = Some n.
Proof.
  unfold all_nodes. rewrite list_elem_of_fmap. split.
  - intros ([id m] & -> & Hin). exists id. by apply elem_of_map_to_list.
  - intros [id Hn]. exists (id, n). split; [done|]. by apply elem_of_map_to_list.
Qed.

Lemma all_nodes_ids max t held : table_inv max (t, held) -> nd_id <$> all_nodes t ≡ₚ held.
Proof.
  intros (_ & Hnd & Hh & _ & Hn).
  assert (nd_id <$> all_nodes t = (map_to_list (tnodes t)).*1) as ->.
  { unfold all_nodes. rewrite <-list_fmap_compose. apply list_fmap_ext. intros i [id n] Hi. cbn.
    apply list_elem_of_lookup_2, elem_of_map_to_list in Hi. by apply Hn. }
  apply NoDup_Permutation; [apply NoDup_fst_map_to_list|done|]. intros id. rewrite Hh. split.
  - intros ([i n] & -> & Hi)%list_elem_of_fmap. apply elem_of_map_to_list in Hi. cbn in *. by rewrite Hi.
  - intros [n Hi]. apply list_elem_of_fmap. exists (id, n). split; [done|]. by apply elem_of_map_to_list.
Qed.

Lemma online_ids max t held : table_inv max (t, held) -> ni_id <$> online t ≡ₚ held.
Proof.
  intros Hi. rewrite <-(all_nodes_ids max t held Hi). unfold online. rewrite merge_sort_Permutation, <-list_fmap_compose. done.
Qed.

Lemma sorted_strict (l : list NodeInfo) : StronglySorted by_id l -> NoDup (ni_id <$> l) -> StronglySorted Z.lt (ni_id <$> l).
Proof.
  induction 1 as [|a l _ IH Ha]; [constructor|]. rewrite fmap_cons. intros [Hni Hnd]%NoDup_cons. constructor; [by apply IH|].
  rewrite Forall_forall in Ha. apply Forall_fmap, Forall_forall. intros b Hin. pose proof (Ha b Hin) as Hab. unfold by_id in Hab. cbn. assert (ni_id a <> ni_id b); [|lia].
  intros E. apply Hni. rewrite E. by apply list_elem_of_fmap_2.
Qed.

(** Node numbers: whatever callers come, go and do, the numbers of the callers on line are distinct and within 1 and the
    maximum; the who's-online list has exactly one entry per caller in the order of node numbers; no caller has more
    than [maxPendingNotices] notices queued; and a new caller gets the lowest free number, is turned away as busy
    exactly when every number is taken, and is turned away when the system goes down. *)
Theorem node_numbers (max : Z) (t : nodeTable) (held : list Z) (term now : Z) (secure : bool) :
  table_reach max (t, held) ->
  NoDup held /\ Forall (fun id => 1 <= id <= max) held
  /\ StronglySorted Z.lt (ni_id <$> online t) /\ (ni_id <$> online t) ≡ₚ held
  /\ Forall (fun n => len (nd_notices n) <= maxPendingNotices) (all_nodes t)
  /\ match fst (acquire term secure now t) with
     | Ok id => closing t = false /\ (id ∉ held) /\ 1 <= id <= max /\ forall j, 1 <= j < id -> j ∈ held
     | Err errNodesBusy => closing t = false /\ forall j, 1 <= j <= max -> j ∈ held
     | Err errShuttingDown => closing t = true
     end.
Proof.
  intros Hr%table_reach_inv. pose proof (online_ids _ _ _ Hr) as Ho. pose proof Hr as (Hm & Hnd & Hh & Hb & Hn). split_and!; [done|done| |done| |].
  - apply sorted_strict; [by apply (StronglySorted_merge_sort _)|]. by rewrite Ho.
  - apply Forall_forall. intros n [id Hid]%elem_all_nodes. by apply (Hn id).
  - unfold acquire. destruct (closing t); [done|]. pose proof (first_free_spec (tnodes t) 1 (Z.to_nat (tmax t))) as Hf.
    destruct (first_free _ _ _) as [id|]; cbn [fst].
    + destruct Hf as (Hi & Hfree & Hj). rewrite Hh, Hfree. split_and!; [done|by intros [? ?]|lia|lia|]. intros j Hj'. apply Hh, Hj, Hj'.
    + split; [done|]. intros j Hj. apply Hh, Hf. lia.
Qed.

Lemma node_numbers_witness :
  let t := snd (acquire 8 true 3 (snd (acquire 7 false 2 (newNodeTable 2)))) in
  let t := release 1 t in
  fst (acquire 9 false 4 t) = Ok 1 /\ ni_id <$> online t = [2].
Proof.
  cbn zeta. set (t1 := snd (acquire 7 false 2 (newNodeTable 2))). set (t2 := snd (acquire 8 true 3 t1)). set (t3 := release 1 t2).
  assert (table_reach 2 (t3, [2] ++ [])) as Hr.
  { eapply rtc_l; [by apply (ts_acquire 7 false 2 _ _ 1 t1)|]. eapply rtc_l; [by apply (ts_acquire 8 true 3 _ _ 2 t2)|].
    eapply rtc_l; [by apply (ts_release 1 t2 [2] [])|]. apply rtc_refl. }
  pose proof (node_numbers 2 t3 _ 9 4 false Hr) as (_ & _ & _ & Ho & _ & _). apply Permutation_singleton_r in Ho. by split.
Defined.

(** ** Closing *)

Lemma closing_step s1 s2 : table_step s1 s2 -> closing (fst s1) = true -> closing (fst s2) = true /\ snd s2 ⊆ snd s1.
Proof.
  intros Hs. destruct Hs as [term secure now t held id t' Ha|term secure now t held e t' Ha|id t held1 held2| | | | | |]; cbn; intros Hc; try (by split; [|set_solver]).
  - unfold acquire in Ha. by rewrite Hc in Ha.
  - unfold acquire in Ha. rewrite Hc in Ha. by injection Ha as _ <-.
Qed.

(** Once the system goes down, [closeAll] has hung up every caller on line and nobody gets in again. *)
Theorem closed_for_good (max : Z) (t t' : nodeTable) (held held' : list Z) (term now : Z) (secure : bool) :
  table_reach max (t, held) -> rtc table_step (snd (closeAll t), held) (t', held') ->
  length (fst (closeAll t)) = length held /\ held' ⊆ held /\ fst (acquire term secure now t') = Err errShuttingDown.
Proof.
  intros Hr%table_reach_inv Hs. assert (closing (fst (snd (closeAll t), held)) = true) as Hc by done.
  enough (closing t' = true /\ held' ⊆ held) as [Hc' Hsub].
  { split_and!; [|done|unfold acquire; by rewrite Hc']. unfold closeAll. cbn [fst]. rewrite length_fmap.
    rewrite <-(Permutation_length (all_nodes_ids _ _ _ Hr)). by rewrite length_fmap. }
  revert Hc. change t' with (fst (t', held')). change held' with (snd (t', held')) at 2. change held with (snd (snd (closeAll t), held)) at 2.
  induction Hs as [s|s1 s2 s3 H1 _ IH]; [done|]. intros Hc. destruct (closing_step _ _ H1 Hc) as [Hc2 Hs2]. destruct (IH Hc2) as [? ?]. split; [done|set_solver].
Qed.

(** ** Notices *)

(** A node and the goroutines at work on it: what each sender still has to do, and how many times the session has
    received the signal and not yet taken the notices.  For the theorem: the texts that were queued, and those handed over. *)
Record notice_state := MkNotices {
  ns_node : node; ns_senders : list (list (node -> node)); ns_woken : nat; ns_sent : list bytes; ns_got : list bytes
}.

Definition handed (n : node) (ss : list (list (node -> node))) (w : nat) (sent got : list bytes) : notice_state :=
  MkNotices (snd (takeNotices n)) ss w sent (got ++ fst (takeNotices n)).

Inductive notice_step : notice_state -> notice_state -> Prop :=
(* some goroutine calls [addNotice], and runs its next half *)
| st_send text n ss w sent got : notice_step (MkNotices n ss w sent got) (MkNotices n (ss ++ [addNotice_steps text]) w sent got)
| st_run i f rest n ss w sent got : ss !! i = Some (f :: rest) ->
    notice_step (MkNotices n ss w sent got)
      (MkNotices (f n) (<[i := rest]> ss) w (sent ++ drop (length (nd_notices n)) (nd_notices (f n))) got)
(* the session is woken, and takes the notices; or takes them on its way, as before each key it reads *)
| st_wake n n' ss w sent got : receive n = Some n' -> notice_step (MkNotices n ss w sent got) (MkNotices n' ss (S w) sent got)
| st_take n ss w sent got : notice_step (MkNotices n ss (S w) sent got) (handed n ss w sent got)
| st_flush n ss w sent got : notice_step (MkNotices n ss w sent got) (handed n ss w sent got).

(** A sender has everything to do, or the signal, or nothing. *)
Definition sender_ok (s : list (node -> node)) : Prop := (exists text, s = addNotice_steps text) \/ s = [set_signal true] \/ s = [].

Definition notice_inv (s : notice_state) : Prop :=
  Forall sender_ok (ns_senders s) /\ ns_got s ++ nd_notices (ns_node s) = ns_sent s
  /\ (nd_notices (ns_node s) = [] \/ nd_signal (ns_node s) = true \/ [set_signal true] ∈ ns_senders s \/ (0 < ns_woken s)%nat).

Lemma queue_notice_appends text n :
  nd_notices (queue_notice text n) = nd_notices n ++ drop (length (nd_notices n)) (nd_notices (queue_notice text n)).
Proof.
  unfold queue_notice. destruct (_ <? _); cbn; [by rewrite drop_app_length|]. by rewrite drop_all, app_nil_r.
Qed.

Lemma notice_step_inv s1 s2 : notice_step s1 s2 -> notice_inv s1 -> notice_inv s2.
Proof.
  destruct 1 as [text n ss w sent got|i f rest n ss w sent got Hi|n n' ss w sent got Hn|n ss w sent got|n ss w sent got];
    intros (Hs & Hg & Hw); unfold notice_inv in *; cbn in *; subst sent.
  - split_and!; [apply Forall_app; split; [done|]; constructor; [by left; exists text|done]|done|]. rewrite elem_of_app. tauto.
  - assert (sender_ok (f :: rest)) as [(text & [= -> ->])|[[= -> ->]|[=]]] by (rewrite Forall_lookup in Hs; by apply (Hs i)).
    + split_and!; [apply Forall_insert; [done|by right; left]|by rewrite (queue_notice_appends text n) at 1; rewrite app_assoc|]. right. right. left.
      apply list_elem_of_lookup. exists i. apply list_lookup_insert_eq. by eapply lookup_lt_Some.
    + split_and!; [apply Forall_insert; [done|by right; right]|by rewrite drop_all, app_nil_r|]. right. by left.
  - unfold receive in Hn. destruct (nd_signal n); [|done]. injection Hn as <-. split_and!; [done|done|]. right. right. right. lia.
  - split_and!; [done|by rewrite app_nil_r|by left].
  - split_and!; [done|by rewrite app_nil_r|by left].
Qed.

(** C31: No notice is lost or stranded: whatever order the goroutines run in, with each [addNotice] cut in two, what the
    session has been handed and what still waits is all that was queued, in that order; and once every sender has finished,
    notices that wait mean that the session has been woken, or that the signal is there to wake it, and that the take that
    follows leaves it with everything that was queued. *)
Theorem notices_delivered (n : node) (s : notice_state) :
  nd_notices n = [] -> rtc notice_step (MkNotices n [] 0 [] []) s ->
  ns_got s ++ nd_notices (ns_node s) = ns_sent s
  /\ (Forall (fun sender => sender = []) (ns_senders s) -> nd_notices (ns_node s) <> [] ->
      exists s1, (s1 = s \/ notice_step s s1) /\ (0 < ns_woken s1)%nat
        /\ exists s2, notice_step s1 s2 /\ ns_woken s2 = pred (ns_woken s1) /\ ns_got s2 = ns_sent s).
Proof.
  intros Hn Hr. assert (notice_inv s) as (_ & Hg & Hi).
  { assert (notice_inv (MkNotices n [] 0 [] [])) as H0 by (split_and!; [constructor|done|by left]). revert H0.
    induction Hr as [|s1 s2 s3 Hs _ IH]; [done|]. intros H. by apply IH, (notice_step_inv s1). }
  split; [exact Hg|]. intros Hk Hne. destruct s as [m ss w sent got]. cbn in *. subst sent. destruct Hi as [?|[Hs|[Hin|Hw]]]; [done| | |].
  - exists (MkNotices (set_signal false m) ss (S w) (got ++ nd_notices m) got). split_and!; [right; apply st_wake; unfold receive; by rewrite Hs|cbn; lia|].
    eexists. split; [apply st_take|done].
  - rewrite Forall_forall in Hk. discriminate (Hk _ Hin).
  - destruct w as [|w]; [lia|]. exists (MkNotices m ss (S w) (got ++ nd_notices m) got). split_and!; [by left|cbn; lia|]. eexists. split; [apply st_take|done].
Qed.

(** Two senders queue and then signal, the other first. *)
Lemma notices_delivered_witness :
  let n := MkNode 1 7 0 false 5 (str "ann") [] [] false [] in
  let s := MkNotices (set_signal true (set_signal true (queue_notice (str "b") (queue_notice (str "a") n)))) [[]; []] 0 [str "a"; str "b"] [] in
  exists s1, notice_step s s1 /\ exists s2, notice_step s1 s2 /\ ns_got s2 = [str "a"; str "b"].
Proof.
  cbn zeta. set (n := MkNode _ _ _ _ _ _ _ _ _ _).
  assert (rtc notice_step (MkNotices n [] 0 [] [])
    (MkNotices (set_signal true (set_signal true (queue_notice (str "b") (queue_notice (str "a") n)))) [[]; []] 0 [str "a"; str "b"] [])) as Hr.
  { eapply rtc_l; [apply (st_send (str "a"))|]. eapply rtc_l; [apply (st_send (str "b"))|]. eapply rtc_l; [by apply (st_run 0)|].
    eapply rtc_l; [by apply (st_run 1)|]. eapply rtc_l; [by apply (st_run 1)|]. eapply rtc_l; [by apply (st_run 0)|]. apply rtc_refl. }
  destruct (notices_delivered n _ eq_refl Hr) as [_ Hd].
  destruct (Hd ltac:(by repeat constructor) ltac:(done)) as (s1 & [->|Hs] & Hw & s2 & H2 & _ & Hg); [cbn in Hw; lia|].
  exists s1. split; [done|]. exists s2. split; [exact H2|exact Hg].
Defined.
