(* ===== verification/Chat.v ===== *)
(** * The teleconference: [internal/bbs/chat.go]

    Named rooms and their members.  A [*chatMember] is its number in the map of members, and the channel [out] is the
    queue of its lines, at most [chatBacklog] long; sending to a full channel drops the line.  Each operation is one
    critical section of the hub's mutex.  The theorem is a refinement: with the room sets taken away, the hub is a
    table of members each in one room, and a line reaches exactly those in the speaker's room who have not blocked
    the speaker and have space. *)

From Stdlib Require Import Ascii String ZArith Lia Sorted.
From stdpp Require Import base tactics list gmap strings sorting.
From S2P Require Import Prelude GoStrings Term StoreDB Ui.
Open Scope Z_scope.

Definition defaultRoom : bytes := str "main".
Definition maxRoomNameLen : Z := 16.
Definition chatBacklog : Z := 64.
Definition chatSystemActor : Z := 0.

Record chatLine := MkLine { fromID : Z; text : bytes }.

Record chatMember := MkMember { cm_user : Z; cm_handle : bytes; cm_blocked : gset Z; cm_out : list chatLine; cm_room : bytes }.

Definition newChatMember (userID : Z) (handle : bytes) (blocked : gset Z) : chatMember := MkMember userID handle blocked [] [].

Definition set_room (r : bytes) (m : chatMember) : chatMember := MkMember (cm_user m) (cm_handle m) (cm_blocked m) (cm_out m) r.
Definition set_out (l : list chatLine) (m : chatMember) : chatMember := MkMember (cm_user m) (cm_handle m) (cm_blocked m) l (cm_room m).

Record chatHub := MkHub { rooms : gmap bytes (gset Z); members : gmap Z chatMember }.

Definition newChatHub : chatHub := MkHub ∅ ∅.

(** Letters, digits, '-' and '_'. *)
Definition room_rune (r : Z) : bool := between 97 122 r || between 48 57 r || (r =? 45) || (r =? 95).

(** The loop of [normalizeRoom], which stops at a name of full length. *)
Fixpoint room_go (rs : list Z) (b : bytes) : bytes :=
  match rs with
  | [] => b
  | r :: rs =>
      let b := if room_rune r then b ++ encode_rune r else b in
      if len b =? maxRoomNameLen then b else room_go rs b
  end.

Definition normalizeRoom `{UnicodeTables} (name : bytes) : bytes :=
  let s := trim_space name in
  room_go (runes (to_lower (if has_prefix s (str "#") then slice_from s 1 else s))) [].

(** The room's set of members, empty for a room that is not there. *)
Definition room_members (h : chatHub) (room : bytes) : gset Z := default ∅ (rooms h !! room).

(** [select { case member.out <- line: default: }] unless the member has blocked the sender. *)
Definition deliver (line : chatLine) (m : chatMember) : chatMember :=
  if negb (fromID line =? chatSystemActor) && bool_decide (fromID line ∈ cm_blocked m) then m
  else if len (cm_out m) <? chatBacklog then set_out (cm_out m ++ [line]) m else m.

Definition sendLocked (room : bytes) (line : chatLine) (h : chatHub) : chatHub :=
  MkHub (rooms h) (set_fold (fun id ms => alter (deliver line) id ms) (members h) (room_members h room)).

Definition left_line (m : chatMember) : chatLine :=
  MkLine chatSystemActor (colDim ++ str "*** " ++ colHandle ++ safe (cm_handle m) ++ colDim ++ str " left").
Definition joined_line (m : chatMember) (room : bytes) : chatLine :=
  MkLine chatSystemActor (colDim ++ str "*** " ++ colHandle ++ safe (cm_handle m) ++ colDim ++ str " joined #" ++ room).

Definition leaveLocked (id : Z) (h : chatHub) : chatHub :=
  match members h !! id with
  | None => h
  | Some m =>
      if bool_decide (cm_room m = []) then h
      else
        let room := cm_room m in
        let s := room_members h room ∖ {[id]} in
        let rs := if bool_decide (s = ∅) then delete room (rooms h) else <[room := s]> (rooms h) in
        sendLocked room (left_line m) (MkHub rs (<[id := set_room [] m]> (members h)))
  end.

Definition leave (id : Z) (h : chatHub) : chatHub := leaveLocked id h.

Definition join (id : Z) (room : bytes) (h : chatHub) : chatHub :=
  let h := leaveLocked id h in
  match members h !! id with
  | None => h
  | Some m =>
      sendLocked room (joined_line m room)
        (MkHub (<[room := {[id]} ∪ room_members h room]> (rooms h)) (<[id := set_room room m]> (members h)))
  end.

Definition say (id : Z) (txt : bytes) (h : chatHub) : chatHub :=
  match members h !! id with
  | None => h
  | Some m => if bool_decide (cm_room m = []) then h else sendLocked (cm_room m) (MkLine (cm_user m) txt) h
  end.

(** A caller enters the chat screen with a fresh member, and its screen takes lines. *)
Definition enter (id : Z) (m : chatMember) (h : chatHub) : chatHub := MkHub (rooms h) (<[id := m]> (members h)).
Definition take_line (id : Z) (h : chatHub) : option chatLine * chatHub :=
  match members h !! id with
  | Some m => match cm_out m with [] => (None, h) | l :: ls => (Some l, MkHub (rooms h) (<[id := set_out ls m]> (members h))) end
  | None => (None, h)
  end.

Definition room_of (id : Z) (h : chatHub) : bytes := match members h !! id with Some m => cm_room m | None => [] end.

Definition handle_of (h : chatHub) (id : Z) : bytes := match members h !! id with Some m => cm_handle m | None => [] end.
Definition who (room : bytes) (h : chatHub) : list bytes := order_by id (handle_of h <$> elements (room_members h room)).

Definition roomCounts (h : chatHub) : gmap bytes Z := (fun s : gset Z => Z.of_nat (size s)) <$> rooms h.
Definition count (h : chatHub) : Z := map_fold (fun _ n total => n + total) 0 (roomCounts h).

(** * Theorems *)

(** ** The chat without room sets *)

Abbreviation roster := (gmap Z chatMember).

(** The member hears the speaker in the room: it is there, has not blocked the speaker (nobody blocks the board, 0), and has
    fewer than 64 lines waiting. *)
Definition hears (speaker : Z) (room : bytes) (m : chatMember) : Prop :=
  cm_room m = room /\ (speaker = 0 \/ speaker ∉ cm_blocked m) /\ Z.of_nat (length (cm_out m)) < 64.
#[local] Instance hears_dec speaker room m : Decision (hears speaker room m).
Proof. unfold hears. apply _. Defined.

(** Everybody who hears the speaker gets the line, last of those that wait. *)
Definition a_tell (speaker : Z) (room txt : bytes) (ms : roster) : roster :=
  (fun m => if decide (hears speaker room m)
            then MkMember (cm_user m) (cm_handle m) (cm_blocked m) (cm_out m ++ [MkLine speaker txt]) (cm_room m) else m) <$> ms.

(** The member is in the room now, and nothing else about it changes. *)
Definition a_move (id : Z) (room : bytes) (ms : roster) : roster :=
  alter (fun m => MkMember (cm_user m) (cm_handle m) (cm_blocked m) (cm_out m) room) id ms.

(** Who leaves is out first, and does not hear of it; who joins hears it. *)
Definition a_leave (id : Z) (ms : roster) : roster :=
  match ms !! id with
  | Some m => if decide (cm_room m = []) then ms
              else a_tell 0 (cm_room m) (colDim ++ str "*** " ++ colHandle ++ safe (cm_handle m) ++ colDim ++ str " left") (a_move id [] ms)
  | None => ms
  end.

Definition a_join (id : Z) (room : bytes) (ms : roster) : roster :=
  match ms !! id with
  | Some m => a_tell 0 room (colDim ++ str "*** " ++ colHandle ++ safe (cm_handle m) ++ colDim ++ str " joined #" ++ room) (a_move id room (a_leave id ms))
  | None => ms
  end.

Definition a_say (id : Z) (txt : bytes) (ms : roster) : roster :=
  match ms !! id with
  | Some m => if decide (cm_room m = []) then ms else a_tell (cm_user m) (cm_room m) txt ms
  | None => ms
  end.

(** ** The room sets follow the members *)

Definition chat_inv (h : chatHub) : Prop :=
  (forall id r, r <> [] -> id ∈ room_members h r <-> exists m, members h !! id = Some m /\ cm_room m = r)
  /\ (forall r s, rooms h !! r = Some s -> r <> [] /\ s <> ∅)
  /\ (forall id m, members h !! id = Some m -> len (cm_out m) <= chatBacklog).

Lemma fold_deliver_lookup (line : chatLine) (s : gset Z) (ms : roster) (i : Z) :
  set_fold (fun id ms => alter (deliver line) id ms) ms s !! i = (if bool_decide (i ∈ s) then deliver line <$> ms !! i else ms !! i).
Proof.
  pose (P := fun (out : roster) (s : gset Z) => forall i : Z, out !! i = if bool_decide (i ∈ s) then deliver line <$> ms !! i else ms !! i).
  revert i. enough (P (set_fold (fun id ms => alter (deliver line) id ms) ms s) s) as HP by exact HP. apply set_fold_ind_L; unfold P.
  - intros i. by rewrite bool_decide_eq_false_2 by set_solver.
  - intros x X out Hx IH i. cbn beta. destruct (decide (i = x)) as [->|Hne].
    + rewrite lookup_alter_eq, IH, bool_decide_eq_false_2 by done. by rewrite bool_decide_eq_true_2 by set_solver.
    + rewrite lookup_alter_ne, IH by done. destruct (decide (i ∈ X)).
      * by rewrite !bool_decide_eq_true_2 by set_solver.
      * by rewrite !bool_decide_eq_false_2 by set_solver.
Qed.

Lemma deliver_room line m : cm_room (deliver line m) = cm_room m.
Proof. unfold deliver. by repeat case_match. Qed.

Lemma deliver_bound line m : len (cm_out m) <= chatBacklog -> len (cm_out (deliver line m)) <= chatBacklog.
Proof.
  intros Hl. unfold deliver. destruct (_ && _); [done|]. destruct (Z.ltb_spec (len (cm_out m)) chatBacklog); [|done].
  cbn. rewrite len_app. unfold len in *. cbn. lia.
Qed.

(** What is delivered, in the room. *)
Lemma deliver_hears line room m : cm_room m = room ->
  deliver line m = if decide (hears (fromID line) room m)
    then MkMember (cm_user m) (cm_handle m) (cm_blocked m) (cm_out m ++ [MkLine (fromID line) (text line)]) (cm_room m) else m.
Proof.
  intros Hroom. unfold deliver, hears, chatSystemActor, chatBacklog. fold (len (cm_out m)).
  destruct (Z.eqb_spec (fromID line) 0) as [E|E]; cbn [negb andb].
  - destruct (Z.ltb_spec (len (cm_out m)) 64); [rewrite decide_True by auto; by destruct line|rewrite decide_False by lia; done].
  - case_bool_decide; [rewrite decide_False by tauto; done|].
    destruct (Z.ltb_spec (len (cm_out m)) 64); [rewrite decide_True by auto; by destruct line|rewrite decide_False by lia; done].
Qed.

Lemma a_move_insert id room ms m : ms !! id = Some m -> a_move id room ms = <[id := set_room room m]> ms.
Proof. intros Hm. unfold a_move. apply map_eq. intros i. rewrite lookup_alter, lookup_insert. case_decide; [subst; by rewrite Hm|done]. Qed.

Lemma a_leave_handle id ms m : ms !! id = Some m -> exists m', a_leave id ms !! id = Some m' /\ cm_handle m' = cm_handle m.
Proof.
  intros Hm. unfold a_leave. rewrite Hm. case_decide; [eauto|]. rewrite (a_move_insert id [] ms m Hm). unfold a_tell.
  rewrite lookup_fmap, lookup_insert_eq. cbn. eexists. split; [done|]. by case_decide.
Qed.

Lemma a_leave_none id ms : ms !! id = None -> a_leave id ms = ms.
Proof. intros Hm. unfold a_leave. by rewrite Hm. Qed.

Lemma sendLocked_roster h room line :
  (forall id m, members h !! id = Some m -> cm_room m = room <-> id ∈ room_members h room) ->
  members (sendLocked room line h) = a_tell (fromID line) room (text line) (members h).
Proof.
  intros Hr. apply map_eq. intros i. unfold sendLocked, a_tell. cbn [members]. rewrite fold_deliver_lookup, lookup_fmap.
  destruct (members h !! i) as [m|] eqn:Em; [|by case_bool_decide]. cbn. specialize (Hr i m Em). case_bool_decide as Hi.
  - by rewrite (deliver_hears line room m (proj2 Hr Hi)).
  - rewrite decide_False; [done|]. intros [Hroom _]. tauto.
Qed.

(** Sending changes queues only. *)
Lemma send_inv h room line : chat_inv h -> chat_inv (sendLocked room line h).
Proof.
  intros (Hm & Hr & Hl). unfold sendLocked. split_and!; cbn [rooms members].
  - intros id r Hne. unfold room_members at 1. cbn [rooms]. fold (room_members h r). rewrite (Hm id r Hne). rewrite fold_deliver_lookup. case_bool_decide.
    + split; [intros (m & -> & <-); eexists; split; [done|by apply deliver_room]|].
      intros (m & (m' & Hm' & ->)%fmap_Some & <-). exists m'. by rewrite deliver_room.
    + done.
  - exact Hr.
  - intros id m. rewrite fold_deliver_lookup. case_bool_decide; [|apply Hl]. intros (m' & Hm' & ->)%fmap_Some. by eapply deliver_bound, Hl.
Qed.

Lemma inv_room h id m r : chat_inv h -> members h !! id = Some m -> r <> [] -> cm_room m = r <-> id ∈ room_members h r.
Proof. intros (Hm & _) Em Hr. rewrite Hm by done. split; [by eauto|]. intros (m' & Em' & <-). congruence. Qed.

Lemma room_members_insert h r s ms r' :
  room_members (MkHub (<[r := s]> (rooms h)) ms) r' = if decide (r' = r) then s else room_members h r'.
Proof.
  unfold room_members. cbn [rooms]. destruct (decide (r' = r)) as [->|]; [by rewrite lookup_insert_eq|by rewrite lookup_insert_ne].
Qed.

Lemma room_members_update h r s ms r' :
  room_members (MkHub (if bool_decide (s = ∅) then delete r (rooms h) else <[r := s]> (rooms h)) ms) r'
  = if decide (r' = r) then s else room_members h r'.
Proof.
  case_bool_decide as Hs; [|apply room_members_insert]. unfold room_members. cbn [rooms]. destruct (decide (r' = r)) as [->|].
  - by rewrite lookup_delete_eq, Hs.
  - by rewrite lookup_delete_ne.
Qed.

Lemma lookup_inserted (ms : roster) (id j : Z) (m : chatMember) (P : chatMember -> Prop) :
  (exists m', <[id := m]> ms !! j = Some m' /\ P m') <-> (j = id /\ P m) \/ (j <> id /\ exists m', ms !! j = Some m' /\ P m').
Proof.
  destruct (decide (j = id)) as [->|Hj].
  - rewrite lookup_insert_eq. split; [intros (m' & [= <-] & ?); tauto|]. intros [[_ ?]|[? _]]; [by eexists|done].
  - rewrite lookup_insert_ne by done. tauto.
Qed.

(** Moving a member between rooms: the hub between the bookkeeping and the announcement. *)
Lemma moved_inv h id m r rs :
  chat_inv h -> members h !! id = Some m ->
  (forall r' s, rs !! r' = Some s -> r' <> [] /\ s <> ∅) ->
  (forall j r', r' <> [] -> j ∈ default ∅ (rs !! r') <-> (j = id /\ r = r') \/ (j <> id /\ j ∈ room_members h r')) ->
  chat_inv (MkHub rs (<[id := set_room r m]> (members h))).
Proof.
  intros (Hm & Hr & Hl) Em Hrs Hj. split_and!; cbn [members rooms].
  - intros j r' Hne. unfold room_members. cbn [rooms]. rewrite (Hj j r' Hne), (lookup_inserted _ _ _ _ (fun m' => cm_room m' = r')).
    cbn [set_room cm_room]. rewrite Hm by done. tauto.
  - exact Hrs.
  - intros j m'. destruct (decide (j = id)) as [->|]; [rewrite lookup_insert_eq; intros [= <-]; exact (Hl id m Em)|].
    rewrite lookup_insert_ne by done. apply Hl.
Qed.

Lemma leave_refines h id :
  chat_inv h -> members (leaveLocked id h) = a_leave id (members h) /\ chat_inv (leaveLocked id h)
  /\ match members (leaveLocked id h) !! id with Some m => cm_room m = [] | None => True end.
Proof.
  intros Hi. unfold leaveLocked, a_leave. destruct (members h !! id) as [m|] eqn:Em; [|by rewrite Em].
  case_bool_decide as Hroom; [rewrite decide_True by done; by rewrite Em|]. rewrite decide_False by done.
  set (s := room_members h (cm_room m) ∖ {[id]}).
  set (h1 := MkHub _ _). assert (chat_inv h1) as H1.
  { apply moved_inv; [done|done| |].
    - destruct Hi as (_ & Hr & _). intros r' s'. case_bool_decide as Hs.
      + intros [_ ?]%lookup_delete_Some. by apply Hr.
      + intros [[<- <-]|[_ ?]]%lookup_insert_Some; [done|by apply Hr].
    - intros j r' Hne.
      change (default ∅ _) with (room_members h1 r'). unfold h1. rewrite room_members_update. destruct (decide (r' = cm_room m)) as [->|Hr'].
      + subst s. rewrite elem_of_difference, elem_of_singleton. split; [tauto|]. intros [[_ E]|?]; [by destruct (Hne (eq_sym E))|tauto].
      + destruct (decide (j = id)) as [->|]; [|tauto]. rewrite <-(inv_room h id m r' Hi Em Hne). split; [congruence|]. intros [[_ ?]|[? _]]; congruence. }
  split_and!; [|by apply send_inv|].
  - rewrite (a_move_insert id [] (members h) m Em). apply (sendLocked_roster h1 _ (left_line m)). intros j mj Hj. by apply (inv_room h1 j mj).
  - unfold sendLocked. cbn [members]. rewrite fold_deliver_lookup. change (members h1) with (<[id := set_room [] m]> (members h)).
    rewrite lookup_insert_eq. case_bool_decide; [|done]. exact (deliver_room (left_line m) (set_room [] m)).
Qed.

Lemma join_refines h id room :
  chat_inv h -> room <> [] -> members (join id room h) = a_join id room (members h) /\ chat_inv (join id room h).
Proof.
  intros Hi Hroom. unfold join, a_join. destruct (leave_refines h id Hi) as (Hl & Hli & Hout).
  destruct (members h !! id) as [m0|] eqn:E0.
  2:{ rewrite (a_leave_none _ _ E0) in Hl. rewrite Hl, E0. by split. }
  destruct (a_leave_handle id _ m0 E0) as (m & Em & <-). rewrite <-Hl in *.
  set (h0 := leaveLocked id h) in *. rewrite Em in *.
  set (h1 := MkHub _ _). assert (chat_inv h1) as H1.
  { apply moved_inv; [done|done| |].
    - intros r' s' [[<- <-]|[_ ?]]%lookup_insert_Some; [split; [done|set_solver]|by apply Hli].
    - intros j r' Hne. change (default ∅ _) with (room_members h1 r'). unfold h1. rewrite room_members_insert.
      destruct (decide (r' = room)) as [->|Hr'].
      + rewrite elem_of_union, elem_of_singleton. destruct (decide (j = id)); tauto.
      + destruct (decide (j = id)) as [->|]; [|split; [tauto|intros [[? _]|[_ ?]]; congruence]].
        rewrite <-(inv_room h0 id m r' Hli Em Hne), Hout. split; [congruence|]. intros [[_ ?]|[? _]]; congruence. }
  split; [|by apply send_inv]. rewrite (a_move_insert id room (members h0) m Em).
  apply (sendLocked_roster h1 room (joined_line m room)). intros j mj Hj. by apply (inv_room h1 j mj).
Qed.

Lemma say_refines h id txt : chat_inv h -> members (say id txt h) = a_say id txt (members h) /\ chat_inv (say id txt h).
Proof.
  intros Hi. unfold say, a_say. destruct (members h !! id) as [m|] eqn:Em; [|done]. case_bool_decide; [by rewrite decide_True|].
  rewrite decide_False by done. split; [|by apply send_inv]. apply (sendLocked_roster h _ (MkLine (cm_user m) txt)). intros j mj Hj. by apply (inv_room h j mj).
Qed.

(** Callers enter the screen, move, talk, take their lines and leave. *)
Inductive chat_step : chatHub -> chatHub -> Prop :=
| cs_enter id user handle blocked h : members h !! id = None -> chat_step h (enter id (newChatMember user handle blocked) h)
| cs_join id room h : room <> [] -> chat_step h (join id room h)
| cs_leave id h : chat_step h (leave id h)
| cs_say id txt h : chat_step h (say id txt h)
| cs_take id h : chat_step h (snd (take_line id h)).

Definition chat_reach : chatHub -> Prop := rtc chat_step newChatHub.

Lemma chat_step_inv h1 h2 : chat_step h1 h2 -> chat_inv h1 -> chat_inv h2.
Proof.
  intros Hs Hi. destruct Hs as [id user handle blocked h Hn|id room h Hr|id h|id txt h|id h].
  - destruct Hi as (Hm & Hr & Hl). split_and!; cbn [enter rooms members]; [|done|].
    + intros j r Hne. change (room_members _ r) with (room_members h r).
      rewrite Hm, (lookup_inserted _ _ _ _ (fun m' => cm_room m' = r)) by done. cbn.
      destruct (decide (j = id)) as [->|]; [|tauto]. rewrite Hn. naive_solver.
    + intros j m. destruct (decide (j = id)) as [->|]; [by rewrite lookup_insert_eq; intros [= <-]|]. rewrite lookup_insert_ne by done. apply Hl.
  - by apply join_refines.
  - by apply leave_refines.
  - by apply say_refines.
  - unfold take_line. destruct (members h !! id) as [m|] eqn:Em; [|done]. destruct (cm_out m) as [|l ls] eqn:Eo; [done|].
    destruct Hi as (Hm & Hr & Hl). split_and!; cbn [snd rooms members]; [|done|].
    + intros j r Hne. change (room_members _ r) with (room_members h r).
      rewrite Hm, (lookup_inserted _ _ _ _ (fun m' => cm_room m' = r)) by done. cbn.
      destruct (decide (j = id)) as [->|]; [rewrite Em; naive_solver|tauto].
    + intros j m'. destruct (decide (j = id)) as [->|]; [|rewrite lookup_insert_ne by done; apply Hl].
      rewrite lookup_insert_eq. intros [= <-]. pose proof (Hl id m Em) as Hb. rewrite Eo, len_cons in Hb. cbn. lia.
Qed.

Lemma chat_reach_inv h : chat_reach h -> chat_inv h.
Proof.
  intros Hr. assert (chat_inv newChatHub) as H0.
  { split_and!; cbn [newChatHub rooms members]; [|done|done]. intros id r _. unfold room_members. cbn [newChatHub rooms]. rewrite lookup_empty. cbn.
    split; [set_solver|]. by intros (? & ? & _). }
  revert H0. induction Hr as [|h1 h2 h3 Hs _ IH]; [done|]. intros H. by apply IH, (chat_step_inv h1).
Qed.

(** The handles of the members in a room. *)
Definition in_room (room : bytes) (ms : roster) : roster := filter (fun e => cm_room (snd e) = room) ms.
Definition handles_in (room : bytes) (ms : roster) : list bytes := (fun e => cm_handle (snd e)) <$> map_to_list (in_room room ms).

Lemma room_members_dom h r : chat_inv h -> r <> [] -> room_members h r = dom (in_room r (members h)).
Proof.
  intros (Hm & _) Hne. apply set_eq. intros i. rewrite Hm, elem_of_dom by done. unfold is_Some. setoid_rewrite map_lookup_filter_Some. done.
Qed.

Lemma who_spec h r : chat_inv h -> r <> [] -> who r h ≡ₚ handles_in r (members h).
Proof.
  intros Hi Hne. unfold who, order_by. rewrite merge_sort_Permutation, (room_members_dom h r Hi Hne).
  assert (elements (dom (in_room r (members h))) ≡ₚ (map_to_list (in_room r (members h))).*1) as ->.
  { apply NoDup_Permutation; [apply NoDup_elements|apply NoDup_fst_map_to_list|]. intros i. rewrite elem_of_elements, elem_of_dom. split.
    - intros [m Hm]. apply list_elem_of_fmap. exists (i, m). split; [done|]. by apply elem_of_map_to_list.
    - intros ([j m] & -> & Hm)%list_elem_of_fmap. exists m. by apply elem_of_map_to_list. }
  unfold handles_in. rewrite <-list_fmap_compose. apply Permutation_refl'. apply list_fmap_ext. intros k [i m] Hk. cbn.
  apply list_elem_of_lookup_2, elem_of_map_to_list, map_lookup_filter_Some in Hk as [Hk _]. unfold handle_of. by rewrite Hk.
Qed.

#[local] Instance bytes_leb_total : Total (key_le (@id bytes)).
Proof.
  unfold key_le, id. intros a. induction a as [|x a IH]; intros [|y b]; cbn; [by left|by left|by right|].
  destruct (Z.ltb_spec x y), (Z.ltb_spec y x), (Z.eqb_spec x y), (Z.eqb_spec y x); cbn; auto; lia.
Qed.
#[local] Instance bytes_leb_trans : Transitive (key_le (@id bytes)).
Proof.
  unfold key_le, id. intros a. induction a as [|x a IH]; intros [|y b] [|z c]; cbn; try done.
  destruct (Z.ltb_spec x y), (Z.ltb_spec y z), (Z.ltb_spec x z), (Z.eqb_spec x y), (Z.eqb_spec y z), (Z.eqb_spec x z); cbn; try done; try lia. apply IH.
Qed.

Definition in_order : list bytes -> Prop := StronglySorted (fun a b => bytes_leb a b = true).

Lemma who_sorted h r : in_order (who r h).
Proof. apply StronglySorted_merge_sort; apply _. Qed.

Lemma roomCounts_spec h r : chat_inv h -> r <> [] ->
  default 0 (roomCounts h !! r) = len (map_to_list (in_room r (members h))) /\ roomCounts h !! r <> Some 0.
Proof.
  intros Hi Hne. assert (default 0 (roomCounts h !! r) = Z.of_nat (size (room_members h r))) as ->.
  { unfold roomCounts, room_members. rewrite lookup_fmap. by destruct (rooms h !! r). }
  rewrite (room_members_dom h r Hi Hne), size_dom. unfold len. rewrite length_map_to_list. split; [done|].
  unfold roomCounts. rewrite lookup_fmap. intros (s & Hs & E)%fmap_Some. destruct Hi as (_ & Hr & _). destruct (Hr r s Hs) as [_ Hs0].
  apply Hs0, leibniz_equiv, size_empty_inv. lia.
Qed.

(** C32: The chat hub implements a roster in which every member is in one room: from any state reached by members coming,
    moving, talking and leaving, [join], [leave] and [say] do to the members what the roster's operations do: a line
    reaches the members of the speaker's room, the speaker included, who have not blocked the speaker and have fewer
    than 64 lines waiting, after those, and nobody else; a move between rooms is told to the room that is left and to the
    one that is joined, and changes nothing else.  [who] and [roomCounts] list each room's members, [who] in the order of
    the handles; and no queue grows past [chatBacklog]. *)
Theorem chat_refines (h : chatHub) (id : Z) (room txt : bytes) :
  chat_reach h -> room <> [] ->
  members (join id room h) = a_join id room (members h)
  /\ members (leave id h) = a_leave id (members h)
  /\ members (say id txt h) = a_say id txt (members h)
  /\ who room h ≡ₚ handles_in room (members h) /\ in_order (who room h)
  /\ default 0 (roomCounts h !! room) = len (handles_in room (members h))
  /\ forall i m, members h !! i = Some m -> len (cm_out m) <= chatBacklog.
Proof.
  intros Hr%chat_reach_inv Hne. split_and!.
  - by apply join_refines.
  - by apply leave_refines.
  - by apply say_refines.
  - by apply who_spec.
  - apply who_sorted.
  - destruct (roomCounts_spec h room Hr Hne) as [-> _]. unfold handles_in. by rewrite len_fmap.
  - apply Hr.
Qed.

Lemma chat_refines_witness :
  let h := join 2 (str "main") (join 1 (str "main") (enter 2 (newChatMember 8 (str "bob") {[7]}) (enter 1 (newChatMember 7 (str "ann") ∅) newChatHub))) in
  chat_reach h
  /\ (len ∘ cm_out <$> members (say 1 (str "hi") h) !! 1) = Some 3
  /\ (len ∘ cm_out <$> members (say 1 (str "hi") h) !! 2) = Some 1.
Proof.
  cbn zeta. set (h0 := enter 2 _ _). set (h := join 2 _ _).
  assert (chat_reach h) as Hr.
  { eapply rtc_l; [by apply (cs_enter 1 7 (str "ann") ∅)|]. eapply rtc_l; [by apply (cs_enter 2 8 (str "bob") {[7]})|].
    eapply rtc_l; [by apply (cs_join 1 (str "main"))|]. eapply rtc_l; [by apply (cs_join 2 (str "main"))|]. apply rtc_refl. }
  split; [done|]. pose proof (chat_refines h 1 (str "main") (str "hi") Hr ltac:(done)) as (_ & _ & -> & _). vm_compute. done.
Defined.

(** ** Room names *)

Lemma room_go_spec rs b :
  len b < maxRoomNameLen -> Forall (fun c => room_rune c = true) b ->
  len (room_go rs b) <= maxRoomNameLen /\ Forall (fun c => room_rune c = true) (room_go rs b).
Proof.
  revert b. induction rs as [|r rs IH]; intros b Hl Hb; cbn [room_go]; [split; [lia|done]|]. set (b' := if room_rune r then _ else _).
  assert (len b' <= maxRoomNameLen /\ Forall (fun c => room_rune c = true) b') as [Hl' Hb'].
  { subst b'. destruct (room_rune r) eqn:E; [|split; [lia|done]]. assert (encode_rune r = [r]) as ->.
    { apply ascii_rune. unfold room_rune, between in E. lia. }
    rewrite len_app. unfold len in *. cbn. split; [lia|]. apply Forall_app. by split; [|apply Forall_singleton]. }
  destruct (Z.eqb_spec (len b') maxRoomNameLen); [done|]. apply IH; [lia|done].
Qed.

(** A room name is at most 16 of a-z, 0-9, '-' and '_'. *)
Lemma normalizeRoom_ok `{UnicodeTables} name :
  len (normalizeRoom name) <= maxRoomNameLen /\ Forall (fun c => room_rune c = true) (normalizeRoom name).
Proof. unfold normalizeRoom. by apply room_go_spec. Qed.
