(* ===== verification/WebAnsi.v ===== *)
(** * The art preview of the web interface: [internal/web/ansi.go]

    An ANSI.SYS interpreter that draws onto a grid and writes the grid out as HTML.  Positions are 64-bit integers that wrap
    around, and an index out of range is a panic, [None].  [feed] is split into the lexer, whose result does not depend on the
    screen, and one step per token.  The theorems: for parameters of a sensible size the interpreter never panics and the
    grid keeps its bounds; a huge parameter makes it panic; and the HTML holds nothing but its own spans, with
    the text of the grid escaped. *)

From Stdlib Require Import Ascii String ZArith Lia.
From stdpp Require Import base tactics list gmap strings.
From S2P Require Import Prelude GoStrings Term.
Open Scope Z_scope.

Definition artColumns : Z := 80.
Definition artMaxRows : Z := 500.

Record cell := MkCell { c_rune : Z; c_fg : Z; c_bg : Z }.

Record screen := MkScreen {
  grid : list (list cell); sx : Z; sy : Z; sfg : Z; sbg : Z; bold : bool; saveX : Z; saveY : Z
}.

Definition newScreen : screen := MkScreen [] 0 0 7 0 false 0 0.

Definition set_grid (g : list (list cell)) (s : screen) : screen :=
  MkScreen g (sx s) (sy s) (sfg s) (sbg s) (bold s) (saveX s) (saveY s).
Definition set_pos (x y : Z) (s : screen) : screen :=
  MkScreen (grid s) x y (sfg s) (sbg s) (bold s) (saveX s) (saveY s).
Definition set_colours (f b : Z) (bo : bool) (s : screen) : screen :=
  MkScreen (grid s) (sx s) (sy s) f b bo (saveX s) (saveY s).

(** The rows after the loop of [row]. *)
Definition grow (y : Z) (g : list (list cell)) : list (list cell) :=
  g ++ replicate (Z.to_nat (Z.min (y + 1) artMaxRows - len g)) [].

(** [row]: the row and the grown grid. *)
Definition row_at (y : Z) (g : list (list cell)) : option (list cell * list (list cell)) :=
  let g := grow y g in
  if len g <=? y then Some ([], g)
  else if y <? 0 then None
  else Some (nth (Z.to_nat y) g [], g).

Definition put (r : Z) (s : screen) : option screen :=
  let s := if artColumns <=? sx s then set_pos 0 (wrap64 (sy s + 1)) s else s in
  '(row, g) ← row_at (sy s) (grid s);
  let s := set_grid g s in
  if artMaxRows <=? sy s then Some s
  else if sx s <? 0 then None
  else
    let row := row ++ replicate (Z.to_nat (sx s + 1 - len row)) (MkCell 32 7 0) in
    let fg := if bold s && (sfg s <? 8) then sfg s + 8 else sfg s in
    let row := <[Z.to_nat (sx s) := MkCell r fg (sbg s)]> row in
    Some (set_pos (wrap64 (sx s + 1)) (sy s) (set_grid (<[Z.to_nat (sy s) := row]> g) s)).

Definition sgr_param (s : screen) (p : Z) : screen :=
  if p =? 0 then set_colours 7 0 false s
  else if p =? 1 then set_colours (sfg s) (sbg s) true s
  else if p =? 22 then set_colours (sfg s) (sbg s) false s
  else if between 30 37 p then set_colours (p - 30) (sbg s) (bold s) s
  else if p =? 39 then set_colours 7 (sbg s) (bold s) s
  else if between 40 47 p then set_colours (sfg s) (p - 40) (bold s) s
  else if p =? 49 then set_colours (sfg s) 0 (bold s) s
  else if between 90 97 p then set_colours (p - 90 + 8) (sbg s) (bold s) s
  else s.

Definition sgr (params : list Z) (s : screen) : screen :=
  foldl sgr_param s (match params with [] => [0] | _ => params end).

(** The parameter at [i] when it is there and positive, else 1. *)
Definition param (i : nat) (params : list Z) : Z :=
  match params !! i with Some p => if 0 <? p then p else 1 | None => 1 end.

Definition csi (final : Z) (params : list Z) (s : screen) : option screen :=
  let n := param 0 params in
  if final =? ch "m" then Some (sgr params s)
  else if final =? ch "A" then Some (set_pos (sx s) (Z.max 0 (wrap64 (sy s - n))) s)
  else if final =? ch "B" then Some (set_pos (sx s) (wrap64 (sy s + n)) s)
  else if final =? ch "C" then Some (set_pos (Z.min (artColumns - 1) (wrap64 (sx s + n))) (sy s) s)
  else if final =? ch "D" then Some (set_pos (Z.max 0 (wrap64 (sx s - n))) (sy s) s)
  else if (final =? ch "H") || (final =? ch "f") then
    Some (set_pos (Z.min (artColumns - 1) (param 1 params - 1)) (param 0 params - 1) s)
  else if final =? ch "J" then
    Some (if match params with p :: _ => p =? 2 | [] => false end then set_pos 0 0 (set_grid [] s) else s)
  else if final =? ch "K" then
    if sy s <? len (grid s) then
      if sy s <? 0 then None
      else
        let row := nth (Z.to_nat (sy s)) (grid s) [] in
        if sx s <? len row then
          if sx s <? 0 then None else Some (set_grid (<[Z.to_nat (sy s) := take (Z.to_nat (sx s)) row]> (grid s)) s)
        else Some s
    else Some s
  else if final =? ch "s" then Some (MkScreen (grid s) (sx s) (sy s) (sfg s) (sbg s) (bold s) (sx s) (sy s))
  else if final =? ch "u" then Some (set_pos (saveX s) (saveY s) s)
  else Some s.

(** ** feed *)

Inductive token := TPut (r : Z) | TReturn | TLine | TCsi (final : Z) (params : list Z).

(** The parameters between "ESC [" and the final byte. *)
Definition csi_params (body : bytes) : list Z :=
  (fun p => let '(v, ok) := atoi p in if ok : bool then v else 0) <$> split_byte (trim_left body (str "?")) (ch ";").

(** [decodeRune]: the first rune, and the length of its encoding (which for an invalid byte is the three bytes of U+FFFD). *)
Definition decodeRune (s : bytes) : Z * nat := let r := fst (decode_rune s) in (r, length (encode_rune r)).

(** The loop of [feed]; [skip] bytes are still to be passed over. *)
Fixpoint lex (text : bytes) (skip : nat) : list token :=
  match text with
  | [] => []
  | c :: rest =>
      match skip with
      | S k => lex rest k
      | O =>
          if (c =? 27) && bool_decide (head rest = Some (ch "[")) then
            match csi_len (tail rest) with
            | None => []
            | Some m => TCsi (nth m rest 0) (csi_params (take (m - 1) (tail rest))) :: lex rest (1 + m)
            end
          else if c =? 13 then TReturn :: lex rest 0
          else if c =? 10 then TLine :: lex rest 0
          else if c <? 32 then lex rest 0
          else let '(r, size) := decodeRune text in TPut r :: lex rest (size - 1)
      end
  end.

Definition step (s : screen) (t : token) : option screen :=
  match t with
  | TPut r => put r s
  | TReturn => Some (set_pos 0 (sy s) s)
  | TLine => Some (set_pos 0 (wrap64 (sy s + 1)) s)
  | TCsi final params => csi final params s
  end.

Fixpoint run (ts : list token) (s : screen) : option screen :=
  match ts with [] => Some s | t :: ts => s ← step s t; run ts s end.

Definition feed (text : bytes) (s : screen) : option screen := run (lex text 0) s.

(** ** html *)

(** [template.HTMLEscapeString] on one rune. *)
Definition html_escape (r : Z) : bytes :=
  if r =? 0 then str "�"
  else if r =? ch "&" then str "&amp;"
  else if r =? ch "'" then str "&#39;"
  else if r =? ch "<" then str "&lt;"
  else if r =? ch ">" then str "&gt;"
  else if r =? 34 then str "&#34;"
  else encode_rune r.

(** The cells from the front that have the colours [fg] and [bg], and the rest. *)
Fixpoint span_run (fg bg : Z) (row : list cell) : list cell * list cell :=
  match row with
  | c :: row' =>
      if (c_fg c =? fg) && (c_bg c =? bg) then let '(a, b) := span_run fg bg row' in (c :: a, b) else ([], row)
  | [] => ([], [])
  end.

(** The runs of a row; every run takes at least one cell. *)
Fixpoint runs_of (fuel : nat) (row : list cell) : list (list cell) :=
  match fuel, row with
  | S fuel, c :: _ => let '(a, b) := span_run (c_fg c) (c_bg c) row in a :: runs_of fuel b
  | _, _ => []
  end.

Definition quot : bytes := [34].

Definition span_html (cs : list cell) : bytes :=
  match cs with
  | [] => []
  | c :: _ =>
      str "<span class=" ++ quot ++ str "f" ++ itoa (c_fg c) ++ str " b" ++ itoa (c_bg c) ++ quot ++ str ">"
      ++ (cs ≫= fun c => html_escape (c_rune c)) ++ str "</span>"
  end.

Definition row_html (row : list cell) : bytes := (runs_of (length row) row ≫= span_html) ++ [10].

(** The rows up to the last that is not empty. *)
Definition drop_empty (g : list (list cell)) : list (list cell) :=
  reverse ((fix go (l : list (list cell)) := match l with [] :: l' => go l' | _ => l end) (reverse g)).

Definition html (s : screen) : bytes := drop_empty (grid s) ≫= row_html.

Definition renderANS (data : bytes) : option bytes := html <$> feed (ConvertANSIArt data UTF8 true) newScreen.

Definition renderPipeText (text : bytes) : option bytes :=
  html <$> feed (fst (Render (NewRenderer ANSI16) text)) newScreen.

(** * Theorems *)

(** ** The bounds of the grid *)

Definition cell_ok (c : cell) : Prop := 0 <= c_fg c <= 15 /\ 0 <= c_bg c <= 7.
Definition row_ok (row : list cell) : Prop := len row <= artColumns /\ Forall cell_ok row.
Definition grid_ok (g : list (list cell)) : Prop := len g <= artMaxRows /\ Forall row_ok g.

(** [screen_ok b s]: the cursor is between the columns and above row [b]. *)
Record screen_ok (b : Z) (s : screen) : Prop := {
  so_x : 0 <= sx s <= artColumns; so_y : 0 <= sy s <= b;
  so_sx : 0 <= saveX s <= artColumns; so_sy : 0 <= saveY s <= b;
  so_fg : 0 <= sfg s <= 15; so_bg : 0 <= sbg s <= 7; so_grid : grid_ok (grid s)
}.

Definition at_most (m : Z) (t : token) : Prop := match t with TCsi _ params => Forall (fun p => p <= m) params | _ => True end.

Lemma grow_ok y g : grid_ok g -> grid_ok (grow y g) /\ (0 <= y -> Z.min (y + 1) artMaxRows <= len (grow y g)).
Proof.
  intros [Hl Hg]. unfold grow. split; [split|].
  - rewrite len_app. unfold len at 2. rewrite length_replicate. pose proof (len_nonneg g). unfold artMaxRows in *. lia.
  - apply Forall_app. split; [done|]. apply Forall_replicate. split; [done|constructor].
  - intros Hy. rewrite len_app. unfold len at 2. rewrite length_replicate. unfold artMaxRows in *. lia.
Qed.

Lemma nth_Forall {A} (P : A -> Prop) (l : list A) i d : Forall P l -> P d -> P (nth i l d).
Proof. intros Hl Hd. destruct (nth_in_or_default i l d) as [Hi|]; [|congruence]. apply list_elem_of_In in Hi. by eapply Forall_forall in Hi. Qed.

Lemma row_at_ok y g : 0 <= y -> grid_ok g -> exists row, row_at y g = Some (row, grow y g) /\ row_ok row /\ (y < artMaxRows -> y < len (grow y g)).
Proof.
  intros Hy Hg. destruct (grow_ok y g Hg) as [[Hl Hf] Hlen]. unfold row_at. destruct (Z.leb_spec (len (grow y g)) y) as [Hle|Hlt].
  - exists []. split_and!; [done|by split|]. intros. specialize (Hlen Hy). lia.
  - destruct (Z.ltb_spec y 0); [lia|]. eexists. split_and!; [done| |done]. by apply nth_Forall; [|split; [done|constructor]].
Qed.

Lemma insert_ok {A} (P : A -> Prop) (l : list A) i x : Forall P l -> P x -> Forall P (<[i := x]> l).
Proof. intros Hl Hx. by apply Forall_insert. Qed.

Lemma put_ok b r s : screen_ok b s -> b + 1 <= max_int -> exists s', put r s = Some s' /\ screen_ok (b + 1) s'.
Proof.
  intros Hs Hb. unfold put. set (s1 := if artColumns <=? sx s then _ else s).
  assert (screen_ok (b + 1) s1 /\ sx s1 < artColumns) as [H1 Hx].
  { subst s1. destruct Hs. destruct (Z.leb_spec artColumns (sx s)); [|split; [split; try done; lia|lia]].
    rewrite wrap64_id by (unfold min_int, max_int in *; lia). split; [split; cbn; try done; unfold artColumns in *; lia|]. cbn. unfold artColumns. lia. }
  clearbody s1. clear Hs. destruct H1 as [X Y SX SY FG BG G]. destruct (row_at_ok (sy s1) (grid s1) (proj1 Y) G) as (row & -> & Hrow & Hlt).
  destruct (grow_ok (sy s1) (grid s1) G) as [Gg _]. cbn.
  destruct (Z.leb_spec artMaxRows (sy s1)); [eexists; split; [done|by split]|]. destruct (Z.ltb_spec (sx s1) 0); [lia|]. eexists. split; [done|].
  rewrite wrap64_id by (unfold min_int, max_int, artColumns in *; lia).
  split; cbn; try done; [unfold artColumns in *; lia|]. split; [unfold len; rewrite length_insert; apply Gg|].
  apply insert_ok; [apply Gg|]. destruct Hrow as [Hrl Hrc]. split.
  - unfold len. rewrite length_insert, length_app, length_replicate. unfold len in *. unfold artColumns in *. lia.
  - apply insert_ok; [apply Forall_app; split; [done|]; apply Forall_replicate; by split|].
    split; cbn; [|done]. destruct (bold s1); cbn; [|lia]. destruct (Z.ltb_spec (sfg s1) 8); lia.
Qed.

Lemma sgr_ok b s params : screen_ok b s -> screen_ok b (sgr params s).
Proof.
  unfold sgr. generalize (match params with [] => [0] | _ => params end). intros ps. revert s.
  induction ps as [|p ps IH]; intros s Hs; [done|]. apply IH. destruct Hs. unfold sgr_param, between.
  repeat match goal with |- context [if ?b then _ else _] => destruct b eqn:? end; split; cbn; try done; lia.
Qed.

Lemma param_bound m i params : 1 <= m -> Forall (fun p => p <= m) params -> 1 <= param i params <= m.
Proof.
  intros Hm Hp. unfold param. destruct (params !! i) as [p|] eqn:E; [|lia]. rewrite Forall_lookup in Hp. specialize (Hp i p E).
  destruct (Z.ltb_spec 0 p); lia.
Qed.

Lemma csi_ok b m final params s :
  screen_ok b s -> 1 <= m -> b + m <= max_int -> artColumns + m <= max_int -> Forall (fun p => p <= m) params ->
  exists s', csi final params s = Some s' /\ screen_ok (b + m) s'.
Proof.
  intros Hs Hm Hb Hc Hp. pose proof (param_bound m 0 params Hm Hp) as H0. pose proof (param_bound m 1 params Hm Hp) as H1.
  assert (screen_ok (b + m) s) as Hs' by (destruct Hs; split; try done; lia). unfold csi. destruct Hs as [X Y SX SY FG BG G].
  destruct (final =? ch "m"); [eexists; split; [done|by apply sgr_ok]|].
  destruct Hs' as [X' Y' SX' SY' FG' BG' G'].
  destruct (final =? ch "A"); [eexists; split; [done|]; rewrite wrap64_id by (unfold min_int, max_int in *; lia); split; cbn; try done; lia|].
  destruct (final =? ch "B"); [eexists; split; [done|]; rewrite wrap64_id by (unfold min_int, max_int in *; lia); split; cbn; try done; lia|].
  destruct (final =? ch "C"); [eexists; split; [done|]; rewrite wrap64_id by (unfold min_int, max_int, artColumns in *; lia); split; cbn; try done; unfold artColumns in *; lia|].
  destruct (final =? ch "D"); [eexists; split; [done|]; rewrite wrap64_id by (unfold min_int, max_int, artColumns in *; lia); split; cbn; try done; unfold artColumns in *; lia|].
  destruct ((final =? ch "H") || _); [eexists; split; [done|]; split; cbn; try done; unfold artColumns in *; lia|].
  destruct (final =? ch "J").
  { eexists. split; [done|]. destruct (match params with [] => false | p :: _ => p =? 2 end); [|by split].
    split; cbn; try done; try lia. }
  destruct (final =? ch "K").
  { destruct (sy s <? len (grid s)); [|eexists; split; [done|by split]]. destruct (Z.ltb_spec (sy s) 0); [lia|]. cbv zeta.
    destruct (Z.ltb_spec (sx s) (len (nth (Z.to_nat (sy s)) (grid s) []))); [|eexists; split; [done|by split]].
    destruct (Z.ltb_spec (sx s) 0); [lia|]. eexists. split; [done|]. split; cbn; try done.
    split; [unfold len; rewrite length_insert; apply G|]. apply insert_ok; [apply G|].
    assert (row_ok (nth (Z.to_nat (sy s)) (grid s) [])) as [Hrl Hrc] by (apply nth_Forall; [apply G|split; [done|constructor]]).
    split; [unfold len in *; rewrite length_take; lia|by apply Forall_take]. }
  destruct (final =? ch "s"); [eexists; split; [done|]; split; cbn; done|].
  destruct (final =? ch "u"); [eexists; split; [done|]; split; cbn; done|].
  eexists; split; [done|by split].
Qed.

Lemma glyph_step_ok b m t s :
  screen_ok b s -> 1 <= m -> b + m <= max_int -> artColumns + m <= max_int -> at_most m t ->
  exists s', step s t = Some s' /\ screen_ok (b + m) s'.
Proof.
  intros Hs Hm Hb Hc Ht. destruct t as [r| | |final params]; cbn [step].
  - destruct (put_ok b r s Hs ltac:(lia)) as (s' & -> & Hs'). exists s'. split; [done|]. destruct Hs'; split; try done; lia.
  - eexists. split; [done|]. destruct Hs; split; cbn; try done; unfold artColumns in *; lia.
  - eexists. split; [done|]. destruct Hs; rewrite wrap64_id by (unfold min_int, max_int in *; lia); split; cbn; try done; unfold artColumns in *; lia.
  - by apply csi_ok.
Qed.

Lemma run_ok m ts b s :
  screen_ok b s -> 1 <= m -> b + m * len ts <= max_int -> artColumns + m <= max_int -> Forall (at_most m) ts ->
  exists s', run ts s = Some s' /\ screen_ok (b + m * len ts) s'.
Proof.
  intros Hs Hm. revert b s Hs. induction ts as [|t ts IH]; intros b s Hs Hb Hc Hts.
  - exists s. split; [done|]. by rewrite len_nil, Z.mul_0_r, Z.add_0_r.
  - rewrite len_cons in *. apply Forall_cons in Hts as [Ht Hts]. pose proof (len_nonneg ts).
    destruct (glyph_step_ok b m t s Hs Hm ltac:(nia) Hc Ht) as (s1 & Es & H1). cbn [run]. rewrite Es. cbn.
    destruct (IH (b + m) s1 H1 ltac:(lia) Hc Hts) as (s2 & -> & H2). exists s2. split; [done|].
    by replace (b + m * (1 + len ts)) with (b + m + m * len ts) by lia.
Qed.

Lemma lex_length text skip : len (lex text skip) <= len text.
Proof.
  revert skip. induction text as [|c rest IH]; intros skip; [done|]. rewrite len_cons. cbn [lex].
  destruct skip as [|k]; [|specialize (IH k); lia].
  repeat case_match; rewrite ?len_cons; try (rewrite len_nil; pose proof (len_nonneg rest); lia);
    match goal with |- context [lex rest ?n] => specialize (IH n); lia end.
Qed.

(** The preview draws within its grid: for any bytes whose escape sequences carry parameters of at most [m] (a trillion, say,
    for the largest file allowed), the interpreter finishes without a panic, and the grid has at most 500 rows of at most 80
    cells, with colours the stylesheet has. *)
Theorem preview_total (text : bytes) (m : Z) :
  1 <= m -> artColumns + m <= max_int -> m * len text <= max_int -> Forall (at_most m) (lex text 0) ->
  exists s, feed text newScreen = Some s /\ grid_ok (grid s).
Proof.
  intros Hm Hc Hl Ht. assert (screen_ok 0 newScreen) as H0.
  { split; cbn; try (unfold artColumns; lia). split; [by vm_compute|constructor]. }
  pose proof (lex_length text 0). destruct (run_ok m (lex text 0) 0 newScreen H0 Hm ltac:(nia) Hc Ht) as (s & Hs & Hok).
  exists s. split; [done|]. apply Hok.
Qed.

Lemma preview_total_witness : exists s, feed (str "a" ++ 27 :: str "[2;3Hb") newScreen = Some s /\ grid_ok (grid s).
Proof.
  apply (preview_total _ 3); [lia|by vm_compute|by vm_compute|].
  change (lex _ 0) with [TPut 97; TCsi 72 [2; 3]; TPut 98].
  apply Forall_cons; split; [done|]. apply Forall_cons; split; [|by apply Forall_singleton]. cbn. apply Forall_cons; split; [lia|apply Forall_singleton; lia].
Defined.

(** The preview of a file with a huge cursor movement panics: 64-bit arithmetic takes the cursor to a negative
    column, and the next character is written there. *)
Theorem preview_panics : renderANS (str "x" ++ 27 :: str "[9223372036854775807Cy") = None.
Proof. vm_compute. done. Qed.

(** ** The page shows the grid *)

(** How a browser reads the text of a span: the five character references. *)
Fixpoint html_text (s : bytes) (skip : nat) : bytes :=
  match s with
  | [] => []
  | c :: rest =>
      match skip with
      | S k => html_text rest k
      | O =>
          if has_prefix s (str "&amp;") then ch "&" :: html_text rest 4
          else if has_prefix s (str "&#39;") then ch "'" :: html_text rest 4
          else if has_prefix s (str "&lt;") then ch "<" :: html_text rest 3
          else if has_prefix s (str "&gt;") then ch ">" :: html_text rest 3
          else if has_prefix s (str "&#34;") then 34 :: html_text rest 4
          else c :: html_text rest 0
      end
  end.

(** The rune as shown: U+0000 is U+FFFD. *)
Definition shown (r : Z) : Z := if r =? 0 then rune_error else r.

Definition markup (b : Z) : bool := (b =? ch "<") || (b =? ch ">") || (b =? ch "'") || (b =? 34).

Lemma html_text_plain (a s : bytes) : ch "&" ∉ a -> html_text (a ++ s) 0 = a ++ html_text s 0.
Proof.
  induction a as [|c a IH]; [done|]. rewrite not_elem_of_cons. intros [Hc Ha]. cbn [app html_text].
  assert (forall p, has_prefix (c :: a ++ s) (ch "&" :: p) = false) as Hp.
  { intros p. cbn [has_prefix]. destruct (Z.eqb_spec c 38); [by subst|done]. }
  rewrite !Hp. by rewrite IH.
Qed.

Lemma html_escape_text r s : valid_rune r = true -> html_text (html_escape r ++ s) 0 = encode_rune (shown r) ++ html_text s 0.
Proof.
  intros Hv. unfold html_escape, shown. destruct (Z.eqb_spec r 0) as [->|H0].
  { rewrite html_text_plain; [done|]. apply contains_byte_false. by vm_compute. }
  destruct (Z.eqb_spec r 38) as [->|H1]; [done|]. destruct (Z.eqb_spec r 39) as [->|H2]; [done|].
  destruct (Z.eqb_spec r 60) as [->|H3]; [done|]. destruct (Z.eqb_spec r 62) as [->|H4]; [done|].
  destruct (Z.eqb_spec r 34) as [->|H5]; [done|]. apply html_text_plain.
  destruct (encode_rune_bytes r Hv) as [[_ ->]|[_ Hb]]; [by rewrite list_elem_of_singleton; congruence|].
  rewrite Forall_forall in Hb. intros Hin%Hb. lia.
Qed.

Lemma html_escape_clean r : valid_rune r = true -> Forall (fun b => markup b = false) (html_escape r).
Proof.
  intros Hv. unfold html_escape. destruct (Z.eqb_spec r 0); [by repeat (apply Forall_cons; split)|].
  destruct (Z.eqb_spec r 38); [by repeat (apply Forall_cons; split)|]. destruct (Z.eqb_spec r 39); [by repeat (apply Forall_cons; split)|].
  destruct (Z.eqb_spec r 60); [by repeat (apply Forall_cons; split)|]. destruct (Z.eqb_spec r 62); [by repeat (apply Forall_cons; split)|].
  destruct (Z.eqb_spec r 34); [by repeat (apply Forall_cons; split)|].
  destruct (encode_rune_bytes r Hv) as [[_ ->]|[_ Hb]]; unfold markup; [apply Forall_singleton; lia|]. eapply Forall_impl; [exact Hb|]. cbn. lia.
Qed.

Definition runes_ok (row : list cell) : Prop := Forall (fun c => valid_rune (c_rune c) = true) row.

Definition span_text (cs : list cell) : bytes := cs ≫= fun c => html_escape (c_rune c).

Lemma span_text_shown cs : runes_ok cs -> html_text (span_text cs) 0 = utf8 (shown ∘ c_rune <$> cs) /\ Forall (fun b => markup b = false) (span_text cs).
Proof.
  unfold span_text. induction 1 as [|c cs Hc _ [IH1 IH2]]; [by split; [|constructor]|]. cbn [mbind list_bind fmap list_fmap]. split.
  - rewrite html_escape_text by done. by rewrite IH1, utf8_cons.
  - apply Forall_app. split; [by apply html_escape_clean|done].
Qed.

(** A run of cells of one colour; the next run starts where the colour changes. *)
Definition same_colours (cs : list cell) : Prop := exists c cs', cs = c :: cs' /\ Forall (fun d => c_fg d = c_fg c /\ c_bg d = c_bg c) cs'.

Lemma span_run_spec fg bg row :
  fst (span_run fg bg row) ++ snd (span_run fg bg row) = row
  /\ Forall (fun d => c_fg d = fg /\ c_bg d = bg) (fst (span_run fg bg row)).
Proof.
  induction row as [|c row [IH1 IH2]]; [by split; [|constructor]|]. cbn [span_run]. destruct (Z.eqb_spec (c_fg c) fg), (Z.eqb_spec (c_bg c) bg); cbn [andb];
    try (by split; [|constructor]). destruct (span_run fg bg row) as [a b]. cbn in *. rewrite IH1. split; [done|by apply Forall_cons].
Qed.

Lemma runs_of_spec fuel row : (length row <= fuel)%nat -> concat (runs_of fuel row) = row /\ Forall same_colours (runs_of fuel row).
Proof.
  revert row. induction fuel as [|fuel IH]; intros row Hl; [destruct row; [by split; [|constructor]|cbn in Hl; lia]|].
  destruct row as [|c row]; [by split; [|constructor]|]. cbn [runs_of]. pose proof (span_run_spec (c_fg c) (c_bg c) (c :: row)) as [Happ Hf].
  cbn [span_run] in *. rewrite !Z.eqb_refl in *. cbn [andb] in *. destruct (span_run (c_fg c) (c_bg c) row) as [a b] eqn:E. cbn in *.
  injection Happ as Happ. assert (length b <= fuel)%nat as Hb by (rewrite <-Happ, length_app in Hl; lia).
  destruct (IH b Hb) as [IH1 IH2]. rewrite IH1, Happ. split; [done|]. apply Forall_cons in Hf as [_ Hf]. apply Forall_cons. split; [by exists c, a|done].
Qed.

Lemma drop_empty_spec g : exists k, g = drop_empty g ++ replicate k [].
Proof.
  unfold drop_empty. set (go := fix go (l : list (list cell)) := match l with [] :: l' => go l' | _ => l end).
  assert (forall l, exists k, l = replicate k [] ++ go l) as Hgo.
  { induction l as [|[|c r] l [k IH]]; [by exists 0%nat| |by exists 0%nat]. exists (S k). cbn [go replicate app]. congruence. }
  destruct (Hgo (reverse g)) as [k Hk]. exists k. apply (f_equal reverse) in Hk. rewrite reverse_involutive, reverse_app in Hk.
  rewrite Hk at 1. f_equal. rewrite reverse_replicate. done.
Qed.

(** The page shows the grid and nothing else: the HTML is, line by line, a sequence of spans, one per run of cells of
    one colour; the classes of a span are the run's colours; its text holds no character that means something in HTML, and a
    browser reads it as the runes of the run; the lines are the rows of the grid up to the last that is not empty. *)
Theorem html_shows_grid (s : screen) :
  Forall runes_ok (grid s) ->
  exists lines : list (list (list cell)),
    html s = lines ≫= (fun runs => (runs ≫= span_html) ++ [10])
    /\ (exists k, grid s = (@concat cell <$> lines) ++ replicate k [])
    /\ Forall (Forall same_colours) lines
    /\ Forall (Forall (fun cs => html_text (span_text cs) 0 = utf8 (shown ∘ c_rune <$> cs) /\ Forall (fun b => markup b = false) (span_text cs))) lines.
Proof.
  intros Hg. destruct (drop_empty_spec (grid s)) as [k Hk]. set (rows := drop_empty (grid s)) in *.
  assert (Forall runes_ok rows) as Hr by (rewrite Hk in Hg; by apply Forall_app in Hg as [? _]).
  exists ((fun row => runs_of (length row) row) <$> rows). split_and!.
  - unfold html. fold rows. clearbody rows. clear. induction rows as [|row rows IH]; [done|]. cbn. rewrite IH. done.
  - exists k. rewrite Hk at 1. f_equal. rewrite <-list_fmap_compose. symmetry. rewrite <-(list_fmap_id rows) at 2. apply list_fmap_ext.
    intros i row _. cbn. by apply runs_of_spec.
  - apply Forall_fmap, Forall_forall. intros row _. by apply runs_of_spec.
  - apply Forall_fmap. eapply Forall_impl; [exact Hr|]. intros row Hrow. apply Forall_forall. intros cs Hcs. apply span_text_shown.
    destruct (runs_of_spec (length row) row ltac:(done)) as [Hc _]. unfold runes_ok in *. rewrite <-Hc in Hrow. rewrite Forall_concat in Hrow.
    by eapply Forall_forall in Hrow.
Qed.

Lemma html_shows_grid_witness :
  exists s, feed (str "a<" ++ 27 :: str "[31mb") newScreen = Some s
  /\ exists lines, (exists k, grid s = (@concat cell <$> lines) ++ replicate k []) /\ Forall (Forall same_colours) lines.
Proof.
  eexists. split; [vm_compute; reflexivity|]. edestruct html_shows_grid as (lines & _ & Hk & Hs & _); [|by exists lines].
  apply Forall_singleton. repeat (apply Forall_cons; split; [done|]). constructor.
Defined.
