(* ===== verification/FileLink.v ===== *)
(** * Download links: [internal/filelink/filelink.go], [serve.go]

    Signed links to file-echo files, and the handler that serves them.  HMAC-SHA-256 is a parameter; base64 follows
    [encoding/base64]'s RawURLEncoding, which skips line breaks and does not look at the bits left over at the end.
    Times are nanoseconds since the epoch.  The theorems: a link is accepted until it expires and grants what was
    signed, nothing is accepted without the key's MAC of exactly what it grants, and whatever the database holds no file
    outside the root is served. *)

From Stdlib Require Import Ascii String ZArith Lia Sorted.
From stdpp Require Import base tactics list gmap strings sorting.
From S2P Require Import Prelude GoStrings StoreDB StoreEcho GoFiles.
Open Scope Z_scope.

(** ** encoding/base64, RawURLEncoding *)

Definition b64_char (n : Z) : Z :=
  if n <? 26 then 65 + n else if n <? 52 then 71 + n else if n <? 62 then n - 4 else if n =? 62 then 45 else 95.

Definition b64_value (c : Z) : option Z :=
  if between 65 90 c then Some (c - 65)
  else if between 97 122 c then Some (c - 71)
  else if between 48 57 c then Some (c + 4)
  else if c =? 45 then Some 62
  else if c =? 95 then Some 63
  else None.

Fixpoint b64_encode (s : bytes) : bytes :=
  match s with
  | a :: b :: c :: rest =>
      b64_char (a / 4) :: b64_char (a mod 4 * 16 + b / 16) :: b64_char (b mod 16 * 4 + c / 64) :: b64_char (c mod 64) :: b64_encode rest
  | [a; b] => [b64_char (a / 4); b64_char (a mod 4 * 16 + b / 16); b64_char (b mod 16 * 4)]
  | [a] => [b64_char (a / 4); b64_char (a mod 4 * 16)]
  | [] => []
  end.

Fixpoint b64_bytes (vs : list Z) : option bytes :=
  match vs with
  | v1 :: v2 :: v3 :: v4 :: rest =>
      out ← b64_bytes rest; Some (v1 * 4 + v2 / 16 :: v2 mod 16 * 16 + v3 / 4 :: v3 mod 4 * 64 + v4 :: out)
  | [v1; v2; v3] => Some [v1 * 4 + v2 / 16; v2 mod 16 * 16 + v3 / 4]
  | [v1; v2] => Some [v1 * 4 + v2 / 16]
  | [_] => None
  | [] => Some []
  end.

Definition line_break (c : Z) : bool := (c =? 10) || (c =? 13).

Definition b64_decode (s : bytes) : option bytes :=
  vs ← mapM b64_value (filter (fun c => line_break c = false) s); b64_bytes vs.

(** ** filelink.go *)

(** [hmac.New(sha256.New, key)]. *)
Class Hmac := { hmac_sha256 : bytes -> bytes -> bytes }.

Definition keyBytes : Z := 32.
Definition sigBytes : Z := 16.

Record Link := MkLink { lFileID : Z; lUserID : Z; lExpires : Z }.

(** [binary.BigEndian.PutUint64] of [uint64(n)], and back to an [int64]. *)
Definition be64 (n : Z) : bytes :=
  let u := n mod 18446744073709551616 in
  (fun k => Z.shiftr u (8 * k) mod 256) <$> [7; 6; 5; 4; 3; 2; 1; 0].
Definition from_be64 (s : bytes) : Z := wrap64 (fold_left (fun v b => v * 256 + b) (take 8 s) 0).

(** [l.Expires.Unix()] for whole seconds. *)
Definition payload (l : Link) : bytes := be64 (lFileID l) ++ be64 (lUserID l) ++ be64 (lExpires l).

(** [now.Before(time.Unix(sec, 0))]: seconds since year 1, which wrap around. *)
Definition unixToInternal : Z := 62135596800.
Definition before_unix (now sec : Z) : bool := wrap64 (now / 1000000000 + unixToInternal) <? wrap64 (sec + unixToInternal).

Section link.
Context `{Hmac}.

Definition mac (key payload : bytes) : bytes :=
  take (Z.to_nat sigBytes) (hmac_sha256 key (str "boar-filelink-v1" ++ [0] ++ payload)).

Definition Sign (key : bytes) (l : Link) : bytes :=
  b64_encode (payload l) ++ str "." ++ b64_encode (mac key (payload l)).

(** Every failure is [ErrInvalid]. *)
Definition Verify (key token : bytes) (now : Z) : option Link :=
  let '(p64, sig, ok) := cut token (ch ".") in
  if negb ok then None
  else
    match b64_decode p64 with
    | None => None
    | Some p =>
        if negb (len p =? 24) then None
        else
          match b64_decode sig with
          | None => None
          | Some s =>
              if negb (bool_decide (s = mac key p)) then None
              else
                let l := MkLink (from_be64 p) (from_be64 (drop 8 p)) (from_be64 (drop 16 p)) in
                if before_unix now (lExpires l) then Some l else None
          end
    end.

Inductive key_error := ErrKeyShort.

(** [LoadKey]; [rnd] is what [crypto/rand] gives. *)
Definition LoadKey (path rnd : bytes) (fs : FS) : result key_error bytes * FS :=
  match fs !! path with
  | Some key => if len key <? keyBytes then (Err ErrKeyShort, fs) else (Ok key, fs)
  | None => let key := take (Z.to_nat keyBytes) rnd in (Ok key, <[path := key]> fs)
  end.

(** ** serve.go *)

(** What is sent: an invalid link, nothing there, or the file and its name; a request with a Range header is not counted. *)
Inductive response := InvalidLink | NotFound | Serve (path content name : bytes).

Definition Handler (key root token range : bytes) (now : Z) (fs : FS) (db : DB) : response * DB :=
  let root := filepath_Clean root in
  match Verify key token now with
  | None => (InvalidLink, db)
  | Some l =>
      match FileByID (lFileID l) db with
      | Err _ => (NotFound, db)
      | Ok f =>
          let path := filepath_Join [root; f_path f] in
          if negb (has_prefix path (root ++ [slash])) then (NotFound, db)
          else
            match fs !! path with
            | None => (NotFound, db)
            | Some content =>
                (Serve path content (f_name f), if bool_decide (range = []) then CountDownload (f_id f) db else db)
            end
      end
  end.
End link.

(** * Theorems *)

(** ** Encoding *)

Lemma b64_value_char n : 0 <= n < 64 -> b64_value (b64_char n) = Some n /\ line_break (b64_char n) = false /\ b64_char n <> ch ".".
Proof.
  intros Hn. assert (forall k, (k < 64)%nat -> b64_value (b64_char (Z.of_nat k)) = Some (Z.of_nat k) /\ line_break (b64_char (Z.of_nat k)) = false /\ b64_char (Z.of_nat k) <> ch ".") as Hk.
  { intros k Hk. do 64 (destruct k as [|k]; [done|]). lia. }
  rewrite <-(Z2Nat.id n) by lia. apply Hk. lia.
Qed.

Lemma three_ind (P : bytes -> Prop) :
  P [] -> (forall a, P [a]) -> (forall a b, P [a; b]) -> (forall a b c s, P s -> P (a :: b :: c :: s)) -> forall s, P s.
Proof.
  intros P0 P1 P2 P3. assert (forall s, P s /\ (forall a, P (a :: s)) /\ forall a b, P (a :: b :: s)) as Hs; [|by intros s; apply Hs].
  induction s as [|c s (H0 & H1 & H2)]; split_and!; auto.
Qed.

Definition b64_clean (s : bytes) : Prop := Forall (fun c => line_break c = false /\ c <> ch ".") s.

Lemma b64_encode_clean s : bytes_ok s -> b64_clean (b64_encode s).
Proof.
  unfold byte_ok, b64_clean. induction s as [|a|a b|a b c s IH] using three_ind; intros Hs.
  - constructor.
  - apply Forall_cons in Hs as [Ha _]. cbn [b64_encode]. repeat (apply Forall_cons; split); try constructor;
      match goal with |- context [b64_char ?n] => destruct (b64_value_char n ltac:(dlia)) as (_ & ? & ?); done end.
  - apply Forall_cons in Hs as [Ha Hs]. apply Forall_cons in Hs as [Hb _]. cbn [b64_encode]. repeat (apply Forall_cons; split); try apply Forall_nil_2;
      match goal with |- context [b64_char ?n] => destruct (b64_value_char n ltac:(dlia)) as (_ & ? & ?); done end.
  - apply Forall_cons in Hs as [Ha Hs]. apply Forall_cons in Hs as [Hb Hs]. apply Forall_cons in Hs as [Hc Hs]. cbn [b64_encode].
    repeat (apply Forall_cons; split); [..|by apply IH];
      match goal with |- context [b64_char ?n] => destruct (b64_value_char n ltac:(dlia)) as (_ & ? & ?); done end.
Qed.

Lemma mapM_cons_Some {A B} (f : A -> option B) a b l k : f a = Some b -> mapM f l = Some k -> mapM f (a :: l) = Some (b :: k).
Proof. intros Ha Hl. cbn. by rewrite Ha, Hl. Qed.

(** The digits that [b64_encode] writes. *)
Fixpoint sextets (s : bytes) : list Z :=
  match s with
  | a :: b :: c :: rest => a / 4 :: a mod 4 * 16 + b / 16 :: b mod 16 * 4 + c / 64 :: c mod 64 :: sextets rest
  | [a; b] => [a / 4; a mod 4 * 16 + b / 16; b mod 16 * 4]
  | [a] => [a / 4; a mod 4 * 16]
  | [] => []
  end.

Lemma b64_encode_sextets s : b64_encode s = b64_char <$> sextets s.
Proof. induction s as [| | |a b c s IH] using three_ind; [done..|]. cbn [b64_encode sextets fmap list_fmap]. by rewrite IH. Qed.

Lemma sextets_range s : bytes_ok s -> Forall (fun v => 0 <= v < 64) (sextets s).
Proof.
  unfold byte_ok. induction s as [|a|a b|a b c s IH] using three_ind; intros Hs; [constructor|..]; repeat apply Forall_cons in Hs as [? Hs];
    cbn [sextets]; repeat (apply Forall_cons; split); try apply Forall_nil_2; try dlia. by apply IH.
Qed.

Lemma b64_bytes_sextets s : bytes_ok s -> b64_bytes (sextets s) = Some s.
Proof.
  unfold byte_ok. induction s as [|a|a b|a b c s IH] using three_ind; intros Hs; [done|..]; repeat apply Forall_cons in Hs as [? Hs]; cbn [sextets b64_bytes].
  - do 2 f_equal. dlia.
  - do 2 f_equal; [dlia|]. f_equal. dlia.
  - rewrite IH by done. cbn. do 2 f_equal; [dlia|]. f_equal; [dlia|]. f_equal. dlia.
Qed.

Lemma mapM_b64 vs : Forall (fun v => 0 <= v < 64) vs -> mapM b64_value (b64_char <$> vs) = Some vs.
Proof. induction 1 as [|v vs Hv _ IH]; [done|]. rewrite fmap_cons. apply mapM_cons_Some; [by apply b64_value_char|done]. Qed.

Lemma filter_all {A} (P : A -> Prop) `{forall x, Decision (P x)} l : Forall P l -> filter P l = l.
Proof. induction 1 as [|x l Hx _ IH]; [done|]. rewrite filter_cons_True by done. by rewrite IH. Qed.

Lemma b64_roundtrip s : bytes_ok s -> b64_decode (b64_encode s) = Some s.
Proof.
  intros Hs. unfold b64_decode. rewrite filter_all by (eapply Forall_impl; [by apply b64_encode_clean|]; by intros ? [? _]).
  rewrite b64_encode_sextets, mapM_b64 by by apply sextets_range. cbn. by apply b64_bytes_sextets.
Qed.

Lemma be64_ok n : bytes_ok (be64 n) /\ length (be64 n) = 8%nat.
Proof. unfold be64. split; [|done]. apply Forall_fmap, Forall_forall. intros k _. unfold byte_ok. cbn. apply Z.mod_pos_bound. lia. Qed.

Lemma be64_value n : fold_left (fun v b => v * 256 + b) (be64 n) 0 = n mod 18446744073709551616.
Proof.
  unfold be64. set (u := n mod _). assert (0 <= u < 18446744073709551616) as Hu by (apply Z.mod_pos_bound; lia). clearbody u.
  cbn [fmap list_fmap fold_left]. rewrite !Z.shiftr_div_pow2 by lia. change (2 ^ (8 * 7)) with 72057594037927936. change (2 ^ (8 * 6)) with 281474976710656.
  change (2 ^ (8 * 5)) with 1099511627776. change (2 ^ (8 * 4)) with 4294967296. change (2 ^ (8 * 3)) with 16777216. change (2 ^ (8 * 2)) with 65536.
  change (2 ^ (8 * 1)) with 256. change (2 ^ (8 * 0)) with 1. dlia.
Qed.

Lemma from_be64_be64 n rest : min_int <= n <= max_int -> from_be64 (be64 n ++ rest) = n.
Proof. intros Hn. unfold from_be64. rewrite take_app_length' by (symmetry; apply be64_ok). rewrite be64_value. by apply wrap64_mod. Qed.

(** Eight bytes are what [be64] writes for their value. *)
Lemma be64_from p : bytes_ok p -> length p = 8%nat -> be64 (from_be64 p) = p.
Proof.
  intros Hp Hl. do 9 (destruct p as [|? p]; try done). unfold byte_ok in Hp. repeat apply Forall_cons in Hp as [? Hp].
  unfold from_be64, be64. cbn [take fold_left]. set (v := _ * 256 + z6).
  assert (0 <= v < 18446744073709551616) as Hv by (subst v; lia).
  assert (wrap64 v mod 18446744073709551616 = v) as ->.
  { unfold wrap64, min_int. set (w := (v - -9223372036854775808) mod 18446744073709551616).
    assert (exists q, v + 9223372036854775808 = q * 18446744073709551616 + w) as [q Hq] by (exists ((v - -9223372036854775808) / 18446744073709551616); subst w; dlia).
    replace (w + -9223372036854775808) with (v + - q * 18446744073709551616) by lia. rewrite Z.mod_add by done. by apply Z.mod_small. }
  cbn [fmap list_fmap]. rewrite !Z.shiftr_div_pow2 by lia. change (2 ^ (8 * 7)) with 72057594037927936. change (2 ^ (8 * 6)) with 281474976710656.
  change (2 ^ (8 * 5)) with 1099511627776. change (2 ^ (8 * 4)) with 4294967296. change (2 ^ (8 * 3)) with 16777216. change (2 ^ (8 * 2)) with 65536.
  change (2 ^ (8 * 1)) with 256. change (2 ^ (8 * 0)) with 1. subst v. clear Hv Hp Hl.
  repeat match goal with |- _ :: _ = _ :: _ => apply (f_equal2 cons); [dlia|] end.
  done.
Qed.

Lemma payload_ok l : bytes_ok (payload l) /\ length (payload l) = 24%nat.
Proof.
  unfold payload. destruct (be64_ok (lFileID l)) as [H1 L1], (be64_ok (lUserID l)) as [H2 L2], (be64_ok (lExpires l)) as [H3 L3].
  split; [apply Forall_app; split; [done|]; by apply Forall_app|]. by rewrite !length_app, L1, L2, L3.
Qed.

(** What [Verify] reads from a payload. *)
Definition link_of (p : bytes) : Link := MkLink (from_be64 p) (from_be64 (drop 8 p)) (from_be64 (drop 16 p)).

Lemma from_be64_take p : from_be64 (take 8 p) = from_be64 p.
Proof. unfold from_be64. by rewrite take_take. Qed.

Lemma payload_link p : bytes_ok p -> length p = 24%nat -> payload (link_of p) = p.
Proof.
  intros Hp Hl. unfold payload, link_of. cbn [lFileID lUserID lExpires].
  rewrite <-(from_be64_take p), <-(from_be64_take (drop 8 p)).
  rewrite (be64_from (take 8 p)) by (try apply Forall_take; try rewrite length_take; done || lia).
  rewrite (be64_from (take 8 (drop 8 p))) by (first [by apply Forall_take, Forall_drop|rewrite length_take, length_drop; lia]).
  rewrite (be64_from (drop 16 p)) by (first [by apply Forall_drop|rewrite length_drop; lia]).
  rewrite <-(take_drop 8 p) at 4. f_equal. rewrite <-(take_drop 8 (drop 8 p)) at 2. by rewrite drop_drop.
Qed.

Lemma b64_bytes_ok n vs s : (length vs <= n)%nat -> Forall (fun v => 0 <= v < 64) vs -> b64_bytes vs = Some s -> bytes_ok s.
Proof.
  unfold byte_ok. revert vs s. induction n as [|n IH]; intros vs s Hn Hv.
  { destruct vs; [|cbn in Hn; lia]. intros [= <-]. constructor. }
  destruct vs as [|v1 [|v2 [|v3 [|v4 vs]]]]; cbn [b64_bytes]; repeat apply Forall_cons in Hv as [? Hv].
  - intros [= <-]. constructor.
  - done.
  - intros [= <-]. apply Forall_singleton. dlia.
  - intros [= <-]. apply Forall_cons; split; [dlia|apply Forall_singleton; dlia].
  - destruct (b64_bytes vs) as [out|] eqn:E; [|done]. intros [= <-]. cbn in Hn.
    do 3 (apply Forall_cons; split; [dlia|]). apply (IH vs); [lia|done|done].
Qed.

Lemma b64_value_range c v : b64_value c = Some v -> 0 <= v < 64.
Proof. unfold b64_value, between. repeat case_match; intros; simplify_eq; lia. Qed.

Lemma b64_decode_ok s out : b64_decode s = Some out -> bytes_ok out.
Proof.
  unfold b64_decode. intros (vs & Hvs & Hout)%bind_Some. eapply b64_bytes_ok; [done| |exact Hout].
  apply mapM_Some_1 in Hvs. clear Hout. induction Hvs as [|c v cs vs Hc _ IH]; [constructor|]. apply Forall_cons. split; [by eapply b64_value_range|done].
Qed.

Section link_theorems.
Context `{Hmac}.

Definition int64_link (l : Link) : Prop :=
  min_int <= lFileID l <= max_int /\ min_int <= lUserID l <= max_int /\ min_int <= lExpires l <= max_int.

Lemma link_of_payload l : int64_link l -> link_of (payload l) = l.
Proof.
  intros (H1 & H2 & H3). unfold link_of, payload. destruct (be64_ok (lFileID l)) as [_ L1], (be64_ok (lUserID l)) as [_ L2].
  rewrite from_be64_be64 by done. rewrite (drop_app_length' _ _ 8) by done. rewrite from_be64_be64 by done.
  change 16%nat with (8 + 8)%nat. rewrite <-drop_drop, (drop_app_length' _ _ 8), (drop_app_length' _ _ 8) by done.
  rewrite <-(app_nil_r (be64 (lExpires l))), from_be64_be64 by done. by destruct l.
Qed.

(** [mac] is made of bytes when the hash is. *)
Definition hmac_ok : Prop := forall key msg, bytes_ok (hmac_sha256 key msg).

Lemma Verify_Sign key l now : hmac_ok -> int64_link l ->
  Verify key (Sign key l) now = if before_unix now (lExpires l) then Some l else None.
Proof.
  intros Hh Hl. destruct (payload_ok l) as [Hp Hlen]. unfold Verify, Sign. change (str ".") with [46]. cbn [app].
  rewrite cut_app.
  2:{ intros Hin. pose proof (b64_encode_clean (payload l) Hp) as Hc. unfold b64_clean in Hc. rewrite Forall_forall in Hc. by destruct (Hc _ Hin). }
  cbn [negb]. rewrite b64_roundtrip by done. unfold len. rewrite Hlen. cbn [negb Z.eqb Z.of_nat].
  rewrite b64_roundtrip by (unfold mac; by apply Forall_take). rewrite bool_decide_eq_true_2 by done.
  change (MkLink _ _ _) with (link_of (payload l)). by rewrite link_of_payload.
Qed.

(** C33: Download links: a link signed with the key is accepted, and grants what was signed, exactly until its expiry; and a
    token is accepted only if its second part is the key's MAC of the 24 bytes of its first part, and then it grants
    what those bytes say, so that no part of a link can be edited without the key. *)
Theorem link_signed (key : bytes) (l : Link) (now : Z) (token : bytes) (l' : Link) :
  hmac_ok -> int64_link l ->
  (before_unix now (lExpires l) = true -> Verify key (Sign key l) now = Some l)
  /\ (before_unix now (lExpires l) = false -> Verify key (Sign key l) now = None)
  /\ (Verify key token now = Some l' ->
      before_unix now (lExpires l') = true
      /\ exists first second p, cut token (ch ".") = (first, second, true) /\ b64_decode first = Some p /\ len p = 24
         /\ b64_decode second = Some (mac key p) /\ l' = link_of p /\ payload l' = p).
Proof.
  intros Hh Hl. rewrite Verify_Sign by done. split_and!; [by intros ->|by intros ->|].
  unfold Verify. destruct (cut token (ch ".")) as [[first second] ok]. destruct ok; [cbn [negb]|done].
  destruct (b64_decode first) as [p|] eqn:E1; [|done]. destruct (Z.eqb_spec (len p) 24); [cbn [negb]|done].
  destruct (b64_decode second) as [s|] eqn:E2; [|done]. case_bool_decide as Es; [cbn [negb]|done]. subst s.
  destruct (before_unix now _) eqn:Eb; [|done]. intros [= <-]. split; [done|]. exists first, second, p.
  split_and!; try done. change (MkLink _ _ _) with (link_of p). apply payload_link; [by eapply b64_decode_ok|unfold len in *; lia].
Qed.
End link_theorems.

(** A keyed checksum as a concrete instance. *)
Definition demo_mac (key msg : bytes) : bytes := replicate 32 (fold_left (fun h b => (h * 31 + b) mod 251) (key ++ msg) 7).

Lemma link_signed_witness :
  let H := {| hmac_sha256 := demo_mac |} in
  @Verify H (str "k") (@Sign H (str "k") (MkLink 5 (-1) 100)) 99999999999 = Some (MkLink 5 (-1) 100)
  /\ @Verify H (str "k") (@Sign H (str "k") (MkLink 5 (-1) 100)) 100000000000 = None.
Proof.
  cbn zeta. set (H := {| hmac_sha256 := demo_mac |}).
  assert (@hmac_ok H) as Hh.
  { intros key msg. change (hmac_sha256 key msg) with (demo_mac key msg). unfold demo_mac. apply Forall_replicate. unfold byte_ok.
    generalize (key ++ msg). intros s. assert (forall h, 0 <= h < 251 -> 0 <= fold_left (fun h b => (h * 31 + b) mod 251) s h < 256) as Hs; [|apply Hs; lia].
    induction s as [|b s IH]; intros h Hb; [cbn; lia|]. apply IH. apply Z.mod_pos_bound. lia. }
  assert (int64_link (MkLink 5 (-1) 100)) as Hl by (by vm_compute).
  split.
  - apply (link_signed (H:=H) (str "k") (MkLink 5 (-1) 100) 99999999999 [] (MkLink 0 0 0) Hh Hl). by vm_compute.
  - apply (link_signed (H:=H) (str "k") (MkLink 5 (-1) 100) 100000000000 [] (MkLink 0 0 0) Hh Hl). by vm_compute.
Defined.

(** ** Where files are served from *)

Lemma push_rooted st e : Forall plain st -> slash ∉ e -> Forall plain (push_elem true st e).
Proof.
  intros Hst He. unfold push_elem. case_bool_decide as H1; [done|]. cbn [orb]. case_bool_decide as H2; [done|].
  case_bool_decide as H3; [|by apply Forall_cons].
  destruct Hst as [|top st' Ht Hst]; [constructor|]. case_bool_decide as H4; [|done]. by destruct Ht as (_ & _ & ? & _).
Qed.

Lemma elements_plain p : rooted p = true -> Forall plain (elements p).
Proof.
  intros Hr. unfold elements. rewrite Hr. apply Forall_reverse. pose proof (split_byte_free p slash) as Hs. revert Hs.
  generalize (split_byte p slash). intros es Hes. assert (Forall plain ([] : list bytes)) as Hst by constructor. revert Hst. generalize ([] : list bytes).
  induction Hes as [|e es He _ IH]; intros st Hst; [done|]. cbn [foldl]. by apply IH, push_rooted.
Qed.

Lemma clean_abs_prefix es xs : Forall plain es -> Forall plain xs -> es <> [] ->
  has_prefix (clean_abs xs) (clean_abs es ++ [slash]) = true -> exists ys, ys <> [] /\ xs = es ++ ys.
Proof.
  intros He Hx Hne [t Ht]%has_prefix_spec. unfold clean_abs in Ht. cbn [app] in Ht. injection Ht as Ht. rewrite <-app_assoc in Ht. cbn [app] in Ht.
  assert (forall zs, Forall plain zs -> Forall (fun e => slash ∉ e) zs) as Hfree by (intros zs Hz; eapply Forall_impl; [exact Hz|]; by intros e (_ & _ & _ & ?)).
  apply Hfree in He as Hef. apply Hfree in Hx as Hxf.
  assert (split_byte (join xs [slash]) slash = es ++ split_byte t slash) as E.
  { rewrite Ht. clear -Hef Hne. induction Hef as [|e es He Hes IH]; [done|]. destruct es as [|e2 es].
    - cbn [join app]. by rewrite split_byte_app.
    - change (join (e :: e2 :: es) [slash]) with (e ++ [slash] ++ join (e2 :: es) [slash]). rewrite <-!app_assoc. cbn [app].
      rewrite split_byte_app by done. f_equal. by apply IH. }
  destruct xs as [|x xs].
  { cbn in Ht. by destruct (join es [slash]). }
  rewrite split_join in E by done. exists (split_byte t slash). split; [apply split_byte_nonempty|done].
Qed.

(** The download server stays in its root: for a root that is a clean absolute path, whatever paths the database
    holds, a file is served only for a valid link to a row of the database, from a path made of the root's elements and
    at least one more plain one below them; and the database changes only by counting that download. *)
Theorem served_inside_root `{Hmac} (es : list bytes) (key token range : bytes) (now : Z) (fs : FS) (db : DB) :
  Forall plain es -> es <> [] ->
  match Handler key (clean_abs es) token range now fs db with
  | (Serve path content name, db') =>
      exists l f below, Verify key token now = Some l /\ FileByID (lFileID l) db = Ok f /\ name = f_name f
        /\ Forall plain below /\ below <> [] /\ path = clean_abs (es ++ below) /\ fs !! path = Some content
        /\ (db' = db \/ db' = CountDownload (f_id f) db)
  | (_, db') => db' = db
  end.
Proof.
  intros Hes Hne. unfold Handler. rewrite Clean_clean by done. destruct (Verify key token now) as [l|] eqn:Ev; [|done].
  destruct (FileByID (lFileID l) db) as [f|] eqn:Ef; [|done]. set (path := filepath_Join _).
  destruct (has_prefix path (clean_abs es ++ [slash])) eqn:Ep; [cbn [negb]|done]. destruct (fs !! path) as [content|] eqn:Ec; [|done].
  assert (path = clean_abs (elements path) /\ Forall plain (elements path)) as [Epath Hpl].
  { assert (exists p, path = filepath_Clean p /\ rooted p = true) as (p & Hp & Hr).
    { subst path. unfold filepath_Join. rewrite filter_cons_True by done. case_bool_decide as Hf; [done|]. eexists. split; [done|].
      unfold clean_abs at 1. destruct (filter _ _); done. }
    pose proof (elements_plain p Hr) as Hel. assert (path = clean_abs (elements p)) as Epp by (rewrite Hp; unfold filepath_Clean, of_elements; by rewrite Hr).
    rewrite Epp. by rewrite elements_clean. }
  rewrite Epath in Ep. apply clean_abs_prefix in Ep as (ys & Hys & E); [|done..]. rewrite E in Epath, Hpl. apply Forall_app in Hpl as [_ Hpl].
  exists l, f, ys. split_and!; try done. case_bool_decide; [by right|by left].
Qed.

Lemma served_inside_root_witness :
  let H := {| hmac_sha256 := demo_mac |} in
  let db := on_files (fun _ => [MkFile 5 1 (str "b.zip") (str "x/../a/b.zip") 2 [] [] [] [] [] 0 0]) fresh_db in
  match @Handler H (str "k") (clean_abs [str "srv"]) (@Sign H (str "k") (MkLink 5 7 100)) [] 1 {[str "/srv/a/b.zip" := str "PK"]} db with
  | (Serve path _ _, db') => (exists below, path = clean_abs ([str "srv"] ++ below)) /\ (db' = db \/ exists i, db' = CountDownload i db)
  | _ => False
  end.
Proof.
  cbn zeta. set (H := {| hmac_sha256 := demo_mac |}). set (db := on_files _ fresh_db).
  pose proof (served_inside_root (H:=H) [str "srv"] (str "k") (@Sign H (str "k") (MkLink 5 7 100)) [] 1 {[str "/srv/a/b.zip" := str "PK"]} db
    (all_plain [str "srv"] ltac:(by vm_compute)) ltac:(done)) as Hs.
  assert (match fst (@Handler H (str "k") (clean_abs [str "srv"]) (@Sign H (str "k") (MkLink 5 7 100)) [] 1 {[str "/srv/a/b.zip" := str "PK"]} db) with Serve _ _ _ => true | _ => false end = true) as He
    by (vm_compute; done).
  destruct (Handler _ _ _ _ _ _ _) as [[| |path content name] db']; [done..|].
  destruct Hs as (l & f & below & _ & _ & _ & _ & _ & -> & _ & [->| ->]); split; eauto.
Defined.
