(* ===== verification/GoMime.v ===== *)
(** * Email text: what [internal/mailer] and [cmd/boar-ftn] use of Go's standard library

    [mime.WordEncoder], [net/mail]'s [Address.String] and [mime/quotedprintable]'s [Writer], executable.  The lemmas: an
    encoded subject is a row of encoded words of at most 75 characters, none of which splits a character, that spell the
    subject; a quoted-printable text has lines of at most 76 printable characters without blanks at the ends and decodes
    to what was written with its line ends as CRLF; neither, nor an address, holds a line break of its own. *)

From Stdlib Require Import Ascii String ZArith Lia.
From stdpp Require Import base tactics list strings.
From S2P Require Import Prelude GoStrings Term FileLink.
Open Scope Z_scope.

(** ** package mime *)

(** A digit of [upperhex]. *)
Definition upper_hex (d : Z) : Z := if d <? 10 then 48 + d else 55 + d.
Definition escaped (b : Z) : bytes := [61; upper_hex (b / 16); upper_hex (b mod 16)].

Definition needs_encoding (s : bytes) : bool := existsb (fun b => ((b <? 32) || (126 <? b)) && negb (b =? 9)) s.

(** The bytes that a Q word holds as they are, and the space. *)
Definition q_plain (b : Z) : bool := between 32 126 b && negb (b =? 61) && negb (b =? 63) && negb (b =? 95).

Definition q_byte (b : Z) : bytes := if b =? 32 then [95] else if q_plain b then [b] else escaped b.
Definition q_string (s : bytes) : bytes := s ≫= q_byte.

Definition maxContentLen : Z := 63.
Definition maxBase64Len : Z := 45.

(** The word of an encoding: ['q'] or ['b']. *)
Definition encoded_word (e : Z) (content : bytes) : bytes := str "=?utf-8?" ++ [e; 63] ++ content ++ str "?=".

(** The width of the first character of [s] and of its encoding. *)
Definition q_width (s : bytes) : nat * Z :=
  match s with
  | [] => (1%nat, 1)
  | b :: _ => if q_plain b then (1%nat, 1) else let n := snd (decode_rune s) in (n, 3 * Z.of_nat n)
  end.

(** [qEncode]: the texts of the words, [cur] the one being written, of encoded length [used]. *)
Fixpoint q_words (fuel : nat) (s cur : bytes) (used : Z) : list bytes :=
  match fuel, s with
  | S fuel, _ :: _ =>
      let '(n, w) := q_width s in
      if maxContentLen <? used + w then cur :: q_words fuel (drop n s) (take n s) w
      else q_words fuel (drop n s) (cur ++ take n s) (used + w)
  | _, _ => [cur]
  end.

(** [mime.QEncoding.Encode("utf-8", s)] *)
Definition QEncode (s : bytes) : bytes :=
  if needs_encoding s then join ((fun w => encoded_word (ch "q") (q_string w)) <$> q_words (length s) s [] 0) [32] else s.

(** [base64.StdEncoding] *)
Definition std_char (c : Z) : Z := if c =? ch "-" then ch "+" else if c =? ch "_" then ch "/" else c.
Definition b64_std (s : bytes) : bytes := (std_char <$> b64_encode s) ++ replicate ((3 - length s mod 3) mod 3) 61.

(** [bEncode]: the texts of the words. *)
Fixpoint b_words (fuel : nat) (s cur : bytes) : list bytes :=
  match fuel, s with
  | S fuel, _ :: _ =>
      let n := snd (decode_rune s) in
      if len cur + Z.of_nat n <=? maxBase64Len then b_words fuel (drop n s) (cur ++ take n s)
      else cur :: b_words fuel (drop n s) (take n s)
  | _, _ => [cur]
  end.

(** [mime.BEncoding.Encode("utf-8", s)] *)
Definition BEncode (s : bytes) : bytes :=
  if negb (needs_encoding s) then s
  else if len (b64_std s) <=? maxContentLen then encoded_word (ch "b") (b64_std s)
  else join ((fun w => encoded_word (ch "b") (b64_std w)) <$> b_words (length s) s []) [32].

(** ** package net/mail *)

Definition isVchar (r : Z) : bool := between 33 126 r || (128 <=? r).
Definition isWSP (r : Z) : bool := (r =? 32) || (r =? 9).
Definition isQtext (r : Z) : bool := negb (r =? 92) && negb (r =? 34) && isVchar r.
Definition isAtext (r : Z) : bool := if contains_byte (str ".()[];@\," ++ str "<>:" ++ [34]) r then false else isVchar r.

Definition quoteString (s : bytes) : bytes :=
  34 :: (runes s ≫= (fun r => if isQtext r || isWSP r then encode_rune r else if isVchar r then 92 :: encode_rune r else [])) ++ [34].

(** Whether every rune of a local part is an atom's, or a dot between two of them: [prev] is the byte before. *)
Fixpoint dot_atom_go (fuel : nat) (prev : option Z) (s : bytes) : bool :=
  match fuel, s with
  | S fuel, b :: rest =>
      let '(r, n) := decode_rune s in
      (isAtext r || ((r =? 46) && match prev with Some p => negb (p =? 46) | None => false end && negb (bool_decide (rest = []))))
      && dot_atom_go fuel (last (take n s)) (drop n s)
  | _, _ => true
  end.

Definition mail_address_String (name address : bytes) : bytes :=
  let at_ := last_index_byte address 64 in
  let '(local, domain) := if at_ <? 0 then (address, []) else (slice_to address at_, slice_from address (at_ + 1)) in
  let local := if dot_atom_go (length local) None local then local else quoteString local in
  let s := str "<" ++ local ++ str "@" ++ domain ++ str ">" in
  if bool_decide (name = []) then s
  else if forallb (fun r => (isVchar r || isWSP r) && (r <? 128)) (runes name) then quoteString name ++ [32] ++ s
  else if contains_any name ([34] ++ str "#$%&'(),.:;<>@[]^`{|}~") then BEncode name ++ [32] ++ s
  else QEncode name ++ [32] ++ s.

(** ** package mime/quotedprintable *)

Definition lineMaxLen : Z := 76.
Definition is_blank (b : Z) : bool := (b =? 32) || (b =? 9).

(** The writer: what is flushed, the line being written, and whether the last byte was a carriage return. *)
Record qp_writer := MkQP { qp_out : bytes; qp_line : bytes; qp_cr : bool }.

Definition NewWriter : qp_writer := MkQP [] [] false.

Definition flush (w : qp_writer) : qp_writer := MkQP (qp_out w ++ qp_line w) [] (qp_cr w).
Definition insertCRLF (w : qp_writer) : qp_writer := flush (MkQP (qp_out w) (qp_line w ++ [13; 10]) (qp_cr w)).
Definition insertSoftLineBreak (w : qp_writer) : qp_writer := insertCRLF (MkQP (qp_out w) (qp_line w ++ [61]) (qp_cr w)).

Definition qp_encode (b : Z) (w : qp_writer) : qp_writer :=
  let w := if lineMaxLen - 1 - len (qp_line w) <? 3 then insertSoftLineBreak w else w in
  MkQP (qp_out w) (qp_line w ++ escaped b) (qp_cr w).

Definition checkLastByte (w : qp_writer) : qp_writer :=
  match last (qp_line w) with
  | Some b => if is_blank b then qp_encode b (MkQP (qp_out w) (take (length (qp_line w) - 1) (qp_line w)) (qp_cr w)) else w
  | None => w
  end.

(** [Writer.write], of one byte. *)
Definition qp_write (b : Z) (w : qp_writer) : qp_writer :=
  if (b =? 10) || (b =? 13) then
    if qp_cr w && (b =? 10) then MkQP (qp_out w) (qp_line w) false
    else let w := insertCRLF (checkLastByte w) in MkQP (qp_out w) (qp_line w) (b =? 13)
  else
    let w := if len (qp_line w) =? lineMaxLen - 1 then insertSoftLineBreak w else w in
    MkQP (qp_out w) (qp_line w ++ [b]) false.

(** The bytes that [Write] does not escape. *)
Definition qp_simple (b : Z) : bool := (between 33 126 b && negb (b =? 61)) || is_blank b || (b =? 10) || (b =? 13).

Definition qp_Write (p : bytes) (w : qp_writer) : qp_writer := foldl (fun w b => if qp_simple b then qp_write b w else qp_encode b w) w p.
Definition qp_Close (w : qp_writer) : bytes := qp_out (flush (checkLastByte w)).

(** The text of one [Write], closed. *)
Definition quoted_printable (p : bytes) : bytes := qp_Close (qp_Write p NewWriter).

(** * Lemmas *)

(** No byte of a text begins a new line. *)
Definition one_line (s : bytes) : Prop := Forall (fun b => b <> 13 /\ b <> 10) s.

Lemma graphic_one_line s : Forall (fun b => graphic b = true) s -> one_line s.
Proof. intros Hs. eapply Forall_impl; [exact Hs|]. intros b Hb. unfold graphic, between in Hb. cbn in Hb. lia. Qed.

Lemma one_line_join ls : Forall one_line ls -> one_line (join ls [32]).
Proof.
  induction 1 as [|l ls Hl Hls IH]; [constructor|]. cbn. destruct ls; [done|].
  apply Forall_app. split; [done|]. constructor; [lia|done].
Qed.

(** ** Characters *)

(** [s] in characters, as [q_words] takes them. *)
Fixpoint characters_go (fuel : nat) (s : bytes) : list bytes :=
  match fuel, s with
  | S fuel, _ :: _ => let n := fst (q_width s) in take n s :: characters_go fuel (drop n s)
  | _, _ => []
  end.
Definition characters (s : bytes) : list bytes := characters_go (length s) s.

Lemma q_width_spec b s : (1 <= fst (q_width (b :: s)) <= length (b :: s))%nat.
Proof.
  unfold q_width. destruct (q_plain b); [cbn; lia|].
  pose proof (decode_rune_width (b :: s) ltac:(done)). by destruct (decode_rune (b :: s)).
Qed.

Lemma concat_characters_go fuel s : (length s <= fuel)%nat -> concat (characters_go fuel s) = s.
Proof.
  revert s. induction fuel as [|fuel IH]; intros [|b s] Hl; cbn [length] in Hl; try done; try lia.
  cbn [characters_go]. pose proof (q_width_spec b s). cbn [concat]. rewrite IH; [apply take_drop|].
  rewrite length_drop. cbn [length] in *. lia.
Qed.

Lemma concat_characters s : concat (characters s) = s.
Proof. by apply concat_characters_go. Qed.

Lemma q_string_app s t : q_string (s ++ t) = q_string s ++ q_string t.
Proof. unfold q_string. by rewrite bind_app. Qed.

Lemma q_byte_len b : len (q_byte b) <= 3.
Proof. unfold q_byte, escaped, len. destruct (b =? 32), (q_plain b); cbn [length]; lia. Qed.

Lemma q_string_len s : len (q_string s) <= 3 * len s.
Proof.
  induction s as [|b s IH]; [done|]. change (q_string (b :: s)) with (q_byte b ++ q_string s).
  rewrite len_app, len_cons. pose proof (q_byte_len b). lia.
Qed.

Lemma q_width_len b s : len (q_string (take (fst (q_width (b :: s))) (b :: s))) <= snd (q_width (b :: s)).
Proof.
  unfold q_width. destruct (q_plain b) eqn:Eb; cbn [fst snd].
  - cbn [take]. unfold q_string. cbn. rewrite app_nil_r. unfold q_byte. rewrite Eb. by destruct (b =? 32).
  - pose proof (q_string_len (take (snd (decode_rune (b :: s))) (b :: s))) as Hl. etransitivity; [exact Hl|].
    unfold len. rewrite length_take. pose proof (decode_rune_width (b :: s) ltac:(done)). lia.
Qed.

(** The words are groups of whole characters, each short enough. *)
Lemma q_words_groups fuel s cur used : (length s <= fuel)%nat -> len (q_string (concat cur)) <= used -> used <= maxContentLen ->
  (forall b t, snd (q_width (b :: t)) <= maxContentLen) ->
  exists groups, concat groups = cur ++ characters_go fuel s
    /\ q_words fuel s (concat cur) used = (fun g => concat g) <$> groups
    /\ Forall (fun g => len (q_string (concat g)) <= maxContentLen) groups.
Proof.
  intros Hl Hu Hm Hw. revert s cur used Hl Hu Hm. induction fuel as [|fuel IH]; intros [|b s] cur used Hl Hu Hm; cbn [length] in Hl; try lia.
  1, 2: exists [cur]; cbn; rewrite !app_nil_r; split_and!; [done|done|constructor; [lia|constructor]].
  cbn [q_words characters_go]. pose proof (q_width_spec b s) as Hn. pose proof (q_width_len b s) as Hc. specialize (Hw b s).
  destruct (q_width (b :: s)) as [n w]. cbn [fst snd] in *. set (t := take n (b :: s)) in *.
  assert (length (drop n (b :: s)) <= fuel)%nat as Hd by (rewrite length_drop; cbn [length] in *; lia).
  destruct (Z.ltb_spec maxContentLen (used + w)).
  - destruct (IH (drop n (b :: s)) [t] w Hd) as (gs & E1 & E2 & E3); [by cbn [concat]; rewrite app_nil_r|done|].
    exists (cur :: gs). cbn [concat] in E2. rewrite app_nil_r in E2. split_and!.
    + cbn [concat]. by rewrite E1.
    + cbn [fmap list_fmap]. by rewrite E2.
    + constructor; [lia|done].
  - destruct (IH (drop n (b :: s)) (cur ++ [t]) (used + w) Hd) as (gs & E1 & E2 & E3).
    + rewrite concat_app, q_string_app, len_app. cbn [concat]. rewrite app_nil_r. lia.
    + lia.
    + exists gs. rewrite concat_app in E2. cbn [concat] in E2. rewrite app_nil_r in E2. split_and!; [|done|done].
      rewrite E1. by rewrite <-app_assoc.
Qed.

Lemma q_width_small b t : snd (q_width (b :: t)) <= 12.
Proof.
  unfold q_width. destruct (q_plain b); [cbn; lia|]. cbn [snd].
  enough (snd (decode_rune (b :: t)) <= 4)%nat by lia. destruct t as [|b1 [|b2 [|b3 t]]]; cbn [decode_rune]; repeat case_match; cbn; lia.
Qed.

(** ** Reading the encodings back *)

Definition hex_val (c : Z) : Z := if c <? 58 then c - 48 else c - 55.

(** The text of a Q word. *)
Fixpoint q_decode (s : bytes) : bytes :=
  match s with
  | [] => []
  | c :: s1 =>
      if c =? 61 then match s1 with h :: l :: s2 => 16 * hex_val h + hex_val l :: q_decode s2 | _ => [] end
      else (if c =? 95 then 32 else c) :: q_decode s1
  end.

Lemma upper_hex_spec d : 0 <= d < 16 -> graphic (upper_hex d) = true /\ hex_val (upper_hex d) = d /\ is_blank (upper_hex d) = false.
Proof.
  intros Hd. unfold upper_hex, hex_val, graphic, between, is_blank. destruct (Z.ltb_spec d 10).
  - destruct (Z.ltb_spec (48 + d) 58); lia.
  - destruct (Z.ltb_spec (55 + d) 58); lia.
Qed.

Lemma escaped_graphic b : byte_ok b -> Forall (fun c => graphic c = true) (escaped b).
Proof.
  intros Hb. unfold byte_ok in Hb. repeat constructor; apply upper_hex_spec; dlia.
Qed.

Lemma escaped_value b : byte_ok b -> 16 * hex_val (upper_hex (b / 16)) + hex_val (upper_hex (b mod 16)) = b.
Proof.
  intros Hb. unfold byte_ok in Hb. destruct (upper_hex_spec (b / 16)) as (_ & -> & _); [dlia|]. destruct (upper_hex_spec (b mod 16)) as (_ & -> & _); dlia.
Qed.

Lemma q_decode_byte b s : byte_ok b -> q_decode (q_byte b ++ s) = b :: q_decode s.
Proof.
  intros Hb. unfold q_byte. destruct (Z.eqb_spec b 32) as [->|]; [done|]. destruct (q_plain b) eqn:Eb.
  - unfold q_plain, between in Eb. cbn [app q_decode]. destruct (Z.eqb_spec b 61); [lia|]. destruct (Z.eqb_spec b 95); [lia|done].
  - cbn [escaped app q_decode]. cbn [Z.eqb Pos.eqb]. f_equal. by apply escaped_value.
Qed.

Lemma q_decode_string s : bytes_ok s -> q_decode (q_string s) = s.
Proof. induction 1 as [|b s Hb Hs IH]; [done|]. change (q_string (b :: s)) with (q_byte b ++ q_string s). rewrite q_decode_byte by done. by f_equal. Qed.

Lemma q_string_graphic s : bytes_ok s -> Forall (fun b => graphic b = true) (q_string s).
Proof.
  induction 1 as [|b s Hb Hs IH]; [constructor|]. change (q_string (b :: s)) with (q_byte b ++ q_string s). apply Forall_app. split; [|done].
  unfold q_byte. destruct (Z.eqb_spec b 32); [by repeat constructor|]. destruct (q_plain b) eqn:Eb; [|by apply escaped_graphic].
  repeat constructor. unfold q_plain, graphic, between in *. lia.
Qed.

Lemma encoded_word_len e s : len (encoded_word e s) = len s + 12.
Proof. unfold encoded_word. rewrite !len_app. unfold len. cbn [length]. lia. Qed.

(** An encoded subject: words of whole characters, each of at most 75 printable characters, that spell the subject. *)
Lemma QEncode_words s : bytes_ok s -> needs_encoding s = true ->
  exists groups, concat groups = characters s
    /\ QEncode s = join ((fun g => encoded_word (ch "q") (q_string (concat g))) <$> groups) [32]
    /\ Forall (fun g => len (encoded_word (ch "q") (q_string (concat g))) <= 75 /\ q_decode (q_string (concat g)) = concat g) groups.
Proof.
  intros Hs Hn. destruct (q_words_groups (length s) s [] 0) as (gs & E1 & E2 & E3); [done|done|done| |].
  { intros b t. pose proof (q_width_small b t). unfold maxContentLen. lia. }
  exists gs. split; [done|]. split.
  - unfold QEncode. rewrite Hn. cbn [concat] in E2. rewrite E2. by rewrite <-list_fmap_compose.
  - assert (bytes_ok (concat (concat gs))) as Hb by (rewrite E1; cbn [app]; fold (characters s); by rewrite concat_characters).
    clear E1 E2. induction E3 as [|g gs Hg _ IH]; [constructor|]. cbn [concat] in Hb. rewrite concat_app in Hb. apply Forall_app in Hb as [Hb1 Hb2].
    constructor; [|by apply IH]. split; [|by apply q_decode_string]. rewrite encoded_word_len. unfold maxContentLen in Hg. lia.
Qed.

Lemma plain_one_line s : needs_encoding s = false -> one_line s.
Proof.
  unfold needs_encoding. induction s as [|b s IH]; [constructor|]. cbn [existsb]. intros [Hb Hs]%orb_false_iff. constructor; [lia|by apply IH].
Qed.

Lemma encoded_word_one_line e s : e <> 13 -> e <> 10 -> one_line s -> one_line (encoded_word e s).
Proof. intros. unfold encoded_word. repeat (apply Forall_app; split); try done; repeat constructor; lia. Qed.

Lemma QEncode_one_line s : bytes_ok s -> one_line (QEncode s).
Proof.
  intros Hs. destruct (needs_encoding s) eqn:En; [|unfold QEncode; rewrite En; by apply plain_one_line].
  destruct (QEncode_words s Hs En) as (gs & E1 & -> & _). apply one_line_join, Forall_fmap, Forall_forall. intros g Hg. cbn.
  apply encoded_word_one_line; [lia|lia|]. apply graphic_one_line, q_string_graphic.
  assert (bytes_ok (concat (concat gs))) as Hb by (rewrite E1, concat_characters; done).
  rewrite Forall_concat in Hb. apply Forall_concat. rewrite Forall_forall in *. intros x Hx. apply Hb.
  apply list_elem_of_In, in_concat. exists g. by rewrite <-!list_elem_of_In.
Qed.

(** ** Addresses *)

Lemma b64_std_one_line s : bytes_ok s -> one_line (b64_std s).
Proof.
  intros Hs. unfold b64_std. apply Forall_app. split; [|apply Forall_replicate; lia].
  apply Forall_fmap. eapply Forall_impl; [exact (b64_encode_clean s Hs)|]. intros c [Hc _]. cbn. unfold std_char, line_break in *.
  destruct (c =? 45); [lia|]. destruct (c =? 95); [lia|]. destruct (Z.eqb_spec c 13), (Z.eqb_spec c 10); done.
Qed.

Lemma b_words_bytes fuel s cur : bytes_ok s -> bytes_ok cur -> Forall (Forall byte_ok) (b_words fuel s cur).
Proof.
  revert s cur. induction fuel as [|fuel IH]; intros [|b s] cur Hs Hc; cbn [b_words]; try by repeat constructor.
  destruct (_ <=? _).
  - apply IH; [by apply Forall_drop|]. apply Forall_app. split; [done|by apply Forall_take].
  - constructor; [done|]. apply IH; [by apply Forall_drop|by apply Forall_take].
Qed.

Lemma BEncode_one_line s : bytes_ok s -> one_line (BEncode s).
Proof.
  intros Hs. unfold BEncode. destruct (needs_encoding s) eqn:En; cbn [negb]; [|by apply plain_one_line].
  destruct (_ <=? _); [apply encoded_word_one_line; [lia|lia|by apply b64_std_one_line]|].
  apply one_line_join, Forall_fmap. eapply Forall_impl; [by apply b_words_bytes|]. intros w Hw. cbn.
  apply encoded_word_one_line; [lia|lia|by apply b64_std_one_line].
Qed.

Lemma quoteString_one_line s : bytes_ok s -> one_line (quoteString s).
Proof.
  intros Hs. unfold quoteString. constructor; [lia|]. apply Forall_app. split; [|by repeat constructor].
  induction (Term.runes_valid s Hs) as [|r rs Hr _ IH]; [constructor|]. rewrite bind_cons. apply Forall_app. split; [|exact IH].
  assert (isVchar r = true \/ isWSP r = true -> one_line (encode_rune r)) as He.
  { intros Hc. replace (encode_rune r) with (utf8 [r]) by (cbn; by rewrite app_nil_r). apply Term.utf8_bytes; [lia|].
    constructor; [|done]. split; [done|]. unfold isVchar, isWSP, between in Hc. lia. }
  destruct (isQtext r) eqn:Eq; cbn [orb].
  - apply He. left. unfold isQtext in Eq. by apply andb_prop in Eq as [_ ?].
  - destruct (isWSP r) eqn:Ew; [apply He; by right|]. destruct (isVchar r) eqn:Ev; [|constructor]. constructor; [lia|]. apply He. by left.
Qed.

Lemma address_one_line name address : bytes_ok name -> bytes_ok address -> one_line address -> one_line (mail_address_String name address).
Proof.
  intros Hn Hb Ha. unfold mail_address_String.
  destruct (if last_index_byte address 64 <? 0 then _ else _) as [local domain] eqn:E.
  assert (one_line local /\ one_line domain /\ bytes_ok local) as (Hl & Hd & Hlb).
  { destruct (_ <? 0); injection E as <- <-; split_and!; try done; try constructor; first [by apply Forall_take|by apply Forall_drop]. }
  set (l := if dot_atom_go _ _ _ then _ else _). assert (one_line l) as Hl' by (unfold l; destruct (dot_atom_go _ _ _); [done|by apply quoteString_one_line]).
  assert (one_line (str "<" ++ l ++ str "@" ++ domain ++ str ">")) as Hs.
  { repeat (apply Forall_app; split); try done; repeat constructor; lia. }
  destruct (bool_decide (name = [])); [done|].
  destruct (forallb _ _); [|destruct (contains_any name _)]; (apply Forall_app; split; [|constructor; [lia|done]]);
    [by apply quoteString_one_line|by apply BEncode_one_line|by apply QEncode_one_line].
Qed.

(** ** Quoted-printable *)

(** A reader of RFC 2045: an escape, a soft line break, or the byte itself. *)
Fixpoint qp_decode (s : bytes) : bytes :=
  match s with
  | [] => []
  | b :: s1 =>
      if b =? 61 then
        match s1 with
        | h :: l :: s2 => if (h =? 13) && (l =? 10) then qp_decode s2 else 16 * hex_val h + hex_val l :: qp_decode s2
        | _ => []
        end
      else b :: qp_decode s1
  end.

(** [s] reads as [d], whatever follows. *)
Definition spells (s d : bytes) : Prop := forall t, qp_decode (s ++ t) = d ++ qp_decode t.

Lemma spells_nil : spells [] [].
Proof. done. Qed.

Lemma spells_app s d s' d' : spells s d -> spells s' d' -> spells (s ++ s') (d ++ d').
Proof. intros Hs Hs' t. by rewrite <-app_assoc, Hs, Hs', <-app_assoc. Qed.

Lemma spells_byte b : b <> 61 -> spells [b] [b].
Proof. intros Hb t. cbn [app qp_decode]. by destruct (Z.eqb_spec b 61). Qed.

Lemma spells_escaped b : byte_ok b -> spells (escaped b) [b].
Proof.
  intros Hb t. cbn [escaped app qp_decode]. cbn [Z.eqb Pos.eqb]. pose proof (escaped_graphic b Hb) as Hg.
  apply Forall_cons in Hg as [_ [Hg _]%Forall_cons]. unfold graphic, between in Hg.
  destruct (Z.eqb_spec (upper_hex (b / 16)) 13); [lia|]. cbn [andb]. by rewrite escaped_value.
Qed.

Lemma spells_soft : spells [61; 13; 10] [].
Proof. done. Qed.

(** A line of the result: printable characters and blanks, at most 76, no blank at the end. *)
Definition qp_char (b : Z) : Prop := graphic b = true \/ is_blank b = true.
Record qp_ok_line (l : bytes) : Prop := {
  ok_chars : Forall qp_char l;
  ok_len : len l <= 76;
  ok_end : match last l with Some b => is_blank b = false | None => True end
}.

(** The writer's state after what reads as [d]; [last_known] is what [checkLastByte] needs. *)
Record qp_ok (w : qp_writer) (d : bytes) : Prop := {
  ok_spells : spells (qp_out w ++ qp_line w) d;
  ok_line : Forall qp_char (qp_line w) /\ len (qp_line w) <= 75;
  ok_out : exists ls, qp_out w = (ls ≫= fun l => l ++ [13; 10]) /\ Forall qp_ok_line ls
}.

Definition last_known (w : qp_writer) (d : bytes) : Prop :=
  forall l b, qp_line w = l ++ [b] -> is_blank b = true -> exists d0, d = d0 ++ [b] /\ spells (qp_out w ++ l) d0.
Definition ends_printed (w : qp_writer) : Prop := match last (qp_line w) with Some b => is_blank b = false | None => True end.
Definition qp_inv (w : qp_writer) (d : bytes) : Prop := qp_ok w d /\ last_known w d.

Lemma printed_known w d : ends_printed w -> last_known w d.
Proof. intros He l b El Hb. unfold ends_printed in He. rewrite El, last_snoc in He. congruence. Qed.

Lemma out_line (ls : list bytes) (l : bytes) :
  (ls ≫= fun l => l ++ [13; 10]) ++ l ++ [13; 10] = ((ls ++ [l]) ≫= fun l => l ++ [13; 10]).
Proof. rewrite bind_app. cbn. by rewrite app_nil_r. Qed.

(** A line is flushed with [more] at its end. *)
Lemma flush_ok w d more d' cr : qp_ok w d -> qp_ok_line (qp_line w ++ more) -> spells (more ++ [13; 10]) d' ->
  qp_ok (insertCRLF (MkQP (qp_out w) (qp_line w ++ more) cr)) (d ++ d').
Proof.
  intros [Hs Hl (ls & Eo & Hls)] Hk Hm. split; cbn.
  - rewrite app_nil_r, <-app_assoc, app_assoc. by apply spells_app.
  - split; [apply Forall_nil_2|rewrite len_nil; lia].
  - exists (ls ++ [qp_line w ++ more]). rewrite Eo. split; [by rewrite <-out_line|]. apply Forall_app. split; [done|by apply Forall_singleton].
Qed.

Lemma soft_ok w d : qp_ok w d -> qp_ok (insertSoftLineBreak w) d /\ qp_line (insertSoftLineBreak w) = [].
Proof.
  intros Hw. split; [|done]. rewrite <-(app_nil_r d). apply flush_ok; [done| |exact spells_soft].
  destruct (ok_line _ _ Hw) as [Hc Hl]. split.
  - apply Forall_app. split; [done|]. by repeat constructor.
  - rewrite len_app. unfold len in *. cbn [length]. lia.
  - by rewrite last_snoc.
Qed.

(** More of the line. *)
Lemma more_ok w d s d' cr : qp_ok w d -> Forall qp_char s -> len (qp_line w) + len s <= 75 -> spells s d' ->
  qp_ok (MkQP (qp_out w) (qp_line w ++ s) cr) (d ++ d').
Proof.
  intros [Hs [Hc Hl] Ho] Hq Hk Hd. split; cbn; [|split; [by apply Forall_app|rewrite len_app; lia]|done].
  rewrite app_assoc. by apply spells_app.
Qed.

Lemma encode_inv w d b : qp_ok w d -> byte_ok b -> qp_inv (qp_encode b w) (d ++ [b]) /\ ends_printed (qp_encode b w).
Proof.
  intros Hw Hb. assert (ends_printed (qp_encode b w)) as He.
  { unfold ends_printed, qp_encode. cbn [qp_line]. change (escaped b) with ([61; upper_hex (b / 16)] ++ [upper_hex (b mod 16)]).
    rewrite app_assoc, last_snoc. apply upper_hex_spec. dlia. }
  split; [|done]. split; [|by apply printed_known]. unfold qp_encode.
  set (w1 := if _ <? _ then _ else _). assert (qp_ok w1 d /\ len (qp_line w1) <= 72) as [H1 H2].
  { unfold w1, lineMaxLen. destruct (Z.ltb_spec (76 - 1 - len (qp_line w)) 3); [|split; [done|lia]].
    destruct (soft_ok w d Hw) as [? ->]. split; [done|]. rewrite len_nil. lia. }
  apply more_ok; [done| |unfold escaped, len in *; cbn [length]; lia|by apply spells_escaped].
  eapply Forall_impl; [by apply escaped_graphic|]. intros c Hc. by left.
Qed.

Lemma check_inv w d : bytes_ok d -> qp_inv w d -> qp_inv (checkLastByte w) d /\ ends_printed (checkLastByte w).
Proof.
  intros Hd [Hw Hk]. unfold checkLastByte. destruct (last (qp_line w)) as [b|] eqn:El.
  - destruct (is_blank b) eqn:Eb; [|split; [done|]; unfold ends_printed; by rewrite El].
    apply last_Some in El as [l El]. destruct (Hk l b El Eb) as (d0 & -> & Hs). apply Forall_app in Hd as [_ Hd]. apply Forall_cons in Hd as [Hd _].
    rewrite El. replace (length (l ++ [b]) - 1)%nat with (length l) by (rewrite length_app; cbn; lia). rewrite take_app_len by done.
    apply encode_inv; [|done]. destruct Hw as [_ [Hc Hl] Ho]. rewrite El in Hc, Hl. apply Forall_app in Hc as [Hc _].
    rewrite len_app in Hl. split; [done|cbn; split; [done|]|done]. pose proof (len_nonneg [b]). lia.
  - split; [done|]. unfold ends_printed. by rewrite El.
Qed.

Lemma crlf_inv w d cr : bytes_ok d -> qp_inv w d ->
  let w1 := insertCRLF (checkLastByte w) in qp_inv (MkQP (qp_out w1) (qp_line w1) cr) (d ++ [13; 10]) /\ qp_line w1 = [].
Proof.
  intros Hd Hw. destruct (check_inv w d Hd Hw) as [[H1 _] He]. set (w0 := checkLastByte w) in *. cbn zeta. split; [|done]. split; [|by intros [|? [|? ?]] ? [=]].
  pose proof (flush_ok w0 d [] [13; 10] cr H1) as Hf. rewrite app_nil_r in Hf. destruct w0 as [o l c]. cbn in *.
  apply Hf; [|by apply (spells_app [13] [13] [10] [10]); apply spells_byte]. destruct (ok_line _ _ H1) as [Hc Hl]. split; [done|cbn in *; lia|exact He].
Qed.

(** A byte of the text; a carriage return is written as a line end. *)
Definition as_line_end (b : Z) : bytes := if (b =? 13) || (b =? 10) then [13; 10] else [b].
Definition crlf (b : Z) : bytes := if b =? 10 then [13; 10] else [b].

Lemma byte_inv w d b : bytes_ok d -> byte_ok b -> qp_inv w d -> qp_inv (qp_Write (crlf b) w) (d ++ as_line_end b).
Proof.
  intros Hd Hb Hw. unfold crlf, as_line_end. destruct (Z.eqb_spec b 10) as [->|H10].
  - cbn [orb]. change (qp_inv (qp_write 10 (qp_write 13 w)) (d ++ [13; 10])). unfold qp_write at 2. cbn [Z.eqb Pos.eqb orb andb]. rewrite andb_false_r.
    unfold qp_write. cbn [Z.eqb Pos.eqb orb andb qp_cr qp_out qp_line]. by apply crlf_inv.
  - rewrite orb_false_r. cbn [qp_Write foldl]. destruct (Z.eqb_spec b 13) as [->|H13].
    + change (qp_inv (qp_write 13 w) (d ++ [13; 10])). unfold qp_write. cbn [Z.eqb Pos.eqb orb]. rewrite andb_false_r. by apply crlf_inv.
    + destruct (ok_line _ _ (proj1 Hw)) as [_ Hl75]. unfold qp_Write. cbn [foldl]. destruct (qp_simple b) eqn:Es; [|by apply encode_inv; [apply Hw|]].
      unfold qp_write. destruct (Z.eqb_spec b 10); [done|]. destruct (Z.eqb_spec b 13); [done|]. cbn [orb].
      set (w1 := if _ =? _ then _ else _). assert (qp_ok w1 d /\ len (qp_line w1) <= 74) as [H1 H2].
      { unfold w1, lineMaxLen. destruct (Z.eqb_spec (len (qp_line w)) (76 - 1)); [|split; [apply Hw|]; pose proof (ok_line _ _ (proj1 Hw)); lia].
        destruct (soft_ok w d (proj1 Hw)) as [? ->]. split; [done|]. rewrite len_nil. lia. }
      assert (b <> 61) as H61 by (unfold qp_simple, between, is_blank in Es; lia).
      split.
      * apply more_ok; [done| |unfold len in *; cbn [length]; lia|by apply spells_byte].
        apply Forall_singleton. unfold qp_char, qp_simple, graphic, between, is_blank in *. lia.
      * intros l c El _. cbn in El. apply app_inj_tail in El as [<- ->]. exists d. split; [done|apply H1].
Qed.

Lemma write_inv s w d : bytes_ok s -> bytes_ok d -> qp_inv w d -> qp_inv (qp_Write (s ≫= crlf) w) (d ++ (s ≫= as_line_end)).
Proof.
  intros Hs. revert w d. induction Hs as [|b s Hb Hs IH]; intros w d Hd Hw; [cbn; by rewrite app_nil_r|].
  rewrite !bind_cons. unfold qp_Write. rewrite foldl_app, app_assoc. apply IH; [|by apply byte_inv].
  apply Forall_app. split; [done|]. unfold as_line_end, byte_ok in *. destruct (_ || _); repeat constructor; lia.
Qed.

(** What [Write] and [Close] make of a text whose line ends are CRLF: lines as they should be, that read back. *)
Lemma quoted_printable_spec s : bytes_ok s ->
  exists lines, lines <> [] /\ quoted_printable (s ≫= crlf) = join lines [13; 10] /\ Forall qp_ok_line lines
    /\ qp_decode (quoted_printable (s ≫= crlf)) = (s ≫= as_line_end).
Proof.
  intros Hs. assert (qp_inv NewWriter []) as H0.
  { split; [split; cbn|by intros [|? [|? ?]] ? [=]]; [exact spells_nil|split; [apply Forall_nil_2|rewrite len_nil; lia]|by exists []]. }
  pose proof (write_inv s NewWriter [] Hs (Forall_nil_2 _) H0) as Hw. cbn [app] in Hw.
  apply check_inv in Hw as [[[Hd [Hc Hl] (ls & Eo & Hls)] _] He].
  2: { clear -Hs. induction Hs as [|b s Hb Hs IH]; [constructor|]. rewrite bind_cons. apply Forall_app. split; [|done].
    unfold as_line_end, byte_ok in *. destruct (_ || _); repeat constructor; lia. }
  unfold quoted_printable, qp_Close, flush. cbn [qp_out]. set (w := checkLastByte _) in *. exists (ls ++ [qp_line w]). split; [by destruct ls|].
  rewrite Eo. split; [|split].
  - clear. induction ls as [|l ls IH]; [done|]. rewrite bind_cons. cbn [app join]. destruct (ls ++ [qp_line w]) eqn:E; [by destruct ls|].
    rewrite <-!app_assoc. cbn [app]. do 3 f_equal. by rewrite IH.
  - apply Forall_app. split; [done|]. apply Forall_singleton. split; [done|lia|exact He].
  - rewrite <-Eo. pose proof (Hd []) as E. rewrite !app_nil_r in E. exact E.
Qed.
