(* ===== verification/Smtp.v ===== *)
(** * SMTP: what [internal/mailer] and [cmd/boar-ftn] use of [net/smtp]

    The client over a relay that may answer anything at all: [relay_answer] is its reply to what was said so far.  What
    the client says is kept, in order and with whether it was encrypted, so that the theorems can speak about it; a
    message of the DATA phase is one event.  The lemmas: what each call may say, and that a text goes through the dots of
    the DATA phase unchanged. *)

From Stdlib Require Import Ascii String ZArith Lia.
From stdpp Require Import base tactics list strings.
From S2P Require Import Prelude GoStrings Term FileLink GoMime.
Open Scope Z_scope.

(** A line or text in the clear, one over TLS, or the handshake. *)
Inductive event := Clear (s : bytes) | Sealed (s : bytes) | Handshake.

(** The network: whether an address answers, what the other end replies (a code and the text of the reply's lines,
    nothing when the connection breaks or the reply makes no sense), and whether it has a certificate for the host;
    [net.SplitHostPort] (the host) and whether [net.ParseIP] makes a loopback address of a host. *)
Class Relay := {
  relay_dial : bytes -> bool;
  relay_answer : list event -> option (Z * bytes);
  relay_tls : list event -> bool;
  split_host_port : bytes -> option bytes;
  ip_loopback : bytes -> bool
}.

Inductive smtp_error :=
  | Lost | Replied (code : Z) (text : bytes) | BadLine | BadCertificate
  | Unencrypted | WrongHost | Challenged
  | NoConfig | BadFrom | BadRecipient | NotConnected | NoTLS | NotLocal.

(** [smtp.Client]: [c_ext] is nil before EHLO succeeds. *)
Record Client := MkClient {
  c_host : bytes; c_tls : bool; c_ext : option (list (bytes * bytes)); c_hello : option (result smtp_error unit); c_log : list event
}.

Definition SMTP (A : Type) : Type := Client -> result smtp_error A * Client.

#[global] Instance s_ret : MRet SMTP := fun A a c => (Ok a, c).
#[global] Instance s_bind : MBind SMTP := fun A B f m c => match m c with (Ok a, c) => f a c | (Err e, c) => (Err e, c) end.

Definition s_fail {A} (e : smtp_error) : SMTP A := fun c => (Err e, c).
Definition the_client : SMTP Client := fun c => (Ok c, c).
(** A call whose error is ignored. *)
Definition s_ignore {A} (m : SMTP A) : SMTP unit := fun c => (Ok tt, snd (m c)).
Definition s_guard (b : bool) (e : smtp_error) : SMTP unit := if b then mret tt else s_fail e.

Section smtp.
Context `{Relay}.

(** ** package net/textproto *)

(** Whether a reply's code is the expected one: 25 stands for 250 to 259, 0 for any. *)
Definition expected (want code : Z) : bool :=
  if between 1 9 want then code / 100 =? want
  else if between 10 99 want then code / 10 =? want
  else if between 100 999 want then code =? want
  else true.

Definition ReadResponse (want : Z) : SMTP bytes := fun c =>
  match relay_answer (c_log c) with
  | None => (Err Lost, c)
  | Some (code, text) => if expected want code then (Ok text, c) else (Err (Replied code text), c)
  end.

Definition tell (s : bytes) : SMTP unit := fun c =>
  (Ok tt, MkClient (c_host c) (c_tls c) (c_ext c) (c_hello c) (c_log c ++ [if c_tls c then Sealed s else Clear s])).

(** The DotWriter: its state, the text, and what [Close] adds. *)
Inductive dot_state := BeginLine | InLine | AfterCR.

Definition dot_next (st : dot_state) (b : Z) : dot_state :=
  match st with
  | AfterCR => if b =? 10 then BeginLine else InLine
  | _ => if b =? 10 then BeginLine else if b =? 13 then AfterCR else InLine
  end.

Fixpoint dot_write (st : dot_state) (s : bytes) : bytes :=
  match s with
  | [] => match st with BeginLine => str "." ++ [13; 10] | AfterCR => 10 :: str "." ++ [13; 10] | InLine => 13 :: 10 :: str "." ++ [13; 10] end
  | b :: s =>
      (match st with BeginLine => if b =? 46 then [46] else [] | _ => [] end)
      ++ (match st with AfterCR => [] | _ => if b =? 10 then [13] else [] end)
      ++ b :: dot_write (dot_next st b) s
  end.

(** ** package net/smtp *)

Definition cmd (want : Z) (line : bytes) : SMTP bytes := _ ← tell line; ReadResponse want.

Definition set_ext (e : option (list (bytes * bytes))) : SMTP unit := fun c => (Ok tt, MkClient (c_host c) (c_tls c) e (c_hello c) (c_log c)).

(** The extensions of a reply to EHLO; a later line replaces an earlier one. *)
Definition extensions (text : bytes) : list (bytes * bytes) :=
  (fun line => let '(k, v, _) := cut line 32 in (k, v)) <$> reverse (tail (split_byte text 10)).

Definition ehlo : SMTP unit := text ← cmd 250 (str "EHLO localhost"); set_ext (Some (extensions text)).
Definition helo : SMTP unit := _ ← set_ext None; _ ← cmd 250 (str "HELO localhost"); mret tt.

(** Once: EHLO, and HELO when it is refused. *)
Definition hello : SMTP unit := fun c =>
  match c_hello c with
  | Some r => (r, c)
  | None =>
      let '(r, c) := match ehlo c with (Err _, c) => helo c | ok => ok end in
      (r, MkClient (c_host c) (c_tls c) (c_ext c) (Some r) (c_log c))
  end.

(** [NewClient] on a new connection, plain or encrypted: the greeting. *)
Definition fresh_client (host : bytes) : Client := MkClient host false None None [].
Definition NewClient : SMTP unit := _ ← ReadResponse 220; mret tt.

(** The parameter of an extension of the server. *)
Definition c_extension (name : bytes) (c : Client) : option bytes :=
  e ← c_ext c; '(_, (_, v)) ← list_find (fun kv => fst kv = name) e; Some v.

Definition Extension (name : bytes) : SMTP bool := fun c =>
  match hello c with (Err _, c) => (Ok false, c) | (Ok _, c) => (Ok (bool_decide (is_Some (c_extension name c))), c) end.

Definition handshake : SMTP unit := fun c =>
  let c := MkClient (c_host c) (c_tls c) (c_ext c) (c_hello c) (c_log c ++ [Handshake]) in
  if relay_tls (c_log c) then (Ok tt, MkClient (c_host c) true (c_ext c) (c_hello c) (c_log c)) else (Err BadCertificate, c).

Definition StartTLS : SMTP unit :=
  _ ← hello;
  _ ← cmd 220 (str "STARTTLS");
  _ ← handshake;
  ehlo.

Definition validateLine (s : bytes) : bool := negb (contains_any s [10; 13]).

Definition isLocalhost (name : bytes) : bool := bool_decide (name ∈ [str "localhost"; str "127.0.0.1"; str "::1"]).

Definition Quit : SMTP unit := _ ← hello; _ ← cmd 221 (str "QUIT"); mret tt.

(** [Auth] with [PlainAuth("", user, pass, host)]. *)
Definition PlainAuth (user pass host : bytes) : SMTP unit :=
  let abort e := _ ← s_ignore Quit; s_fail e in
  _ ← hello;
  c ← the_client;
  if negb (c_tls c) && negb (isLocalhost (c_host c)) then abort Unencrypted
  else if negb (bool_decide (c_host c = host)) then abort WrongHost
  else
    _ ← tell (str "AUTH PLAIN " ++ b64_std (0 :: user ++ 0 :: pass));
    c ← the_client;
    match relay_answer (c_log c) with
    | None => s_fail Lost
    | Some (code, text) =>
        if code =? 235 then mret tt
        else _ ← s_ignore (cmd 501 (str "*")); abort (if code =? 334 then Challenged else Replied code text)
    end.

Definition Mail (from : bytes) : SMTP unit :=
  _ ← s_guard (validateLine from) BadLine;
  _ ← hello;
  c ← the_client;
  let has name := bool_decide (is_Some (c_extension name c)) in
  _ ← cmd 250 (str "MAIL FROM:<" ++ from ++ str ">" ++ (if has (str "8BITMIME") then str " BODY=8BITMIME" else [])
                ++ (if has (str "SMTPUTF8") then str " SMTPUTF8" else []));
  mret tt.

Definition Rcpt (to : bytes) : SMTP unit := _ ← s_guard (validateLine to) BadLine; _ ← cmd 25 (str "RCPT TO:<" ++ to ++ str ">"); mret tt.

(** [Data], the writing of [msg], and [Close]. *)
Definition Data (msg : bytes) : SMTP unit := _ ← cmd 354 (str "DATA"); _ ← tell (dot_write BeginLine msg); _ ← ReadResponse 250; mret tt.
End smtp.

(** * Lemmas *)

(** ** The dots *)

(** What the receiver of a DATA phase reads, up to the line with the dot. *)
Fixpoint undot (st : dot_state) (s : bytes) : option bytes :=
  match s with
  | [] => None
  | b :: s1 =>
      if match st with BeginLine => b =? 46 | _ => false end then
        if bool_decide (s1 = [13; 10]) then Some []
        else undot InLine s1
      else cons b <$> undot (match st with AfterCR => if b =? 10 then BeginLine else InLine | _ => if b =? 13 then AfterCR else InLine end) s1
  end.

(** Every line feed follows a carriage return, and every carriage return is followed by one. *)
Fixpoint crlf_ok (st : dot_state) (s : bytes) : Prop :=
  match s with
  | [] => st <> AfterCR
  | b :: s => match st with AfterCR => b = 10 | _ => b <> 10 end /\ crlf_ok (dot_next st b) s
  end.

Definition ended (st : dot_state) : bytes := match st with BeginLine => [] | _ => [13; 10] end.

Lemma undot_dots s st : crlf_ok st s -> undot st (dot_write st s) = Some (s ++ ended (foldl dot_next st s)).
Proof.
  revert st. induction s as [|b s IH]; intros st Hs.
  - by destruct st.
  - destruct Hs as [Hb Hs]. specialize (IH _ Hs). destruct st; cbn [dot_write app foldl dot_next] in *.
    + destruct (Z.eqb_spec b 10); [done|]. destruct (Z.eqb_spec b 46) as [->|].
      * cbn [app undot Z.eqb Pos.eqb]. cbn [Z.eqb Pos.eqb] in IH. rewrite bool_decide_false by done. cbn [undot Z.eqb Pos.eqb].
        rewrite IH. done.
      * cbn [app undot]. destruct (Z.eqb_spec b 46); [done|]. rewrite IH. done.
    + destruct (Z.eqb_spec b 10); [done|]. cbn [app undot]. rewrite IH. done.
    + subst b. cbn [app undot Z.eqb Pos.eqb]. cbn [Z.eqb Pos.eqb] in IH. rewrite IH. done.
Qed.

Lemma crlf_ok_line l st s : st <> AfterCR -> one_line l ->
  crlf_ok st (l ++ s) <-> crlf_ok (match l with [] => st | _ => InLine end) s.
Proof.
  intros Hst Hl. revert st Hst. induction Hl as [|b l [H1 H2] Hl IH]; intros st Hst; [done|]. cbn [app crlf_ok].
  assert (dot_next st b = InLine) as ->. { destruct st; cbn; try done; destruct (Z.eqb_spec b 10), (Z.eqb_spec b 13); done. }
  rewrite IH by done. destruct l; destruct st; by intuition.
Qed.

(** Lines with CRLF between them. *)
Lemma crlf_ok_join ls st : st <> AfterCR -> Forall one_line ls -> crlf_ok st (join ls [13; 10]).
Proof.
  intros Hst Hls. revert st Hst. induction Hls as [|l ls Hl Hls IH]; intros st Hst; [done|]. cbn [join]. destruct ls as [|l' ls].
  - rewrite <-(app_nil_r l). rewrite crlf_ok_line by done. by destruct l.
  - rewrite crlf_ok_line by done. destruct l; destruct st; try done; cbn [app crlf_ok dot_next Z.eqb Pos.eqb]; split_and!; try done; by apply IH.
Qed.

(** ** What a call may say *)

Section says.
Context `{Relay} (P : event -> Prop) (I : Client -> Prop).

(** Only what satisfies [P] is said, after what was said before, and a connection that is encrypted stays so. *)
Definition says_between (c c' : Client) : Prop :=
  c_host c' = c_host c /\ (c_tls c = true -> c_tls c' = true) /\ exists l, c_log c' = c_log c ++ l /\ Forall P l.

Hypothesis I_kept : forall c c', I c -> says_between c c' -> I c'.

Definition says {A} (m : SMTP A) : Prop := forall c, I c -> says_between c (snd (m c)).

Lemma between_refl c : says_between c c.
Proof. split; [done|split; [done|]]. exists []. by rewrite app_nil_r. Qed.

Lemma between_trans c1 c2 c3 : says_between c1 c2 -> says_between c2 c3 -> says_between c1 c3.
Proof.
  intros (E1 & T1 & l1 & L1 & F1) (E2 & T2 & l2 & L2 & F2). split; [congruence|]. split; [auto|].
  exists (l1 ++ l2). rewrite L2, L1, app_assoc. split; [done|]. by apply Forall_app.
Qed.

Lemma says_ret {A} (a : A) : says (mret a).
Proof. intros c _. apply between_refl. Qed.
Lemma says_fail {A} e : says (s_fail (A := A) e).
Proof. intros c _. apply between_refl. Qed.
Lemma says_client : says the_client.
Proof. intros c _. apply between_refl. Qed.
Lemma says_guard b e : says (s_guard b e).
Proof. destruct b; [apply says_ret|apply says_fail]. Qed.

Lemma says_bind {A B} (m : SMTP A) (k : A -> SMTP B) : says m -> (forall a, says (k a)) -> says (m ≫= k).
Proof.
  intros Hm Hk c Hc. specialize (Hm c Hc). unfold mbind, s_bind. destruct (m c) as [[a|e] c1]; cbn [snd] in *; [|done].
  eapply between_trans; [exact Hm|]. apply Hk. by eapply I_kept.
Qed.

(** The client that a call reads satisfies [I] too. *)
Lemma says_with {A} (k : Client -> SMTP A) : (forall c, I c -> says_between c (snd (k c c))) -> says (c ← the_client; k c).
Proof. intros Hk c Hc. by apply Hk. Qed.

Lemma says_ignore {A} (m : SMTP A) : says m -> says (s_ignore m).
Proof. intros Hm c Hc. by apply Hm. Qed.

Lemma says_read want : says (ReadResponse want).
Proof. intros c _. unfold ReadResponse. repeat case_match; apply between_refl. Qed.

Lemma says_tell s : (forall c, I c -> P (if c_tls c then Sealed s else Clear s)) -> says (tell s).
Proof.
  intros HP c Hc. split; [done|]. split; [done|]. eexists. split; [done|]. apply Forall_singleton. by apply HP.
Qed.

Lemma says_cmd want s : (forall c, I c -> P (if c_tls c then Sealed s else Clear s)) -> says (cmd want s).
Proof. intros HP. apply says_bind; [by apply says_tell|intros _; apply says_read]. Qed.

Lemma says_set_ext e : says (set_ext e).
Proof. intros c _. split; [done|]. split; [done|]. exists []. by rewrite app_nil_r. Qed.

Hypothesis P_hello : forall c, I c -> P (if c_tls c then Sealed (str "EHLO localhost") else Clear (str "EHLO localhost"))
  /\ P (if c_tls c then Sealed (str "HELO localhost") else Clear (str "HELO localhost"))
  /\ P (if c_tls c then Sealed (str "QUIT") else Clear (str "QUIT")).

Lemma says_ehlo : says ehlo.
Proof. apply says_bind; [apply says_cmd; intros c Hc; by apply P_hello|intros; apply says_set_ext]. Qed.

Lemma says_hello : says hello.
Proof.
  intros c Hc. unfold hello. destruct (c_hello c) as [r|]; [apply between_refl|].
  pose proof (says_ehlo c Hc) as He. assert (says helo) as Hh.
  { apply says_bind; [apply says_set_ext|intros _]. apply says_bind; [apply says_cmd; intros d Hd; by apply P_hello|intros; apply says_ret]. }
  assert (forall c1 r, says_between c c1 -> says_between c (MkClient (c_host c1) (c_tls c1) (c_ext c1) (Some r) (c_log c1))) as Hset by (by intros).
  destruct (ehlo c) as [[[]|e] c1]; cbn [snd] in *; [by apply Hset|].
  pose proof (Hh c1 ltac:(by eapply I_kept)) as H1. destruct (helo c1) as [r c2]. cbn [snd] in *. apply Hset. by eapply between_trans.
Qed.

Lemma says_quit : says Quit.
Proof.
  apply says_bind; [apply says_hello|intros _]. apply says_bind; [apply says_cmd; intros c Hc; by apply P_hello|intros; apply says_ret].
Qed.

Lemma says_extension name : says (Extension name).
Proof. intros c Hc. unfold Extension. pose proof (says_hello c Hc) as Hh. by destruct (hello c) as [[]]. Qed.
End says.
