(* ===== verification/StoreOpen.v ===== *)
(** * Opening the database: [internal/store/db.go], [schema.go]

    [Open] checks the path, creates the file and brings the schema up to date, one transaction per migration.  What a migration's
    SQL does is SQLite's: the class [SQLite].  The theorem: wherever an upgrade stops, and however often it is tried again, it
    ends in the state that an upgrade without interruption gives. *)

From Stdlib Require Import Ascii String ZArith Lia.
From stdpp Require Import base tactics list gmap strings relations.
From S2P Require Import Prelude GoStrings GoFiles StoreDB.
Open Scope Z_scope.

(** ** db.go *)

Inductive open_error := EmptyPath | BadPath | NoDirectory | NoFile | NotSQLite | SchemaNewer (version : Z) | MigrationFailed (to : Z).

Record StoreConfig := MkStoreConfig { sc_Path : bytes; sc_KDFIterations : Z; sc_ApproveNewUsers : bool }.

Definition DefaultKDFIterations : Z := 600000.

(** The name that [sql.Open] is given: a URI, of which SQLite takes the part before the question mark as the file's name. *)
Definition dsn (path : bytes) : bytes :=
  str "file:" ++ path ++ str "?_pragma=busy_timeout(5000)&_pragma=journal_mode(WAL)" ++ str "&_pragma=foreign_keys(1)&_pragma=synchronous(NORMAL)".

(** ** schema.go *)

(** The number of [migrations]. *)
Definition migrations : Z := 8.

(** SQLite's side: the tables of a database and what the SQL of [migrations\[v\]] makes of them; [None] is an error, and the
    transaction is rolled back. *)
Class SQLite := { tables : Type; no_tables : tables; exec_migration : Z -> tables -> option tables }.

(** A database file: its tables and PRAGMA user_version. *)
Record database `{SQLite} := MkDatabase { db_tables : tables; user_version : Z }.
Arguments MkDatabase {_} _ _.

Section open.
Context `{SQLite}.

(** The transaction of one turn of [migrate]'s loop; [commits v]: nothing but its SQL can make the one from [v] fail. *)
Definition migrate_one (commits : Z -> bool) (v : Z) (db : database) : option database :=
  if commits v then t ← exec_migration v (db_tables db); Some (MkDatabase t (v + 1)) else None.

(** The loop of [migrate] from version [v], [n] migrations before the end. *)
Fixpoint migrate_go (commits : Z -> bool) (n : nat) (v : Z) (db : database) : result open_error unit * database :=
  match n with
  | O => (Ok tt, db)
  | S n => match migrate_one commits v db with Some db => migrate_go commits n (v + 1) db | None => (Err (MigrationFailed (v + 1)), db) end
  end.

Definition migrate (commits : Z -> bool) (db : database) : result open_error unit * database :=
  if migrations <? user_version db then (Err (SchemaNewer (user_version db)), db)
  else migrate_go commits (Z.to_nat (migrations - user_version db)) (user_version db) db.

(** The settings of the store that [Open] returns. *)
Definition open_config (cfg : StoreConfig) : StoreDB.Config :=
  StoreDB.MkConfig (if sc_KDFIterations cfg <=? 0 then DefaultKDFIterations else sc_KDFIterations cfg) (sc_ApproveNewUsers cfg).

(** [Open], whose directory and file can be made as [mkdir] and [create] say; [file] is what the database's file holds. *)
Definition Open (commits : Z -> bool) (cfg : StoreConfig) (mkdir create : bool) (file : option database) : result open_error StoreDB.Config * option database :=
  if bool_decide (sc_Path cfg = []) then (Err EmptyPath, file)
  else if contains_any (sc_Path cfg) (str "?#") then (Err BadPath, file)
  else if negb mkdir then (Err NoDirectory, file)
  else if negb create then (Err NoFile, file)
  else
    let '(r, db) := migrate commits (default (MkDatabase no_tables 0) file) in
    (match r with Ok _ => Ok (open_config cfg) | Err e => Err e end, Some db).
End open.

(** * Theorems *)

Section migrating.
Context `{SQLite}.

(** The migrations from [v] on, [n] of them, without interruption. *)
Fixpoint upgraded (n : nat) (v : Z) (t : tables) : option tables :=
  match n with O => Some t | S n => exec_migration v t ≫= upgraded n (v + 1) end.

(** [db'] is [db] with its next migrations done. *)
Definition upgrade_of (db db' : database) : Prop :=
  user_version db <= user_version db' /\ upgraded (Z.to_nat (user_version db' - user_version db)) (user_version db) (db_tables db) = Some (db_tables db').

Lemma upgraded_app n m v t t' : upgraded n v t = Some t' -> upgraded (n + m) v t = upgraded m (v + Z.of_nat n) t'.
Proof.
  revert v t. induction n as [|n IH]; intros v t; cbn [upgraded Nat.add]; [intros [= <-]; by rewrite Z.add_0_r|].
  destruct (exec_migration v t) as [t1|]; [|done]. cbn. intros E. rewrite (IH _ _ E). f_equal. lia.
Qed.

#[export] Instance upgrade_of_preorder : PreOrder upgrade_of.
Proof.
  split.
  - intros db. split; [lia|]. by rewrite Z.sub_diag.
  - intros a b c [Hab Ea] [Hbc Eb]. split; [lia|]. replace (Z.to_nat (user_version c - user_version a)) with
      (Z.to_nat (user_version b - user_version a) + Z.to_nat (user_version c - user_version b))%nat by lia.
    rewrite (upgraded_app _ _ _ _ _ Ea). rewrite <-Eb. f_equal. lia.
Qed.

Lemma migrate_go_spec commits n db :
  let '(r, db') := migrate_go commits n (user_version db) db in
  upgrade_of db db' /\ user_version db' <= user_version db + Z.of_nat n
  /\ match r with
     | Ok _ => user_version db' = user_version db + Z.of_nat n
     | Err e => e = MigrationFailed (user_version db' + 1) /\ user_version db' < user_version db + Z.of_nat n
     end.
Proof.
  revert db. induction n as [|n IH]; intros db; cbn [migrate_go]; [split_and!; try reflexivity; lia|].
  unfold migrate_one. destruct (commits (user_version db)); [|split_and!; try reflexivity; lia].
  destruct (exec_migration (user_version db) (db_tables db)) as [t|] eqn:E; cbn; [|split_and!; try reflexivity; lia].
  specialize (IH (MkDatabase t (user_version db + 1))). cbn [user_version db_tables] in IH.
  destruct (migrate_go commits n (user_version db + 1) _) as [r db']. destruct IH as (IH & Hv & Hr).
  assert (upgrade_of db (MkDatabase t (user_version db + 1))) as H1.
  { split; cbn; [lia|]. replace (Z.to_nat (user_version db + 1 - user_version db)) with 1%nat by lia. cbn. by rewrite E. }
  split_and!; [by etransitivity|lia|]. destruct r; [lia|]. destruct Hr as (-> & Hlt). split_and!; try done; lia.
Qed.

Lemma migrate_spec commits db :
  user_version db <= migrations ->
  let '(r, db') := migrate commits db in
  upgrade_of db db' /\ user_version db' <= migrations /\ (is_ok r = true <-> user_version db' = migrations).
Proof.
  intros Hv. unfold migrate. rewrite (proj2 (Z.ltb_ge _ _)) by done.
  pose proof (migrate_go_spec commits (Z.to_nat (migrations - user_version db)) db) as H1. destruct (migrate_go _ _ _ _) as [r db']. destruct H1 as (H1 & H2 & H3).
  split_and!; [done|lia|]. destruct r; cbn; (split; [intros; try done; lia|intros; try done; lia]).
Qed.

(** The database after some starts of the program, the transactions of each committing as [commits] says. *)
Definition starts (runs : list (Z -> bool)) (db : database) : database := foldl (fun db commits => snd (migrate commits db)) db runs.

Lemma starts_spec runs db : user_version db <= migrations -> upgrade_of db (starts runs db) /\ user_version (starts runs db) <= migrations.
Proof.
  revert db. induction runs as [|commits runs IH]; intros db Hv; [by split|]. cbn [starts foldl]. pose proof (migrate_spec commits db Hv) as H1.
  destruct (migrate commits db) as [r db1]. destruct H1 as (H1 & H2 & _). destruct (IH db1 H2) as [H3 H4]. split; [by etransitivity|done].
Qed.

(** An upgrade may stop at any migration and be tried again any number of times: every state in between is the old database with its
    first so many migrations done and the version that says how many, and once a start succeeds the tables are those that
    an upgrade without interruption makes.  A database of a newer program is left alone. *)
Theorem upgrade_resumes (runs : list (Z -> bool)) (commits : Z -> bool) (db : database) :
  let db1 := starts runs db in
  let '(r, db2) := migrate commits db1 in
  (user_version db <= migrations ->
     upgrade_of db db1 /\ upgrade_of db db2
     /\ (is_ok r = true -> upgraded (Z.to_nat (migrations - user_version db)) (user_version db) (db_tables db) = Some (db_tables db2) /\ migrate commits db2 = (Ok tt, db2)))
  /\ (migrations < user_version db -> r = Err (SchemaNewer (user_version db)) /\ db2 = db).
Proof.
  cbv zeta. destruct (Z.leb_spec (user_version db) migrations) as [Hv|Hv].
  - destruct (starts_spec runs db Hv) as [H1 H2]. pose proof (migrate_spec commits _ H2) as H3. destruct (migrate commits (starts runs db)) as [r db2].
    destruct H3 as (H3 & H4 & H5). split; [|lia]. intros _. assert (upgrade_of db db2) as Hu by by etransitivity. split_and!; [done..|]. intros Hr%H5.
    destruct Hu as [_ Hu]. rewrite Hr in Hu. split; [done|]. unfold migrate. rewrite Hr. by vm_compute.
  - assert (forall c, migrate c db = (Err (SchemaNewer (user_version db)), db)) as Hm by (intros c; unfold migrate; by rewrite (proj2 (Z.ltb_lt _ _))).
    assert (starts runs db = db) as -> by (induction runs as [|c runs IH]; [done|]; cbn; by rewrite Hm).
    rewrite Hm. split; [lia|done].
Qed.
End migrating.
