(* ===== verification/Mailer.v ===== *)
(** * Outgoing email: [internal/mailer/queue.go]

    [Queue] is the bounded channel with its flags, and [worker] the goroutine [run] that takes messages off it.  The
    steps are those of the callers (Enqueue, Close), of the timer that abandons the backlog, and of the worker,
    interleaved in any order; what the relay answers to each attempt is part of a step.
    The theorem: no accepted message is lost or overtaken, and once the queue is closed the worker ends after a
    bounded number of steps, each accepted message delivered or given up after its last try. *)

From Stdlib Require Import Ascii String ZArith Lia.
From stdpp Require Import base tactics list gmap strings.
From S2P Require Import Prelude GoStrings GoTime Term.
Open Scope Z_scope.

Record Message := MkMail { To : bytes; Subject : bytes; Body : bytes }.

Inductive queue_error := ErrQueueFull | ErrQueueClosed.

(** [defaultRetryDelays], in nanoseconds. *)
Definition defaultRetryDelays : list Z := [5000000000; 30000000000].

(** [q_done] is whether the context is cancelled. *)
Record Queue := MkQueue { q_ch : list Message; q_size : Z; q_closed : bool; q_done : bool }.

Definition NewQueue (size : Z) : Queue := MkQueue [] size false false.

Definition Enqueue (m : Message) (q : Queue) : result queue_error unit * Queue :=
  if q_closed q then (Err ErrQueueClosed, q)
  else if len (q_ch q) <? q_size q then (Ok tt, MkQueue (q_ch q ++ [m]) (q_size q) false (q_done q))
  else (Err ErrQueueFull, q).

(** [Close] up to its wait for the worker; [stop] is what the timer, and the end of [Close], call. *)
Definition Close (q : Queue) : Queue := MkQueue (q_ch q) (q_size q) true (q_done q).
Definition stop (q : Queue) : Queue := MkQueue (q_ch q) (q_size q) (q_closed q) true.

(** What [deliver] does with the answer to attempt number [attempt]. *)
Inductive verdict := Sent | Failed | Retry (delay : Z).

Definition judge (attempt : nat) (sent done : bool) : verdict :=
  if sent then Sent
  else
    match defaultRetryDelays !! attempt with
    | None => Failed
    | Some d => if done then Failed else Retry d
    end.

(** The worker: about to take a message, trying one, waiting before the next attempt, or finished. *)
Inductive worker := Idle | Trying (m : Message) (attempt : nat) | Waiting (m : Message) (attempt : nat) | Finished.

(** [domainOf], which keeps full addresses out of the logs. *)
Definition domainOf (addr : bytes) : bytes :=
  let i := last_index_byte addr 64 in if i <? 0 then str "?" else slice_from addr (i + 1).

(** * The queue at work *)

(** [accepted] are the messages [Enqueue] took, [outcome] those the worker is done with and whether they went out. *)
Record mstate := MkM { queue : Queue; work : worker; accepted : list Message; outcome : list (Message * bool) }.

Inductive mstep : mstate -> mstate -> Prop :=
| ms_enqueue m q w a o q' : Enqueue m q = (Ok tt, q') -> mstep (MkM q w a o) (MkM q' w (a ++ [m]) o)
| ms_close q w a o : mstep (MkM q w a o) (MkM (Close q) w a o)
| ms_stop q w a o : mstep (MkM q w a o) (MkM (stop q) w a o)
| ms_work s s' : wstep s s' -> mstep s s'
with wstep : mstate -> mstate -> Prop :=
| ws_take m ch n c d a o : wstep (MkM (MkQueue (m :: ch) n c d) Idle a o) (MkM (MkQueue ch n c d) (Trying m 0) a o)
| ws_end n d a o : wstep (MkM (MkQueue [] n true d) Idle a o) (MkM (MkQueue [] n true d) Finished a o)
| ws_sent q m k a o (sent : bool) : judge k sent (q_done q) = Sent -> wstep (MkM q (Trying m k) a o) (MkM q Idle a (o ++ [(m, true)]))
| ws_failed q m k a o (sent : bool) : judge k sent (q_done q) = Failed -> wstep (MkM q (Trying m k) a o) (MkM q Idle a (o ++ [(m, false)]))
| ws_retry q m k a o (sent : bool) d : judge k sent (q_done q) = Retry d -> wstep (MkM q (Trying m k) a o) (MkM q (Waiting m k) a o)
| ws_wake q m k a o : wstep (MkM q (Waiting m k) a o) (MkM q (Trying m (S k)) a o).

Definition in_hand (w : worker) : list Message := match w with Trying m _ | Waiting m _ => [m] | _ => [] end.

(** Every accepted message is, in the order of acceptance, done with, in hand or waiting; the backlog is bounded; a
    message is tried at most three times; the worker ends only when nothing is left. *)
Definition minv (size : Z) (s : mstate) : Prop :=
  accepted s = (fst <$> outcome s) ++ in_hand (work s) ++ q_ch (queue s)
  /\ q_size (queue s) = size /\ (0 <= size -> len (q_ch (queue s)) <= size)
  /\ match work s with
     | Trying _ k => (k <= 2)%nat
     | Waiting _ k => (k < 2)%nat
     | Finished => q_closed (queue s) = true /\ q_ch (queue s) = []
     | Idle => True
     end.

Lemma judge_retry k sent done d : judge k sent done = Retry d -> (k < 2)%nat /\ sent = false /\ done = false.
Proof. unfold judge. destruct sent; [done|]. destruct k as [|[|k]], done; cbn; intros; try done; lia. Qed.

Lemma wstep_inv size s s' : wstep s s' -> minv size s -> minv size s'.
Proof.
  unfold minv. destruct 1 as [m ch n c d a o|n d a o|q m k a o sent Hj|q m k a o sent Hj|q m k a o sent d Hj|q m k a o];
    cbn -[judge]; intros (Ha & Hs & Hl & Hw); subst; rewrite ?fmap_app, <-?app_assoc; cbn; split_and!; try done; try lia.
  - rewrite len_cons in Hl. lia.
  - apply judge_retry in Hj. lia.
Qed.

Lemma mstep_inv size s s' : mstep s s' -> minv size s -> minv size s'.
Proof.
  destruct 1 as [m q w a o q' He|q w a o|q w a o|s s' Hw]; [| | |by apply wstep_inv]; unfold minv; cbn.
  - unfold Enqueue in He. destruct (q_closed q) eqn:Ec; [done|]. destruct (Z.ltb_spec (len (q_ch q)) (q_size q)); [|done].
    injection He as <-. cbn. intros (-> & Hs & Hl & Hw). rewrite len_app, <-!app_assoc. split_and!; [done|done| |]; [|destruct w; intuition congruence].
    intros _. change (len [m]) with 1. lia.
  - intros (? & ? & ? & ?). destruct w; intuition done.
  - done.
Qed.

(** What is left to do: at most six steps for a message and one to end. *)
Definition work_left (s : mstate) : nat :=
  6 * length (q_ch (queue s)) + match work s with Idle => 1 | Trying _ k => 6 - 2 * k | Waiting _ k => 5 - 2 * k | Finished => 0 end.

Lemma wstep_progress size s s' : wstep s s' -> minv size s -> (work_left s' < work_left s)%nat.
Proof.
  unfold minv, work_left. destruct 1 as [m ch n c d a o|n d a o|q m k a o sent Hj|q m k a o sent Hj|q m k a o sent d Hj|q m k a o];
    cbn -[judge]; intros (_ & _ & _ & Hw); lia.
Qed.

(** A closed queue's worker always has a step until it is finished, whatever the relay answers. *)
Lemma wstep_enabled size s : minv size s -> q_closed (queue s) = true -> work s = Finished \/ exists s', wstep s s'.
Proof.
  intros Hi Hc. destruct s as [[ch n c d] w a o]. cbn in Hc. subst c. destruct w as [|m k|m k|]; [right|right|right|by left].
  - destruct ch; eexists; constructor.
  - eexists. by eapply (ws_sent _ _ _ _ _ true).
  - eexists. constructor.
Qed.

Lemma minv_reach size s : rtc mstep (MkM (NewQueue size) Idle [] []) s -> minv size s.
Proof.
  intros Hr. assert (minv size (MkM (NewQueue size) Idle [] [])) as H0 by by (split_and!; cbn; try done).
  revert H0. induction Hr as [|s1 s2 s3 Hs _ IH]; [done|]. intros H1. by apply IH, (mstep_inv size s1).
Qed.

(** C26: No email is lost or overtaken: in any interleaving, the messages accepted are, in the order of acceptance, those
    the worker is done with, the one in hand and those waiting, of which there are never more than the queue's size;
    and after [Close] the worker takes at most six steps for each message left, never gets stuck on the way, and when
    it ends every accepted message has been sent or given up. *)
Theorem mail_queue_drains (size : Z) (s : mstate) :
  0 <= size -> rtc mstep (MkM (NewQueue size) Idle [] []) s ->
  (accepted s = (fst <$> outcome s) ++ in_hand (work s) ++ q_ch (queue s) /\ len (q_ch (queue s)) <= size)
  /\ (q_closed (queue s) = true ->
      (forall m, fst (Enqueue m (queue s)) = Err ErrQueueClosed)
      /\ (forall n s', nsteps wstep n s s' -> (n <= work_left s)%nat /\ (work s' = Finished \/ exists s2, wstep s' s2))
      /\ (forall s', rtc wstep s s' -> work s' = Finished -> accepted s' = fst <$> outcome s' /\ accepted s' = accepted s)).
Proof.
  intros Hs Hr. pose proof (minv_reach size s Hr) as Hi. split; [destruct Hi as (? & ? & ? & _); auto|]. intros Hc. split_and!.
  - intros m. unfold Enqueue. by rewrite Hc.
  - intros n s' Hn. revert Hi Hc. clear Hr. induction Hn as [s|n s1 s2 s3 H12 _ IH]; intros Hi Hc.
    + split; [lia|]. by apply (wstep_enabled size).
    + destruct IH as [IH1 IH2]; [by apply (wstep_inv size s1)| |].
      { destruct H12; cbn in *; done. }
      split; [|done]. pose proof (wstep_progress size _ _ H12 Hi). lia.
  - intros s' Hw Hf. assert (minv size s' /\ accepted s' = accepted s) as [(Ha & _ & _ & Hfin) Heq].
    { revert Hi. clear - Hw. induction Hw as [|s1 s2 s3 H12 _ IH]; [done|]. intros Hi. destruct IH as [? ->]; [by apply (wstep_inv size s1)|].
      split; [done|]. by destruct H12. }
    split; [|done]. rewrite Hf in Ha, Hfin. destruct Hfin as [_ Hch]. rewrite Hch in Ha. cbn in Ha. by rewrite app_nil_r in Ha.
Qed.

Lemma mail_queue_drains_witness :
  let m := MkMail (str "a@b") (str "s") (str "b") in
  let s := MkM (Close (MkQueue [m] 2 false false)) Idle [m] [] in
  accepted s = [m] /\ work_left s = 7%nat /\ fst (Enqueue m (queue s)) = Err ErrQueueClosed.
Proof.
  cbn zeta. set (m := MkMail _ _ _). set (s := MkM _ _ _ _).
  assert (rtc mstep (MkM (NewQueue 2) Idle [] []) s) as Hr.
  { eapply rtc_l; [apply (ms_enqueue m); vm_compute; reflexivity|]. eapply rtc_l; [apply ms_close|]. apply rtc_refl. }
  destruct (mail_queue_drains 2 s ltac:(lia) Hr) as [[Ha _] Hc]. destruct (Hc eq_refl) as (He & _ & _).
  split_and!; [exact Ha|vm_compute; reflexivity|apply He].
Defined.
