(* ===== verification/Server.v ===== *)
(** * The server that callers share: the state of [internal/bbs/server.go], and the operations of [admin.go],
    [approval.go] and [email.go] that need no session

    [Server] is what every session and the sysop's web pages share: the store, the node table, the chat hub, the
    limiters, the mail queue and the clock.  The code runs a procedure of the server as a sequence of critical
    sections, between which other goroutines run: [atom f] is one such section, and [others] is what the rest of the
    program does before each, as a list of functions, which the theorems quantify over.  A procedure is a function of
    the server and that list ([Proc]).
    The theorems: see [ServerSpec]. *)

From Stdlib Require Import Ascii String ZArith Lia.
From stdpp Require Import base tactics list gmap strings.
From S2P Require Import Prelude GoStrings GoTime GoFiles Term StoreDB StoreUsers StoreMail StoreBoards Limits Nodes Chat Mailer.
From S2P Require FtnAddr FtnOutbound.
Open Scope Z_scope.

(** ** Parameters *)

(** The configuration of [bbs.Config], and what the standard library takes from outside the program: the zone of local
    times, and the random bytes of [crypto/rand], by the number of the read. *)
Class BBS := {
  cfg_Name : bytes;
  cfg_MaxNodes : Z;
  cfg_MaxSignupsPerDay : Z;
  cfg_PublicAddress : bytes;
  store_cfg : StoreDB.Config;
  zone_offset : Z -> Z;         (* seconds east of UTC, at a Unix time *)
  zone_name : Z -> bytes;
  rand_salt : Z -> bytes;
  rand_code : Z -> Z;
  is_print : Z -> bool;         (* [unicode.IsPrint] above ASCII *)
  cfg_ArtDir : bytes;
  cfg_Files : bytes;
  cfg_FileLinkURL : bytes;
  cfg_FileLinkKey : bytes;
  cfg_FileLinkTTL : Z;
  cfg_Addresses : list FtnAddr.Addr;
  cfg_Outbound : FtnOutbound.Outbound;
  cfg_Routes : FtnAddr.Routes;
  cfg_SysopName : bytes
}.

(** ** Local times, as the screens show them *)

Definition weekday_names : list bytes := [str "Sunday"; str "Monday"; str "Tuesday"; str "Wednesday"; str "Thursday"; str "Friday"; str "Saturday"].
Definition weekday (c : civil) : bytes := nth (Z.to_nat ((days_from_civil (year c) (month c) (day c) + 4) mod 7)) weekday_names [].

Definition secs (ns : Z) : Z := ns / 1000000000.

(** ** [fmt] and [strconv] *)

(** [%wd] and [%ws]: padded on the left; [%-ws] on the right. *)
Definition lpad (w : Z) (s : bytes) : bytes := replicate (Z.to_nat (w - rune_count s)) 32 ++ s.
Definition rpad (w : Z) (s : bytes) : bytes := s ++ replicate (Z.to_nat (w - rune_count s)) 32.
Definition fmt_d (w n : Z) : bytes := lpad w (itoa n).

Section params.
Context `{UnicodeTables} `{Crypto} `{MailParser} `{BBS}.

Definition local (t : Z) : civil := civil_of_unix (secs t + zone_offset (secs t)) (t mod 1000000000).

Definition hour_minute (t : Z) : bytes := let c := local t in pad_dec 2 (hour c) ++ str ":" ++ pad_dec 2 (minute c).
Definition month_day (t : Z) : bytes := let c := local t in month_name (month c) ++ str " " ++ pad_dec 2 (day c).

(** The character [r] of [%q]; [None] for a byte that is not UTF-8. *)
Definition quote_rune (r : Z) : bytes :=
  if (r =? 34) || (r =? 92) then [92; r]
  else if (if r <? 128 then between 32 126 r else is_print r) then encode_rune r
  else if r =? 7 then str "\a" else if r =? 8 then str "\b" else if r =? 12 then str "\f" else if r =? 10 then str "\n"
  else if r =? 13 then str "\r" else if r =? 9 then str "\t" else if r =? 11 then str "\v"
  else if (r <? 32) || (r =? 127) then str "\x" ++ pad_hex 2 r
  else if r <? 65536 then str "\u" ++ pad_hex 4 r
  else str "\U" ++ pad_hex 8 r.

Fixpoint quote_go (s : bytes) (skip : nat) : bytes :=
  match s with
  | [] => []
  | b :: s' =>
      match skip with
      | S k => quote_go s' k
      | O =>
          let '(r, n) := decode_rune s in
          (if (r =? rune_error) && (n =? 1)%nat then str "\x" ++ pad_hex 2 b else quote_rune r) ++ quote_go s' (n - 1)
      end
  end.

Definition fmt_q (s : bytes) : bytes := [34] ++ quote_go s 0 ++ [34].
End params.

(** ** server.go *)

(** The limiters of [limits] but the login backoff. *)
Inductive limiter :=
  | loginFailures | signups | signupsAll | mail | posts_ | pages | chat_ | oneliners_
  | emailVerify | emailTarget | emailNotices | emailCopies | emailExport.

#[global] Instance limiter_eq_dec : EqDecision limiter.
Proof. solve_decision. Defined.

Definition signupsAllKey : bytes := str "all".

Definition minute_ns : Z := 60000000000.

Record Server := MkServer {
  sv_db : DB;
  sv_nodes : nodeTable;
  sv_chat : chatHub;
  sv_limit : limiter -> rateLimiter;
  sv_accounts : loginBackoff;
  sv_mail : option Queue;         (* [None]: email is off *)
  sv_fs : FS;                     (* the disk: art, file areas, the outbound *)
  sv_kicked : list (Z * bytes);   (* the terminals hung up, and why *)
  sv_doors : gset bytes;          (* the single-node doors someone is in *)
  sv_rand : Z;                    (* how many reads of crypto/rand there have been *)
  sv_now : Z
}.

Definition set_db (d : DB) (s : Server) : Server :=
  MkServer d (sv_nodes s) (sv_chat s) (sv_limit s) (sv_accounts s) (sv_mail s) (sv_fs s) (sv_kicked s) (sv_doors s) (sv_rand s) (sv_now s).
Definition set_nodes (t : nodeTable) (s : Server) : Server :=
  MkServer (sv_db s) t (sv_chat s) (sv_limit s) (sv_accounts s) (sv_mail s) (sv_fs s) (sv_kicked s) (sv_doors s) (sv_rand s) (sv_now s).
Definition set_chat (h : chatHub) (s : Server) : Server :=
  MkServer (sv_db s) (sv_nodes s) h (sv_limit s) (sv_accounts s) (sv_mail s) (sv_fs s) (sv_kicked s) (sv_doors s) (sv_rand s) (sv_now s).
Definition set_limit (l : limiter) (r : rateLimiter) (s : Server) : Server :=
  MkServer (sv_db s) (sv_nodes s) (sv_chat s) (fun k => if decide (k = l) then r else sv_limit s k) (sv_accounts s) (sv_mail s) (sv_fs s) (sv_kicked s) (sv_doors s) (sv_rand s) (sv_now s).
Definition set_accounts (a : loginBackoff) (s : Server) : Server :=
  MkServer (sv_db s) (sv_nodes s) (sv_chat s) (sv_limit s) a (sv_mail s) (sv_fs s) (sv_kicked s) (sv_doors s) (sv_rand s) (sv_now s).
Definition set_mail (q : option Queue) (s : Server) : Server :=
  MkServer (sv_db s) (sv_nodes s) (sv_chat s) (sv_limit s) (sv_accounts s) q (sv_fs s) (sv_kicked s) (sv_doors s) (sv_rand s) (sv_now s).
Definition set_fs (fs : FS) (s : Server) : Server :=
  MkServer (sv_db s) (sv_nodes s) (sv_chat s) (sv_limit s) (sv_accounts s) (sv_mail s) fs (sv_kicked s) (sv_doors s) (sv_rand s) (sv_now s).
Definition add_kicked (l : list (Z * bytes)) (s : Server) : Server :=
  MkServer (sv_db s) (sv_nodes s) (sv_chat s) (sv_limit s) (sv_accounts s) (sv_mail s) (sv_fs s) (sv_kicked s ++ l) (sv_doors s) (sv_rand s) (sv_now s).
Definition set_doors (l : gset bytes) (s : Server) : Server :=
  MkServer (sv_db s) (sv_nodes s) (sv_chat s) (sv_limit s) (sv_accounts s) (sv_mail s) (sv_fs s) (sv_kicked s) l (sv_rand s) (sv_now s).
Definition next_rand (s : Server) : Server :=
  MkServer (sv_db s) (sv_nodes s) (sv_chat s) (sv_limit s) (sv_accounts s) (sv_mail s) (sv_fs s) (sv_kicked s) (sv_doors s) (sv_rand s + 1) (sv_now s).

(** [newLimits]. *)
Definition newLimits (maxSignups now : Z) (db : DB) (l : limiter) : rateLimiter :=
  match l with
  | loginFailures => newPersistentLimiter 5 (15 * minute_ns) (str "login-ip") now db
  | signups => newPersistentLimiter 3 (60 * minute_ns) (str "signup-ip") now db
  | signupsAll => newPersistentLimiter maxSignups (1440 * minute_ns) (str "signup-all") now db
  | mail => newRateLimiter 30 (60 * minute_ns)
  | posts_ => newRateLimiter 20 (60 * minute_ns)
  | pages => newRateLimiter 6 minute_ns
  | chat_ => newRateLimiter 8 (10 * 1000000000)
  | oneliners_ => newRateLimiter 3 (60 * minute_ns)
  | emailVerify => newRateLimiter 3 (60 * minute_ns)
  | emailTarget => newPersistentLimiter 3 (1440 * minute_ns) (str "email-target") now db
  | emailNotices => newRateLimiter 1 (10 * minute_ns)
  | emailCopies => newRateLimiter 30 (60 * minute_ns)
  | emailExport => newRateLimiter 20 (60 * minute_ns)
  end.

(** [New], with the defaults of [Config] filled in. *)
Definition newServer `{BBS} (mailq : option Queue) (fs : FS) (now : Z) (db : DB) : Server :=
  let maxNodes := if cfg_MaxNodes <=? 0 then 32 else cfg_MaxNodes in
  let maxSignups := if cfg_MaxSignupsPerDay <=? 0 then 20 else cfg_MaxSignupsPerDay in
  MkServer db (newNodeTable maxNodes) newChatHub (newLimits maxSignups now db)
    (newLoginBackoff (newPersistentLimiter 0 backoffWindow (str "login-handle") now db)) mailq fs [] ∅ 0 now.

(** ** Procedures *)

Record Shared := MkShared { srv : Server; others : list (Server -> Server) }.

Definition Proc (A : Type) : Type := Shared -> A * Shared.

#[global] Instance proc_ret : MRet Proc := fun A a s => (a, s).
#[global] Instance proc_bind : MBind Proc := fun A B f m s => let '(a, s) := m s in f a s.

(** One critical section, after whatever the rest of the program did. *)
Definition atom {A} (f : Server -> A * Server) : Proc A := fun s =>
  let before := match others s with [] => srv s | g :: _ => g (srv s) end in
  let '(a, after) := f before in (a, MkShared after (tail (others s))).

(** The store: an operation that may fail, one that always commits, a query. *)
Definition store_op {A} (o : Z -> op A) : Proc (result store_error A) :=
  atom (fun s => match o (sv_now s) (sv_db s) with Ok (a, db) => (Ok a, set_db db s) | Err e => (Err e, s) end).
Definition store_do {A} (o : Z -> DB -> A * DB) : Proc A :=
  atom (fun s => let '(a, db) := o (sv_now s) (sv_db s) in (a, set_db db s)).
Definition store_get {A} (q : DB -> A) : Proc A := atom (fun s => (q (sv_db s), s)).

Definition now_ : Proc Z := atom (fun s => (sv_now s, s)).
Definition fresh {A} (f : Z -> A) : Proc A := atom (fun s => (f (sv_rand s), next_rand s)).

(** The node table. *)
Definition on_nodes {A} (f : nodeTable -> A * nodeTable) : Proc A :=
  atom (fun s => let '(a, t) := f (sv_nodes s) in (a, set_nodes t s)).
Definition nodes_online : Proc (list NodeInfo) := on_nodes (fun t => (online t, t)).
Definition nodes_notify (userID : Z) (text : bytes) : Proc Z := on_nodes (notify userID text).
Definition nodes_broadcast (text : bytes) (skip : Z) : Proc unit := on_nodes (fun t => (tt, broadcast text skip t)).

(** Hanging up writes to the terminals after the table is unlocked. *)
Definition nodes_kick (nodeID : Z) (msg : bytes) : Proc bool :=
  atom (fun s => let '(found, ts) := kick nodeID (sv_nodes s) in (found, add_kicked ((fun t => (t, hangUp_text msg)) <$> ts) s)).
Definition nodes_kickUser (userID : Z) (msg : bytes) : Proc Z :=
  atom (fun s => let '(n, ts) := kickUser userID (sv_nodes s) in (n, add_kicked ((fun t => (t, hangUp_text msg)) <$> ts) s)).

(** The limiters. *)
Definition limit_blocked (l : limiter) (key : bytes) : Proc bool :=
  atom (fun s => let '(b, r) := blocked key (sv_now s) (sv_limit s l) in (b, set_limit l r s)).
Definition limit_hit (l : limiter) (key : bytes) : Proc unit :=
  atom (fun s => let '(r, db) := hit key (sv_now s) (sv_limit s l) (sv_db s) in (tt, set_limit l r (set_db db s))).
Definition accounts_begin (key : bytes) : Proc (Z * bool) :=
  atom (fun s => let '(r, a) := begin_ key (sv_now s) (sv_accounts s) in (r, set_accounts a s)).
Definition accounts_release (key : bytes) : Proc unit :=
  atom (fun s => (tt, set_accounts (release_ key (sv_accounts s)) s)).
Definition accounts_end (key : bytes) (ok : bool) : Proc unit :=
  _ ← atom (fun s => (tt, set_accounts (end_unlock key (sv_accounts s)) s));
  atom (fun s => let '(a, db) := end_record key ok (sv_now s) (sv_accounts s) (sv_db s) in (tt, set_accounts a (set_db db s))).

Definition userKey (id : Z) : bytes := itoa id.

(** The kinds of events.go. *)
Definition EventLogin : bytes := str "login".
Definition EventLoginFailed : bytes := str "login-failed".
Definition EventLocked : bytes := str "login-locked".
Definition EventSignup : bytes := str "signup".
Definition EventSysop : bytes := str "sysop".

(** [event], for the account [userID], [handle]. *)
Definition event (kind : bytes) (userID : Z) (handle ip detail : bytes) : Proc unit :=
  store_do (fun now db => (tt, LogEvent now kind userID handle ip detail db)).

(** ** The parts of a result *)

(** Go's [if err != nil { return err }] for a procedure. *)
Definition try {A B} (m : Proc (result store_error A)) (k : A -> Proc (result store_error B)) : Proc (result store_error B) :=
  r ← m; match r with Ok a => k a | Err e => mret (Err e) end.

Section server.
Context `{UnicodeTables} `{Crypto} `{MailParser} `{BBS}.

(** ** approval.go *)

(** One notice for every account in the list, as its loop goes. *)
Fixpoint notify_all (ids : list Z) (text : bytes) : Proc unit :=
  match ids with
  | [] => mret tt
  | id :: ids => _ ← nodes_notify id text; notify_all ids text
  end.

Definition notifySysops (text : bytes) : Proc unit := ids ← store_get SysopIDs; notify_all ids text.

(** ** email.go *)

Definition replyFooter : bytes := [10; 10] ++ str "-- " ++ [10] ++ str "Replies to this email are not delivered. Call the BBS to reply.".

Definition emailEnabled : Proc bool := atom (fun s => (bool_decide (is_Some (sv_mail s)), s)).

Definition callHint : bytes :=
  if bool_decide (cfg_PublicAddress = []) then str "Call " ++ cfg_Name ++ str " to read it."
  else str "Call " ++ cfg_Name ++ str " at " ++ cfg_PublicAddress ++ str " to read it.".

Definition sendEmail (m : Mailer.Message) : Proc bool :=
  atom (fun s =>
    match sv_mail s with
    | None => (false, s)
    | Some q => let '(r, q) := Enqueue m q in (is_ok r, set_mail (Some q) s)
    end).

(** [longDate], for times that are never zero. *)
Definition long_date (t : Z) : bytes :=
  let c := local t in
  take 3 (weekday c) ++ str " " ++ month_name (month c) ++ str " " ++ itoa (day c) ++ str " " ++ itoa (year c) ++ str " " ++ hour_minute t.

Definition notice_email (to : UserRow) (from subject : bytes) : Mailer.Message :=
  MkMail (u_email to)
    (str "New mail on " ++ cfg_Name ++ str " from " ++ from)
    (from ++ str " sent you a message on " ++ cfg_Name ++ str ":" ++ [10; 10] ++ str "  " ++ subject ++ [10; 10] ++ callHint ++ replyFooter).

Definition copy_email (to : UserRow) (from : bytes) (msg : MessageRow) : Mailer.Message :=
  MkMail (u_email to)
    (str "[" ++ cfg_Name ++ str "] " ++ m_subject msg)
    (str "From: " ++ from ++ [10] ++ str "Date: " ++ long_date (m_sent msg) ++ [10; 10] ++ m_body msg ++ replyFooter).

Definition emailNewMail (to : UserRow) (from : bytes) (msg : MessageRow) (online_ : bool) : Proc unit :=
  on ← emailEnabled;
  if negb on || bool_decide (u_email to = []) then mret tt
  else
    let key := userKey (u_id to) in
    if u_mode to =? EmailNotice then
      if online_ then mret tt
      else
        b ← limit_blocked emailNotices key;
        if b : bool then mret tt
        else _ ← limit_hit emailNotices key; _ ← sendEmail (notice_email to from (m_subject msg)); mret tt
    else if u_mode to =? EmailCopy then
      b ← limit_blocked emailCopies key;
      if b : bool then mret tt
      else _ ← limit_hit emailCopies key; _ ← sendEmail (copy_email to from msg); mret tt
    else mret tt.

(** ** admin.go *)

Inductive login_error := ErrLoginFailed | ErrLoginThrottled | ErrStore (e : store_error).

Definition webTag : bytes := str " (web)".
Definition maxBroadcastLen : Z := 70.

Definition account_key (handle : bytes) : bytes := str "handle:" ++ to_lower handle.

(** The account, or the error and how long to wait. *)
Definition SysopLogin (handle password ip ipKey : bytes) : Proc (UserRow + Z * login_error) :=
  b ← limit_blocked loginFailures ipKey;
  if b : bool then mret (inr (0, ErrLoginThrottled))
  else
    let account := account_key handle in
    '(wait, ok) ← accounts_begin account;
    if negb ok then mret (inr (wait, ErrLoginThrottled))
    else
      r ← store_get (Authenticate handle password);
      match r with
      | Ok u =>
          if u_sysop u && negb (u_locked u) then
            _ ← accounts_end account true;
            _ ← event EventLogin (u_id u) (u_handle u) ip (str "web");
            mret (inl u)
          else
            _ ← accounts_end account false;
            _ ← limit_hit loginFailures ipKey;
            _ ← event EventLoginFailed (u_id u) (u_handle u) ip (str "web: not a sysop or locked");
            mret (inr (0, ErrLoginFailed))
      | Err ErrBadCredentials =>
          _ ← accounts_end account false;
          _ ← limit_hit loginFailures ipKey;
          _ ← event EventLoginFailed 0 handle ip (str "web");
          mret (inr (0, ErrLoginFailed))
      | Err e => _ ← accounts_release account; mret (inr (0, ErrStore e))
      end.

(** [Sysop]: the account again, if it may still use the web. *)
Definition Sysop (id : Z) : Proc (result store_error UserRow) :=
  r ← store_get (UserByID id);
  mret (u ← r; if negb (u_sysop u) || u_locked u then Err ErrForbidden else Ok u).

Definition webAudit (actor : UserRow) (ip detail : bytes) : Proc (result store_error unit) :=
  _ ← event EventSysop (u_id actor) (u_handle actor) ip (detail ++ webTag); mret (Ok tt).

Definition KickNode (actor : UserRow) (ip : bytes) (nodeID : Z) : Proc bool :=
  found ← nodes_kick nodeID (str "*** You have been disconnected by the sysop. ***");
  if negb found then mret false
  else _ ← webAudit actor ip (str "kicked node " ++ itoa nodeID); mret true.

Definition Broadcast (actor : UserRow) (ip text : bytes) : Proc (result store_error unit) :=
  let text := trim_space (StripControl text) in
  if bool_decide (text = []) then mret (Err (InputError (str "Type something to broadcast.")))
  else if maxBroadcastLen <? rune_count text then mret (Err (InputError (str "Broadcasts are at most 70 characters.")))
  else
    _ ← nodes_broadcast (str "Sysop " ++ u_handle actor ++ str ": " ++ text) 0;
    webAudit actor ip (str "broadcast " ++ fmt_q text).

Definition ApproveUser (actor : UserRow) (ip : bytes) (id : Z) : Proc (result store_error unit) :=
  try (store_get (UserByID id)) (fun u =>
  try (store_op (fun _ => ValidateUser (u_id actor) id)) (fun _ =>
  try (webAudit actor ip (str "approved " ++ u_handle u)) (fun _ =>
  _ ← nodes_notify (u_id u) (str "A sysop approved your account. Welcome in!"); mret (Ok tt)))).

Definition locked_msg : bytes := str "*** Your account has been locked by the sysop. ***".
Definition removed_msg : bytes := str "*** Your account has been removed. ***".

(** The operations named as the store's are qualified here. *)
Definition web_SetLocked (actor : UserRow) (ip : bytes) (id : Z) (locked : bool) : Proc (result store_error unit) :=
  try (store_get (UserByID id)) (fun u =>
  try (store_op (fun _ => SetLocked (u_id actor) id locked)) (fun _ =>
  if locked then
    _ ← nodes_kickUser id locked_msg;
    webAudit actor ip (str "locked " ++ u_handle u)
  else webAudit actor ip (str "unlocked " ++ u_handle u))).

Definition web_SetSysop (actor : UserRow) (ip : bytes) (id : Z) (sysop : bool) : Proc (result store_error unit) :=
  try (store_get (UserByID id)) (fun u =>
  try (store_op (fun _ => SetSysop (u_id actor) id sysop)) (fun _ =>
  if sysop then webAudit actor ip (str "promoted " ++ u_handle u ++ str " to sysop")
  else webAudit actor ip (str "demoted " ++ u_handle u))).

Definition web_ResetPassword (actor : UserRow) (ip : bytes) (id : Z) (password : bytes) : Proc (result store_error unit) :=
  try (store_get (UserByID id)) (fun u =>
  salt ← fresh rand_salt;
  try (store_op (fun _ => ResetPassword store_cfg salt (u_id actor) id password)) (fun _ =>
  webAudit actor ip (str "reset the password of " ++ u_handle u))).

(** The caller is hung up before the store is asked. *)
Definition web_DeleteUser (actor : UserRow) (ip : bytes) (id : Z) : Proc (result store_error unit) :=
  try (store_get (UserByID id)) (fun u =>
  if u_id actor =? id then mret (Err ErrForbidden)
  else
    _ ← nodes_kickUser id removed_msg;
    try (store_op (fun _ => DeleteUser (u_id actor) id)) (fun _ =>
    webAudit actor ip (str "deleted user " ++ u_handle u))).

Definition mail_notice (from subject : bytes) : bytes := str "New mail from " ++ from ++ str ": " ++ subject.

Definition SendMail (actor : UserRow) (ip : bytes) (toID : Z) (subject body : bytes) : Proc (result store_error unit) :=
  try (store_get (UserByID toID)) (fun to =>
  try (store_op (fun now => SendMessage now (u_id actor) toID subject body 0)) (fun msg =>
  reached ← nodes_notify (u_id to) (mail_notice (u_handle actor) (m_subject msg));
  _ ← emailNewMail to (u_handle actor) msg (0 <? reached);
  webAudit actor ip (str "mailed " ++ u_handle to ++ str ": " ++ fmt_q (m_subject msg)))).

Definition web_CreateBoard (actor : UserRow) (ip name description : bytes) (sysopOnly : bool) : Proc (result store_error unit) :=
  try (store_op (fun now => CreateBoard now (u_id actor) name description sysopOnly)) (fun b =>
  webAudit actor ip (str "created board " ++ fmt_q (b_name b))).

Definition web_DeleteBoard (actor : UserRow) (ip : bytes) (id : Z) : Proc (result store_error unit) :=
  try (store_get (Board id)) (fun b =>
  try (store_op (fun _ => DeleteBoard (u_id actor) id)) (fun _ =>
  webAudit actor ip (str "deleted board " ++ fmt_q (b_name b)))).

Definition web_DeletePost (actor : UserRow) (ip boardName : bytes) (post : PostRow) : Proc (result store_error unit) :=
  try (store_op (fun _ => DeletePost (p_id post) (u_id actor))) (fun _ =>
  webAudit actor ip (str "deleted post " ++ fmt_q (p_subject post) ++ str " on " ++ boardName)).

Definition web_AddBulletin (actor : UserRow) (ip title body : bytes) : Proc (result store_error unit) :=
  try (store_op (fun now => AddBulletin now (u_id actor) title body)) (fun b =>
  try (webAudit actor ip (str "posted bulletin " ++ fmt_q (bu_title b))) (fun _ =>
  _ ← nodes_broadcast (str "News: " ++ bu_title b) 0; mret (Ok tt))).

Definition web_DeleteBulletin (actor : UserRow) (ip : bytes) (b : BulletinRow) : Proc (result store_error unit) :=
  try (store_op (fun _ => DeleteBulletin (u_id actor) (bu_id b))) (fun _ =>
  webAudit actor ip (str "deleted bulletin " ++ fmt_q (bu_title b))).

(** A line of the wall comes with its author's handle. *)
Definition web_DeleteOneliner (actor : UserRow) (ip : bytes) (o : OnelinerRow * bytes) : Proc (result store_error unit) :=
  try (store_op (fun _ => DeleteOneliner (u_id actor) (o_id (fst o)))) (fun _ =>
  webAudit actor ip (str "deleted oneliner by " ++ snd o ++ str ": " ++ fmt_q (o_text (fst o)))).

End server.
