(* ===== verification/MailMessage.v ===== *)
(** * Sending email: [internal/mailer/mailer.go]

    [buildMessage], and [Send] over the relay of [Smtp].  The theorems: an email is its nine headers, the empty line and a
    quoted-printable body that reads back as the text, and nothing that a caller typed adds a header or a line; a relay
    on another machine hears nothing but greetings in the clear, whatever it answers; and when [Send] succeeds, the
    relay was given exactly this message for exactly this recipient. *)

From Stdlib Require Import Ascii String ZArith Lia.
From stdpp Require Import base tactics list strings.
From S2P Require Import Prelude GoStrings GoTime Term StoreDB FileLink GoMime Smtp Mailer Server.
Open Scope Z_scope.

Record SMTPConfig := MkSMTP { sm_Host : bytes; sm_Port : Z; sm_Username : bytes; sm_Password : bytes; sm_From : bytes; sm_FromName : bytes }.

Definition implicitTLSPort : Z := 465.

(** [Format(time.RFC1123Z)] of a local time whose zone is [off] seconds east. *)
Definition rfc1123z (t : civil) (off : Z) : bytes :=
  let mins := Z.quot off 60 in
  take 3 (weekday t) ++ str ", " ++ pad_dec 2 (day t) ++ str " " ++ month_name (month t) ++ str " " ++ pad_dec 4 (year t) ++ str " "
  ++ pad_dec 2 (hour t) ++ str ":" ++ pad_dec 2 (minute t) ++ str ":" ++ pad_dec 2 (second t) ++ str " "
  ++ (if mins <? 0 then str "-" else str "+") ++ pad_dec 2 (Z.abs mins / 60) ++ pad_dec 2 (Z.abs mins mod 60).

(** The headers; [id] are the twelve random bytes. *)
Definition email_headers (from fromName : bytes) (m : Message) (t : civil) (off : Z) (id : bytes) : list (bytes * bytes) :=
  let domain := slice_from from (last_index_byte from 64 + 1) in
  [(str "From", mail_address_String (StripControl fromName) from);
   (str "To", mail_address_String [] (To m));
   (str "Subject", QEncode (StripControl (Subject m)));
   (str "Date", rfc1123z t off);
   (str "Message-ID", str "<" ++ (id ≫= pad_hex 2) ++ str "@" ++ domain ++ str ">");
   (str "MIME-Version", str "1.0");
   (str "Content-Type", str "text/plain; charset=utf-8");
   (str "Content-Transfer-Encoding", str "quoted-printable");
   (str "Auto-Submitted", str "auto-generated")].

Definition header_line (h : bytes * bytes) : bytes := fst h ++ str ": " ++ snd h ++ [13; 10].

Definition buildMessage (from fromName : bytes) (m : Message) (t : civil) (off : Z) (id : bytes) : bytes :=
  (email_headers from fromName m t off id ≫= header_line) ++ [13; 10]
  ++ quoted_printable (replace_all (replace_all (Body m) [13; 10] [10]) [10] [13; 10]).

Section send.
Context `{MailParser} `{Relay}.

Definition NewSMTPSender (cfg : SMTPConfig) : result smtp_error SMTPConfig :=
  if bool_decide (sm_Host cfg = []) || (sm_Port cfg <=? 0) then Err NoConfig
  else match parse_address (sm_From cfg) with None => Err BadFrom | Some _ => Ok cfg end.

Definition isLoopback (host : bytes) : bool := bool_decide (host = str "localhost") || ip_loopback host.

(** [net.JoinHostPort] *)
Definition JoinHostPort (host port : bytes) : bytes :=
  if contains_byte host 58 then str "[" ++ host ++ str "]:" ++ port else host ++ str ":" ++ port.

Definition dial (s : SMTPConfig) : SMTP unit :=
  _ ← s_guard (relay_dial (JoinHostPort (sm_Host s) (itoa (sm_Port s)))) NotConnected;
  _ ← (if sm_Port s =? implicitTLSPort then handshake else mret tt);
  _ ← NewClient;
  if negb (sm_Port s =? implicitTLSPort) && negb (isLoopback (sm_Host s)) then
    ok ← Extension (str "STARTTLS");
    if ok : bool then StartTLS else s_fail NoTLS
  else mret tt.

Definition transact (s : SMTPConfig) (to msg : bytes) : SMTP unit :=
  _ ← (if bool_decide (sm_Username s = []) then mret tt else PlainAuth (sm_Username s) (sm_Password s) (sm_Host s));
  _ ← Mail (sm_From s);
  _ ← Rcpt to;
  _ ← Data msg;
  Quit.

(** The outcome, and everything that was said on the connection. *)
Definition Send (s : SMTPConfig) (t : civil) (off : Z) (id : bytes) (m : Message) : result smtp_error unit * list Smtp.event :=
  if bool_decide (parse_address (To m) = None) || contains_any (To m) [13; 10] then (Err BadRecipient, [])
  else
    let '(r, c) := (_ ← dial s; transact s (To m) (buildMessage (sm_From s) (sm_FromName s) m t off id)) (fresh_client (sm_Host s)) in
    (r, c_log c).
End send.

(** * What an email looks like *)

Lemma replace_crlf s : replace_all s [10] [13; 10] = (s ≫= crlf).
Proof.
  unfold replace_all. induction s as [|b s IH]; [done|]. cbn [replace_go has_prefix length Nat.sub]. rewrite andb_true_r, bind_cons.
  unfold crlf at 1. destruct (Z.eqb_spec b 10) as [->|]; cbn [app]; by rewrite IH.
Qed.

Lemma replace_bytes s old new k : Forall byte_ok s -> Forall byte_ok new -> Forall byte_ok (replace_go old new s k).
Proof.
  intros Hs Hn. revert k. induction Hs as [|b s Hb Hs IH]; intros k; [constructor|]. cbn [replace_go]. destruct k; [|apply IH].
  destruct (has_prefix _ _); [apply Forall_app; split; [done|apply IH]|]. constructor; [done|apply IH].
Qed.

(** A text that is written out. *)
Ltac literal_line := repeat first [apply Forall_nil_2 | apply Forall_cons; split; [lia|]].

Lemma line_join a b : one_line a -> one_line b -> one_line (a ++ b).
Proof. intros. by apply Forall_app. Qed.
Ltac line_parts := repeat match goal with |- one_line (_ ++ _) => apply line_join end.

(** The text of the body: its lines with CRLF between them; a carriage return alone ends a line too. *)
Definition body_text (body : bytes) : bytes := replace_all body [13; 10] [10] ≫= as_line_end.

Lemma hex_one_line id : bytes_ok id -> one_line (id ≫= pad_hex 2).
Proof.
  intros Hid. induction Hid as [|b id Hb Hid IH]; [constructor|]. rewrite bind_cons. apply Forall_app. split; [|done].
  eapply Forall_impl; [apply (FtnOutbound.pad_hex_chars 2 b); unfold byte_ok in Hb; lia|]. intros c Hc. cbn. unfold FtnOutbound.hex_char in Hc. lia.
Qed.

Lemma dec_one_line w n : 0 <= n -> one_line (pad_dec w n).
Proof.
  intros Hn. unfold pad_dec, zpad. apply Forall_app. split; [apply Forall_replicate; lia|].
  eapply Forall_impl; [by apply udec_digits|]. intros b Hb. apply udigit_range in Hb. lia.
Qed.

Lemma rfc1123z_one_line t off : valid_civil t -> 0 <= year t -> one_line (rfc1123z t off).
Proof.
  intros (Hm & Hd & Hh & Hmi & Hs & _) Hy.
  assert (forall s, Forall one_line s -> forall i, one_line (nth i s [])) as Hn.
  { intros s Hs' i. destruct (nth_in_or_default i s []) as [Hi| ->]; [|constructor]. rewrite Forall_forall in Hs'. apply Hs'. by apply list_elem_of_In. }
  assert (one_line (weekday t)) as Hw by (apply Hn; repeat constructor; lia).
  assert (one_line (month_name (month t))) as Hmn by (apply Hn; repeat constructor; lia).
  unfold rfc1123z. line_parts; try (by apply Forall_take); try done; try (apply dec_one_line; dlia); try by literal_line.
  destruct (Z.quot off 60 <? 0); literal_line.
Qed.

Lemma StripControl_bytes s : bytes_ok s -> bytes_ok (StripControl s).
Proof. intros Hs. eapply Forall_impl; [by apply Term.StripControl_clean|]. intros b Hb. unfold clean_byte, byte_ok in *. cbn. lia. Qed.

Lemma header_values (from fromName : bytes) (m : Message) (t : civil) (off : Z) (id : bytes) :
  bytes_ok from -> bytes_ok fromName -> bytes_ok (To m) -> bytes_ok (Subject m) -> bytes_ok id -> one_line from -> one_line (To m) ->
  valid_civil t -> 0 <= year t -> Forall (fun h => one_line (snd h)) (email_headers from fromName m t off id).
Proof.
  intros Hf Hn Ht Hs Hid Lf Lt Hc Hy. unfold email_headers.
  repeat match goal with |- Forall _ ((_, _) :: _) => apply Forall_cons; split; [cbn [snd]|] end; [| | | | |by literal_line..| apply Forall_nil_2].
  - apply address_one_line; [by apply StripControl_bytes|done..].
  - apply address_one_line; [constructor|done..].
  - apply QEncode_one_line. by apply StripControl_bytes.
  - by apply rfc1123z_one_line.
  - line_parts; try (by apply hex_one_line); try (by apply Forall_drop); literal_line.
Qed.

(** ** The message in lines *)

Lemma join_cons_ne (l : bytes) ls sep : ls <> [] -> join (l :: ls) sep = l ++ sep ++ join ls sep.
Proof. by destruct ls. Qed.

(** Each of [ls] ended by CRLF, then more lines. *)
Lemma join_lines ls more : more <> [] -> (ls ≫= fun l => l ++ [13; 10]) ++ join more [13; 10] = join (ls ++ more) [13; 10].
Proof.
  intros Hm. induction ls as [|l ls IH]; [done|]. rewrite bind_cons, <-!app_assoc, IH. cbn [app]. rewrite join_cons_ne; [done|].
  destruct ls; [done|discriminate].
Qed.

Definition header_text (h : bytes * bytes) : bytes := fst h ++ str ": " ++ snd h.

Lemma message_lines from fromName m t off id : bytes_ok (Body m) ->
  exists body, buildMessage from fromName m t off id = join ((header_text <$> email_headers from fromName m t off id) ++ [] :: body) [13; 10]
    /\ body <> [] /\ Forall qp_ok_line body /\ qp_decode (join body [13; 10]) = body_text (Body m).
Proof.
  intros Hb. destruct (quoted_printable_spec (replace_all (Body m) [13; 10] [10])) as (body & Hne & E & Hl & Hd).
  { apply replace_bytes; [done|]. repeat constructor; unfold byte_ok; lia. }
  exists body. split_and!; [|done|done|by rewrite <-E].
  unfold buildMessage. rewrite replace_crlf, E. rewrite <-join_lines by done. f_equal.
  by rewrite join_cons_ne.
Qed.

Lemma qp_line_one_line l : qp_ok_line l -> one_line l.
Proof.
  intros [Hc _ _]. eapply Forall_impl; [exact Hc|]. intros b [Hb|Hb]; cbn; [unfold graphic, between in Hb|unfold is_blank in Hb]; lia.
Qed.

(** The headers' names, in their order. *)
Definition header_names : list bytes :=
  [str "From"; str "To"; str "Subject"; str "Date"; str "Message-ID"; str "MIME-Version"; str "Content-Type"; str "Content-Transfer-Encoding";
   str "Auto-Submitted"].

(** The lines of a text of lines. *)
Fixpoint lines_of (s cur : bytes) : list bytes :=
  match s with
  | [] => [cur]
  | b :: s1 =>
      if b =? 13 then match s1 with c :: s2 => if c =? 10 then cur :: lines_of s2 [] else lines_of s1 (cur ++ [b]) | [] => [cur ++ [b]] end
      else lines_of s1 (cur ++ [b])
  end.

Lemma lines_of_line l s cur : one_line l -> lines_of (l ++ s) cur = lines_of s (cur ++ l).
Proof.
  intros Hl. revert cur. induction Hl as [|b l [H1 _] Hl IH]; intros cur; [by rewrite app_nil_r|]. cbn [app lines_of].
  destruct (Z.eqb_spec b 13); [done|]. by rewrite IH, <-app_assoc.
Qed.

Lemma lines_of_join ls : ls <> [] -> Forall one_line ls -> lines_of (join ls [13; 10]) [] = ls.
Proof.
  intros Hne Hls. induction Hls as [|l ls Hl Hls IH]; [done|]. destruct ls as [|l' ls].
  - cbn [join]. rewrite <-(app_nil_r l) at 1. by rewrite lines_of_line.
  - rewrite join_cons_ne, lines_of_line by done. cbn [app lines_of Z.eqb Pos.eqb]. by rewrite IH.
Qed.

Lemma message_one_line from fromName m t off id body :
  bytes_ok from -> bytes_ok fromName -> bytes_ok (To m) -> bytes_ok (Subject m) -> bytes_ok id -> one_line from -> one_line (To m) ->
  valid_civil t -> 0 <= year t -> Forall qp_ok_line body ->
  Forall one_line ((header_text <$> email_headers from fromName m t off id) ++ [] :: body).
Proof.
  intros Hf Hn Ht Hs Hid Lf Lt Hc Hy Hl. apply Forall_app. split.
  - apply Forall_fmap. pose proof (header_values from fromName m t off id Hf Hn Ht Hs Hid Lf Lt Hc Hy) as Hv.
    assert (Forall (fun h => one_line (fst h)) (email_headers from fromName m t off id)) as Hk.
    { unfold email_headers. repeat match goal with |- Forall _ ((_, _) :: _) => apply Forall_cons; split; [cbn [fst]|] end;
        [by literal_line..|apply Forall_nil_2]. }
    rewrite Forall_forall in Hk, Hv |- *. intros h Hh. specialize (Hk h Hh). specialize (Hv h Hh). cbn in Hk, Hv.
    apply line_join; [done|]. apply line_join; [by literal_line|done].
  - constructor; [constructor|]. eapply Forall_impl; [exact Hl|apply qp_line_one_line].
Qed.

(** C28: An email is what it is meant to be and nothing more: whatever the names, the subject and the text hold, line breaks
    included, a message is the nine headers in their order, one line each, the empty line, and a body of lines of at
    most 76 printable characters that a quoted-printable reader turns back into the text with its line ends as
    CRLF; a subject that is no plain ASCII stands in encoded words of at most 75 characters that split no character
    and read back as the subject without control characters. *)
Theorem email_says_what_was_meant (from fromName : bytes) (m : Message) (t : civil) (off : Z) (id : bytes) :
  bytes_ok from -> bytes_ok fromName -> bytes_ok (To m) -> bytes_ok (Subject m) -> bytes_ok (Body m) -> bytes_ok id ->
  one_line from -> one_line (To m) -> valid_civil t -> 0 <= year t ->
  exists values body,
    lines_of (buildMessage from fromName m t off id) [] = zip_with (fun n v => n ++ str ": " ++ v) header_names values ++ [] :: body
    /\ length values = 9%nat
    /\ Forall qp_ok_line body /\ qp_decode (join body [13; 10]) = body_text (Body m)
    /\ (let subject := StripControl (Subject m) in
        if needs_encoding subject then
          exists groups, concat groups = characters subject
            /\ values !! 2%nat = Some (join ((fun g => encoded_word (ch "q") (q_string (concat g))) <$> groups) [32])
            /\ Forall (fun g => len (encoded_word (ch "q") (q_string (concat g))) <= 75 /\ q_decode (q_string (concat g)) = concat g) groups
        else values !! 2%nat = Some subject).
Proof.
  intros Hf Hn Ht Hs Hb Hid Lf Lt Hc Hy. destruct (message_lines from fromName m t off id Hb) as (body & -> & Hne & Hl & Hd).
  exists (snd <$> email_headers from fromName m t off id), body. split_and!; [|done|done|done|].
  - rewrite lines_of_join; [done|by intros [_ ?]%app_nil|]. by apply message_one_line.
  - cbn zeta. destruct (needs_encoding (StripControl (Subject m))) eqn:En.
    + destruct (QEncode_words (StripControl (Subject m)) (StripControl_bytes _ Hs) En) as (gs & E1 & E2 & E3). exists gs. split_and!; [done| |done].
      cbn. by rewrite E2.
    + cbn. unfold QEncode. by rewrite En.
Qed.

(** * What the relay hears *)

Section privacy.
Context `{MailParser} `{Relay}.

(** Greetings, and what asks for encryption: all that may go to another machine in the clear. *)
Definition greetings : list bytes := [str "EHLO localhost"; str "HELO localhost"; str "STARTTLS"; str "QUIT"].
Ltac greeting := repeat first [by apply list_elem_of_here | apply list_elem_of_further].
Definition harmless (e : Smtp.event) : Prop := match e with Clear s => s ∈ greetings | _ => True end.

Definition encrypted (c : Client) : Prop := c_tls c = true.
Definition anyhow (c : Client) : Prop := True.

Lemma encrypted_kept c c' : encrypted c -> says_between harmless c c' -> encrypted c'.
Proof. intros Hc (_ & Ht & _). by apply Ht. Qed.
Lemma anyhow_kept c c' : anyhow c -> says_between harmless c c' -> anyhow c'.
Proof. done. Qed.

Lemma sealed_harmless s c : encrypted c -> harmless (if c_tls c then Sealed s else Clear s).
Proof. by intros ->. Qed.
Lemma greeting_harmless s c : s ∈ greetings -> harmless (if c_tls c then Sealed s else Clear s).
Proof. by destruct (c_tls c). Qed.

Lemma hello_harmless (I : Client -> Prop) c : I c -> harmless (if c_tls c then Sealed (str "EHLO localhost") else Clear (str "EHLO localhost"))
  /\ harmless (if c_tls c then Sealed (str "HELO localhost") else Clear (str "HELO localhost"))
  /\ harmless (if c_tls c then Sealed (str "QUIT") else Clear (str "QUIT")).
Proof. intros _. split_and!; apply greeting_harmless; greeting. Qed.

(** A call that is harmless in any state, and one that is once the connection is encrypted. *)
Abbreviation quiet m := (says harmless anyhow m).
Abbreviation private m := (says harmless encrypted m).

(** The calls of a handler one after another: [kept] keeps the condition, [line] answers for the lines said. *)
Ltac heard kept line :=
  repeat match goal with
  | |- says _ _ (_ ≫= _) => apply (says_bind _ _ kept); [|intros ?]
  | |- says _ _ (mret _) => apply says_ret
  | |- says _ _ (s_fail _) => apply says_fail
  | |- says _ _ (s_guard _ _) => apply says_guard
  | |- says _ _ (s_ignore _) => apply says_ignore
  | |- says _ _ the_client => apply says_client
  | |- says _ _ (ReadResponse _) => apply says_read
  | |- says _ _ hello => apply (says_hello _ _ kept (hello_harmless _))
  | |- says _ _ ehlo => apply (says_ehlo _ _ kept (hello_harmless _))
  | |- says _ _ Quit => apply (says_quit _ _ kept (hello_harmless _))
  | |- says _ _ (Extension _) => apply (says_extension _ _ kept (hello_harmless _))
  | |- says _ _ (cmd _ _) => apply (says_cmd _ _ kept); intros ? ?; line
  | |- says _ _ (tell _) => apply says_tell; intros ? ?; line
  | |- says _ _ (if ?b then _ else _) => destruct b
  | |- says _ _ (match ?x with _ => _ end) => destruct x
  end.

Lemma handshake_quiet : quiet handshake.
Proof.
  intros c _. assert (says_between harmless c (MkClient (c_host c) (c_tls c) (c_ext c) (c_hello c) (c_log c ++ [Handshake]))) as Hc.
  { split; [done|]. split; [done|]. exists [Handshake]. split; [done|by apply Forall_singleton]. }
  unfold handshake. destruct (relay_tls _); cbn; [|exact Hc]. destruct Hc as (? & _ & ?). by split_and!.
Qed.

Lemma handshake_encrypts c c' : handshake c = (Ok tt, c') -> encrypted c'.
Proof. unfold handshake. destruct (relay_tls _); by intros [= <-]. Qed.

Lemma StartTLS_quiet : quiet StartTLS.
Proof. unfold StartTLS. heard anyhow_kept ltac:(apply greeting_harmless; greeting). apply handshake_quiet. Qed.

Lemma s_bind_Ok {A B} (m : SMTP A) (k : A -> SMTP B) c b c' :
  (m ≫= k) c = (Ok b, c') -> exists a c1, m c = (Ok a, c1) /\ k a c1 = (Ok b, c').
Proof. unfold mbind, s_bind. destruct (m c) as [[a|e] c1]; [by eauto|done]. Qed.

Lemma read_Ok want c t c' : ReadResponse want c = (Ok t, c') -> c' = c.
Proof. unfold ReadResponse. by repeat case_match; intros [=]. Qed.

Lemma guard_Ok b e c t c' : s_guard b e c = (Ok t, c') -> b = true /\ c' = c.
Proof. destruct b; [|done]. by intros [=]. Qed.

Ltac step_Ok H := let a := fresh "a" in let c := fresh "c" in let E := fresh "E" in apply s_bind_Ok in H as (a & c & E & H).

Ltac units := repeat match goal with u : unit |- _ => destruct u end.

Lemma dial_quiet s : quiet (dial s).
Proof.
  unfold dial, NewClient. heard anyhow_kept ltac:(apply greeting_harmless; greeting); [apply handshake_quiet|apply StartTLS_quiet].
Qed.

Lemma dial_encrypts s c c' : isLoopback (sm_Host s) = false -> dial s c = (Ok tt, c') -> encrypted c'.
Proof.
  intros Hl Hd. unfold dial in Hd. rewrite Hl in Hd. cbn [negb] in Hd. rewrite andb_true_r in Hd.
  step_Ok Hd. step_Ok Hd. step_Ok Hd. unfold NewClient in E1. step_Ok E1. apply read_Ok in E2. injection E1 as _ <-. subst.
  destruct (sm_Port s =? implicitTLSPort); cbn [negb] in Hd.
  - injection Hd as <-. units. by eapply handshake_encrypts.
  - step_Ok Hd. match type of Hd with context [if ?b then _ else _] => destruct b end; [|done].
    unfold StartTLS in Hd. step_Ok Hd. step_Ok Hd. step_Ok Hd. units. match goal with E : handshake _ = _ |- _ => apply handshake_encrypts in E as E4 end. pose proof (says_ehlo harmless encrypted encrypted_kept (hello_harmless _) _ E4) as He.
    rewrite Hd in He. by eapply encrypted_kept.
Qed.

Lemma transact_private s to msg : private (transact s to msg).
Proof.
  unfold transact, PlainAuth, Mail, Rcpt, Data. cbv zeta. heard encrypted_kept ltac:(by apply sealed_harmless).
Qed.

(** C27: Mail is never sent in the clear to another machine: whatever the relay answers at any point, and also when it breaks off,
    a relay that is not on this machine hears in the clear only EHLO, HELO, STARTTLS and QUIT; the password, the
    addresses and the message go over TLS, with a certificate for the host, or not at all. *)
Theorem mail_stays_private (s : SMTPConfig) (t : civil) (off : Z) (id : bytes) (m : Message) :
  isLoopback (sm_Host s) = false -> Forall harmless (snd (Send s t off id m)).
Proof.
  intros Hl. unfold Send. destruct (_ || _); [constructor|]. unfold mbind, s_bind.
  set (c0 := fresh_client (sm_Host s)). pose proof (dial_quiet s c0 Logic.I) as Hq. pose proof (dial_encrypts s c0) as He.
  assert (forall c c', c_log c = [] -> says_between harmless c c' -> Forall harmless (c_log c')) as Hlog.
  { intros c c' E (_ & _ & l & El & Hf). by rewrite El, E. }
  destruct (dial s c0) as [[[]|e] c1]; cbn [snd] in *; [|by apply (Hlog c0)].
  pose proof (transact_private s (To m) (buildMessage (sm_From s) (sm_FromName s) m t off id) c1 (He c1 Hl eq_refl)) as Ht.
  destruct (transact _ _ _ c1) as [r c2]. cbn [snd] in *. apply (Hlog c0); [done|]. by eapply between_trans.
Qed.

(** ** What a success means *)

(** What comes before the mail: greetings, the handshake, the password. *)
Definition before_mail (e : Smtp.event) : Prop :=
  match e with Handshake => True | Clear s | Sealed s => s ∈ str "*" :: greetings \/ has_prefix s (str "AUTH PLAIN ") = true end.

Lemma before_line s c : s ∈ str "*" :: greetings \/ has_prefix s (str "AUTH PLAIN ") = true -> before_mail (if c_tls c then Sealed s else Clear s).
Proof. by destruct (c_tls c). Qed.

Lemma before_kept c c' : anyhow c -> says_between before_mail c c' -> anyhow c'.
Proof. done. Qed.

Lemma harmless_hello_before c : anyhow c -> before_mail (if c_tls c then Sealed (str "EHLO localhost") else Clear (str "EHLO localhost"))
  /\ before_mail (if c_tls c then Sealed (str "HELO localhost") else Clear (str "HELO localhost"))
  /\ before_mail (if c_tls c then Sealed (str "QUIT") else Clear (str "QUIT")).
Proof. intros _. split_and!; apply before_line; left; greeting. Qed.

Lemma handshake_before : says before_mail anyhow handshake.
Proof.
  intros c _. unfold handshake. destruct (relay_tls _); (split; [done|split; [done|]]); exists [Handshake]; (split; [done|by apply Forall_singleton]).
Qed.

Ltac before :=
  repeat match goal with
  | |- says _ _ (_ ≫= _) => apply (says_bind _ _ before_kept); [|intros ?]
  | |- says _ _ (mret _) => apply says_ret
  | |- says _ _ (s_fail _) => apply says_fail
  | |- says _ _ (s_guard _ _) => apply says_guard
  | |- says _ _ (s_ignore _) => apply says_ignore
  | |- says _ _ the_client => apply says_client
  | |- says _ _ (ReadResponse _) => apply says_read
  | |- says _ _ handshake => apply handshake_before
  | |- says _ _ hello => apply (says_hello _ _ before_kept harmless_hello_before)
  | |- says _ _ ehlo => apply (says_ehlo _ _ before_kept harmless_hello_before)
  | |- says _ _ Quit => apply (says_quit _ _ before_kept harmless_hello_before)
  | |- says _ _ (Extension _) => apply (says_extension _ _ before_kept harmless_hello_before)
  | |- says _ _ (cmd _ _) => apply (says_cmd _ _ before_kept); intros ? _; apply before_line; left; greeting
  | |- says _ _ (tell _) => apply says_tell; intros ? _; apply before_line; by right
  | |- says _ _ (if ?b then _ else _) => destruct b
  | |- says _ _ (match ?x with _ => _ end) => destruct x
  end.

Lemma dial_before s : says before_mail anyhow (dial s).
Proof. unfold dial, NewClient, StartTLS. before. Qed.

Lemma auth_before u p h : says before_mail anyhow (PlainAuth u p h).
Proof. unfold PlainAuth. cbv zeta. before. Qed.

Definition said (c : Client) (s : bytes) : Smtp.event := if c_tls c then Sealed s else Clear s.
Definition with_log (c : Client) (l : list Smtp.event) : Client := MkClient (c_host c) (c_tls c) (c_ext c) (c_hello c) (c_log c ++ l).

Lemma cmd_Ok want s c t c' : cmd want s c = (Ok t, c') -> c' = with_log c [said c s].
Proof. intros E. unfold cmd in E. step_Ok E. apply read_Ok in E as ->. by injection E0 as _ <-. Qed.

Lemma hello_Ok c t c' : hello c = (Ok t, c') -> c_hello c' = Some (Ok tt).
Proof.
  unfold hello. destruct t. destruct (c_hello c) as [r|] eqn:E; [intros [= -> <-]; done|].
  destruct (ehlo c) as [[[]|e] c1]; [by intros [= <-]|]. destruct (helo c1) as [r c2]. by intros [= -> <-].
Qed.

Lemma no_break_one_line s : contains_any s [13; 10] = false \/ contains_any s [10; 13] = false -> one_line s.
Proof.
  intros Hs. apply Forall_forall. intros b Hb.
  assert (forall cs, contains_any s cs = false -> contains_byte cs b = false) as Hc.
  { intros cs Hcs. unfold contains_any in Hcs. destruct (contains_byte cs b) eqn:E; [|done].
    rewrite <-Hcs. symmetry. apply existsb_exists. exists b. split; [by apply list_elem_of_In|done]. }
  unfold contains_byte in Hc. destruct Hs as [Hs|Hs]; apply Hc in Hs; cbn in Hs; lia.
Qed.

Lemma validateLine_one_line s : validateLine s = true -> one_line s.
Proof. unfold validateLine. intros Hs%negb_true_iff. apply no_break_one_line. by right. Qed.

(** The five things said when [transact] goes on to its end, on a connection that has been greeted. *)
Definition mail_events (seal : bytes -> Smtp.event) (from ext to block : bytes) : list Smtp.event :=
  [seal (str "MAIL FROM:<" ++ from ++ str ">" ++ ext); seal (str "RCPT TO:<" ++ to ++ str ">"); seal (str "DATA"); seal block; seal (str "QUIT")].

Lemma transact_log s to msg c c' : transact s to msg c = (Ok tt, c') ->
  one_line (sm_From s) /\
  exists setup seal ext, (seal = Clear \/ seal = Sealed) /\ Forall before_mail setup /\ (ext = [] \/ head ext = Some 32)
    /\ c_log c' = c_log c ++ setup ++ mail_events seal (sm_From s) ext to (dot_write BeginLine msg).
Proof.
  intros Ht. unfold transact in Ht. step_Ok Ht.
  assert (exists l, c_log c0 = c_log c ++ l /\ Forall before_mail l) as (l1 & L1 & F1).
  { destruct (bool_decide _); [injection E as _ <-; exists []; by rewrite app_nil_r|].
    pose proof (auth_before (sm_Username s) (sm_Password s) (sm_Host s) c Logic.I) as Ha. rewrite E in Ha. apply Ha. }
  step_Ok Ht. unfold Mail in E0. step_Ok E0. apply guard_Ok in E1 as [Hv ->]. split; [by apply validateLine_one_line|]. step_Ok E0.
  assert (exists l, c_log c2 = c_log c0 ++ l /\ Forall before_mail l) as (l2 & L2 & F2).
  { pose proof (says_hello _ _ before_kept harmless_hello_before c0 Logic.I) as Hh. rewrite E1 in Hh. apply Hh. }
  apply hello_Ok in E1. step_Ok E0. injection E2 as <- <-. step_Ok E0. injection E0 as _ <-. apply cmd_Ok in E2 as ->.
  step_Ok Ht. unfold Rcpt in E0. step_Ok E0. apply guard_Ok in E2 as [_ ->]. step_Ok E0. injection E0 as _ <-. apply cmd_Ok in E2 as ->.
  step_Ok Ht. unfold Data in E0. step_Ok E0. apply cmd_Ok in E2 as ->. step_Ok E0. injection E2 as _ <-. step_Ok E0. injection E0 as _ <-.
  apply read_Ok in E2 as ->. unfold Quit in Ht. step_Ok Ht. unfold hello in E0. cbn [c_hello with_log] in E0. rewrite E1 in E0. injection E0 as _ <-.
  step_Ok Ht. injection Ht as <-. apply cmd_Ok in E0 as ->.
  exists (l1 ++ l2), (if c_tls c2 then Sealed else Clear),
    ((if bool_decide (is_Some (c_extension (str "8BITMIME") c2)) then str " BODY=8BITMIME" else [])
     ++ (if bool_decide (is_Some (c_extension (str "SMTPUTF8") c2)) then str " SMTPUTF8" else [])). split; [destruct (c_tls c2); by auto|]. split; [by apply Forall_app|]. split.
  2: { unfold with_log, said. cbn [c_log c_tls c_host c_ext c_hello]. rewrite L2, L1, <-!(@app_assoc Smtp.event). unfold mail_events. by destruct (c_tls c2). }
  clear E. destruct (bool_decide _); [right; reflexivity|]. destruct (bool_decide _); [right; reflexivity|left; reflexivity].
Qed.

(** When Send succeeds, the relay has the message: for the recipient asked for and no other, from the configured sender, the
    DATA phase, read with its dots removed, is the message that was built and nothing else, and what came before
    it on the connection were greetings, the handshake and the password. *)
Theorem mail_delivered (s : SMTPConfig) (t : civil) (off : Z) (id : bytes) (m : Message) (log : list Smtp.event) :
  bytes_ok (sm_From s) -> bytes_ok (sm_FromName s) -> bytes_ok (To m) -> bytes_ok (Subject m) -> bytes_ok (Body m) -> bytes_ok id ->
  valid_civil t -> 0 <= year t ->
  Send s t off id m = (Ok tt, log) ->
  let msg := buildMessage (sm_From s) (sm_FromName s) m t off id in
  exists setup seal ext block received,
    log = setup ++ mail_events seal (sm_From s) ext (To m) block /\ (seal = Clear \/ seal = Sealed) /\ Forall before_mail setup
    /\ undot BeginLine block = Some received /\ (received = msg \/ received = msg ++ [13; 10]).
Proof.
  intros Hf Hn Ht Hs Hb Hid Hc Hy. unfold Send. destruct (_ || contains_any (To m) [13; 10]) eqn:Eg; [done|].
  apply orb_false_iff in Eg as [_ Eg]. set (msg := buildMessage _ _ _ _ _ _). intros Hsend.
  match type of Hsend with (let '(r, c) := ?x in _) = _ => destruct x as [r c2] eqn:E end. injection Hsend as -> <-. step_Ok E.
  pose proof (dial_before s (fresh_client (sm_Host s)) Logic.I) as (_ & _ & l0 & L0 & F0). rewrite E0 in L0. cbn in L0. subst l0.
  apply transact_log in E as (Lf & setup & seal & ext & Hseal & F1 & _ & ->). cbn zeta.
  exists (c_log c ++ setup), seal, ext, (dot_write BeginLine msg), (msg ++ ended (foldl dot_next BeginLine msg)).
  split; [by rewrite <-app_assoc|]. split; [done|]. split; [by apply Forall_app|]. split.
  - apply undot_dots. unfold msg. destruct (message_lines (sm_From s) (sm_FromName s) m t off id Hb) as (body & -> & _ & Hl & _).
    apply crlf_ok_join; [done|]. apply message_one_line; try done. apply no_break_one_line. by left.
  - destruct (foldl dot_next BeginLine msg); cbn [ended]; rewrite ?app_nil_r; auto.
Qed.
End privacy.

(** * Witnesses *)

Definition demo_answer (log : list Smtp.event) : option (Z * bytes) :=
  match last log with
  | None | Some Handshake => Some (220, str "mail.example.com")
  | Some (Clear s) | Some (Sealed s) =>
      if has_prefix s (str "EHLO") then Some (250, str "mail.example.com" ++ [10] ++ str "STARTTLS" ++ [10] ++ str "8BITMIME")
      else if bool_decide (s = str "STARTTLS") then Some (220, [])
      else if has_prefix s (str "AUTH") then Some (235, [])
      else if bool_decide (s = str "DATA") then Some (354, [])
      else if bool_decide (s = str "QUIT") then Some (221, [])
      else Some (250, [])
  end.

Definition demo_relay : Relay :=
  {| relay_dial := fun _ => true; relay_answer := demo_answer; relay_tls := fun _ => true; split_host_port := fun s => Some s; ip_loopback := fun _ => false |}.
Definition demo_parse : MailParser := {| parse_address := fun s => if contains_byte s 64 then Some (s, []) else None |}.

Definition demo_smtp : SMTPConfig := MkSMTP (str "mail.example.com") 587 (str "bbs") (str "hunter22") (str "bbs@example.com") (str "Boar BBS").
Definition demo_time : civil := Civil 2026 7 14 9 5 59 0.
(** A subject and a text that try to add a header and to end the message. *)
Definition demo_email : Message :=
  MkMail (str "kasia@example.com") (str "Wiadomo" ++ [197; 155; 196; 135; 13; 10] ++ str "Bcc: evil@example.com") (str "Hi" ++ [10; 46; 10] ++ str "x=1 " ++ [10] ++ str "end").
Definition demo_id : bytes := [1; 2; 3; 4; 5; 6; 7; 8; 9; 10; 11; 255].

Ltac demo_bytes := repeat (apply Forall_cons; split; [unfold byte_ok; lia|]); apply Forall_nil_2.

Example demo_sends :
  exists setup block, @Send demo_parse demo_relay demo_smtp demo_time 7200 demo_id demo_email
    = (Ok tt, setup ++ mail_events Sealed (str "bbs@example.com") (str " BODY=8BITMIME") (str "kasia@example.com") block)
  /\ has_prefix block (str "From: " ++ [34] ++ str "Boar BBS" ++ [34] ++ str " <bbs@example.com>" ++ [13; 10] ++ str "To: <kasia@example.com>" ++ [13; 10]
       ++ str "Subject: =?utf-8?q?Wiadomo=C5=9B=C4=87Bcc:_evil@example.com?=" ++ [13; 10] ++ str "Date: Tue, 14 Jul 2026 09:05:59 +0200" ++ [13; 10]) = true
  /\ has_suffix block ([13; 10] ++ str "Hi" ++ [13; 10] ++ str ".." ++ [13; 10] ++ str "x=3D1=20" ++ [13; 10] ++ str "end" ++ [13; 10] ++ str "." ++ [13; 10]) = true.
Proof.
  eexists [Clear (str "EHLO localhost"); Clear (str "STARTTLS"); Handshake; Sealed (str "EHLO localhost"); Sealed (str "AUTH PLAIN AGJicwBodW50ZXIyMg==")], _.
  split; [vm_compute; reflexivity|]. split; vm_compute; reflexivity.
Qed.

Lemma email_says_what_was_meant_witness :
  exists values body, lines_of (buildMessage (str "bbs@example.com") (str "Boar BBS") demo_email demo_time 7200 demo_id) []
      = zip_with (fun n v => n ++ str ": " ++ v) header_names values ++ [] :: body
    /\ qp_decode (join body [13; 10]) = str "Hi" ++ [13; 10; 46; 13; 10] ++ str "x=1 " ++ [13; 10] ++ str "end".
Proof.
  pose proof (email_says_what_was_meant (str "bbs@example.com") (str "Boar BBS") demo_email demo_time 7200 demo_id) as He.
  destruct He as (values & body & H1 & _ & _ & H2 & _); [demo_bytes|demo_bytes|demo_bytes|demo_bytes|demo_bytes|demo_bytes|literal_line|literal_line| |done|].
  - unfold valid_civil, days_in. cbn. lia.
  - exists values, body. split; [exact H1|]. rewrite H2. reflexivity.
Defined.

Lemma mail_stays_private_witness :
  @isLoopback demo_relay (sm_Host demo_smtp) = false /\ Forall harmless (snd (@Send demo_parse demo_relay demo_smtp demo_time 7200 demo_id demo_email)).
Proof. split; [reflexivity|]. apply mail_stays_private. reflexivity. Defined.

Lemma mail_delivered_witness :
  exists setup seal ext block received,
    snd (@Send demo_parse demo_relay demo_smtp demo_time 7200 demo_id demo_email)
      = setup ++ mail_events seal (str "bbs@example.com") ext (str "kasia@example.com") block
    /\ undot BeginLine block = Some received.
Proof.
  pose proof (@mail_delivered demo_parse demo_relay demo_smtp demo_time 7200 demo_id demo_email
    (snd (@Send demo_parse demo_relay demo_smtp demo_time 7200 demo_id demo_email))) as Hd.
  destruct Hd as (setup & seal & ext & block & received & H1 & _ & _ & H2 & _); [demo_bytes|demo_bytes|demo_bytes|demo_bytes|demo_bytes|demo_bytes| |done| |].
  - unfold valid_civil, days_in. cbn. lia.
  - vm_compute. reflexivity.
  - exists setup, seal, ext, block, received. split; [exact H1|exact H2].
Defined.
