(* ===== verification/FtnTools.v ===== *)
(** * The sysop's FidoNet tool: [cmd/boar-ftn/main.go]

    [netmail] queues one message, [show] and [describe] print packets, [notify] emails what arrived, [route] passes on
    netmail for others, over the files, the outbound and the SMTP client of the other parts.  Flags arrive parsed. *)

From Stdlib Require Import Ascii String ZArith Lia.
From stdpp Require Import base tactics list gmap strings.
From S2P Require Import Prelude GoStrings GoTime GoFiles FtnAddr FtnCharset FtnPacket FtnMessage StoreDB FtnOutbound Toss FileLink GoMime Smtp Server MailMessage.
Open Scope Z_scope.

Definition AttrCrash : Z := 2.
Definition AttrKillSent : Z := 128.

(** [strings.Split] with a longer separator: [cur] is the part being read, [skip] what is left of a separator. *)
Fixpoint split_sub (sep s cur : bytes) (skip : nat) : list bytes :=
  match s with
  | [] => [cur]
  | b :: s' =>
      match skip with
      | S k => split_sub sep s' cur k
      | O => if has_prefix s sep then cur :: split_sub sep s' [] (length sep - 1) else split_sub sep s' (cur ++ [b]) 0
      end
  end.

(** Why a file could not be read: it cannot be opened, or an error of [ReadPackets]. *)
Inductive read_error := NoFile | BadFile (e : inbound_error).

Inductive tool_error :=
  | BadAddr (e : addr_error) | NoAddresses | UnknownCharset | UnknownFlavour | CannotHold (cs : Charset) | Usage
  | Unread (name : bytes) (e : read_error) | NoRoute (name : bytes) (dest : Addr) | NotQueued (hop : Addr) (e : queue_error)
  | NotMoved | MailFailed (e : smtp_error).

(** The process: its id, the suffix that [CreateTemp] picks for a node, and the words of an error. *)
Class Tool := {
  tool_pid : Z;
  tool_temp : FS -> Addr -> bytes;
  read_words : read_error -> bytes
}.

Section tool.
Context `{UnicodeTables} `{FoldTables} `{ZipReader} `{Relay} `{Tool}.

(** The time, in nanoseconds, and the zone, in seconds east of UTC. *)
Context (now off : Z).
Definition local_now : civil := civil_of_unix (now / 1000000000 + off) (now mod 1000000000).
Definition utc_now : civil := civil_of_unix (now / 1000000000) (now mod 1000000000).

Definition parseAddrList (s : bytes) : result tool_error (list Addr) :=
  match ParseAddrList s with
  | Err e => Err (BadAddr e)
  | Ok [] => Err NoAddresses
  | Ok l => Ok l
  end.

Definition addr_flag (s : bytes) : result tool_error Addr := match ParseAddr s with Ok a => Ok a | Err e => Err (BadAddr e) end.

(** [Outbound.Queue] on the files as they are: the outcome and the files at its end. *)
Definition queue_on (o : Outbound) (hop : Addr) (fl : Flavour) (header : FtnPacket.Packet) (msgs : list PackedMessage) (fs : FS)
    : result queue_error unit * FS :=
  let '(r, states) := FtnOutbound.Queue o tool_pid (tool_temp fs hop) local_now hop fl header msgs fs in (r, default fs (last states)).

(** ** netmail *)

Record netmail_flags := MkNetmailFlags {
  nf_outbound : bytes; nf_zone : Z; nf_from : bytes; nf_to : bytes; nf_fromName : bytes; nf_toName : bytes; nf_subject : bytes;
  nf_flavour : bytes; nf_charset : bytes; nf_password : bytes; nf_via : bytes
}.

Definition flavour_of (s : bytes) : option Flavour :=
  if bool_decide (s = str "crash") then Some Crash
  else if bool_decide (s = str "normal") then Some Normal
  else if bool_decide (s = str "hold") then Some Hold
  else if bool_decide (s = str "direct") then Some Direct
  else None.

(** The outcome with what is printed, and the files. *)
Definition netmail (nf : netmail_flags) (stdin : bytes) (fs : FS) : result tool_error bytes * FS :=
  let prepared :=
    from ← addr_flag (nf_from nf);
    to ← addr_flag (nf_to nf);
    cs ← match ParseCHRS (nf_charset nf) with Some cs => Ok cs | None => Err UnknownCharset end;
    fl ← match flavour_of (nf_flavour nf) with Some fl => Ok fl | None => Err UnknownFlavour end;
    let text := trim_right (replace_all stdin [13; 10] [10]) [10] in
    _ ← guard_res (Fits (text ++ nf_subject nf ++ nf_toName nf ++ nf_fromName nf) cs) (CannotHold cs);
    let m := MkMessage [] (nf_fromName nf) (nf_toName nf) (nf_subject nf) (Some local_now) from to
      (AttrPrivate + AttrLocal + AttrKillSent + match fl with Crash => AttrCrash | _ => 0 end)
      (Addr_String from ++ str " " ++ pad_hex 8 (now / 1000000000 mod 4294967296)) [] cs (format_TZUTC off) text [] []
      [MkKludge (str "PID") (str "boar-ftn")] in
    hop ← (if bool_decide (nf_via nf = []) then Ok (Boss to) else addr_flag (nf_via nf));
    let header := FtnPacket.MkPacket (if IsPoint from then from else Boss from) hop (nf_password nf) (Some local_now) [] in
    mret (to, fl, m, hop, header) in
  match prepared with
  | Err e => (Err e, fs)
  | Ok (to, fl, m, hop, header) =>
      let out := MkOutbound (nf_outbound nf) (nf_zone nf) in
      match queue_on out hop fl header [Pack m] fs with
      | (Err e, fs) => (Err (NotQueued hop e), fs)
      | (Ok _, fs) => (Ok (str "queued for " ++ Addr_String to ++ str " in " ++ PacketPath out hop fl ++ [10]), fs)
      end
  end.

(** ** show and describe *)

(** [2006-01-02 15:04], and RFC 3339 in UTC. *)
Definition minute_stamp (c : civil) : bytes :=
  pad_dec 4 (year c) ++ str "-" ++ pad_dec 2 (month c) ++ str "-" ++ pad_dec 2 (day c) ++ str " " ++ pad_dec 2 (hour c) ++ str ":" ++ pad_dec 2 (minute c).
Definition rfc3339 (c : civil) : bytes :=
  pad_dec 4 (year c) ++ str "-" ++ pad_dec 2 (month c) ++ str "-" ++ pad_dec 2 (day c) ++ str "T" ++ pad_dec 2 (hour c) ++ str ":" ++ pad_dec 2 (minute c)
  ++ str ":" ++ pad_dec 2 (second c) ++ str "Z".

Definition netmailFor (m : FtnMessage.Message) (addrs : list Addr) : bool :=
  bool_decide (Area m = []) && existsb (fun a => Same (Dest m) a) addrs.

Definition read_packets (name : bytes) (fs : FS) : list NamedPacket * option read_error :=
  match fs !! name with
  | None => ([], Some NoFile)
  | Some content => let '(ps, e) := ReadPackets name content in (ps, BadFile <$> e)
  end.

Definition describe_message (m : FtnMessage.Message) : bytes :=
  let where_ := if bool_decide (Area m = []) then str "netmail " ++ Addr_String (Orig m) ++ str " -> " ++ Addr_String (Dest m)
                else str "echo " ++ Area m ++ str " from " ++ Addr_String (Orig m) in
  str "-- " ++ where_ ++ str " | " ++ MFrom m ++ str " -> " ++ MTo m ++ str " | " ++ MSubject m ++ str " | " ++ Charset_name (MCharset m)
  ++ str " | " ++ minute_stamp (default zero_civil (Date m)) ++ [10] ++ Body m ++ [10; 10].

(** The messages of a packet that are shown. *)
Definition shown_of (only : option (list Addr)) (np : NamedPacket) : list FtnMessage.Message :=
  filter (fun m => match only with Some addrs => netmailFor m addrs | None => true end = true) (messages_of np).

Definition describe_packet (only : option (list Addr)) (np : NamedPacket) : bytes :=
  let p := snd np in
  if bool_decide (is_Some only) && bool_decide (shown_of only np = []) then []
  else
    str "== " ++ fst np ++ str ": " ++ Addr_String (FtnPacket.From p) ++ str " -> " ++ Addr_String (FtnPacket.To p) ++ str ", "
    ++ rfc3339 (default zero_civil (Created p)) ++ str ", " ++ itoa (len (Messages p)) ++ str " message(s)" ++ [10]
    ++ (shown_of only np ≫= describe_message).

Definition describe (name : bytes) (only : option (list Addr)) (fs : FS) : result tool_error (bytes * Z) :=
  match read_packets name fs with
  | (_, Some e) => Err (Unread name e)
  | (ps, None) => Ok (ps ≫= describe_packet only, len (ps ≫= shown_of only))
  end.

(** What is printed, up to the first file that cannot be read. *)
Fixpoint show (files : list bytes) (fs : FS) : bytes * option tool_error :=
  match files with
  | [] => ([], None)
  | name :: files =>
      match describe name None fs with
      | Err e => ([], Some e)
      | Ok (text, _) => let '(more, e) := show files fs in (text ++ more, e)
      end
  end.

(** ** notify *)

Definition sendLocal (relay from to msg : bytes) : result smtp_error unit * list Smtp.event :=
  match split_host_port relay with
  | None => (Err NotLocal, [])
  | Some host =>
      if negb (ip_loopback host) then (Err NotLocal, [])
      else
        let '(r, c) := (_ ← s_guard (relay_dial relay) NotConnected; _ ← NewClient; _ ← Mail from; _ ← Rcpt to; _ ← Data msg; Quit) (fresh_client host) in
        (r, c_log c)
  end.

Fixpoint first_subject (lines : list bytes) : bytes :=
  match lines with
  | [] => []
  | line :: lines =>
      if has_prefix line (str "-- ") then
        match split_sub (str " | ") line [] 0 with
        | _ :: a :: b :: _ => a ++ str ": " ++ b
        | _ => first_subject lines
        end
      else first_subject lines
  end.
Definition firstSubject (text : bytes) : bytes := first_subject (split_byte text 10).

Record notify_flags := MkNotifyFlags { no_to : bytes; no_from : bytes; no_smtp : bytes; no_for : bytes }.

(** The email of [notify]. *)
Definition notice_mail (from to subject text name : bytes) : bytes :=
  str "From: Boar BBS FidoNet <" ++ from ++ str ">" ++ [13; 10]
  ++ str "To: " ++ to ++ [13; 10]
  ++ str "Subject: " ++ QEncode subject ++ [13; 10]
  ++ str "Date: " ++ rfc1123z local_now off ++ [13; 10]
  ++ str "MIME-Version: 1.0" ++ [13; 10] ++ str "Content-Type: text/plain; charset=utf-8" ++ [13; 10]
  ++ str "Content-Transfer-Encoding: 8bit" ++ [13; 10; 13; 10]
  ++ replace_all text [10] [13; 10]
  ++ [13; 10] ++ str "-- " ++ [13; 10] ++ str "The file is still in the inbound: " ++ name ++ [13; 10].

(** The email, or nothing to say. *)
Definition notice (nf : notify_flags) (name : bytes) (fs : FS) : result tool_error (option bytes) :=
  only ← (if bool_decide (no_for nf = []) then Ok None else Some <$> parseAddrList (no_for nf));
  if bool_decide (is_Some only) && negb (IsMailBundle name) then Ok None
  else
    let mail subject text :=
      let first := firstSubject text in
      let subject := if bool_decide (first = []) then subject
                     else match only with
                          | Some (a :: _) => str "FidoNet netmail for " ++ Addr_String a ++ str ": " ++ first
                          | _ => str "FidoNet: " ++ first
                          end in
      Ok (Some (notice_mail (no_from nf) (no_to nf) subject text name)) in
    match describe name only fs with
    | Ok (text, shown) =>
        if bool_decide (is_Some only) && (shown =? 0) then Ok None
        else mail ((if bool_decide (is_Some only) then str "FidoNet netmail arrived: " else str "FidoNet mail arrived: ") ++ filepath_Base name) text
    | Err e =>
        let words := match e with Unread n e => n ++ str ": " ++ read_words e | _ => [] end in
        mail (str "FidoNet file arrived (unreadable): " ++ filepath_Base name)
          (str "A file arrived that could not be read as FidoNet mail:" ++ [10] ++ name ++ [10; 10] ++ words ++ [10])
    end.

Definition notify (nf : notify_flags) (files : list bytes) (fs : FS) : result tool_error unit * list Smtp.event :=
  match files with
  | [name] =>
      if bool_decide (no_to nf = []) then (Err Usage, [])
      else
        match notice nf name fs with
        | Err e => (Err e, [])
        | Ok None => (Ok tt, [])
        | Ok (Some msg) =>
            match sendLocal (no_smtp nf) (no_from nf) (no_to nf) msg with
            | (Ok _, l) => (Ok tt, l)
            | (Err e, l) => (Err (MailFailed e), l)
            end
        end
  | _ => (Err Usage, [])
  end.

(** ** route *)

Record route_flags := MkRouteFlags {
  rf_outbound : bytes; rf_zone : Z; rf_own : bytes; rf_direct : bytes; rf_via : bytes; rf_done : bytes
}.

(** Where a message that is not for this system goes: nothing for echomail and for our own netmail. *)
Definition next_hop (own : list Addr) (routes : Routes) (np : NamedPacket) (pm : PackedMessage) : option (result tool_error (Addr * Flavour)) :=
  if negb (IsNetmail pm) then None
  else
    let p := snd np in
    let dest := Dest (ParseMessage pm (FtnPacket.From p) (FtnPacket.To p) (DefaultCharset (FtnPacket.From p))) in
    if FtnAddr.Contains own dest then None
    else
      let '(hop, ok) := Hop routes dest in
      if ok then Some (Ok (hop, if negb (Z.land (Attr pm) AttrCrash =? 0) then Crash else Normal)) else Some (Err (NoRoute (fst np) dest)).

(** The message as it is passed on. *)
Definition passed_on (own : list Addr) (pm : PackedMessage) : PackedMessage := AddVia pm (default zero_addr (head own)) utc_now (str "boar-ftn").

(** The loop over the messages: the outcome with how many were routed, and the files. *)
Fixpoint route_messages (out : Outbound) (own : list Addr) (routes : Routes) (ms : list (NamedPacket * PackedMessage)) (routed : Z) (fs : FS)
    : result tool_error Z * FS :=
  match ms with
  | [] => (Ok routed, fs)
  | (np, pm) :: ms =>
      match next_hop own routes np pm with
      | None => route_messages out own routes ms routed fs
      | Some (Err e) => (Err e, fs)
      | Some (Ok (hop, fl)) =>
          let header := FtnPacket.MkPacket (default zero_addr (head own)) hop [] (Some local_now) [] in
          match queue_on out hop fl header [passed_on own pm] fs with
          | (Err e, fs) => (Err (NotQueued hop e), fs)
          | (Ok _, fs) => route_messages out own routes ms (routed + 1) fs
          end
      end
  end.

(** Where FILE goes: with a time stamp when its name is taken. *)
Definition done_path (done name : bytes) (fs : FS) : bytes :=
  let dest := filepath_Join [done; filepath_Base name] in
  match fs !! dest with Some _ => dest ++ str "." ++ itoa now | None => dest end.

Definition route_plan (rf : route_flags) : result tool_error (list Addr * Routes) :=
  own ← parseAddrList (rf_own rf);
  direct ← (if bool_decide (rf_direct rf = []) then Ok [] else parseAddrList (rf_direct rf));
  via ← (if bool_decide (rf_via rf = []) then Ok zero_addr else addr_flag (rf_via rf));
  Ok (own, MkRoutes direct via).

(** The outcome, with whether anything was routed, and the files. *)
Definition route (rf : route_flags) (files : list bytes) (fs : FS) : result tool_error Z * FS :=
  match files with
  | [name] =>
      match route_plan rf with
      | Err e => (Err e, fs)
      | Ok (own, routes) =>
          if negb (IsMailBundle name) then (Ok 0, fs)
          else
            match read_packets name fs with
            | (_, Some e) => (Err (Unread name e), fs)
            | (ps, None) =>
                let ms := ps ≫= (fun np => (fun pm => (np, pm)) <$> Messages (snd np)) in
                match route_messages (MkOutbound (rf_outbound rf) (rf_zone rf)) own routes ms 0 fs with
                | (Err e, fs) => (Err e, fs)
                | (Ok routed, fs) =>
                    match rename name (done_path (rf_done rf) name fs) fs with
                    | None => (Err NotMoved, fs)
                    | Some fs => (Ok routed, fs)
                    end
                end
            end
      end
  | _ => (Err Usage, fs)
  end.
End tool.

(** * What routing does to the outbound *)

(** ** A packet written and read, whatever its header *)

Lemma read_written_messages `{UnicodeTables} (p : FtnPacket.Packet) (t : civil) :
  Forall (fun m => len (Text m) <= maxMessageText) (Messages p) ->
  exists q, ReadPacket (WriteTo p t) = (Some q, None) /\ Messages q = clip_message <$> Messages p.
Proof.
  intros Hm. unfold ReadPacket, WriteTo. set (u := default t (Created p)).
  pose proof (header_fields p u) as (Hl & _ & _ & _ & _ & _ & _ & _ & _ & Hv & _).
  rewrite length_app, Hl. destruct (Nat.ltb_spec (headerLen + length ((Messages p ≫= encode_message) ++ [0; 0])) headerLen); [lia|].
  rewrite take_app_len, drop_app_len, Hv by done. cbn [negb packetVersion Z.eqb Pos.eqb].
  rewrite read_messages_encode; [by eexists|done|]. rewrite length_app. pose proof (messages_length (Messages p)). unfold headerLen. lia.
Qed.

Lemma decoded_text input m rest : decodeMessage input = Ok (m, rest) -> len (Text m) <= maxMessageText.
Proof.
  unfold decodeMessage. case_match; [done|]. intros E.
  repeat (simp_res; match goal with x : (_ * _)%type |- _ => destruct x end). simp_res. simplify_eq. cbn [Text].
  repeat match goal with H : readZ _ _ = Ok _ |- _ => apply readZ_ok in H as ([? ?] & ? & ?); [|done] end. done.
Qed.

Lemma read_texts input p : ReadPacket input = (Some p, None) -> Forall (fun m => len (Text m) <= maxMessageText) (Messages p).
Proof.
  unfold ReadPacket. destruct (_ <? _)%nat; [done|]. cbv zeta. destruct (negb _); [done|].
  assert (forall fuel i c, Forall (fun m => len (Text m) <= maxMessageText) (fst (read_messages fuel i c))) as Hr.
  { induction fuel as [|fuel IH]; intros i c; cbn [read_messages]; [constructor|]. destruct i as [|k0 [|k1 i]]; [constructor..|].
    case_match; [constructor|]. case_match; [constructor|]. destruct (decodeMessage i) as [[m rest]|] eqn:E; [|constructor].
    specialize (IH rest (c + 1)). destruct (read_messages fuel rest (c + 1)). constructor; [by eapply decoded_text|done]. }
  specialize (Hr (length input) (drop headerLen input) 0). destruct (read_messages _ _ _) as [ms e]. by intros [= <- _].
Qed.

Lemma clip_idem s n : 0 <= n -> clip (clip s n) n = clip s n.
Proof.
  intros Hn. destruct (clip_field s n Hn) as [Hl H0]. unfold clip at 1. rewrite remove_byte_absent by done.
  unfold slice_to. apply take_ge. unfold len in Hl. lia.
Qed.

Lemma trim_right_idem s cs : trim_right (trim_right s cs) cs = trim_right s cs.
Proof.
  unfold trim_right. rewrite reverse_involutive. f_equal. generalize (reverse s). clear s. intros s.
  induction s as [|b s IH]; [done|]. cbn [trim_left]. destruct (contains_byte cs b) eqn:E; [done|]. cbn [trim_left]. by rewrite E.
Qed.

Lemma clip_message_idem m : clip_message (clip_message m) = clip_message m.
Proof.
  unfold clip_message. cbn. rewrite !Zmod_mod, !clip_idem by lia. f_equal.
  - set (s := take 19 (DateTime m)). assert ((length (trim_right s [0%Z]) <= 19)%nat) as Hl.
    { pose proof (trim_right_len s [0]) as Ht. unfold s, len in *. rewrite length_take in Ht. lia. }
    rewrite take_ge by lia. apply trim_right_idem.
  - apply remove_byte_absent, remove_byte_free.
Qed.

(** ** One message queued *)

(** The messages waiting in a packet. *)
Definition waiting (fs : FS) (path : bytes) : list PackedMessage :=
  match fs !! path with
  | Some data => match ReadPacket data with (Some p, None) => Messages p | _ => [] end
  | None => []
  end.

(** Messages as the format can carry them. *)
Definition carried (ms : list PackedMessage) : list PackedMessage := clip_message <$> ms.

Lemma carried_app a b : carried (a ++ b) = carried a ++ carried b.
Proof. apply fmap_app. Qed.

Section routing.
Context `{UnicodeTables} `{FoldTables} `{ZipReader} `{Tool}.
Context (now off : Z) (es : list bytes) (r : bytes) (o : Outbound).
Hypothesis es_plain : Forall plain es.
Hypothesis r_plain : plain r.
Hypothesis root_clean : Root o = clean_abs (es ++ [r]).
(** [CreateTemp] picks a name that is not taken. *)
Hypothesis temp_free : forall fs a, net_ok a -> (slash ∉ tool_temp fs a) /\ fs !! tmp_path o a (tool_temp fs a) = None.

Lemma queue_on_spec hop fl header msgs fs res fs' : net_ok hop -> Messages header = [] ->
  Forall (fun m => len (Text m) <= maxMessageText) msgs ->
  queue_on now off o hop fl header msgs fs = (res, fs') ->
  let path := PacketPath o hop fl in
  match res with
  | Ok _ => (forall p, p <> path -> fs' !! p = fs !! p) /\ (carried (waiting fs' path) = carried (waiting fs path) ++ carried msgs)
  | Err _ => fs' = fs
  end.
Proof.
  intros Ha Hh Hm E. unfold queue_on in E. destruct (temp_free fs hop Ha) as [Hs Hf].
  pose proof (Queue_atomic es r o tool_pid (tool_temp fs hop) (local_now now off) hop fl header msgs fs es_plain r_plain root_clean Ha Hs Hf) as Hq.
  cbn zeta in *. destruct (FtnOutbound.Queue _ _ _ _ _ _ _ _ _) as [res' states]. destruct Hq as (new & El & Ho & _ & Hres).
  rewrite El in E. injection E as -> <-. cbn. destruct res as [[]|e]; [|by destruct Hres].
  destruct Hres as (pkt & Ep & En). split; [exact Ho|].
  assert (Messages pkt = waiting fs (PacketPath o hop fl) /\ Forall (fun m => len (Text m) <= maxMessageText) (Messages pkt)) as [Ew Ht].
  { unfold existing_packet, waiting in *. destruct (fs !! PacketPath o hop fl) as [data|].
    - destruct (ReadPacket data) as [[p|] [e|]] eqn:Er; try discriminate Ep; injection Ep as <-; [split; [done|by eapply read_texts]|].
      rewrite Hh. by split.
    - injection Ep as <-. rewrite Hh. by split. }
  unfold waiting at 1. rewrite En. destruct (read_written_messages (with_messages pkt msgs) (local_now now off)) as (q & -> & ->).
  - cbn. by apply Forall_app.
  - cbn [with_messages Messages]. rewrite Ew, <-carried_app. unfold carried. rewrite <-list_fmap_compose. apply list_fmap_ext. intros i m _. apply clip_message_idem.
Qed.

(** ** The loop *)

(** What the messages of a file ask for: each hop, flavour and message as it is passed on, in order. *)
Definition jobs (own : list Addr) (routes : Routes) (ms : list (NamedPacket * PackedMessage)) : list (Addr * Flavour * PackedMessage) :=
  omap (fun m => match next_hop own routes (fst m) (snd m) with Some (Ok hf) => Some (hf, passed_on now own (snd m)) | _ => None end) ms.

Definition job_path (j : Addr * Flavour * PackedMessage) : bytes := PacketPath o (fst (fst j)) (snd (fst j)).

(** The messages that go into the packet [path]. *)
Definition forwarded (path : bytes) (js : list (Addr * Flavour * PackedMessage)) : list PackedMessage :=
  snd <$> filter (fun j => job_path j = path) js.

(** The files after [js] were queued. *)
Definition queued (js : list (Addr * Flavour * PackedMessage)) (fs fs' : FS) : Prop :=
  (forall path, carried (waiting fs' path) = carried (waiting fs path) ++ carried (forwarded path js))
  /\ (forall p, Forall (fun j => job_path j <> p) js -> fs' !! p = fs !! p).

Lemma queued_nil fs : queued [] fs fs.
Proof. split; [|done]. intros path. cbn. by rewrite app_nil_r. Qed.

Lemma queued_cons hop fl pm js fs fs1 fs2 : 
  (forall p, p <> PacketPath o hop fl -> fs1 !! p = fs !! p) ->
  carried (waiting fs1 (PacketPath o hop fl)) = carried (waiting fs (PacketPath o hop fl)) ++ carried [pm] ->
  queued js fs1 fs2 -> queued ((hop, fl, pm) :: js) fs fs2.
Proof.
  intros Ho Hw [Q1 Q2]. split.
  - intros path. rewrite Q1. unfold forwarded. rewrite filter_cons. destruct (decide (job_path (hop, fl, pm) = path)) as [Hp|Hp]; unfold job_path in Hp; cbn [fst snd] in Hp.
    + rewrite fmap_cons, <-Hp, Hw, <-app_assoc. done.
    + unfold waiting at 1. rewrite Ho by congruence. done.
  - intros p Hp. apply Forall_cons in Hp as [Hp1 Hp2]. rewrite Q2 by done. apply Ho. intros ->. by apply Hp1.
Qed.

Lemma route_messages_queued own routes ms n fs res fs' :
  Forall (fun j => net_ok (fst (fst j)) /\ len (Text (snd j)) <= maxMessageText) (jobs own routes ms) ->
  route_messages now off o own routes ms n fs = (res, fs') ->
  exists done rest, jobs own routes ms = done ++ rest /\ queued done fs fs'
    /\ match res with Ok k => rest = [] /\ k = n + len done | Err _ => True end.
Proof.
  revert n fs. induction ms as [|[np pm] ms IH]; intros n fs Hj E; cbn [route_messages] in E.
  { injection E as <- <-. exists [], []. split; [done|]. split; [apply queued_nil|]. split; [done|]. rewrite len_nil. lia. }
  unfold jobs in Hj |- *. cbn [omap list_omap fst snd] in Hj |- *. fold (jobs own routes ms) in Hj |- *.
  destruct (next_hop own routes np pm) as [[[hop fl]|e]|].
  - apply Forall_cons in Hj as [[Hn Ht] Hj]. cbn [fst snd] in Hn, Ht.
    destruct (queue_on _ _ _ _ _ _ _ _) as [qr fs1] eqn:Eq.
    apply queue_on_spec in Eq; [|done|done|by apply Forall_singleton]. cbn zeta in Eq. destruct qr as [u|e].
    + destruct Eq as [Ho Hw]. destruct (IH (n + 1) fs1 Hj E) as (done & rest & E1 & Q & Hres).
      exists ((hop, fl, passed_on now own pm) :: done), rest. rewrite E1. split; [done|]. split; [eapply queued_cons; [exact Ho|exact Hw|exact Q]|].
      destruct res; [|done]. rewrite len_cons. destruct Hres as [-> ->]. split; [done|lia].
    + injection E as <- <-. subst fs1. eexists [], _. split; [done|]. split; [apply queued_nil|done].
  - injection E as <- <-. eexists [], _. split; [done|]. split; [apply queued_nil|done].
  - by apply IH.
Qed.
End routing.

(** ** Where mail may go *)

Lemma addr_net_ok a : addr_ok a -> net_ok a.
Proof. unfold addr_ok, addr_num_ok, net_ok. lia. Qed.

Lemma parse_addrs_ok `{UnicodeTables} fs l : parse_addrs fs = Ok l -> Forall addr_ok l.
Proof.
  revert l. induction fs as [|f fs IH]; intros l; cbn [parse_addrs]; [intros [= <-]; constructor|].
  destruct (bool_decide _); [apply IH|]. intros E. simp_res. constructor; [by eapply ParseAddr_ok|by apply IH].
Qed.

Lemma route_plan_ok `{UnicodeTables} rf own routes : route_plan rf = Ok (own, routes) -> Forall net_ok (FtnAddr.Direct routes) /\ net_ok (Via routes).
Proof.
  assert (forall s l, parseAddrList s = Ok l -> Forall net_ok l) as Hl.
  { intros s l E. unfold parseAddrList in E. destruct (ParseAddrList s) as [[|a l']|] eqn:Ep; try discriminate E. injection E as <-.
    eapply Forall_impl; [by eapply parse_addrs_ok|apply addr_net_ok]. }
  unfold route_plan. intros E. simp_res. simplify_eq. cbn. split.
  - match goal with H : (if bool_decide (rf_direct rf = []) then _ else _) = _ |- _ => destruct (bool_decide _); [injection H as <-; constructor|by eapply Hl] end.
  - match goal with H : (if bool_decide (rf_via rf = []) then _ else _) = _ |- _ => destruct (bool_decide (rf_via rf = [])); [injection H as <-|] end.
    + unfold net_ok. cbn. lia.
    + unfold addr_flag in *. destruct (ParseAddr (rf_via rf)) eqn:Ea; [|done]. simp_res. by eapply addr_net_ok, ParseAddr_ok.
Qed.

Lemma Hop_net_ok routes dest hop : Forall net_ok (FtnAddr.Direct routes) -> net_ok (Via routes) -> Hop routes dest = (hop, true) -> net_ok hop.
Proof.
  intros Hd Hv. assert (forall b, existsb (fun d => Same d b) (FtnAddr.Direct routes) = true -> net_ok b) as Hs.
  { intros b (d & Hin & Hsame)%existsb_exists. apply list_elem_of_In in Hin. rewrite Forall_forall in Hd. specialize (Hd d Hin).
    unfold Same in Hsame. unfold net_ok in *. lia. }
  unfold Hop. destruct (existsb (fun d => Same d dest) _) eqn:E1; [intros [= <-]; by apply Hs|].
  destruct (IsPoint dest && _) eqn:E2; [intros [= <-]; apply andb_prop in E2 as [_ E2]; by apply Hs|].
  destruct (negb _); [by intros [= <-]|done].
Qed.

Lemma next_hop_net_ok `{UnicodeTables} own routes np pm hop fl : Forall net_ok (FtnAddr.Direct routes) -> net_ok (Via routes) ->
  next_hop own routes np pm = Some (Ok (hop, fl)) -> net_ok hop.
Proof.
  intros Hd Hv. unfold next_hop. destruct (negb (IsNetmail pm)); [done|]. cbv zeta. destruct (FtnAddr.Contains _ _); [done|].
  destruct (Hop routes _) as [h ok] eqn:Eh. destruct ok; [|done]. intros [= <- <-]. by eapply Hop_net_ok.
Qed.

(** C29: Netmail for others is passed on, each message once and in order, or the file stays to be tried again: when route succeeds, every
    packet of the outbound holds what was waiting in it and then exactly the messages of the file that are for that hop,
    in their order, each with its Via line and otherwise as the packet format carries it; our own netmail, echomail and
    every other file are left alone, and the file is in the done directory. When it fails, the file is where it was,
    and only messages from the front of the list were queued. *)
Theorem route_forwards `{UnicodeTables} `{FoldTables} `{ZipReader} `{Tool} (now off : Z) (es : list bytes) (r : bytes) (rf : route_flags)
    (name : bytes) (own : list Addr) (routes : Routes) (ps : list NamedPacket) (fs fs' : FS) (res : result tool_error Z) :
  let o := MkOutbound (rf_outbound rf) (rf_zone rf) in
  let js := jobs now own routes (ps ≫= (fun np => (fun pm => (np, pm)) <$> Messages (snd np))) in
  let dest := done_path now (rf_done rf) name fs in
  Forall plain es -> plain r -> rf_outbound rf = clean_abs (es ++ [r]) ->
  (forall fs a, net_ok a -> (slash ∉ tool_temp fs a) /\ fs !! tmp_path o a (tool_temp fs a) = None) ->
  route_plan rf = Ok (own, routes) -> IsMailBundle name = true -> read_packets name fs = (ps, None) ->
  Forall (fun j => len (Text (snd j)) <= maxMessageText) js ->
  (forall a f, net_ok a -> PacketPath o a f ∉ [name; dest; filepath_Join [rf_done rf; filepath_Base name]]) ->
  route now off rf [name] fs = (res, fs') ->
  exists done rest, js = done ++ rest
    /\ (forall path, path <> name -> path <> dest -> carried (waiting fs' path) = carried (waiting fs path) ++ carried (forwarded o path done))
    /\ (forall p, p <> name -> p <> dest -> Forall (fun j => job_path o j <> p) done -> fs' !! p = fs !! p)
    /\ match res with
       | Ok n => rest = [] /\ n = len done /\ fs' !! dest = fs !! name /\ (name <> dest -> fs' !! name = None)
       | Err _ => fs' !! name = fs !! name
       end.
Proof.
  intros o js dest Hes Hr Hroot Htemp Hplan Hb Hread Ht Hout E. unfold route in E. rewrite Hplan, Hb, Hread in E. cbn [negb] in E.
  destruct (route_plan_ok rf own routes Hplan) as [Hd Hv].
  destruct (route_messages _ _ _ _ _ _ _ _) as [rr fs1] eqn:Em.
  assert (Forall (fun j => net_ok (fst (fst j)) /\ len (Text (snd j)) <= maxMessageText) js) as Hj.
  { apply Forall_forall. intros j Hin. split; [|rewrite Forall_forall in Ht; by apply Ht]. unfold js, jobs in Hin.
    apply list_elem_of_omap in Hin as ([np pm] & _ & Hin). cbn in Hin.
    destruct (next_hop own routes np pm) as [[[hop fl]|]|] eqn:En; try discriminate Hin. injection Hin as <-. by eapply next_hop_net_ok. }
  pose proof Em as Hq. apply (route_messages_queued now off es r o Hes Hr Hroot Htemp) in Hq; [|exact Hj].
  destruct Hq as (done & rest & E1 & [Q1 Q2] & Hres). fold js in E1.
  assert (forall p, p ∈ [name; dest; filepath_Join [rf_done rf; filepath_Base name]] -> fs1 !! p = fs !! p) as Hkeep.
  { intros p Hp. apply Q2. apply Forall_forall. intros j Hin Ej. rewrite E1, Forall_app in Hj. destruct Hj as [Hj _].
    rewrite Forall_forall in Hj. destruct (Hj j Hin) as [Hn _]. apply (Hout _ (snd (fst j)) Hn). fold (job_path o j). by rewrite Ej. }
  exists done, rest. split; [done|]. destruct rr as [k|e].
  - assert (done_path now (rf_done rf) name fs1 = dest) as Edest.
    { unfold dest, done_path. rewrite Hkeep; [done|]. by right; right; left. }
    rewrite Edest in E. unfold read_packets in Hread. destruct (fs !! name) as [content|] eqn:En; [|done].
    assert (fs1 !! name = Some content) as En1 by (rewrite Hkeep; [done|by left]).
    unfold rename in E. rewrite En1 in E. injection E as <- <-.
    assert (forall p, p <> name -> p <> dest -> (<[dest:=content]> (delete name fs1)) !! p = fs1 !! p) as Hp.
    { intros p Hp1 Hp2. by rewrite lookup_insert_ne, lookup_delete_ne by congruence. }
    split_and!.
    + intros path N1 N2. rewrite <-Q1. unfold waiting at 1. by rewrite Hp.
    + intros p N1 N2 N3. rewrite Hp by done. by apply Q2.
    + by destruct Hres.
    + destruct Hres as [_ ->]. lia.
    + apply lookup_insert_eq.
    + intros Hne. by rewrite lookup_insert_ne, lookup_delete_eq by congruence.
  - injection E as <- <-. split_and!; [intros path _ _; apply Q1|intros p _ _; apply Q2|apply Hkeep; by left].
Qed.

(** * A file routed *)

Definition no_zip : ZipReader := {| zip_members := fun _ => None |}.
Definition ascii_fold : FoldTables := {| fold_pair := fun _ _ => false |}.

(** A suffix longer than any name there is. *)
Definition longer (fs : FS) : bytes := replicate (S (sum_list_with length (fst <$> map_to_list fs))) 48.
Definition demo_tool : Tool := {| tool_pid := 77; tool_temp := fun fs _ => longer fs; read_words := fun _ => str "unreadable" |}.

Lemma longer_free fs p : (length (longer fs) <= length p)%nat -> fs !! p = None.
Proof.
  intros Hl. destruct (fs !! p) as [c|] eqn:E; [|done]. exfalso. unfold longer in Hl. rewrite length_replicate in Hl.
  apply elem_of_map_to_list in E. assert (p ∈ fst <$> map_to_list fs) as Hin by (apply list_elem_of_fmap; by exists (p, c)).
  revert Hin Hl. generalize (fst <$> map_to_list fs). clear. intros l Hin Hl.
  induction l as [|q l IH]; [by apply not_elem_of_nil in Hin|]. cbn in Hl. apply elem_of_cons in Hin as [->|Hin]; [lia|]. apply IH; [done|lia].
Qed.

Lemma join_longer ls (x : bytes) : (length x <= length (join (ls ++ [x]) [slash]))%nat.
Proof.
  induction ls as [|l ls IH]; [done|]. cbn [app]. destruct (ls ++ [x]) eqn:E; [by destruct ls|].
  change (join (l :: l0 :: l1) [slash]) with (l ++ [slash] ++ join (l0 :: l1) [slash]). rewrite !length_app. lia.
Qed.

Lemma clean_abs_longer ls (x : bytes) : (length x <= length (clean_abs (ls ++ [x])))%nat.
Proof. pose proof (join_longer ls x). unfold clean_abs. cbn [length]. lia. Qed.

Lemma demo_temp_free fs a : net_ok a -> (slash ∉ tool_temp (Tool := demo_tool) fs a) /\ fs !! tmp_path demo_outbound a (tool_temp (Tool := demo_tool) fs a) = None.
Proof.
  intros Ha. change (tool_temp fs a) with (longer fs). assert (slash ∉ longer fs) as Hs by (unfold longer, slash; intros Hin; apply elem_of_replicate_inv in Hin; lia).
  split; [done|]. apply longer_free. unfold tmp_path. destruct demo_elems_plain as [He Hr].
  destruct (out_file demo_elems (str "out") He Hr demo_outbound a (str ".tmp" ++ longer fs) eq_refl Ha) as [-> _].
  - rewrite elem_of_app. intros [Hin|]; [|done]. unfold slash in Hin. set_unfold. lia.
  - etransitivity; [|apply clean_abs_longer]. rewrite !length_app. lia.
Qed.

Lemma demo_outside a f x tl : net_ok a -> x ∈ [str "in"; str "routed"] -> Forall plain (x :: tl) ->
  PacketPath demo_outbound a f <> clean_abs (demo_elems ++ x :: tl).
Proof.
  intros Ha Hx Hp E. destruct demo_elems_plain as [He Hr]. rewrite PacketPath_eq in E.
  destruct (out_file demo_elems (str "out") He Hr demo_outbound a _ eq_refl Ha (flavour_no_slash f)) as [Ep Pp].
  rewrite Ep in E. apply clean_abs_inj in E; [|done|by apply Forall_app]. unfold dir_elems in E. rewrite <-app_assoc in E. apply app_inv_head in E.
  injection E as E _. unfold zone_dir in E. apply elem_of_cons in Hx as [->|Hx%list_elem_of_singleton]; [|subst x]; destruct (_ =? _); discriminate E.
Qed.

Definition demo_route : route_flags :=
  MkRouteFlags (str "/var/spool/ftn/out") 2 (str "2:410/51,2:5030/1651.1") (str "2:410/9,2:5030/1651") (str "2:410/9") (str "/var/spool/ftn/routed").
Definition demo_now : Z := 1783933200000000000.

Definition demo_netmail (dest : Addr) (subject : bytes) (attr : Z) : PackedMessage :=
  MkPM 51 410 (Node dest) (Net dest) attr 0 (str "07 Oct 26  09:00:00") (str "Areafix") (str "Sysop") subject
    (1 :: str "INTL " ++ itoa (Zone dest) ++ str ":" ++ itoa (Net dest) ++ str "/" ++ itoa (Node dest) ++ str " 2:410/51" ++ [13] ++ str "%LIST" ++ [13]).

Definition demo_packet : FtnPacket.Packet :=
  FtnPacket.MkPacket (MkAddr 2 5030 1651 0 []) (MkAddr 2 5030 1651 1 []) [] (Some (Civil 2026 10 7 9 0 0 0))
    [demo_netmail (MkAddr 2 410 9 0 []) (str "to-petros") 2; demo_netmail (MkAddr 2 410 51 0 []) (str "to-us") 2; demo_netmail (MkAddr 1 153 757 0 []) (str "far") 2].

Definition demo_name : bytes := str "/var/spool/ftn/in/abcd0001.pkt".
Definition demo_files : FS := <[demo_name := @WriteTo ascii_tables demo_packet (Civil 2026 1 1 0 0 0 0)]> ∅.

Definition demo_routed : result tool_error Z * FS := @route ascii_tables ascii_fold no_zip demo_tool demo_now 7200 demo_route [demo_name] demo_files.

Lemma route_forwards_witness :
  fst demo_routed = Ok 2
  /\ Subject <$> carried (@waiting (snd demo_routed) (str "/var/spool/ftn/out/019a0009.cut")) = [str "to-petros"; str "far"]
  /\ snd demo_routed !! demo_name = None.
Proof.
  assert (exists plan, @route_plan ascii_tables demo_route = Ok plan) as [[own routes] Ep] by (eexists; vm_compute; reflexivity).
  assert (exists ps, @read_packets ascii_fold no_zip demo_name demo_files = (ps, None)) as [ps Er] by (eexists; vm_compute; reflexivity).
  pose proof (@route_forwards ascii_tables ascii_fold no_zip demo_tool demo_now 7200 demo_elems (str "out") demo_route demo_name own routes ps
    demo_files (snd demo_routed) (fst demo_routed)) as Hr. cbv zeta in Hr.
  destruct Hr as (done & rest & _ & _ & _ & Hres).
  - apply demo_elems_plain.
  - apply demo_elems_plain.
  - reflexivity.
  - apply demo_temp_free.
  - exact Ep.
  - reflexivity.
  - exact Er.
  - vm_compute in Ep, Er. injection Ep as <- <-. injection Er as <-. apply Forall_forall. intros j Hj%list_elem_of_In. apply Z.leb_le. revert j Hj.
    apply (proj1 (forallb_forall (fun j => len (Text (snd j)) <=? maxMessageText) _)). vm_compute. reflexivity.
  - intros a f Ha Hin. assert (done_path demo_now (rf_done demo_route) demo_name demo_files = clean_abs (demo_elems ++ [str "routed"; str "abcd0001.pkt"])) as Ed
      by (vm_compute; reflexivity).
    rewrite Ed in Hin. repeat (apply elem_of_cons in Hin as [Hin|Hin]); [..|by apply not_elem_of_nil in Hin].
    + revert Hin. apply (demo_outside a f (str "in") [str "abcd0001.pkt"] Ha); [by left|]. apply all_plain. reflexivity.
    + revert Hin. apply (demo_outside a f (str "routed") [str "abcd0001.pkt"] Ha); [by right; left|]. apply all_plain. reflexivity.
    + revert Hin. apply (demo_outside a f (str "routed") [str "abcd0001.pkt"] Ha); [by right; left|]. apply all_plain. reflexivity.
  - unfold demo_routed. apply surjective_pairing.
  - assert (fst demo_routed = Ok 2) as E2 by (vm_compute; reflexivity). rewrite E2 in Hres. destruct Hres as (_ & _ & _ & Hn).
    split; [exact E2|]. split; [vm_compute; reflexivity|]. apply Hn. vm_compute. discriminate.
Defined.
