(* ===== verification/TossCmd.v ===== *)
(** * Tossing by hand: [boar-ftn toss] of [cmd/boar-ftn]

    The command makes a tosser that knows no addresses of the node and no file store, and gives it the two inbound
    directories of its options.  The theorem: it never stores netmail.  The examples: a packet that it has tossed is not
    taken up by the server's tosser afterwards, so its netmail for the node is never delivered; and the directory of
    [-inbound-nonsecure] is the non-secure one only if it is called so. *)

From Stdlib Require Import Ascii String ZArith Lia.
From stdpp Require Import base tactics list gmap strings.
From S2P Require Import Prelude GoStrings GoTime GoFiles StoreDB StoreUsers StoreBoards StoreEcho StoreDemo Toss TossSpec.
From S2P Require FtnAddr FtnMessage FtnPacket FtnOutbound.
Open Scope Z_scope.

Record toss_flags := MkTossFlags { tf_data : bytes; tf_inbound : bytes; tf_insecure : bytes }.
Definition default_toss_flags : toss_flags := MkTossFlags (str "/var/lib/boar/boar.db") (str "/var/spool/ftn/in") (str "/var/spool/ftn/in.insecure").

(** What the command prints of the counts. *)
Definition toss_report (s : Stats) : bytes :=
  str "tossed " ++ itoa (sFiles s) ++ str " file(s): " ++ itoa (sStored s) ++ str " stored, " ++ itoa (sDuplicate s) ++ str " duplicate, "
  ++ itoa (sSkipped s) ++ str " skipped, " ++ itoa (sFailed s) ++ str " failed" ++ [10].

Section command.
Context `{UnicodeTables} `{FoldTables} `{Crypto} `{FtnOutbound.ZipReader} `{Disk} (now : Z) (mtime : bytes -> Z).

(** [toss], with the database open. *)
Definition toss (tf : toss_flags) (p : Pass) : result toss_error bytes * Pass :=
  match TossAll now mtime (MkTosser [] None) [tf_inbound tf; tf_insecure tf] p with
  | (Err e, p) => (Err e, p)
  | (Ok _, p) => (Ok (toss_report (p_st p)), p)
  end.

(** * Theorems *)

(** The netmail of the board and the file areas stay, and what is counted as netmail. *)
Definition same_mail (p p' : Pass) : Prop := netmail (p_db p') = netmail (p_db p) /\ files (p_db p') = files (p_db p) /\ sNetmail (p_st p') = sNetmail (p_st p).

#[export] Instance same_mail_preorder : PreOrder same_mail.
Proof. split; [done|]. intros p1 p2 p3 (? & ? & ?) (? & ? & ?). split_and!; congruence. Qed.

Lemma moveAside_mail path dir name p : same_mail p (snd (moveAside path dir name p)).
Proof. unfold moveAside, moving. by destruct (move_to _ _ _ _). Qed.

Lemma ImportEcho_mail m db : let '(_, db') := ImportEcho now m db in netmail db' = netmail db /\ files db' = files db.
Proof. unfold ImportEcho, ensureEchoArea. repeat (case_match; simplify_eq); try done; unfold pruneEchoArea; by case_match. Qed.

Lemma toss_message_mail secure m p : same_mail p (snd (toss_message now [] secure m p)).
Proof.
  unfold toss_message. rewrite andb_false_r. pose proof (ImportEcho_mail m (p_db p)) as Hm.
  destruct (_ && secure); [|by destruct p as [? ? [] ? ?]; unfold same_mail; cbn; rewrite Z.add_0_r].
  destruct (ImportEcho now m (p_db p)) as [r db]. destruct Hm. destruct p as [? ? [] ? ?], r; unfold same_mail; cbn in *; rewrite ?Z.add_0_r; done.
Qed.
Lemma toss_messages_mail secure name content p : same_mail p (snd (toss_messages now [] secure name content p)).
Proof.
  unfold toss_messages. destruct (FtnOutbound.EachMessage _ _) as [ms e]. apply andthen_rel; [apply _| |].
  - apply each_rel; [apply _|]. intros m q _. apply toss_message_mail.
  - intros q. by destruct e.
Qed.

Lemma count_mail s p : sNetmail s = 0 -> same_mail p (count s p).
Proof. intros Hs. unfold same_mail. destruct p as [? ? [] ? ?]. cbn. by rewrite Hs, Z.add_0_r. Qed.

Lemma toss_file_mail inbound done bad secure name p : same_mail p (snd (toss_file now (MkTosser [] None) inbound done bad secure name p)).
Proof.
  unfold toss_file. destruct (negb _); [reflexivity|]. destruct (p_fs p !! _) as [content|]; [|reflexivity]. destruct (FTNFileSeen _ _).
  - pose proof (moveAside_mail (filepath_Join [inbound; name]) done name p) as Hm. destruct (moveAside _ _ _ p). exact Hm.
  - pose proof (toss_messages_mail secure (filepath_Join [inbound; name]) content (count one_file p)) as Hm.
    pose proof (count_mail one_file p eq_refl) as Hc. cbn [Own].
    destruct (toss_messages _ _ _ _ _ _) as [[[]|e] p1]; cbn [snd] in Hm; (etransitivity; [exact Hc|]; etransitivity; [exact Hm|]).
    + etransitivity; [|apply moveAside_mail]. unfold same_mail, with_db. cbn. unfold MarkFTNFile. by case_match.
    + etransitivity; [|apply moveAside_mail]. by apply count_mail.
Qed.

(** Tossing by hand stores no netmail, whoever it is for, and touches no file area, whatever the inbounds hold. *)
Theorem toss_skips_netmail (tf : toss_flags) (p : Pass) : same_mail p (snd (toss tf p)).
Proof.
  unfold toss. assert (same_mail p (snd (TossAll now mtime (MkTosser [] None) [tf_inbound tf; tf_insecure tf] p))) as Hm.
  { unfold TossAll. apply each_rel; [apply _|]. intros x q _. case_bool_decide; [reflexivity|]. destruct (inbound_plan x) as [[done bad] secure].
    unfold Toss. case_bool_decide; [reflexivity|]. apply andthen_rel; [apply _| |by intros q'].
    apply each_rel; [apply _|]. intros y q' _. apply toss_file_mail. }
  destruct (TossAll _ _ _ _ _) as [[[]|e] p']; exact Hm.
Qed.
End command.

(** ** Two examples *)

#[local] Instance cmd_fold : FoldTables := { fold_pair := fun _ _ => false }.
#[local] Instance cmd_disk : Disk := { fails := fun _ => MkFaults false false false None false false false false }.
#[local] Instance cmd_zip : FtnOutbound.ZipReader := { FtnOutbound.zip_members := fun _ => None }.

Definition cmd_node : FtnAddr.Addr := FtnAddr.MkAddr 2 410 51 0 [].
Definition cmd_message (text : bytes) : FtnPacket.PackedMessage :=
  FtnPacket.MkPM 9 410 51 410 0 0 (str "07 Oct 26  09:00:00") (str "Kasia") (str "Petros") (str "hello") (text ++ str "hi" ++ [13]).
Definition cmd_packet (text : bytes) : bytes :=
  FtnPacket.WriteTo (FtnPacket.MkPacket (FtnAddr.MkAddr 2 410 9 0 []) cmd_node [] (Some (Civil 2026 10 7 9 0 0 0)) [cmd_message text]) (Civil 2026 10 7 9 0 0 0).
Definition cmd_pass (path text : bytes) : Pass := MkPass {[path := cmd_packet text]} demo_db no_stats 1000 [].

(** Netmail for the node: the server's tosser stores it, but not after the command has tossed the packet, even if
    somebody puts the packet back into the inbound. *)
Example tossed_by_hand_is_lost :
  let path := str "/var/spool/ftn/in/a.pkt" in
  let server p := snd (TossAll 1 (fun _ => 0) (MkTosser [cmd_node] None) [str "/var/spool/ftn/in"; str "/var/spool/ftn/in.insecure"] p) in
  let by_hand := snd (toss 1 (fun _ => 0) default_toss_flags (cmd_pass path [])) in
  sNetmail (p_st (server (cmd_pass path []))) = 1
  /\ sSkipped (p_st by_hand) = 1 /\ p_fs by_hand !! str "/var/spool/ftn/tossed/a.pkt" = Some (cmd_packet [])
  /\ sNetmail (p_st (server (with_fs {[path := cmd_packet []]} by_hand))) = 0.
Proof. cbv zeta. split_and!; vm_compute; reflexivity. Qed.

(** Echomail that a stranger left: refused if the non-secure inbound is called in.insecure, and stored if the option
    gives it another name. *)
Example insecure_by_name_only :
  let echo := str "AREA:BINKD" ++ [13] in
  let stored dir := sStored (p_st (snd (toss 1 (fun _ => 0) (MkTossFlags [] (str "/var/spool/ftn/in") dir) (cmd_pass (dir ++ str "/a.pkt") echo)))) in
  stored (str "/var/spool/ftn/in.insecure") = 0 /\ stored (str "/var/spool/ftn/unprotected") = 1.
Proof. cbv zeta. split; vm_compute; reflexivity. Qed.
