(* ===== verification/ServerSpec.v ===== *)
(** * What the server's procedures guarantee

    [steps R m]: whatever the rest of the program does between the critical sections of [m], as long as it moves the
    server by [R], [m] moves it by [R].  With [R] the steps of the store this gives the consistency of the database
    under every interleaving. *)

From Stdlib Require Import Ascii String ZArith Lia.
From stdpp Require Import base tactics list gmap strings.
From S2P Require Import Prelude GoStrings GoTime Term StoreDB StoreUsers StoreMail StoreBoards StoreInv StoreOk StoreDemo Limits Nodes Chat Mailer Server.
From S2P Require FtnAddr FtnOutbound.
Open Scope Z_scope.

(** ** Rely and guarantee *)

(** The server as the next critical section finds it: after what the rest of the program does before. *)
Definition next_server (s : Shared) : Server := match others s with [] => srv s | g :: _ => g (srv s) end.

Section logic.
Context (R : Server -> Server -> Prop) `{!PreOrder R}.

Definition rely (s : Shared) : Prop := Forall (fun g => forall x, R x (g x)) (others s).

Definition steps {A} (m : Proc A) : Prop := forall s, rely s -> R (srv s) (srv (snd (m s))) /\ rely (snd (m s)).

Lemma steps_ret {A} (a : A) : steps (mret a).
Proof. intros s Hs. by split. Qed.

Lemma steps_bind {A B} (m : Proc A) (k : A -> Proc B) : steps m -> (forall a, steps (k a)) -> steps (m ≫= k).
Proof.
  intros Hm Hk s Hs. unfold mbind, proc_bind. destruct (Hm s Hs) as [H1 H2]. destruct (m s) as [a s1]. cbn in *.
  destruct (Hk a s1 H2) as [H3 H4]. split; [by etrans|done].
Qed.

Lemma steps_atom {A} (f : Server -> A * Server) : (forall x, R x (snd (f x))) -> steps (atom f).
Proof.
  intros Hf [x gs] Hs. unfold atom, rely in *. cbn in *. destruct gs as [|g gs]; cbn in *.
  - pose proof (Hf x). by destruct (f x).
  - apply Forall_cons in Hs as [Hg Hgs]. pose proof (Hf (g x)) as H. destruct (f (g x)). cbn in *. split; [|done]. etrans; [apply Hg|done].
Qed.

Lemma steps_try {A B} (m : Proc (result store_error A)) (k : A -> Proc (result store_error B)) :
  steps m -> (forall a, steps (k a)) -> steps (try m k).
Proof. intros Hm Hk. unfold try. apply steps_bind; [done|]. intros [a|e]; [apply Hk|apply steps_ret]. Qed.

Lemma steps_if {A} (b : bool) (m1 m2 : Proc A) : steps m1 -> steps m2 -> steps (if b then m1 else m2).
Proof. by destruct b. Qed.
End logic.

Create HintDb steps discriminated.

(** The rules follow the syntax of the code; what is left are the procedures that it calls, with a lemma each in the
    database [steps]. *)
Ltac walk_op := fail.
Ltac walk :=
  repeat lazymatch goal with
  | |- forall _, _ => intros ?; cbv beta
  | |- PreOrder _ => exact _
  | |- steps _ (mret _) => apply steps_ret; exact _
  | |- steps _ (_ ≫= _) => apply steps_bind
  | |- steps _ (try _ _) => apply steps_try
  | |- steps _ (match ?x with _ => _ end) => destruct x
  | |- steps _ (store_op _) => walk_op
  | |- _ => solve [eauto 3 with steps nocore]
  end.

(** ** The database *)

(** [R] relates servers whose databases are one step of [P] apart, whatever else changed. *)
Class ServerRel (P : DB -> DB -> Prop) (R : Server -> Server -> Prop) := {
  sr_preorder :: PreOrder R;
  sr_same x y : sv_db x = sv_db y -> R x y;
  sr_step x y : P (sv_db x) (sv_db y) -> R x y
}.

(** The steps that any part of the program takes: log entries and hits of the limiters. *)
Class Logs (P : DB -> DB -> Prop) := {
  logs_event now k u h ip d db : P db (LogEvent now k u h ip d db);
  logs_hit b k t db : P db (RecordHit b k t db);
  logs_clear b k db : P db (ClearHits b k db)
}.

Section db_steps.
Context (P : DB -> DB -> Prop) (R : Server -> Server -> Prop) `{!ServerRel P R} `{!Logs P}.

Lemma steps_same {A} (f : Server -> A * Server) : (forall x, sv_db (snd (f x)) = sv_db x) -> steps R (atom f).
Proof. intros Hf. apply steps_atom; [exact _|]. intros x. by apply sr_same. Qed.

Lemma steps_op {A} (o : Z -> op A) :
  (forall now db a db', o now db = Ok (a, db') -> P db db') -> steps R (store_op o).
Proof.
  intros Ho. apply steps_atom; [exact _|]. intros x. destruct (o (sv_now x) (sv_db x)) as [[a db']|e] eqn:E; [|done].
  apply sr_step. by eapply Ho.
Qed.

Lemma steps_do {A} (o : Z -> DB -> A * DB) : (forall now db, P db (snd (o now db))) -> steps R (store_do o).
Proof.
  intros Ho. apply steps_atom; [exact _|]. intros x. pose proof (Ho (sv_now x) (sv_db x)) as Hs. destruct (o _ _). by apply sr_step.
Qed.

Lemma steps_get {A} (q : DB -> A) : steps R (store_get q).
Proof. by apply steps_same. Qed.

Lemma steps_nodes {A} (f : nodeTable -> A * nodeTable) : steps R (on_nodes f).
Proof. apply steps_same. intros x. by destruct (f _). Qed.

Lemma steps_online : steps R nodes_online.
Proof. apply steps_nodes. Qed.
Lemma steps_notify id text : steps R (nodes_notify id text).
Proof. apply steps_nodes. Qed.
Lemma steps_broadcast text skip : steps R (nodes_broadcast text skip).
Proof. apply steps_nodes. Qed.

Lemma steps_kick id msg : steps R (nodes_kick id msg).
Proof. apply steps_same. intros x. by destruct (kick _ _). Qed.
Lemma steps_kickUser id msg : steps R (nodes_kickUser id msg).
Proof. apply steps_same. intros x. by destruct (kickUser _ _). Qed.

Lemma steps_blocked l key : steps R (limit_blocked l key).
Proof. apply steps_same. intros x. by destruct (blocked _ _ _). Qed.

(** A limiter's hit or reset, in front of a server that is otherwise changed. *)
Lemma hit_moves key now r x y : snd (hit key now r (sv_db x)) = sv_db y -> R x y.
Proof.
  unfold hit. destruct (recent _ _ _) as [ts r1]. cbn. destruct (bucket _); cbn; intros E; [|by apply sr_same].
  apply sr_step. rewrite <-E. apply logs_hit.
Qed.

Lemma reset_moves key r x y : snd (reset key r (sv_db x)) = sv_db y -> R x y.
Proof. unfold reset. cbn. destruct (bucket r); intros E; [|by apply sr_same]. apply sr_step. rewrite <-E. apply logs_clear. Qed.

Lemma steps_hit l key : steps R (limit_hit l key).
Proof.
  apply steps_atom; [exact _|]. intros x. destruct (hit _ _ _ _) as [r db] eqn:E. apply hit_moves with key (sv_now x) (sv_limit x l). by rewrite E.
Qed.

Lemma steps_begin key : steps R (accounts_begin key).
Proof. apply steps_same. intros x. by destruct (begin_ _ _ _). Qed.
Lemma steps_release key : steps R (accounts_release key).
Proof. by apply steps_same. Qed.

Lemma steps_end key ok : steps R (accounts_end key ok).
Proof.
  apply steps_bind; [exact _|by apply steps_same|]. intros []. apply steps_atom; [exact _|]. intros x.
  unfold end_record. destruct ok.
  - destruct (reset _ _ _) as [f db] eqn:E. apply reset_moves with key (fails (sv_accounts x)). by rewrite E.
  - destruct (hit _ _ _ _) as [f db] eqn:E. apply hit_moves with key (sv_now x) (fails (sv_accounts x)). by rewrite E.
Qed.

Lemma steps_event kind u h ip d : steps R (event kind u h ip d).
Proof. apply steps_do. intros. apply logs_event. Qed.

Lemma steps_email : steps R emailEnabled.
Proof. by apply steps_same. Qed.
Lemma steps_sendEmail m : steps R (sendEmail m).
Proof. apply steps_same. intros x. destruct (sv_mail x); [|done]. by destruct (Enqueue _ _). Qed.
Lemma steps_fresh {A} (f : Z -> A) : steps R (fresh f).
Proof. by apply steps_same. Qed.
Lemma steps_now : steps R now_.
Proof. by apply steps_same. Qed.

Lemma steps_notify_all ids text : steps R (notify_all ids text).
Proof. induction ids; cbn [notify_all]; [apply steps_ret; exact _|]. apply steps_bind; [exact _|apply steps_notify|done]. Qed.
End db_steps.

#[export] Hint Resolve steps_get steps_nodes steps_online steps_notify steps_broadcast steps_kick steps_kickUser steps_blocked steps_hit steps_begin
  steps_release steps_end steps_event steps_email steps_sendEmail steps_fresh steps_now steps_notify_all : steps.
#[export] Hint Extern 1 (ServerRel _ _) => exact _ : steps.
#[export] Hint Extern 1 (Logs _) => exact _ : steps.

(** A store operation is a step of [P], by the constructor for it. *)
Ltac walk_op ::= eapply steps_op; [exact _|]; intros; repeat match goal with x : unit |- _ => destruct x end; econstructor; first [eassumption | reflexivity | exact Logic.I].

Section server_steps.
Context `{UnicodeTables} `{BBS} (P : DB -> DB -> Prop) (R : Server -> Server -> Prop) `{!ServerRel P R} `{!Logs P}.

Lemma steps_notifySysops text : steps R (notifySysops text).
Proof. unfold notifySysops. walk. Qed.

Lemma steps_emailNewMail to from msg on : steps R (emailNewMail to from msg on).
Proof. unfold emailNewMail. walk. Qed.

Lemma steps_audit actor ip d : steps R (webAudit actor ip d).
Proof. unfold webAudit. walk. Qed.
End server_steps.
#[export] Hint Resolve steps_notifySysops steps_emailNewMail steps_audit : steps.

(** The steps of the store. *)
Section store_steps.
Context `{UnicodeTables} `{Crypto} `{MailParser} `{BBS}.

Definition db_steps (x y : Server) : Prop := rtc (step store_cfg) (sv_db x) (sv_db y).

#[export] Instance db_steps_rel : ServerRel (step store_cfg) db_steps.
Proof.
  split.
  - split; unfold db_steps; [intros x; apply rtc_refl|intros x y z; apply rtc_trans].
  - unfold db_steps. intros x y ->. apply rtc_refl.
  - intros x y. apply rtc_once.
Qed.

#[export] Instance step_logs : Logs (step store_cfg).
Proof. split; intros; constructor. Qed.
End store_steps.

(** ** The web's operations *)

Section admin.
Context `{UnicodeTables} `{Crypto} `{MailParser} `{BBS}.

(** The requests of the sysop's pages, and the procedure that each runs. *)
Inductive web_request :=
  | WApprove (id : Z) | WLock (id : Z) (locked : bool) | WSysop (id : Z) (sysop : bool) | WReset (id : Z) (password : bytes)
  | WDelete (id : Z) | WMail (id : Z) (subject body : bytes) | WBoard (name description : bytes) (sysopOnly : bool)
  | WDropBoard (id : Z) | WDropPost (boardName : bytes) (p : PostRow) | WNews (title body : bytes) | WDropNews (b : BulletinRow)
  | WDropLine (o : OnelinerRow * bytes) | WBroadcast (text : bytes).

Definition web_do (actor : UserRow) (ip : bytes) (r : web_request) : Proc (result store_error unit) :=
  match r with
  | WApprove id => ApproveUser actor ip id
  | WLock id b => web_SetLocked actor ip id b
  | WSysop id b => web_SetSysop actor ip id b
  | WReset id p => web_ResetPassword actor ip id p
  | WDelete id => web_DeleteUser actor ip id
  | WMail id s b => SendMail actor ip id s b
  | WBoard n d o => web_CreateBoard actor ip n d o
  | WDropBoard id => web_DeleteBoard actor ip id
  | WDropPost n p => web_DeletePost actor ip n p
  | WNews t b => web_AddBulletin actor ip t b
  | WDropNews b => web_DeleteBulletin actor ip b
  | WDropLine o => web_DeleteOneliner actor ip o
  | WBroadcast t => Broadcast actor ip t
  end.

Lemma web_steps actor ip r : steps db_steps (web_do actor ip r).
Proof.
  destruct r; cbn [web_do]; unfold ApproveUser, web_SetLocked, web_SetSysop, web_ResetPassword, web_DeleteUser, SendMail, web_CreateBoard,
    web_DeleteBoard, web_DeletePost, web_AddBulletin, web_DeleteBulletin, web_DeleteOneliner, Broadcast; walk.
Qed.

Lemma login_steps handle password ip ipKey : steps db_steps (SysopLogin handle password ip ipKey).
Proof. unfold SysopLogin. walk. Qed.

(** *** Rights *)

(** The requests whose store operation is for sysops only. *)
Definition privileged (r : web_request) : bool :=
  match r with WMail _ _ _ | WDropPost _ _ | WBroadcast _ => false | _ => true end.

Definition not_sysop (id : Z) (x : Server) : Prop := requireSysop (sv_db x) id <> Ok tt.

Section refused.
Context (R : Server -> Server -> Prop) `{!PreOrder R} (same_db : forall x y, sv_db x = sv_db y -> R x y).
Context (id : Z) (stays : forall x y, R x y -> not_sysop id x -> not_sysop id y).

(** [m] fails, and moves the server by [R] only. *)
Definition refuses {A} (m : Proc (result store_error A)) : Prop :=
  forall s, rely R s -> not_sysop id (srv s) -> is_ok (fst (m s)) = false /\ R (srv s) (srv (snd (m s))) /\ rely R (snd (m s)).

Lemma refuses_err {A} e : refuses (mret (Err e) : Proc (result store_error A)).
Proof. intros s Hs _. by split_and!. Qed.

Lemma refuses_bind {A B} (m : Proc A) (k : A -> Proc (result store_error B)) : steps R m -> (forall a, refuses (k a)) -> refuses (m ≫= k).
Proof.
  intros Hm Hk s Hs Hn. unfold mbind, proc_bind. destruct (Hm s Hs) as [E1 E2]. destruct (m s) as [a s1]. cbn in *.
  destruct (Hk a s1 E2) as (E3 & E4 & E5); [by eapply stays|]. split_and!; [done|by etrans|done].
Qed.

Lemma refuses_later {A B} (m : Proc (result store_error A)) (k : A -> Proc (result store_error B)) :
  steps R m -> (forall a, refuses (k a)) -> refuses (try m k).
Proof. intros Hm Hk. unfold try. apply refuses_bind; [done|]. intros [a|e]; [apply Hk|apply refuses_err]. Qed.

Lemma refuses_now {A B} (m : Proc (result store_error A)) (k : A -> Proc (result store_error B)) : refuses m -> refuses (try m k).
Proof.
  intros Hm s Hs Hn. unfold try, mbind, proc_bind. destruct (Hm s Hs Hn) as (E1 & E2 & E3). destruct (m s) as [[a|e] s1]; [done|]. done.
Qed.

Lemma refuses_op {A} (o : Z -> op A) :
  (forall now db a, requireSysop db id <> Ok tt -> o now db <> Ok a) -> refuses (store_op o).
Proof.
  intros Ho [x gs] Hs Hn. unfold store_op, atom, rely in *. cbn in *.
  assert (R x (match gs with [] => x | g :: _ => g x end)) as Hg by (destruct gs; [done|]; by apply Forall_cons in Hs as [? _]).
  set (y := match gs with [] => x | g :: _ => g x end) in *. assert (not_sysop id y) as Hy by by eapply stays.
  specialize (Ho (sv_now y) (sv_db y)). destruct (o (sv_now y) (sv_db y)) as [[a db']|e]; [by destruct (Ho (a, db') Hy)|]. cbn.
  split_and!; [done|done|]. destruct gs; [done|]. by apply Forall_cons in Hs as [_ ?].
Qed.

Lemma steps_unchanged {A} (f : Server -> A * Server) : (forall x, sv_db (snd (f x)) = sv_db x) -> steps R (atom f).
Proof. intros Hf. apply steps_atom; [exact _|]. intros x. by apply same_db. Qed.

Lemma actor_refused db target b : requireSysop db id <> Ok tt -> requireActor id target b db <> Ok tt.
Proof. unfold requireActor. by destruct (_ && _). Qed.
End refused.

(** The web cannot get past the store: whatever other goroutines do meanwhile, as long as they do not make the actor a
    sysop, a request of the sysop's pages that manages accounts, boards, news or the wall, made for an account that is not
    a sysop, fails, and the request itself does not touch the database. *)
Theorem web_needs_sysop (R : Server -> Server -> Prop) (actor : UserRow) (ip : bytes) (r : web_request) (s : Shared) :
  PreOrder R -> (forall x y, sv_db x = sv_db y -> R x y) -> (forall x y, R x y -> not_sysop (u_id actor) x -> not_sysop (u_id actor) y) ->
  rely R s -> not_sysop (u_id actor) (srv s) -> privileged r = true ->
  is_ok (fst (web_do actor ip r s)) = false /\ R (srv s) (srv (snd (web_do actor ip r s))).
Proof.
  intros HR Hsame Hstays Hrely Hnot Hp.
  assert (refuses R (u_id actor) (web_do actor ip r)) as Hr; [|by destruct (Hr s Hrely Hnot) as (? & ? & _)].
  assert (forall A (q : DB -> A), steps R (store_get q)) as Hget by (intros; by apply steps_unchanged).
  assert (forall f : Z -> bytes, steps R (fresh f)) as Hfresh by (intros; by apply steps_unchanged).
  destruct r; try discriminate Hp; cbn [web_do]; unfold ApproveUser, web_SetLocked, web_SetSysop, web_ResetPassword, web_DeleteUser,
    web_CreateBoard, web_DeleteBoard, web_AddBulletin, web_DeleteBulletin, web_DeleteOneliner.
  all: repeat first
    [ apply refuses_now; [assumption..|]; apply refuses_op; [assumption..|]
    | apply refuses_later; [assumption..|by auto|]; intros ?
    | apply refuses_bind; [assumption..|by auto|]; intros ? ].
  all: try (intros ? ? ? Hno Ho; unfold ValidateUser, SetLocked, SetSysop, ResetPassword, DeleteUser, CreateBoard, DeleteBoard, AddBulletin,
    DeleteBulletin, DeleteOneliner, sysopDelete in Ho; repeat (simp_res; try match goal with E : (let '(_, _) := ?p in _) = Ok _ |- _ => destruct p end); repeat match goal with x : unit |- _ => destruct x end;
    first [by apply Hno|eapply actor_refused; eassumption]).
  destruct (_ =? _); [by apply refuses_err|]. apply refuses_bind; [assumption..|apply steps_unchanged; [assumption..|]; intros x; by destruct (kickUser _ _)|].
  intros ?. apply refuses_now. apply refuses_op; [assumption..|]. intros now db x Hno Ho. unfold DeleteUser in Ho. simp_res.
  repeat match goal with x : unit |- _ => destruct x end. by apply Hno.
Qed.

(** *** Signing in *)

(** What a caller can see of the server: everything but the event log. *)
Definition but_log (x : Server) : Server := set_db (on_events (fun _ => []) (sv_db x)) x.

(** The server after a failure was counted for the handle and the address. *)
Definition counted (account ipKey : bytes) (s : Shared) : Shared := snd (limit_hit loginFailures ipKey (snd (accounts_end account false s))).

Lemma event_hidden kind u h ip d s : others s = [] -> but_log (srv (snd (event kind u h ip d s))) = but_log (srv s).
Proof. destruct s as [x gs]. cbn. intros ->. done. Qed.

Lemma quiet_atom {A} (f : Server -> A * Server) s : others s = [] -> others (snd (atom f s)) = [].
Proof. destruct s as [x gs]. cbn. intros ->. unfold atom. cbn. by destruct (f x). Qed.

Lemma bind_eq {A B} (m : Proc A) (k : A -> Proc B) s a s1 : m s = (a, s1) -> (m ≫= k) s = k a s1.
Proof. unfold mbind, proc_bind. by intros ->. Qed.

Lemma login_failure account ipKey kind u h ip d (r : UserRow + Z * login_error) s :
  (_ ← accounts_end account false; _ ← limit_hit loginFailures ipKey; _ ← event kind u h ip d; mret r) s
  = (r, snd (event kind u h ip d (counted account ipKey s))).
Proof.
  unfold counted, mbind, proc_bind. destruct (accounts_end account false s) as [a s1]. cbn [snd].
  destruct (limit_hit loginFailures ipKey s1) as [b s2]. cbn [snd]. by destruct (event kind u h ip d s2).
Qed.

Lemma counted_quiet account ipKey s : others s = [] -> others (counted account ipKey s) = [].
Proof.
  intros Hs. apply quiet_atom. unfold accounts_end, mbind, proc_bind. destruct (atom _ s) as [a s1] eqn:E. apply quiet_atom.
  change s1 with (snd (a, s1)). rewrite <-E. by apply quiet_atom.
Qed.

Lemma atom_quiet {A} (f : Server -> A * Server) x : atom f (MkShared x []) = (fst (f x), MkShared (snd (f x)) []).
Proof. unfold atom. cbn. by destruct (f x). Qed.

(** A run of [SysopLogin] with nothing in between: what decides, and what is left. *)
Definition login_run (handle password ip ipKey : bytes) (x : Server) : (UserRow + Z * login_error) * Server :=
  let '(r, s) := SysopLogin handle password ip ipKey (MkShared x []) in (r, srv s).

Definition outcome (a : result store_error UserRow) (z : Server) (r : (UserRow + Z * login_error) * Server) : Prop :=
  let failed := fst r = inr (0, ErrLoginFailed) /\ but_log (snd r) = but_log z in
  match a with
  | Ok u => if u_sysop u && negb (u_locked u) then fst r = inl u else failed
  | Err ErrBadCredentials => failed
  | Err e => fst r = inr (0, ErrStore e)
  end.

Lemma outcome_in a z r u : outcome a z r -> fst r = inl u -> a = Ok u /\ u_sysop u = true /\ u_locked u = false.
Proof.
  unfold outcome. intros Ho E. rewrite E in Ho. destruct a as [v|[]]; try done; try (by destruct Ho as [Ho ?]).
  destruct (u_sysop v) eqn:Es, (u_locked v) eqn:El; cbn in Ho; try (by destruct Ho). by injection Ho as ->.
Qed.

Lemma outcome_out a z r w e : outcome a z r -> fst r = inr (w, e) -> (forall c, e <> ErrStore c) ->
  (w, e) = (0, ErrLoginFailed) /\ but_log (snd r) = but_log z.
Proof.
  unfold outcome. intros Ho E Hn. rewrite E in Ho. destruct a as [v|[]]; [destruct (_ && _)|..]; try done;
    first [injection Ho as -> ->; by destruct (Hn _ eq_refl)|destruct Ho as [Ho ?]; by injection Ho as -> ->].
Qed.

Lemma login_cases handle ip ipKey x :
  (exists wait y, forall p, login_run handle p ip ipKey x = (inr (wait, ErrLoginThrottled), y))
  \/ exists z, forall p, outcome (Authenticate handle p (sv_db x)) z (login_run handle p ip ipKey x).
Proof.
  destruct (blocked ipKey (sv_now x) (sv_limit x loginFailures)) as [b r1] eqn:Eb.
  set (x1 := set_limit loginFailures r1 x).
  assert (limit_blocked loginFailures ipKey (MkShared x []) = (b, MkShared x1 [])) as E1 by (unfold limit_blocked; by rewrite atom_quiet, Eb).
  destruct b; [left; exists 0, x1; intros p; unfold login_run, SysopLogin; by rewrite (bind_eq _ _ _ _ _ E1)|].
  destruct (begin_ (account_key handle) (sv_now x1) (sv_accounts x1)) as [[wait ok] a] eqn:Ea.
  set (y := set_accounts a x1).
  assert (accounts_begin (account_key handle) (MkShared x1 []) = ((wait, ok), MkShared y [])) as E2 by (unfold accounts_begin; by rewrite atom_quiet, Ea).
  destruct ok.
  2: { left. exists wait, y. intros p. unfold login_run, SysopLogin. rewrite (bind_eq _ _ _ _ _ E1). cbn beta iota zeta. by rewrite (bind_eq _ _ _ _ _ E2). }
  right. exists (srv (counted (account_key handle) ipKey (MkShared y []))). intros p.
  assert (store_get (Authenticate handle p) (MkShared y []) = (Authenticate handle p (sv_db x), MkShared y [])) as E3 by by (unfold store_get; rewrite atom_quiet).
  unfold login_run, SysopLogin. rewrite (bind_eq _ _ _ _ _ E1). cbn beta iota zeta. rewrite (bind_eq _ _ _ _ _ E2). cbn beta iota zeta.
  cbn [negb]. rewrite (bind_eq _ _ _ _ _ E3).
  pose proof (counted_quiet (account_key handle) ipKey (MkShared y []) eq_refl) as Hq. unfold outcome.
  destruct (Authenticate handle p (sv_db x)) as [u|[]];
    [destruct (u_sysop u && negb (u_locked u))|..];
    first [ rewrite login_failure; cbn [fst snd]; split; [done|by apply event_hidden]
          | unfold mbind, proc_bind; by destruct (accounts_release _ _) | idtac ].
  unfold mbind, proc_bind. destruct (accounts_end _ _ _) as [? s2]. by destruct (event _ _ _ _ _ s2).
Qed.

(** The web login gives nothing away: it lets in exactly an unlocked sysop with the right password; and for given handle and
    address, every other outcome of a password check, whether the password was wrong or right on an account that may not
    use the web, is the same answer and leaves the same server but for the event log, the counts of failures included. *)
Theorem sysop_login (handle p p' ip ipKey : bytes) (x : Server) (u : UserRow) :
  (fst (login_run handle p ip ipKey x) = inl u -> Authenticate handle p (sv_db x) = Ok u /\ u_sysop u = true /\ u_locked u = false)
  /\ (forall w w' e e', fst (login_run handle p ip ipKey x) = inr (w, e) -> fst (login_run handle p' ip ipKey x) = inr (w', e') ->
      (forall c, e <> ErrStore c) -> (forall c, e' <> ErrStore c) ->
      (w, e) = (w', e') /\ but_log (snd (login_run handle p ip ipKey x)) = but_log (snd (login_run handle p' ip ipKey x))).
Proof.
  destruct (login_cases handle ip ipKey x) as [(wait & y & Ht)|(z & Hc)].
  - rewrite !Ht. split; [done|]. cbn. intros w w' e e' [= <- <-] [= <- <-]. done.
  - split; [by apply outcome_in with z|]. intros w w' e e' E E' Hn Hn'.
    destruct (outcome_out _ _ _ _ _ (Hc p) E Hn) as [-> ->]. by destruct (outcome_out _ _ _ _ _ (Hc p') E' Hn') as [-> ->].
Qed.

End admin.

(** ** A concrete server *)

#[export] Instance demo_bbs : BBS := {
  cfg_Name := str "Boar BBS"; cfg_MaxNodes := 4; cfg_MaxSignupsPerDay := 20; cfg_PublicAddress := str "bbs.example.org:2323";
  store_cfg := demo_cfg; zone_offset := fun _ => 0; zone_name := fun _ => str "UTC";
  rand_salt := fun n => str "salt" ++ itoa n; rand_code := fun n => 123456 + n; is_print := fun r => true;
  cfg_ArtDir := []; cfg_Files := str "/srv/files"; cfg_FileLinkURL := str "https://bbs.example.org/f/"; cfg_FileLinkKey := replicate 32 7;
  cfg_FileLinkTTL := 0; cfg_Addresses := []; cfg_Outbound := FtnOutbound.MkOutbound (str "/srv/out") 2; cfg_Routes := FtnAddr.MkRoutes [] FtnAddr.zero_addr; cfg_SysopName := []
}.

(** The demo board, with Alice made its sysop, an hour later. *)
Definition demo_server_db : DB := run (BootstrapSysop (str "Alice")) demo_db.
Definition demo_server : Server := newServer (Some (NewQueue 8)) ∅ 3600000000000 demo_server_db.

Definition demo_user (id : Z) : UserRow :=
  match getUser demo_server_db id with Ok u => u | Err _ => MkUser 0 [] [] [] (MkCred [] [] 0) false false 0 0 0 [] 0 false end.

Lemma web_needs_sysop_witness :
  let s := MkShared demo_server [] in
  is_ok (fst (web_do (demo_user 1) (str "::1") (WLock 3 true) s)) = true
  /\ is_ok (fst (web_do (demo_user 2) (str "::1") (WLock 3 true) s)) = false.
Proof.
  cbn zeta. split; [vm_compute; reflexivity|].
  apply (web_needs_sysop (fun x y => sv_db x = sv_db y) (demo_user 2) (str "::1") (WLock 3 true) (MkShared demo_server [])).
  - split; [intros x; reflexivity|intros x y z; congruence].
  - done.
  - unfold not_sysop. intros x y ->. done.
  - apply Forall_nil. done.
  - vm_compute. discriminate.
  - done.
Defined.

Lemma sysop_login_witness :
  let run p := login_run (str "alice") p (str "::1") (str "::1") demo_server in
  fst (run demo_password) = inl (demo_user 1)
  /\ but_log (snd (login_run (str "bob") demo_password (str "::1") (str "::1") demo_server))
     = but_log (snd (login_run (str "bob") (str "wrong password") (str "::1") (str "::1") demo_server)).
Proof.
  cbn zeta. split; [vm_compute; reflexivity|].
  destruct (sysop_login (str "bob") demo_password (str "wrong password") (str "::1") (str "::1") demo_server (demo_user 2)) as [_ Hs].
  refine (proj2 (Hs 0 0 ErrLoginFailed ErrLoginFailed _ _ _ _)); [vm_compute; reflexivity|vm_compute; reflexivity|discriminate|discriminate].
Defined.

(** The requests that the store does not check: what a kick or a broadcast does does not depend on who asks. *)
Example kick_unchecked :
  fst (KickNode (demo_user 2) (str "::1") 1 (snd (on_nodes (fun t => let '(_, t) := acquire 7 false 0 t in (tt, t)) (MkShared demo_server [])))) = true.
Proof. vm_compute. reflexivity. Qed.
