(* ===== verification/Session.v ===== *)
(** * A caller's session: [internal/bbs/session.go], [input.go], [editor.go], [terminal.go]

    A session is a program of the monad [M]: a function of the caller's state [St] that ends with a value or with the
    error that ends the session.  The state holds what the caller will type ([se_in], a script of keys, changes of
    the window's size and the hang-up), what was sent to the terminal ([se_out]), and the server with what the other
    goroutines will do ([Shared]).  Every critical section of the server is one [lift]ed procedure of [Server].
    Loops of the code are [loop], with as much fuel as there is input left: each turn reads a key, so it is never
    used up ([SessionSpec]). *)

From Stdlib Require Import Ascii String ZArith Lia.
From stdpp Require Import base tactics list gmap strings.
From S2P Require Import Prelude GoStrings GoTime Term StoreDB StoreUsers StoreMail Limits Nodes Mailer Server Ui.
Open Scope Z_scope.

(** ** session.go: the keys *)

Definition keyEnter : Z := 13.
Definition keyBackspace : Z := 8.
Definition keyCtrlU : Z := 21.
Definition keyEsc : Z := 27.
Definition keyDel : Z := 127.
Definition minPageLines : Z := 5.

Inductive escState := escNone | escStart | escSeq.

(** [skipEscape]: whether the byte belongs to an escape sequence, and the new state. *)
Definition skipEscape (b : Z) (e : escState) : bool * escState :=
  match e with
  | escSeq => (true, if between 64 126 b then escNone else escSeq)
  | escStart =>
      if (b =? ch "[") || (b =? ch "O") then (true, escSeq)
      else if b =? keyEsc then (true, escStart) else (false, escNone)
  | escNone => if b =? keyEsc then (true, escStart) else (false, escNone)
  end.

(** [utf8.FullRune]: whether the bytes begin with a whole encoding, an invalid byte being one. *)
Definition FullRune (p : bytes) : bool :=
  match p with
  | [] => false
  | b0 :: p1 =>
      let need := if between 194 223 b0 then 2 else if between 224 239 b0 then 3 else if between 240 244 b0 then 4 else 1 in
      let lo := if b0 =? 224 then 160 else if b0 =? 240 then 144 else 128 in
      let hi := if b0 =? 237 then 159 else if b0 =? 244 then 143 else 191 in
      (need <=? len p)
      || match p1 with b1 :: _ => negb (between lo hi b1) | [] => false end
      || match p1 with _ :: b2 :: _ => negb (continuation b2) | _ => false end
  end.

(** The state of the decoder between bytes. *)
Record decoder := MkDec { d_esc : escState; d_lastCR : bool; d_ubuf : bytes }.

Definition decodeHigh (cs : Charset) (b : Z) (ubuf : bytes) : option Z * bytes :=
  match cs with
  | CP437 => (Some (DecodeCP437 b), ubuf)
  | ASCII => (None, ubuf)
  | UTF8 =>
      let ubuf := ubuf ++ [b] in
      if negb (FullRune ubuf) then (None, if 4 <=? len ubuf then [] else ubuf)
      else
        let r := fst (decode_rune ubuf) in
        (if r =? rune_error then None else Some r, [])
  end.

(** The body of [readRune]'s loop: the key that [b] completes, if it does. *)
Definition feed_byte (cs : Charset) (b : Z) (d : decoder) : option Z * decoder :=
  let '(skip, e) := skipEscape b (d_esc d) in
  if skip then (None, MkDec e (d_lastCR d) (d_ubuf d))
  else
    let d' := MkDec e (b =? 13) (d_ubuf d) in
    if d_lastCR d && ((b =? 10) || (b =? 0)) then (None, d')
    else if (b =? 13) || (b =? 10) then (Some keyEnter, d')
    else if (b =? keyBackspace) || (b =? keyDel) then (Some keyBackspace, d')
    else if b =? 0 then (None, d')
    else if b <? 128 then (Some b, d')
    else let '(r, ubuf) := decodeHigh cs b (d_ubuf d) in (r, MkDec e (b =? 13) ubuf).

(** ** The state of a session *)

(** What comes from the terminal.  The end of the script is the end of the connection.  [Wake] is the moment when the
    goroutine that shows chat lines runs ([ChatRoom]); it prefers the notices if both are waiting and [notices] is set. *)
Inductive input := Key (b : Z) | Resize (w h : Z) | Wake (notices : bool) | Hangup.

(** What is fixed for the call: the node, the address and its key for the limits, whether the transport is encrypted, the
    account an SSH key signed in (or 0), the terminal type if the transport knows one, and when the call began. *)
Record Caller := MkCaller {
  ca_node : Z; ca_ip : bytes; ca_ipKey : bytes; ca_secure : bool; ca_keyUser : Z; ca_termType : option bytes; ca_start : Z
}.

(** [se_room]: how many bytes the connection still takes before a write fails, if it ever does; [se_werr]: that one has failed. *)
Record Sess := MkSess {
  se_caller : Caller; se_cs : Charset; se_rend : Renderer; se_user : UserRow; se_loggedIn : bool; se_keyAuth : bool;
  se_dec : decoder; se_size : Z * Z; se_in : list input; se_out : bytes; se_room : option nat; se_werr : bool
}.

Record St := MkSt { sess : Sess; shared : Shared }.

Definition no_user : UserRow := MkUser 0 [] [] [] (MkCred [] [] 0) false false 0 0 0 [] 0 false.

(** [newSession]. *)
Definition newSession (c : Caller) (size : Z * Z) (script : list input) (room : option nat) : Sess :=
  MkSess c ASCII (NewRenderer NoColor) no_user false false (MkDec escNone false []) size script [] room false.

Definition on_sess (f : Sess -> Sess) (s : St) : St := MkSt (f (sess s)) (shared s).

Definition with_terminal (cs : Charset) (m : ColorMode) (s : Sess) : Sess :=
  MkSess (se_caller s) cs (NewRenderer m) (se_user s) (se_loggedIn s) (se_keyAuth s) (se_dec s) (se_size s) (se_in s) (se_out s) (se_room s) (se_werr s).
Definition with_rend (r : Renderer) (s : Sess) : Sess :=
  MkSess (se_caller s) (se_cs s) r (se_user s) (se_loggedIn s) (se_keyAuth s) (se_dec s) (se_size s) (se_in s) (se_out s) (se_room s) (se_werr s).
Definition with_user (u : UserRow) (s : Sess) : Sess :=
  MkSess (se_caller s) (se_cs s) (se_rend s) u (se_loggedIn s) (se_keyAuth s) (se_dec s) (se_size s) (se_in s) (se_out s) (se_room s) (se_werr s).
Definition with_login (b : bool) (s : Sess) : Sess :=
  MkSess (se_caller s) (se_cs s) (se_rend s) (se_user s) b (se_keyAuth s) (se_dec s) (se_size s) (se_in s) (se_out s) (se_room s) (se_werr s).
Definition with_keyAuth (b : bool) (s : Sess) : Sess :=
  MkSess (se_caller s) (se_cs s) (se_rend s) (se_user s) (se_loggedIn s) b (se_dec s) (se_size s) (se_in s) (se_out s) (se_room s) (se_werr s).
Definition with_input (d : decoder) (size : Z * Z) (i : list input) (s : Sess) : Sess :=
  MkSess (se_caller s) (se_cs s) (se_rend s) (se_user s) (se_loggedIn s) (se_keyAuth s) d size i (se_out s) (se_room s) (se_werr s).
Definition with_output (out : bytes) (room : option nat) (werr : bool) (s : Sess) : Sess :=
  MkSess (se_caller s) (se_cs s) (se_rend s) (se_user s) (se_loggedIn s) (se_keyAuth s) (se_dec s) (se_size s) (se_in s) out room werr.

(** ** The monad *)

(** How a session ends early: a failed read or write, an error of the store, a panic; and the fuel of a loop used up. *)
Inductive ending := EInput | EWrite | EStore (e : store_error) | EPanic | EFuel.

Definition M (A : Type) : Type := St -> result ending A * St.

#[global] Instance m_ret : MRet M := fun A a s => (Ok a, s).
#[global] Instance m_bind : MBind M := fun A B f m s => let '(r, s) := m s in match r with Ok a => f a s | Err e => (Err e, s) end.

Definition throw {A} (e : ending) : M A := fun s => (Err e, s).
Definition get {A} (f : Sess -> A) : M A := fun s => (Ok (f (sess s)), s).
Definition modify (f : Sess -> Sess) : M unit := fun s => (Ok tt, on_sess f s).

(** A procedure of the server; and one whose error ends the session, as [if err != nil { return err }] does. *)
Definition lift {A} (p : Proc A) : M A := fun s => let '(a, sh) := p (shared s) in (Ok a, MkSt (sess s) sh).
Definition lift_ok {A} (p : Proc (result store_error A)) : M A :=
  r ← lift p; match r with Ok a => mret a | Err e => throw (EStore e) end.

(** [for { ... }]: a turn goes on with [inl] or returns [inr]. *)
Fixpoint loop_go {X A} (fuel : nat) (body : X -> M (X + A)) (x : X) : M A :=
  match fuel with
  | O => throw EFuel
  | S fuel => r ← body x; match r with inl y => loop_go fuel body y | inr a => mret a end
  end.

Definition loop {X A} (body : X -> M (X + A)) (x : X) : M A := fun s => loop_go (S (length (se_in (sess s)))) body x s.

(** [for _, x := range xs]: a body that may end the session, or leave the loop with [inr]. *)
Fixpoint for_each {X A} (xs : list X) (body : X -> M (unit + A)) (done_ : M A) : M A :=
  match xs with
  | [] => done_
  | x :: xs => r ← body x; match r with inl _ => for_each xs body done_ | inr a => mret a end
  end.

(** One result per element, in order. *)
Fixpoint map_m {X A} (f : X -> M A) (xs : list X) : M (list A) :=
  match xs with
  | [] => mret []
  | x :: xs => a ← f x; l ← map_m f xs; mret (a :: l)
  end.

(** The elements with their numbers, from 1. *)
Definition numbered {X} (xs : list X) : list (Z * X) := imap (fun i x => (Z.of_nat i + 1, x)) xs.

(** ** Output *)

Definition mode_of (s : Sess) : ColorMode := mode (se_rend s).
Definition colour_of (s : Sess) : bool := color (se_rend s).

(** [write] remembers a failure; the next read reports it. *)
Definition write_bytes (p : bytes) (s : Sess) : Sess :=
  if se_werr s then s
  else
    match se_room s with
    | Some n =>
        if (n <? length p)%nat then with_output (se_out s ++ take n p) (Some 0%nat) true s
        else with_output (se_out s ++ p) (Some (n - length p)%nat) false s
    | None => with_output (se_out s ++ p) None false s
    end.

(** [print]: the pipe codes are rendered, line ends become CR LF. *)
Definition print (text : bytes) : M unit :=
  modify (fun s =>
    let '(out, r) := Render (se_rend s) text in
    write_bytes (Encode (se_cs s) (replace_all out [10] [13; 10])) (with_rend r s)).

Definition raw (text : bytes) : M unit := modify (fun s => write_bytes (Encode (se_cs s) text) s).

Definition clearLine : M unit :=
  c ← get colour_of; if c : bool then raw (13 :: 27 :: str "[K") else raw [13; 10].

Definition width : M Z := get (fun s => session_width (fst (se_size s))).
Definition height : M Z := get (fun s => snd (se_size s)).
Definition me : M UserRow := get se_user.
Definition caller : M Caller := get se_caller.

Definition bs_sp_bs : bytes := [8; 32; 8].

(** ** Input *)

(** The loop of [readRune] over the script, whose end is kept: the error of a failed read is sticky. *)
Fixpoint read_go (cs : Charset) (i : list input) (d : decoder) (size : Z * Z) : option Z * decoder * (Z * Z) * list input :=
  match i with
  | [] => (None, d, size, [])
  | Hangup :: _ => (None, d, size, i)
  | Resize w h :: i => read_go cs i d (w, h)
  | Wake _ :: i => read_go cs i d size
  | Key b :: i => match feed_byte cs b d with (Some r, d) => (Some r, d, size, i) | (None, d) => read_go cs i d size end
  end.

Definition readRune : M Z := fun s =>
  let se := sess s in
  if se_werr se then (Err EWrite, s)
  else
    let '(r, d, size, i) := read_go (se_cs se) (se_in se) (se_dec se) (se_size se) in
    (match r with Some r => Ok r | None => Err EInput end, on_sess (with_input d size i) s).

(** ** The node *)

Definition on_my_node {A} (f : node -> A * node) (dflt : A) : M A :=
  c ← caller;
  lift (on_nodes (fun t =>
    match tnodes t !! ca_node c with
    | Some n => let '(a, n) := f n in (a, Nodes.set_nodes (<[ca_node c := n]> (tnodes t)) t)
    | None => (dflt, t)
    end)).

Definition sess_setActivity (a : bytes) : M unit := on_my_node (fun n => (tt, setActivity a n)) tt.
Definition sess_setUser (u : UserRow) : M unit := on_my_node (fun n => (tt, setUser (u_id u) (u_handle u) (u_location u) n)) tt.

Definition notice_text (n : bytes) : bytes := [7; 10] ++ str "|15*** |14" ++ safe n ++ str " |15***|07" ++ [10].

Fixpoint print_all (l : list bytes) : M unit :=
  match l with [] => mret tt | x :: l => _ ← print x; print_all l end.

Definition flushNotices : M unit := ns ← on_my_node takeNotices []; print_all (notice_text <$> ns).

Section session.
Context `{UnicodeTables} `{Crypto} `{MailParser} `{BBS}.

(** [strings.ContainsRune], for the keys of a menu. *)
Definition contains_rune (allowed : bytes) (r : Z) : bool := existsb (Z.eqb r) (runes allowed).

Definition readKey (allowed : bytes) : M Z :=
  loop (fun _ : unit =>
    r ← readRune;
    let r := to_upper_rune r in
    mret (if contains_rune allowed r then inr r else inl tt)) tt.

Definition choose (allowed : bytes) : M Z :=
  k ← readKey allowed;
  _ ← (if k =? keyEnter then mret tt else raw (encode_rune k));
  _ ← raw [13; 10];
  mret k.

(** ** The line editor *)

Record lineOpts := MkOpts { lo_max : Z; lo_mask : bool; lo_wrap : bool; lo_init : list Z }.

(** [slices.Index] from the end, for a space. *)
Definition last_space (buf : list Z) : option nat :=
  match list_find (fun r => r = 32) (reverse buf) with Some (i, _) => Some (length buf - 1 - i)%nat | None => None end.

(** The line and the word carried over. *)
Definition wrapOverflow (buf : list Z) (r : Z) : M (bytes * list Z) :=
  if r =? 32 then _ ← raw [13; 10]; mret (utf8 buf, [])
  else
    match last_space buf with
    | None => _ ← raw [13; 10]; mret (utf8 buf, [r])
    | Some cut =>
        let word := drop (S cut) buf in
        _ ← raw (Repeat bs_sp_bs (len word) ++ [13; 10]);
        mret (trim_right (utf8 (take cut buf)) [32], word ++ [r])
    end.

(** One turn of [readLine]'s loop, for the key [r]. *)
Definition edit (o : lineOpts) (buf : list Z) (r : Z) : M (list Z + bytes * list Z) :=
  if r =? keyEnter then _ ← raw [13; 10]; mret (inr (utf8 buf, []))
  else if r =? keyBackspace then
    if bool_decide (buf = []) then mret (inl buf)
    else _ ← raw bs_sp_bs; mret (inl (take (length buf - 1) buf))
  else if r =? keyCtrlU then _ ← raw (Repeat bs_sp_bs (len buf)); mret (inl [])
  else if r <? 32 then mret (inl buf)
  else if len buf <? lo_max o then _ ← raw (if lo_mask o then str "*" else encode_rune r); mret (inl (buf ++ [r]))
  else if lo_wrap o then x ← wrapOverflow buf r; mret (inr x)
  else mret (inl buf).

Definition readLine (o : lineOpts) : M (bytes * list Z) :=
  _ ← raw (utf8 (lo_init o));
  loop (fun buf => r ← readRune; edit o buf r) (lo_init o).

Definition prompt (label : bytes) (max : Z) : M bytes :=
  _ ← print label;
  '(line, _) ← readLine (MkOpts max false false []);
  mret (trim_space line).

Definition promptSecret (label : bytes) (max : Z) : M bytes :=
  _ ← print label;
  '(line, _) ← readLine (MkOpts max true false []);
  mret line.

Definition yesNo (question : bytes) (def : bool) : M bool :=
  let hint := if def then str "|08[|15Y|08/n]" else str "|08[y/|15N|08]" in
  _ ← print (str "|07" ++ question ++ str " " ++ hint ++ str " |15");
  k ← readKey (str "YN" ++ [13]);
  let yes := (k =? ch "Y") || ((k =? keyEnter) && def) in
  _ ← raw (if yes then str "Yes" ++ [13; 10] else str "No" ++ [13; 10]);
  mret yes.

(** The line is cleared whether or not a key came. *)
Definition always {A} (m : M A) (after : M unit) : M A := fun s => let '(r, s) := m s in let '(_, s) := after s in (r, s).

Definition pause : M unit := _ ← print pauseText; _ ← always readRune clearLine; mret tt.

Definition more : M bool :=
  _ ← print (str "|08-- |07more |08(|15Enter|08 = next page, |15Q|08 = stop) --");
  k ← always (readKey (str "Q" ++ [13; 32])) clearLine;
  mret (negb (k =? ch "Q")).

(** [page]: whether the caller saw all the lines. *)
Fixpoint page_go (per row : Z) (lines : list bytes) : M bool :=
  match lines with
  | [] => mret true
  | ln :: lines =>
      go ← (if per <=? row then more else mret true);
      if negb go then mret false
      else _ ← print (ln ++ nl); page_go per ((if per <=? row then 0 else row) + 1) lines
  end.

Definition page (lines : list bytes) (used : Z) : M bool :=
  h ← height; page_go (Z.max (h - 2) minPageLines) used lines.

(** ** Screens: what [ui.go] and [screens.go] print *)

Definition color_ : M bool := get colour_of.

Definition show_header (title : bytes) : M unit :=
  w ← width; u ← me; now ← lift now_;
  print (header w cfg_Name (u_handle u) title (hour_minute now)).

Definition show_box (title : bytes) (body : list bytes) : M unit := w ← width; print_all ((fun ln => ln ++ nl) <$> boxLines title w body).

Definition show_table (title heading : bytes) (rows : list bytes) (empty : bytes) : M unit :=
  w ← width;
  _ ← print (boxTop title w ++ nl);
  if bool_decide (rows = []) then
    _ ← print (boxRow [] w ++ nl ++ boxRow (str "  " ++ colDim ++ empty) w ++ nl ++ boxRow [] w ++ nl);
    print (boxBottom w ++ nl)
  else
    _ ← (if bool_decide (heading = []) then mret tt else print (boxRow (colDim ++ heading) w ++ nl ++ boxRow separator w ++ nl));
    _ ← page (table_rows w rows) (headerRows + 3);
    mret tt.

Definition show_menu (title : bytes) (items : list menuItem) : M unit := c ← color_; show_box title (menuLine c <$> items).

Definition show_menuColumns (leftTitle : bytes) (lft : list menuItem) (rightTitle : bytes) (rgt : list menuItem) : M unit :=
  c ← color_; w ← width;
  let lw := Z.quot (w - panelGap) 2 in
  let rw := w - panelGap - lw in
  let rows := Nat.max (length lft) (length rgt) in
  print_all (zip_with (fun x y => x ++ spaces panelGap ++ y ++ nl)
    (boxLines leftTitle lw (menu_column c rows lft)) (boxLines rightTitle rw (menu_column c rows rgt))).

(** The bar of keys with its prompt. *)
Definition show_actions (words : list bytes) : M unit :=
  c ← color_; w ← width; print (nl ++ actions c w words ++ str " " ++ colBorder ++ str "» |15").

Definition actionPrompt (extra : bytes) (words : list bytes) : M Z :=
  _ ← flushNotices; _ ← show_actions words; choose (keysOf words ++ extra).

Definition menuPrompt (where_ keys : bytes) : M Z :=
  _ ← flushNotices;
  u ← me;
  _ ← print (nl ++ str " " ++ colBorder ++ str "[" ++ colFrame ++ safe (u_handle u) ++ colBorder ++ str "] " ++ colLabel ++ where_
             ++ str " " ++ colBorder ++ str "» |15");
  choose keys.

(** screens.go: letters. *)
Record field := MkField { fl_label : bytes; fl_value : bytes; fl_color : bytes }.
Record letter := MkLetter { lt_title : bytes; lt_fields : list field; lt_body : bytes }.

Definition quoted_line (ln : bytes) : bool := has_prefix (trim_space ln) (str ">").

Definition bodyLines (w : Z) (body : bytes) : list bytes :=
  (fun ln => (if quoted_line ln then colInfo else colLabel) ++ safe ln) <$> Wrap body (inner w).

Definition field_row (w : Z) (f : field) : bytes :=
  boxRow (colInfo ++ Pad (fl_label f) 4 ++ str " " ++ colBorder ++ str ": " ++ fl_color f ++ safe (fl_value f)) w.

Definition showLetter (l : letter) : M unit :=
  _ ← show_header (lt_title l);
  w ← width;
  _ ← print (boxTop [] w ++ nl);
  _ ← print_all ((fun f => field_row w f ++ nl) <$> lt_fields l);
  _ ← print (boxRow separator w ++ nl);
  _ ← page (((fun ln => boxRow ln w) <$> bodyLines w (lt_body l)) ++ [boxBottom w]) (headerRows + len (lt_fields l) + 2);
  mret tt.

(** What a caller is told of an error of the store; others are logged. *)
Definition error_text (e : store_error) : option bytes :=
  match e with
  | ErrHandleTaken => Some (str "That handle is already taken.")
  | ErrMailboxFull => Some (str "The recipient's mailbox is full.")
  | ErrNotFound => Some (str "Not found.")
  | ErrBadCredentials => Some (str "Invalid handle or password.")
  | ErrBlocked => Some (str "That caller is not accepting your mail.")
  | ErrForbidden => Some (str "You are not allowed to do that.")
  | ErrNotValidated => Some (str "Your account is waiting for sysop approval.")
  | InputError m => Some m
  | ErrCorruptCredential | ErrConstraint => None
  end.

Definition userFacing (e : store_error) : bool := bool_decide (is_Some (error_text e)).

Definition reportError (e : store_error) : M unit :=
  _ ← print (nl ++ colAlert ++ match error_text e with Some m => safe m | None => str "Something went wrong. Please try again later." end ++ nl);
  pause.
End session.
