(* ===== verification/Editor.v ===== *)
(** * The message editor, [internal/bbs/editor.go], and the choice of a terminal, [terminal.go]

    The editor is a loop over lines: each turn reads one with word wrap, and a command alone on its line acts on the
    lines so far.  The theorems are in [SessionSpec]. *)

From Stdlib Require Import Ascii String ZArith Lia.
From stdpp Require Import base tactics list gmap strings.
From S2P Require Import Prelude GoStrings GoTime Term StoreDB StoreUsers StoreMail Limits Nodes Mailer Server Ui Session.
Open Scope Z_scope.

Definition maxEditorLines : Z := 200.
Definition maxEditorWidth : Z := 76.
Definition editorGutter : Z := 5.

Definition editorHelp : list bytes :=
  [str "|07Type your message. Lines wrap by themselves. On an empty line type:";
   str "|15/S|08 send   |15/A|08 abort   |15/L|08 list   |15/D|08 delete last line   |15/C|08 clear   |15/?|08 help"].

Definition editorWidth (screen : Z) : Z := Z.min (screen - editorGutter) maxEditorWidth.

Section editor.
Context `{UnicodeTables} `{Crypto} `{MailParser} `{BBS}.

(** [editorCommand]: "/x" typed alone on a line. *)
Definition editorCommand (line : bytes) : option Z :=
  match trim_space line with
  | [a; b] =>
      if negb (a =? ch "/") then None
      else let cmd := to_upper_rune b in if contains_rune (str "SALDCH?") cmd then Some cmd else None
  | _ => None
  end.

(** [listEditorLines], from line number [i]. *)
Definition editor_line (i : Z) (ln : bytes) : bytes := str " " ++ colBorder ++ fmt_d 3 i ++ str ":" ++ colLabel ++ str " " ++ safe ln ++ nl.
Definition listEditorLines (lines : list bytes) : M unit := print_all (imap (fun i ln => editor_line (Z.of_nat i + 1) ln) lines).

(** Whether the editor is done, whether to keep the text, and the lines. *)
Definition editorAction (cmd : Z) (lines : list bytes) : M (bool * bool * list bytes) :=
  if cmd =? ch "S" then
    let body := join lines [10] in
    if bool_decide (trim_space body = []) then _ ← print (colAlert ++ str "Nothing to send yet." ++ nl); mret (false, false, lines)
    else if MaxBodyBytes <? len body then
      _ ← print (colAlert ++ str "Too long: 16 KB max. Delete some lines first." ++ nl); mret (false, false, lines)
    else mret (true, true, lines)
  else if cmd =? ch "A" then abort ← yesNo (str "Discard this message?") false; mret (abort, false, lines)
  else if cmd =? ch "L" then
    w ← width; _ ← print (rule w ++ nl); _ ← listEditorLines lines; mret (false, false, lines)
  else if cmd =? ch "D" then
    if bool_decide (lines = []) then mret (false, false, lines)
    else
      let lines := take (length lines - 1) lines in
      _ ← print (colDim ++ str "Line " ++ itoa (len lines + 1) ++ str " deleted." ++ nl);
      mret (false, false, lines)
  else if cmd =? ch "C" then
    wipe ← yesNo (str "Clear the whole message?") false;
    mret (false, false, if wipe : bool then [] else lines)
  else _ ← show_box (str "Editor") editorHelp; mret (false, false, lines).

(** One turn: the lines so far and the word carried over from the last one. *)
Definition editor_turn (w : Z) (x : list bytes * list Z) : M ((list bytes * list Z) + option bytes) :=
  let '(lines, carry) := x in
  _ ← print (str " " ++ colBorder ++ fmt_d 3 (len lines + 1) ++ str ":" ++ colLabel ++ str " ");
  '(line, carry) ← readLine (MkOpts w false true carry);
  match (if bool_decide (carry = []) then editorCommand line else None) with
  | Some cmd =>
      '(done_, keep, lines) ← editorAction cmd lines;
      if done_ : bool then mret (inr (if keep : bool then Some (join lines [10]) else None)) else mret (inl (lines, carry))
  | None =>
      if maxEditorLines <=? len lines then
        _ ← print (colAlert ++ str "The message is full (200 lines). Use /S to send." ++ nl);
        mret (inl (lines, []))
      else mret (inl (lines ++ [line], carry))
  end.

(** The text, or [None] if the caller aborts. *)
Definition editor (initial : list bytes) : M (option bytes) :=
  w ← width;
  _ ← show_box (str "Editor") editorHelp;
  _ ← listEditorLines initial;
  loop (editor_turn (editorWidth w)) (initial, []).
End editor.

(** ** terminal.go *)

Definition contains_str (s sub : bytes) : bool := 0 <=? index_sub s sub.

(** [detectCharset]: [None] when the caller should be asked. *)
Definition detectCharset (t : bytes) : option (Charset * ColorMode) :=
  let named s := bool_decide (t = s) in
  if named [] then None
  else if named (str "syncterm") || named (str "ansi-bbs") || named (str "pcansi") || named (str "ansi") || named (str "scoansi") then Some (CP437, ANSI16)
  else if named (str "dumb") then Some (ASCII, NoColor)
  else if contains_str t (str "256color") || contains_str t (str "direct") || has_prefix t (str "xterm") || has_prefix t (str "alacritty")
          || has_prefix t (str "wezterm") || has_prefix t (str "kitty") || named (str "tmux") || named (str "foot") then Some (UTF8, ANSI256)
  else Some (UTF8, ANSI16).

Definition clampSize (w h : Z) : Z * Z := (Z.min (Z.max w 20) 512, Z.min (Z.max h 5) 512).
