(* ===== verification/SessionSpec.v ===== *)
(** * What a session guarantees

    [moves R who Q m]: [m] takes no key back, never uses up the fuel of a loop, moves the server by [R] whatever the rest of
    the program does by [R] in between, stays the session of the account [who], and when it returns [a], [Q b a] holds,
    where [b] says whether it has read a key.  The rules follow the syntax of the code ([stroll]).  A turn of a loop
    that goes on has read a key ([turn]): that is why the fuel of [loop] is enough. *)

From Stdlib Require Import Ascii String ZArith Lia.
From stdpp Require Import base tactics list gmap strings.
From S2P Require Import Prelude GoStrings GoTime Term StoreDB StoreUsers StoreMail StoreBoards StoreEcho StoreInv StoreOk Limits Nodes Mailer Server ServerSpec Ui Session Editor.
Open Scope Z_scope.

Definition left_in (s : St) : nat := length (se_in (sess s)).

(** ** Reading *)

Lemma read_go_left cs i d size : let '(r, _, _, i') := read_go cs i d size in (length i' <= length i)%nat /\ (is_Some r -> (length i' < length i)%nat).
Proof.
  revert d size. induction i as [|[b|w h|n|] i IH]; intros d size; cbn [read_go length].
  - split; [lia|by intros []].
  - destruct (feed_byte cs b d) as [[r|] d']; [split; lia|]. specialize (IH d' size). destruct (read_go cs i d' size) as [[[r d2] s2] i2].
    split; [lia|]. intros Hr. apply IH in Hr. lia.
  - specialize (IH d (w, h)). destruct (read_go cs i d (w, h)) as [[[r d2] s2] i2]. split; [lia|]. intros Hr. apply IH in Hr. lia.
  - specialize (IH d size). destruct (read_go cs i d size) as [[[r d2] s2] i2]. split; [lia|]. intros Hr. apply IH in Hr. lia.
  - split; [lia|by intros []].
Qed.

(** ** The steps of one account *)

(** [ours who u]: the account [u] is the one of the session, if that is known. *)
Definition ours (who : option Z) (u : Z) : Prop := match who with Some id => u = id | None => True end.

Section acts.
Context `{UnicodeTables} `{Crypto} `{MailParser} `{BBS} (who : option Z).

(** The store's operations as one account can run them: in its own name.  Accounts are created before there is a name. *)
Inductive acts (db : DB) : DB -> Prop :=
  | a_create now salt h p l u db' : who = None -> CreateUser store_cfg now salt h p l db = Ok (u, db') -> acts db db'
  | a_login now i r db' : ours who i -> RecordLogin now i db = Ok (r, db') -> acts db db'
  | a_password salt i c n db' : ours who i -> ChangePassword store_cfg salt i c n db = Ok (tt, db') -> acts db db'
  | a_reset salt a i p db' : ours who a -> ResetPassword store_cfg salt a i p db = Ok (tt, db') -> acts db db'
  | a_location i l u db' : ours who i -> SetLocation i l db = Ok (u, db') -> acts db db'
  | a_sysop a i b db' : ours who a -> SetSysop a i b db = Ok (tt, db') -> acts db db'
  | a_locked a i b db' : ours who a -> SetLocked a i b db = Ok (tt, db') -> acts db db'
  | a_validate a i db' : ours who a -> ValidateUser a i db = Ok (tt, db') -> acts db db'
  | a_delete_user a i db' : ours who a -> DeleteUser a i db = Ok (tt, db') -> acts db db'
  | a_block u b db' : ours who u -> Block u b db = Ok (tt, db') -> acts db db'
  | a_unblock u b : ours who u -> acts db (Unblock u b db)
  | a_add_key now u f k c r db' : ours who u -> AddSSHKey now u f k c db = Ok (r, db') -> acts db db'
  | a_delete_key u k db' : ours who u -> DeleteSSHKey u k db = Ok (tt, db') -> acts db db'
  | a_start_email now n u a c db' : ours who u -> StartEmailVerification now n u a db = Ok (c, db') -> acts db db'
  | a_confirm now u c : ours who u -> acts db (snd (ConfirmEmail now u c db))
  | a_email_mode u m r db' : ours who u -> SetEmailMode u m db = Ok (r, db') -> acts db db'
  | a_remove_email u : ours who u -> acts db (snd (RemoveEmail u db))
  | a_send now f t s b r m db' : ours who f -> SendMessage now f t s b r db = Ok (m, db') -> acts db db'
  | a_mark_read now m u db' : ours who u -> MarkRead now m u db = Ok (tt, db') -> acts db db'
  | a_delete_message m u db' : ours who u -> DeleteMessage m u db = Ok (tt, db') -> acts db db'
  | a_create_board now a n d s b db' : ours who a -> CreateBoard now a n d s db = Ok (b, db') -> acts db db'
  | a_delete_board a i db' : ours who a -> DeleteBoard a i db = Ok (tt, db') -> acts db db'
  | a_post now b a s t r p db' : ours who a -> AddPost now b a s t r db = Ok (p, db') -> acts db db'
  | a_delete_post p u db' : ours who u -> DeletePost p u db = Ok (tt, db') -> acts db db'
  | a_board_read u b p db' : ours who u -> MarkBoardRead u b p db = Ok (tt, db') -> acts db db'
  | a_bulletin now a t b r db' : ours who a -> AddBulletin now a t b db = Ok (r, db') -> acts db db'
  | a_delete_bulletin a i db' : ours who a -> DeleteBulletin a i db = Ok (tt, db') -> acts db db'
  | a_oneliner now a t r db' : ours who a -> AddOneliner now a t db = Ok (r, db') -> acts db db'
  | a_delete_oneliner a i db' : ours who a -> DeleteOneliner a i db = Ok (tt, db') -> acts db db'
  | a_event now k u h i d : acts db (LogEvent now k u h i d db)
  | a_hit b k t : acts db (RecordHit b k t db)
  | a_clear_hits b k : acts db (ClearHits b k db)
  | a_echo_read u a m db' : ours who u -> MarkEchoRead u a m db = Ok (tt, db') -> acts db db'
  | a_sent now n a r db' : n_author n = Some a -> ours who a -> RecordSentNetmail now n db = Ok (r, db') -> acts db db'
  | a_netmail_read now i : acts db (MarkNetmailRead now i db)
  | a_files_seen u a f db' : ours who u -> MarkFilesSeen u a f db = Ok (tt, db') -> acts db db'
  | a_download i : acts db (CountDownload i db).

Lemma acts_step db db' : acts db db' -> step store_cfg db db'.
Proof. destruct 1. all: solve [econstructor; eassumption]. Qed.

#[export] Instance acts_logs : Logs acts.
Proof. split; intros; constructor. Qed.
End acts.

(** ** The logic *)

(** What holds of the result: the boolean says whether a key was read. *)
Definition any {A} : bool -> A -> Prop := fun _ _ => True.
Definition eaten {A} : bool -> A -> Prop := fun b _ => b = true.
Definition turn {X A} : bool -> X + A -> Prop := fun b r => match r with inl _ => b = true | inr _ => True end.

Section logic.
Context (R : Server -> Server -> Prop) `{!PreOrder R} (who : option Z).

Definition mine (s : Sess) : Prop := ours who (u_id (se_user s)).

Definition moves {A} (Q : bool -> A -> Prop) (m : M A) : Prop := forall s,
  rely R (shared s) -> mine (sess s) ->
  let '(r, s') := m s in
  (left_in s' <= left_in s)%nat /\ R (srv (shared s)) (srv (shared s')) /\ rely R (shared s') /\ mine (sess s')
  /\ match r with Ok a => Q (left_in s' <? left_in s)%nat a | Err e => e <> EFuel end.

Lemma moves_weaken {A} (Q Q' : bool -> A -> Prop) m : moves Q m -> (forall b a, Q b a -> Q' b a) -> moves Q' m.
Proof.
  intros Hm HQ s Hr Hi. specialize (Hm s Hr Hi). destruct (m s) as [[a|e] s']; destruct Hm as (? & ? & ? & ? & ?); split_and!; auto.
Qed.

Lemma moves_ret {A} (Q : bool -> A -> Prop) a : Q false a -> moves Q (mret a).
Proof. intros HQ s Hr Hi. cbv beta iota delta [mret m_ret]. split_and!; [lia|done|done|done|]. by rewrite Nat.ltb_irrefl. Qed.

Lemma moves_throw {A} (Q : bool -> A -> Prop) e : e <> EFuel -> moves Q (throw e).
Proof. intros He s Hr Hi. cbn. by split_and!. Qed.

Lemma ltb_chain a b c : (a <= b)%nat -> (b <= c)%nat -> (a <? c)%nat = (b <? c)%nat || (a <? b)%nat.
Proof. intros. destruct (Nat.ltb_spec a c), (Nat.ltb_spec b c), (Nat.ltb_spec a b); cbn; lia. Qed.

Lemma moves_bind {A B} (Q : bool -> A -> Prop) (Q' : bool -> B -> Prop) m (k : A -> M B) :
  moves Q m -> (forall b a, Q b a -> moves (fun b' => Q' (b || b')) (k a)) -> moves Q' (m ≫= k).
Proof.
  intros Hm Hk s Hr Hi. unfold mbind, m_bind. specialize (Hm s Hr Hi). destruct (m s) as [[a|e] s1]; [|done].
  destruct Hm as (L1 & R1 & D1 & I1 & Q1). specialize (Hk _ a Q1 s1 D1 I1). destruct (k a s1) as [r s2].
  destruct Hk as (L2 & R2 & D2 & I2 & Q2). split_and!; [lia|by etrans|done|done|]. destruct r; [|done].
  by rewrite (ltb_chain _ _ _ L2 L1).
Qed.

Lemma moves_always {A} (Q : bool -> A -> Prop) (m : M A) (after : M unit) :
  moves Q m -> moves any after -> (forall b a, Q b a -> Q true a) -> moves Q (always m after).
Proof.
  intros Hm Ha HQ s Hr Hi. unfold always. specialize (Hm s Hr Hi). destruct (m s) as [r s1]. destruct Hm as (L1 & R1 & D1 & I1 & Q1).
  specialize (Ha s1 D1 I1). destruct (after s1) as [r2 s2]. destruct Ha as (L2 & R2 & D2 & I2 & _). split_and!; [lia|by etrans|done|done|].
  destruct r; [|done]. rewrite (ltb_chain _ _ _ L2 L1). destruct (left_in s2 <? left_in s1)%nat; [|by rewrite orb_false_r].
  rewrite orb_true_r. by eapply HQ.
Qed.

Lemma moves_loop_go {X A} (Q : bool -> A -> Prop) fuel (body : X -> M (X + A)) x s0 :
  (forall x, moves (fun b r => match r with inl _ => b = true | inr a => Q b a end) (body x)) -> (forall b a, Q b a -> Q true a) ->
  (left_in s0 < fuel)%nat -> rely R (shared s0) -> mine (sess s0) ->
  let '(r, s') := loop_go fuel body x s0 in
  (left_in s' <= left_in s0)%nat /\ R (srv (shared s0)) (srv (shared s')) /\ rely R (shared s') /\ mine (sess s')
  /\ match r with Ok a => Q (left_in s' <? left_in s0)%nat a | Err e => e <> EFuel end.
Proof.
  intros Hb HQ. revert x s0. induction fuel as [|fuel IH]; intros x s0 Hf Hr Hi; [lia|]. cbn [loop_go]. unfold mbind, m_bind.
  pose proof (Hb x s0 Hr Hi) as Hx. destruct (body x s0) as [[[y|a]|e] s1]; [|done|done].
  destruct Hx as (L1 & R1 & D1 & I1 & Q1). apply Nat.ltb_lt in Q1. specialize (IH y s1 ltac:(lia) D1 I1).
  destruct (loop_go fuel body y s1) as [r s2]. destruct IH as (L2 & R2 & D2 & I2 & Q2). split_and!; [lia|by etrans|done|done|].
  destruct r; [|done]. rewrite (ltb_chain _ _ _ L2 L1). apply Nat.ltb_lt in Q1. rewrite Q1. by eapply HQ.
Qed.

Lemma moves_loop {X A} (Q : bool -> A -> Prop) (body : X -> M (X + A)) x :
  (forall x, moves (fun b r => match r with inl _ => b = true | inr a => Q b a end) (body x)) -> (forall b a, Q b a -> Q true a) ->
  moves Q (loop body x).
Proof. intros Hb HQ s Hr Hi. by apply moves_loop_go; auto. Qed.

Lemma moves_get {A} (f : Sess -> A) : moves any (get f).
Proof. intros s Hr Hi. by split_and!. Qed.

Lemma moves_me : moves (fun _ u => ours who (u_id u)) me.
Proof. intros s Hr Hi. by split_and!. Qed.

Lemma moves_modify (f : Sess -> Sess) :
  (forall x, length (se_in (f x)) = length (se_in x) /\ (mine x -> mine (f x))) -> moves any (modify f).
Proof. intros Hf s Hr Hi. destruct (Hf (sess s)) as [Hl Hm]. cbn. unfold left_in. cbn. rewrite Hl. split_and!; [lia|done|done|auto|done]. Qed.

(** Input is taken, the account stays. *)
Lemma moves_take (f : Sess -> Sess) :
  (forall x, (length (se_in (f x)) <= length (se_in x))%nat /\ se_user (f x) = se_user x) -> moves any (modify f).
Proof. intros Hf s Hr Hi. destruct (Hf (sess s)) as [Hl Hu]. cbn. unfold left_in, mine in *. cbn. rewrite Hu. by split_and!. Qed.

Lemma moves_lift {A} (p : Proc A) : steps R p -> moves any (lift p).
Proof. intros Hp s Hr Hi. unfold lift. destruct (Hp _ Hr) as [? ?]. destruct (p (shared s)) as [a sh]. by split_and!. Qed.

Lemma moves_readRune : moves eaten readRune.
Proof.
  intros s Hr Hi. unfold readRune. destruct (se_werr (sess s)); [by split_and!|].
  pose proof (read_go_left (se_cs (sess s)) (se_in (sess s)) (se_dec (sess s)) (se_size (sess s))) as Hl.
  destruct (read_go _ _ _ _) as [[[r d] size] i]. cbn. unfold left_in. cbn. destruct Hl as [Hle Hlt].
  split_and!; [done|done|done|done|]. destruct r; [|done]. apply Nat.ltb_lt. auto.
Qed.
End logic.

Create HintDb moves discriminated.
#[export] Hint Constants Opaque : moves.
#[export] Hint Resolve moves_get moves_me moves_readRune : moves.
#[export] Hint Extern 1 (PreOrder _) => exact _ : moves.
#[export] Hint Extern 1 (ServerRel _ _) => exact _ : moves.
#[export] Hint Extern 1 (Logs _) => exact _ : moves.
(** A procedure of the server: by the rules for procedures. *)
#[export] Hint Extern 2 (moves _ _ _ (lift _)) => eapply moves_lift; solve [walk] : moves.

(** [stroll]: one rule after the other.  The result of a branch to the left of a bind is forgotten. *)
Ltac settle := unfold any, eaten, turn in *; cbn in *; subst; rewrite ?orb_true_r; solve
  [ exact Logic.I | reflexivity | assumption
  | repeat match goal with |- context [match ?c with _ => _ end] => destruct c; cbn in * end; auto ].
Ltac leaf := solve [ eauto 4 with moves nocore ].
Ltac stroll :=
  repeat lazymatch goal with
  | |- forall _, _ => intros ?; cbv beta
  | |- moves _ _ _ (mret _) => apply moves_ret; [exact _|]; cbv beta iota; try settle
  | |- moves _ _ _ (throw _) => apply moves_throw; [exact _|discriminate]
  | |- moves _ _ _ (match ?x with _ => _ end) => destruct x
  | |- moves _ _ _ (match ?x with _ => _ end ≫= _) => eapply moves_bind with (Q := any); [exact _| |]
  | |- moves _ _ _ ((_ ≫= _) ≫= _) => eapply moves_bind with (Q := any); [exact _| |]
  | |- moves _ _ _ (_ ≫= _) => eapply moves_bind; [exact _|leaf|]
  | |- moves _ _ _ (loop _ _) => apply moves_loop; [exact _| |try (intros; settle)]
  | |- _ => first [leaf | eapply moves_weaken; [leaf|intros; settle]]
  end.

#[export] Hint Extern 2 (moves _ _ _ (always _ _)) => eapply moves_always; [exact _|leaf|leaf|done] : moves.

(** *** The session's own procedures *)

Section session.
Context `{UnicodeTables} `{Crypto} `{MailParser} `{BBS} (P : DB -> DB -> Prop) (R : Server -> Server -> Prop) `{!ServerRel P R} `{!Logs P}
  (who : option Z).
#[local] Abbreviation moves := (moves R who).

Lemma write_keeps p x : length (se_in (write_bytes p x)) = length (se_in x) /\ (mine who x -> mine who (write_bytes p x)).
Proof. unfold write_bytes. destruct (se_werr x); [done|]. destruct (se_room x); [|done]. by destruct (_ <? _)%nat. Qed.

Lemma moves_print text : moves any (print text).
Proof.
  apply moves_modify; [exact _|]. intros x. destruct (Render (se_rend x) text) as [out r]. apply (write_keeps _ (with_rend r x)).
Qed.

Lemma moves_raw text : moves any (raw text).
Proof. apply moves_modify; [exact _|]. intros x. apply write_keeps. Qed.

Hint Resolve moves_print moves_raw : moves.

Lemma moves_clearLine : moves any clearLine.
Proof. unfold clearLine. stroll. Qed.
Lemma moves_width : moves any width.
Proof. unfold width. stroll. Qed.
Lemma moves_height : moves any height.
Proof. unfold height. stroll. Qed.
Lemma moves_caller : moves any caller.
Proof. unfold caller. stroll. Qed.
Lemma moves_color : moves any color_.
Proof. unfold color_. stroll. Qed.
Hint Resolve moves_clearLine moves_width moves_height moves_caller moves_color : moves.

Lemma moves_my_node {A} (f : node -> A * node) dflt : moves any (on_my_node f dflt).
Proof. unfold on_my_node. stroll. Qed.
Hint Resolve (@moves_my_node) : moves.

Lemma moves_setActivity a : moves any (sess_setActivity a).
Proof. unfold sess_setActivity. stroll. Qed.
Lemma moves_setUser u : moves any (sess_setUser u).
Proof. unfold sess_setUser. stroll. Qed.
Lemma moves_print_all l : moves any (print_all l).
Proof. induction l; cbn [print_all]; stroll. Qed.
Hint Resolve moves_setActivity moves_setUser moves_print_all : moves.

Lemma moves_flushNotices : moves any flushNotices.
Proof. unfold flushNotices. stroll. Qed.
Lemma moves_readKey allowed : moves eaten (readKey allowed).
Proof. unfold readKey. stroll. Qed.
Hint Resolve moves_flushNotices moves_readKey : moves.

Lemma moves_choose allowed : moves eaten (choose allowed).
Proof. unfold choose. stroll. Qed.
Lemma moves_wrapOverflow buf r : moves any (wrapOverflow buf r).
Proof. unfold wrapOverflow. stroll. Qed.
Hint Resolve moves_choose moves_wrapOverflow : moves.

Lemma moves_edit o buf r : moves any (edit o buf r).
Proof. unfold edit. stroll. Qed.
Hint Resolve moves_edit : moves.

Lemma moves_readLine o : moves eaten (readLine o).
Proof. unfold readLine. stroll. Qed.
Hint Resolve moves_readLine : moves.

Lemma moves_prompt label n : moves eaten (prompt label n).
Proof. unfold prompt. stroll. Qed.
Lemma moves_promptSecret label n : moves eaten (promptSecret label n).
Proof. unfold promptSecret. stroll. Qed.
Lemma moves_yesNo q def : moves eaten (yesNo q def).
Proof. unfold yesNo. stroll. Qed.
Lemma moves_pause : moves eaten pause.
Proof. unfold pause. stroll. Qed.
Lemma moves_more : moves eaten more.
Proof. unfold more. stroll. Qed.
Hint Resolve moves_prompt moves_promptSecret moves_yesNo moves_pause moves_more : moves.

Lemma moves_page lines used : moves any (page lines used).
Proof.
  unfold page. stroll. generalize (Z.max (a - 2) minPageLines), used. induction lines as [|ln lines IH]; intros per row; cbn [page_go]; stroll.
Qed.
Hint Resolve moves_page : moves.

Lemma moves_header title : moves any (show_header title).
Proof. unfold show_header. stroll. Qed.
Lemma moves_box title body : moves any (show_box title body).
Proof. unfold show_box. stroll. Qed.
Lemma moves_table title heading rows empty : moves any (show_table title heading rows empty).
Proof. unfold show_table. stroll. Qed.
Hint Resolve moves_header moves_box moves_table : moves.

Lemma moves_menu title items : moves any (show_menu title items).
Proof. unfold show_menu. stroll. Qed.
Lemma moves_menuColumns lt l rt r : moves any (show_menuColumns lt l rt r).
Proof. unfold show_menuColumns. stroll. Qed.
Lemma moves_actions words : moves any (show_actions words).
Proof. unfold show_actions. stroll. Qed.
Hint Resolve moves_menu moves_menuColumns moves_actions : moves.

Lemma moves_actionPrompt extra words : moves eaten (actionPrompt extra words).
Proof. unfold actionPrompt. stroll. Qed.
Lemma moves_menuPrompt w keys : moves eaten (menuPrompt w keys).
Proof. unfold menuPrompt. stroll. Qed.
Lemma moves_showLetter l : moves any (showLetter l).
Proof. unfold showLetter. stroll. Qed.
Lemma moves_reportError e : moves eaten (reportError e).
Proof. unfold reportError. stroll. Qed.
Hint Resolve moves_actionPrompt moves_menuPrompt moves_showLetter moves_reportError : moves.

Lemma moves_editorLines lines : moves any (listEditorLines lines).
Proof. unfold listEditorLines. stroll. Qed.
Hint Resolve moves_editorLines : moves.

Lemma moves_editorAction cmd lines : moves any (editorAction cmd lines).
Proof. unfold editorAction. stroll. Qed.
Hint Resolve moves_editorAction : moves.

Lemma moves_editor initial : moves any (editor initial).
Proof. unfold editor, editor_turn. stroll. Qed.
End session.

#[export] Hint Resolve moves_print moves_raw moves_clearLine moves_width moves_height moves_caller moves_color moves_my_node moves_setActivity
  moves_setUser moves_print_all moves_flushNotices moves_readKey moves_choose moves_readLine moves_prompt moves_promptSecret moves_yesNo
  moves_pause moves_more moves_page moves_header moves_box moves_table moves_menu moves_menuColumns moves_actions moves_actionPrompt
  moves_menuPrompt moves_showLetter moves_reportError moves_editorLines moves_editor : moves.
