(* ===== verification/Terminals.v ===== *)
(** * What the caller types, from the network to the session: [internal/bbs/sshterm.go], [input.go]

    Three goroutines pass the bytes on: [readLoop] of the SSH terminal fills a bounded channel with chunks, the input pump
    reads the terminal byte by byte and offers each over an unbuffered channel, and the session takes them.  A
    goroutine is its program counter ([reader], [pump_pc]); what it shares with the others are the records of the
    source; a blocking operation is a partial function, and a run is any interleaving of the steps that do not block.
    The terminal is an interface ([Terminal]) to the pump, which both transports implement. *)

From Stdlib Require Import Ascii String ZArith Lia.
From stdpp Require Import base tactics list gmap strings relations.
From S2P Require Import Prelude GoStrings Editor.
From S2P Require Telnet.
Open Scope Z_scope.

(** ** The interface *)

(** [io.EOF], [os.ErrDeadlineExceeded], and every other error. *)
Inductive read_error := rEOF | rDeadline | rOther (e : bytes).
#[global] Instance read_error_dec : EqDecision read_error.
Proof. solve_decision. Defined.

Inductive read_outcome := Byte (b : Z) | Failed (e : read_error) | Panics.

(** [reads t o t']: [ReadByte] may return [o].  [moves]: what happens to the terminal meanwhile.  [given]: the bytes that
    [ReadByte] has returned so far. *)
Class Terminal (T : Type) := {
  reads : T -> read_outcome -> T -> Prop;
  moves : T -> T -> Prop;
  given : T -> bytes;
  reads_byte t b t' : reads t (Byte b) t' -> given t' = given t ++ [b];
  reads_failed t e t' : reads t (Failed e) t' -> given t' = given t;
  moves_given t t' : moves t t' -> given t' = given t
}.

(** ** sshterm.go *)

Definition sshReadChunk : Z := 1024.
Definition sshReadBacklog : Z := 8.

(** [readLoop]: waiting for the network, waiting for room in the channel, or returned, its channel closed. *)
Inductive reader := Reading | Sending (chunk : bytes) (err : option read_error) | Stopped.

Record sshTerm := MkTerm {
  st_idle : Z; st_data : list bytes; st_reader : reader; st_readErr : option read_error; st_buf : bytes; st_done : bool; st_sent : bytes;
  st_width : Z; st_height : Z; st_termType : bytes; st_userID : Z
}.

Definition newSSHTerm (idle : Z) : sshTerm := MkTerm idle [] Reading None [] false [] 80 24 [] 0.
Definition KeyUserID (t : sshTerm) : Z := st_userID t.
Definition TermType (t : sshTerm) : bytes := st_termType t.
Definition Size (t : sshTerm) : Z * Z := (st_width t, st_height t).

Definition set_input (data : list bytes) (r : reader) (e : option read_error) (buf : bytes) (t : sshTerm) : sshTerm :=
  MkTerm (st_idle t) data r e buf (st_done t) (st_sent t) (st_width t) (st_height t) (st_termType t) (st_userID t).
Definition set_output (done : bool) (sent : bytes) (t : sshTerm) : sshTerm :=
  MkTerm (st_idle t) (st_data t) (st_reader t) (st_readErr t) (st_buf t) done sent (st_width t) (st_height t) (st_termType t) (st_userID t).
Definition set_window (w h : Z) (ty : bytes) (t : sshTerm) : sshTerm :=
  MkTerm (st_idle t) (st_data t) (st_reader t) (st_readErr t) (st_buf t) (st_done t) (st_sent t) w h ty (st_userID t).
Definition set_userID (id : Z) (t : sshTerm) : sshTerm :=
  MkTerm (st_idle t) (st_data t) (st_reader t) (st_readErr t) (st_buf t) (st_done t) (st_sent t) (st_width t) (st_height t) (st_termType t) id.

(** [readLoop], cut where it waits.  The rest of a turn after the chunk is away: *)
Definition after_chunk (data : list bytes) (err : option read_error) (t : sshTerm) : sshTerm :=
  match err with
  | Some e => set_input data Stopped (Some e) (st_buf t) t
  | None => set_input data Reading (st_readErr t) (st_buf t) t
  end.

(** [t.ch.Read(chunk)] returned [p] and [err]. *)
Definition readLoop_read (p : bytes) (err : option read_error) (t : sshTerm) : option sshTerm :=
  match st_reader t with
  | Reading => Some (if 0 <? len p then set_input (st_data t) (Sending p err) (st_readErr t) (st_buf t) t else after_chunk (st_data t) err t)
  | _ => None
  end.

(** [t.data <- chunk\[:n\]] *)
Definition readLoop_send (t : sshTerm) : option sshTerm :=
  match st_reader t with
  | Sending p err => if len (st_data t) <? sshReadBacklog then Some (after_chunk (st_data t ++ [p]) err t) else None
  | _ => None
  end.

(** [<-t.done] *)
Definition readLoop_done (t : sshTerm) : option sshTerm :=
  match st_reader t with
  | Sending _ _ => if st_done t then Some (set_input (st_data t) Stopped (st_readErr t) (st_buf t) t) else None
  | _ => None
  end.

(** The error that a closed channel stands for. *)
Definition end_error (e : option read_error) : read_error := match e with None | Some rEOF => rEOF | Some e => e end.

(** [next]; [fired]: the timer's case is the one taken.  [None] while it waits. *)
Definition next (fired : bool) (t : sshTerm) : option (result read_error bytes * sshTerm) :=
  if fired then if 0 <? st_idle t then Some (Err rDeadline, t) else None
  else
    match st_data t, st_reader t with
    | p :: data, r => Some (Ok p, set_input data r (st_readErr t) (st_buf t) t)
    | [], Stopped => Some (Err (end_error (st_readErr t)), t)
    | [], _ => None
    end.

Definition ReadByte (fired : bool) (t : sshTerm) : option (read_outcome * sshTerm) :=
  let take_from (buf : bytes) (t : sshTerm) :=
    match buf with
    | b :: rest => (Byte b, set_input (st_data t) (st_reader t) (st_readErr t) rest t)
    | [] => (Panics, t)
    end in
  match st_buf t with
  | [] =>
      match next fired t with
      | Some (Ok chunk, t) => Some (take_from chunk t)
      | Some (Err e, t) => Some (Failed e, t)
      | None => None
      end
  | buf => Some (take_from buf t)
  end.

Definition Close (t : sshTerm) : sshTerm := set_output true (st_sent t) t.

(** [Write] to a caller whose window takes [room] more bytes before the watchdog fires: it hangs up on one who reads too
    little. *)
Definition Write (room : Z) (p : bytes) (t : sshTerm) : bool * sshTerm :=
  if st_done t then (false, t)
  else if len p <=? room then (true, set_output false (st_sent t ++ p) t)
  else (false, Close (set_output false (st_sent t ++ slice_to p room) t)).

Definition setSize (cols rows : Z) (t : sshTerm) : sshTerm :=
  if (cols =? 0) || (rows =? 0) then t
  else let '(w, h) := clampSize (Z.min cols 512) (Z.min rows 512) in set_window w h (st_termType t) t.

(** *** The requests of a session *)

(** [ssh.Unmarshal] into the two structures: the terminal's type, columns and rows; columns and rows. *)
Class SSHWire := { unmarshal_pty : bytes -> option (bytes * Z * Z); unmarshal_window : bytes -> option (Z * Z) }.

Record request := MkRequest { rq_Type : bytes; rq_Payload : bytes }.

(** What one request does: the answer, whether [ready] is closed, [started] afterwards, and the terminal. *)
Definition handleRequest `{SSHWire} (req : request) (started : bool) (t : sshTerm) : bool * bool * bool * sshTerm :=
  if bool_decide (rq_Type req = str "pty-req") then
    match unmarshal_pty (rq_Payload req) with
    | Some (term, cols, rows) => (true, false, started, setSize cols rows (set_window (st_width t) (st_height t) term t))
    | None => (false, false, started, t)
    end
  else if bool_decide (rq_Type req = str "window-change") then
    match unmarshal_window (rq_Payload req) with
    | Some (cols, rows) => (true, false, started, setSize cols rows t)
    | None => (false, false, started, t)
    end
  else if bool_decide (rq_Type req = str "shell") then (negb started, negb started, true, t)
  else (bool_decide (rq_Type req = str "env"), false, started, t).

(** [handleRequests]; [replied] says of each request whether the answer could be sent.  The answers, how often [ready] was
    closed, and the terminal. *)
Fixpoint handleRequests `{SSHWire} (reqs : list (request * bool)) (started : bool) (t : sshTerm) : list bool * Z * sshTerm :=
  match reqs with
  | [] => ([], 0, t)
  | (req, replied) :: reqs =>
      let '(ok, closes, started, t) := handleRequest req started t in
      let n := if closes : bool then 1 else 0 in
      if replied then let '(oks, m, t) := handleRequests reqs started t in (ok :: oks, n + m, t) else ([ok], n, t)
  end.

(** ** input.go *)

(** [run]: in [ReadByte], offering what it returned, or returned. *)
Inductive pump_pc := PReading | POffer (ev : result read_error Z) | PStopped.

Record inputPump := MkPump { p_pc : pump_pc; p_done : bool; p_err : option read_error }.

Definition newInputPump : inputPump := MkPump PReading false None.

(** [ReadByte] returned. *)
Definition run_read (o : result read_error Z) (p : inputPump) : option inputPump :=
  match p_pc p with PReading => Some (MkPump (POffer o) (p_done p) (p_err p)) | _ => None end.

(** [<-p.done] *)
Definition run_done (p : inputPump) : option inputPump :=
  match p_pc p with POffer _ => if p_done p then Some (MkPump PStopped (p_done p) (p_err p)) else None | _ => None end.

(** The event is taken: [p.events <-] here, [<-p.events] in the session. *)
Definition run_sent (p : inputPump) : option (result read_error Z * inputPump) :=
  match p_pc p with
  | POffer ev => Some (ev, MkPump (match ev with Ok _ => PReading | Err _ => PStopped end) (p_done p) (p_err p))
  | _ => None
  end.

Definition accept (ev : result read_error Z) (p : inputPump) : result read_error Z * inputPump :=
  match ev with Err e => (Err e, MkPump (p_pc p) (p_done p) (Some e)) | Ok b => (Ok b, p) end.

Definition pump_next (p : inputPump) : option (result read_error Z * inputPump) :=
  match p_err p with
  | Some e => Some (Err e, p)
  | None => '(ev, p) ← run_sent p; Some (accept ev p)
  end.

Definition stop (p : inputPump) : inputPump := MkPump (p_pc p) true (p_err p).

(** ** The SSH terminal implements the interface

    With what its channel has delivered so far, what [ReadByte] has returned, and the chunk that [readLoop] dropped
    because the terminal was closed. *)

Record ssh_input := MkIn { si_term : sshTerm; si_received : bytes; si_given : bytes; si_dropped : bytes }.

Definition new_ssh_input (idle : Z) : ssh_input := MkIn (newSSHTerm idle) [] [] [].

Definition sending (t : sshTerm) : bytes := match st_reader t with Sending p _ => p | _ => [] end.

Inductive ssh_moves : ssh_input -> ssh_input -> Prop :=
| sm_read p err t t' rcv g d : readLoop_read p err t = Some t' -> len p <= sshReadChunk -> ssh_moves (MkIn t rcv g d) (MkIn t' (rcv ++ p) g d)
| sm_send t t' rcv g d : readLoop_send t = Some t' -> ssh_moves (MkIn t rcv g d) (MkIn t' rcv g d)
| sm_done t t' rcv g d : readLoop_done t = Some t' -> ssh_moves (MkIn t rcv g d) (MkIn t' rcv g (sending t))
| sm_close t rcv g d : ssh_moves (MkIn t rcv g d) (MkIn (Close t) rcv g d)
| sm_write room p t rcv g d : ssh_moves (MkIn t rcv g d) (MkIn (snd (Write room p t)) rcv g d)
| sm_request `{SSHWire} req started t rcv g d : ssh_moves (MkIn t rcv g d) (MkIn (snd (handleRequest req started t)) rcv g d).

Inductive ssh_reads : ssh_input -> read_outcome -> ssh_input -> Prop :=
| sr_byte fired t b t' rcv g d : ReadByte fired t = Some (Byte b, t') -> ssh_reads (MkIn t rcv g d) (Byte b) (MkIn t' rcv (g ++ [b]) d)
| sr_other fired t o t' rcv g d : ReadByte fired t = Some (o, t') -> (forall b, o <> Byte b) -> ssh_reads (MkIn t rcv g d) o (MkIn t' rcv g d).

Lemma ssh_reads_given s o s' : ssh_reads s o s' -> si_given s' = si_given s ++ match o with Byte b => [b] | _ => [] end.
Proof. destruct 1 as [|fired t o]; [done|]. cbn. destruct o; [naive_solver|by rewrite app_nil_r..]. Qed.

Lemma ssh_reads_nothing s e s' : ssh_reads s (Failed e) s' -> si_given s' = si_given s.
Proof. intros ->%ssh_reads_given. apply app_nil_r. Qed.

Lemma ssh_moves_given s s' : ssh_moves s s' -> si_given s' = si_given s.
Proof. by destruct 1. Qed.

#[export] Instance ssh_terminal : Terminal ssh_input := {
  reads := ssh_reads; moves := ssh_moves; given := si_given;
  reads_byte s b s' H := ssh_reads_given s (Byte b) s' H; reads_failed := ssh_reads_nothing; moves_given := ssh_moves_given
}.

(** The bytes are on their way in order; only a closed terminal drops any, and then reads nothing more; each place
    holds at most its size. *)
Definition ssh_inv (s : ssh_input) : Prop :=
  let t := si_term s in
  si_received s = si_given s ++ st_buf t ++ concat (st_data t) ++ sending t ++ si_dropped s
  /\ (si_dropped s <> [] -> st_done t = true /\ st_reader t = Stopped)
  /\ Forall (fun p => 0 < len p <= sshReadChunk) (st_data t)
  /\ len (st_data t) <= sshReadBacklog
  /\ len (st_buf t) < sshReadChunk
  /\ match st_reader t with Sending p _ => 0 < len p <= sshReadChunk | _ => True end
  /\ len (si_dropped s) <= sshReadChunk.

Lemma after_chunk_facts data err t :
  let t' := after_chunk data err t in
  st_data t' = data /\ st_buf t' = st_buf t /\ st_done t' = st_done t /\ sending t' = [] /\ (st_reader t' = Reading \/ st_reader t' = Stopped).
Proof. destruct err; cbn; split_and!; auto. Qed.

(** Output, the window and the requests leave the input alone. *)
Definition same_input (t t' : sshTerm) : Prop :=
  st_data t' = st_data t /\ st_buf t' = st_buf t /\ st_reader t' = st_reader t /\ (st_done t = true -> st_done t' = true).

Lemma setSize_input cols rows t t' : same_input t t' -> same_input t (setSize cols rows t').
Proof. unfold setSize. by destruct (_ || _). Qed.

Lemma Write_input room p t : same_input t (snd (Write room p t)).
Proof. unfold Write, same_input. by destruct (st_done t) eqn:E, (len p <=? room); cbn; rewrite ?E. Qed.

Lemma handleRequest_input `{SSHWire} req started t : same_input t (snd (handleRequest req started t)).
Proof.
  unfold handleRequest. repeat case_bool_decide; try done; [destruct (unmarshal_pty _) as [[[term cols] rows]|]|destruct (unmarshal_window _) as [[cols rows]|]];
    try done; by apply setSize_input.
Qed.

Lemma same_input_inv t t' rcv g d : same_input t t' -> ssh_inv (MkIn t rcv g d) -> ssh_inv (MkIn t' rcv g d).
Proof. intros (H1 & H2 & H3 & H4). unfold ssh_inv, sending. cbn. rewrite H1, H2, H3. naive_solver. Qed.

Lemma ssh_moves_inv s s' : ssh_moves s s' -> ssh_inv s -> ssh_inv s'.
Proof.
  destruct 1 as [p err t t' rcv g d Hr Hp|t t' rcv g d Hr|t t' rcv g d Hr|t rcv g d|room p t rcv g d|W req st t rcv g d]; intros I.
  - unfold readLoop_read in Hr. destruct (st_reader t) eqn:E; simplify_eq. unfold ssh_inv, sending in *. cbn in *. rewrite E in I.
    destruct I as (I1 & I2 & I3 & I4 & I5 & _ & I6).
    assert (d = []) as -> by (destruct d as [|x d]; [done|destruct I2; [done|congruence]]).
    destruct (Z.ltb_spec 0 (len p)); cbn.
    + rewrite !app_nil_r in *. rewrite I1. split_and!; try done. by rewrite <-!app_assoc.
    + assert (p = []) as -> by (destruct p as [|x p]; [done|unfold len in *; cbn in *; lia]).
      destruct (after_chunk_facts (st_data t) err t) as (-> & -> & -> & Hs & Hr). unfold sending in Hs. rewrite Hs, !app_nil_r in *.
      split_and!; try done. by destruct Hr as [-> | ->].
  - unfold readLoop_send in Hr. destruct (st_reader t) as [|p err|] eqn:E; try done. destruct (Z.ltb_spec (len (st_data t)) sshReadBacklog); simplify_eq.
    unfold ssh_inv, sending in *. cbn in *. rewrite E in I. destruct I as (I1 & I2 & I3 & I4 & I5 & I7 & I6).
    assert (d = []) as -> by (destruct d as [|x d]; [done|destruct I2; [done|congruence]]).
    destruct (after_chunk_facts (st_data t ++ [p]) err t) as (-> & -> & -> & Hs & Hr). unfold sending in Hs. rewrite Hs, concat_app. cbn.
    rewrite !app_nil_r in *. split_and!; try done; [apply Forall_app; auto|rewrite len_app; unfold len at 2; cbn; lia|by destruct Hr as [-> | ->]].
  - unfold readLoop_done in Hr. destruct (st_reader t) as [|p err|] eqn:E; try done. destruct (st_done t) eqn:Ed; simplify_eq.
    unfold ssh_inv, sending in *. cbn in *. rewrite E in *. destruct I as (I1 & I2 & I3 & I4 & I5 & I7 & I6).
    assert (d = []) as -> by (destruct d as [|x d]; [done|destruct I2; [done|congruence]]).
    rewrite !app_nil_r in *. split_and!; try done. lia.
  - by apply (same_input_inv t).
  - eapply same_input_inv; [apply Write_input|done].
  - eapply same_input_inv; [apply handleRequest_input|done].
Qed.

Lemma ssh_reads_inv s o s' : ssh_reads s o s' -> ssh_inv s -> ssh_inv s' /\ o <> Panics.
Proof.
  intros Hr I. assert (exists fired, ReadByte fired (si_term s) = Some (o, si_term s') /\ si_received s' = si_received s /\ si_dropped s' = si_dropped s
    /\ si_given s' = si_given s ++ match o with Byte b => [b] | _ => [] end) as (fired & H & H1 & H2 & H3).
  { pose proof (ssh_reads_given _ _ _ Hr). destruct Hr as [fired|fired]; by exists fired. }
  destruct s as [t rcv g d], s' as [t' rcv' g' d']. unfold ssh_inv in *. cbn in *. subst rcv' g' d'. destruct I as (I1 & I2 & I3 & I4 & I5 & I7 & I6).
  unfold ReadByte, next in H. destruct (st_buf t) as [|b rest] eqn:Eb.
  - destruct fired; [destruct (0 <? st_idle t); simplify_eq; rewrite app_nil_r, Eb; by split_and!|].
    destruct (st_data t) as [|p data] eqn:Ed.
    + destruct (st_reader t) eqn:Er; simplify_eq. unfold sending in *. rewrite app_nil_r, Eb, Ed, Er in *. by split_and!.
    + apply Forall_cons in I3 as [Hp I3]. destruct p as [|b rest]; [unfold len in Hp; cbn in Hp; lia|]. simplify_eq. unfold sending in *.
      cbn [set_input st_buf st_data st_reader st_done] in *. rewrite len_cons in Hp. rewrite len_cons in I4.
      split_and!; try done; try lia.
      { cbn [concat app]. by rewrite <-!app_assoc. }
  - simplify_eq. unfold sending in *. cbn [set_input st_buf st_data st_reader st_done] in *. rewrite len_cons in *.
    split_and!; try done; try lia. by rewrite <-!app_assoc.
Qed.

(** ** The pump over any terminal *)

(** [sy_got]: what [next] has returned to the session. *)
Record input_sys (T : Type) := MkSys { sy_term : T; sy_pump : inputPump; sy_got : list (result read_error Z) }.
Arguments MkSys {T}.
Arguments sy_term {T}.
Arguments sy_pump {T}.
Arguments sy_got {T}.

Definition outcome (o : result read_error Z) : read_outcome := match o with Ok b => Byte b | Err e => Failed e end.

Section pump.
Context {T : Type} `{Terminal T}.

Inductive input_step : input_sys T -> input_sys T -> Prop :=
| is_moves t t' p got : moves t t' -> input_step (MkSys t p got) (MkSys t' p got)
| is_read t o t' p p' got : reads t (outcome o) t' -> run_read o p = Some p' -> input_step (MkSys t p got) (MkSys t' p' got)
| is_done t p p' got : run_done p = Some p' -> input_step (MkSys t p got) (MkSys t p' got)
| is_next t p ev p' got : p_done p = false -> pump_next p = Some (ev, p') -> input_step (MkSys t p got) (MkSys t p' (got ++ [ev]))
| is_stop t p got : input_step (MkSys t p got) (MkSys t (stop p) got).

(** The bytes the session has got, then the error that ended its input as often as it asked again. *)
Definition heard (bs : bytes) (err : option read_error) (got : list (result read_error Z)) : Prop :=
  match err with
  | None => got = Ok <$> bs
  | Some e => exists k, (0 < k)%nat /\ got = (Ok <$> bs) ++ replicate k (Err e)
  end.

(** What of the terminal's bytes is still with the pump, or was lost when the session stopped it. *)
Definition in_hand (p : inputPump) (rest : bytes) : Prop :=
  match p_pc p with
  | POffer (Ok b) => rest = [b]
  | PStopped => (rest <> [] -> p_done p = true /\ p_err p = None) /\ (p_done p = true \/ p_err p <> None)
  | _ => rest = []
  end.

Definition failure (p : inputPump) : option read_error := match p_pc p with POffer (Err e) => Some e | _ => p_err p end.

Definition pump_inv (s : input_sys T) : Prop :=
  exists bs rest, given (sy_term s) = bs ++ rest /\ (length rest <= 1)%nat /\ in_hand (sy_pump s) rest
    /\ heard bs (p_err (sy_pump s)) (sy_got s) /\ (p_err (sy_pump s) <> None -> p_pc (sy_pump s) = PStopped).

Lemma pump_step_inv s s' : input_step s s' -> pump_inv s -> pump_inv s'.
Proof.
  destruct 1 as [t t' p got Hm|t o t' p p' got Hr Hp|t p p' got Hp|t p ev p' got Hd Hn|t p got]; intros (bs & rest & Hg & Hl & Hi & Hh & He);
    unfold pump_inv; cbn [sy_term sy_pump sy_got] in *.
  - exists bs, rest. by rewrite (moves_given _ _ Hm).
  - unfold run_read, in_hand in *. destruct p as [pc dn er]; destruct pc; cbn in *; simplify_eq. cbn. rewrite app_nil_r in Hg.
    destruct er as [e|]; [by discriminate He|]. destruct o as [b|e]; cbn in *.
    + exists bs, [b]. rewrite (reads_byte _ _ _ Hr), Hg. split_and!; try done; lia.
    + exists bs, []. rewrite (reads_failed _ _ _ Hr), app_nil_r. by split_and!.
  - unfold run_done, in_hand in *. destruct p as [pc dn er]; destruct pc as [|ev|]; cbn in *; try done. destruct dn; simplify_eq. cbn.
    exists bs, rest. split_and!; try done; [|by left]. intros _. split; [done|]. destruct er as [e|]; [by discriminate He|done].
  - unfold pump_next, run_sent, in_hand in *. destruct p as [pc dn er]; cbn in *. destruct er as [e|].
    + simplify_eq. cbn. exists bs, rest. split_and!; try done. destruct Hh as (k & Hk & ->). exists (S k). split; [lia|].
      by rewrite <-app_assoc, <-(replicate_cons_app k).
    + destruct pc as [|[b|e]|]; cbn in *; try done; simplify_eq; cbn.
      * exists (bs ++ [b]), []. rewrite app_nil_r. split_and!; try done; [cbn; lia|]. unfold heard. by rewrite fmap_app.
      * exists bs, []. rewrite !app_nil_r in *. split_and!; try done; [by right|]. exists 1%nat. split; [lia|done].
  - exists bs, rest. split_and!; try done. unfold in_hand in *. cbn. destruct (p_pc p) as [|[]|]; try done. split; [|by left]. intros Hr. by destruct (proj1 Hi Hr).
Qed.

(** An invariant [I] of the terminal, and what [Q] says about it once [ReadByte] has failed. *)
Variable I : T -> Prop.
Variable Q : read_error -> T -> Prop.
Hypothesis moves_I : forall t t', moves t t' -> I t -> I t'.
Hypothesis reads_I : forall t o t', reads t o t' -> I t -> I t'.
Hypothesis reads_Q : forall t e t', reads t (Failed e) t' -> I t -> Q e t'.
Hypothesis moves_Q : forall e t t', moves t t' -> Q e t -> Q e t'.

Definition sys_inv (s : input_sys T) : Prop :=
  I (sy_term s) /\ pump_inv s /\ forall e, failure (sy_pump s) = Some e -> Q e (sy_term s).

Lemma sys_step_inv s s' : input_step s s' -> sys_inv s -> sys_inv s'.
Proof.
  intros Hs (HI & HP & HQ). pose proof HP as (_ & _ & _ & _ & _ & _ & He). split; [|split; [by eapply pump_step_inv|]].
  - destruct Hs; cbn in *; eauto.
  - intros e Hf. destruct Hs as [t t' p got Hm|t o t' p p' got Hr Hp|t p p' got Hp|t p ev p' got Hd Hn|t p got]; unfold failure in *; cbn [sy_term sy_pump sy_got] in *.
    + eauto.
    + unfold run_read in Hp. destruct p as [pc dn er]; destruct pc; cbn in *; simplify_eq. cbn in Hf. destruct o; cbn in *; simplify_eq; [by discriminate He|by eauto].
    + unfold run_done in Hp. destruct p as [pc dn er]; destruct pc as [|[]|]; cbn in *; try done; destruct dn; simplify_eq; cbn in Hf; simplify_eq; try (by eauto); by discriminate He.
    + unfold pump_next, run_sent in Hn. destruct p as [pc dn er]; cbn in *. destruct er as [e'|].
      * simplify_eq. cbn in Hf. rewrite He in Hf, HQ by done. eauto.
      * destruct pc as [|[]|]; cbn in *; try done; simplify_eq; cbn in Hf; simplify_eq; eauto.
    + cbn in Hf. eauto.
Qed.

Definition new_sys (t : T) : input_sys T := MkSys t newInputPump [].

Lemma new_sys_inv t : I t -> given t = [] -> sys_inv (new_sys t).
Proof. intros Ht Hg. split_and!; [done| |done]. exists [], []. split_and!; try done. cbn. lia. Qed.

Lemma reached_inv t s : I t -> given t = [] -> rtc input_step (new_sys t) s -> sys_inv s.
Proof. intros Ht Hg Hr. pose proof (new_sys_inv _ Ht Hg) as Hi. induction Hr as [|x y z Hs Hr IH] in Hi |- *; [done|]. eauto using sys_step_inv. Qed.
End pump.
