(* ===== verification/TerminalSpec.v ===== *)
(** * What the caller types reaches the session

    About the goroutines of [Terminals]: the session reads what the caller sent, in order, with a bounded amount
    underway, and then the error that ended the input; it is delivered after finitely many steps; hanging up ends every
    goroutine; and a client's requests start one shell. *)

From Stdlib Require Import Ascii String ZArith Lia.
From stdpp Require Import base tactics list gmap strings relations.
From S2P Require Import Prelude GoStrings Editor Terminals.
From S2P Require Telnet.
Open Scope Z_scope.

(** ** Telnet is a terminal too *)

(** The connection and what it has returned.  [bufio] over a connection with a deadline: a read may fail with it at any time. *)
Record telnet_input := MkTel { ti_conn : Telnet.Conn; ti_given : bytes }.

Definition telnet_outcome (r : result Telnet.telnet_error Z) : read_outcome :=
  match r with
  | Ok b => Byte b
  | Err Telnet.EOF => Failed rEOF
  | Err Telnet.WriteFailed => Failed (rOther (str "write"))
  | Err Telnet.OutOfFuel => Panics
  end.

Inductive telnet_reads : telnet_input -> read_outcome -> telnet_input -> Prop :=
| tr_byte c b c' g : Telnet.ReadByte c = (Ok b, c') -> telnet_reads (MkTel c g) (Byte b) (MkTel c' (g ++ [b]))
| tr_failed c e c' g : Telnet.ReadByte c = (Err e, c') -> telnet_reads (MkTel c g) (telnet_outcome (Err e)) (MkTel c' g)
| tr_deadline c g : telnet_reads (MkTel c g) (Failed rDeadline) (MkTel c g).

Inductive telnet_moves : telnet_input -> telnet_input -> Prop :=
| tm_write p c g : telnet_moves (MkTel c g) (MkTel (snd (Telnet.Write p c)) g)
| tm_binary on c g : telnet_moves (MkTel c g) (MkTel (snd (Telnet.SetBinary on c)) g).

Lemma telnet_reads_given s o s' : telnet_reads s o s' -> ti_given s' = ti_given s ++ match o with Byte b => [b] | _ => [] end.
Proof. destruct 1 as [|c e|]; [done| |by rewrite app_nil_r]. destruct e; by rewrite app_nil_r. Qed.

Lemma telnet_reads_nothing s e s' : telnet_reads s (Failed e) s' -> ti_given s' = ti_given s.
Proof. intros ->%telnet_reads_given. apply app_nil_r. Qed.

Lemma telnet_moves_given s s' : telnet_moves s s' -> ti_given s' = ti_given s.
Proof. by destruct 1. Qed.

#[export] Instance telnet_terminal : Terminal telnet_input := {
  reads := telnet_reads; moves := telnet_moves; given := ti_given;
  reads_byte s b s' H := telnet_reads_given s (Byte b) s' H; reads_failed := telnet_reads_nothing; moves_given := telnet_moves_given
}.

Lemma telnet_never_panics s s' : ~ telnet_reads s Panics s'.
Proof.
  intros H. remember Panics as o eqn:E. destruct H as [|c e c' g Hr|]; try done. destruct e; try done.
  by destruct (Telnet.ReadByte_total c) as [[b Hb]|[Hb|[Hb _]]]; rewrite Hr in Hb.
Qed.

(** ** In order, bounded, and the end last *)

Definition ssh_ended (e : read_error) (s : ssh_input) : Prop :=
  e <> rDeadline -> st_reader (si_term s) = Stopped /\ st_data (si_term s) = [] /\ st_buf (si_term s) = [].

Lemma ended_failed s e s' : ssh_reads s (Failed e) s' -> ssh_ended e s'.
Proof.
  intros H He. remember (Failed e) as o eqn:Eo. destruct H as [|fired t o t' rcv g d H _]; [done|]. subst o. cbn. unfold ReadByte, next in H.
  destruct (st_buf t) eqn:Eb; [|by simplify_eq].
  destruct fired; [destruct (0 <? st_idle t); by simplify_eq|].
  destruct (st_data t) as [|[|b p] data] eqn:Ed; [|by simplify_eq..]. destruct (st_reader t) eqn:Er; by simplify_eq.
Qed.

Lemma ended_moves e s s' : ssh_moves s s' -> ssh_ended e s -> ssh_ended e s'.
Proof.
  unfold ssh_ended. intros H Q He. specialize (Q He). destruct Q as (Hr & Hd & Hb).
  destruct H as [p err t t' rcv g d H|t t' rcv g d H|t t' rcv g d H|t rcv g d|room p t rcv g d|W req st t rcv g d]; cbn [si_term] in *.
  - unfold readLoop_read in H. by rewrite Hr in H.
  - unfold readLoop_send in H. by rewrite Hr in H.
  - unfold readLoop_done in H. by rewrite Hr in H.
  - by split_and!.
  - destruct (Write_input room p t) as (-> & -> & -> & _). by split_and!.
  - destruct (handleRequest_input req st t) as (-> & -> & -> & _). by split_and!.
Qed.

Lemma concat_bound (l : list bytes) k : Forall (fun p => 0 < len p <= k) l -> len (concat l) <= k * len l.
Proof. induction 1 as [|p l Hp Hl IH]; [unfold len; cbn; lia|]. cbn [concat]. rewrite len_app, len_cons. lia. Qed.

Lemma new_ssh_inv idle : ssh_inv (new_ssh_input idle).
Proof. unfold ssh_inv, len. cbn. split_and!; try done; lia. Qed.

Lemma ssh_reached idle s : rtc input_step (new_sys (new_ssh_input idle)) s -> sys_inv ssh_inv ssh_ended s.
Proof.
  apply reached_inv; [apply ssh_moves_inv| | |apply ended_moves|apply new_ssh_inv|done].
  - intros t o t' Hr Hi. by eapply ssh_reads_inv.
  - intros t e t' Hr _. by eapply ended_failed.
Qed.

Lemma ssh_all_heard idle s : rtc input_step (new_sys (new_ssh_input idle)) s ->
  forall e, p_err (sy_pump s) = Some e -> e <> rDeadline -> st_done (si_term (sy_term s)) = false -> heard (si_received (sy_term s)) (Some e) (sy_got s).
Proof.
  intros Hr e Ee Hn Hd. destruct (ssh_reached _ _ Hr) as (HI & (bs & rest & Hg & Hl & Hi & Hh & He) & HQ). rewrite Ee in Hh.
  destruct (HQ e) with (2 := Hn) as (Q1 & Q2 & Q3); [unfold failure; rewrite Ee, He by congruence; done|].
  destruct HI as (I1 & I2 & _). rewrite I1. unfold sending. rewrite Q1, Q2, Q3.
  destruct (decide (si_dropped (sy_term s) = [])) as [->|Hd']; [|destruct (I2 Hd'); congruence].
  cbn [given ssh_terminal] in Hg. unfold in_hand in Hi. rewrite He in Hi by congruence. rewrite !app_nil_r, Hg.
  destruct rest; [by rewrite app_nil_r|]. destruct Hi as [[_ H] _]; [done|congruence].
Qed.

Lemma heard_once bs bs' err got : heard bs err got -> heard bs' err got -> bs = bs'.
Proof.
  assert (forall (bs : bytes) k e, omap (fun r : result read_error Z => match r with Ok b => Some b | Err _ => None end) ((Ok <$> bs) ++ replicate k (Err e)) = bs) as Ho.
  { intros l k e. induction l as [|b l IH]; [by induction k|]. cbn. by f_equal. }
  destruct err as [e|]; cbn.
  - intros (k & _ & E) (k' & _ & E'). rewrite <-(Ho bs k e), <-(Ho bs' k' e). by rewrite <-E, <-E'.
  - intros E E'. rewrite <-(Ho bs 0%nat rEOF), <-(Ho bs' 0%nat rEOF). cbn [replicate]. rewrite !app_nil_r. by rewrite <-E, <-E'.
Qed.

(** C19: Over SSH, whatever way the goroutines interleave: the session gets the bytes that the caller sent, in order, and then
    nothing but the error that ended its input; what has been read ahead of it never exceeds ten chunks; and unless it
    idled too long or was hung up on, it has got everything before it hears of the end. *)
Theorem ssh_typed_is_read (idle : Z) (s : input_sys ssh_input) :
  rtc input_step (new_sys (new_ssh_input idle)) s ->
  let t := sy_term s in
  exists bs err, heard bs err (sy_got s) /\ bs `prefix_of` si_received t
    /\ len (si_received t) <= len bs + 10 * sshReadChunk
    /\ (forall e, err = Some e -> e <> rDeadline -> st_done (si_term t) = false -> bs = si_received t)
    /\ forall t', ~ reads t Panics t'.
Proof.
  intros Hr. destruct (ssh_reached _ _ Hr) as (HI & (bs & rest & Hg & Hl & Hi & Hh & He) & HQ). cbv zeta. exists bs, (p_err (sy_pump s)).
  split; [done|]. cbn [given ssh_terminal] in Hg. pose proof HI as (I1 & I2 & I3 & I4 & I5 & I7 & I6). rewrite Hg, <-app_assoc in I1. split_and!.
  - rewrite I1. by apply prefix_app_r.
  - rewrite I1, !len_app. pose proof (concat_bound _ _ I3). assert (len rest <= 1) by (unfold len; lia).
    assert (len (sending (si_term (sy_term s))) + len (si_dropped (sy_term s)) <= sshReadChunk).
    { unfold sending. destruct (decide (si_dropped (sy_term s) = [])) as [->|Hd]; [|rewrite (proj2 (I2 Hd)), len_nil; lia].
      rewrite len_nil. revert I7. destruct (st_reader (si_term (sy_term s))); unfold sshReadChunk, len; cbn; lia. }
    unfold sshReadChunk, sshReadBacklog in *. lia.
  - intros e Ee Hn Hd. rewrite Ee in Hh. eapply heard_once; [exact Hh|by apply (ssh_all_heard _ _ Hr)].
  - intros t' Hp. by destruct (ssh_reads_inv _ _ _ Hp HI).
Qed.

(** A caller who types two letters, the first of which the session has read. *)
Lemma ssh_typed_is_read_witness :
  exists s, rtc input_step (new_sys (new_ssh_input 0)) s
    /\ let t := sy_term s in
       exists bs err, heard bs err (sy_got s) /\ bs `prefix_of` si_received t
         /\ len (si_received t) <= len bs + 10 * sshReadChunk
         /\ (forall e, err = Some e -> e <> rDeadline -> st_done (si_term t) = false -> bs = si_received t)
         /\ forall t', ~ reads t Panics t'.
Proof.
  eexists. match goal with |- ?A /\ _ => assert A as Hr end.
  { eapply rtc_l; [apply is_moves; apply (sm_read [104; 105] None); [reflexivity|vm_compute; discriminate]|].
    eapply rtc_l; [apply is_moves; apply sm_send; reflexivity|].
    eapply rtc_l; [apply (is_read _ (Ok 104)); [apply (sr_byte false); reflexivity|reflexivity]|].
    eapply rtc_l; [apply is_next; reflexivity|]. apply rtc_refl. }
  split; [exact Hr|]. by apply (ssh_typed_is_read 0).
Defined.

(** ** Delivery takes finitely many steps *)

(** A turn of the pump or of the session, while the session still listens. *)
Inductive input_turn : input_sys ssh_input -> input_sys ssh_input -> Prop :=
| it_read t o t' p p' got : ssh_reads t (outcome o) t' -> run_read o p = Some p' -> input_turn (MkSys t p got) (MkSys t' p' got)
| it_next t p ev p' got : p_done p = false -> p_err p = None -> pump_next p = Some (ev, p') -> input_turn (MkSys t p got) (MkSys t p' (got ++ [ev])).

Lemma turn_step s s' : input_turn s s' -> input_step s s'.
Proof. destruct 1; [by eapply is_read|by apply is_next]. Qed.

Definition unread (t : sshTerm) : Z := len (st_buf t ++ concat (st_data t)).
Definition pump_weight (p : inputPump) : Z := match p_pc p with PStopped => 0 | POffer (Err _) => 1 | PReading => 2 | POffer (Ok _) => 3 end.
Definition turns_left (s : input_sys ssh_input) : Z := 2 * unread (si_term (sy_term s)) + pump_weight (sy_pump s).

Lemma ReadByte_unread fired t o t' : ReadByte fired t = Some (o, t') -> match o with Byte _ => unread t' < unread t | _ => unread t' <= unread t end.
Proof.
  unfold ReadByte, next. intros H. destruct (st_buf t) as [|b rest] eqn:Eb; [destruct fired|].
  - destruct (0 <? st_idle t); simplify_eq. lia.
  - destruct (st_data t) as [|[|b p] data] eqn:Ed; [destruct (st_reader t)| |]; simplify_eq; unfold unread; cbn; rewrite ?Eb, ?Ed; unfold len; cbn; rewrite ?length_app; lia.
  - simplify_eq. unfold unread, len. cbn. rewrite Eb. cbn. lia.
Qed.

Lemma turn_decreases s s' : input_turn s s' -> 0 <= turns_left s' < turns_left s.
Proof.
  destruct 1 as [t o t' p p' got Hr Hp|t p ev p' got Hd He Hn]; unfold turns_left, pump_weight; cbn [sy_term sy_pump].
  - assert (0 <= unread (si_term t')) by apply len_nonneg.
    assert (exists fired, ReadByte fired (si_term t) = Some (outcome o, si_term t')) as [fired Hu%ReadByte_unread].
    { inversion Hr; subst; cbn; by eexists. }
    unfold run_read in Hp. destruct p as [pc dn er]; destruct pc; cbn in *; simplify_eq. cbn. destruct o; cbn in *; lia.
  - assert (0 <= unread (si_term t)) by apply len_nonneg. unfold pump_next, run_sent in Hn. rewrite He in Hn.
    destruct p as [pc dn er]; destruct pc as [|[]|]; cbn in *; simplify_eq; cbn; lia.
Qed.

Lemma ReadByte_stopped t : st_reader t = Stopped -> is_Some (ReadByte false t).
Proof. intros Hr. unfold ReadByte, next. rewrite Hr. destruct (st_buf t), (st_data t); eauto. Qed.

Lemma turn_enabled s : ssh_inv (sy_term s) -> st_reader (si_term (sy_term s)) = Stopped -> p_done (sy_pump s) = false -> p_err (sy_pump s) = None ->
  p_pc (sy_pump s) <> PStopped -> exists s', input_turn s s'.
Proof.
  destruct s as [[t rcv g d] [pc dn er] got]. cbn. intros I Hr -> -> Hp. destruct pc as [|ev|]; [|destruct ev; (eexists; apply it_next; done)|done].
  destruct (ReadByte_stopped t Hr) as [[o t'] E]. destruct o as [b|e|].
  - eexists. eapply (it_read _ (Ok b)); [by eapply sr_byte|done].
  - eexists. eapply (it_read _ (Err e)); [by eapply (sr_other false)|done].
  - destruct (ssh_reads_inv (MkIn t rcv g d) Panics (MkIn t' rcv g d)) as [_ []]; [by eapply (sr_other false)|done|done].
Qed.

Lemma ReadByte_keeps fired t o t' : ReadByte fired t = Some (o, t') -> st_reader t' = st_reader t /\ st_done t' = st_done t.
Proof.
  unfold ReadByte, next. intros H.
  destruct (st_buf t); [destruct fired; [destruct (0 <? st_idle t)|destruct (st_data t) as [|[] ?]; [destruct (st_reader t) eqn:?|..]]|]; by simplify_eq.
Qed.

Lemma turn_keeps s s' : input_turn s s' ->
  st_reader (si_term (sy_term s')) = st_reader (si_term (sy_term s)) /\ st_done (si_term (sy_term s')) = st_done (si_term (sy_term s))
  /\ si_received (sy_term s') = si_received (sy_term s) /\ p_done (sy_pump s') = p_done (sy_pump s)
  /\ (p_pc (sy_pump s') = PStopped -> p_err (sy_pump s') <> None).
Proof.
  destruct 1 as [t o t' p p' got Hr Hp|t p ev p' got Hd He Hn]; cbn [sy_term sy_pump].
  - assert (exists fired, ReadByte fired (si_term t) = Some (outcome o, si_term t') /\ si_received t' = si_received t) as (fired & H & ->).
    { inversion Hr; subst; cbn; by eexists. }
    unfold run_read in Hp. destruct p as [pc dn er]; destruct pc; cbn in *; simplify_eq. cbn.
    apply ReadByte_keeps in H as [-> ->]. by split_and!.
  - unfold pump_next, run_sent in Hn. rewrite He in Hn. destruct p as [pc dn er]; destruct pc as [|[]|]; cbn in *; simplify_eq; cbn; split_and!; auto.
Qed.

(** Once the channel has failed, and as long as the session listens and no other goroutine interferes, every turn makes
    progress; when none is left, the session has got every byte and the error, unless it idled too long. *)
Theorem ssh_input_delivered (idle : Z) (s s' : input_sys ssh_input) (n : nat) :
  rtc input_step (new_sys (new_ssh_input idle)) s ->
  st_reader (si_term (sy_term s)) = Stopped -> st_done (si_term (sy_term s)) = false ->
  p_done (sy_pump s) = false -> p_err (sy_pump s) = None ->
  nsteps input_turn n s s' ->
  Z.of_nat n <= 2 * unread (si_term (sy_term s)) + 3
  /\ ((forall s'', ~ input_turn s' s'') ->
      exists e bs, p_err (sy_pump s') = Some e /\ heard bs (Some e) (sy_got s') /\ (e <> rDeadline -> bs = si_received (sy_term s))).
Proof.
  intros Hr Hst Hdn Hpd Hpe Hn.
  assert (rtc input_step (new_sys (new_ssh_input idle)) s') as Hr'.
  { etransitivity; [exact Hr|]. clear -Hn. induction Hn as [|n x y z Hx Hn IH]; [done|]. eapply rtc_l; [by apply turn_step|done]. }
  assert (p_pc (sy_pump s) = PStopped -> p_err (sy_pump s) <> None) as Hs0.
  { destruct (ssh_reached _ _ Hr) as (_ & (bs & rest & _ & _ & Hi & _ & _) & _). intros Hp. unfold in_hand in Hi. rewrite Hp, Hpd in Hi. by destruct Hi as [_ [|]]. }
  assert (Z.of_nat n <= turns_left s /\ st_reader (si_term (sy_term s')) = Stopped /\ st_done (si_term (sy_term s')) = false
    /\ p_done (sy_pump s') = false /\ si_received (sy_term s') = si_received (sy_term s) /\ (p_pc (sy_pump s') = PStopped -> p_err (sy_pump s') <> None)) as H.
  { clear Hr Hr' Hpe. induction Hn as [s|n x y z Hx Hn IH]; [split_and!; try done; unfold turns_left, pump_weight, unread; pose proof (len_nonneg (st_buf (si_term (sy_term s)) ++ concat (st_data (si_term (sy_term s))))); repeat case_match; lia|].
    pose proof (turn_decreases _ _ Hx). destruct (turn_keeps _ _ Hx) as (K1 & K2 & K3 & K4 & K5). rewrite K1, K2, K3, K4 in IH.
    destruct IH as (? & ? & ? & ? & ? & ?); [done..|]. split_and!; try done. lia. }
  destruct H as (H & R1 & R2 & R3 & R4 & R5). split.
  { unfold turns_left, pump_weight in H. repeat case_match; lia. }
  intros Hstuck. destruct (ssh_reached _ _ Hr') as (HI & (bs & rest & _ & _ & _ & Hh & _) & _). destruct (p_err (sy_pump s')) as [e|] eqn:Ee.
  - destruct (decide (e = rDeadline)) as [->|Hne]; [by exists rDeadline, bs|]. exists e, (si_received (sy_term s)). split_and!; [done| |done].
    rewrite <-R4. by apply (ssh_all_heard _ _ Hr').
  - exfalso. destruct (turn_enabled s') as [s'' Hs'']; auto; [|by eapply Hstuck]. intros Hp. by apply R5.
Qed.

(** The caller types a letter and hangs up; the session reads it, and then that there is no more. *)
Definition hung_up_term : sshTerm := MkTerm 0 [[104]] Stopped (Some rEOF) [] false [] 80 24 [] 0.
Definition hung_up_sys : input_sys ssh_input := MkSys (MkIn hung_up_term [104] [] []) newInputPump [].

Lemma hung_up_reached : rtc input_step (new_sys (new_ssh_input 0)) hung_up_sys.
Proof.
  eapply rtc_l; [apply is_moves; apply (sm_read [104] (Some rEOF)); [reflexivity|vm_compute; discriminate]|].
  eapply rtc_l; [apply is_moves; apply sm_send; reflexivity|]. apply rtc_refl.
Qed.

Lemma ssh_input_delivered_witness :
  exists n s', nsteps input_turn n hung_up_sys s' /\ sy_got s' = [Ok 104; Err rEOF] /\ Z.of_nat n <= 2 * unread hung_up_term + 3.
Proof.
  eexists 4%nat, _. match goal with |- ?A /\ _ => assert A as Hn end.
  { eapply nsteps_l; [apply (it_read _ (Ok 104)); [apply (sr_byte false); reflexivity|reflexivity]|].
    eapply nsteps_l; [apply it_next; reflexivity|].
    eapply nsteps_l; [apply (it_read _ (Err rEOF)); [apply (sr_other false); [reflexivity|discriminate]|reflexivity]|].
    eapply nsteps_l; [apply it_next; reflexivity|]. apply nsteps_O. }
  split; [exact Hn|]. split; [reflexivity|]. by apply (ssh_input_delivered 0 hung_up_sys _ 4 hung_up_reached eq_refl eq_refl eq_refl eq_refl Hn).
Defined.

(** ** Hanging up ends the goroutines *)

(** What still happens once the session is over and the terminal closed: a read of the closed channel fails. *)
Inductive closing_step : input_sys ssh_input -> input_sys ssh_input -> Prop :=
| cl_read p e t t' rcv g d pu got : readLoop_read p (Some e) t = Some t' -> len p <= sshReadChunk ->
    closing_step (MkSys (MkIn t rcv g d) pu got) (MkSys (MkIn t' (rcv ++ p) g d) pu got)
| cl_send t t' rcv g d pu got : readLoop_send t = Some t' -> closing_step (MkSys (MkIn t rcv g d) pu got) (MkSys (MkIn t' rcv g d) pu got)
| cl_done t t' rcv g d pu got : readLoop_done t = Some t' -> closing_step (MkSys (MkIn t rcv g d) pu got) (MkSys (MkIn t' rcv g (sending t)) pu got)
| cl_pump t o t' p p' got : ssh_reads t (outcome o) t' -> run_read o p = Some p' -> closing_step (MkSys t p got) (MkSys t' p' got)
| cl_stop t p p' got : run_done p = Some p' -> closing_step (MkSys t p got) (MkSys t p' got).

Definition reader_weight (t : sshTerm) : nat := match st_reader t with Sending _ None => 3 | Reading => 2 | Sending _ (Some _) => 1 | Stopped => 0 end.
Definition goroutines (s : input_sys ssh_input) : nat :=
  reader_weight (si_term (sy_term s)) + match p_pc (sy_pump s) with PReading => 2 | POffer _ => 1 | PStopped => 0 end.

Lemma closing_step_facts s s' : closing_step s s' ->
  (goroutines s' < goroutines s)%nat /\ st_done (si_term (sy_term s')) = st_done (si_term (sy_term s)) /\ p_done (sy_pump s') = p_done (sy_pump s)
  /\ (ssh_inv (sy_term s) -> ssh_inv (sy_term s')).
Proof.
  destruct 1 as [p e t t' rcv g d pu got H Hp|t t' rcv g d pu got H|t t' rcv g d pu got H|t o t' p p' got Hr Hp|t p p' got H]; unfold goroutines, reader_weight;
    cbn [sy_term sy_pump si_term].
  - split_and!; [..|by apply ssh_moves_inv, (sm_read p (Some e))]; unfold readLoop_read in H; destruct (st_reader t); simplify_eq; destruct (0 <? len p); cbn; try done; lia.
  - split_and!; [..|by apply ssh_moves_inv, sm_send]; unfold readLoop_send in H; destruct (st_reader t) as [|p [e|]|]; try done; destruct (_ <? _); simplify_eq; cbn; try done; lia.
  - split_and!; [..|by apply ssh_moves_inv, sm_done]; unfold readLoop_done in H; destruct (st_reader t) as [|p [e|]|]; try done; destruct (st_done t) eqn:E; simplify_eq; cbn; rewrite ?E; try done; lia.
  - assert (exists fired, ReadByte fired (si_term t) = Some (outcome o, si_term t')) as [fired [-> ->]%ReadByte_keeps].
    { inversion Hr; subst; cbn; by eexists. }
    split_and!; [..|intros Hi; by eapply ssh_reads_inv]; unfold run_read in Hp; destruct p as [[] dn er]; cbn in *; simplify_eq; cbn; try done; lia.
  - unfold run_done in H. destruct p as [[] [] er]; cbn in *; simplify_eq; cbn; split_and!; try done; lia.
Qed.

Lemma closing_enabled s : ssh_inv (sy_term s) -> st_done (si_term (sy_term s)) = true -> p_done (sy_pump s) = true ->
  (forall s', ~ closing_step s s') -> st_reader (si_term (sy_term s)) = Stopped /\ p_pc (sy_pump s) = PStopped.
Proof.
  destruct s as [[t rcv g d] p got]. cbn. intros Hi Hd Hp Hs.
  assert (st_reader t = Stopped) as Hr.
  { destruct (st_reader t) as [|q err|] eqn:E; [| |done]; exfalso; eapply Hs.
    - eapply (cl_read [] rEOF); [unfold readLoop_read; rewrite E; reflexivity|unfold len, sshReadChunk; cbn; lia].
    - apply cl_done. unfold readLoop_done. by rewrite E, Hd. }
  split; [done|]. destruct p as [[|ev|] dn er]; cbn in *; [| |done]; exfalso.
  - destruct (ReadByte_stopped t Hr) as [[[b|e|] t'] E].
    + eapply Hs, (cl_pump _ (Ok b)); [by eapply sr_byte|done].
    + eapply Hs, (cl_pump _ (Err e)); [by eapply (sr_other false)|done].
    + destruct (ssh_reads_inv (MkIn t rcv g d) Panics (MkIn t' rcv g d)) as [_ []]; [by eapply (sr_other false)|done|done].
  - subst dn. by eapply Hs, cl_stop.
Qed.

(** Once a session has stopped its pump and its terminal is closed, both goroutines return within five steps, whatever was
    underway: none is left behind. *)
Theorem hangup_ends_goroutines (idle : Z) (s s' : input_sys ssh_input) (n : nat) :
  rtc input_step (new_sys (new_ssh_input idle)) s ->
  st_done (si_term (sy_term s)) = true -> p_done (sy_pump s) = true -> nsteps closing_step n s s' ->
  (n <= 5)%nat /\ ((forall s'', ~ closing_step s' s'') -> st_reader (si_term (sy_term s')) = Stopped /\ p_pc (sy_pump s') = PStopped).
Proof.
  intros Hr Hd Hp Hn. destruct (ssh_reached _ _ Hr) as (HI & _).
  assert (n <= goroutines s /\ st_done (si_term (sy_term s')) = true /\ p_done (sy_pump s') = true /\ ssh_inv (sy_term s'))%nat as (H & H1 & H2 & H3).
  { clear Hr. induction Hn as [s|n x y z Hx Hn IH]; [split_and!; try done; lia|].
    destruct (closing_step_facts _ _ Hx) as (Hl & K1 & K2 & K3). destruct IH as (? & ? & ? & ?); [congruence..|by apply K3|]. split_and!; try done. lia. }
  split; [|by apply closing_enabled]. unfold goroutines, reader_weight in H. repeat case_match; lia.
Qed.

Lemma hangup_ends_goroutines_witness :
  exists s s', rtc input_step (new_sys (new_ssh_input 0)) s /\ nsteps closing_step 3 s s' /\ (3 <= 5)%nat
    /\ ((forall s'', ~ closing_step s' s'') -> st_reader (si_term (sy_term s')) = Stopped /\ p_pc (sy_pump s') = PStopped).
Proof.
  exists (MkSys (MkIn (Close (newSSHTerm 0)) [] [] []) (stop newInputPump) []). eexists.
  match goal with |- ?A /\ ?B /\ _ => assert A as Hr; [|assert B as Hn; [|split; [exact Hr|split; [exact Hn|]]]] end.
  - eapply rtc_l; [apply is_moves; apply sm_close|]. eapply rtc_l; [apply is_stop|]. apply rtc_refl.
  - eapply nsteps_l; [apply (cl_read [] rEOF); [reflexivity|vm_compute; discriminate]|].
    eapply nsteps_l; [apply (cl_pump _ (Err rEOF)); [apply (sr_other false); [reflexivity|discriminate]|reflexivity]|].
    eapply nsteps_l; [apply cl_stop; reflexivity|]. apply nsteps_O.
  - by apply (hangup_ends_goroutines 0 _ _ 3 Hr eq_refl eq_refl Hn).
Defined.

(** [Close] is what ends the reader: if the terminal is not closed, one that waits for room in the channel stays. *)
Example reader_left_behind :
  let t := MkTerm 0 (replicate 8 [104]) (Sending [104] None) None [] false [] 80 24 [] 0 in
  (forall p err, readLoop_read p err t = None) /\ readLoop_send t = None /\ readLoop_done t = None
  /\ exists got, rtc input_step (new_sys (new_ssh_input 0)) (MkSys (MkIn t (replicate 9 104) [] []) (stop newInputPump) got).
Proof.
  split_and!; try done. exists [].
  assert (forall k data rcv, len data + Z.of_nat k <= 8 -> rtc input_step
    (MkSys (MkIn (MkTerm 0 data Reading None [] false [] 80 24 [] 0) rcv [] []) newInputPump [])
    (MkSys (MkIn (MkTerm 0 (data ++ replicate k [104]) Reading None [] false [] 80 24 [] 0) (rcv ++ replicate k 104) [] []) newInputPump [])) as Hk.
  { induction k as [|k IH]; intros data rcv Hl; [cbn; by rewrite !app_nil_r|].
    eapply rtc_l; [apply is_moves; apply (sm_read [104] None); [reflexivity|vm_compute; discriminate]|].
    eapply rtc_l; [apply is_moves; apply (sm_send _ (MkTerm 0 (data ++ [[104]]) Reading None [] false [] 80 24 [] 0))|].
    { unfold readLoop_send. change (0 <? len [104]) with true. cbn [set_input st_reader st_data]. by rewrite (proj2 (Z.ltb_lt (len data) sshReadBacklog)) by (unfold sshReadBacklog; lia). }
    cbn [replicate]. change (data ++ [104] :: replicate k [104]) with (data ++ [[104]] ++ replicate k [104]).
    change (rcv ++ 104 :: replicate k 104) with (rcv ++ [104] ++ replicate k 104). rewrite !(app_assoc _ [_]).
    apply IH. rewrite len_app. unfold len at 2. cbn. lia. }
  etransitivity; [apply (Hk 8%nat [] []); unfold len; cbn; lia|].
  eapply rtc_l; [apply is_moves; apply (sm_read [104] None); [reflexivity|vm_compute; discriminate]|].
  eapply rtc_l; [apply is_stop|]. apply rtc_refl.
Qed.

(** ** A client's requests *)

Definition window_ok (t : sshTerm) : Prop := 20 <= st_width t <= 512 /\ 5 <= st_height t <= 512.

Lemma setSize_ok cols rows t : window_ok t -> window_ok (setSize cols rows t).
Proof. unfold setSize, clampSize, window_ok. intros Ht. destruct (_ || _); cbn; lia. Qed.

Definition shells (reqs : list (request * bool)) (oks : list bool) : Z :=
  len (filter (fun x => rq_Type (fst (fst x)) = str "shell" /\ snd x = true) (zip reqs oks)).

Lemma handleRequest_facts `{SSHWire} req started t :
  let '(ok, closes, started', t') := handleRequest req started t in
  closes = bool_decide (rq_Type req = str "shell" /\ ok = true) /\ started' = started || closes /\ (closes = true -> started = false)
  /\ (window_ok t -> window_ok t').
Proof.
  unfold handleRequest. case_bool_decide as E1; [|case_bool_decide as E2; [|case_bool_decide as E3]].
  - destruct (unmarshal_pty _) as [[[term cols] rows]|]; rewrite bool_decide_eq_false_2, orb_false_r by (intros [? _]; congruence); split_and!; try done.
    intros. by apply setSize_ok.
  - destruct (unmarshal_window _) as [[cols rows]|]; rewrite bool_decide_eq_false_2, orb_false_r by (intros [? _]; congruence); split_and!; try done. apply setSize_ok.
  - destruct started; cbn; split_and!; try done; [by rewrite bool_decide_eq_false_2 by naive_solver|by rewrite bool_decide_eq_true_2].
  - rewrite (bool_decide_eq_false_2 (_ /\ _)), orb_false_r by (intros [? _]; congruence). by split_and!.
Qed.

Lemma shells_cons req r reqs ok oks :
  shells ((req, r) :: reqs) (ok :: oks) = (if bool_decide (rq_Type req = str "shell" /\ ok = true) then 1 else 0) + shells reqs oks.
Proof. unfold shells. cbn [zip zip_with]. rewrite filter_cons. cbn [fst snd]. by case_decide; case_bool_decide; rewrite ?len_cons. Qed.

Lemma handleRequests_facts `{SSHWire} reqs started t oks n t' :
  handleRequests reqs started t = (oks, n, t') ->
  n = shells reqs oks /\ 0 <= n <= (if started then 0 else 1) /\ (window_ok t -> window_ok t').
Proof.
  revert started t oks n t'. induction reqs as [|[req replied] reqs IH]; intros started t oks n t' E; cbn [handleRequests] in E.
  { simplify_eq. split_and!; [done|lia|by destruct started|done]. }
  pose proof (handleRequest_facts req started t) as Hf. destruct (handleRequest req started t) as [[[ok closes] started'] t1].
  destruct Hf as (Hc & -> & Hs & Hw). destruct replied.
  - destruct (handleRequests reqs (started || closes) t1) as [[oks' m] t2] eqn:E'. injection E as <- <- <-. destruct (IH _ _ _ _ _ E') as (-> & Hn & Hw').
    rewrite shells_cons, <-Hc. destruct closes; [rewrite Hs in * by done|]; cbn [orb] in *; rewrite ?orb_false_r in Hn; split_and!; auto; lia.
  - injection E as <- <- <-. rewrite shells_cons, <-Hc. replace (shells reqs []) with 0 by by destruct reqs.
    destruct closes; [rewrite Hs by done|]; split_and!; auto; try lia. destruct started; lia.
Qed.

(** A client can ask for as many shells, terminals and sizes as it likes: one shell is started, so the channel that
    starts the session is closed once, exactly when a shell was granted; and the window keeps its bounds. *)
Theorem one_shell_per_channel `{SSHWire} (idle : Z) (reqs : list (request * bool)) (oks : list bool) (n : Z) (t' : sshTerm) :
  handleRequests reqs false (newSSHTerm idle) = (oks, n, t') -> n = shells reqs oks /\ 0 <= n <= 1 /\ window_ok t'.
Proof. intros (Hn & Hb & Hw)%handleRequests_facts. split_and!; try done; try apply Hb. apply Hw. unfold window_ok. cbn. lia. Qed.

(** Two shells and a size of one column. *)
Lemma one_shell_per_channel_witness :
  let W := {| unmarshal_pty := fun p => Some (p, 1, 1000); unmarshal_window := fun _ => None |} : SSHWire in
  let reqs := [(MkRequest (str "pty-req") (str "vt100"), true); (MkRequest (str "shell") [], true); (MkRequest (str "shell") [], true); (MkRequest (str "x11-req") [], true)] in
  exists t', handleRequests reqs false (newSSHTerm 0) = ([true; true; false; false], 1, t') /\ st_termType t' = str "vt100" /\ window_ok t'.
Proof.
  intros W reqs. eexists. match goal with |- ?A /\ _ => assert A as E by reflexivity end.
  split; [exact E|]. split; [reflexivity|]. by apply (one_shell_per_channel 0 reqs _ _ _ E).
Defined.
