(* ===== verification/Screens.v ===== *)
(** * The screens a caller sees on the way in and out: the rest of [internal/bbs/screens.go], and [customart.go]

    The logo, the built-in art, dates as the screens show them, and the files of the art folder that replace the
    built-in screens. *)

From Stdlib Require Import Ascii String ZArith Lia.
From stdpp Require Import base tactics list gmap strings.
From S2P Require Import Prelude GoStrings GoTime GoFiles Term StoreDB StoreUsers StoreMail StoreBoards Limits Nodes Mailer Server Ui Session.
Open Scope Z_scope.

(** ** screens.go *)

Definition logoRows : list bytes :=
  [str "██████╗  ██████╗  █████╗ ██████╗ ";
   str "██╔══██╗██╔═══██╗██╔══██╗██╔══██╗";
   str "██████╔╝██║   ██║███████║██████╔╝";
   str "██╔══██╗██║   ██║██╔══██║██╔══██╗";
   str "██████╔╝╚██████╔╝██║  ██║██║  ██║";
   str "╚═════╝  ╚═════╝ ╚═╝  ╚═╝╚═╝  ╚═╝"].
Definition logoShades : list Z := [15; 14; 14; 6; 6; 6].
Definition logoShadow : Z := 8.

(** One row of [logo]: [shade] is the row's, [cur] the colour set last, or -1. *)
Fixpoint logo_row (shade cur : Z) (rs : list Z) : bytes :=
  match rs with
  | [] => []
  | r :: rs =>
      let c := if r =? rune "█" then shade else if r =? 32 then cur else logoShadow in
      if negb (c =? cur) && (0 <=? c) then str "|" ++ pad_dec 2 c ++ encode_rune r ++ logo_row shade c rs
      else encode_rune r ++ logo_row shade cur rs
  end.

Definition logo (indent : Z) : bytes :=
  concat (zip_with (fun row shade => spaces indent ++ logo_row shade (-1) (runes row) ++ nl) logoRows logoShades) ++ colLabel.

(** The embedded screens of [art/]. *)
Definition art_goodbye : bytes :=
  [] ++ [10]
  ++ str "|08  ──────────────────────────────────────────────────" ++ [10]
  ++ str "|07   Thanks for calling |14@BBS@|07, |15@HANDLE@|07." ++ [10]
  ++ str "|07   You were online for |11@DURATION@|07. Come back soon." ++ [10]
  ++ str "|08  ──────────────────────────────────────────────────" ++ [10]
  ++ str "|08   NO CARRIER|RE" ++ [10]
  ++ [] ++ [10]
  ++ [].
Definition art_newuser : bytes :=
  [] ++ [10]
  ++ str "|07  Pick a |15handle|07: the name other callers see and send mail to." ++ [10]
  ++ str "|08  @MINHANDLE@-@MAXHANDLE@ characters: letters, digits, spaces, _ - .  Start with a letter." ++ [10]
  ++ [] ++ [10]
  ++ str "|07  Then a |15password|07 of at least @MINPASS@ characters." ++ [10]
  ++ str "|08  Leave the handle empty to go back." ++ [10]
  ++ [] ++ [10]
  ++ [].

(** [@KEY@] becomes the value, one key after the other; the code goes over a map, in any order. *)
Definition fill_tokens (enc : bytes -> bytes) (text : bytes) (vars : list (bytes * bytes)) : bytes :=
  foldl (fun text '(k, v) => replace_all text (str "@" ++ k ++ str "@") (enc v)) text vars.

(** Durations are nanoseconds.  [d.Round(time.Minute)], in minutes. *)
Definition round_minutes (d : Z) : Z := (d + 30000000000) / 60000000000.
Definition shortDuration (d : Z) : bytes :=
  let m := round_minutes d in
  if m <? 60 then itoa m ++ str "m" else itoa (m / 60) ++ str "h" ++ pad_dec 2 (m mod 60) ++ str "m".

Definition full_month_names : list bytes :=
  [str "January"; str "February"; str "March"; str "April"; str "May"; str "June"; str "July"; str "August"; str "September";
   str "October"; str "November"; str "December"].

Section screens.
Context `{UnicodeTables} `{Crypto} `{MailParser} `{FoldTables} `{BBS}.

Definition showArt (art : bytes) (vars : list (bytes * bytes)) : M unit := print (fill_tokens safe art vars).

(** A time of 0 is the zero time. *)
Definition longDate (t : Z) : bytes := if t =? 0 then str "never" else long_date t.
Definition shortDate (now t : Z) : bytes :=
  if year (local t) =? year (local now) then month_day t
  else itoa (year (local t)) ++ str "-" ++ pad_dec 2 (month (local t)).

Definition lastCall (now t : Z) : bytes := if t =? 0 then str "never" else shortDate now t.

Definition ago (now t : Z) : bytes :=
  let d := now - t in
  if d <? 60000000000 then str "just now"
  else if d <? 3600000000000 then itoa (d / 60000000000) ++ str "m ago"
  else if d <? 86400000000000 then itoa (d / 3600000000000) ++ str "h ago"
  else shortDate now t.

(** "Monday, January 2 2006  15:04 MST" *)
Definition full_date (t : Z) : bytes :=
  let c := local t in
  weekday c ++ str ", " ++ nth (Z.to_nat (month c - 1)) full_month_names [] ++ str " " ++ itoa (day c) ++ str " " ++ itoa (year c)
  ++ str "  " ++ hour_minute t ++ str " " ++ zone_name (secs t).

(** ** customart.go *)

Definition customScreens : list bytes := [str "welcome"; str "newuser"; str "logon"; str "goodbye"].
Definition maxArtBytes : Z := 262144.

(** Whether a name is [pre*suf]. *)
Definition glob (pre suf name : bytes) : bool := has_prefix name pre && has_suffix name suf && (len pre + len suf <=? len name).

(** The names in the folder that can stand in for [screen]. *)
Definition art_name (screen name : bytes) : bool :=
  bool_decide (name = screen ++ str ".ans") || glob (screen ++ str ".") (str ".ans") name
  || bool_decide (name = screen ++ str ".txt") || glob (screen ++ str ".") (str ".txt") name.

Definition artFiles (fs : FS) (screen : bytes) : list bytes :=
  if bool_decide (cfg_ArtDir = []) then []
  else (fun n => filepath_Join [cfg_ArtDir; n]) <$> filter (fun n => art_name screen n = true) (read_dir fs (filepath_Clean cfg_ArtDir)).

(** [showArtFile], and its errors. *)
Inductive art_result := Shown | ArtMissing | ArtTooLarge.

Definition showArtFile (path : bytes) (vars : list (bytes * bytes)) : M art_result :=
  file ← lift (atom (fun s => (sv_fs s !! path, s)));
  match file with
  | None => mret ArtMissing
  | Some data =>
      if maxArtBytes <? len data then mret ArtTooLarge
      else if EqualFold (filepath_Ext path) (str ".txt") then _ ← print (fill_tokens safe data vars); mret Shown
      else
        _ ← modify (fun s =>
          let text := fill_tokens (fun v => Encode CP437 (StripControl v)) data vars in
          with_rend (NewRenderer (mode_of s)) (write_bytes (ConvertANSIArt text (se_cs s) (colour_of s)) s));
        mret Shown
  end.

(** [showCustomArt]: a file picked at random, or [false]. *)
Definition showCustomArt (screen : bytes) (vars : list (bytes * bytes)) : M bool :=
  files ← lift (atom (fun s => (artFiles (sv_fs s) screen, s)));
  if bool_decide (files = []) then mret false
  else
    n ← lift (fresh rand_code);
    r ← showArtFile (nth (Z.to_nat (n mod len files)) files []) vars;
    mret (match r with Shown => true | _ => false end).

Definition screenTokens : M (list (bytes * bytes)) :=
  members ← lift (store_get UserCount);
  c ← caller; u ← me;
  on ← lift nodes_online;
  now ← lift now_;
  mret [(str "BBS", cfg_Name); (str "NODE", itoa (ca_node c)); (str "NODES", itoa cfg_MaxNodes); (str "ONLINE", itoa (len on));
        (str "MEMBERS", itoa members); (str "HANDLE", u_handle u); (str "LOCATION", u_location u); (str "CALLS", itoa (u_calls u));
        (str "TIME", full_date now); (str "DURATION", shortDuration (now - ca_start c));
        (str "MINHANDLE", itoa MinHandleLen); (str "MAXHANDLE", itoa MaxHandleLen); (str "MINPASS", itoa MinPasswordLen)].

(** [pickNumber] of mail.go: 1 to [maxN], or nothing. *)
Definition pickNumber (maxN : Z) (what : bytes) : M (option Z) :=
  loop (fun _ : unit =>
    ans ← prompt (nl ++ str " |07" ++ what ++ str " |08(1-" ++ itoa maxN ++ str ", Enter = back) " ++ colBorder ++ str "» |15") 4;
    if bool_decide (ans = []) then mret (inr None)
    else
      let '(n, ok) := atoi ans in
      if (ok : bool) && (1 <=? n) && (n <=? maxN) then mret (inr (Some n))
      else _ ← print (colAlert ++ str "No such number." ++ nl); mret (inl tt)) tt.

(** The number typed at a list of [n] rows. *)
Definition row_number (ans : bytes) (n : Z) : option Z :=
  let '(i, ok) := atoi ans in if (ok : bool) && (1 <=? i) && (i <=? n) then Some i else None.

(** The files of all screens, for [sysopArt]. *)
Definition art_screens (fs : FS) : list (bytes * list bytes) := (fun screen => (screen, artFiles fs screen)) <$> customScreens.

Definition sysopArt : M unit :=
  loop (fun _ : unit =>
    _ ← show_header (str "Custom Art");
    if bool_decide (cfg_ArtDir = []) then
      _ ← print (nl ++ str "  " ++ colDim ++ str "No art folder configured (start with -art DIR)." ++ nl ++ nl);
      _ ← pause; mret (inr tt)
    else
      screens ← lift (atom (fun s => (art_screens (sv_fs s), s)));
      let files := screens ≫= snd in
      let note found := if bool_decide (found = []) then colDim ++ str "built-in" else colOK ++ plural (len found) (str "variant") in
      _ ← show_box (str "Screens")
        ([colDim ++ str "Folder: " ++ colLabel ++ safe cfg_ArtDir; separator]
         ++ ((fun '(screen, found) => colHandle ++ Pad screen 10 ++ str " " ++ note found) <$> screens));
      _ ← show_table (str "Files") []
        (imap (fun i f => colValue ++ fmt_d 4 (Z.of_nat i + 1) ++ str "  " ++ colLabel ++ safe (filepath_Base f)) files)
        (str "Drop NAME.ans or NAME.txt files into the folder to replace a screen.");
      if bool_decide (files = []) then _ ← pause; mret (inr tt)
      else
        pick ← pickNumber (len files) (str "Preview");
        match pick with
        | None => mret (inr tt)
        | Some n =>
            _ ← print (str "|CL");
            vars ← screenTokens;
            r ← showArtFile (nth (Z.to_nat (n - 1)) files []) vars;
            _ ← match r with ArtTooLarge => print (nl ++ colAlert ++ str "art file larger than 256 KB" ++ nl) | _ => mret tt end;
            _ ← print nl;
            _ ← pause;
            mret (inl tt)
        end) tt.
End screens.
