(* ===== verification/Login.v ===== *)
(** * Signing in and signing up: [internal/bbs/login.go], the session's part of [approval.go] and [email.go], [settings.go]

    From the choice of a terminal to the main menu, and the caller's own settings.  The theorems are in [LoginSpec]. *)

From Stdlib Require Import Ascii String ZArith Lia.
From stdpp Require Import base tactics list gmap strings.
From S2P Require Import Prelude GoStrings GoTime GoFiles Term StoreDB StoreUsers StoreMail StoreBoards Limits Nodes Mailer Server Ui Session Editor Screens.
Open Scope Z_scope.

Definition maxLoginAttempts : Z := 3.
Definition maxPasswordTries : nat := 3.
Definition logoIndent : Z := 23.
Definition welcomeWidth : Z := 61.
Definition welcomeInner : Z := welcomeWidth - panelPad.

Section login.
Context `{UnicodeTables} `{Crypto} `{MailParser} `{FoldTables} `{BBS}.

Definition set_terminal (cs : Charset) (m : ColorMode) : M unit := modify (with_terminal cs m).

(** [ask] is set when the caller chooses again in the settings. *)
Definition chooseTerminal (ask : bool) : M unit :=
  c ← caller;
  match (if ask then None else ca_termType c ≫= detectCharset) with
  | Some (cs, m) => set_terminal cs m
  | None =>
      _ ← set_terminal ASCII NoColor;
      _ ← print (nl ++ safe cfg_Name ++ nl ++ nl ++ str "Select your terminal:" ++ nl
                 ++ str "  1) UTF-8 with ANSI color  (macOS Terminal, iTerm2, PuTTY)" ++ nl
                 ++ str "  2) CP437 with ANSI color  (SyncTERM, NetRunner, classic BBS clients)" ++ nl
                 ++ str "  3) Plain ASCII, no color" ++ nl ++ nl ++ str "Choice [1]: ");
      choice ← prompt [] 1;
      if bool_decide (choice = str "2") then set_terminal CP437 ANSI16
      else if bool_decide (choice = str "3") then set_terminal ASCII NoColor
      else set_terminal UTF8 ANSI256
  end.

(** [strings.Repeat]: it panics for a negative count. *)
Definition go_spaces (n : Z) : M bytes := if n <? 0 then throw EPanic else mret (spaces n).

Definition welcome_info (node online members now : Z) : list bytes :=
  let dot := colFrame ++ str "·" ++ colLabel in
  [center (colLabel ++ str "the wild boar " ++ dot ++ str " private mail " ++ dot ++ str " est. 2026") welcomeInner;
   separator;
   center (colInfo ++ str "Node " ++ colValue ++ itoa node ++ colInfo ++ str " of " ++ colValue ++ itoa cfg_MaxNodes ++ str "  " ++ colBorder
           ++ str "·  " ++ colInfo ++ str "online " ++ colValue ++ itoa online ++ str "  " ++ colBorder ++ str "·  " ++ colInfo ++ str "members "
           ++ colValue ++ itoa members) welcomeInner;
   center (colDim ++ full_date now) welcomeInner].

Definition welcome : M unit :=
  vars ← screenTokens;
  shown ← showCustomArt (str "welcome") vars;
  if shown : bool then mret tt
  else
    members ← lift (store_get UserCount);
    _ ← print (str "|CL" ++ nl ++ logo logoIndent ++ nl);
    c ← caller;
    on ← lift nodes_online;
    now ← lift now_;
    w ← width;
    pad ← go_spaces (Z.quot (w - welcomeWidth) 2);
    print_all ((fun ln => pad ++ ln ++ nl) <$> boxLines cfg_Name welcomeWidth (welcome_info (ca_node c) (len on) members now)).

Definition loginFailed : bytes := str "Invalid handle or password, or the account is locked.".

Definition waitText (d : Z) : bytes := plural (Z.max ((d + 999999999) / 1000000000) 1) (str "second").

Definition transport : M bytes :=
  k ← get se_keyAuth; c ← caller;
  mret (if k : bool then str "ssh key" else if ca_secure c then str "ssh" else str "telnet").

(** [checkPassword]: the account, if the password is right and the account may log in. *)
Definition checkPassword (handle password : bytes) : M (option UserRow) :=
  let account := account_key handle in
  c ← caller;
  '(wait, ok) ← lift (accounts_begin account);
  if negb ok then
    _ ← print (colAlert ++ str "Too many failed logins for that handle. Wait " ++ waitText wait ++ str " and try again." ++ nl); mret None
  else
    via ← transport;
    r ← lift (store_get (Authenticate handle password));
    let failed u_id u_handle kind :=
      _ ← lift (accounts_end account false);
      _ ← lift (limit_hit loginFailures (ca_ipKey c));
      _ ← lift (event kind u_id u_handle (ca_ip c) via);
      _ ← print (colAlert ++ loginFailed ++ nl);
      mret None in
    match r with
    | Ok u =>
        if negb (u_locked u) then _ ← lift (accounts_end account true); mret (Some u)
        else failed (u_id u) (u_handle u) EventLocked
    | Err ErrBadCredentials => failed 0 handle EventLoginFailed
    | Err e => _ ← lift (accounts_release account); throw (EStore e)
    end.

(** [askNewHandle] and [askNewPassword]: nothing when the caller gives up. *)
Definition askNewHandle : M bytes :=
  loop (fun _ : unit =>
    h ← prompt (str "|07Choose a handle|08: |15") MaxHandleLen;
    if bool_decide (h = []) then mret (inr [])
    else
      match ValidateHandle h with
      | Err e => _ ← print (colAlert ++ safe (default [] (error_text e)) ++ nl); mret (inl tt)
      | Ok _ =>
          r ← lift (store_get (UserByHandle h));
          match r with
          | Ok _ => _ ← print (colAlert ++ default [] (error_text ErrHandleTaken) ++ nl); mret (inl tt)
          | Err ErrNotFound => mret (inr h)
          | Err e => throw (EStore e)
          end
      end) tt.

Fixpoint askNewPassword_go (tries : nat) : M bytes :=
  match tries with
  | O => mret []
  | S tries =>
      p1 ← promptSecret (str "|07Password|08: |15") MaxPasswordLen;
      match ValidatePassword p1 with
      | Err e => _ ← print (colAlert ++ safe (default [] (error_text e)) ++ nl); askNewPassword_go tries
      | Ok _ =>
          p2 ← promptSecret (str "|07Password again|08: |15") MaxPasswordLen;
          if negb (bool_decide (p1 = p2)) then _ ← print (colAlert ++ str "Passwords don't match." ++ nl); askNewPassword_go tries
          else mret p1
      end
  end.
Definition askNewPassword : M bytes := askNewPassword_go maxPasswordTries.

(** The account, if one was created. *)
Definition register : M (option UserRow) :=
  c ← caller;
  b1 ← lift (limit_blocked signups (ca_ipKey c));
  if b1 : bool then _ ← print (colAlert ++ str "Too many new accounts from your address. Try again later." ++ nl); mret None
  else
  b2 ← lift (limit_blocked signupsAll signupsAllKey);
  if b2 : bool then _ ← print (colAlert ++ str "We've had a lot of new callers today. Please try again tomorrow." ++ nl); mret None
  else
  _ ← sess_setActivity (str "New user signup");
  _ ← show_header (str "New Caller");
  vars ← screenTokens;
  shown ← showCustomArt (str "newuser") vars;
  _ ← (if shown : bool then mret tt else showArt art_newuser vars);
  _ ← (if ca_secure c then mret tt
       else print (colAlert ++ str "  Telnet is not encrypted." ++ colLabel ++ str " Don't reuse a password from elsewhere," ++ nl
                   ++ str "  or call over SSH instead." ++ nl ++ nl));
  handle ← askNewHandle;
  if bool_decide (handle = []) then mret None
  else
  password ← askNewPassword;
  if bool_decide (password = []) then mret None
  else
  location ← prompt (str "|07Location |08(optional)|07: |15") MaxLocationLen;
  ok ← yesNo (str "Create account " ++ safe handle ++ str "?") true;
  if negb ok then mret None
  else
  salt ← lift (fresh rand_salt);
  r ← lift (store_op (fun now => CreateUser store_cfg now salt handle password location));
  match r with
  | Err e => _ ← reportError e; mret None
  | Ok u =>
      _ ← lift (limit_hit signups (ca_ipKey c));
      _ ← lift (limit_hit signupsAll signupsAllKey);
      _ ← (if u_validated u then mret tt else lift (notifySysops (str "New caller " ++ u_handle u ++ str " is waiting for approval (! then V)")));
      via ← transport;
      _ ← lift (event EventSignup (u_id u) (u_handle u) (ca_ip c) via);
      mret (Some u)
  end.

(** One turn of [login]'s loop, with the attempts counted so far. *)
Definition login_turn (attempt : Z) : M (Z + bool) :=
  if maxLoginAttempts <=? attempt then
    _ ← print (nl ++ colAlert ++ str "Too many attempts. Goodbye." ++ nl); mret (inr false)
  else
  c ← caller;
  b ← lift (limit_blocked loginFailures (ca_ipKey c));
  if b : bool then
    _ ← print (nl ++ colAlert ++ str "Too many failed logins from your address. Try again later." ++ nl); mret (inr false)
  else
  handle ← prompt (nl ++ str " |07Handle |08(or |15NEW|08 to register)|07: |15") MaxHandleLen;
  if bool_decide (handle = []) then mret (inl attempt)
  else if EqualFold handle (str "new") then
    r ← register;
    match r with
    | Some u => _ ← modify (with_user u); mret (inr true)
    | None => mret (inl attempt)
    end
  else
    password ← promptSecret (str " |07Password|08: |15") MaxPasswordLen;
    r ← checkPassword handle password;
    match r with
    | Some u => _ ← modify (with_user u); mret (inr true)
    | None => mret (inl (attempt + 1))
    end.

Definition login : M bool := loop login_turn 0.

(** [keyLogin], for a caller whose SSH key the server matched. *)
Definition keyLogin (userID : Z) : M bool :=
  c ← caller;
  r ← lift (store_get (UserByID userID));
  match r with
  | Err ErrNotFound => _ ← print (nl ++ colAlert ++ str "That key's account no longer exists." ++ nl); mret false
  | Err e => throw (EStore e)
  | Ok u =>
      if u_locked u then
        _ ← lift (event EventLocked (u_id u) (u_handle u) (ca_ip c) (str "ssh key"));
        _ ← print (nl ++ colAlert ++ str "This account is locked. Contact the sysop." ++ nl);
        mret false
      else
        _ ← print (nl ++ colOK ++ str "Signed in with your SSH key as " ++ colBright ++ safe (u_handle u) ++ colOK ++ str "." ++ nl);
        _ ← modify (with_keyAuth true);
        _ ← modify (with_user u);
        _ ← pause;
        mret true
  end.

(** ** What a logged-in caller has at hand everywhere *)

Definition refreshUser : M unit := u ← me; u ← lift_ok (store_get (UserByID (u_id u))); modify (with_user u).

(** Whether the caller was stopped. *)
Definition awaitingApproval (what : bytes) : M bool :=
  u ← me;
  if u_validated u then mret false
  else
    _ ← print (nl ++ colAlert ++ what ++ str " opens up once a sysop approves your account." ++ nl);
    _ ← print (colDim ++ str "Until then you can read the boards and news, and mail the sysop." ++ nl);
    _ ← pause; mret true.

Definition approvalNotice : M unit :=
  u ← me;
  if u_validated u then mret tt
  else print (nl ++ str "  " ++ colAlert ++ str "Your account is waiting for sysop approval." ++ colDim ++ str " You can read the boards" ++ nl
              ++ str "  and news and mail the sysop meanwhile." ++ nl).

Definition pendingNote : M bytes :=
  p ← lift (store_get PendingUsers);
  mret (if bool_decide (p = []) then [] else colAlert ++ str "(" ++ itoa (len p) ++ str " waiting)").

(** [handleOf] of mail.go. *)
Definition handleOf (id : Z) : M bytes :=
  r ← lift (store_get (UserByID id)); mret (match r with Ok u => u_handle u | Err _ => str "(gone)" end).

Definition sess_goodbye : M unit :=
  _ ← sess_setActivity (str "Logging off");
  vars ← screenTokens;
  shown ← showCustomArt (str "goodbye") vars;
  if shown : bool then mret tt
  else
    u ← me; c ← caller; now ← lift now_;
    showArt art_goodbye [(str "BBS", cfg_Name); (str "HANDLE", u_handle u); (str "DURATION", shortDuration (now - ca_start c))].
End login.
