(* ===== verification/Compose.v ===== *)
(** * Writing mail: [internal/bbs/compose.go], and the copies of [email.go]

    Letters are written with the editor and sent one copy per recipient.  The recipients are handles that the store
    knows, or, for a sysop, everyone.  The theorems are in [MenuSpec]. *)

From Stdlib Require Import Ascii String ZArith Lia.
From stdpp Require Import base tactics list gmap strings.
From S2P Require Import Prelude GoStrings GoTime GoFiles Term StoreDB StoreUsers StoreMail StoreBoards Limits Nodes Mailer Server Ui Session Editor Screens Login.
Open Scope Z_scope.

(** ** compose.go *)

Definition maxQuoteLines : nat := 20.
Definition maxRecipients : Z := 10.
Definition everyoneKeyword : bytes := str "all".
Definition recipientPrompt : bytes := str " |03To      |08(handles, comma separated · |15?|08 = list · Enter = cancel)|08: |15".
Definition maxRecipientLine : Z := 200.
Definition userColumns : nat := 4.
Definition pickerListMax : Z := 200.

Record draft := MkDraft { df_to : list UserRow; df_subject : bytes; df_reply : Z; df_quote : list bytes }.

Definition handles (us : list UserRow) : bytes := join (u_handle <$> us) (str ", ").
Definition allSysops (us : list UserRow) : bool := forallb u_sysop us.

Definition failureReason (e : store_error) : bytes := default (str "could not be delivered.") (error_text e).

Section compose.
Context `{UnicodeTables} `{Crypto} `{MailParser} `{FoldTables} `{BBS}.

Definition quoteLines (now : Z) (author : bytes) (when : Z) (body : bytes) (width : Z) : list bytes :=
  let ls := Wrap body width in
  [str "On " ++ shortDate now when ++ str ", " ++ author ++ str " wrote:"]
  ++ ((fun ln => str "> " ++ ln) <$> take maxQuoteLines ls)
  ++ (if (maxQuoteLines <? length ls)%nat then [str "> [...]"] else [])
  ++ [[]].

(** The rows of [compactUserList] of menu.go: four handles a row. *)
Fixpoint user_rows (colW : Z) (line : bytes) (n : nat) (us : list UserRow) : list bytes :=
  match us with
  | [] => []
  | u :: us =>
      let line := line ++ colHandle ++ safe (Pad (u_handle u) colW) in
      if bool_decide (us = []) then [line]
      else if (S n =? userColumns)%nat then line :: user_rows colW [] 0 us
      else user_rows colW line (S n) us
  end.

Definition compactUserList : M unit :=
  us ← lift (store_get (ListUsers pickerListMax));
  w ← width;
  show_box (str "Members") (user_rows (Z.quot (inner w) 4) [] 0 us).

(** The loop of [resolveRecipients] over the names: the accounts in order, and the names nobody has. *)
Fixpoint resolve_go (names : list bytes) (found : list UserRow) (unknown : list bytes) : M (list UserRow * list bytes) :=
  match names with
  | [] => mret (found, unknown)
  | h :: names =>
      let h := trim_space h in
      if bool_decide (h = []) then resolve_go names found unknown
      else
        r ← lift (store_get (UserByHandle h));
        match r with
        | Err _ => resolve_go names found (unknown ++ [h])
        | Ok u => resolve_go names (if existsb (fun v => u_id v =? u_id u) found then found else found ++ [u]) unknown
        end
  end.

(** The recipients, or what is wrong in words for the caller. *)
Definition resolveRecipients (line : bytes) : M (bytes + list UserRow) :=
  u ← me;
  if EqualFold (trim_space line) everyoneKeyword then
    if negb (u_sysop u) then mret (inl (str "Only sysops can mail everyone."))
    else all ← lift (store_get Users); mret (inr (filter (fun v => u_id v <> u_id u) all))
  else
    '(users, unknown) ← resolve_go (split_byte line 44) [] [];
    mret (if negb (bool_decide (unknown = [])) then inl (str "Nobody here goes by " ++ join unknown (str ", ") ++ str ".")
          else if negb (u_validated u) && negb (allSysops users) then inl (str "Until a sysop approves your account, you can only mail the sysop.")
          else if bool_decide (users = []) then inl (str "Who should get it?")
          else if (maxRecipients <? len users) && negb (u_sysop u) then inl (str "At most 10 recipients per message.")
          else inr users).

Definition pickRecipients : M (list UserRow) :=
  loop (fun _ : unit =>
    line ← prompt recipientPrompt maxRecipientLine;
    if bool_decide (line = []) then mret (inr [])
    else if bool_decide (line = str "?") then _ ← compactUserList; mret (inl tt)
    else
      r ← resolveRecipients line;
      match r with
      | inr users => mret (inr users)
      | inl problem => _ ← print (colAlert ++ safe problem ++ nl); mret (inl tt)
      end) tt.

Definition askSubject (def : bytes) : M bytes :=
  let label := if bool_decide (def = []) then str " |03Subject |08: |15" else str " |03Subject |08[|07" ++ safe def ++ str "|08]: |15" in
  subj ← prompt label MaxSubjectLen;
  mret (if bool_decide (subj = []) then def else subj).

(** The loop of [deliver]: one copy each, until the limit; the handles that got one. *)
Fixpoint deliver_go (to : list UserRow) (subject body : bytes) (replyTo : Z) (sent : list bytes) : M (list bytes) :=
  match to with
  | [] => mret sent
  | u :: to =>
      me_ ← me;
      over ← (if u_sysop me_ then mret false else
              b ← lift (limit_blocked mail (userKey (u_id me_)));
              if b : bool then mret true else _ ← lift (limit_hit mail (userKey (u_id me_))); mret false);
      if over : bool then
        _ ← print (nl ++ colAlert ++ str "You've sent a lot of mail lately. The rest was not sent; try again later." ++ nl); mret sent
      else
        r ← lift (store_op (fun now => SendMessage now (u_id me_) (u_id u) subject body replyTo));
        match r with
        | Err e => _ ← print (nl ++ colAlert ++ safe (u_handle u) ++ str ": " ++ safe (failureReason e)); deliver_go to subject body replyTo sent
        | Ok msg =>
            reached ← lift (nodes_notify (u_id u) (mail_notice (u_handle me_) (m_subject msg)));
            _ ← lift (emailNewMail u (u_handle me_) msg (0 <? reached));
            deliver_go to subject body replyTo (sent ++ [u_handle u])
        end
  end.

Definition deliver_mail (to : list UserRow) (subject body : bytes) (replyTo : Z) : M unit :=
  sent ← deliver_go to subject body replyTo [];
  match sent with
  | [] => mret tt
  | [h] => print (nl ++ colOK ++ str "Message sent to " ++ colBright ++ safe h ++ colOK ++ str "." ++ nl)
  | _ => print (nl ++ colOK ++ str "Message sent to " ++ itoa (len sent) ++ str " callers." ++ nl)
  end.

Definition compose (d : draft) : M unit :=
  _ ← sess_setActivity (str "Writing mail");
  _ ← show_header (str "New Message");
  _ ← print nl;
  to ← (if bool_decide (df_to d = []) then pickRecipients
        else _ ← print (str " " ++ colInfo ++ str "To      " ++ colDim ++ str ": " ++ colBright ++ safe (handles (df_to d)) ++ nl); mret (df_to d));
  if bool_decide (to = []) then mret tt
  else
    subject ← askSubject (df_subject d);
    if bool_decide (subject = []) then _ ← print (colDim ++ str "Cancelled." ++ nl); pause
    else
      body ← editor (df_quote d);
      match body with
      | None => _ ← print (nl ++ colDim ++ str "Message discarded." ++ nl); pause
      | Some body => _ ← deliver_mail to subject body (df_reply d); pause
      end.

Definition reply (m : MessageRow) : M unit :=
  r ← lift (store_get (UserByID (m_from m)));
  match r with
  | Err _ => _ ← print (colAlert ++ str "That caller no longer exists." ++ nl); pause
  | Ok from =>
      quote ← yesNo (str "Quote the original message?") true;
      w ← width; now ← lift now_;
      let lines := if quote : bool then quoteLines now (u_handle from) (m_sent m) (m_body m) (editorWidth w - 2) else [] in
      compose (MkDraft [from] (prefixed (str "Re: ") (m_subject m) MaxSubjectLen) (m_id m) lines)
  end.

Definition forward (m : MessageRow) : M unit :=
  from ← handleOf (m_from m); to ← handleOf (m_to m);
  w ← width;
  let lines :=
    [str "----- Forwarded message -----"; str "From: " ++ from; str "To:   " ++ to; str "Date: " ++ longDate (m_sent m); str "Subj: " ++ m_subject m; []]
    ++ Wrap (m_body m) (editorWidth w) ++ [str "-----------------------------"; []] in
  compose (MkDraft [] (prefixed (str "Fwd: ") (m_subject m) MaxSubjectLen) 0 lines).

(** [emailMeCopy] of email.go. *)
Definition emailMeCopy (m : MessageRow) : M unit :=
  _ ← refreshUser;
  u ← me;
  if bool_decide (u_email u = []) then _ ← print (colAlert ++ str "Add and verify an email address in Settings first." ++ nl); pause
  else
    let key := userKey (u_id u) in
    b ← lift (limit_blocked emailExport key);
    if b : bool then _ ← print (colAlert ++ str "That's plenty of email for now. Try again later." ++ nl); pause
    else
      _ ← lift (limit_hit emailExport key);
      from ← handleOf (m_from m); to ← handleOf (m_to m);
      ok ← lift (sendEmail (MkMail (u_email u) (str "[" ++ cfg_Name ++ str "] " ++ m_subject m)
        (str "From: " ++ from ++ nl ++ str "To: " ++ to ++ nl ++ str "Date: " ++ longDate (m_sent m) ++ nl ++ nl ++ m_body m ++ replyFooter)));
      if negb ok then _ ← print (colAlert ++ str "The mail system is busy. Try again in a few minutes." ++ nl); pause
      else _ ← print (colOK ++ str "On its way to " ++ safe (u_email u) ++ str "." ++ nl); pause.
End compose.
