(* ===== verification/MailMenu.v ===== *)
(** * Reading mail: [internal/bbs/mail.go]

    Letters are listed and read one after the other.  Reading the thread of a letter opens the reader again, so the
    reader is recursive: its fuel is the input left, as every letter shown waits for a key. *)

From Stdlib Require Import Ascii String ZArith Lia.
From stdpp Require Import base tactics list gmap strings.
From S2P Require Import Prelude GoStrings GoTime GoFiles Term StoreDB StoreUsers StoreMail StoreBoards Limits Nodes Mailer Server Ui Session Editor Screens Login Compose.
Open Scope Z_scope.

(** How a list is labelled. *)
Inductive mailView := viewInbox | viewOutbox | viewMixed.

#[global] Instance mailView_eq_dec : EqDecision mailView.
Proof. solve_decision. Defined.

Definition countUnread (msgs : list MessageRow) : Z := count_where (fun m => negb (IsRead m)) msgs.

(** Whether [m] was sent by the caller [id] to someone else. *)
Definition sent_by (id : Z) (m : MessageRow) : bool := (m_from m =? id) && negb (m_to m =? id).

(** [slices.IndexFunc], or 0. *)
Definition index_of_message (id : Z) (msgs : list MessageRow) : Z :=
  match list_find (fun m => m_id m = id) msgs with Some (i, _) => Z.of_nat i | None => 0 end.

Section mail.
Context `{UnicodeTables} `{Crypto} `{MailParser} `{FoldTables} `{BBS}.

Definition mailListing (view : mailView) (msgs : list MessageRow) : M (bytes * list bytes) :=
  let who := match view with viewInbox => str "From" | viewOutbox => str "To" | viewMixed => str "With" end in
  w ← width;
  let subjW := Z.max (inner w - 32) 10 in
  let heading := colDim ++ lpad 4 (str "#") ++ str "    " ++ Pad who 16 ++ str " " ++ Pad (str "Subject") subjW ++ str " Date" in
  rows ← map_m (fun '(i, m) =>
    u ← me;
    let sent := sent_by (u_id u) m in
    let other := if sent then m_to m else m_from m in
    let dir := if decide (view = viewMixed) then (if sent then str "» " else str "« ") else [] in
    let '(mark, subjColor) :=
      if negb sent && negb (IsRead m) then (str " " ++ colAlert ++ str "*" ++ colLabel ++ str "  ", colBright)
      else if sent && bool_decide (view = viewOutbox) && IsRead m then (str " " ++ colOK ++ str "√" ++ colLabel ++ str "  ", colLabel)
      else (str "    ", colLabel) in
    h ← handleOf other;
    now ← lift now_;
    mret (colValue ++ fmt_d 4 i ++ mark ++ colHandle ++ safe (Pad (dir ++ h) 16) ++ str " " ++ subjColor ++ safe (Pad (m_subject m) subjW)
          ++ str " " ++ colInfo ++ shortDate now (m_sent m))) (numbered msgs);
  mret (heading, rows).

Definition mailLetter (title : bytes) (m : MessageRow) : M letter :=
  from ← handleOf (m_from m); to ← handleOf (m_to m);
  u ← me;
  mret (MkLetter title
    ([MkField (str "From") from colBright; MkField (str "To") to colBright; MkField (str "Date") (longDate (m_sent m)) colLabel;
      MkField (str "Subj") (m_subject m) colKey]
     ++ (if sent_by (u_id u) m then [MkField (str "Read") (if IsRead m then longDate (m_read m) else str "not yet") colOK] else []))
    (m_body m)).

(** Whether the letter is gone. *)
Definition deleteMail (m : MessageRow) : M bool :=
  ok ← yesNo (str "Delete this message?") false;
  if negb ok then mret false
  else
    u ← me;
    r ← lift (store_op (fun _ => DeleteMessage (m_id m) (u_id u)));
    match r with Err e => _ ← reportError e; mret false | Ok _ => mret true end.

(** The keys of the bar under a letter. *)
Definition mail_words (received email : bool) : list bytes :=
  (if received then [str "Reply"] else []) ++ [str "Forward"; str "Thread"; str "Next"; str "Prev"; str "Delete"]
  ++ (if email then [str "Email me"] else []) ++ [str "Quit"].

(** One turn of [readMail]'s loop at [idx]; [thread] is [readThread]. *)
Definition mail_turn (thread : MessageRow -> M unit) (title : bytes) (x : list MessageRow * Z) : M ((list MessageRow * Z) + unit) :=
  let '(msgs, idx) := x in
  match (if idx <? 0 then None else msgs !! Z.to_nat idx) with
  | None => mret (inr tt)
  | Some m =>
      u ← me;
      let received := m_to m =? u_id u in
      _ ← (if received && negb (IsRead m) then _ ← lift (store_op (fun now => MarkRead now (m_id m) (u_id u))); mret tt else mret tt);
      l ← mailLetter (title ++ str " · " ++ itoa (idx + 1) ++ str " of " ++ itoa (len msgs)) m;
      _ ← showLetter l;
      _ ← flushNotices;
      email ← lift emailEnabled;
      let words := mail_words received email in
      _ ← show_actions words;
      k ← choose (keysOf words ++ [13]);
      let stay := mret (inl (msgs, idx)) in
      if (k =? ch "N") || (k =? keyEnter) then mret (inl (msgs, idx + 1))
      else if k =? ch "P" then mret (inl (msgs, Z.max (idx - 1) 0))
      else if k =? ch "R" then _ ← reply m; stay
      else if k =? ch "F" then _ ← forward m; stay
      else if k =? ch "T" then _ ← thread m; stay
      else if k =? ch "E" then _ ← emailMeCopy m; stay
      else if k =? ch "D" then
        deleted ← deleteMail m;
        if deleted : bool then
          let msgs := delete (Z.to_nat idx) msgs in mret (inl (msgs, Z.min idx (len msgs - 1)))
        else stay
      else if k =? ch "Q" then mret (inr tt)
      else stay
  end.

(** [readMail] and [readThread]. *)
Fixpoint readMail_go (fuel : nat) (title : bytes) (msgs : list MessageRow) (idx : Z) : M unit :=
  match fuel with
  | O => throw EFuel
  | S fuel =>
      loop (mail_turn (fun m =>
        u ← me;
        r ← lift (store_get (Thread (m_id m) (u_id u)));
        match r with
        | Err e => reportError e
        | Ok thread =>
            if len thread <? 2 then _ ← print (colDim ++ str "This message is the whole conversation." ++ nl); pause
            else readMail_go fuel (str "Thread") thread (index_of_message (m_id m) thread)
        end) title) (msgs, idx)
  end.

Definition readMail (title : bytes) (msgs : list MessageRow) (idx : Z) : M unit :=
  fun s => readMail_go (S (length (se_in (sess s)))) title msgs idx s.

Definition readNewMail : M unit :=
  u ← me;
  inbox ← lift (store_get (Inbox (u_id u)));
  let unread := select_where (fun m => negb (IsRead m)) inbox in
  if bool_decide (unread = []) then _ ← print (nl ++ colDim ++ str "No new mail." ++ nl); pause
  else readMail (str "New mail") unread 0.

(** [load] is asked again after each letter, so deletions show up. *)
Definition browseMail (title : bytes) (view : mailView) (load : DB -> list MessageRow) : M unit :=
  loop (fun _ : unit =>
    _ ← sess_setActivity (str "Reading mail");
    msgs ← lift (store_get load);
    _ ← show_header title;
    if bool_decide (msgs = []) then _ ← show_table (str "Messages") [] [] (str "Nothing here yet."); _ ← pause; mret (inr tt)
    else
      '(heading, rows) ← mailListing view msgs;
      _ ← show_table (plural (len msgs) (str "message")) heading rows [];
      _ ← (if decide (view = viewOutbox) then print (str " " ++ colOK ++ str "√" ++ colDim ++ str " read by the recipient" ++ nl) else mret tt);
      pick ← pickNumber (len msgs) (str "Read message");
      match pick with
      | None => mret (inr tt)
      | Some n => _ ← readMail title msgs (n - 1); mret (inl tt)
      end) tt.

Definition searchMail : M unit :=
  q ← prompt (nl ++ str "|07Search for |08(words, subject or handle)|07: |15") MaxSubjectLen;
  if bool_decide (q = []) then mret tt
  else
    u ← me;
    found ← lift (store_get (SearchMail (u_id u) q));
    if bool_decide (found = []) then _ ← print (colDim ++ str "No messages match " ++ fmt_q (safe q) ++ str "." ++ nl); pause
    else browseMail (str "Search: " ++ q) viewMixed (SearchMail (u_id u) q).

Definition mail_items (unread all : Z) : list menuItem :=
  [MkItem (ch "N") (str "Read new mail") (if 0 <? unread then colAlert ++ str "(" ++ itoa unread ++ str " new)" else colDim ++ str "(none)");
   MkItem (ch "I") (str "Inbox") (colDim ++ str "(" ++ plural all (str "message") ++ str ")");
   MkItem (ch "S") (str "Send a message") [];
   MkItem (ch "O") (str "Outbox") (colDim ++ str "(sent mail, read receipts)");
   MkItem (ch "F") (str "Find") (colDim ++ str "(search your mail)");
   MkItem (ch "Q") (str "Back to main menu") []].

Definition mailMenu : M unit :=
  loop (fun _ : unit =>
    _ ← sess_setActivity (str "Mailbox");
    u ← me;
    inbox ← lift (store_get (Inbox (u_id u)));
    _ ← show_header (str "Mailbox");
    _ ← print nl;
    _ ← show_menu (str "Mail") (mail_items (countUnread inbox) (len inbox));
    k ← menuPrompt (str "Mail") (str "NISOFQ");
    if k =? ch "Q" then mret (inr tt)
    else
      _ ← (if k =? ch "N" then readNewMail
           else if k =? ch "I" then browseMail (str "Inbox") viewInbox (Inbox (u_id u))
           else if k =? ch "O" then browseMail (str "Outbox") viewOutbox (Outbox (u_id u))
           else if k =? ch "S" then compose (MkDraft [] [] 0 [])
           else if k =? ch "F" then searchMail
           else mret tt);
      mret (inl tt)) tt.
End mail.
