(* ===== verification/Community.v ===== *)
(** * Who is here and what is new: [internal/bbs/community.go], and the lists of callers of [menu.go]

    Paging, the news, the oneliner wall, who's online, the user list and the last callers. *)

From Stdlib Require Import Ascii String ZArith Lia.
From stdpp Require Import base tactics list gmap strings.
From S2P Require Import Prelude GoStrings GoTime GoFiles Term StoreDB StoreUsers StoreMail StoreBoards Limits Nodes Mailer Server Ui Session Editor Screens Login.
Open Scope Z_scope.

Definition maxPageLen : Z := 70.
Definition wallAtLogin : Z := 8.
Definition wallFull : Z := 15.
Definition onelinerAuthorPad : Z := 14.
Definition lastCallerCount : Z := 15.
Definition userListMax : Z := 1000.

Section community.
Context `{UnicodeTables} `{Crypto} `{MailParser} `{FoldTables} `{BBS}.

(** ** menu.go: lists of callers *)

Definition who_row (now : Z) (n : NodeInfo) : bytes :=
  colBright ++ fmt_d 4 (ni_id n) ++ (if ni_secure n then colOK ++ str "·" else str " ")
  ++ colHandle ++ safe (Pad (if bool_decide (ni_handle n = []) then str "(logging in)" else ni_handle n) 18) ++ str " "
  ++ colLabel ++ safe (Pad (ni_location n) 16) ++ str " " ++ colInfo ++ safe (Pad (ni_activity n) 20) ++ str " "
  ++ colDim ++ shortDuration (now - ni_since n).

Definition showWho : M unit :=
  on ← lift nodes_online;
  now ← lift now_;
  _ ← show_table (plural (len on) (str "caller") ++ str " online")
    (str "Node  " ++ Pad (str "Handle") 18 ++ str " " ++ Pad (str "Location") 16 ++ str " " ++ Pad (str "Doing") 20 ++ str " On")
    (who_row now <$> on) (str "Nobody's here.");
  print (str " " ++ colOK ++ str "·" ++ colDim ++ str " connected over SSH" ++ nl).

Definition whoOnline : M unit :=
  _ ← sess_setActivity (str "Who's online");
  _ ← show_header (str "Who's Online");
  _ ← showWho;
  pause.

Definition user_row (now : Z) (u : UserRow) : bytes :=
  (if u_sysop u then colSysop ++ str "*" else str " ") ++ colHandle ++ safe (Pad (u_handle u) 20) ++ str " "
  ++ colLabel ++ safe (Pad (u_location u) 22) ++ str " " ++ colInfo ++ Pad (lastCall now (u_last u)) 12 ++ str " "
  ++ colValue ++ fmt_d 5 (u_calls u).

Definition userList : M unit :=
  _ ← sess_setActivity (str "User list");
  _ ← show_header (str "User List");
  us ← lift (store_get (ListUsers userListMax));
  now ← lift now_;
  _ ← show_table (plural (len us) (str "member"))
    (str " " ++ Pad (str "Handle") 20 ++ str " " ++ Pad (str "Location") 22 ++ str " " ++ Pad (str "Last call") 12 ++ str " Calls")
    (user_row now <$> us) (str "No members yet.");
  _ ← print (str " " ++ colSysop ++ str "*" ++ colDim ++ str " sysop" ++ nl);
  pause.

Definition call_row (now : Z) (e : EventRow) : bytes :=
  colHandle ++ safe (Pad (e_handle e) 20) ++ str " " ++ colInfo ++ Pad (ago now (e_at e)) 12 ++ str " " ++ colDim ++ safe (e_detail e).

Definition lastCallers : M unit :=
  _ ← sess_setActivity (str "Last callers");
  _ ← show_header (str "Last Callers");
  es ← lift (store_get (Events EventLogin lastCallerCount));
  now ← lift now_;
  _ ← show_table (str "Recent calls") (Pad (str "Handle") 20 ++ str " " ++ Pad (str "When") 12 ++ str " How")
    (call_row now <$> es) (str "Nobody has called yet.");
  pause.

(** ** community.go *)

(** A handle or a node number. *)
Definition findOnline (target : bytes) (on : list NodeInfo) : option NodeInfo :=
  let '(nodeID, isNum) := atoi target in
  find (fun n => negb (ni_user n =? 0) && ((isNum && (ni_id n =? nodeID)) || EqualFold (ni_handle n) target)) on.

Definition page_notice (from text : bytes) : bytes := str "Page from " ++ from ++ str ": " ++ StripControl text.

Definition pageSomeone : M unit :=
  _ ← sess_setActivity (str "Paging");
  _ ← show_header (str "Page Someone");
  _ ← showWho;
  target ← prompt (str "|07Page who |08(handle or node #, Enter = cancel)|07: |15") MaxHandleLen;
  if bool_decide (target = []) then mret tt
  else
    on ← lift nodes_online;
    u ← me;
    match findOnline target on with
    | None => _ ← print (colAlert ++ safe target ++ str " isn't online." ++ nl); pause
    | Some i =>
        if ni_user i =? u_id u then _ ← print (colDim ++ str "Talking to yourself? Try the oneliner wall." ++ nl); pause
        else
          blocked_ ← lift (store_get (IsBlocked (ni_user i) (u_id u)));
          if (blocked_ : bool) && negb (u_sysop u) then _ ← print (colAlert ++ safe (ni_handle i) ++ str " isn't accepting pages from you." ++ nl); pause
          else
            over ← (if u_sysop u then mret false else lift (limit_blocked pages (userKey (u_id u))));
            if over : bool then _ ← print (colAlert ++ str "Easy on the pager. Try again in a minute." ++ nl); pause
            else
              msg ← prompt (str "|07Message|08: |15") maxPageLen;
              if bool_decide (msg = []) then mret tt
              else
                _ ← lift (limit_hit pages (userKey (u_id u)));
                _ ← lift (nodes_notify (ni_user i) (page_notice (u_handle u) msg));
                _ ← print (colOK ++ str "Paged " ++ safe (ni_handle i) ++ str ". They'll see it at their next prompt, or right away in chat." ++ nl);
                pause
    end.

Definition bulletin_row (now : Z) (i : Z) (b : BulletinRow) (author : bytes) : bytes :=
  colValue ++ fmt_d 4 i ++ str "  " ++ colInfo ++ Pad (shortDate now (bu_at b)) 7 ++ str " " ++ colBright ++ safe (Pad (bu_title b) 45) ++ str " "
  ++ colDim ++ safe author.

Definition bulletinTable (bs : list BulletinRow) (empty : bytes) : M unit :=
  rows ← map_m (fun '(i, b) => now ← lift now_; h ← handleOf (bu_author b); mret (bulletin_row now i b h)) (numbered bs);
  show_table (plural (len bs) (str "bulletin")) (lpad 4 (str "#") ++ str "  " ++ Pad (str "Date") 7 ++ str " " ++ Pad (str "Title") 45 ++ str " By")
    rows empty.

Definition news : M unit :=
  loop (fun _ : unit =>
    _ ← sess_setActivity (str "Reading news");
    bs ← lift (store_get Bulletins);
    _ ← show_header (str "News");
    _ ← bulletinTable bs (str "No news is good news.");
    if bool_decide (bs = []) then _ ← pause; mret (inr tt)
    else
      pick ← pickNumber (len bs) (str "Read bulletin");
      match pick ≫= (fun n => bs !! Z.to_nat (n - 1)) with
      | None => mret (inr tt)
      | Some b =>
          h ← handleOf (bu_author b);
          _ ← showLetter (MkLetter (str "News")
                [MkField (str "From") h colBright; MkField (str "Date") (longDate (bu_at b)) colLabel; MkField (str "Subj") (bu_title b) colKey]
                (bu_body b));
          _ ← pause;
          mret (inl tt)
      end) tt.

Definition oneliner_row (o : OnelinerRow * bytes) : bytes :=
  let author := if bool_decide (snd o = []) then str "(gone)" else snd o in
  colHandle ++ safe (Pad author onelinerAuthorPad) ++ str " " ++ colBorder ++ sV ++ str " " ++ colLabel ++ safe (o_text (fst o)).

Definition onelinerWall (atLogin : bool) : M unit :=
  _ ← sess_setActivity (str "Oneliner wall");
  ls ← lift (store_get (Oneliners (if atLogin then wallAtLogin else wallFull)));
  _ ← show_header (str "Oneliner Wall");
  _ ← show_table (str "What callers are saying") [] (oneliner_row <$> ls) (str "The wall is empty. Leave the first mark!");
  _ ← print nl;
  u ← me;
  if negb (u_validated u) then pause
  else
    add ← yesNo (str "Add a oneliner?") (negb atLogin);
    if negb add then mret tt
    else
      over ← (if u_sysop u then mret false else lift (limit_blocked oneliners_ (userKey (u_id u))));
      if over : bool then _ ← print (colAlert ++ str "You've written on the wall enough for now." ++ nl); pause
      else
        text ← prompt (str " " ++ colBorder ++ str "» " ++ colBright) MaxOnelinerLen;
        if bool_decide (text = []) then mret tt
        else
          r ← lift (store_op (fun now => AddOneliner now (u_id u) text));
          match r with
          | Err e => reportError e
          | Ok _ => lift (limit_hit oneliners_ (userKey (u_id u)))
          end.
End community.
