(* ===== verification/BoardsMenu.v ===== *)
(** * The public message boards: [internal/bbs/boards.go] *)

From Stdlib Require Import Ascii String ZArith Lia.
From stdpp Require Import base tactics list gmap strings.
From S2P Require Import Prelude GoStrings GoTime GoFiles Term StoreDB StoreUsers StoreMail StoreBoards Limits Nodes Mailer Server Ui Session Editor Screens Login Compose.
Open Scope Z_scope.

Definition unreadPosts (ps : list PostRow) (lastRead me_ : Z) : list PostRow :=
  select_where (fun p => (lastRead <? p_id p) && negb (p_author p =? me_)) ps.

Record draftPost := MkDraftPost { dp_subject : bytes; dp_reply : Z; dp_quote : list bytes }.

Section boards.
Context `{UnicodeTables} `{Crypto} `{MailParser} `{FoldTables} `{BBS}.

Definition board_row (i : Z) (b : BoardSummary) : bytes :=
  let count := itoa (s_posts b) ++ (if 0 <? s_new b then str " " ++ colAlert ++ str "(" ++ itoa (s_new b) ++ str " new)" else []) in
  let lock := if b_sysop_only (s_board b) then colSysop ++ str "*" else str " " in
  colValue ++ fmt_d 4 i ++ str " " ++ lock ++ colHandle ++ safe (Pad (b_name (s_board b)) 22) ++ str " " ++ fit (colLabel ++ count) 12 ++ str " "
  ++ colDim ++ safe (b_desc (s_board b)).

Definition postListing (ps : list PostRow) (lastRead : Z) : M (bytes * list bytes) :=
  w ← width;
  let subjW := Z.max (inner w - 32) 10 in
  let heading := colDim ++ lpad 4 (str "#") ++ str "    " ++ Pad (str "Author") 16 ++ str " " ++ Pad (str "Subject") subjW ++ str " Date" in
  rows ← map_m (fun '(i, p) =>
    u ← me;
    let '(mark, subjColor) :=
      if (lastRead <? p_id p) && negb (p_author p =? u_id u) then (str " " ++ colAlert ++ str "*" ++ colLabel ++ str "  ", colBright)
      else (str "    ", colLabel) in
    let subject := if p_reply p =? 0 then p_subject p else str "  " ++ p_subject p in
    h ← handleOf (p_author p);
    now ← lift now_;
    mret (colValue ++ fmt_d 4 i ++ mark ++ colHandle ++ safe (Pad h 16) ++ str " " ++ subjColor ++ safe (Pad subject subjW) ++ str " "
          ++ colInfo ++ shortDate now (p_at p))) (numbered ps);
  mret (heading, rows).

Definition writePost (b : BoardRow) (d : draftPost) : M unit :=
  stop ← awaitingApproval (str "Posting");
  if stop : bool then mret tt
  else
    u ← me;
    if b_sysop_only b && negb (u_sysop u) then _ ← print (colAlert ++ str "Only the sysop posts on " ++ safe (b_name b) ++ str "." ++ nl); pause
    else
      over ← (if u_sysop u then mret false else lift (limit_blocked posts_ (userKey (u_id u))));
      if over : bool then _ ← print (colAlert ++ str "You've posted a lot lately. Take a breather and try again later." ++ nl); pause
      else
        _ ← sess_setActivity (str "Posting on " ++ b_name b);
        _ ← show_header (str "Post to " ++ b_name b);
        _ ← print nl;
        subject ← askSubject (dp_subject d);
        if bool_decide (subject = []) then mret tt
        else
          body ← editor (dp_quote d);
          match body with
          | None => _ ← print (nl ++ colDim ++ str "Post discarded." ++ nl); pause
          | Some body =>
              r ← lift (store_op (fun now => AddPost now (b_id b) (u_id u) subject body (dp_reply d)));
              match r with
              | Err e => reportError e
              | Ok _ =>
                  _ ← lift (limit_hit posts_ (userKey (u_id u)));
                  _ ← print (nl ++ colOK ++ str "Posted to " ++ safe (b_name b) ++ str "." ++ nl);
                  pause
              end
          end.

Definition replyPost (b : BoardRow) (p : PostRow) : M unit :=
  quote ← yesNo (str "Quote the post?") true;
  ls ← (if quote : bool then h ← handleOf (p_author p); w ← width; now ← lift now_; mret (quoteLines now h (p_at p) (p_body p) (editorWidth w - 2))
        else mret []);
  writePost b (MkDraftPost (prefixed (str "Re: ") (p_subject p) MaxSubjectLen) (p_id p) ls).

(** A private reply to a public post. *)
Definition mailAuthor (p : PostRow) : M unit :=
  r ← lift (store_get (UserByID (p_author p)));
  match r with
  | Err ErrNotFound => _ ← print (colAlert ++ str "That caller no longer exists." ++ nl); pause
  | Err e => throw (EStore e)
  | Ok author => compose (MkDraft [author] (prefixed (str "Re: ") (p_subject p) MaxSubjectLen) 0 [])
  end.

(** Whether the post is gone. *)
Definition deletePost (p : PostRow) : M bool :=
  ok ← yesNo (str "Delete this post for everyone?") false;
  if negb ok then mret false
  else
    u ← me;
    r ← lift (store_op (fun _ => DeletePost (p_id p) (u_id u)));
    match r with Err e => _ ← reportError e; mret false | Ok _ => mret true end.

Definition post_words (may_delete : bool) : list bytes :=
  [str "Reply"; str "Mail author"; str "Next"; str "Prev"] ++ (if may_delete then [str "Delete"] else []) ++ [str "Quit"].

(** One turn of [readPostsWith]'s loop. *)
Definition post_turn (b : BoardRow) (x : list PostRow * Z) : M ((list PostRow * Z) + bool) :=
  let '(ps, idx) := x in
  match (if idx <? 0 then None else ps !! Z.to_nat idx) with
  | None => mret (inr false)
  | Some p =>
      u ← me;
      _ ← lift (store_op (fun _ => MarkBoardRead (u_id u) (b_id b) (p_id p)));
      h ← handleOf (p_author p);
      _ ← showLetter (MkLetter (b_name b ++ str " · " ++ itoa (idx + 1) ++ str " of " ++ itoa (len ps))
            [MkField (str "By") h colBright; MkField (str "Date") (longDate (p_at p)) colLabel; MkField (str "Subj") (p_subject p) colKey] (p_body p));
      _ ← flushNotices;
      let words := post_words ((p_author p =? u_id u) || u_sysop u) in
      _ ← show_actions words;
      k ← choose (keysOf words ++ [13]);
      let stay := mret (inl (ps, idx)) in
      if (k =? ch "N") || (k =? keyEnter) then mret (inl (ps, idx + 1))
      else if k =? ch "P" then mret (inl (ps, Z.max (idx - 1) 0))
      else if k =? ch "R" then _ ← replyPost b p; stay
      else if k =? ch "M" then _ ← mailAuthor p; stay
      else if k =? ch "D" then
        deleted ← deletePost p;
        if deleted : bool then let ps := delete (Z.to_nat idx) ps in mret (inl (ps, Z.min idx (len ps - 1))) else stay
      else if k =? ch "Q" then mret (inr true)
      else stay
  end.

(** Whether the caller quit before the end: what [onQuit] tells. *)
Definition readPostsWith (b : BoardRow) (ps : list PostRow) (idx : Z) : M bool := loop (post_turn b) (ps, idx).

Definition readPostsUntilQuit (b : BoardRow) (ps : list PostRow) : M bool := readPostsWith b ps 0.

Definition readPosts (b : BoardRow) (ps : list PostRow) (idx : Z) : M unit :=
  if bool_decide (ps = []) then _ ← print (colDim ++ str "Nothing unread here." ++ nl); pause
  else _ ← readPostsWith b ps idx; mret tt.

(** The loop of [newScan] over the boards. *)
Fixpoint newScan_go (bs : list BoardSummary) (found : bool) : M unit :=
  match bs with
  | [] => if found then mret tt else _ ← print (colDim ++ str "Nothing new on the boards." ++ nl); pause
  | b :: bs =>
      if s_new b =? 0 then newScan_go bs found
      else
        u ← me;
        ps ← lift (store_get (Posts (b_id (s_board b))));
        lastRead ← lift (store_get (LastRead (u_id u) (b_id (s_board b))));
        let unread := unreadPosts ps lastRead (u_id u) in
        if bool_decide (unread = []) then newScan_go bs found
        else
          stop ← readPostsUntilQuit (s_board b) unread;
          if stop : bool then mret tt else newScan_go bs true
  end.
Definition newScan (bs : list BoardSummary) : M unit := newScan_go bs false.

Definition boardView (b : BoardRow) : M unit :=
  loop (fun _ : unit =>
    _ ← sess_setActivity (str "Reading " ++ b_name b);
    u ← me;
    ps ← lift (store_get (Posts (b_id b)));
    lastRead ← lift (store_get (LastRead (u_id u) (b_id b)));
    _ ← show_header (b_name b);
    let title := b_name b ++ (if bool_decide (b_desc b = []) then [] else str " · " ++ b_desc b) in
    '(heading, rows) ← postListing ps lastRead;
    _ ← show_table title heading rows (str "No posts yet. Be the first: press P.");
    ans ← prompt (nl ++ str " |07Read # |08(|15P|08 = new post, |15N|08 = next unread, Enter = back) " ++ colBorder ++ str "» |15") 4;
    if bool_decide (ans = []) then mret (inr tt)
    else
      let cmd := to_upper ans in
      _ ← (if bool_decide (cmd = str "P") then writePost b (MkDraftPost [] 0 [])
           else if bool_decide (cmd = str "N") then readPosts b (unreadPosts ps lastRead (u_id u)) 0
           else match row_number ans (len ps) with
                | None => _ ← print (colAlert ++ str "No such post." ++ nl); pause
                | Some n => readPosts b ps (n - 1)
                end);
      mret (inl tt)) tt.

Definition total_new (bs : list BoardSummary) : Z := foldl (fun n b => n + s_new b) 0 bs.

Definition boardsMenu : M unit :=
  loop (fun _ : unit =>
    _ ← sess_setActivity (str "Message boards");
    u ← me;
    bs ← lift (store_get (Boards (u_id u)));
    _ ← show_header (str "Message Boards");
    _ ← show_table (plural (len bs) (str "board"))
          (lpad 4 (str "#") ++ str "  " ++ Pad (str "Board") 22 ++ str " " ++ Pad (str "Posts") 12 ++ str " About")
          ((fun '(i, b) => board_row i b) <$> numbered bs) (str "No boards yet.");
    _ ← print (str " " ++ colSysop ++ str "*" ++ colDim ++ str " only the sysop posts here" ++ nl);
    ans ← prompt (nl ++ str " |07Board # |08(|15N|08 = read all " ++ itoa (total_new bs) ++ str " new, Enter = back) " ++ colBorder ++ str "» |15") 4;
    if bool_decide (ans = []) then mret (inr tt)
    else
      _ ← (if EqualFold ans (str "n") then newScan bs
           else match row_number ans (len bs) ≫= (fun n => bs !! Z.to_nat (n - 1)) with
                | None => _ ← print (colAlert ++ str "No such board." ++ nl); pause
                | Some b => boardView (s_board b)
                end);
      mret (inl tt)) tt.
End boards.
