(* ===== verification/EchoMenu.v ===== *)
(** * FidoNet mail: [internal/bbs/echo.go] and [netmail.go]

    The echoes are read, netmail is read, written and queued for the mailer.  The outbound is part of the server's
    files ([FtnOutbound.Queue]); while the mailer is in a session with the node, the queueing is tried again. *)

From Stdlib Require Import Ascii String ZArith Lia.
From stdpp Require Import base tactics list gmap strings.
From S2P Require Import Prelude GoStrings GoTime GoFiles Term StoreDB StoreUsers StoreMail StoreBoards StoreEcho Limits Nodes Mailer Server Ui Session Editor Screens Login Compose.
From S2P Require FtnAddr FtnCharset FtnPacket FtnMessage FtnOutbound.
Open Scope Z_scope.

(** The process, the name [os.CreateTemp] picks, and the wording of an error of the outbound. *)
Class Mailing := {
  process_id : Z;
  temp_suffix : Z -> bytes;
  queue_words : FtnOutbound.queue_error -> bytes
}.

(** ** echo.go *)

(** Oldest first, while the listing is newest first. *)
Definition unreadEchoes (ms : list EchoRow) (lastRead : Z) : list EchoRow := reverse (select_where (fun m => lastRead <? em_id m) ms).

Section echo.
Context `{UnicodeTables} `{Crypto} `{MailParser} `{FoldTables} `{BBS} `{Mailing}.

(** "—" for an area that never had any. *)
Definition newest_text (now at_ : Z) : bytes := if at_ =? 0 then str "—" else shortDate now at_.

Definition count_text (total new : Z) : bytes := itoa total ++ (if 0 <? new then str " " ++ colAlert ++ str "(" ++ itoa new ++ str " new)" else []).

Definition area_row (now i : Z) (a : AreaSummary) : bytes :=
  colValue ++ fmt_d 4 i ++ str "  " ++ colHandle ++ safe (Pad (a_tag (as_area a)) 22) ++ str " "
  ++ fit (colLabel ++ count_text (as_count a) (as_new a)) 12 ++ str " " ++ colDim ++ safe (newest_text now (as_last a)).

Definition echoListing (ms : list EchoRow) (lastRead : Z) : M (bytes * list bytes) :=
  w ← width;
  let subjW := Z.max (inner w - 36) 10 in
  let heading := colDim ++ lpad 4 (str "#") ++ str "    " ++ Pad (str "From") 18 ++ str " " ++ Pad (str "Subject") subjW ++ str " Date" in
  now ← lift now_;
  mret (heading, (fun '(i, m) =>
    let '(mark, subjColor) := if lastRead <? em_id m then (str " " ++ colAlert ++ str "*" ++ colLabel ++ str "  ", colBright) else (str "    ", colLabel) in
    colValue ++ fmt_d 4 i ++ mark ++ colHandle ++ safe (Pad (em_from m) 18) ++ str " " ++ subjColor ++ safe (Pad (em_subject m) subjW) ++ str " "
    ++ colInfo ++ shortDate now (em_at m)) <$> numbered ms).

Definition echo_letter (a : AreaRow) (idx total : Z) (m : EchoRow) : letter :=
  MkLetter (a_tag a ++ str " · " ++ itoa (idx + 1) ++ str " of " ++ itoa total)
    [MkField (str "From") (em_from m ++ (if bool_decide (em_addr m = []) then [] else str " (" ++ em_addr m ++ str ")")) colBright;
     MkField (str "To") (em_to m) colLabel; MkField (str "Date") (longDate (em_at m)) colLabel; MkField (str "Subj") (em_subject m) colKey]
    (em_body m).

Definition reader_words : list bytes := [str "Next"; str "Prev"; str "Quit"].

(** One turn of [readEchoesWith]'s loop; it ends with whether the caller quit. *)
Definition echo_turn (a : AreaRow) (ms : list EchoRow) (idx : Z) : M (Z + bool) :=
  match (if idx <? 0 then None else ms !! Z.to_nat idx) with
  | None => mret (inr false)
  | Some m =>
      u ← me;
      _ ← lift (store_op (fun _ => MarkEchoRead (u_id u) (a_id a) (em_id m)));
      _ ← showLetter (echo_letter a idx (len ms) m);
      _ ← flushNotices;
      _ ← show_actions reader_words;
      k ← choose (keysOf reader_words ++ [13]);
      if (k =? ch "N") || (k =? keyEnter) then mret (inl (idx + 1))
      else if k =? ch "P" then mret (inl (Z.max (idx - 1) 0))
      else if k =? ch "Q" then mret (inr true)
      else mret (inl idx)
  end.

Definition readEchoesWith (a : AreaRow) (ms : list EchoRow) (idx : Z) : M bool := loop (echo_turn a ms) idx.

Definition readEchoes (a : AreaRow) (ms : list EchoRow) (idx : Z) : M unit :=
  if bool_decide (ms = []) then _ ← print (colDim ++ str "Nothing unread here." ++ nl); pause
  else _ ← readEchoesWith a ms idx; mret tt.

Fixpoint echoNewScan_go (areas : list AreaSummary) (found : bool) : M unit :=
  match areas with
  | [] => if found then mret tt else _ ← print (colDim ++ str "Nothing new in the echoes." ++ nl); pause
  | a :: areas =>
      if as_new a =? 0 then echoNewScan_go areas found
      else
        u ← me;
        ms ← lift (store_get (EchoMessages (a_id (as_area a))));
        lastRead ← lift (store_get (EchoLastRead (u_id u) (a_id (as_area a))));
        let unread := unreadEchoes ms lastRead in
        if bool_decide (unread = []) then echoNewScan_go areas found
        else
          quit ← readEchoesWith (as_area a) unread 0;
          if quit : bool then mret tt else echoNewScan_go areas true
  end.
Definition echoNewScan (areas : list AreaSummary) : M unit := echoNewScan_go areas false.

Definition echoAreaView (a : AreaRow) : M unit :=
  loop (fun _ : unit =>
    _ ← sess_setActivity (str "Reading " ++ a_tag a);
    u ← me;
    ms ← lift (store_get (EchoMessages (a_id a)));
    lastRead ← lift (store_get (EchoLastRead (u_id u) (a_id a)));
    _ ← show_header (a_tag a);
    '(heading, rows) ← echoListing ms lastRead;
    _ ← show_table (a_tag a) heading rows (str "No messages in this area yet.");
    ans ← prompt (nl ++ str " |07Read # |08(|15N|08 = next unread, Enter = back) " ++ colBorder ++ str "» |15") 4;
    if bool_decide (ans = []) then mret (inr tt)
    else
      _ ← (if bool_decide (to_upper ans = str "N") then readEchoes a (unreadEchoes ms lastRead) 0
           else match row_number ans (len ms) with
                | None => _ ← print (colAlert ++ str "No such message." ++ nl); pause
                | Some n => readEchoes a ms (n - 1)
                end);
      mret (inl tt)) tt.

Definition echoesMenu : M unit :=
  loop (fun _ : unit =>
    _ ← sess_setActivity (str "Echomail");
    u ← me;
    areas ← lift (store_get (EchoAreas (u_id u)));
    _ ← show_header (str "FidoNet Echoes");
    now ← lift now_;
    _ ← show_table (plural (len areas) (str "echo"))
          (lpad 4 (str "#") ++ str "  " ++ Pad (str "Area") 22 ++ str " " ++ Pad (str "Msgs") 12 ++ str " Last")
          ((fun '(i, a) => area_row now i a) <$> numbered areas)
          (str "No echomail yet. Linked areas fill in as mail arrives from FidoNet.");
    ans ← prompt (nl ++ str " |07Area # |08(|15N|08 = read all " ++ itoa (sum_new areas) ++ str " new, Enter = back) " ++ colBorder ++ str "» |15") 4;
    if bool_decide (ans = []) then mret (inr tt)
    else
      _ ← (if EqualFold ans (str "n") then echoNewScan areas
           else match row_number ans (len areas) ≫= (fun n => areas !! Z.to_nat (n - 1)) with
                | None => _ ← print (colAlert ++ str "No such area." ++ nl); pause
                | Some a => echoAreaView (as_area a)
                end);
      mret (inl tt)) tt.

(** ** netmail.go *)

Definition netmailQueueTries : nat := 10.
Definition netmailProgram : bytes := str "Boar BBS".

(** [FTNConfig.enabled]. *)
Definition ftn_enabled : bool := negb (bool_decide (cfg_Addresses = [])) && negb (bool_decide (FtnOutbound.Root cfg_Outbound = [])).

Definition canSendNetmail : M bool := u ← me; mret (u_sysop u && ftn_enabled).

Definition netmailHeading : M bytes :=
  w ← width;
  mret (colDim ++ lpad 4 (str "#") ++ str "    " ++ Pad (str "From / To") 20 ++ str " " ++ Pad (str "Address") 14 ++ str " "
        ++ Pad (str "Subject") (Z.max (inner w - 52) 10) ++ str " Date").

Definition netmail_row (subjW now i : Z) (n : NetmailRow) : bytes :=
  let '(mark, subjColor, who, addr) :=
    if n_outgoing n then (str " " ++ colDim ++ str "»" ++ str "  ", colLabel, n_to n, n_to_addr n)
    else if n_read n =? 0 then (str " " ++ colAlert ++ str "*" ++ colLabel ++ str "  ", colBright, n_from n, n_from_addr n)
    else (str "    ", colLabel, n_from n, n_from_addr n) in
  colValue ++ fmt_d 4 i ++ mark ++ colHandle ++ safe (Pad who 20) ++ str " " ++ colInfo ++ safe (Pad addr 14) ++ str " "
  ++ subjColor ++ safe (Pad (n_subject n) subjW) ++ str " " ++ colInfo ++ shortDate now (n_posted n).

Definition netmailRows (ms : list NetmailRow) : M (list bytes) :=
  w ← width; now ← lift now_;
  mret ((fun '(i, n) => netmail_row (Z.max (inner w - 52) 10) now i n) <$> numbered ms).

(** [netmailDraft]: an address of zone 0 is still to be asked for, or to be picked. *)
Record netmailDraft := MkNetmailDraft {
  nd_toName : bytes; nd_subject : bytes; nd_replyTo : bytes; nd_to : FtnAddr.Addr; nd_from : FtnAddr.Addr; nd_quote : list bytes
}.

Definition empty_netmail : netmailDraft := MkNetmailDraft [] [] [] FtnAddr.zero_addr FtnAddr.zero_addr [].

Definition netmailName : M bytes :=
  u ← me; mret (if u_sysop u && negb (bool_decide (cfg_SysopName = [])) then cfg_SysopName else u_handle u).

Definition originFor (own : list FtnAddr.Addr) (dest : FtnAddr.Addr) : option FtnAddr.Addr :=
  match find (fun a => (FtnAddr.Zone a =? FtnAddr.Zone dest) && (FtnAddr.Net a =? FtnAddr.Net dest) && negb (FtnAddr.IsPoint a)) own with
  | Some a => Some a
  | None => head own     (* [own[0]]: a panic without addresses *)
  end.

Definition netmail_charset (n : NetmailRow) : FtnCharset.Charset :=
  let text := n_body n ++ n_subject n ++ n_to n ++ n_from n in
  if FtnCharset.Fits text FtnCharset.CP437 then FtnCharset.CP437
  else if FtnCharset.Fits text FtnCharset.CP866 then FtnCharset.CP866 else FtnCharset.UTF8.

Definition netmail_message (n : NetmailRow) (from to : FtnAddr.Addr) (now : Z) : FtnMessage.Message :=
  FtnMessage.MkMessage [] (n_from n) (n_to n) (n_subject n) (Some (local now)) from to
    (Z.lor (Z.lor (Z.lor FtnPacket.AttrPrivate FtnPacket.AttrLocal) 128) 2)
    (n_msgid n) (n_reply n) (netmail_charset n) (FtnMessage.format_TZUTC (zone_offset (secs now))) (n_body n) [] []
    [FtnMessage.MkKludge (str "PID") netmailProgram].

(** [Outbound.Queue] on the server's files, whose last state stays. *)
Definition queue_packet (hop : FtnAddr.Addr) (header : FtnPacket.Packet) (ms : list FtnPacket.PackedMessage) : Proc (result FtnOutbound.queue_error unit) :=
  atom (fun s =>
    let '(r, states) := FtnOutbound.Queue cfg_Outbound process_id (temp_suffix (sv_rand s)) (local (sv_now s)) hop FtnOutbound.Crash header ms (sv_fs s) in
    (r, next_rand (set_fs (default (sv_fs s) (last states)) s))).

Fixpoint queue_tries (tries : nat) (hop : FtnAddr.Addr) (header : FtnPacket.Packet) (ms : list FtnPacket.PackedMessage)
    : Proc (result FtnOutbound.queue_error unit) :=
  match tries with
  | O => mret (Err FtnOutbound.ErrBusy)
  | S tries =>
      r ← queue_packet hop header ms;
      match r with
      | Err FtnOutbound.ErrBusy => match tries with O => mret r | _ => queue_tries tries hop header ms end
      | _ => mret r
      end
  end.

Inductive netmail_error := NotQueued (e : FtnOutbound.queue_error) | NotKept (e : store_error).

(** Packed, queued crash for [hop], and kept. *)
Definition sendNetmail (n : NetmailRow) (from to hop main : FtnAddr.Addr) : Proc (result netmail_error unit) :=
  now ← now_;
  serial ← fresh rand_code;
  let n := MkNetmail (n_id n) (n_outgoing n) (FtnAddr.Addr_String from ++ str " " ++ pad_hex 8 (serial mod 4294967296)) (n_reply n) (n_from n)
             (n_from_addr n) (n_to n) (n_to_addr n) (n_subject n) (n_body n) now (n_received n) (n_read n) (n_author n) in
  r ← queue_tries netmailQueueTries hop (FtnPacket.MkPacket main hop [] (Some (local now)) []) [FtnMessage.Pack (netmail_message n from to now)];
  match r with
  | Err e => mret (Err (NotQueued e))
  | Ok _ =>
      r ← store_op (fun now => RecordSentNetmail now n);
      mret (match r with Ok _ => Ok tt | Err e => Err (NotKept e) end)
  end.

(** What the caller reads of an error. *)
Definition store_words (e : store_error) : bytes := default [] (error_text e).
Definition netmail_words (e : netmail_error) : bytes := match e with NotQueued e => queue_words e | NotKept e => store_words e end.

(** The end of [writeNetmail], once the addressee is known. *)
Definition writeNetmail_to (d : netmailDraft) (toName : bytes) (to : FtnAddr.Addr) : M unit :=
  let '(hop, ok) := FtnAddr.Hop cfg_Routes to in
  let to_s := FtnAddr.Addr_String to in
  if negb ok then _ ← print (colAlert ++ str "There is no route to " ++ to_s ++ str " from this node." ++ nl); pause
  else
    match (if FtnAddr.Zone (nd_from d) =? 0 then originFor cfg_Addresses to else Some (nd_from d)), head cfg_Addresses with
    | Some from, Some main =>
        _ ← print (str " " ++ colInfo ++ str "From    " ++ colDim ++ str ": " ++ colLabel ++ FtnAddr.Addr_String from ++ str " " ++ colDim
                   ++ str "(via " ++ FtnAddr.Addr_String hop ++ str ")" ++ nl);
        subject ← askSubject (nd_subject d);
        if bool_decide (subject = []) then _ ← print (colDim ++ str "Cancelled." ++ nl); pause
        else
          body ← editor (nd_quote d);
          match body with
          | None => _ ← print (nl ++ colDim ++ str "Netmail discarded." ++ nl); pause
          | Some body =>
              name ← netmailName;
              u ← me;
              r ← lift (sendNetmail (MkNetmail 0 false [] (nd_replyTo d) name (FtnAddr.Addr_String from) toName to_s subject body 0 0 0 (Some (u_id u)))
                          from to hop main);
              match r with
              | Err e => _ ← print (nl ++ colAlert ++ str "The netmail could not be queued: " ++ safe (netmail_words e) ++ nl); pause
              | Ok _ => _ ← print (nl ++ colOK ++ str "Queued for " ++ to_s ++ str ", via " ++ FtnAddr.Addr_String hop ++ str "." ++ nl); pause
              end
          end
    | _, _ => throw EPanic
    end.

Definition writeNetmail (d : netmailDraft) : M unit :=
  _ ← sess_setActivity (str "Writing netmail");
  _ ← show_header (str "New Netmail");
  _ ← print nl;
  if FtnAddr.Zone (nd_to d) =? 0 then
    name ← prompt (str " |03To name |08(Enter = Sysop): |15") MaxNetmailNameLen;
    let name := if bool_decide (name = []) then str "Sysop" else name in
    line ← prompt (str " |03Address |08(e.g. 2:5030/731, Enter = cancel): |15") MaxNetmailAddrLen;
    if bool_decide (line = []) then mret tt
    else
      match FtnAddr.ParseAddr line with
      | Err _ => _ ← print (colAlert ++ str "That is not a FidoNet address." ++ nl); pause
      | Ok to => writeNetmail_to d name to
      end
  else
    _ ← print (str " " ++ colInfo ++ str "To      " ++ colDim ++ str ": " ++ colBright ++ safe (nd_toName d) ++ str " ("
               ++ FtnAddr.Addr_String (nd_to d) ++ str ")" ++ nl);
    writeNetmail_to d (nd_toName d) (nd_to d).

Definition replyNetmail (n : NetmailRow) : M unit :=
  match FtnAddr.ParseAddr (n_from_addr n) with
  | Err _ => _ ← print (colAlert ++ str "This netmail has no address to reply to." ++ nl); pause
  | Ok to =>
      let from := match FtnAddr.ParseAddr (n_to_addr n) with
                  | Ok own => if FtnAddr.Contains cfg_Addresses own then own else FtnAddr.zero_addr
                  | Err _ => FtnAddr.zero_addr
                  end in
      quote ← yesNo (str "Quote the original message?") true;
      w ← width; now ← lift now_;
      writeNetmail (MkNetmailDraft (n_from n) (prefixed (str "Re: ") (n_subject n) MaxSubjectLen) (n_msgid n) to from
        (if quote : bool then quoteLines now (n_from n) (n_posted n) (n_body n) (editorWidth w - 2) else []))
  end.

Definition netmail_letter (idx total : Z) (n : NetmailRow) : letter :=
  MkLetter (str "Netmail · " ++ itoa (idx + 1) ++ str " of " ++ itoa total)
    [MkField (str "From") (n_from n ++ str " (" ++ n_from_addr n ++ str ")") colBright;
     MkField (str "To") (n_to n ++ str " (" ++ n_to_addr n ++ str ")") colLabel;
     MkField (str "Date") (longDate (n_posted n)) colLabel; MkField (str "Subj") (n_subject n) colKey] (n_body n).

Definition netmail_turn (ms : list NetmailRow) (idx : Z) : M (Z + unit) :=
  match (if idx <? 0 then None else ms !! Z.to_nat idx) with
  | None => mret (inr tt)
  | Some n =>
      _ ← (if negb (n_outgoing n) && (n_read n =? 0) then lift (store_do (fun now db => (tt, MarkNetmailRead now (n_id n) db))) else mret tt);
      _ ← showLetter (netmail_letter idx (len ms) n);
      can ← canSendNetmail;
      let words := [str "Next"; str "Prev"] ++ (if (can : bool) && negb (n_outgoing n) then [str "Reply"] else []) ++ [str "Quit"] in
      _ ← show_actions words;
      k ← choose (keysOf words ++ [13]);
      if (k =? ch "N") || (k =? keyEnter) then mret (inl (idx + 1))
      else if k =? ch "P" then mret (inl (Z.max (idx - 1) 0))
      else if k =? ch "R" then _ ← replyNetmail n; mret (inl idx)
      else if k =? ch "Q" then mret (inr tt)
      else mret (inl idx)
  end.

Definition readNetmail (ms : list NetmailRow) (idx : Z) : M unit := loop (netmail_turn ms) idx.

Definition netmailMenu : M unit :=
  loop (fun _ : unit =>
    _ ← sess_setActivity (str "Netmail");
    u ← me;
    ms ← lift (store_get (NetmailFor u));
    _ ← show_header (str "FidoNet Netmail");
    heading ← netmailHeading;
    rows ← netmailRows ms;
    _ ← show_table (plural (len ms) (str "netmail")) heading rows (str "No netmail. Netmail sent to this node's FidoNet addresses lands here.");
    can ← canSendNetmail;
    let hint := if can : bool then str "|15W|08 = write, Enter = back" else str "Enter = back" in
    ans ← prompt (nl ++ str " |07Read # |08(" ++ hint ++ str ") " ++ colBorder ++ str "» |15") 4;
    if bool_decide (ans = []) then mret (inr tt)
    else
      _ ← (if EqualFold ans (str "w") && can then writeNetmail empty_netmail
           else match row_number ans (len ms) with
                | None => _ ← print (colAlert ++ str "No such message." ++ nl); pause
                | Some n => readNetmail ms (n - 1)
                end);
      mret (inl tt)) tt.
End echo.
