(* ===== verification/FilesMenu.v ===== *)
(** * The file areas: [internal/bbs/files.go], and the transfer of [zmodem.go]

    Areas and files are listed; a file is sent by ZMODEM or given out as a signed link.  The ZMODEM library is a
    parameter that takes some of the caller's input and says how the transfer went. *)

From Stdlib Require Import Ascii String ZArith Lia.
From stdpp Require Import base tactics list gmap strings.
From S2P Require Import Prelude GoStrings GoTime GoFiles Term StoreDB StoreUsers StoreMail StoreBoards StoreEcho Limits Nodes Mailer FileLink Server Ui Session Editor Screens Login EchoMenu.
Open Scope Z_scope.

(** A transfer: how much of the input it and the draining after it take, what was written to the terminal, the bytes
    sent, whether the library reported the file as completed (with what error), and the error of [Send]. *)
Record Transfer := MkTransfer {
  z_takes : nat; z_out : bytes; z_sent : Z; z_done : option (option bytes); z_err : option bytes
}.

Class Zmodem := { zmodem_run : bytes -> bytes -> list input -> Transfer }.

(** ** [humanSize] *)

(** The nearest integer to [a / b], half to even. *)
Definition round_even (a b : Z) : Z :=
  let q := a / b in let r := 2 * (a mod b) in
  if r <? b then q else if b <? r then q + 1 else if Z.even q then q else q + 1.

(** [float64(n)], for [n >= 0]: 53 bits. *)
Definition float64 (n : Z) : Z :=
  if n <? 9007199254740992 then n else let e := 2 ^ (Z.log2 n - 52) in round_even n e * e.

(** [%.1f] of [n / unit], for a power of two. *)
Definition fmt_tenths (n unit_ : Z) : bytes :=
  let t := round_even (10 * float64 n) unit_ in itoa (t / 10) ++ str "." ++ itoa (t mod 10).

Definition humanSize (n : Z) : bytes :=
  if n <? 1024 then itoa n ++ str "B"
  else if n <? 1048576 then fmt_tenths n 1024 ++ str "K"
  else if n <? 1073741824 then fmt_tenths n 1048576 ++ str "M"
  else fmt_tenths n 1073741824 ++ str "G".

Example humanSize_examples : humanSize 1023 = str "1023B" /\ humanSize 1536 = str "1.5K" /\ humanSize 1048575 = str "1024.0K".
Proof. by vm_compute. Qed.

Definition defaultFileLinkTTL : Z := 86400000000000.

Section files.
Context `{UnicodeTables} `{Crypto} `{MailParser} `{FoldTables} `{BBS} `{Hmac} `{Zmodem}.

(** [filePath]: inside the file root, or nothing. *)
Definition filePath (f : FileRow) : option bytes :=
  let root := filepath_Clean cfg_Files in
  let p := filepath_Join [root; f_path f] in
  if bool_decide (root = []) || negb (has_prefix p (root ++ str "/")) then None else Some p.

Definition fileMissing : M unit := _ ← print (nl ++ colAlert ++ str "That file is not on the disk any more." ++ nl); pause.

(** Input taken past the session: the window's size still changes, a hang-up stays. *)
Fixpoint take_input (n : nat) (i : list input) (size : Z * Z) : list input * (Z * Z) :=
  match n, i with
  | S n, Key _ :: i => take_input n i size
  | S n, Resize w h :: i => take_input n i (w, h)
  | S n, Wake _ :: i => take_input n i size
  | _, _ => (i, size)
  end.

(** The conditions at the end of [zmodemSend]. *)
Definition transfer_error (z : Transfer) : option bytes :=
  match z_err z, z_done z with Some e, _ => Some e | None, Some e => e | None, None => Some (str "unexpected EOF") end.

(** [zmodemSend]: the bytes sent, and the error. *)
Definition zmodemSend (name data : bytes) : M (Z * option bytes) :=
  i ← get se_in;
  let z := zmodem_run name data i in
  _ ← modify (fun s => let '(i, size) := take_input (z_takes z) (se_in s) (se_size s) in write_bytes (z_out z) (with_input (se_dec s) size i s));
  mret (z_sent z, transfer_error z).

Definition downloadZmodem (f : FileRow) : M unit :=
  match filePath f with
  | None => fileMissing
  | Some path =>
      file ← lift (atom (fun s => (sv_fs s !! path, s)));
      match file with
      | None => fileMissing
      | Some data =>
          _ ← sess_setActivity (str "Downloading " ++ f_name f);
          _ ← print (nl ++ colInfo ++ str "Sending " ++ colBright ++ safe (f_name f) ++ colInfo
                     ++ str " by ZMODEM. Start your client's download if it does not start by itself;" ++ nl
                     ++ colDim ++ str "press Ctrl-X five times to cancel." ++ nl);
          '(sent, err) ← zmodemSend (f_name f) data;
          _ ← print [13; 10];
          match err with
          | Some e => _ ← print (colAlert ++ str "The transfer did not finish (" ++ safe e ++ str ")." ++ nl); pause
          | None =>
              _ ← lift (store_do (fun _ db => (tt, CountDownload (f_id f) db)));
              _ ← print (colOK ++ str "Sent " ++ safe (f_name f) ++ str " (" ++ humanSize sent ++ str ")." ++ nl);
              pause
          end
      end
  end.

(** "2 Jan 15:04 MST" *)
Definition link_date (t : Z) : bytes :=
  let c := local t in itoa (day c) ++ str " " ++ month_name (month c) ++ str " " ++ hour_minute t ++ str " " ++ zone_name (secs t).

(** The URL a caller gets for a file. *)
Definition link_url (f : FileRow) (userID exp : Z) : bytes := cfg_FileLinkURL ++ Sign cfg_FileLinkKey (MkLink (f_id f) userID (secs exp)).

Definition downloadLink (f : FileRow) : M unit :=
  let ttl := if cfg_FileLinkTTL <=? 0 then defaultFileLinkTTL else cfg_FileLinkTTL in
  now ← lift now_;
  u ← me;
  let exp := now + ttl in
  _ ← print (nl ++ colInfo ++ str "Download " ++ safe (f_name f) ++ str " on the web, until " ++ link_date exp ++ str ":" ++ nl ++ nl ++ str " "
             ++ colBright ++ link_url f (u_id u) exp ++ nl ++ nl ++ colDim ++ str "The link is yours; it stops working by itself." ++ nl);
  pause.

Definition file_letter (a : AreaRow) (f : FileRow) : letter :=
  MkLetter (str "File · " ++ a_tag a)
    ([MkField (str "File") (f_name f) colBright; MkField (str "Area") (a_tag a) colLabel;
      MkField (str "Size") (humanSize (f_size f) ++ str " (" ++ itoa (f_size f) ++ str " bytes, CRC " ++ f_crc f ++ str ")") colLabel;
      MkField (str "Date") (longDate (f_received f)) colLabel]
     ++ (if bool_decide (f_origin f = []) then [] else [MkField (str "From") (f_origin f) colLabel]))
    (f_desc f ++ (if bool_decide (f_ldesc f = []) then [] else nl ++ nl ++ f_ldesc f)).

Definition fileView (a : AreaRow) (f : FileRow) : M unit :=
  loop (fun _ : unit =>
    _ ← sess_setActivity (str "Looking at " ++ f_name f);
    _ ← showLetter (file_letter a f);
    let words := [str "Zmodem"] ++ (if bool_decide (cfg_FileLinkURL = []) then [] else [str "Link"]) ++ [str "Quit"] in
    _ ← show_actions words;
    k ← choose (keysOf words ++ [13]);
    if (k =? ch "Q") || (k =? keyEnter) then mret (inr tt)
    else if (k =? ch "Z") || (k =? ch "L") then
      stop ← awaitingApproval (str "Downloads");
      if stop : bool then mret (inr tt)
      else _ ← (if k =? ch "Z" then downloadZmodem f else downloadLink f); mret (inl tt)
    else mret (inl tt)) tt.

Definition file_row (now descW seen i : Z) (f : FileRow) : bytes :=
  let mark := if seen <? f_id f then str " " ++ colAlert ++ str "*" ++ colLabel ++ str "  " else str "    " in
  let '(desc, _, _) := cut (f_desc f) 10 in
  colValue ++ fmt_d 4 i ++ mark ++ colHandle ++ safe (Pad (f_name f) 16) ++ str " " ++ colLabel ++ Pad (humanSize (f_size f)) 8 ++ str " "
  ++ colInfo ++ Pad (shortDate now (f_received f)) 9 ++ str " " ++ colLabel ++ safe (Pad desc descW).

Definition fileAreaView (a : AreaRow) : M unit :=
  loop (fun _ : unit =>
    _ ← sess_setActivity (str "Files in " ++ a_tag a);
    u ← me;
    fs ← lift (store_get (FilesIn (a_id a)));
    seen ← lift (store_get (FilesLastSeen (u_id u) (a_id a)));
    _ ← show_header (a_tag a);
    w ← width; now ← lift now_;
    _ ← show_table (plural (len fs) (str "file"))
          (colDim ++ lpad 4 (str "#") ++ str "    " ++ Pad (str "File") 16 ++ str " " ++ Pad (str "Size") 8 ++ str " " ++ Pad (str "Date") 9
           ++ str " Description")
          ((fun '(i, f) => file_row now (Z.max (inner w - 44) 10) seen i f) <$> numbered fs) (str "No files in this area.");
    _ ← match fs with f :: _ => _ ← lift (store_op (fun _ => MarkFilesSeen (u_id u) (a_id a) (f_id f))); mret tt | [] => mret tt end;
    ans ← prompt (nl ++ str " |07File # |08(Enter = back) " ++ colBorder ++ str "» |15") 4;
    if bool_decide (ans = []) then mret (inr tt)
    else
      _ ← (match row_number ans (len fs) ≫= (fun n => fs !! Z.to_nat (n - 1)) with
           | None => _ ← print (colAlert ++ str "No such file." ++ nl); pause
           | Some f => fileView a f
           end);
      mret (inl tt)) tt.

Definition file_area_row (now i : Z) (a : AreaSummary) : bytes :=
  colValue ++ fmt_d 4 i ++ str "  " ++ colHandle ++ safe (Pad (a_tag (as_area a)) 22) ++ str " "
  ++ fit (colLabel ++ count_text (as_count a) (as_new a)) 14 ++ str " " ++ colDim ++ safe (newest_text now (as_last a)) ++ str "  "
  ++ colInfo ++ safe (a_desc (as_area a)).

Definition filesMenu : M unit :=
  loop (fun _ : unit =>
    _ ← sess_setActivity (str "File areas");
    u ← me;
    areas ← lift (store_get (FileAreas (u_id u)));
    _ ← show_header (str "File Areas");
    now ← lift now_;
    _ ← show_table (plural (len areas) (str "file area"))
          (lpad 4 (str "#") ++ str "  " ++ Pad (str "Area") 22 ++ str " " ++ Pad (str "Files") 14 ++ str " Newest")
          ((fun '(i, a) => file_area_row now i a) <$> numbered areas)
          (str "No files yet. File echoes fill in as files arrive from FidoNet.");
    ans ← prompt (nl ++ str " |07Area # |08(" ++ itoa (sum_new areas) ++ str " new, Enter = back) " ++ colBorder ++ str "» |15") 4;
    if bool_decide (ans = []) then mret (inr tt)
    else
      _ ← (match row_number ans (len areas) ≫= (fun n => areas !! Z.to_nat (n - 1)) with
           | None => _ ← print (colAlert ++ str "No such area." ++ nl); pause
           | Some a => fileAreaView (as_area a)
           end);
      mret (inl tt)) tt.
End files.
