(* ===== verification/Download.v ===== *)
(** * The session's side of a ZMODEM transfer: [internal/bbs/zmodem.go]

    While a file is sent, the ZMODEM library reads the caller's answers from the session's input pump, then leftovers are
    drained, and then the session has its keyboard back.  A call of [Read] is its program counter, interleaved with
    the goroutines of [Terminals] over any terminal.  The theorems: whoever reads, each of the caller's bytes goes to
    exactly one reader, in order, and the error that ends the input reaches all of them; and what [zmodemSend] reports
    is what the library said about the one file.  The library itself (github.com/xx25/go-zmodem) is arbitrary: any calls in
    any order, save that [Send] returns when its reads have. *)

From Stdlib Require Import Ascii String ZArith Lia.
From stdpp Require Import base tactics list gmap strings relations.
From S2P Require Import Prelude GoStrings GoTime Editor Terminals TerminalSpec Session FilesMenu.
From S2P Require Telnet.
Open Scope Z_scope.

(** ** The port *)

Definition zmodemIdle : Z := 60000000000.
Definition zmodemSettle : Z := 1500000000.

(** [zp_deadline]: in nanoseconds; 0 is the zero time. *)
Record zmodemPort := MkPort { zp_deadline : Z }.

Definition SetReadDeadline (t : Z) (p : zmodemPort) : zmodemPort := MkPort t.

(** [Read]: in the first select (with a timer or without), in the second with the bytes so far, or returned. *)
Inductive read_pc := RWaiting (timed : bool) | RMore (b : bytes) | RReturned (b : bytes) (err : option read_error).

(** Up to the first select, for a buffer of [room] bytes, at the time [now]. *)
Definition Read_begin (room now : Z) (p : zmodemPort) (i : inputPump) : read_pc :=
  if room =? 0 then RReturned [] None
  else
    match p_err i with
    | Some e => RReturned [] (Some e)
    | None =>
        if zp_deadline p =? 0 then RWaiting false
        else if zp_deadline p - now <=? 0 then RReturned [] (Some rDeadline) else RWaiting true
    end.

(** The head of the loop. *)
Definition Read_more (room : Z) (b : bytes) : read_pc := if len b <? room then RMore b else RReturned b None.

(** [ev := <-p.s.in.events], in either select. *)
Definition Read_event (room : Z) (pc : read_pc) (i : inputPump) : option (result read_error Z * read_pc * inputPump) :=
  '(ev, i) ← run_sent i;
  let '(r, i) := accept ev i in
  match pc, r with
  | RWaiting _, Ok c => Some (r, Read_more room [c], i)
  | RWaiting _, Err e => Some (r, RReturned [] (Some e), i)
  | RMore b, Ok c => Some (r, Read_more room (b ++ [c]), i)
  | RMore b, Err _ => Some (r, RReturned b None, i)
  | RReturned _ _, _ => None
  end.

(** [<-timeout] *)
Definition Read_timeout (pc : read_pc) : option read_pc := match pc with RWaiting true => Some (RReturned [] (Some rDeadline)) | _ => None end.

(** [default]: no event is offered. *)
Definition Read_default (pc : read_pc) (i : inputPump) : option read_pc :=
  match pc, run_sent i with RMore b, None => Some (RReturned b None) | _, _ => None end.

(** A turn of [drainInput] that takes an event: whether it goes on. *)
Definition drain_event (i : inputPump) : option (result read_error Z * bool * inputPump) :=
  '(ev, i) ← run_sent i;
  let '(r, i) := accept ev i in Some (r, match r with Ok _ => true | Err _ => false end, i).

(** ** One file *)

Record FileOffer := MkOffer { fo_name : bytes; fo_size : Z; fo_mod : Z; fo_mode : Z }.
Record zmodemOne := MkOne { zo_offer : FileOffer; zo_given : bool; zo_sent : Z; zo_err : option bytes; zo_done : bool }.

Definition NextFile (h : zmodemOne) : option FileOffer * zmodemOne :=
  if zo_given h then (None, h) else (Some (zo_offer h), MkOne (zo_offer h) true (zo_sent h) (zo_err h) (zo_done h)).

Definition FileProgress (n : Z) (h : zmodemOne) : zmodemOne := MkOne (zo_offer h) (zo_given h) n (zo_err h) (zo_done h).
Definition FileCompleted (n : Z) (err : option bytes) (h : zmodemOne) : zmodemOne := MkOne (zo_offer h) (zo_given h) n err true.

(** [AcceptFile]: [ErrSkip]. *)
Definition AcceptFile (h : zmodemOne) : option FileOffer * zmodemOne := (None, h).

(** What the library calls, in order, and the files it is given. *)
Inductive callback := CNext | CAccept | CProgress (n : Z) | CCompleted (n : Z) (err : option bytes).

Definition call_back (c : callback) (h : zmodemOne) : option FileOffer * zmodemOne :=
  match c with
  | CNext => NextFile h
  | CAccept => AcceptFile h
  | CProgress n => (None, FileProgress n h)
  | CCompleted n e => (None, FileCompleted n e h)
  end.

Fixpoint call_backs (cs : list callback) (h : zmodemOne) : list FileOffer * zmodemOne :=
  match cs with
  | [] => ([], h)
  | c :: cs =>
      let '(f, h) := call_back c h in
      let '(fs, h) := call_backs cs h in
      (match f with Some f => f :: fs | None => fs end, h)
  end.

Definition newOne (name : bytes) (size mod_ : Z) : zmodemOne := MkOne (MkOffer name size mod_ 420) false 0 None false.

(** The two conditions at the end of [zmodemSend]. *)
Definition send_result (h : zmodemOne) (err : option bytes) : option bytes :=
  let err := match err with None => if zo_done h then zo_err h else None | _ => err end in
  match err with None => if zo_done h then None else Some (str "unexpected EOF") | _ => err end.

Section send.
(** The transport: [SetBinary] if it has one.  The library: its calls and its error, and what it does to the transport; [drain]:
    what the transport does while leftovers are swallowed. *)
Context {C : Type} (setBinary : option (bool -> C -> option bytes * C)) (send : FileOffer -> C -> list callback * option bytes * C) (drain : C -> C).

Definition zmodemSend (name : bytes) (size mod_ : Z) (c : C) : Z * option bytes * C :=
  let transfer (c : C) :=
    let h := newOne name size mod_ in
    let '(cs, err, c) := send (zo_offer h) c in
    let '(_, h) := call_backs cs h in
    (zo_sent h, send_result h err, drain c) in
  match setBinary with
  | None => transfer c
  | Some set =>
      match set true c with
      | (Some e, c) => (0, Some e, c)
      | (None, c) => let '(sent, err, c) := transfer c in (sent, err, snd (set false c))
      end
  end.
End send.

(** ** Who has the keyboard *)

Inductive consumer := USession | ULibrary | UDrain.

(** The session; the library, in a call of [Read] with a buffer of so many bytes or between calls; [drainInput]. *)
Inductive keyboard := KSession | KLibrary (read : option (Z * read_pc)) | KDraining.

Record transfer_sys (T : Type) := MkTransfer_sys {
  ts_in : input_sys T; ts_port : zmodemPort; ts_keys : keyboard;
  ts_log : list (consumer * result read_error Z);        (* what was taken from the pump, and by whom *)
  ts_reads : list (Z * bytes * option read_error)        (* the calls of [Read]: room and result *)
}.
Arguments MkTransfer_sys {T}.
Arguments ts_in {T}.
Arguments ts_port {T}.
Arguments ts_keys {T}.
Arguments ts_log {T}.
Arguments ts_reads {T}.

Section transfer.
Context {T : Type} `{Terminal T}.

(** The session took [ev] off the pump, which is [p'] then. *)
Definition took (ev : result read_error Z) (p' : inputPump) (s : input_sys T) : input_sys T := MkSys (sy_term s) p' (sy_got s ++ [ev]).

Inductive transfer_step : transfer_sys T -> transfer_sys T -> Prop :=
| ts_below s s' port k log rs : input_step s s' -> sy_got s' = sy_got s -> (k = KSession \/ p_done (sy_pump s') = p_done (sy_pump s)) ->
    transfer_step (MkTransfer_sys s port k log rs) (MkTransfer_sys s' port k log rs)
| ts_next s port log rs ev p' : p_done (sy_pump s) = false -> pump_next (sy_pump s) = Some (ev, p') ->
    transfer_step (MkTransfer_sys s port KSession log rs) (MkTransfer_sys (took ev p' s) port KSession (log ++ [(USession, ev)]) rs)
| ts_send s port log rs : p_done (sy_pump s) = false ->
    transfer_step (MkTransfer_sys s port KSession log rs) (MkTransfer_sys s (MkPort 0) (KLibrary None) log rs)
| ts_deadline s port read log rs t :
    transfer_step (MkTransfer_sys s port (KLibrary read) log rs) (MkTransfer_sys s (SetReadDeadline t port) (KLibrary read) log rs)
| ts_read s port log rs room now : 0 <= room ->
    transfer_step (MkTransfer_sys s port (KLibrary None) log rs) (MkTransfer_sys s port (KLibrary (Some (room, Read_begin room now port (sy_pump s)))) log rs)
| ts_event s port room pc log rs ev pc' p' : Read_event room pc (sy_pump s) = Some (ev, pc', p') ->
    transfer_step (MkTransfer_sys s port (KLibrary (Some (room, pc))) log rs) (MkTransfer_sys (took ev p' s) port (KLibrary (Some (room, pc'))) (log ++ [(ULibrary, ev)]) rs)
| ts_timeout s port room pc log rs pc' : Read_timeout pc = Some pc' ->
    transfer_step (MkTransfer_sys s port (KLibrary (Some (room, pc))) log rs) (MkTransfer_sys s port (KLibrary (Some (room, pc'))) log rs)
| ts_default s port room pc log rs pc' : Read_default pc (sy_pump s) = Some pc' ->
    transfer_step (MkTransfer_sys s port (KLibrary (Some (room, pc))) log rs) (MkTransfer_sys s port (KLibrary (Some (room, pc'))) log rs)
| ts_returned s port room b e log rs :
    transfer_step (MkTransfer_sys s port (KLibrary (Some (room, RReturned b e))) log rs) (MkTransfer_sys s port (KLibrary None) log (rs ++ [(room, b, e)]))
| ts_sent s port log rs :
    transfer_step (MkTransfer_sys s port (KLibrary None) log rs) (MkTransfer_sys s port KDraining log rs)
| ts_drain s port log rs ev more p' : drain_event (sy_pump s) = Some (ev, more, p') ->
    transfer_step (MkTransfer_sys s port KDraining log rs) (MkTransfer_sys (took ev p' s) port (if more : bool then KDraining else KSession) (log ++ [(UDrain, ev)]) rs)
| ts_settled s port log rs :
    transfer_step (MkTransfer_sys s port KDraining log rs) (MkTransfer_sys s port KSession log rs).

Definition new_transfer (t : T) : transfer_sys T := MkTransfer_sys (new_sys t) (MkPort 0) KSession [] [].
End transfer.

(** * Theorems *)

(** ** Each byte has one reader *)

(** The bytes in what a reader took. *)
Definition bytes_of (who : consumer) (log : list (consumer * result read_error Z)) : bytes :=
  omap (fun x => match x with
                 | (USession, Ok b) => match who with USession => Some b | _ => None end
                 | (ULibrary, Ok b) => match who with ULibrary => Some b | _ => None end
                 | (UDrain, Ok b) => match who with UDrain => Some b | _ => None end
                 | _ => None
                 end) log.

#[local] Arguments bytes_of : simpl never.

(** The bytes that a call of [Read] holds. *)
Definition held (k : keyboard) : bytes :=
  match k with KLibrary (Some (_, RMore b)) | KLibrary (Some (_, RReturned b _)) => b | _ => [] end.

(** What a call of [Read] may say: as many bytes as fit or an error, never both, and never nothing but for an empty
    buffer; the errors are the deadline's and the one that ended the input. *)
Definition read_ok (ended : option read_error) (r : Z * bytes * option read_error) : Prop :=
  let '(room, b, err) := r in
  len b <= room
  /\ match err with
     | Some e => b = [] /\ (e = rDeadline \/ ended = Some e)
     | None => b = [] -> room = 0
     end.

Definition pc_ok (ended : option read_error) (k : keyboard) : Prop :=
  match k with
  | KLibrary (Some (room, RWaiting _)) => 0 < room
  | KLibrary (Some (room, RMore b)) => b <> [] /\ len b < room
  | KLibrary (Some (room, RReturned b e)) => read_ok ended (room, b, e)
  | _ => True
  end.

Section transfer_spec.
Context {T : Type} `{Terminal T}.

Record transfer_inv (s : transfer_sys T) : Prop := {
  ti_pump : pump_inv (ts_in s);
  ti_got : sy_got (ts_in s) = (ts_log s).*2;
  ti_running : ts_keys s = KSession \/ p_done (sy_pump (ts_in s)) = false;
  ti_reads : Forall (read_ok (p_err (sy_pump (ts_in s)))) (ts_reads s);
  ti_pc : pc_ok (p_err (sy_pump (ts_in s))) (ts_keys s);
  ti_library : bytes_of ULibrary (ts_log s) = concat ((fun r => snd (fst r)) <$> ts_reads s) ++ held (ts_keys s)
}.

(** The session takes events off the pump as [next] does. *)
Lemma accept_is_next (s : input_sys T) ev p r p' :
  pump_inv s -> run_sent (sy_pump s) = Some (ev, p) -> accept ev p = (r, p') ->
  pump_next (sy_pump s) = Some (r, p') /\ p_err (sy_pump s) = None /\ p_done p' = p_done (sy_pump s)
  /\ p_err p' = match r with Ok _ => None | Err e => Some e end.
Proof.
  intros (bs & rest & _ & _ & _ & _ & He) Hs Ha. unfold pump_next.
  destruct (p_err (sy_pump s)) as [e|] eqn:Ee.
  - unfold run_sent in Hs. by rewrite He in Hs.
  - rewrite Hs. cbn. rewrite Ha. split_and!; try done; unfold run_sent in Hs; destruct (p_pc (sy_pump s)); simplify_eq;
      destruct ev; cbn in Ha; simplify_eq; cbn; try done.
Qed.

Lemma took_step (s : input_sys T) ev p r p' :
  pump_inv s -> p_done (sy_pump s) = false -> run_sent (sy_pump s) = Some (ev, p) -> accept ev p = (r, p') -> pump_inv (took r p' s).
Proof.
  intros Hi Hd Hs Ha. destruct (accept_is_next _ _ _ _ _ Hi Hs Ha) as [Hn _]. eapply pump_step_inv; [|exact Hi].
  destruct s as [t q got]. by apply is_next.
Qed.

Lemma read_ok_mono e r : read_ok None r -> read_ok e r.
Proof. destruct r as [[room b] [x|]]; cbn; [|done]. intros (? & ? & [?|?]); [|done]. auto. Qed.

Lemma below_err (s s' : input_sys T) : input_step s s' -> sy_got s' = sy_got s -> p_err (sy_pump s') = p_err (sy_pump s).
Proof.
  destruct 1 as [| | | |]; cbn; intros Hg; try done.
  - unfold run_read in *. case_match; by simplify_eq.
  - unfold run_done in *. repeat case_match; by simplify_eq.
  - exfalso. apply (f_equal length) in Hg. rewrite length_app in Hg. cbn in Hg. lia.
Qed.

Lemma bytes_of_snoc who log w r :
  bytes_of who (log ++ [(w, r)]) = bytes_of who log ++ bytes_of who [(w, r)].
Proof. apply omap_app. Qed.

Lemma Read_more_facts ended room b : b <> [] -> len b <= room ->
  pc_ok ended (KLibrary (Some (room, Read_more room b))) /\ held (KLibrary (Some (room, Read_more room b))) = b.
Proof. intros Hb Hl. unfold Read_more. destruct (Z.ltb_spec (len b) room); cbn; [done|]. by split_and!. Qed.

Lemma Read_event_facts (s : input_sys T) room pc ev pc' p' :
  pump_inv s -> p_done (sy_pump s) = false -> pc_ok (p_err (sy_pump s)) (KLibrary (Some (room, pc))) ->
  Read_event room pc (sy_pump s) = Some (ev, pc', p') ->
  pump_inv (took ev p' s) /\ p_err (sy_pump s) = None /\ p_done p' = false /\ pc_ok (p_err p') (KLibrary (Some (room, pc')))
  /\ held (KLibrary (Some (room, pc'))) = held (KLibrary (Some (room, pc))) ++ bytes_of ULibrary [(ULibrary, ev)].
Proof.
  unfold Read_event. intros Hi Hd Hpc He. destruct (run_sent (sy_pump s)) as [[ev0 p]|] eqn:Es; [|done]. cbn [mbind option_bind] in He.
  destruct (accept ev0 p) as [r p0] eqn:Ea. pose proof (took_step _ _ _ _ _ Hi Hd Es Ea) as Hp.
  destruct (accept_is_next _ _ _ _ _ Hi Es Ea) as (_ & H1 & H2 & H3). rewrite Hd in H2.
  destruct pc as [timed|b|b e], r as [c|e']; simplify_eq; cbn [pc_ok] in Hpc; (split_and!; [done|done|done| |]); try done.
  - apply Read_more_facts; [done|unfold len; cbn; lia].
  - destruct (Read_more_facts None room [c]) as [_ ->]; [done|unfold len; cbn; lia|done].
  - cbn. split_and!; [unfold len; cbn; lia|done|by right].
  - destruct Hpc as [Hb Hl]. apply Read_more_facts; [by destruct b|rewrite len_app; unfold len at 2; cbn; lia].
  - destruct Hpc as [Hb Hl]. destruct (Read_more_facts None room (b ++ [c])) as [_ ->]; [by destruct b|rewrite len_app; unfold len at 2; cbn; lia|done].
  - cbn. destruct Hpc as [Hb Hl]. split; [lia|]. by intros ->.
  - change (bytes_of ULibrary _) with (@nil Z). cbn. by rewrite app_nil_r.
Qed.

Lemma drain_event_facts (s : input_sys T) ev more p' :
  pump_inv s -> p_done (sy_pump s) = false -> drain_event (sy_pump s) = Some (ev, more, p') ->
  pump_inv (took ev p' s) /\ p_err (sy_pump s) = None /\ p_done p' = false.
Proof.
  unfold drain_event. intros Hi Hd He. destruct (run_sent (sy_pump s)) as [[ev0 p]|] eqn:Es; [|done]. cbn [mbind option_bind] in He.
  destruct (accept ev0 p) as [r p0] eqn:Ea. simplify_eq. pose proof (took_step _ _ _ _ _ Hi Hd Es Ea) as Hp.
  destruct (accept_is_next _ _ _ _ _ Hi Es Ea) as (_ & H1 & H2 & H3). by rewrite Hd in H2.
Qed.

Lemma Read_begin_ok room now port p : 0 <= room -> pc_ok (p_err p) (KLibrary (Some (room, Read_begin room now port p))) /\ held (KLibrary (Some (room, Read_begin room now port p))) = [].
Proof.
  intros Hr. unfold Read_begin. destruct (Z.eqb_spec room 0) as [->|Hn]; [cbn; by split_and!|].
  destruct (p_err p) as [e|] eqn:Ee; [cbn; unfold len; cbn; split_and!; auto; lia|].
  destruct (zp_deadline port =? 0); [cbn; split; [lia|done]|].
  destruct (zp_deadline port - now <=? 0); cbn; unfold len; cbn; split_and!; auto; lia.
Qed.

(** What taking an event does to the rest of the invariant. *)
Lemma took_inv (s : input_sys T) port port' k k' who ev p' log rs :
  transfer_inv (MkTransfer_sys s port k log rs) -> pump_inv (took ev p' s) -> p_err (sy_pump s) = None ->
  k' = KSession \/ p_done p' = false -> pc_ok (p_err p') k' -> held k' = held k ++ bytes_of ULibrary [(who, ev)] ->
  transfer_inv (MkTransfer_sys (took ev p' s) port' k' (log ++ [(who, ev)]) rs).
Proof.
  intros [Hp Hg Hr Hrs Hpc Hl] Hp' He Hr' Hpc' Hh. cbn in *. constructor; cbn; [done|by rewrite Hg, fmap_app|done| |done|].
  - rewrite He in Hrs. eapply Forall_impl; [exact Hrs|]. intros r. apply read_ok_mono.
  - by rewrite bytes_of_snoc, Hl, Hh, <-app_assoc.
Qed.

Lemma pump_next_facts (s : input_sys T) ev p' :
  pump_next (sy_pump s) = Some (ev, p') -> p_done p' = p_done (sy_pump s) /\ forall e, p_err (sy_pump s) = Some e -> p_err p' = Some e.
Proof.
  unfold pump_next, run_sent. destruct (p_err (sy_pump s)) as [e|] eqn:Ee; intros Hn; [by simplify_eq; split; [|congruence]|].
  destruct (p_pc (sy_pump s)) as [|[b|e]|]; cbn in Hn; simplify_eq; by split.
Qed.

Lemma transfer_step_inv s s' : transfer_step s s' -> transfer_inv s -> transfer_inv s'.
Proof.
  destruct 1 as [s s' port k log rs Hs Hgot Hk|s port log rs ev p' Hd Hn|s port log rs Hd|s port read log rs t|s port log rs room now Hroom
    |s port room pc log rs ev pc' p' He|s port room pc log rs pc' Ht|s port room pc log rs pc' Ht|s port room b e log rs|s port log rs
    |s port log rs ev more p' He|s port log rs]; intros Hi; pose proof Hi as [Hp Hg Hr Hrs Hpc Hl]; cbn in *.
  - constructor; cbn; rewrite ?(below_err _ _ Hs Hgot); try done; [by eapply pump_step_inv|congruence|].
    destruct Hk as [?|E]; [by left|]. destruct Hr; [by left|right; congruence].
  - destruct (pump_next_facts _ _ _ Hn) as [_ He].
    constructor; cbn; [|by rewrite Hg, fmap_app|by left| |done|].
    + eapply pump_step_inv; [|exact Hp]. destruct s as [t q got]. by apply is_next.
    + eapply Forall_impl; [exact Hrs|]. intros [[room b] [x|]]; cbn; [|done]. intros (? & ? & [?|?]); auto.
    + rewrite bytes_of_snoc. destruct ev; (change (bytes_of ULibrary [(USession, _)]) with (@nil Z); by rewrite app_nil_r).
  - destruct Hr; constructor; cbn; auto; congruence.
  - destruct Hr; constructor; cbn; auto; congruence.
  - destruct Hr as [?|Hr]; [done|]. destruct (Read_begin_ok room now port (sy_pump s) Hroom) as [H1 H2].
    constructor; cbn [ts_in ts_log ts_keys ts_reads]; auto. by rewrite H2.
  - destruct Hr as [?|Hr]; [done|]. destruct (Read_event_facts _ _ _ _ _ _ Hp Hr Hpc He) as (H1 & H2 & H3 & H4 & H5).
    eapply took_inv; eauto.
  - destruct pc as [[]| |]; simplify_eq/=. destruct Hr; constructor; cbn; auto; try congruence. split; [by unfold len; cbn; lia|auto].
  - unfold Read_default in Ht. destruct pc as [|b|]; try done. destruct (run_sent (sy_pump s)); simplify_eq/=. destruct Hr; constructor; cbn; auto; try congruence.
    split; [lia|]. intros ->. by destruct Hpc.
  - destruct Hr as [?|Hr]; [done|]. constructor; cbn; auto; [by apply Forall_app; split; [|apply Forall_singleton]|].
    rewrite Hl, fmap_app, concat_app. cbn. by rewrite !app_nil_r.
  - destruct Hr; constructor; cbn; auto; congruence.
  - destruct Hr as [?|Hr]; [done|]. destruct (drain_event_facts _ _ _ _ Hp Hr He) as (H1 & H2 & H3).
    eapply took_inv; eauto; [by destruct more|]. destruct more, ev; cbn; done.
  - destruct Hr; constructor; cbn; auto; congruence.
Qed.

Lemma transfer_reached (t : T) s : given t = [] -> rtc transfer_step (new_transfer t) s -> transfer_inv s.
Proof.
  intros Hg Hr. assert (transfer_inv (new_transfer t)) as Hi.
  { constructor; cbn; auto. exists [], []. split_and!; try done. cbn. lia. }
  induction Hr as [|x y z Hs Hr IH] in Hi |- *; [done|]. eauto using transfer_step_inv.
Qed.

(** C34: Downloads and the session share the keyboard, over any terminal and however the goroutines, the reads' deadlines and the
    draining interleave: the events that the session, the library and the draining took are, in the order they were
    taken, the terminal's bytes (but one that the pump may still hold) and then the error that ended them; the library's
    calls of [Read] returned exactly the bytes that were taken for it, in order, no more than had room, and an error
    only together with no bytes: the deadline's, or the one that ended the input. *)
Theorem keyboard_is_shared (t : T) (s : transfer_sys T) :
  given t = [] -> rtc transfer_step (new_transfer t) s ->
  let ended := p_err (sy_pump (ts_in s)) in
  (exists bs rest, given (sy_term (ts_in s)) = bs ++ rest /\ (length rest <= 1)%nat /\ heard bs ended (ts_log s).*2)
  /\ bytes_of ULibrary (ts_log s) = concat ((fun r => snd (fst r)) <$> ts_reads s) ++ held (ts_keys s)
  /\ Forall (read_ok ended) (ts_reads s).
Proof.
  intros Hg Hr. destruct (transfer_reached t s Hg Hr) as [(bs & rest & H1 & H2 & _ & H4 & _) Hgot _ Hrs _ Hl]. split_and!; [|done..].
  exists bs, rest. by rewrite <-Hgot.
Qed.
End transfer_spec.

(** A client that answers with two bytes: the library reads one of them, and the other is drained. *)
Definition demo_transfer : transfer_sys ssh_input :=
  MkTransfer_sys
    (MkSys (MkIn (MkTerm 0 [] Reading None [] false [] 80 24 [] 0) [24; 79] [24; 79] []) newInputPump [Ok 24; Ok 79])
    (MkPort 100) KSession [(ULibrary, Ok 24); (UDrain, Ok 79)] [(2, [24], None)].

Lemma demo_transfer_reached : rtc transfer_step (new_transfer (new_ssh_input 0)) demo_transfer.
Proof.
  eapply rtc_l; [apply ts_below; [apply is_moves; apply (sm_read [24; 79] None); [reflexivity|vm_compute; discriminate]|done|by left]|].
  eapply rtc_l; [apply ts_below; [apply is_moves; apply sm_send; reflexivity|done|by left]|].
  eapply rtc_l; [apply ts_below; [apply (is_read _ (Ok 24)); [apply (sr_byte false); reflexivity|reflexivity]|done|by left]|].
  eapply rtc_l; [by apply ts_send|]. eapply rtc_l; [apply (ts_deadline _ _ _ _ _ 100)|].
  eapply rtc_l; [apply (ts_read _ _ _ _ 2 50); lia|]. eapply rtc_l; [by apply ts_event|]. eapply rtc_l; [by apply ts_default|].
  eapply rtc_l; [apply ts_returned|]. eapply rtc_l; [apply ts_sent|].
  eapply rtc_l; [apply ts_below; [apply (is_read _ (Ok 79)); [apply (sr_byte false); reflexivity|reflexivity]|done|by right]|].
  eapply rtc_l; [by apply ts_drain|]. eapply rtc_l; [apply ts_settled|]. apply rtc_refl.
Qed.

Lemma keyboard_is_shared_witness :
  given (new_ssh_input 0) = [] /\ rtc transfer_step (new_transfer (new_ssh_input 0)) demo_transfer
  /\ bytes_of ULibrary (ts_log demo_transfer) = concat ((fun r => snd (fst r)) <$> ts_reads demo_transfer) ++ held (ts_keys demo_transfer).
Proof.
  split; [reflexivity|]. split; [exact demo_transfer_reached|].
  exact (proj1 (proj2 (keyboard_is_shared (new_ssh_input 0) demo_transfer eq_refl demo_transfer_reached))).
Defined.

(** ** What [zmodemSend] reports *)

(** What the library said last about the bytes sent, and how the file ended. *)
Definition last_progress (cs : list callback) : Z :=
  foldl (fun n c => match c with CProgress m | CCompleted m _ => m | _ => n end) 0 cs.
Definition last_completed (cs : list callback) : option (option bytes) :=
  foldl (fun r c => match c with CCompleted _ e => Some e | _ => r end) None cs.

(** The transfer as the session's procedures see it: [FilesMenu]'s parameter. *)
Definition seen_transfer (takes : nat) (out : bytes) (cs : list callback) (err : option bytes) : Transfer :=
  MkTransfer takes out (last_progress cs) (last_completed cs) err.

Lemma call_backs_spec cs h :
  let '(files, h') := call_backs cs h in
  zo_sent h' = foldl (fun n c => match c with CProgress m | CCompleted m _ => m | _ => n end) (zo_sent h) cs
  /\ (if zo_done h' then Some (zo_err h') else None)
     = foldl (fun r c => match c with CCompleted _ e => Some e | _ => r end) (if zo_done h then Some (zo_err h) else None) cs
  /\ zo_offer h' = zo_offer h
  /\ files = if zo_given h then [] else if existsb (fun c => match c with CNext => true | _ => false end) cs then [zo_offer h] else [].
Proof.
  revert h. induction cs as [|c cs IH]; intros h; cbn [call_backs]; [cbn; by destruct (zo_given h)|].
  destruct (call_back c h) as [f h1] eqn:E. specialize (IH h1). destruct (call_backs cs h1) as [files h']. destruct IH as (H1 & H2 & H3 & H4).
  destruct h as [o g s e d]. destruct c; cbn in E; unfold NextFile in E; cbn in E.
  - destruct g; injection E as <- <-; cbn in *; subst files; split_and!; try done.
  - injection E as <- <-; cbn in *; split_and!; done.
  - injection E as <- <-; cbn in *; split_and!; done.
  - injection E as <- <-; cbn in *; split_and!; done.
Qed.

(** Telnet's [SetBinary], with an error as text. *)
Definition telnet_binary (on : bool) (c : Telnet.Conn) : option bytes * Telnet.Conn :=
  match Telnet.SetBinary on c with (Ok _, c) => (None, c) | (Err _, c) => (Some (str "write"), c) end.

Lemma send_result_spec cs o err :
  let '(_, h) := call_backs cs (MkOne o false 0 None false) in
  forall n out, send_result h err = transfer_error (seen_transfer n out cs err).
Proof.
  pose proof (call_backs_spec cs (MkOne o false 0 None false)) as H. destruct (call_backs cs _) as [files h]. destruct H as (_ & Hd & _). cbn [zo_done] in Hd.
  intros n out. unfold send_result, transfer_error, seen_transfer, last_completed. cbn [z_err z_done]. rewrite <-Hd. destruct err; [done|]. destruct (zo_done h); [by destruct (zo_err h)|done].
Qed.

(** A download over Telnet, whatever the library calls and does to the connection: the file is offered once at most; the
    report is of success only if [Send] returned without an error and said of the file, at last, that it was completed without one,
    which is what the session's procedures take it to report ([FilesMenu]); and afterwards the connection has left binary mode, unless the line
    was dead from the start. *)
Theorem download_reports (send : FileOffer -> Telnet.Conn -> list callback * option bytes * Telnet.Conn) (drain : Telnet.Conn -> Telnet.Conn)
    (name : bytes) (size mod_ : Z) (takes : nat) (out : bytes) (c : Telnet.Conn) :
  let offer := MkOffer name size mod_ 420 in
  let '(cs, err, _) := send offer (snd (telnet_binary true c)) in
  let '(sent, res, c') := zmodemSend (Some telnet_binary) send drain name size mod_ c in
  fst (call_backs cs (newOne name size mod_)) `prefix_of` [offer]
  /\ (if Telnet.broken c then (sent, res) = (0, Some (str "write"))
      else let z := seen_transfer takes out cs err in
           (sent, res) = (z_sent z, transfer_error z)
           /\ (res = None <-> err = None /\ last_completed cs = Some None)
           /\ Telnet.binary c' = false).
Proof.
  cbv zeta. destruct (send _ _) as [[cs err] c1] eqn:Es. unfold zmodemSend. unfold telnet_binary at 1, Telnet.SetBinary, Telnet.writeRaw. cbn [Telnet.broken Telnet.set_binary].
  pose proof (call_backs_spec cs (newOne name size mod_)) as Hc. pose proof (send_result_spec cs (MkOffer name size mod_ 420) err) as Hr.
  destruct (Telnet.broken c) eqn:Eb.
  - split; [|done]. destruct (call_backs cs _) as [files h]. destruct Hc as (_ & _ & _ & ->). cbn. destruct (existsb _ _); [done|apply prefix_nil].
  - unfold telnet_binary, Telnet.SetBinary, Telnet.writeRaw in Es. cbn [Telnet.broken Telnet.set_binary] in Es. rewrite Eb in Es. cbn [snd] in Es.
    change (zo_offer (newOne name size mod_)) with (MkOffer name size mod_ 420). rewrite Es. unfold newOne in *.
    destruct (call_backs cs _) as [files h]. destruct Hc as (H1 & H2 & _ & ->). cbn [fst zo_given newOne].
    split; [destruct (existsb _ _); [done|apply prefix_nil]|]. rewrite (Hr takes out). split_and!; [by f_equal| |].
    + unfold transfer_error. cbn. destruct err as [e|]; [naive_solver|]. destruct (last_completed cs) as [[e|]|]; naive_solver.
    + unfold telnet_binary, Telnet.SetBinary, Telnet.writeRaw. cbn. by destruct (Telnet.broken (drain c1)).
Qed.
