(* ===== verification/Settings.v ===== *)
(** * The caller's account: [internal/bbs/settings.go], [sshkeys.go], and the email dialogues of [email.go]

    The package [golang.org/x/crypto/ssh], which reads a public key, is a parameter. *)

From Stdlib Require Import Ascii String ZArith Lia.
From stdpp Require Import base tactics list gmap strings.
From S2P Require Import Prelude GoStrings GoTime GoFiles Term StoreDB StoreUsers StoreMail StoreBoards Limits Nodes Mailer Server Ui Session Editor Screens Login.
Open Scope Z_scope.

(** A public key as the code uses it: its type, the size of its modulus if it is a readable RSA key, its fingerprint
    and the line [MarshalAuthorizedKey] writes. *)
Record PublicKey := MkPublicKey { pk_type : bytes; pk_rsa_bits : option Z; pk_fingerprint : bytes; pk_line : bytes }.

Class SSHLib := { ParseAuthorizedKey : bytes -> option (PublicKey * bytes) }.   (* the key and its comment *)

Definition maxKeyLineLen : Z := 2000.
Definition minRSABits : Z := 2048.

Section settings.
Context `{UnicodeTables} `{Crypto} `{MailParser} `{FoldTables} `{BBS} `{SSHLib}.

(** ** settings.go *)

Definition terminalName : M bytes :=
  cs ← get se_cs; c ← color_;
  mret (Charset_String cs ++ (if c : bool then str " + ANSI color" else str ", no color")).

(** The password, if it was typed twice the same. *)
Definition askPasswordTwice (label : bytes) : M (option bytes) :=
  next ← promptSecret (str "|07" ++ label ++ str "|08: |15") MaxPasswordLen;
  again ← promptSecret (str "|07" ++ label ++ str " again|08: |15") MaxPasswordLen;
  if negb (bool_decide (next = again)) then _ ← print (colAlert ++ str "Passwords don't match." ++ nl); _ ← pause; mret None
  else mret (Some next).

Definition changePassword : M unit :=
  cur ← promptSecret (nl ++ str "|07Current password|08: |15") MaxPasswordLen;
  if bool_decide (cur = []) then mret tt
  else
    next ← askPasswordTwice (str "New password");
    match next with
    | None => mret tt
    | Some next =>
        u ← me;
        salt ← lift (fresh rand_salt);
        r ← lift (store_op (fun _ => ChangePassword store_cfg salt (u_id u) cur next));
        match r with
        | Err ErrBadCredentials => _ ← print (colAlert ++ str "Current password is incorrect." ++ nl); pause
        | Err e => reportError e
        | Ok _ => _ ← print (colOK ++ str "Password changed." ++ nl); pause
        end
    end.

Definition changeLocation : M unit :=
  loc ← prompt (nl ++ str "|07New location|08: |15") MaxLocationLen;
  u ← me;
  r ← lift (store_op (fun _ => SetLocation (u_id u) loc));
  match r with
  | Err e => reportError e
  | Ok u => _ ← modify (with_user u); sess_setUser u
  end.

Definition applyBlock (block : bool) (handle : bytes) : M unit :=
  r ← lift (store_get (UserByHandle (trim_space handle)));
  match r with
  | Err e => reportError e
  | Ok other =>
      u ← me;
      if block then
        r ← lift (store_op (fun _ => Block (u_id u) (u_id other)));
        match r with Err e => reportError e | Ok _ => mret tt end
      else lift (store_do (fun _ db => (tt, Unblock (u_id u) (u_id other) db)))
  end.

Definition manageBlocks : M unit :=
  loop (fun _ : unit =>
    _ ← show_header (str "Blocked Callers");
    u ← me;
    blocked_ ← lift (store_get (BlockedUsers (u_id u)));
    _ ← show_box (str "Blocked")
          ([colDim ++ str "Blocked callers can't mail or page you, and you won't see them in chat."; separator]
           ++ (if bool_decide (blocked_ = []) then [colLabel ++ str "Nobody is blocked."] else [])
           ++ ((fun u => colHandle ++ safe (u_handle u)) <$> blocked_));
    k ← actionPrompt [] [str "Block"; str "Unblock"; str "Quit"];
    if k =? ch "Q" then mret (inr tt)
    else
      h ← prompt (str " |07Handle|08: |15") MaxHandleLen;
      _ ← (if bool_decide (h = []) then mret tt else applyBlock (k =? ch "B") h);
      mret (inl tt)) tt.

Definition emailNote : M bytes :=
  on ← lift emailEnabled;
  u ← me;
  mret (if negb on then str "not available"
        else if bool_decide (u_email u = []) then str "not set"
        else u_email u ++ str ", " ++ EmailMode_String (u_mode u)).

(** ** sshkeys.go *)

(** [parseSSHKey]: weak types are refused. *)
Definition parseSSHKey (line : bytes) : result store_error (PublicKey * bytes) :=
  match ParseAuthorizedKey (trim_space line) with
  | None => Err (InputError (str "That doesn't look like a public key (it starts with ssh-ed25519, ssh-rsa, ...)."))
  | Some (key, comment) =>
      if bool_decide (pk_type key = str "ssh-dss") then Err (InputError (str "DSA keys are too weak. Use ed25519 instead."))
      else if bool_decide (pk_type key = str "ssh-rsa") then
        match pk_rsa_bits key with
        | Some n => if n <? minRSABits then Err (InputError (str "RSA keys must be at least 2048 bits. ed25519 is better still.")) else Ok (key, comment)
        | None => Err (InputError (str "RSA keys must be at least 2048 bits. ed25519 is better still."))
        end
      else Ok (key, comment)
  end.

Definition addSSHKey : M unit :=
  line ← prompt (str "|07Public key|08: |15") maxKeyLineLen;
  if bool_decide (line = []) then mret tt
  else
    match parseSSHKey line with
    | Err e => reportError e
    | Ok (key, comment) =>
        u ← me;
        r ← lift (store_op (fun now => AddSSHKey now (u_id u) (pk_fingerprint key) (trim_space (pk_line key)) comment));
        match r with
        | Err e => reportError e
        | Ok k => w ← width; _ ← print (colOK ++ str "Key added: " ++ safe (Truncate (k_fingerprint k) (w - 12)) ++ nl); pause
        end
    end.

Definition removeSSHKey (keys : list KeyRow) : M unit :=
  if bool_decide (keys = []) then mret tt
  else
    pick ← pickNumber (len keys) (str "Remove key");
    match pick ≫= (fun n => keys !! Z.to_nat (n - 1)) with
    | None => mret tt
    | Some k =>
        u ← me;
        r ← lift (store_op (fun _ => DeleteSSHKey (u_id u) (k_id k)));
        match r with Err e => reportError e | Ok _ => mret tt end
    end.

Definition manageSSHKeys : M unit :=
  loop (fun _ : unit =>
    u ← me;
    keys ← lift (store_get (SSHKeys (u_id u)));
    _ ← show_header (str "SSH Keys");
    _ ← show_box (str "Your keys (" ++ itoa (len keys) ++ str " of " ++ itoa MaxSSHKeys ++ str ")")
          ([colDim ++ str "With a key here, ssh signs you in without a password. Paste the";
            colDim ++ str "contents of " ++ colLabel ++ str "~/.ssh/id_ed25519.pub" ++ colDim ++ str " (never the private key).";
            separator]
           ++ (if bool_decide (keys = []) then [colLabel ++ str "No keys yet."] else [])
           ++ ((fun '(i, k) => colValue ++ itoa i ++ str "  " ++ colLabel ++ safe (k_fingerprint k) ++ str " " ++ colDim ++ safe (k_comment k))
               <$> numbered keys));
    k ← actionPrompt [] (if bool_decide (keys = []) then [str "Add"; str "Quit"] else [str "Add"; str "Remove"; str "Quit"]);
    if k =? ch "Q" then mret (inr tt)
    else _ ← (if k =? ch "A" then addSSHKey else removeSSHKey keys); mret (inl tt)) tt.

(** ** email.go: the dialogues *)

Definition code_email (u : UserRow) (addr code : bytes) : Mailer.Message :=
  MkMail (trim_space addr) (str "Your " ++ cfg_Name ++ str " code: " ++ code)
    (str "Someone (hopefully you, " ++ u_handle u ++ str ") asked to use this address on " ++ cfg_Name ++ str "." ++ nl ++ nl
     ++ str "Your code is " ++ code ++ str ". It works for " ++ itoa (EmailCodeTTL / minute_ns) ++ str " minutes." ++ nl ++ nl
     ++ str "If this wasn't you, ignore this email and nothing will happen." ++ replyFooter).

Definition verifyEmailCode : M unit :=
  code ← prompt (str "|07Code from the email |08(Enter = later)|07: |15") 10;
  if bool_decide (code = []) then mret tt
  else
    u ← me;
    r ← lift (store_do (fun now => ConfirmEmail now (u_id u) code));
    match r with
    | Err (InputError msg) => _ ← print (colAlert ++ safe msg ++ nl); pause
    | Err e => reportError e
    | Ok u =>
        _ ← modify (with_user u);
        _ ← print (colOK ++ str "Verified! You'll get a short notice when new mail arrives while you're away." ++ nl);
        pause
    end.

Definition setEmailAddress : M unit :=
  addr ← prompt (nl ++ str "|07Email address|08: |15") MaxEmailLen;
  if bool_decide (addr = []) then mret tt
  else
    match ValidateEmail addr with
    | Err e => reportError e
    | Ok _ =>
        u ← me;
        let key := userKey (u_id u) in
        let target := str "email:" ++ to_lower (trim_space addr) in
        b1 ← lift (limit_blocked emailVerify key);
        b2 ← (if b1 : bool then mret true else lift (limit_blocked emailTarget target));
        if b2 : bool then _ ← print (colAlert ++ str "Enough codes have gone out for now. Try again later." ++ nl); pause
        else
          n ← lift (fresh (fun i => rand_code i mod emailCodeUpperBound));
          r ← lift (store_op (fun now => StartEmailVerification now n (u_id u) addr));
          match r with
          | Err e => reportError e
          | Ok code =>
              _ ← lift (limit_hit emailVerify key);
              _ ← lift (limit_hit emailTarget target);
              ok ← lift (sendEmail (code_email u addr code));
              if negb ok then _ ← print (colAlert ++ str "The mail system is busy. Try again in a few minutes." ++ nl); pause
              else _ ← print (colOK ++ str "A code is on its way to " ++ safe (trim_space addr) ++ str "." ++ nl); verifyEmailCode
          end
    end.

Definition chooseEmailMode : M unit :=
  _ ← print (nl ++ str "  " ++ colBright ++ str "1" ++ colLabel ++ str ") Off" ++ nl ++ str "  " ++ colBright ++ str "2" ++ colLabel
             ++ str ") Notice only " ++ colDim ++ str "(who wrote and the subject, when you're offline)" ++ nl ++ str "  " ++ colBright ++ str "3"
             ++ colLabel ++ str ") Full copy of each message" ++ nl);
  _ ← print (str "|07Choice|08: |15");
  k ← choose (str "123");
  u ← me;
  r ← lift (store_op (fun _ => SetEmailMode (u_id u) (k - ch "1")));
  match r with Err e => reportError e | Ok u => modify (with_user u) end.

Definition removeEmail : M unit :=
  ok ← yesNo (str "Forget your email address?") false;
  if negb ok then mret tt
  else
    u ← me;
    r ← lift (store_do (fun _ => RemoveEmail (u_id u)));
    match r with Err e => reportError e | Ok u => modify (with_user u) end.

Definition email_lines (u : UserRow) (pending : option bytes) : list bytes :=
  [colInfo ++ str "Address  " ++ colBorder ++ str ": "
   ++ (if bool_decide (u_email u = []) then colDim ++ str "not set" else colBright ++ safe (u_email u) ++ colOK ++ str "  (verified)")]
  ++ match pending with
     | Some a => [colInfo ++ str "Waiting  " ++ colBorder ++ str ": " ++ colValue ++ safe a ++ str " " ++ colDim ++ str "(check your inbox for the code)"]
     | None => []
     end
  ++ [colInfo ++ str "New mail " ++ colBorder ++ str ": " ++ colLabel ++ EmailMode_String (u_mode u);
      separator;
      colDim ++ str "We only email you, and only about mail sent to you here.";
      colDim ++ str "Other callers never see your address."].

Definition emailSettings : M unit :=
  loop (fun _ : unit =>
    _ ← refreshUser;
    _ ← show_header (str "Email");
    stop ← awaitingApproval (str "Email");
    if stop : bool then mret (inr tt)
    else
      on ← lift emailEnabled;
      if negb on then
        _ ← print (nl ++ str "  " ++ colDim ++ str "This BBS has no mail server set up, so email is off." ++ nl ++ nl); _ ← pause; mret (inr tt)
      else
        u ← me;
        pending ← lift (atom (fun s => (PendingEmail (sv_now s) (u_id u) (sv_db s), s)));
        _ ← show_box (str "Email") (email_lines u pending);
        let words := [str "Set address"] ++ (if bool_decide (is_Some pending) then [str "Verify code"] else [])
                     ++ (if bool_decide (u_email u = []) then [] else [str "New-mail email"; str "Remove address"]) ++ [str "Quit"] in
        _ ← show_actions words;
        k ← choose (keysOf words);
        if k =? ch "Q" then mret (inr tt)
        else
          _ ← (if k =? ch "S" then setEmailAddress
               else if k =? ch "V" then verifyEmailCode
               else if k =? ch "N" then chooseEmailMode
               else if k =? ch "R" then removeEmail
               else mret tt);
          mret (inl tt)) tt.

(** ** The settings menu *)

Definition settings_items (u : UserRow) (terminal email : bytes) (blocked_ : Z) : list menuItem :=
  let loc := if bool_decide (u_location u = []) then str "not set" else u_location u in
  [MkItem (ch "P") (str "Change password") [];
   MkItem (ch "L") (str "Location") (colDim ++ str "(" ++ safe loc ++ str ")");
   MkItem (ch "T") (str "Terminal") (colDim ++ str "(" ++ terminal ++ str ")");
   MkItem (ch "B") (str "Blocked callers") (colDim ++ str "(" ++ plural blocked_ (str "caller") ++ str ")");
   MkItem (ch "E") (str "Email") (colDim ++ str "(" ++ email ++ str ")");
   MkItem (ch "K") (str "SSH keys") (colDim ++ str "(sign in without a password)");
   MkItem (ch "Q") (str "Back to main menu") []].

Definition settings : M unit :=
  loop (fun _ : unit =>
    _ ← sess_setActivity (str "Settings");
    _ ← show_header (str "Settings");
    _ ← print nl;
    u ← me;
    blocked_ ← lift (store_get (BlockedUsers (u_id u)));
    terminal ← terminalName;
    email ← emailNote;
    _ ← show_menu (str "Your account") (settings_items u terminal email (len blocked_));
    k ← menuPrompt (str "Settings") (str "PLTBEKQ");
    if k =? ch "Q" then mret (inr tt)
    else
      _ ← (if k =? ch "P" then changePassword
           else if k =? ch "L" then changeLocation
           else if k =? ch "T" then chooseTerminal true
           else if k =? ch "B" then manageBlocks
           else if k =? ch "E" then emailSettings
           else if k =? ch "K" then manageSSHKeys
           else mret tt);
      mret (inl tt)) tt.
End settings.
