(* ===== verification/SysopMenu.v ===== *)
(** * The sysop's menus: [internal/bbs/sysop.go], [sysop_users.go], and the queue of new callers of [approval.go]

    Every action reloads the account first ([requireSysop]), acts through the store, and is recorded ([audit]). *)

From Stdlib Require Import Ascii String ZArith Lia.
From stdpp Require Import base tactics list gmap strings.
From S2P Require Import Prelude GoStrings GoTime GoFiles Term StoreDB StoreUsers StoreMail StoreBoards Limits Nodes Mailer Server Ui Session Editor Screens Login Compose Community Settings.
Open Scope Z_scope.

Definition eventLogSize : Z := 200.
Definition sysopOnelinerList : Z := 30.

Section sysop.
Context `{UnicodeTables} `{Crypto} `{MailParser} `{FoldTables} `{BBS}.

(** ** sysop.go *)

(** Whether the caller is still a sysop. *)
Definition sess_requireSysop : M bool :=
  _ ← refreshUser;
  u ← me;
  if negb (u_sysop u) then _ ← print (colAlert ++ str "You are no longer a sysop." ++ nl); _ ← pause; mret false
  else mret true.

Definition audit (detail : bytes) : M unit := u ← me; c ← caller; lift (event EventSysop (u_id u) (u_handle u) (ca_ip c) detail).

Definition sysopKick : M unit :=
  _ ← show_header (str "Kick a Node");
  _ ← showWho;
  ans ← prompt (nl ++ str "|07Node # |08(Enter = cancel)|07: |15") 4;
  if bool_decide (ans = []) then mret tt
  else
    let '(nodeID, isNum) := atoi ans in
    c ← caller;
    if negb isNum then _ ← print (colAlert ++ str "That's not a node number." ++ nl); pause
    else if nodeID =? ca_node c then _ ← print (colAlert ++ str "That's you. Use Goodbye instead." ++ nl); pause
    else
      ok ← yesNo (str "Disconnect node " ++ itoa nodeID ++ str "?") false;
      if negb ok then mret tt
      else
        found ← lift (nodes_kick nodeID (str "*** You have been disconnected by the sysop. ***"));
        if negb found then _ ← print (colAlert ++ str "No such node." ++ nl); pause
        else
          _ ← audit (str "kicked node " ++ itoa nodeID);
          _ ← print (colOK ++ str "Node " ++ itoa nodeID ++ str " disconnected." ++ nl);
          pause.

Definition sysopBroadcast : M unit :=
  msg ← prompt (nl ++ str "|07Broadcast |08(Enter = cancel)|07: |15") maxBroadcastLen;
  if bool_decide (msg = []) then mret tt
  else
    u ← me; c ← caller;
    _ ← lift (nodes_broadcast (str "Sysop " ++ u_handle u ++ str ": " ++ StripControl msg) (ca_node c));
    _ ← audit (str "broadcast " ++ fmt_q msg);
    _ ← print (colOK ++ str "Sent to everyone online." ++ nl);
    pause.

Definition event_rows (w : Z) (e : EventRow) : list bytes :=
  let color :=
    if bool_decide (e_kind e = EventLoginFailed) || bool_decide (e_kind e = EventLocked) then colAlert
    else if bool_decide (e_kind e = EventSysop) then colSysop else colLabel in
  [colInfo ++ Pad (month_day (e_at e) ++ str " " ++ hour_minute (e_at e)) 12 ++ str " " ++ color ++ Pad (e_kind e) 13 ++ str " "
   ++ colHandle ++ safe (Pad (e_handle e) 16) ++ str " " ++ colDim ++ safe (e_ip e)]
  ++ (if bool_decide (e_detail e = []) then [] else [colDim ++ spaces 13 ++ safe (Truncate (e_detail e) (inner w - 13))]).

Definition sysopEventLog : M unit :=
  _ ← show_header (str "Event Log");
  es ← lift (store_get (Events [] eventLogSize));
  w ← width;
  _ ← show_table (str "Newest first") (Pad (str "When") 12 ++ str " " ++ Pad (str "What") 13 ++ str " " ++ Pad (str "Who") 16 ++ str " From")
        (es ≫= event_rows w) (str "Nothing has happened yet.");
  pause.

Definition createBoard : M unit :=
  name ← prompt (str "|07Board name|08: |15") MaxBoardNameLen;
  if bool_decide (name = []) then mret tt
  else
    desc ← prompt (str "|07Description|08: |15") MaxBoardDescLen;
    sysopOnly ← yesNo (str "Only sysops may post?") false;
    u ← me;
    r ← lift (store_op (fun now => CreateBoard now (u_id u) name desc sysopOnly));
    match r with
    | Err e => reportError e
    | Ok b => audit (str "created board " ++ fmt_q (b_name b))
    end.

Definition deleteBoard (bs : list BoardSummary) : M unit :=
  pick ← pickNumber (len bs) (str "Delete board");
  match pick ≫= (fun n => bs !! Z.to_nat (n - 1)) with
  | None => mret tt
  | Some b =>
      sure ← yesNo (str "Delete " ++ safe (b_name (s_board b)) ++ str " and its " ++ plural (s_posts b) (str "post") ++ str "?") false;
      if negb sure then mret tt
      else
        u ← me;
        r ← lift (store_op (fun _ => DeleteBoard (u_id u) (b_id (s_board b))));
        match r with
        | Err e => reportError e
        | Ok _ => audit (str "deleted board " ++ fmt_q (b_name (s_board b)))
        end
  end.

Definition sysop_board_row (i : Z) (b : BoardSummary) : bytes :=
  colValue ++ fmt_d 4 i ++ str "  " ++ colHandle ++ safe (Pad (b_name (s_board b)) 24) ++ str " "
  ++ colLabel ++ Pad (plural (s_posts b) (str "post")) 12 ++ str " "
  ++ (if b_sysop_only (s_board b) then colSysop ++ str "sysops only" else colDim ++ str "everyone").

Definition sysopBoards : M unit :=
  loop (fun _ : unit =>
    u ← me;
    bs ← lift (store_get (Boards (u_id u)));
    _ ← show_header (str "Manage Boards");
    _ ← show_table (plural (len bs) (str "board"))
          (lpad 4 (str "#") ++ str "  " ++ Pad (str "Board") 24 ++ str " " ++ Pad (str "Posts") 12 ++ str " Who posts")
          ((fun '(i, b) => sysop_board_row i b) <$> numbered bs) (str "No boards yet. Press C to create one.");
    k ← actionPrompt [] (if bool_decide (bs = []) then [str "Create"; str "Quit"] else [str "Create"; str "Delete"; str "Quit"]);
    if k =? ch "Q" then mret (inr tt)
    else
      ok ← sess_requireSysop;
      if negb ok then mret (inr tt)
      else _ ← (if k =? ch "C" then createBoard else deleteBoard bs); mret (inl tt)) tt.

Definition addBulletin : M unit :=
  title ← prompt (str "|07Title|08: |15") MaxSubjectLen;
  if bool_decide (title = []) then mret tt
  else
    body ← editor [];
    match body with
    | None => mret tt
    | Some body =>
        u ← me;
        r ← lift (store_op (fun now => AddBulletin now (u_id u) title body));
        match r with
        | Err e => reportError e
        | Ok b =>
            _ ← audit (str "posted bulletin " ++ fmt_q (bu_title b));
            c ← caller;
            lift (nodes_broadcast (str "News: " ++ bu_title b) (ca_node c))
        end
    end.

Definition deleteBulletin (bs : list BulletinRow) : M unit :=
  pick ← pickNumber (len bs) (str "Delete bulletin");
  match pick ≫= (fun n => bs !! Z.to_nat (n - 1)) with
  | None => mret tt
  | Some b =>
      u ← me;
      r ← lift (store_op (fun _ => DeleteBulletin (u_id u) (bu_id b)));
      match r with
      | Err e => reportError e
      | Ok _ => audit (str "deleted bulletin " ++ fmt_q (bu_title b))
      end
  end.

Definition sysopNews : M unit :=
  loop (fun _ : unit =>
    bs ← lift (store_get Bulletins);
    _ ← show_header (str "Manage News");
    _ ← bulletinTable bs (str "No bulletins yet. Press A to post the first one.");
    k ← actionPrompt [] (if bool_decide (bs = []) then [str "Add"; str "Quit"] else [str "Add"; str "Delete"; str "Quit"]);
    if k =? ch "Q" then mret (inr tt)
    else
      ok ← sess_requireSysop;
      if negb ok then mret (inr tt)
      else _ ← (if k =? ch "A" then addBulletin else deleteBulletin bs); mret (inl tt)) tt.

Definition sysop_oneliner_row (i : Z) (o : OnelinerRow * bytes) : bytes :=
  colValue ++ fmt_d 4 i ++ str "  " ++ colHandle ++ safe (Pad (snd o) onelinerAuthorPad) ++ str " " ++ colLabel ++ safe (o_text (fst o)).

Definition sysopOneliners : M unit :=
  loop (fun _ : unit =>
    ls ← lift (store_get (Oneliners sysopOnelinerList));
    _ ← show_header (str "Manage Oneliners");
    _ ← show_table (str "The wall") [] ((fun '(i, o) => sysop_oneliner_row i o) <$> numbered ls) (str "The wall is empty.");
    if bool_decide (ls = []) then _ ← pause; mret (inr tt)
    else
      pick ← pickNumber (len ls) (str "Delete oneliner");
      match pick ≫= (fun n => ls !! Z.to_nat (n - 1)) with
      | None => mret (inr tt)
      | Some o =>
          ok ← sess_requireSysop;
          if negb ok then mret (inr tt)
          else
            u ← me;
            r ← lift (store_op (fun _ => DeleteOneliner (u_id u) (o_id (fst o))));
            match r with
            | Err e => _ ← reportError e; mret (inr tt)
            | Ok _ => _ ← audit (str "deleted oneliner by " ++ snd o ++ str ": " ++ fmt_q (o_text (fst o))); mret (inl tt)
            end
      end) tt.

(** ** sysop_users.go *)

Definition approvedText (ok : bool) : bytes := if ok then colLabel ++ str "yes" else colAlert ++ str "NOT YET".

Definition flag (on : bool) (yes : bytes) : bytes := if on then colAlert ++ yes else colDim ++ str "no".

Definition account_rows (u : UserRow) (on unread : Z) : list (bytes * bytes) :=
  [(str "Handle", colBright ++ safe (u_handle u)); (str "Location", colLabel ++ safe (u_location u));
   (str "Joined", colLabel ++ longDate (u_created u)); (str "Last call", colLabel ++ longDate (u_last u));
   (str "Calls", colValue ++ itoa (u_calls u)); (str "Unread", colValue ++ itoa unread); (str "Online", colValue ++ plural on (str "node"));
   (str "Sysop", flag (u_sysop u) (str "yes")); (str "Locked", flag (u_locked u) (str "LOCKED")); (str "Approved", approvedText (u_validated u))].

Definition showAccount (u : UserRow) : M unit :=
  _ ← show_header (str "User: " ++ u_handle u);
  on ← lift nodes_online;
  unread ← lift (store_get (UnreadCount (u_id u)));
  show_box (str "Account")
    ((fun '(k, v) => colInfo ++ rpad 10 k ++ colBorder ++ str ": " ++ v) <$> account_rows u (len (filter (fun n => ni_user n = u_id u) on)) unread).

Definition sysopResetPassword (u : UserRow) : M unit :=
  _ ← print nl;
  pw ← askPasswordTwice (str "New password for " ++ safe (u_handle u));
  match pw with
  | None => mret tt
  | Some pw =>
      me_ ← me;
      salt ← lift (fresh rand_salt);
      r ← lift (store_op (fun _ => ResetPassword store_cfg salt (u_id me_) (u_id u) pw));
      match r with
      | Err e => reportError e
      | Ok _ =>
          _ ← audit (str "reset password of " ++ u_handle u);
          _ ← print (colOK ++ str "Password reset." ++ nl);
          pause
      end
  end.

Definition sysopToggleLock (u : UserRow) : M unit :=
  ok ← yesNo ((if u_locked u then str "Unlock " else str "Lock ") ++ safe (u_handle u) ++ str "?") false;
  if negb ok then mret tt
  else
    me_ ← me;
    r ← lift (store_op (fun _ => SetLocked (u_id me_) (u_id u) (negb (u_locked u))));
    match r with
    | Err e => reportError e
    | Ok _ =>
        _ ← (if u_locked u then mret tt else _ ← lift (nodes_kickUser (u_id u) locked_msg); mret tt);
        audit ((if u_locked u then str "unlocked " else str "locked ") ++ u_handle u)
    end.

Definition sysopToggleSysop (u : UserRow) : M unit :=
  ok ← yesNo (if u_sysop u then str "Remove " ++ safe (u_handle u) ++ str "'s sysop rights?" else str "Make " ++ safe (u_handle u) ++ str " a sysop?") false;
  if negb ok then mret tt
  else
    me_ ← me;
    r ← lift (store_op (fun _ => SetSysop (u_id me_) (u_id u) (negb (u_sysop u))));
    match r with
    | Err e => reportError e
    | Ok _ => audit (if u_sysop u then str "demoted " ++ u_handle u else str "promoted " ++ u_handle u ++ str " to sysop")
    end.

(** Whether the account is gone.  The caller is hung up before the store is asked. *)
Definition sysopDeleteUser (u : UserRow) : M bool :=
  _ ← print (nl ++ colAlert ++ str "This deletes " ++ safe (u_handle u) ++ str " and their inbox for good." ++ colLabel ++ nl);
  confirm ← prompt (str "|07Type the handle to confirm|08: |15") MaxHandleLen;
  if negb (bool_decide (confirm = u_handle u)) then _ ← print (colDim ++ str "Not deleted." ++ nl); _ ← pause; mret false
  else
    _ ← lift (nodes_kickUser (u_id u) removed_msg);
    me_ ← me;
    r ← lift (store_op (fun _ => DeleteUser (u_id me_) (u_id u)));
    match r with
    | Err e => _ ← reportError e; mret false
    | Ok _ =>
        _ ← audit (str "deleted user " ++ u_handle u);
        _ ← print (colOK ++ safe (u_handle u) ++ str " deleted." ++ nl);
        _ ← pause; mret true
    end.

Definition sysop_words (self : bool) (u : UserRow) : list bytes :=
  [str "Mail"; str "Password"]
  ++ (if self then []
      else [if u_locked u then str "Lock off" else str "Lock"; if u_sysop u then str "Sysop rights off" else str "Sysop rights"; str "Delete"])
  ++ [str "Quit"].

Definition sysopUser (id : Z) : M unit :=
  loop (fun _ : unit =>
    r ← lift (store_get (UserByID id));
    match r with
    | Err e => _ ← reportError e; mret (inr tt)
    | Ok u =>
        _ ← showAccount u;
        me_ ← me;
        let words := sysop_words (u_id u =? u_id me_) u in
        _ ← show_actions words;
        k ← choose (keysOf words);
        if k =? ch "Q" then mret (inr tt)
        else
          ok ← sess_requireSysop;
          if negb ok then mret (inr tt)
          else if k =? ch "D" then deleted ← sysopDeleteUser u; mret (if deleted : bool then inr tt else inl tt)
          else
            _ ← (if k =? ch "M" then compose (MkDraft [u] [] 0 [])
                 else if k =? ch "P" then sysopResetPassword u
                 else if k =? ch "L" then sysopToggleLock u
                 else if k =? ch "S" then sysopToggleSysop u
                 else mret tt);
            mret (inl tt)
    end) tt.

Definition sysopPickUser : M unit :=
  loop (fun _ : unit =>
    h ← prompt (nl ++ str "|07Handle |08(|15?|08 = list, Enter = back)|07: |15") MaxHandleLen;
    if bool_decide (h = []) then mret (inr tt)
    else if bool_decide (h = str "?") then _ ← compactUserList; mret (inl tt)
    else
      r ← lift (store_get (UserByHandle h));
      match r with
      | Err e => _ ← reportError e; mret (inl tt)
      | Ok u => _ ← sysopUser (u_id u); mret (inr tt)
      end) tt.

(** ** approval.go *)

Definition approve_words : list bytes := [str "Approve"; str "Reject and delete"; str "Mail them"; str "Skip"].

Definition reviewCaller (u : UserRow) : M unit :=
  _ ← showAccount u;
  _ ← show_actions approve_words;
  k ← choose (str "ARMS");
  if k =? ch "S" then mret tt
  else
    ok ← sess_requireSysop;
    if negb ok then mret tt
    else if k =? ch "A" then
      me_ ← me;
      r ← lift (store_op (fun _ => ValidateUser (u_id me_) (u_id u)));
      match r with
      | Err e => reportError e
      | Ok _ =>
          _ ← audit (str "approved " ++ u_handle u);
          _ ← lift (nodes_notify (u_id u) (str "A sysop approved your account. Welcome in!")); mret tt
      end
    else if k =? ch "R" then _ ← sysopDeleteUser u; mret tt
    else if k =? ch "M" then compose (MkDraft [u] [] 0 [])
    else mret tt.

Definition pending_row (now i : Z) (u : UserRow) : bytes :=
  colValue ++ fmt_d 4 i ++ str "  " ++ colHandle ++ safe (Pad (u_handle u) 20) ++ str " " ++ colLabel ++ safe (Pad (u_location u) 22) ++ str " "
  ++ colInfo ++ ago now (u_created u).

Definition sysopApprovals : M unit :=
  loop (fun _ : unit =>
    us ← lift (store_get PendingUsers);
    _ ← show_header (str "New Callers");
    now ← lift now_;
    _ ← show_table (str "Waiting for approval")
          (lpad 4 (str "#") ++ str "  " ++ Pad (str "Handle") 20 ++ str " " ++ Pad (str "Location") 22 ++ str " Signed up")
          ((fun '(i, u) => pending_row now i u) <$> numbered us) (str "Nobody is waiting for approval.");
    if bool_decide (us = []) then _ ← pause; mret (inr tt)
    else
      pick ← pickNumber (len us) (str "Review caller");
      match pick ≫= (fun n => us !! Z.to_nat (n - 1)) with
      | None => mret (inr tt)
      | Some u => _ ← reviewCaller u; mret (inl tt)
      end) tt.

Definition sysopMenu : M unit :=
  loop (fun _ : unit =>
    ok ← sess_requireSysop;
    if negb ok then mret (inr tt)
    else
      _ ← sess_setActivity (str "Sysop menu");
      _ ← show_header (str "Sysop Menu");
      note ← pendingNote;
      on ← lift nodes_online;
      _ ← show_menuColumns (str "Callers")
            [MkItem (ch "V") (str "New callers") note; MkItem (ch "U") (str "Manage a user") [];
             MkItem (ch "K") (str "Kick a node") (colDim ++ str "(" ++ itoa (len on) ++ str " online)");
             MkItem (ch "B") (str "Broadcast") (colDim ++ str "(to everyone)"); MkItem (ch "E") (str "Event log") []]
            (str "Content")
            [MkItem (ch "M") (str "Message boards") []; MkItem (ch "N") (str "News bulletins") []; MkItem (ch "O") (str "Oneliner wall") [];
             MkItem (ch "A") (str "Custom art") (colDim ++ str "(preview)")];
      c ← color_;
      _ ← print (nl ++ keyBar c [MkItem (ch "Q") (str "Back to main menu") []] ++ nl);
      k ← menuPrompt (str "Sysop") (str "VUKBEMNOAQ");
      if k =? ch "Q" then mret (inr tt)
      else
        _ ← (if k =? ch "V" then sysopApprovals
             else if k =? ch "U" then sysopPickUser
             else if k =? ch "K" then sysopKick
             else if k =? ch "B" then sysopBroadcast
             else if k =? ch "E" then sysopEventLog
             else if k =? ch "M" then sysopBoards
             else if k =? ch "N" then sysopNews
             else if k =? ch "O" then sysopOneliners
             else if k =? ch "A" then sysopArt
             else mret tt);
        mret (inl tt)) tt.
End sysop.
