(* ===== verification/Doors.v ===== *)
(** * External programs: [internal/doors]: the configuration, the drop files, the placeholders and the standard error

    Starting the program and copying bytes to and from it are the operating system's; [DoorsMenu] has the dialogue.
    The theorems: a validated configuration is well-formed and validating it again changes nothing; a drop file has
    one line per value whatever the caller's handle and location are, and no password; the program's standard error
    is kept up to the limit. *)

From Stdlib Require Import Ascii String ZArith Lia.
From stdpp Require Import base tactics list gmap strings.
From S2P Require Import Prelude GoStrings GoTime GoFiles Term StoreDB Server.
From S2P Require FtnAddr FtnOutbound.
Open Scope Z_scope.

(** ** config.go *)

Definition IOStdio : bytes := str "stdio".
Definition IOTCP : bytes := str "tcp".
Definition defaultMaxMinutes : Z := 60.

Record Door := MkDoor {
  dr_key : bytes; dr_name : bytes; dr_desc : bytes; dr_command : list bytes; dr_dir : bytes; dr_io : bytes;
  dr_sysop : bool; dr_single : bool; dr_minutes : Z
}.

Inductive door_error :=
  | BadKey (entry : Z) (key : bytes) | DuplicateKey (key : bytes) | NameRequired (key : bytes) | CommandRequired (key : bytes) | BadIO (key : bytes).

(** [^[a-z0-9][a-z0-9_-]{0,15}$] *)
Definition key_head (b : Z) : bool := between 97 122 b || between 48 57 b.
Definition key_rest (b : Z) : bool := key_head b || (b =? ch "_") || (b =? ch "-").
Definition keyPattern (s : bytes) : bool :=
  match s with b :: s => key_head b && forallb key_rest s && (len s <=? 15) | [] => false end.

(** The loop of [Validate] from entry [i] on. *)
Fixpoint validate_go (i : Z) (seen : list bytes) (ds : list Door) : result door_error (list Door) :=
  match ds with
  | [] => Ok []
  | d :: ds =>
      if negb (keyPattern (dr_key d)) then Err (BadKey i (dr_key d))
      else if bool_decide (dr_key d ∈ seen) then Err (DuplicateKey (dr_key d))
      else if bool_decide (dr_name d = []) then Err (NameRequired (dr_key d))
      else if match dr_command d with [] => true | c :: _ => bool_decide (c = []) end then Err (CommandRequired (dr_key d))
      else
        let io := if bool_decide (dr_io d = []) then IOStdio else dr_io d in
        if negb (bool_decide (io = IOStdio)) && negb (bool_decide (io = IOTCP)) then Err (BadIO (dr_key d))
        else
          let minutes := if dr_minutes d <=? 0 then defaultMaxMinutes else dr_minutes d in
          ds ← validate_go (i + 1) (dr_key d :: seen) ds;
          Ok (MkDoor (dr_key d) (dr_name d) (dr_desc d) (dr_command d) (dr_dir d) io (dr_sysop d) (dr_single d) minutes :: ds)
  end.

Definition Validate (ds : list Door) : result door_error (list Door) := validate_go 1 [] ds.

(** ** dropfile.go *)

Definition DoorSys : bytes := str "DOOR.SYS".
Definition DorInfo : bytes := str "DORINFO1.DEF".
Definition levelUser : Z := 100.
Definition levelSysop : Z := 255.
Definition baudRate : Z := 38400.

Record DoorCaller := MkDoorCaller {
  dc_node : Z; dc_user : Z; dc_handle : bytes; dc_location : bytes; dc_sysop : bool; dc_calls : Z; dc_last : Z;
  dc_minutes : Z; dc_rows : Z; dc_ansi : bool; dc_bbs : bytes; dc_sysop_name : bytes
}.

Definition yn (b : bool) : bytes := if b then str "Y" else str "N".
Definition level (c : DoorCaller) : Z := if dc_sysop c then levelSysop else levelUser.

(** [clean]: on one line. *)
Definition clean_value (s : bytes) : bytes := trim_space (StripControl s).

(** "01/02/06" *)
Definition us_date (c : civil) : bytes := pad_dec 2 (month c) ++ str "/" ++ pad_dec 2 (day c) ++ str "/" ++ pad_dec 2 (year c mod 100).

Section drop.
Context `{UnicodeTables} `{BBS}.

Definition doorSys (c : DoorCaller) (now : Z) : list bytes :=
  let last := if dc_last c =? 0 then now else dc_last c in
  [str "COM1:"; itoa baudRate; str "8"; itoa (dc_node c); itoa baudRate; str "Y"; str "N"; str "Y"; str "Y";
   clean_value (dc_handle c); clean_value (dc_location c); str "000-000-0000"; str "000-000-0000"; [];
   itoa (level c); itoa (dc_calls c); us_date (local last); itoa (dc_minutes c * 60); itoa (dc_minutes c);
   (if dc_ansi c then str "GR" else str "NG"); itoa (dc_rows c); str "N"; str "1"; str "1"; str "12/31/99"; itoa (dc_user c);
   str "Z"; str "0"; str "0"; str "0"; str "0"; str "01/01/80"; str "."; str "."; clean_value (dc_sysop_name c); clean_value (dc_handle c);
   str "00:00"; str "Y"; yn (dc_ansi c); str "Y"; str "7"; str "0"; us_date (local last); hour_minute now; hour_minute last;
   str "32768"; str "0"; str "0"; str "0"; []; str "0"; str "0"].

(** [splitName]: the first name, and the rest or "NLN". *)
Definition splitName (name : bytes) : bytes * bytes :=
  let '(first, last, found) := cut name 32 in
  if negb found || bool_decide (trim_space last = []) then (to_upper first, str "NLN") else (to_upper first, to_upper (trim_space last)).

Definition dorInfo (c : DoorCaller) : list bytes :=
  let '(first, last) := splitName (clean_value (dc_handle c)) in
  let '(sysFirst, sysLast) := splitName (clean_value (dc_sysop_name c)) in
  [clean_value (dc_bbs c); sysFirst; sysLast; str "COM1"; itoa baudRate ++ str " BAUD,N,8,1"; str "0"; first; last;
   clean_value (dc_location c); (if dc_ansi c then str "1" else str "0"); itoa (level c); itoa (dc_minutes c); str "-1"].

(** What a file holds. *)
Definition drop_file (lines : list bytes) : bytes := Encode CP437 (join lines [13; 10] ++ [13; 10]).

(** [WriteDropFiles]: the two files, in any order. *)
Definition WriteDropFiles (dir : bytes) (c : DoorCaller) (now : Z) (fs : FS) : FS :=
  <[filepath_Join [dir; DoorSys] := drop_file (doorSys c now)]> (<[filepath_Join [dir; DorInfo] := drop_file (dorInfo c)]> fs).
End drop.

(** ** process.go *)

(** [Vars], in the order the map is gone through. *)
Definition Vars : Type := list (bytes * bytes).

Definition expand (v : Vars) (s : bytes) : bytes := foldl (fun s '(k, x) => replace_all s (str "{" ++ k ++ str "}") x) s v.

(** [b]'s values go before [a]'s. *)
Definition mergeVars (a b : Vars) : Vars := b ++ filter (fun kv => fst kv ∉ b.*1) a.

(** [doorEnv], for the environment [getenv] of the program. *)
Definition doorEnv `{UnicodeTables} (getenv : bytes -> option bytes) (v : Vars) : list bytes :=
  [str "TERM=ansi"; str "LANG=C"]
  ++ omap (fun k => (fun x => k ++ str "=" ++ x) <$> getenv k) [str "PATH"; str "HOME"; str "TMPDIR"]
  ++ ((fun '(k, x) => str "BOAR_" ++ to_upper k ++ str "=" ++ x) <$> v).

Definition maxStderr : Z := 4096.

(** [limitedBuffer.Write]. *)
Definition limited_write (limit : Z) (p buf : bytes) : bytes :=
  let room := limit - len buf in if 0 <? room then buf ++ take (Z.to_nat (Z.min (len p) room)) p else buf.

(** * Theorems *)

(** ** The configuration *)

Definition door_ok (d : Door) : Prop :=
  keyPattern (dr_key d) = true /\ dr_name d <> [] /\ (exists c cs, dr_command d = c :: cs /\ c <> [])
  /\ (dr_io d = IOStdio \/ dr_io d = IOTCP) /\ 0 < dr_minutes d.

Lemma validate_go_ok i seen ds out :
  validate_go i seen ds = Ok out ->
  Forall door_ok out /\ NoDup (dr_key <$> out) /\ Forall (fun d => dr_key d ∉ seen) out
  /\ Forall2 (fun d d' => dr_key d' = dr_key d /\ dr_command d' = dr_command d /\ dr_sysop d' = dr_sysop d) ds out.
Proof.
  revert i seen out. induction ds as [|d ds IH]; intros i seen out; cbn [validate_go]; [intros [= <-]; repeat constructor|].
  destruct (keyPattern (dr_key d)) eqn:Ek; cbn [negb]; [|done]. case_bool_decide as Hs; [done|]. case_bool_decide as Hn; [done|].
  destruct (dr_command d) as [|c cs] eqn:Ec; [done|]. case_bool_decide as Hc; [done|].
  set (io := if bool_decide (dr_io d = []) then IOStdio else dr_io d).
  destruct (negb (bool_decide (io = IOStdio)) && negb (bool_decide (io = IOTCP))) eqn:Eio; [done|].
  intros (out' & Hout & [= <-])%bind_Ok. destruct (IH _ _ _ Hout) as (H1 & H2 & H3 & H4).
  cbn [fmap list_fmap dr_key]. split_and!.
  - constructor; [|done]. split_and!; cbn; eauto.
    + subst io. apply andb_false_iff in Eio as [E%negb_false_iff|E%negb_false_iff]; apply bool_decide_eq_true in E; auto.
    + unfold defaultMaxMinutes. destruct (Z.leb_spec (dr_minutes d) 0); lia.
  - constructor; [|done]. intros (x & Ex & Hx)%list_elem_of_fmap. rewrite Forall_forall in H3. apply (H3 x Hx). rewrite Ex. by left.
  - constructor; [done|]. eapply Forall_impl; [exact H3|]. intros x Hx ?. apply Hx. by right.
  - by constructor.
Qed.

Lemma validate_go_id i seen ds :
  Forall door_ok ds -> NoDup (dr_key <$> ds) -> Forall (fun d => dr_key d ∉ seen) ds -> validate_go i seen ds = Ok ds.
Proof.
  revert i seen. induction ds as [|d ds IH]; intros i seen Hok Hnd Hs; [done|].
  apply Forall_cons in Hok as [(Hk & Hn & (c & cs & Ec & Hc) & Hio & Hm) Hok]. apply NoDup_cons in Hnd as [Hd Hnd].
  apply Forall_cons in Hs as [Hsd Hs]. cbn [validate_go]. rewrite Hk, Ec. cbn [negb].
  rewrite (bool_decide_eq_false_2 (dr_key d ∈ seen)), (bool_decide_eq_false_2 (dr_name d = [])), (bool_decide_eq_false_2 (c = [])) by done.
  assert ((if bool_decide (dr_io d = []) then IOStdio else dr_io d) = dr_io d) as -> by (case_bool_decide as E; [rewrite E in Hio; by destruct Hio|done]).
  assert (negb (bool_decide (dr_io d = IOStdio)) && negb (bool_decide (dr_io d = IOTCP)) = false) as ->.
  { destruct Hio as [-> | ->]; by vm_compute. }
  destruct (Z.leb_spec (dr_minutes d) 0); [lia|]. rewrite IH; [|done|done|].
  - by destruct d; cbn in *; subst.
  - apply Forall_forall. intros x Hx. rewrite Forall_forall in Hs. intros [E|Hin]%elem_of_cons; [|by apply (Hs x Hx)].
    apply Hd. rewrite <-E. apply list_elem_of_fmap. by exists x.
Qed.

(** C36: a doors file that [Validate] accepts becomes a list of well-formed doors, in the file's order: keys of the
    pattern and all different, a name, a program to run, one of the two ways to talk to it, a positive time limit; and
    validating the result again changes nothing. *)
Theorem doors_validated (ds out : list Door) (H : Validate ds = Ok out) :
  Forall door_ok out /\ NoDup (dr_key <$> out)
  /\ Forall2 (fun d d' => dr_key d' = dr_key d /\ dr_command d' = dr_command d /\ dr_sysop d' = dr_sysop d) ds out
  /\ Validate out = Ok out.
Proof.
  destruct (validate_go_ok _ _ _ _ H) as (H1 & H2 & H3 & H4). split_and!; [done..|].
  apply validate_go_id; [done..|]. apply Forall_forall. intros x _. apply not_elem_of_nil.
Qed.

Lemma doors_validated_witness :
  exists out, Validate [MkDoor (str "lord") (str "LORD") [] [str "/bin/lord"; str "{node}"] [] [] false true 0] = Ok out
              /\ Forall door_ok out /\ Validate out = Ok out.
Proof.
  eexists. split; [vm_compute; reflexivity|].
  destruct (doors_validated [MkDoor (str "lord") (str "LORD") [] [str "/bin/lord"; str "{node}"] [] [] false true 0]
              [MkDoor (str "lord") (str "LORD") [] [str "/bin/lord"; str "{node}"] [] (str "stdio") false true 60]
              ltac:(vm_compute; reflexivity)) as (H1 & _ & _ & H4).
  split; [exact H1|exact H4].
Defined.

(** ** Standard error *)

(** Whatever the program writes, the buffer holds the first [limit] bytes of it. *)
Lemma limited_keeps_first limit (ps : list bytes) : 0 <= limit -> foldl (fun buf p => limited_write limit p buf) [] ps = take (Z.to_nat limit) (concat ps).
Proof.
  intros Hl. change (take (Z.to_nat limit) (concat ps)) with (take (Z.to_nat limit) ([] ++ concat ps)).
  assert (@nil Z = take (Z.to_nat limit) []) as E by (by rewrite take_nil). rewrite E at 1. clear E.
  generalize (@nil Z) as s. induction ps as [|p ps IH]; intros s; cbn [foldl concat]; [by rewrite app_nil_r|].
  assert (limited_write limit p (take (Z.to_nat limit) s) = take (Z.to_nat limit) (s ++ p)) as ->; [|by rewrite IH, <-app_assoc].
  unfold limited_write, len. rewrite length_take, take_app. destruct (Z.ltb_spec 0 (limit - Z.of_nat (Z.to_nat limit `min` length s))).
  - f_equal. replace (Z.to_nat limit `min` length s)%nat with (length s) by lia.
    destruct (Nat.le_gt_cases (length p) (Z.to_nat limit - length s)); [|f_equal; lia].
    rewrite !take_ge by lia. done.
  - replace (Z.to_nat limit - length s)%nat with 0%nat by lia. by rewrite take_0, app_nil_r.
Qed.

(** ** The drop files *)

Section drop_spec.
Context `{UnicodeTables} `{BBS}.

Abbreviation shown := (Forall clean_byte).

Lemma clean_ascii s : Forall (fun b => 32 <= b < 127) s -> shown s.
Proof. intros Hs. eapply Forall_impl; [exact Hs|]. unfold clean_byte. lia. Qed.

Lemma itoa_shown n : shown (itoa n).
Proof.
  apply clean_ascii. unfold itoa. destruct (Z.ltb_spec n 0); [constructor; [split; by vm_compute|]|];
    (eapply Forall_impl; [apply udec_digits; lia|]); cbn; intros b Hb%udigit_range; lia.
Qed.

Lemma pad_shown w n : 0 <= n -> shown (pad_dec w n).
Proof.
  intros Hn. apply clean_ascii. unfold pad_dec, zpad. apply Forall_app. split; [apply Forall_replicate; split; by vm_compute|].
  eapply Forall_impl; [by apply udec_digits|]. cbn. intros b Hb%udigit_range. lia.
Qed.

(** A day of the 400 years of the calendar is not before the first of its year. *)
Lemma leap_days_fit doe a b c y q p :
  0 <= doe < 146097 -> a * 1460 <= doe < a * 1460 + 1460 -> b * 36524 <= doe < b * 36524 + 36524 -> c * 146096 <= doe < c * 146096 + 146096 ->
  y * 365 <= doe - a + b - c < y * 365 + 365 -> q * 4 <= y < q * 4 + 4 -> p * 100 <= y < p * 100 + 100 -> 365 * y + q - p <= doe.
Proof.
  intros. assert (c = 0 \/ c = 1) as [-> | ->] by lia; assert (b = 0 \/ b = 1 \/ b = 2 \/ b = 3 \/ b = 4) as Hb by lia; [|lia].
  destruct Hb as [-> | [-> | [-> | [-> | ->]]]]; assert (p = 0 \/ p = 1 \/ p = 2 \/ p = 3 \/ p = 4) as Hp by lia;
    destruct Hp as [-> | [-> | [-> | [-> | ->]]]]; lia.
Qed.

Lemma div_range n d : 0 < d -> n / d * d <= n < n / d * d + d.
Proof. intros. pose proof (Z.div_mod n d ltac:(lia)). pose proof (Z.mod_pos_bound n d ltac:(lia)). lia. Qed.

Lemma era_civil_positive doe : 0 <= doe < 146097 -> let '(_, m, d) := era_civil doe in 1 <= m /\ 1 <= d.
Proof.
  intros Hd. unfold era_civil. set (yoe := (doe - doe / 1460 + doe / 36524 - doe / 146096) / 365).
  assert (0 <= doe - (365 * yoe + yoe / 4 - yoe / 100)) as Hdoy.
  { pose proof (leap_days_fit doe (doe / 1460) (doe / 36524) (doe / 146096) yoe (yoe / 4) (yoe / 100)). subst yoe.
    enough (365 * ((doe - doe / 1460 + doe / 36524 - doe / 146096) / 365)
            + (doe - doe / 1460 + doe / 36524 - doe / 146096) / 365 / 4
            - (doe - doe / 1460 + doe / 36524 - doe / 146096) / 365 / 100 <= doe) by lia.
    apply (leap_days_fit doe (doe / 1460) (doe / 36524) (doe / 146096)); [done|by apply div_range..]. }
  set (doy := doe - (365 * yoe + yoe / 4 - yoe / 100)) in *. clearbody doy. clear yoe Hd.
  pose proof (div_range (5 * doy + 2) 153 ltac:(lia)). pose proof (div_range (153 * ((5 * doy + 2) / 153) + 2) 5 ltac:(lia)).
  destruct (Z.ltb_spec ((5 * doy + 2) / 153) 10); lia.
Qed.

Lemma local_nonneg t : let c := local t in 0 <= month c /\ 0 <= day c /\ 0 <= hour c /\ 0 <= minute c.
Proof.
  unfold local, civil_of_unix, civil_from_days. set (s := secs t + zone_offset (secs t)). clearbody s.
  pose proof (era_civil_positive _ (Z.mod_pos_bound (s / 86400 + 719468) 146097 ltac:(lia))) as Hm.
  destruct (era_civil _) as [[yoe m] d]. cbn [month day hour minute].
  pose proof (Z.mod_pos_bound s 86400 ltac:(lia)). pose proof (Z.mod_pos_bound (s mod 86400) 3600 ltac:(lia)).
  split_and!; [lia|lia|apply Z.div_pos; lia|apply Z.div_pos; lia].
Qed.

Lemma str_shown s : forallb (between 32 126) s = true -> shown s.
Proof.
  intros Hs. apply clean_ascii, Forall_forall. intros b Hb%list_elem_of_In.
  pose proof (proj1 (forallb_forall _ _) Hs b Hb) as Hx. unfold between in Hx. bool_prop. lia.
Qed.

Lemma us_date_shown t : shown (us_date (local t)).
Proof.
  destruct (local_nonneg t) as (Hm & Hd & _). unfold us_date. generalize dependent (local t). intros c Hm Hd.
  pose proof (Z.mod_pos_bound (year c) 100 ltac:(lia)) as [Hy _].
  rewrite !Forall_app. split_and!; first [by apply pad_shown | by apply str_shown].
Qed.

Lemma hour_minute_shown t : shown (hour_minute t).
Proof.
  destruct (local_nonneg t) as (_ & _ & Hh & Hmi). unfold hour_minute. generalize dependent (local t). intros c Hh Hmi.
  rewrite !Forall_app. split_and!; first [by apply pad_shown | by apply str_shown].
Qed.

Lemma drop_words_Forall (P : Z -> Prop) ws s k : Forall P s -> Forall P (drop_words_go ws s k).
Proof.
  revert k. induction s as [|b s IH]; intros k Hs; [done|]. pose proof Hs as [_ Hs']%Forall_cons. cbn [drop_words_go].
  destruct k; [|by apply IH]. destruct (prefix_len ws (b :: s)); [done|by apply IH].
Qed.

Lemma trim_space_Forall (P : Z -> Prop) s : Forall P s -> Forall P (trim_space s).
Proof. intros Hs. unfold trim_space, trim_space_right. by apply Forall_reverse, drop_words_Forall, Forall_reverse, drop_words_Forall. Qed.

Lemma clean_value_shown s : bytes_ok s -> shown (clean_value s).
Proof. intros Hs. by apply trim_space_Forall, StripControl_clean. Qed.

(** *** One line per value *)

(** The strings of a caller are byte strings. *)
Definition caller_bytes (c : DoorCaller) : Prop :=
  bytes_ok (dc_handle c) /\ bytes_ok (dc_location c) /\ bytes_ok (dc_bbs c) /\ bytes_ok (dc_sysop_name c).

Ltac shown_value :=
  solve [ done | by apply clean_value_shown | apply us_date_shown | apply hour_minute_shown | apply itoa_shown
        | by apply str_shown | by unfold yn; case_match; apply str_shown ].

Lemma doorSys_shown c now : caller_bytes c -> Forall shown (doorSys c now).
Proof.
  intros (Hh & Hl & Hb & Hs). unfold doorSys.
  repeat (apply Forall_cons_2; [shown_value|]). constructor.
Qed.

(** Upper case is never a control character: the tables of [unicode] map letters to letters. *)
Class UpperLetters := upper_letter : forall r, 128 <= r -> valid_rune r = true -> valid_rune (unicode_upper r) = true /\ 32 <= unicode_upper r /\ unicode_upper r <> 127.

Context `{!UpperLetters}.

(** An ASCII rune of a text is one of its bytes. *)
Lemma runes_go_origin s k r : bytes_ok s -> r ∈ runes_go s k -> 128 <= r \/ r ∈ s.
Proof.
  revert k. induction s as [|b s IH]; intros k Hs; [intros []%not_elem_of_nil|]. pose proof Hs as [Hb Hs']%Forall_cons. cbn [runes_go].
  destruct k; [|intros [?|?]%IH; [by left|by right; right|done]].
  destruct (decode_rune (b :: s)) as [x n] eqn:E. intros [->|[?|?]%IH]%elem_of_cons; [|by left|by right; right|done].
  destruct (Z.ltb_spec b 128); [right; cbn [decode_rune] in E; destruct (Z.ltb_spec b 128); [injection E as <- <-; by left|lia]|left].
  unfold byte_ok in Hb. cbn [decode_rune] in E. destruct (Z.ltb_spec b 128); [lia|]. unfold continuation, between, rune_error in E.
  repeat case_match; bool_prop; injection E as <- <-; lia.
Qed.

Lemma runes_shown s r : shown s -> r ∈ runes s -> valid_rune r = true /\ 32 <= r /\ r <> 127.
Proof.
  intros Hs Hr. assert (bytes_ok s) as Hb by (eapply Forall_impl; [exact Hs|unfold clean_byte, byte_ok; lia]).
  pose proof (runes_valid s Hb) as Hv. rewrite Forall_forall in Hv. split; [by apply Hv|].
  destruct (runes_go_origin _ _ _ Hb Hr) as [?|Hin]; [lia|]. rewrite Forall_forall in Hs. destruct (Hs r Hin). lia.
Qed.

Lemma to_upper_shown s : shown s -> shown (to_upper s).
Proof.
  intros Hs. unfold to_upper. destruct (is_ascii s).
  - apply Forall_fmap. eapply Forall_impl; [exact Hs|]. unfold clean_byte, upper_byte, between. cbn. intros b Hb. case_match; bool_prop; lia.
  - unfold map_runes. apply utf8_bytes; [unfold clean_byte; lia|]. apply Forall_forall. intros r' (r & Hr & [= <-])%list_elem_of_omap.
    apply runes_shown in Hr as (Hv & Hge & Hne); [|done]. unfold to_upper_rune. destruct (Z.ltb_spec r 128).
    + unfold upper_byte, between, clean_byte, valid_rune in *. case_match; bool_prop; split; lia.
    + destruct (upper_letter r ltac:(lia) Hv) as (? & ? & ?). unfold clean_byte. split; [done|lia].
Qed.

Lemma cut_Forall (P : Z -> Prop) s c : Forall P s -> let '(a, b, _) := cut s c in Forall P a /\ Forall P b.
Proof.
  induction 1 as [|x s Hx Hs IH]; cbn [cut]; [by repeat constructor|]. destruct (x =? c); [by repeat constructor|].
  destruct (cut s c) as [[a b] ok]. destruct IH. by split; [constructor|].
Qed.

Lemma splitName_shown s : shown s -> let '(a, b) := splitName s in shown a /\ shown b.
Proof.
  intros Hs. unfold splitName. destruct (cut s 32) as [[first last] found] eqn:E.
  assert (shown first /\ shown last) as [Hf Hl].
  { pose proof (cut_Forall _ s 32 Hs) as Hc. by rewrite E in Hc. }
  destruct (negb found || _); split; try (by apply to_upper_shown); [by apply str_shown|by apply to_upper_shown, trim_space_Forall].
Qed.

Lemma dorInfo_shown c : caller_bytes c -> Forall shown (dorInfo c).
Proof.
  intros (Hh & Hl & Hb & Hs). unfold dorInfo.
  pose proof (splitName_shown _ (clean_value_shown _ Hh)) as Hn. pose proof (splitName_shown _ (clean_value_shown _ Hs)) as Hsn.
  destruct (splitName (clean_value (dc_handle c))), (splitName (clean_value (dc_sysop_name c))). destruct Hn, Hsn.
  repeat (apply Forall_cons_2; [first [shown_value | apply Forall_app; split; [apply itoa_shown|by apply str_shown]]|]). constructor.
Qed.

(** Characters of code page 437 are never control characters. *)
Lemma cp437_table_clean : forallb (fun kv => (128 <=? snd kv) && (snd kv <? 256)) (map_to_list cp437Bytes) = true.
Proof. vm_compute. reflexivity. Qed.
Lemma fallback_table_clean : forallb (fun kv => between 32 126 (snd kv)) (map_to_list asciiFallback) = true.
Proof. vm_compute. reflexivity. Qed.

Lemma encode_one_clean r : 32 <= r -> r <> 127 -> clean_byte (encode_one CP437 r).
Proof.
  intros Hlo Hdel. unfold encode_one. destruct (Z.ltb_spec r 128); [unfold clean_byte; lia|].
  destruct (cp437Bytes !! r) as [b|] eqn:E.
  - apply elem_of_map_to_list, list_elem_of_In in E. pose proof (proj1 (forallb_forall _ _) cp437_table_clean _ E) as Hb. cbn [snd] in Hb. bool_prop.
    unfold clean_byte. lia.
  - unfold fallback. destruct (asciiFallback !! r) as [b|] eqn:E'; cbn; [|split; [split|]; by vm_compute].
    apply elem_of_map_to_list, list_elem_of_In in E'. pose proof (proj1 (forallb_forall _ _) fallback_table_clean _ E') as Hb. cbn [snd] in Hb.
    unfold between in Hb. bool_prop. unfold clean_byte. lia.
Qed.

Lemma Encode_shown s : shown s -> shown (Encode CP437 s).
Proof.
  intros Hs. unfold Encode. apply Forall_fmap, Forall_forall. intros r Hr. apply (runes_shown s) in Hr as (_ & ? & ?); [|done]. by apply encode_one_clean.
Qed.

Lemma Encode_line s t : Encode CP437 (s ++ 13 :: 10 :: t) = Encode CP437 s ++ 13 :: 10 :: Encode CP437 t.
Proof. unfold Encode. rewrite runes_ascii_stop by lia. change (10 :: t) with ([] ++ 10 :: t). rewrite runes_ascii_stop by lia. by rewrite fmap_app. Qed.
Lemma drop_file_concat ls : ls <> [] -> drop_file ls = ls ≫= (fun l => Encode CP437 l ++ [13; 10]).
Proof.
  intros Hne. unfold drop_file. induction ls as [|l ls IH]; [done|]. destruct ls as [|l2 ls].
  - cbn [join]. rewrite Encode_line. cbn. by rewrite app_nil_r.
  - replace (join (l :: l2 :: ls) [13; 10] ++ [13; 10]) with (l ++ 13 :: 10 :: (join (l2 :: ls) [13; 10] ++ [13; 10])) by (cbn [join]; by rewrite <-!app_assoc).
    rewrite Encode_line, IH by done. cbn. by rewrite <-!app_assoc.
Qed.

Lemma remove_byte_app s t c : remove_byte (s ++ t) c = remove_byte s c ++ remove_byte t c.
Proof. apply filter_app. Qed.

Lemma shown_no_break s : shown s -> (13 ∉ s) /\ (10 ∉ s).
Proof. intros Hs. rewrite Forall_forall in Hs. split; intros Hin; destruct (Hs _ Hin); lia. Qed.

(** What a program that reads lines finds in the file. *)
Definition dos_lines (data : bytes) : list bytes := split_byte (remove_byte data 13) 10.

Lemma drop_file_lines ls : ls <> [] -> Forall shown ls -> dos_lines (drop_file ls) = (Encode CP437 <$> ls) ++ [[]].
Proof.
  intros Hne Hls. rewrite drop_file_concat by done. clear Hne. unfold dos_lines. induction Hls as [|l ls Hl Hls IH]; [done|].
  destruct (shown_no_break _ (Encode_shown _ Hl)) as [H13 H10]. cbn [mbind list_bind fmap list_fmap].
  rewrite !remove_byte_app, (remove_byte_absent _ 13) by done. change (remove_byte [13; 10] 13) with [10].
  rewrite <-app_assoc. cbn [app]. rewrite split_byte_app by done. f_equal. exact IH.
Qed.

(** a program that reads a drop file by lines finds one line per value, in the order of the format, whatever the
    caller's handle and location are: nothing in them starts a line of its own or holds a control byte.  The handle
    and the location are where the format has them, and the line for the password is blank. *)
Theorem drop_file_one_line_per_value (c : DoorCaller) (now : Z) (Hc : caller_bytes c) :
  dos_lines (drop_file (doorSys c now)) = (Encode CP437 <$> doorSys c now) ++ [[]]
  /\ dos_lines (drop_file (dorInfo c)) = (Encode CP437 <$> dorInfo c) ++ [[]]
  /\ Forall shown (Encode CP437 <$> doorSys c now) /\ Forall shown (Encode CP437 <$> dorInfo c)
  /\ length (doorSys c now) = 52%nat /\ length (dorInfo c) = 13%nat
  /\ doorSys c now !! 9%nat = Some (clean_value (dc_handle c)) /\ doorSys c now !! 10%nat = Some (clean_value (dc_location c))
  /\ doorSys c now !! 13%nat = Some [].
Proof.
  pose proof (doorSys_shown c now Hc) as H1'. pose proof (dorInfo_shown c Hc) as H2'.
  assert (forall l, Forall shown l -> Forall shown (Encode CP437 <$> l)) as He by (intros l Hl; apply Forall_fmap; eapply Forall_impl; [exact Hl|exact Encode_shown]).
  assert (dorInfo c <> [] /\ length (dorInfo c) = 13%nat) as [Hne Hlen] by (unfold dorInfo; destruct (splitName _), (splitName _); done).
  split_and!; try done; try (by apply He); by apply drop_file_lines.
Qed.
End drop_spec.

(** Tables that keep every letter have the property of [unicode]'s; and a clock in UTC. *)
#[local] Instance ascii_upper : @UpperLetters ascii_tables.
Proof. intros r Hr Hv. unfold unicode_upper, ascii_tables. split; [done|lia]. Qed.

#[local] Instance demo_clock : BBS := {
  cfg_Name := str "Boar BBS"; cfg_MaxNodes := 4; cfg_MaxSignupsPerDay := 20; cfg_PublicAddress := [];
  store_cfg := MkConfig 1 false; zone_offset := fun _ => 0; zone_name := fun _ => str "UTC"; rand_salt := fun _ => []; rand_code := fun n => n;
  is_print := fun r => true; cfg_ArtDir := []; cfg_Files := []; cfg_FileLinkURL := []; cfg_FileLinkKey := []; cfg_FileLinkTTL := 0;
  cfg_Addresses := []; cfg_Outbound := FtnOutbound.MkOutbound [] 2; cfg_Routes := FtnAddr.MkRoutes [] FtnAddr.zero_addr; cfg_SysopName := []
}.

(** A location with a line break in it. *)
Definition demo_caller : DoorCaller :=
  MkDoorCaller 3 7 (str "Kasia K.") (str "Gdansk" ++ [13; 10] ++ str "0") false 5 0 30 24 true (str "Boar BBS") (str "Sysop").

Lemma drop_file_one_line_per_value_witness :
  let _ := ascii_tables in
  dos_lines (drop_file (doorSys demo_caller 0)) !! 10%nat = Some (str "Gdansk0")
  /\ length (dos_lines (drop_file (doorSys demo_caller 0))) = 53%nat.
Proof.
  cbn zeta. split; [vm_compute; reflexivity|].
  destruct (@drop_file_one_line_per_value ascii_tables demo_clock ascii_upper demo_caller 0) as (-> & _ & _ & _ & Hl & _).
  - repeat split; repeat constructor; vm_compute; congruence.
  - rewrite length_app, length_fmap, Hl. reflexivity.
Defined.
