(* ===== verification/DoorExample.v ===== *)
(** * Boar Hunt, the example door: [cmd/boar-door-example]

    A door reads the caller's name from DOOR.SYS and plays over its standard input and output, echoing what it reads.
    The model is the whole program over the bytes it is given: what it writes and how it ends.  The theorems: the name
    it greets is the handle of the account that [internal/doors] wrote the file for; a line is read as it was typed; a
    round is decided by its first seven guesses that are trees, whatever else is typed, and seven guesses suffice for
    who halves the forest; the program reads its input to an end. *)

From Stdlib Require Import Ascii String ZArith Lia.
From stdpp Require Import base tactics list gmap strings.
From S2P Require Import Prelude GoStrings GoTime GoFiles Term StoreDB StoreUsers StoreAccountSpec Server Doors.
Open Scope Z_scope.

Definition forestSize : Z := 100.
Definition maxTries : Z := 7.
Definition aliasLine : nat := 36.
Definition maxInput : Z := 8.

Definition reset : bytes := 27 :: str "[0m".
Definition brown : bytes := 27 :: str "[0;33m".
Definition yellow : bytes := 27 :: str "[1;33m".
Definition green : bytes := 27 :: str "[0;32m".
Definition bright : bytes := 27 :: str "[1;37m".
Definition gray : bytes := 27 :: str "[1;30m".
Definition red : bytes := 27 :: str "[1;31m".
Definition block : bytes := [219].
Definition shade : bytes := [177].
Definition cls : bytes := 27 :: str "[2J" ++ 27 :: str "[H".

(** [aliasFrom]: what [os.ReadFile] found. *)
Definition aliasFrom (data : option bytes) : bytes :=
  match data with
  | None => str "stranger"
  | Some data =>
      match split_byte data 10 !! (aliasLine - 1)%nat with
      | None => str "stranger"
      | Some l => let alias := trim_space l in if bool_decide (alias = []) then str "stranger" else alias
      end
  end.

(** [say]: the format's line feeds become CR LF, its arguments' do not. *)
Definition crlf : bytes := [13; 10].

(** *** Reading

    [in] is what is left to read; [None]: reading failed there.  What was written comes last. *)

Definition io (A : Type) : Type := bytes -> option A * bytes * bytes.

Definition ret {A} (a : A) : io A := fun i => (Some a, i, []).
Definition bind {A B} (m : io A) (f : A -> io B) : io B := fun i =>
  match m i with
  | (Some a, i, o) => let '(r, i, o') := f a i in (r, i, o ++ o')
  | (None, i, o) => (None, i, o)
  end.
Definition say (o : bytes) : io unit := fun i => (Some tt, i, o).

Declare Scope hunt_scope.
Notation "'do!' x := m 'in' f" := (bind m (fun x => f)) (at level 10, x pattern, m at level 100, f at level 200) : hunt_scope.
Local Open Scope hunt_scope.

Definition backspace (b : Z) : bool := (b =? 8) || (b =? 127).

(** [readLine], with [buf] read so far. *)
Fixpoint readLine_go (buf : bytes) (i : bytes) : option bytes * bytes * bytes :=
  match i with
  | [] => (None, [], [])
  | b :: i =>
      let echo (o : bytes) '(r, i, o') := (r, i, o ++ o') in
      if (b =? 13) || (b =? 10) then (Some buf, i, crlf)
      else if backspace b && (0 <? len buf) then echo (8 :: 32 :: [8]) (readLine_go (removelast buf) i)
      else if (32 <=? b) && (b <? 127) && (len buf <? maxInput) then echo [b] (readLine_go (buf ++ [b]) i)
      else readLine_go buf i
  end.

Definition readLine : io bytes := readLine_go [].

(** The guess that a line is, if it is a tree. *)
Definition tree (line : bytes) : option Z :=
  let '(guess, ok) := atoi (trim_space line) in
  if negb ok || (guess <? 1) || (forestSize <? guess) then None else Some guess.

(** One turn of [round] at the [try]-th guess: it is over, the same guess again, or the next. *)
Inductive turn := Over (won : bool) | Again | Next.

Definition hint (boar guess : Z) : bytes :=
  if guess <? boar then str "Rustling further " ++ bright ++ str "north" ++ reset ++ str " (higher)." ++ crlf
  else str "Rustling further " ++ bright ++ str "south" ++ reset ++ str " (lower)." ++ crlf.

Definition guess_turn (boar try : Z) : io turn :=
  do! _ := say (gray ++ str "Guess " ++ itoa try ++ str " of " ++ itoa maxTries ++ reset ++ str ", which tree? ") in
  do! line := readLine in
  match tree line with
  | None => do! _ := say (red ++ str "That's not a tree in this forest." ++ reset ++ crlf) in ret Again
  | Some guess =>
      if guess =? boar then
        do! _ := say (crlf ++ yellow ++ block ++ block ++ bright ++ str " You found the boar at tree " ++ itoa boar ++ str " in " ++ itoa try ++ str " guesses!" ++ reset ++ crlf) in
        ret (Over true)
      else do! _ := say (hint boar guess) in ret Next
  end.

(** The loop of [round]; each turn reads a line. *)
Fixpoint round_go (fuel : nat) (boar try : Z) : io bool := fun i =>
  if maxTries <? try then
    (do! _ := say (crlf ++ red ++ str "The boar slipped away. It was at tree " ++ itoa boar ++ str "." ++ reset ++ crlf) in ret false) i
  else
    match fuel with
    | O => (None, i, [])
    | S fuel =>
        (do! t := guess_turn boar try in
         match t with
         | Over won => ret won
         | Again => round_go fuel boar try
         | Next => round_go fuel boar (try + 1)
         end) i
    end.

Definition round (boar : Z) : io bool := fun i => round_go (S (length i)) boar 1 i.

Definition banner (name : bytes) : bytes :=
  cls ++ green ++ mjoin (replicate 40 shade) ++ crlf
  ++ brown ++ str "  " ++ block ++ block ++ yellow ++ str " BOAR HUNT " ++ brown ++ block ++ block ++ gray ++ str "  a Boar BBS door" ++ crlf
  ++ green ++ mjoin (replicate 40 shade) ++ reset ++ crlf ++ crlf
  ++ str "Welcome, " ++ bright ++ name ++ reset ++ str ". A wild boar hides somewhere in the forest," ++ crlf
  ++ str "between trees " ++ bright ++ str "1" ++ reset ++ str " and " ++ bright ++ itoa forestSize ++ reset ++ str ". You have " ++ itoa maxTries ++ str " guesses." ++ crlf ++ crlf.

Section run.
Context `{UnicodeTables}.

(** The loop of [run]; [pick n] is the boar's tree in the round after [n] others. *)
Fixpoint run_go (fuel : nat) (name : bytes) (pick : nat -> Z) (n : nat) : io unit := fun i =>
  match fuel with
  | O => (None, i, [])
  | S fuel =>
      (do! won := round (pick n) in
       do! _ := say (if won : bool then yellow ++ str "The boar grunts respectfully and trots off." ++ crlf ++ reset else []) in
       do! _ := say (crlf ++ str "Hunt again? (y/n) ") in
       do! ans := readLine in
       if has_prefix (to_lower ans) (str "y") then do! _ := say crlf in run_go fuel name pick (S n)
       else say (crlf ++ green ++ str "Good hunting, " ++ name ++ str ". Back to the BBS..." ++ reset ++ crlf)) i
  end.

Definition run (name : bytes) (pick : nat -> Z) : io unit := fun i =>
  (do! _ := say (banner name) in fun i => run_go (S (length i)) name pick 0 i) i.

(** [main]: what it writes, and its exit status, for the error that reading ends with. *)
Definition main (dropfile : option bytes) (pick : nat -> Z) (input : bytes) (eof : bool) : bytes * Z :=
  match run (aliasFrom dropfile) pick input with
  | (Some _, _, o) => (o, 0)
  | (None, _, o) => (o, if eof then 0 else 1)
  end.
End run.

Example hunt_won :
  round 42 (str "50" ++ [13] ++ str "x" ++ [13] ++ str "43" ++ [8] ++ str "2" ++ [13] ++ str "n")
  = (Some true, str "n", snd (round 42 (str "50" ++ [13] ++ str "x" ++ [13] ++ str "43" ++ [8] ++ str "2" ++ [13]))).
Proof. vm_compute. reflexivity. Qed.

(** * Theorems *)

(** ** Reading a line *)

(** What a key does to the line. *)
Definition edit_key (buf : bytes) (b : Z) : bytes :=
  if backspace b then removelast buf
  else if (32 <=? b) && (b <? 127) && (len buf <? maxInput) then buf ++ [b] else buf.

Definition ends_line (b : Z) : bool := (b =? 13) || (b =? 10).

(** The lines in an input, each up to its CR or LF; what comes after the last one is no line. *)
Definition input_lines (i : bytes) : list bytes :=
  foldl edit_key [] <$> removelast (split_byte ((fun b => if ends_line b then 10 else b) <$> i) 10).

Lemma edit_key_spec buf b i :
  ends_line b = false ->
  exists o, forall r i' o', readLine_go (edit_key buf b) i = (r, i', o') -> readLine_go buf (b :: i) = (r, i', o ++ o').
Proof.
  intros Hb. cbn [readLine_go]. unfold ends_line in Hb. rewrite Hb. unfold edit_key. destruct (backspace b) eqn:Eb; cbn [andb].
  - destruct (Z.ltb_spec 0 (len buf)) as [Hl|Hl].
    + exists (8 :: 32 :: [8]). by intros r i' o' ->.
    + assert (buf = []) as -> by (destruct buf; [done|unfold len in Hl; cbn in Hl; lia]). exists []. cbn [removelast].
      assert ((32 <=? b) && (b <? 127) = false) as -> by (unfold backspace in Eb; apply orb_true_iff in Eb as [->%Z.eqb_eq | ->%Z.eqb_eq]; reflexivity).
      by intros r i' o' ->.
  - destruct ((32 <=? b) && (b <? 127) && (len buf <? maxInput)); [exists [b]; by intros r i' o' ->|exists []; by intros r i' o' ->].
Qed.

Lemma readLine_go_segment buf seg b i :
  Forall (fun c => ends_line c = false) seg -> ends_line b = true ->
  exists o, readLine_go buf (seg ++ b :: i) = (Some (foldl edit_key buf seg), i, o).
Proof.
  intros Hs Hb. revert buf. induction Hs as [|c seg Hc Hs IH]; intros buf; cbn [app foldl].
  - cbn [readLine_go]. unfold ends_line in Hb. rewrite Hb. by exists crlf.
  - destruct (IH (edit_key buf c)) as [o Ho]. destruct (edit_key_spec buf c (seg ++ b :: i) Hc) as [o' Ho']. eexists. by apply Ho'.
Qed.

Lemma readLine_go_unfinished buf seg :
  Forall (fun c => ends_line c = false) seg -> exists o, readLine_go buf seg = (None, [], o).
Proof.
  intros Hs. revert buf. induction Hs as [|c seg Hc Hs IH]; intros buf; [by exists []|].
  destruct (IH (edit_key buf c)) as [o Ho]. destruct (edit_key_spec buf c seg Hc) as [o' Ho']. eexists. by apply Ho'.
Qed.

(** An input has no line, or is a first line and the rest. *)
Lemma first_line i :
  Forall (fun c => ends_line c = false) i \/ exists seg b i', i = seg ++ b :: i' /\ Forall (fun c => ends_line c = false) seg /\ ends_line b = true.
Proof.
  induction i as [|c i IH]; [by left|]. destruct (ends_line c) eqn:Ec; [right; by exists [], c, i|].
  destruct IH as [IH|(seg & b & i' & -> & Hs & Hb)]; [left; by constructor|right]. exists (c :: seg), b, i'. split_and!; [done| |done]. by constructor.
Qed.

Lemma fold_no_break seg : Forall (fun c => ends_line c = false) seg -> (fun b => if ends_line b then 10 else b) <$> seg = seg /\ 10 ∉ seg.
Proof.
  induction 1 as [|c seg Hc Hs [IH1 IH2]]; [split; [done|apply not_elem_of_nil]|]. cbn. rewrite Hc, IH1. split; [done|].
  intros [<-|?]%elem_of_cons; [by vm_compute in Hc|done].
Qed.

Lemma input_lines_none i : Forall (fun c => ends_line c = false) i -> input_lines i = [].
Proof. intros [E Hn]%fold_no_break. unfold input_lines. by rewrite E, split_byte_absent. Qed.

Lemma input_lines_cons seg b i :
  Forall (fun c => ends_line c = false) seg -> ends_line b = true -> input_lines (seg ++ b :: i) = foldl edit_key [] seg :: input_lines i.
Proof.
  intros [E Hn]%fold_no_break Hb. unfold input_lines. rewrite fmap_app. cbn [fmap list_fmap]. rewrite E, Hb, split_byte_app by done.
  destruct (split_byte _ _) eqn:Es; [by apply split_byte_nonempty in Es|done].
Qed.

(** [readLine] takes the first line of the input, or all of it. *)
Lemma readLine_spec i :
  (input_lines i = [] /\ exists o, readLine i = (None, [], o))
  \/ exists l i' o, readLine i = (Some l, i', o) /\ input_lines i = l :: input_lines i' /\ (length i' < length i)%nat.
Proof.
  destruct (first_line i) as [Hn|(seg & b & i' & -> & Hs & Hb)].
  - left. split; [by apply input_lines_none|by apply readLine_go_unfinished].
  - right. destruct (readLine_go_segment [] seg b i' Hs Hb) as [o Ho]. exists (foldl edit_key [] seg), i', o. split_and!; [done|by apply input_lines_cons|].
    rewrite length_app. cbn. lia.
Qed.

(** ** A round *)

Definition guesses (i : bytes) : list Z := omap tree (input_lines i).

(** How a round ends, by its guesses. *)
Definition outcome (boar : Z) (tries : nat) (gs : list Z) : option bool :=
  if bool_decide (boar ∈ take tries gs) then Some true else if bool_decide (tries <= length gs)%nat then Some false else None.

Lemma outcome_next boar tries g gs : g <> boar -> outcome boar (S tries) (g :: gs) = outcome boar tries gs.
Proof.
  intros Hg. unfold outcome. cbn [take length].
  rewrite (bool_decide_ext (boar ∈ g :: take tries gs) (boar ∈ take tries gs)) by (rewrite elem_of_cons; naive_solver).
  by rewrite (bool_decide_ext (S tries <= S (length gs))%nat (tries <= length gs)%nat) by lia.
Qed.

Lemma guess_turn_spec boar try i :
  (input_lines i = [] /\ exists o, guess_turn boar try i = (None, [], o))
  \/ exists l i' o t, guess_turn boar try i = (Some t, i', o) /\ input_lines i = l :: input_lines i' /\ (length i' < length i)%nat
       /\ t = match tree l with None => Again | Some g => if g =? boar then Over true else Next end.
Proof.
  unfold guess_turn, bind, say. destruct (readLine_spec i) as [[Hl [o ->]]|(l & i' & o & -> & Hl & Hlt)].
  - left. split; [done|]. eauto.
  - right. exists l, i'. destruct (tree l) as [g|]; [destruct (g =? boar)|]; eauto 10.
Qed.

Lemma round_go_spec fuel boar try i :
  (length i < fuel)%nat -> 1 <= try <= maxTries + 1 ->
  exists i' o, round_go fuel boar try i = (outcome boar (Z.to_nat (maxTries + 1 - try)) (guesses i), i', o) /\ (length i' <= length i)%nat
    /\ (outcome boar (Z.to_nat (maxTries + 1 - try)) (guesses i) = None -> i' = []).
Proof.
  revert try i. induction fuel as [|fuel IH]; intros try i Hf Ht; [lia|]. cbn [round_go]. destruct (Z.ltb_spec maxTries try) as [Hm|Hm].
  - replace (Z.to_nat (maxTries + 1 - try)) with 0%nat by lia. unfold outcome. cbn [take]. rewrite bool_decide_eq_false_2 by apply not_elem_of_nil.
    rewrite bool_decide_eq_true_2 by lia. eexists i, _. split_and!; [reflexivity|lia|done].
  - destruct (Z.to_nat (maxTries + 1 - try)) as [|tries] eqn:Etries; [lia|]. unfold guesses.
    destruct (guess_turn_spec boar try i) as [[Hl [o Ho]]|(l & i' & o & t & Ho & Hl & Hlt & ->)]; unfold bind; rewrite Ho, Hl.
    + exists [], o. split_and!; [reflexivity|cbn; lia|done].
    + cbn [omap list_omap]. destruct (tree l) as [g|] eqn:Eg; cbn beta iota.
      * destruct (Z.eqb_spec g boar) as [->|Hg].
        { assert (outcome boar (S tries) (boar :: omap tree (input_lines i')) = Some true) as ->.
          { unfold outcome. cbn [take]. rewrite bool_decide_eq_true_2; [done|by left]. }
          eexists i', _. split_and!; [reflexivity|lia|done]. }
        { rewrite outcome_next by done. destruct (IH (try + 1) i') as (i2 & o2 & E & Hle & Hn); [lia|lia|].
          replace (Z.to_nat (maxTries + 1 - (try + 1))) with tries in E, Hn by lia. rewrite E. eexists i2, _. split_and!; [reflexivity|lia|done]. }
      * destruct (IH try i') as (i2 & o2 & E & Hle & Hn); [lia|lia|]. rewrite Etries in E, Hn. rewrite E. eexists i2, _. split_and!; [reflexivity|lia|done].
Qed.

(** A round is decided by the guesses in its input: found if the boar's tree is among the first seven lines that are
    trees, lost if there are seven others, and cut short otherwise; lines that are no trees cost nothing.  It reads to
    the end of the input only if it is cut short or decided there. *)
Theorem round_decided (boar : Z) (i : bytes) :
  let won := outcome boar 7 (guesses i) in
  exists i' o, round boar i = (won, i', o) /\ (length i' <= length i)%nat /\ (won = None -> i' = []).
Proof. apply (round_go_spec (S (length i)) boar 1 i); unfold maxTries; lia. Qed.

Lemma round_decided_witness :
  exists i' o, round 42 (str "50" ++ [13] ++ str "x" ++ [13] ++ str "42" ++ [13]) = (Some true, i', o).
Proof. destruct (round_decided 42 (str "50" ++ [13] ++ str "x" ++ [13] ++ str "42" ++ [13])) as (i' & o & E & _). exists i', o. exact E. Defined.

(** *** Seven guesses suffice *)

(** The guesses of a player who halves what is left of the forest, going by the answers ([hint]). *)
Fixpoint bisect (n : nat) (lo hi boar : Z) : list Z :=
  match n with
  | O => []
  | S n => let g := (lo + hi) / 2 in g :: (if g =? boar then [] else if g <? boar then bisect n (g + 1) hi boar else bisect n lo (g - 1) boar)
  end.

Definition typed (gs : list Z) : bytes := gs ≫= fun g => itoa g ++ [13].

Lemma bisect_finds n lo hi boar :
  1 <= lo <= boar -> boar <= hi <= forestSize -> hi - lo + 1 < 2 ^ Z.of_nat n ->
  boar ∈ bisect n lo hi boar /\ (length (bisect n lo hi boar) <= n)%nat /\ Forall (fun g => 1 <= g <= forestSize) (bisect n lo hi boar).
Proof.
  revert lo hi. induction n as [|n IH]; intros lo hi Hlo Hhi Hn; [cbn in Hn; lia|]. cbn [bisect length].
  rewrite Nat2Z.inj_succ, Z.pow_succ_r in Hn by lia. set (g := (lo + hi) / 2).
  pose proof (Z.div_mod (lo + hi) 2 ltac:(lia)) as Hdiv. pose proof (Z.mod_pos_bound (lo + hi) 2 ltac:(lia)) as Hmod. subst g. set (g := (lo + hi) / 2) in *. clearbody g.
  assert (1 <= g <= forestSize) as Hg1 by lia. destruct (Z.eqb_spec g boar) as [->|Hg]; [split_and!; [by left|cbn; lia|by constructor]|].
  destruct (Z.ltb_spec g boar).
  - destruct (IH (g + 1) hi) as (H1 & H2 & H3); [lia..|]. split_and!; [by right|lia|by constructor].
  - destruct (IH lo (g - 1)) as (H1 & H2 & H3); [lia..|]. split_and!; [by right|lia|by constructor].
Qed.

(** Every tree's number is typed and read as itself. *)
Lemma trees_typed : forallb (fun g => bool_decide (tree (foldl edit_key [] (itoa g)) = Some g /\ Forall (fun c => ends_line c = false) (itoa g))) (seqZ 1 forestSize) = true.
Proof. vm_compute. reflexivity. Qed.

Lemma guesses_typed gs rest : Forall (fun g => 1 <= g <= forestSize) gs -> guesses (typed gs ++ rest) = gs ++ guesses rest.
Proof.
  induction 1 as [|g gs Hg Hgs IH]; [done|]. unfold typed in *. cbn [mbind list_bind]. rewrite <-!app_assoc.
  assert (In g (seqZ 1 forestSize)) as Hin by (apply list_elem_of_In, elem_of_seqZ; lia).
  pose proof (proj1 (forallb_forall _ _) trees_typed g Hin) as [Ht Hl]%bool_decide_eq_true.
  unfold guesses. cbn [app]. rewrite input_lines_cons by done. cbn [omap list_omap app]. rewrite Ht. f_equal. exact IH.
Qed.

(** Seven guesses suffice: wherever the boar is, a player who halves the forest by the answers finds it, whatever they
    type afterwards; and the answer to a guess says on which side the boar is. *)
Theorem seven_guesses_suffice (boar : Z) (rest : bytes) (H : 1 <= boar <= forestSize) :
  fst (fst (round boar (typed (bisect 7 1 forestSize boar) ++ rest))) = Some true
  /\ (length (bisect 7 1 forestSize boar) <= 7)%nat
  /\ forall g g', g < boar -> boar < g' -> hint boar g <> hint boar g'.
Proof.
  destruct (bisect_finds 7 1 forestSize boar) as (H1 & H2 & H3); [lia|unfold forestSize in *; lia|by vm_compute|].
  split_and!; [|done|].
  - destruct (round_go_spec (S (length (typed (bisect 7 1 forestSize boar) ++ rest))) boar 1 (typed (bisect 7 1 forestSize boar) ++ rest)) as (i' & o & E & _);
      [lia|unfold maxTries; lia|]. unfold round. rewrite E, guesses_typed by done. cbn [fst]. unfold outcome. rewrite bool_decide_eq_true_2; [done|].
    change (Z.to_nat (maxTries + 1 - 1)) with 7%nat. rewrite take_app. apply elem_of_app. left. by rewrite take_ge.
  - intros g g' Hg Hg'. unfold hint. destruct (Z.ltb_spec g boar); [|lia]. destruct (Z.ltb_spec g' boar); [lia|]. by vm_compute.
Qed.

Lemma seven_guesses_suffice_witness : 1 <= 100 <= forestSize /\ fst (fst (round 100 (typed (bisect 7 1 forestSize 100) ++ []))) = Some true.
Proof. split; [unfold forestSize; lia|]. apply (seven_guesses_suffice 100 []). unfold forestSize. lia. Defined.

(** ** The program ends *)

Section run_spec.
Context `{UnicodeTables}.

Lemma run_go_ends fuel name pick n i :
  (length i < fuel)%nat ->
  exists r i' o, run_go fuel name pick n i = (r, i', o) /\ (r = None -> i' = [])
    /\ forall more, (fuel <= more)%nat -> run_go more name pick n i = (r, i', o).
Proof.
  revert n i. induction fuel as [|fuel IH]; intros n i Hf; [lia|]. cbn [run_go].
  destruct (round_go_spec (S (length i)) (pick n) 1 i) as (i1 & o1 & E1 & Hle & Hn); [lia|unfold maxTries; lia|].
  fold (round (pick n) i) in E1. revert E1 Hn. generalize (outcome (pick n) (Z.to_nat (maxTries + 1 - 1)) (guesses i)). intros [won|] E1 Hn.
  - destruct (readLine_spec i1) as [[_ [o2 E2]]|(l & i2 & o2 & E2 & _ & Hlt)].
    + eexists None, _, _. split_and!; [unfold bind, say; by rewrite E1, E2|done|]. intros [|more] Hm; [lia|]. cbn [run_go]. unfold bind, say. by rewrite E1, E2.
    + destruct (has_prefix (to_lower l) (str "y")) eqn:Ey.
      * destruct (IH (S n) i2) as (r & i' & o & E & Hr & Hmore); [lia|].
        eexists r, i', _. split_and!; [unfold bind, say; rewrite E1, E2, Ey, E; reflexivity|done|].
        intros [|more] Hm; [lia|]. cbn [run_go]. unfold bind, say. rewrite E1, E2, Ey, (Hmore more) by lia. reflexivity.
      * eexists (Some tt), i2, _. split_and!; [unfold bind, say; rewrite E1, E2, Ey; reflexivity|done|].
        intros [|more] Hm; [lia|]. cbn [run_go]. unfold bind, say. rewrite E1, E2, Ey. reflexivity.
  - eexists None, i1, o1. split_and!; [unfold bind; by rewrite E1|intros _; by apply Hn|]. intros [|more] Hm; [lia|]. cbn [run_go]. unfold bind. by rewrite E1.
Qed.

(** Whatever is typed, the program ends: it says goodbye or has read all of its input, and no bound on the number of
    rounds cuts it short. *)
Theorem hunt_ends (name : bytes) (pick : nat -> Z) (i : bytes) :
  exists r i' o, run name pick i = (r, i', banner name ++ o) /\ (r = None -> i' = [])
    /\ forall more, (length i < more)%nat -> run_go more name pick 0 i = (r, i', o).
Proof.
  destruct (run_go_ends (S (length i)) name pick 0 i) as (r & i' & o & E & Hr & Hm); [lia|].
  exists r, i', o. unfold run, bind, say. rewrite E. split_and!; [done..|]. intros more Hlt. apply Hm. lia.
Qed.
End run_spec.

(** ** The name *)

Section name_spec.
Context `{UnicodeTables} `{BBS}.

Abbreviation plain := (Forall print_byte).

Lemma drop_file_split ls : ls <> [] -> Forall (Forall clean_byte) ls -> split_byte (drop_file ls) 10 = ((fun l => Encode CP437 l ++ [13]) <$> ls) ++ [[]].
Proof.
  intros Hne Hls. rewrite drop_file_concat by done. clear Hne. induction Hls as [|l ls Hl Hls IH]; [done|].
  destruct (shown_no_break _ (Encode_shown _ Hl)) as [H13 H10]. cbn [mbind list_bind fmap list_fmap].
  replace ((Encode CP437 l ++ [13; 10]) ++ _) with ((Encode CP437 l ++ [13]) ++ 10 :: (ls ≫= fun l => Encode CP437 l ++ [13; 10])) by by rewrite <-!app_assoc.
  rewrite split_byte_app; [by rewrite IH|]. intros [?|[?|[]%not_elem_of_nil]%elem_of_cons]%elem_of_app; done.
Qed.

(** A valid handle is plain text with letters at its ends. *)
Lemma valid_handle_plain h : ValidateHandle h = Ok tt ->
  plain h /\ h <> [] /\ (forall b, head h = Some b -> graphic b = true) /\ (forall b, last h = Some b -> graphic b = true).
Proof.
  intros (_ & (c & h' & -> & Hc) & Hf & Hl & _)%ValidateHandle_spec.
  assert (forall b, handle_char b = true -> 33 <= b <= 126) as Hg.
  { intros b. unfold handle_char, isLetter, is_digit, between. rewrite !orb_true_iff, !andb_true_iff, !Z.leb_le, !Z.eqb_eq. lia. }
  split_and!; [| done| |].
  - eapply Forall_impl; [exact Hf|]. cbn. intros b [Hb%Hg| ->]; unfold print_byte; lia.
  - intros b [= <-]. unfold isLetter, graphic, between in *. bool_prop. lia.
  - intros b Hb. pose proof (last_Some_elem_of _ _ Hb) as Hin. rewrite Forall_forall in Hf. destruct (Hf b Hin) as [Hx%Hg| ->]; [|done].
    unfold graphic, between. bool_prop. lia.
Qed.

Lemma trim_space_CR s :
  s <> [] -> (forall b, head s = Some b -> graphic b = true) -> (forall b, last s = Some b -> graphic b = true) -> trim_space (s ++ [13]) = s.
Proof.
  intros Hne Hh Hl. destruct (exists_last Hne) as (s' & z & ->).
  assert (trim_space_right ((s' ++ [z]) ++ [13]) = trim_space_right (s' ++ [z])) as Hr.
  { unfold trim_space_right. rewrite (reverse_app _ [13]). reflexivity. }
  unfold trim_space. assert (trim_space_left ((s' ++ [z]) ++ [13]) = (s' ++ [z]) ++ [13]) as ->.
  { destruct s' as [|b s']; cbn [app]; apply trim_space_left_graphic, Hh; done. }
  rewrite Hr. apply trim_space_right_graphic, Hl. by rewrite last_snoc.
Qed.

(** C37: A caller of the board is greeted by the handle of their account: from the DOOR.SYS that the board writes for a
    caller with a valid handle, whatever their location and the other values are, the door reads exactly that handle. *)
Theorem door_greets_the_caller (dir : bytes) (c : DoorCaller) (now : Z) (fs : FS)
    (Hc : caller_bytes c) (Hv : ValidateHandle (dc_handle c) = Ok tt) :
  aliasFrom (WriteDropFiles dir c now fs !! filepath_Join [dir; DoorSys]) = dc_handle c.
Proof.
  destruct (valid_handle_plain _ Hv) as (Hp & Hne & Hh & Hl). unfold WriteDropFiles. rewrite lookup_insert_eq. unfold aliasFrom.
  rewrite drop_file_split; [|done|by apply doorSys_shown]. rewrite lookup_app_l by (rewrite length_fmap; cbn; lia).
  rewrite list_lookup_fmap. change (doorSys c now !! (aliasLine - 1)%nat) with (Some (clean_value (dc_handle c))). cbn [fmap option_fmap option_map].
  unfold clean_value. rewrite StripControl_plain, (trim_space_id (dc_handle c)), Encode_plain, trim_space_CR by done. by rewrite bool_decide_eq_false_2.
Qed.
End name_spec.

Lemma door_greets_the_caller_witness :
  let _ := ascii_tables in
  ValidateHandle (str "Kasia K.") = Ok tt
  /\ aliasFrom (@WriteDropFiles ascii_tables demo_clock (str "/tmp/node3") demo_caller 0 ∅ !! filepath_Join [str "/tmp/node3"; DoorSys]) = str "Kasia K.".
Proof.
  cbn zeta. split; [vm_compute; reflexivity|].
  apply (@door_greets_the_caller ascii_tables demo_clock (str "/tmp/node3") demo_caller 0 ∅).
  - repeat split; repeat constructor; vm_compute; congruence.
  - vm_compute. reflexivity.
Defined.
