(* ===== verification/Process.v ===== *)
(** * Running a door's program: [internal/doors/process.go], and the bridge of [internal/bbs/doors.go]

    [Start] is a function of what the operating system answers, and keeps account of the descriptors it holds.  From then on
    the program, its children, [cmd.Wait], the copier of its output and the session are goroutines with a program
    counter each; a run is any sequence of their events.  The theorems: exactly what stays open when [Start] has failed, and that
    [Kill] closes the rest of a door that it started; when its time is up a door ends.  What can outlast it is a child that the program left behind. *)

From Stdlib Require Import Ascii String ZArith Lia.
From stdpp Require Import base tactics list gmap strings relations.
From S2P Require Import Prelude GoStrings StoreDemo Doors.
Open Scope Z_scope.

(** ** Start *)

(** What can be open: the listener of a tcp door, the two ends of standard input and of standard output, the connection. *)
Inductive fd := FListener | FStdin | FStdinChild | FOutR | FOutW | FConn.
#[global] Instance fd_dec : EqDecision fd.
Proof. solve_decision. Defined.

(** Which case [acceptDoor] takes. *)
Inductive accept_case := Connected | AcceptFailed | ExitedFirst | NeverConnected | CtxDone.
#[global] Instance accept_case_dec : EqDecision accept_case.
Proof. solve_decision. Defined.

(** The answers: the port listened on, if any; whether the two pipes and the program can be made; how the program connects; and
    whether a connection arrives although another case was taken. *)
Record start_world := MkWorld { sw_port : option Z; sw_stdin : bool; sw_pipe : bool; sw_start : bool; sw_accept : accept_case; sw_late : bool }.

Inductive start_error := ErrListen | ErrStdin | ErrPipe | ErrProgram | ErrAccept (a : accept_case).

(** [exec.Cmd] as [Start] fills it in. *)
Record command := MkCommand { cm_args : list bytes; cm_dir : bytes; cm_env : list bytes }.

Definition is_tcp (d : Door) : bool := bool_decide (dr_io d = IOTCP).
Definition is_stdio (d : Door) : bool := bool_decide (dr_io d = IOStdio).

Definition door_command `{UnicodeTables} (getenv : bytes -> option bytes) (d : Door) (vars : Vars) : command :=
  MkCommand (expand vars <$> dr_command d) (expand vars (dr_dir d)) (doorEnv getenv vars).

Definition closed (l : list fd) (open : list fd) : list fd := filter (fun f => f ∉ l) open.

(** [closePipes] *)
Definition closePipes (open : list fd) : list fd := closed [FOutR; FOutW] open.

(** [pipeStdio] *)
Definition pipeStdio (w : start_world) (open : list fd) : option start_error * list fd :=
  if negb (sw_stdin w) then (Some ErrStdin, open)
  else let open := FStdin :: FStdinChild :: open in
  if negb (sw_pipe w) then (Some ErrPipe, open) else (None, FOutR :: FOutW :: open).

(** [acceptDoor], its listener still open. *)
Definition acceptDoor (w : start_world) (open : list fd) : option start_error * list fd :=
  if bool_decide (sw_accept w = Connected) then (None, FConn :: open)
  else (Some (ErrAccept (sw_accept w)), if sw_late w then FConn :: open else open).

(** [Start]: the command it ran, or why not, and the descriptors open when it has returned. *)
Definition Start `{UnicodeTables} (getenv : bytes -> option bytes) (w : start_world) (d : Door) (vars : Vars) : result start_error command * list fd :=
  let return_ (r : result start_error command) (open : list fd) := (r, closed [FListener] open) in   (* [defer ln.Close()] *)
  match (if is_tcp d then sw_port w else Some 0) with
  | None => (Err ErrListen, [])
  | Some port =>
      let open := if is_tcp d then [FListener] else [] in
      let vars := if is_tcp d then mergeVars vars [(str "port", itoa port)] else vars in
      let cmd := door_command getenv d vars in
      match (if is_stdio d then pipeStdio w open else (None, open)) with
      | (Some e, open) => return_ (Err e) open
      | (None, open) =>
          if negb (sw_start w) then return_ (Err ErrProgram) (closePipes (closed [FStdin; FStdinChild] open))   (* [cmd.Start] closes its ends *)
          else
            let open := closed [FOutW] (closed [FStdinChild] open) in
            if is_tcp d then
              match acceptDoor w open with
              | (Some e, open) => return_ (Err e) open      (* after [Kill]: no input and no connection is known yet *)
              | (None, open) => return_ (Ok cmd) open
              end
            else return_ (Ok cmd) open
      end
  end.

(** What [Kill] closes of a door that was started. *)
Definition Kill_closes (open : list fd) : list fd := closed [FOutR] (closed [FConn] (closed [FStdin] open)).

(** What is open when [Start] has returned.  A door that started holds something, and [Kill] closes all of it.  When the listener,
    the pipe to the program's input or the program itself fails, nothing is; but both ends of the input stay open when the
    pipe for the output cannot be made, and the connection of a program that connects while [acceptDoor] gives it up. *)
Theorem Start_descriptors `{UnicodeTables} (getenv : bytes -> option bytes) (w : start_world) (d : Door) (vars : Vars) :
  dr_io d = IOStdio \/ dr_io d = IOTCP ->
  let '(r, open) := Start getenv w d vars in
  match r with
  | Ok _ => open <> [] /\ Kill_closes open = []
  | Err ErrPipe => open = [FStdin; FStdinChild]
  | Err (ErrAccept a) => open = (if sw_late w then [FConn] else []) /\ a <> Connected
  | Err _ => open = []
  end.
Proof.
  unfold Start, pipeStdio, acceptDoor, is_stdio, is_tcp. intros [-> | ->].
  - rewrite bool_decide_eq_false_2, bool_decide_eq_true_2 by done. destruct (sw_stdin w), (sw_pipe w), (sw_start w); by vm_compute.
  - rewrite bool_decide_eq_true_2, bool_decide_eq_false_2 by done. destruct (sw_port w) as [port|]; [|done].
    destruct (sw_start w); [|by vm_compute]. case_bool_decide; [by vm_compute|]. by destruct (sw_late w).
Qed.

(** A door over TCP that connects. *)
Lemma Start_descriptors_witness :
  let d := MkDoor (str "lord") (str "LORD") [] [str "/usr/bin/lord"; str "-p"; str "{port}"] [] IOTCP false false 60 in
  let w := MkWorld (Some 4000) true true true Connected false in
  exists cmd open, Start (fun _ => None) w d [] = (Ok cmd, open) /\ cm_args cmd = [str "/usr/bin/lord"; str "-p"; str "4000"]
    /\ open <> [] /\ Kill_closes open = [].
Proof.
  intros d w. eexists _, _. match goal with |- ?A /\ _ => assert A as E by (vm_compute; reflexivity) end. split; [exact E|]. split; [reflexivity|].
  pose proof (Start_descriptors (fun _ => None) w d [] (or_intror eq_refl)) as H. rewrite E in H. exact H.
Defined.

(** ** The bridge *)

(** [bridgeDoor]: in its [select]; waiting for the copier after the program has exited; in [Kill], waiting for the
    program to be dead; waiting for the copier after that; returned. *)
Inductive bridge_pc := BSelect | BExited | BKill | BKilled | BReturned.

Record bridge_state := MkBridge {
  b_main : bool;      (* the program runs *)
  b_children : bool;  (* and so does a child of it, which has the same output *)
  b_done : bool;      (* [cmd.Wait] has returned *)
  b_open : bool;      (* our end of the output *)
  b_copied : bool;    (* [outDone] *)
  b_late : bool;      (* [ctx] is done *)
  b_gone : bool;      (* the caller has hung up *)
  b_pc : bridge_pc
}.

Inductive bridge_event :=
  | VExit | VChildExit                 (* the program, its child *)
  | VWait                              (* [cmd.Wait] returns *)
  | VTimeUp                            (* [ctx]; a program that still runs is killed with its group *)
  | VHangup                            (* the caller *)
  | VCopyEnd | VWriteFails             (* the copier returns: end of output, or the caller does not take it *)
  | SOut | SExited | SLate | SGone     (* the cases of the [select] *)
  | SKilled | SDrained.                (* [<-p.done] in [Kill]; [<-outDone] *)

(** [Kill] up to [<-p.done]: the group is killed, a tcp door's connection closed. *)
Definition kill_group (tcp : bool) (s : bridge_state) : bridge_state :=
  MkBridge false false (b_done s) (b_open s && negb tcp) (b_copied s) (b_late s) (b_gone s) BKill.

Definition goes_to (pc : bridge_pc) (s : bridge_state) : bridge_state :=
  MkBridge (b_main s) (b_children s) (b_done s) (b_open s) (b_copied s) (b_late s) (b_gone s) pc.

(** [orphans]: a child may outlive the program. *)
Definition bridge_step (tcp orphans : bool) (e : bridge_event) (s : bridge_state) : option bridge_state :=
  let '(MkBridge main children done open copied late gone pc) := s in
  let when (c : bool) (s : bridge_state) := if c then Some s else None in
  match e, pc with
  | VExit, _ => when main (MkBridge false (children && orphans) done open copied late gone pc)
  | VChildExit, _ => when children (MkBridge main false done open copied late gone pc)
  | VWait, _ => when (negb main && negb done) (MkBridge main children true open copied late gone pc)
  | VTimeUp, _ => when (negb late) (MkBridge false (children && negb main) done open copied true gone pc)
  | VHangup, _ => when (negb gone) (MkBridge main children done open copied late true pc)
  | VCopyEnd, _ => when (negb copied && (negb (main || children) || negb open)) (MkBridge main children done open true late gone pc)
  | VWriteFails, _ => when (negb copied && gone && (main || children)) (MkBridge main children done open true late gone pc)
  | SOut, BSelect => when copied (goes_to BReturned s)
  | SExited, BSelect => when done (goes_to BExited s)
  | SLate, BSelect => when late (kill_group tcp s)
  | SGone, BSelect => when gone (kill_group tcp s)
  | SKilled, BKill => when done (MkBridge main children done false copied late gone BKilled)
  | SDrained, BExited | SDrained, BKilled => when copied (goes_to BReturned s)
  | _, _ => None
  end.

(** A door that has just been started, with a child or without. *)
Definition new_bridge (children : bool) : bridge_state := MkBridge true children false true false false false BSelect.

Definition bridge_runs (tcp orphans : bool) (s s' : bridge_state) : Prop := exists e, bridge_step tcp orphans e s = Some s'.

(** What happens by itself: the goroutines, once there is something for them to do. *)
Definition by_itself (e : bridge_event) : bool := match e with VWait | VCopyEnd | SOut | SExited | SLate | SGone | SKilled | SDrained => true | _ => false end.

Definition bridge_turn (tcp orphans : bool) (s s' : bridge_state) : Prop := exists e, by_itself e = true /\ bridge_step tcp orphans e s = Some s'.

Definition bridge_weight (s : bridge_state) : nat :=
  match b_pc s with BSelect => 3 | BKill => 2 | BExited | BKilled => 1 | BReturned => 0 end + (if b_done s then 0 else 1) + (if b_copied s then 0 else 1).

Definition bridge_inv (s : bridge_state) : Prop :=
  (b_main s = false -> b_children s = false) /\ (b_late s = true -> b_main s = false) /\ (b_done s = true -> b_main s = false)
  /\ match b_pc s with BExited | BKilled => b_done s = true | BKill => b_main s = false | _ => True end.

(** The guard of an event that happened. *)
Ltac bridge_guard H :=
  match type of H with
  | (if ?c then _ else _) = _ => let Ec := fresh "Ec" in destruct c eqn:Ec; [injection H as <-|discriminate H]; rewrite ?andb_true_iff, ?orb_true_iff, ?negb_true_iff in Ec
  end.

Lemma bridge_step_inv tcp e s s' : bridge_step tcp false e s = Some s' -> bridge_inv s -> bridge_inv s'.
Proof.
  destruct s as [main children done open copied late gone pc]. unfold bridge_inv. cbn [b_main b_children b_late b_done b_pc]. intros H (I1 & I2 & I3 & I4).
  destruct e, pc; cbn in H; try discriminate H; bridge_guard H; cbn; rewrite ?andb_false_r; split_and!; intros; auto; try (by intuition congruence); destruct main, children; cbn in *; intuition congruence.
Qed.

Lemma bridge_turn_decreases tcp orphans s s' : bridge_turn tcp orphans s s' -> (bridge_weight s' < bridge_weight s)%nat /\ b_late s' = b_late s.
Proof.
  intros (e & He & H). destruct s as [main children done open copied late gone pc]. unfold bridge_weight. cbn [b_done b_copied b_pc b_late].
  destruct e; try discriminate He; destruct pc; cbn in H; try discriminate H; bridge_guard H; cbn; (split; [|done]); try lia.
  all: destruct Ec as [Ec1 Ec2]; rewrite ?Ec1, ?Ec2; lia.
Qed.

Lemma bridge_enabled tcp s : bridge_inv s -> b_late s = true -> (forall s', ~ bridge_turn tcp false s s') -> b_pc s = BReturned.
Proof.
  destruct s as [main children done open copied late gone pc]. unfold bridge_inv. cbn. intros (I1 & I2 & I3 & I4) -> Hs. rewrite (I2 eq_refl) in *. rewrite (I1 eq_refl) in *.
  assert (forall e, by_itself e = true -> bridge_step tcp false e (MkBridge false false done open copied true gone pc) = None) as Hno.
  { intros e He. destruct (bridge_step _ _ _ _) as [s'|] eqn:E; [|done]. exfalso. apply (Hs s'). by exists e. }
  pose proof (Hno VWait eq_refl). pose proof (Hno VCopyEnd eq_refl). pose proof (Hno SLate eq_refl). pose proof (Hno SKilled eq_refl). pose proof (Hno SDrained eq_refl).
  cbn in *. by destruct done, copied, pc.
Qed.

(** C38: When its time is up a door ends: if no child outlives the program, the session is back after at most five turns of its
    goroutines, whatever the program, the caller and the copier were doing. *)
Theorem door_ends_in_time (tcp children : bool) (s s' : bridge_state) (n : nat) :
  rtc (bridge_runs tcp false) (new_bridge children) s -> b_late s = true -> nsteps (bridge_turn tcp false) n s s' ->
  (n <= 5)%nat /\ ((forall s'', ~ bridge_turn tcp false s' s'') -> b_pc s' = BReturned).
Proof.
  intros Hr Hl Hn. assert (bridge_inv (new_bridge children)) as H0 by by destruct children.
  assert (bridge_inv s) as Hi.
  { clear Hl Hn. induction Hr as [|x y z [e He] _ IH]; [done|]. by apply IH, (bridge_step_inv tcp e x). }
  clear Hr H0. assert (n <= bridge_weight s /\ bridge_inv s' /\ b_late s' = true)%nat as (Hle & Hi' & Hl').
  { induction Hn as [s|n x y z Hx Hn IH]; [split_and!; try done; lia|]. destruct (bridge_turn_decreases _ _ _ _ Hx) as [Hd El]. destruct Hx as (e & _ & He).
    destruct IH as (? & ? & ?); [congruence|by apply (bridge_step_inv tcp e x)|]. split_and!; try done. lia. }
  split; [|by apply (bridge_enabled tcp)]. unfold bridge_weight in Hle. destruct (b_pc s), (b_done s), (b_copied s); lia.
Qed.

Fixpoint run_bridge (tcp orphans : bool) (es : list bridge_event) (s : bridge_state) : option bridge_state :=
  match es with [] => Some s | e :: es => bridge_step tcp orphans e s ≫= run_bridge tcp orphans es end.

Lemma run_bridge_runs tcp orphans es s s' : run_bridge tcp orphans es s = Some s' -> rtc (bridge_runs tcp orphans) s s'.
Proof.
  revert s. induction es as [|e es IH]; intros s; cbn; [by intros [= ->]|]. intros (s1 & H1 & H2)%bind_Some. eapply rtc_l; [by exists e|by apply IH].
Qed.

(** A program with a child, whose time is up while it runs: [Kill], and it is over. *)
Lemma door_ends_in_time_witness :
  exists s s', run_bridge false false [VTimeUp] (new_bridge true) = Some s /\ nsteps (bridge_turn false false) 5 s s' /\ (5 <= 5)%nat /\ b_pc s' = BReturned.
Proof.
  eexists _, _. split; [reflexivity|]. match goal with |- ?A /\ _ => assert A as Hn end.
  { eapply nsteps_l; [by exists SLate|]. eapply nsteps_l; [by exists VWait|]. eapply nsteps_l; [by exists SKilled|]. eapply nsteps_l; [by exists VCopyEnd|].
    eapply nsteps_l; [by exists SDrained|]. apply nsteps_O. }
  split; [exact Hn|]. destruct (door_ends_in_time false true _ _ 5 (run_bridge_runs false false [VTimeUp] (new_bridge true) _ eq_refl) eq_refl Hn) as [H _]. split; [exact H|reflexivity].
Defined.

(** A child that outlives the program keeps the caller: once [bridgeDoor] has seen the program exit, neither the time limit nor the
    caller's hanging up ends it, only the child or its writing to a caller who is gone. *)
Definition kept_by_child (s : bridge_state) : Prop := b_children s = true /\ b_open s = true /\ b_copied s = false /\ b_pc s = BExited.

Lemma kept_reached : exists s, rtc (bridge_runs false true) (new_bridge true) s /\ kept_by_child s.
Proof. eexists. split; [by apply (run_bridge_runs _ _ [VExit; VWait; SExited])|by vm_compute]. Qed.

Lemma child_keeps_caller (e : bridge_event) (s s' : bridge_state) :
  kept_by_child s -> bridge_step false true e s = Some s' -> e <> VChildExit -> e <> VWriteFails -> b_main s = false -> kept_by_child s' /\ b_main s' = false.
Proof.
  destruct s as [main children done open copied late gone pc]. unfold kept_by_child. cbn. intros (-> & -> & -> & ->) H He He' ->.
  destruct e; cbn in H; try discriminate H; try bridge_guard H; try done; by cbn.
Qed.
