(* ===== verification/BoarMain.v ===== *)
(** * Starting the program: [cmd/boar/main.go]

    From the options, as package flag leaves them, to the servers that run, or the error that [run] reports.  What the
    system answers (the store, the doors file, listening) are arguments.  The theorem: a program that gets to run its servers has a
    configuration that the other parts' theorems can rely on.  [serveAll] runs them until all have returned. *)

From Stdlib Require Import Ascii String ZArith Lia.
From stdpp Require Import base tactics list gmap strings relations.
From S2P Require Import Prelude GoStrings GoTime GoFiles StoreDB StoreUsers StoreInv StoreDemo FileLink Smtp MailMessage Doors.
From S2P Require FtnAddr FtnOutbound.
Open Scope Z_scope.

Definition maxNodesLimit : Z := 999.
Definition mailQueueSize : Z := 256.
Definition one_minute : Z := 60000000000.

(** [options]; durations in nanoseconds. *)
Record options := MkOptions {
  telnetAddr : bytes; sshAddr : bytes; hostKey : bytes; dataPath : bytes; artDir : bytes; doorsFile : bytes; doorsDir : bytes;
  name : bytes; sysop : bytes; maxNodes : Z; approve : bool; maxSignups : Z; idle : Z;
  smtpHost : bytes; smtpPort : Z; smtpUser : bytes; smtpFrom : bytes; publicAddr : bytes; webAddr : bytes;
  ftnInbound : bytes; ftnInsecure : bytes; ftnAddress : bytes; ftnOutbound : bytes; ftnZone : Z; ftnDirect : bytes; ftnVia : bytes; ftnSysop : bytes;
  files : bytes; filesWeb : bytes; filesURL : bytes; filesKey : bytes; filesLinkTTL : Z
}.

(** The values of the flags that are not given. *)
Definition default_options : options :=
  MkOptions (str ":2323") (str ":2222") (str "data/ssh_host_ed25519_key") (str "data/boar.db") (str "data/art") (str "data/doors.json") (str "data/doors")
    (str "Boar BBS") [] 32 true 20 (15 * one_minute) [] 587 [] [] [] [] [] [] [] [] 2 [] [] [] [] [] [] [] (1440 * one_minute).

Inductive boot_error :=
  | BadNodes | BadIdle | NoTransport | NoMailFrom | FilesNeedMore
  | NoStore | NotPromoted (e : store_error) | BadDoors | FtnAddress (e : FtnAddr.addr_error) | FtnDirect (e : FtnAddr.addr_error) | FtnVia (e : FtnAddr.addr_error)
  | OutboundNeedsAddress | BadLinkKey | BadMail (e : smtp_error) | NoHostKey | CannotListen (addr : bytes).

Definition given (s : bytes) : bool := negb (bool_decide (s = [])).

(** [parseFlags], after [flag.Parse]. *)
Definition parseFlags (o : options) : result boot_error options :=
  if (maxNodes o <? 1) || (maxNodesLimit <? maxNodes o) then Err BadNodes
  else if idle o <? one_minute then Err BadIdle
  else if negb (given (telnetAddr o)) && negb (given (sshAddr o)) then Err NoTransport
  else if given (smtpHost o) && negb (given (smtpFrom o)) then Err NoMailFrom
  else if (given (filesWeb o) || given (filesURL o)) && (negb (given (files o)) || negb (given (filesWeb o)) || negb (given (filesURL o))) then Err FilesNeedMore
  else Ok (if given (filesKey o) then o
           else MkOptions (telnetAddr o) (sshAddr o) (hostKey o) (dataPath o) (artDir o) (doorsFile o) (doorsDir o) (name o) (sysop o) (maxNodes o) (approve o)
                  (maxSignups o) (idle o) (smtpHost o) (smtpPort o) (smtpUser o) (smtpFrom o) (publicAddr o) (webAddr o) (ftnInbound o) (ftnInsecure o)
                  (ftnAddress o) (ftnOutbound o) (ftnZone o) (ftnDirect o) (ftnVia o) (ftnSysop o) (files o) (filesWeb o) (filesURL o)
                  (filepath_Join [filepath_Dir (dataPath o); str "files.key"]) (filesLinkTTL o)).

(** [bbs.FTNConfig] and its [enabled]. *)
Record FTNConfig := MkFTN { fc_Addresses : list FtnAddr.Addr; fc_Outbound : FtnOutbound.Outbound; fc_Routes : FtnAddr.Routes; fc_SysopName : bytes }.

Definition enabled (c : FTNConfig) : bool := match fc_Addresses c with [] => false | _ => given (FtnOutbound.Root (fc_Outbound c)) end.

(** [bbs.Config], its [Mail] as the sender behind the queue. *)
Record Config := MkConfig {
  cf_Name : bytes; cf_MaxNodes : Z; cf_MaxSignups : Z; cf_Idle : Z; cf_ArtDir : bytes; cf_Public : bytes; cf_Doors : list Door; cf_DoorsDir : bytes;
  cf_FTN : FTNConfig; cf_Files : bytes; cf_Links : option (bytes * bytes * Z); cf_Mail : option SMTPConfig
}.

(** The servers that [run] collects. *)
Inductive server := STelnet | SSSH | SWeb | SFiles (key : bytes) | STosser (dirs : list bytes).

Definition map_err {A E F} (f : E -> F) (r : result E A) : result F A := match r with Ok a => Ok a | Err e => Err (f e) end.

Section boot.
Context `{UnicodeTables} `{Crypto} `{MailParser}.

Definition ftnConfig (o : options) : result boot_error FTNConfig :=
  own ← map_err FtnAddress (FtnAddr.ParseAddrList (ftnAddress o));
  direct ← map_err FtnDirect (FtnAddr.ParseAddrList (ftnDirect o));
  via ← (if given (ftnVia o) then map_err FtnVia (FtnAddr.ParseAddr (ftnVia o)) else Ok FtnAddr.zero_addr);
  out ← (if given (ftnOutbound o) then
           match own with [] => Err OutboundNeedsAddress | _ => Ok (FtnOutbound.MkOutbound (ftnOutbound o) (ftnZone o)) end
         else Ok (FtnOutbound.MkOutbound [] 0));
  Ok (MkFTN own out (FtnAddr.MkRoutes direct via) (ftnSysop o)).

Definition newMailQueue (o : options) (password : bytes) : result boot_error SMTPConfig :=
  map_err BadMail (NewSMTPSender (MkSMTP (smtpHost o) (smtpPort o) (smtpUser o) password (smtpFrom o) (name o))).

(** [promote] *)
Definition promote (handle : bytes) (db : DB) : result boot_error DB := '(_, db) ← map_err NotPromoted (BootstrapSysop handle db); Ok db.

(** What the system answers: the doors file decoded (none if there is none), whether the host key can be had, whether one
    can listen on an address, the SMTP password, random bytes for a new link key. *)
Record boot_world := MkBoot {
  bw_doors : option (list Door); bw_hostKey : bool; bw_listen : bytes -> bool; bw_password : bytes; bw_random : bytes
}.

Definition LoadConfig (ds : option (list Door)) : result boot_error (list Door) :=
  match ds with None => Ok [] | Some ds => map_err (fun _ => BadDoors) (Validate ds) end.

Definition listen (w : boot_world) (addr : bytes) (s : server) : result boot_error (list server) :=
  if negb (given addr) then Ok [] else if bw_listen w addr then Ok [s] else Err (CannotListen addr).

(** [run] up to [serveAll], from the store that [store.Open] opened and the file system. *)
Definition run (o : options) (w : boot_world) (db : option DB) (fs : FS) : result boot_error (Config * list server) * option DB * FS :=
  match parseFlags o with
  | Err e => (Err e, db, fs)
  | Ok o =>
      match db with
      | None => (Err NoStore, db, fs)
      | Some db =>
          match (if given (sysop o) then promote (sysop o) db else Ok db) with
          | Err e => (Err e, Some db, fs)
          | Ok db =>
              let start : result boot_error (list Door * FTNConfig) := ds ← LoadConfig (bw_doors w); ftn ← ftnConfig o; Ok (ds, ftn) in
              match start with
              | Err e => (Err e, Some db, fs)
              | Ok (ds, ftn) =>
                  let '(key, fs) := if given (filesWeb o) then LoadKey (filesKey o) (bw_random w) fs else (Ok [], fs) in
                  let rest : result boot_error (Config * list server) :=
                    key ← map_err (fun _ => BadLinkKey) key;
                    mail ← (if given (smtpHost o) then s ← newMailQueue o (bw_password w); Ok (Some s) else Ok None);
                    let cfg := MkConfig (name o) (maxNodes o) (maxSignups o) (idle o) (artDir o) (publicAddr o) ds (doorsDir o) ftn (files o)
                                 (if given (filesWeb o) then Some (filesURL o, key, filesLinkTTL o) else None) mail in
                    telnet ← listen w (telnetAddr o) STelnet;
                    ssh ← (if given (sshAddr o) && negb (bw_hostKey w) then Err NoHostKey else listen w (sshAddr o) SSSH);
                    web ← listen w (webAddr o) SWeb;
                    links ← listen w (filesWeb o) (SFiles key);
                    Ok (cfg, telnet ++ ssh ++ web ++ links
                             ++ if given (ftnInbound o) || given (ftnInsecure o) then [STosser [ftnInbound o; ftnInsecure o]] else []) in
                  (rest, Some db, fs)
              end
          end
      end
  end.
End boot.

(** ** serveAll *)

(** Each server's goroutine: it runs, or has returned its error; and whether [stop] was called. *)
Inductive serve_step {E} : list (option (option E)) * bool -> list (option (option E)) * bool -> Prop :=
| ss_return i (r : option E) l stop : l !! i = Some None -> serve_step (l, stop) (<[i := Some r]> l, stop || match r with Some _ => true | None => false end).

(** [errors.Join] of what they returned. *)
Definition serveAll_result {E} (l : list (option (option E))) : list E := omap (fun r => match r with Some (Some e) => Some e | _ => None end) l.

(** * Theorems *)

Lemma map_err_Ok {A E F} (f : E -> F) (r : result E A) a : map_err f r = Ok a -> r = Ok a.
Proof. by destruct r; cbn; [intros [= ->]|]. Qed.

Lemma parseFlags_ok o o' : parseFlags o = Ok o' ->
  1 <= maxNodes o' <= maxNodesLimit /\ one_minute <= idle o' /\ (given (telnetAddr o') = true \/ given (sshAddr o') = true)
  /\ (given (filesWeb o') = true -> given (files o') = true /\ given (filesURL o') = true).
Proof.
  unfold parseFlags. destruct (Z.ltb_spec (maxNodes o) 1); [done|]. destruct (Z.ltb_spec maxNodesLimit (maxNodes o)); [done|]. cbn [orb].
  destruct (Z.ltb_spec (idle o) one_minute); [done|]. destruct (given (telnetAddr o)) eqn:E1, (given (sshAddr o)) eqn:E2; cbn [negb andb]; try done.
  all: destruct (given (smtpHost o) && negb (given (smtpFrom o))); [done|].
  all: destruct (given (filesWeb o)) eqn:E3, (given (files o)) eqn:E4, (given (filesURL o)) eqn:E5; cbn [negb andb orb]; try done.
  all: intros [= <-]; destruct (given (filesKey o)); cbn; rewrite ?E1, ?E2, ?E3, ?E4, ?E5; split_and!; auto; lia.
Qed.

Section sound.
Context `{UnicodeTables} `{Crypto} `{MailParser}.

Lemma own_addrs_ok l as_ : FtnAddr.parse_addrs l = Ok as_ -> Forall FtnAddr.addr_ok as_.
Proof.
  revert as_. induction l as [|f l IH]; intros as_; cbn [FtnAddr.parse_addrs]; [intros [= <-]; constructor|].
  case_bool_decide; [apply IH|]. intros (a & Ha & E)%bind_Ok. apply bind_Ok in E as (rest & Hr & [= <-]). constructor; [by eapply FtnAddr.ParseAddr_ok|by apply IH].
Qed.

(** What the FidoNet setup of a running program is like. *)
Definition ftn_ok (o : options) (c : FTNConfig) : Prop :=
  Forall FtnAddr.addr_ok (fc_Addresses c) /\ Forall FtnAddr.addr_ok (FtnAddr.Direct (fc_Routes c))
  /\ (FtnAddr.Via (fc_Routes c) = FtnAddr.zero_addr \/ FtnAddr.addr_ok (FtnAddr.Via (fc_Routes c)))
  /\ enabled c = given (ftnOutbound o).

Lemma ftnConfig_ok o c : ftnConfig o = Ok c -> ftn_ok o c.
Proof.
  unfold ftnConfig. intros (own & Ho%map_err_Ok & E)%bind_Ok. apply bind_Ok in E as (direct & Hd%map_err_Ok & E). apply bind_Ok in E as (via & Hv & E).
  apply bind_Ok in E as (out & Hout & [= <-]). unfold ftn_ok. cbn. split_and!; [by eapply own_addrs_ok|by eapply own_addrs_ok| |].
  - destruct (given (ftnVia o)); [right; apply map_err_Ok in Hv; by eapply FtnAddr.ParseAddr_ok|injection Hv as <-; by left].
  - unfold enabled. cbn. destruct (given (ftnOutbound o)) eqn:Eo; [destruct own; [done|injection Hout as <-; done]|injection Hout as <-; by destruct own].
Qed.

Lemma listen_ok w addr s l : listen w addr s = Ok l -> l = (if given addr then [s] else []).
Proof. unfold listen. destruct (given addr); cbn [negb]; [destruct (bw_listen w addr); [by intros [= <-]|done]|by intros [= <-]]. Qed.

Lemma LoadKey_long path rnd fs k fs' : keyBytes <= len rnd -> LoadKey path rnd fs = (Ok k, fs') -> keyBytes <= len k.
Proof.
  unfold LoadKey. intros Hr. destruct (fs !! path) as [key|]; [destruct (Z.ltb_spec (len key) keyBytes); [done|by intros [= <- _]]|].
  intros [= <- _]. unfold len, keyBytes in *. rewrite length_take. lia.
Qed.

(** What a configuration promises to the rest of the program. *)
Record sound (o : options) (cfg : Config) (servers : list server) : Prop := {
  sound_nodes : 1 <= cf_MaxNodes cfg <= maxNodesLimit;
  sound_idle : one_minute <= cf_Idle cfg;
  sound_reachable : STelnet ∈ servers \/ SSSH ∈ servers;
  sound_doors : Forall door_ok (cf_Doors cfg) /\ NoDup (dr_key <$> cf_Doors cfg);
  sound_ftn : ftn_ok o (cf_FTN cfg);
  sound_links : forall key, SFiles key ∈ servers ->
    keyBytes <= len key /\ cf_Files cfg <> [] /\ exists url, url <> [] /\ cf_Links cfg = Some (url, key, filesLinkTTL o);
  sound_mail : forall s, cf_Mail cfg = Some s -> sm_Host s <> [] /\ 0 < sm_Port s /\ is_Some (parse_address (sm_From s))
}.

Lemma given_true s : given s = true <-> s <> [].
Proof. unfold given. by rewrite negb_true_iff, bool_decide_eq_false. Qed.

Lemma servers_of (b1 b2 b3 b4 b5 : bool) key dirs s :
  s ∈ (if b1 then [STelnet] else []) ++ (if b2 then [SSSH] else []) ++ (if b3 then [SWeb] else []) ++ (if b4 then [SFiles key] else [])
      ++ (if b5 then [STosser dirs] else []) <->
  (b1 = true /\ s = STelnet) \/ (b2 = true /\ s = SSSH) \/ (b3 = true /\ s = SWeb) \/ (b4 = true /\ s = SFiles key) \/ (b5 = true /\ s = STosser dirs).
Proof.
  assert (forall (b : bool) x, s ∈ (if b then [x] else []) <-> b = true /\ s = x) as Hif by (intros [] x; rewrite ?elem_of_nil, ?list_elem_of_singleton; naive_solver).
  by rewrite !elem_of_app, !Hif.
Qed.

Lemma mail_ok o password r s :
  (if given (smtpHost o) then s ← newMailQueue o password; Ok (Some s) else Ok None) = Ok r -> r = Some s ->
  sm_Host s <> [] /\ 0 < sm_Port s /\ is_Some (parse_address (sm_From s)).
Proof.
  destruct (given (smtpHost o)); [|by intros [= <-]]. intros (s' & Hs & [= <-])%bind_Ok [= <-]. apply map_err_Ok in Hs. revert Hs. unfold NewSMTPSender. cbn [sm_Host sm_Port sm_From].
  case_bool_decide; [done|]. cbn [orb]. destruct (Z.leb_spec (smtpPort o) 0); [done|]. destruct (parse_address (smtpFrom o)) eqn:Ep; [|done].
  intros [= <-]. cbn. by rewrite Ep.
Qed.

(** C40: A program that gets as far as running its servers: callers can reach it and there is a node for them; every door is one that
    Validate accepts; the FidoNet addresses are in range and netmail can be sent just when there is an outbound; links are
    signed with a long enough key and lead to a directory that was named; mail has a relay and a sender; and the database was
    changed only by making the named account a sysop. *)
Theorem boot_is_sound (c : StoreDB.Config) (o : options) (w : boot_world) (db : DB) (fs : FS) (cfg : Config) (servers : list server) (db' : option DB) (fs' : FS) :
  keyBytes <= len (bw_random w) -> reachable c db ->
  run o w (Some db) fs = (Ok (cfg, servers), db', fs') ->
  exists o' db1, parseFlags o = Ok o' /\ sound o' cfg servers /\ db' = Some db1 /\ reachable c db1
    /\ (sysop o' = [] -> db1 = db) /\ (sysop o' <> [] -> exists u, BootstrapSysop (sysop o') db = Ok (u, db1)).
Proof.
  intros Hrnd Hreach. unfold run. destruct (parseFlags o) as [o1|] eqn:Eo; [|done]. intros E. exists o1.
  destruct (parseFlags_ok _ _ Eo) as (Hn & Hi & Ht & Hf).
  assert (exists db1, (if given (sysop o1) then promote (sysop o1) db else Ok db) = Ok db1 /\ reachable c db1
    /\ (sysop o1 = [] -> db1 = db) /\ (sysop o1 <> [] -> exists u, BootstrapSysop (sysop o1) db = Ok (u, db1))) as (db1 & Edb & Hr1 & Hs1 & Hs2).
  { destruct (given (sysop o1)) eqn:Eg.
    - destruct (promote (sysop o1) db) as [db1|] eqn:Ep; [|done]. exists db1. split; [done|]. unfold promote in Ep. apply bind_Ok in Ep as ([u db2] & Hb%map_err_Ok & [= <-]).
      split_and!; [eapply reach_step; [exact Hreach|by eapply st_bootstrap]|intros Hs; by rewrite Hs in Eg|by exists u].
    - exists db. split_and!; try done. intros Hs%given_true. congruence. }
  rewrite Edb in E. exists db1. destruct (ds ← LoadConfig (bw_doors w); ftn ← ftnConfig o1; Ok (ds, ftn)) as [[ds ftn]|] eqn:Ec; [|done].
  apply bind_Ok in Ec as (ds' & Hds & Ec). apply bind_Ok in Ec as (ftn' & Hftn & [= -> ->]).
  destruct (if given (filesWeb o1) then LoadKey (filesKey o1) (bw_random w) fs else (Ok [], fs)) as [key fs1] eqn:Ek.
  match type of E with (?r, _, _) = _ => destruct r as [[cfg1 servers1]|] eqn:Er; [|done] end. injection E as -> -> <- <-. split; [done|]. split; [|by split_and!].
  apply bind_Ok in Er as (k & Hk%map_err_Ok & Er). apply bind_Ok in Er as (mail & Hm & Er). apply bind_Ok in Er as (tel & Htel%listen_ok & Er).
  apply bind_Ok in Er as (ssh & Hssh & Er). apply bind_Ok in Er as (web & Hweb%listen_ok & Er). apply bind_Ok in Er as (links & Hl%listen_ok & [= <- <-]).
  assert (ssh = if given (sshAddr o1) then [SSSH] else []) as ->.
  { destruct (given (sshAddr o1) && negb (bw_hostKey w)); [done|]. by apply listen_ok in Hssh. }
  subst tel web links. constructor; cbn [cf_MaxNodes cf_Idle cf_Doors cf_FTN cf_Files cf_Links cf_Mail]; try done.
  - rewrite !servers_of. destruct Ht; [left|right]; auto.
  - unfold LoadConfig in Hds. destruct (bw_doors w); [|injection Hds as <-; split; constructor]. apply map_err_Ok in Hds.
    unfold Validate in Hds. apply validate_go_ok in Hds as (? & ? & _). by split.
  - by apply ftnConfig_ok.
  - intros key' Hin%servers_of. assert (given (filesWeb o1) = true /\ key' = k) as [Hw ->] by naive_solver. rewrite Hw in *.
    destruct (Hf eq_refl) as [Hfi Hu]. subst key. split_and!; [by eapply LoadKey_long|by apply given_true|]. exists (filesURL o1). split; [by apply given_true|done].
  - intros s Hs. by eapply mail_ok.
Qed.
End sound.

(** The default flags, a doors file with one door, and Alice made sysop. *)
Definition demo_options : options :=
  MkOptions (telnetAddr default_options) (sshAddr default_options) (hostKey default_options) (dataPath default_options) (artDir default_options) (doorsFile default_options)
    (doorsDir default_options) (name default_options) (str "Alice") 4 true 20 (15 * one_minute) [] 587 [] [] [] [] [] [] (str "2:5030/1651") (str "/var/spool/ftn/out") 2
    [] (str "2:5030/1") [] (str "/srv/files") (str "127.0.0.1:8024") (str "https://bbs.example/f/") [] (1440 * one_minute).

Definition demo_boot : boot_world :=
  MkBoot (Some [MkDoor (str "lord") (str "LORD") [] [str "/usr/bin/lord"] [] [] false true 0]) true (fun _ => true) [] (replicate 40 7).

Lemma boot_is_sound_witness :
  match run demo_options demo_boot (Some demo_db) ∅ with
  | (Ok (cfg, servers), _, _) => servers = [STelnet; SSSH; SFiles (replicate 32 7)] /\ exists o', parseFlags demo_options = Ok o' /\ sound o' cfg servers
  | _ => False
  end.
Proof.
  assert (match fst (fst (run demo_options demo_boot (Some demo_db) ∅)) with Ok (_, servers) => servers = [STelnet; SSSH; SFiles (replicate 32 7)] | Err _ => False end) as Hv
    by (vm_compute; reflexivity).
  destruct (run demo_options demo_boot (Some demo_db) ∅) as [[[[cfg servers]|e] db'] fs'] eqn:E; [|exact Hv]. split; [exact Hv|]. clear Hv.
  destruct (boot_is_sound demo_cfg demo_options demo_boot demo_db ∅ cfg servers db' fs') as (o' & db1 & Ho & Hs & _); [vm_compute; discriminate|apply demo_reachable|exact E|].
  exists o'. split; [exact Ho|exact Hs].
Defined.

(** ** serveAll *)

(** It returns when every server has; the errors are theirs, in order, and if there is one the others were told to stop. *)
Lemma serveAll_stops {E} n (l : list (option (option E))) stop :
  rtc serve_step (replicate n None, false) (l, stop) -> length l = n /\ (stop = true <-> serveAll_result l <> []).
Proof.
  assert (forall s s' : list (option (option E)) * bool, serve_step s s' -> (s.2 = true <-> serveAll_result s.1 <> []) -> length s'.1 = length s.1 /\ (s'.2 = true <-> serveAll_result s'.1 <> [])) as Hs.
  { intros _ _ [i r l0 st Hl] Hi. cbn in *. rewrite length_insert. split; [done|]. unfold serveAll_result in *.
    rewrite insert_take_drop by by apply lookup_lt_Some in Hl. rewrite <-(take_drop_middle l0 i None Hl) in Hi. rewrite omap_app in *. cbn in *.
    destruct r as [e|]; [|by rewrite orb_false_r]. rewrite orb_true_r. split; [|done]. intros _ [_ ?]%app_eq_nil. done. }
  intros Hr. assert (forall s s' : list (option (option E)) * bool, rtc serve_step s s' -> (s.2 = true <-> serveAll_result s.1 <> []) ->
    length s'.1 = length s.1 /\ (s'.2 = true <-> serveAll_result s'.1 <> [])) as Hrtc.
  { induction 1 as [|x y z Hxy _ IH]; [done|]. intros Hi. destruct (Hs _ _ Hxy Hi) as [Hl Hi']. destruct (IH Hi') as [Hl' H']. split; [congruence|done]. }
  assert (forall n, serveAll_result (replicate n (@None (option E))) = []) as Hnone by (clear; intros n; by induction n as [|n IH]).
  destruct (Hrtc _ _ Hr) as [Hl H']; [cbn [fst snd]; by rewrite Hnone|]. cbn [fst snd] in *. by rewrite Hl, length_replicate.
Qed.
