(* ===== verification/DoorsMenu.v ===== *)
(** * The door games: [internal/bbs/doors.go]

    The program that runs is a parameter: what it sends, when it takes a key, and how it ends, as a list of events.
    Between two events the caller may hang up. *)

From Stdlib Require Import Ascii String ZArith Lia.
From stdpp Require Import base tactics list gmap strings.
From S2P Require Import Prelude GoStrings GoTime GoFiles Term StoreDB StoreUsers StoreMail StoreBoards Limits Nodes Mailer Server Ui Session Editor Screens Login Doors.
Open Scope Z_scope.

(** What happens while a door runs: it sends bytes, the caller's next byte is taken, it exits, its time is up. *)
Inductive door_event := FromDoor (p : bytes) | FromCaller | Exited | TimeUp.

(** [doors.Start]: [None] when the program does not start; else how it goes. *)
Class DoorWorld := {
  cfg_Doors : list Door;
  cfg_DoorsDir : bytes;
  door_minute : Z;
  abs_path : bytes -> bytes;
  door_start : Door -> Vars -> Z -> option (list door_event)
}.

Definition eventDoor : bytes := str "door".
Definition doorSysopName : bytes := str "Sysop".

Section doors.
Context `{UnicodeTables} `{Crypto} `{MailParser} `{FoldTables} `{BBS} `{DoorWorld}.

Definition visibleDoors (u : UserRow) : list Door := filter (fun d => dr_sysop d = false \/ u_sysop u = true) cfg_Doors.

Definition doorCountNote : M bytes :=
  u ← me; let n := len (visibleDoors u) in mret (if n =? 0 then [] else colDim ++ str "(" ++ itoa n ++ str ")").

(** [TryLock] and [Unlock] of a door's mutex. *)
Definition door_trylock (key : bytes) : Proc bool :=
  atom (fun s => if decide (key ∈ sv_doors s) then (false, s) else (true, set_doors ({[key]} ∪ sv_doors s) s)).
Definition door_unlock (key : bytes) : Proc unit := atom (fun s => (tt, set_doors (sv_doors s ∖ {[key]}) s)).

(** [doorInput]: what a byte from the caller becomes for the door, and the bytes that wait to be completed. *)
Definition doorInput (cs : Charset) (b : Z) (ubuf : bytes) : bytes * bytes :=
  match cs with
  | UTF8 =>
      if b <? 128 then ([b], ubuf)
      else match decodeHigh cs b ubuf with
           | (Some r, ubuf) => (Encode CP437 (encode_rune r), ubuf)
           | (None, ubuf) => ([], ubuf)
           end
  | _ => ([b], ubuf)
  end.

(** The next byte of the input, past the changes of the window; nothing once the caller has hung up. *)
Fixpoint next_byte (i : list input) (size : Z * Z) : option Z * list input * (Z * Z) :=
  match i with
  | Key b :: i => (Some b, i, size)
  | Resize w h :: i => next_byte i (w, h)
  | Wake _ :: i => next_byte i size
  | i => (None, i, size)
  end.

(** [bridgeDoor], with what the door has received so far.  A write of the door's output that fails ends the bridge without
    an error of the session's. *)
Fixpoint bridge (evs : list door_event) (taken : bytes) : M (bytes * bool) :=
  match evs with
  | FromDoor p :: evs =>
      cs ← get se_cs;
      ok ← (fun s =>
              let se := sess s in
              let after := write_bytes (TranscodeCP437 p cs) (with_output (se_out se) (se_room se) false se) in
              (Ok (negb (se_werr after)), on_sess (fun se => with_output (se_out after) (se_room after) (se_werr se) se) s));
      if ok : bool then bridge evs taken else mret (taken, false)
  | FromCaller :: evs =>
      b ← (fun s => let '(b, i, size) := next_byte (se_in (sess s)) (se_size (sess s)) in
                    (match b with Some b => Ok b | None => Err EInput end, on_sess (with_input (se_dec (sess s)) size i) s));
      data ← (fun s =>
                let d := se_dec (sess s) in
                let '(data, ubuf) := doorInput (se_cs (sess s)) b (d_ubuf d) in
                (Ok data, on_sess (fun se => with_input (MkDec (d_esc d) (d_lastCR d) ubuf) (se_size se) (se_in se) se) s));
      bridge evs (taken ++ data)
  | Exited :: _ => mret (taken, false)
  | TimeUp :: _ => mret (taken, true)
  | [] => mret (taken, false)
  end.

Definition door_vars (node userID minutes : Z) (handle dropDir : bytes) : Vars :=
  [(str "node", itoa node); (str "dropdir", dropDir); (str "doorsys", filepath_Join [dropDir; DoorSys]);
   (str "dorinfo", filepath_Join [dropDir; DorInfo]); (str "handle", handle); (str "userid", itoa userID); (str "minutes", itoa minutes)].

(** The part of [runDoor] that a single-node door's lock is held for. *)
Definition openDoor (d : Door) : M unit :=
  c ← caller; u ← me; color ← color_; rows ← height;
  _ ← sess_setActivity (str "Playing " ++ dr_name d);
  let dropDir := abs_path (filepath_Join [cfg_DoorsDir; str "node" ++ itoa (ca_node c)]) in
  let dc := MkDoorCaller (ca_node c) (u_id u) (u_handle u) (u_location u) (u_sysop u) (u_calls u) (u_last u) (dr_minutes d) rows color
              cfg_Name doorSysopName in
  _ ← lift (atom (fun s => (tt, set_fs (WriteDropFiles dropDir dc (sv_now s) (sv_fs s)) s)));
  _ ← print (str "|CL");
  _ ← print (colDim ++ str "Opening " ++ colBright ++ safe (dr_name d) ++ colDim ++ str "... " ++ colDim ++ str "(time limit "
             ++ itoa (dr_minutes d) ++ str " min)|RE" ++ [13; 10]);
  now ← lift now_;
  match door_start d (door_vars (ca_node c) (u_id u) (dr_minutes d) (u_handle u) dropDir) now with
  | None => _ ← print (nl ++ colAlert ++ str "That door is stuck shut. The sysop has been told." ++ nl); pause
  | Some evs =>
      _ ← lift (event eventDoor (u_id u) (u_handle u) (ca_ip c) (str "opened " ++ dr_key d));
      started ← lift now_;
      '(_, late) ← always (bridge evs []) (modify (fun s => with_rend (NewRenderer (mode_of s)) s));
      _ ← print (str "|RE" ++ nl ++ nl);
      _ ← (if late : bool then print (colAlert ++ str "Time's up in " ++ safe (dr_name d) ++ str "." ++ nl) else mret tt);
      ended ← lift now_;
      _ ← print (colDim ++ str "Back from " ++ safe (dr_name d) ++ str " after " ++ shortDuration (ended - started) ++ str "." ++ nl);
      pause
  end.

Definition runDoor (d : Door) : M unit :=
  if dr_single d then
    free ← lift (door_trylock (dr_key d));
    if negb free then _ ← print (nl ++ colAlert ++ str "Someone else is in " ++ safe (dr_name d) ++ str " right now. Try again soon." ++ nl); pause
    else always (openDoor d) (lift (door_unlock (dr_key d)))
  else openDoor d.

Definition door_row (i : Z) (d : Door) : bytes :=
  colValue ++ fmt_d 4 i ++ str "  " ++ colHandle ++ safe (Pad (dr_name d) 26) ++ str " " ++ colLabel ++ safe (Pad (dr_desc d) 34) ++ str " "
  ++ colDim ++ itoa (dr_minutes d) ++ str " min".

Definition doorsMenu : M unit :=
  loop (fun _ : unit =>
    _ ← sess_setActivity (str "Door games");
    u ← me;
    let ds := visibleDoors u in
    _ ← show_header (str "Door Games");
    _ ← show_table (str "Doors")
          (lpad 4 (str "#") ++ str "  " ++ Pad (str "Door") 26 ++ str " " ++ Pad (str "About") 34 ++ str " Limit")
          ((fun '(i, d) => door_row i d) <$> numbered ds) (str "No doors are open today.");
    if bool_decide (ds = []) then _ ← pause; mret (inr tt)
    else
      pick ← pickNumber (len ds) (str "Open door");
      match pick ≫= (fun n => ds !! Z.to_nat (n - 1)) with
      | None => mret (inr tt)
      | Some d => _ ← runDoor d; mret (inl tt)
      end) tt.
End doors.
