(* ===== verification/ChatRoom.v ===== *)
(** * The chat room: [internal/bbs/chatui.go]

    Two goroutines share the screen: the session edits the input line, another shows the lines that arrive above it.
    Every write happens under a mutex, so that the screen passes through whole steps: a key, or one line or batch of
    notices ([Wake] in the input script says when).  The member is the node's. *)

From Stdlib Require Import Ascii String ZArith Lia.
From stdpp Require Import base tactics list gmap strings.
From S2P Require Import Prelude GoStrings GoTime GoFiles Term StoreDB StoreUsers StoreMail StoreBoards Limits Nodes Mailer Server Ui Session Screens Login.
From S2P Require Chat.
Open Scope Z_scope.

Definition chatHelp : bytes :=
  str "|08Commands: |15/me|08 action · |15/who|08 · |15/rooms|08 · |15/join|08 name · |15/q|08 quit".
Definition maxChatLineLen : Z := 200.
Definition chat_prompt : bytes := colTitle ++ str "» " ++ colLabel.

(** [chatScreen]: its renderer, what was typed, whether the prompt is on the screen, and whether a write failed. *)
Record chatScreen := MkScreen { sc_rend : Renderer; sc_buf : list Z; sc_shown : bool; sc_werr : bool }.

Definition with_buf (l : list Z) (c : chatScreen) : chatScreen := MkScreen (sc_rend c) l (sc_shown c) (sc_werr c).
Definition with_shown (b : bool) (c : chatScreen) : chatScreen := MkScreen (sc_rend c) (sc_buf c) b (sc_werr c).

(** The chat hub, under its mutex. *)
Definition on_chat {A} (f : Chat.chatHub -> A * Chat.chatHub) : Proc A :=
  atom (fun s => let '(a, h) := f (sv_chat s) in (a, set_chat h s)).

Section chatroom.
Context `{UnicodeTables} `{Crypto} `{MailParser} `{FoldTables} `{BBS}.

(** [emit]: a failure is the screen's own, not the session's. *)
Definition emit (text : bytes) (c : chatScreen) : M chatScreen := fun s =>
  if sc_werr c then (Ok c, s)
  else
    let se := sess s in
    let '(out, r) := Render (sc_rend c) text in
    let after := write_bytes (Encode (se_cs se) (replace_all out [10] [13; 10])) (with_output (se_out se) (se_room se) false se) in
    (Ok (MkScreen r (sc_buf c) (sc_shown c) (se_werr after)), on_sess (fun se => with_output (se_out after) (se_room after) (se_werr se) se) s).

(** The input line is erased, or left behind. *)
Definition wipe (c : chatScreen) : M chatScreen :=
  color ← color_; emit (if color : bool then 13 :: 27 :: str "[K" else nl) c.

(** [show]: a line above the input line, which is drawn again. *)
Definition show_line (line : bytes) (c : chatScreen) : M chatScreen :=
  c ← wipe c;
  c ← emit (line ++ str "|RE" ++ nl ++ chat_prompt) c;
  c ← emit (Escape (utf8 (sc_buf c))) c;
  mret (with_shown true c).

Definition notice_line (n : bytes) : bytes := [7] ++ str "|15*** |14" ++ safe n ++ str " |15***".

Fixpoint show_all (ls : list bytes) (c : chatScreen) : M chatScreen :=
  match ls with [] => mret c | l :: ls => c ← show_line l c; show_all ls c end.

(** One turn of [forward]: a line of the member's queue, or the notices of a wake-up. *)
Definition forward_chat (notices : bool) (c : chatScreen) : M chatScreen :=
  who ← caller;
  let node_ := ca_node who in
  line ← lift (on_chat (fun h =>
    match Chat.members h !! node_ with
    | Some m => match Chat.cm_out m with [] => (false, h) | _ => (true, h) end
    | None => (false, h)
    end));
  signal ← on_my_node (fun n => (nd_signal n, n)) false;
  if signal && (notices || negb line) then
    _ ← on_my_node (fun n => (tt, default n (receive n))) tt;
    ns ← on_my_node takeNotices [];
    show_all (notice_line <$> ns) c
  else if line : bool then
    l ← lift (on_chat (Chat.take_line node_));
    match l with Some l => show_line (Chat.text l) c | None => mret c end
  else mret c.

(** The start of [readLine]: the prompt, if it is not on the screen. *)
Definition start_line (c : chatScreen) : M chatScreen :=
  let c := with_buf [] c in
  if sc_shown c then mret c else c ← emit chat_prompt c; mret (with_shown true c).

(** A key in [readLine]: a whole line, or what is typed so far. *)
Definition chat_key (r : Z) (c : chatScreen) : M (chatScreen * option bytes) :=
  if r =? keyEnter then
    let line := utf8 (sc_buf c) in
    c ← wipe (with_shown false (with_buf [] c));
    if sc_werr c then throw EWrite else mret (c, Some line)
  else if r =? keyBackspace then
    if bool_decide (sc_buf c = []) then mret (c, None)
    else c ← emit bs_sp_bs (with_buf (take (length (sc_buf c) - 1) (sc_buf c)) c); mret (c, None)
  else if (32 <=? r) && (len (sc_buf c) <? maxChatLineLen) then
    c ← emit (Escape (encode_rune r)) (with_buf (sc_buf c ++ [r]) c); mret (c, None)
  else mret (c, None).

Definition chatSay (text : bytes) (c : chatScreen) : M chatScreen :=
  u ← me;
  let key := userKey (u_id u) in
  over ← lift (limit_blocked chat_ key);
  if over : bool then show_line (colAlert ++ str "*** Slow down a little.") c
  else
    _ ← lift (limit_hit chat_ key);
    now ← lift now_;
    who ← caller;
    _ ← lift (on_chat (fun h => (tt, Chat.say (ca_node who) (colDim ++ hour_minute now ++ str " " ++ text) h)));
    mret c.

Definition room_list (counts : gmap bytes Z) : bytes :=
  let names := order_by id (map_to_list counts).*1 in
  join ((fun n => str "#" ++ n ++ str " (" ++ itoa (default 0 (counts !! n)) ++ str ")") <$> names) (str ", ").

(** [chatCommand]: whether the caller quits. *)
Definition chatCommand (handle line : bytes) (c : chatScreen) : M (chatScreen * bool) :=
  let '(cmd, arg, _) := cut line 32 in
  let stay (m : M chatScreen) := c ← m; mret (c, false) in
  who ← caller;
  let node_ := ca_node who in
  if negb (has_prefix cmd (str "/")) then
    stay (chatSay (colHandle ++ str "<" ++ safe handle ++ str ">" ++ colLabel ++ str " " ++ safe line) c)
  else
    let cmd := to_lower cmd in
    if bool_decide (cmd = str "/q") || bool_decide (cmd = str "/quit") || bool_decide (cmd = str "/exit") then mret (c, true)
    else if bool_decide (cmd = str "/me") then
      stay (if bool_decide (arg = []) then mret c else chatSay (colSysop ++ str "* " ++ safe handle ++ str " " ++ safe arg) c)
    else if bool_decide (cmd = str "/who") then
      stay (room ← lift (on_chat (fun h => (Chat.room_of node_ h, h)));
            names ← lift (on_chat (fun h => (Chat.who room h, h)));
            show_line (colDim ++ str "*** In #" ++ room ++ str ": " ++ colHandle ++ safe (join names (str ", "))) c)
    else if bool_decide (cmd = str "/rooms") then
      stay (counts ← lift (on_chat (fun h => (Chat.roomCounts h, h)));
            show_line (colDim ++ str "*** Rooms: " ++ colLabel ++ room_list counts) c)
    else if bool_decide (cmd = str "/join") then
      stay (let room := Chat.normalizeRoom arg in
            if bool_decide (room = []) then show_line (colAlert ++ str "*** Usage: /join roomname (letters, digits, - and _)") c
            else
              _ ← lift (on_chat (fun h => (tt, Chat.join node_ room h)));
              _ ← sess_setActivity (str "Chatting in #" ++ room);
              mret c)
    else stay (show_line chatHelp c).

(** The next item of the input: a key it completes, or a turn for the other goroutine. *)
Inductive chat_event := CKey (r : Z) | CWake (notices : bool) | CNothing.

Definition chat_next : M chat_event := fun s =>
  let se := sess s in
  if se_werr se then (Err EWrite, s)
  else
    match se_in se with
    | [] | Hangup :: _ => (Err EInput, s)
    | Resize w h :: i => (Ok CNothing, on_sess (with_input (se_dec se) (w, h) i) s)
    | Wake n :: i => (Ok (CWake n), on_sess (with_input (se_dec se) (se_size se) i) s)
    | Key b :: i =>
        let '(r, d) := feed_byte (se_cs se) b (se_dec se) in
        (Ok (match r with Some r => CKey r | None => CNothing end), on_sess (with_input d (se_size se) i) s)
    end.

Definition chat_turn (handle : bytes) (c : chatScreen) : M (chatScreen + unit) :=
  e ← chat_next;
  match e with
  | CNothing => mret (inl c)
  | CWake n => c ← forward_chat n c; mret (inl c)
  | CKey r =>
      '(c, line) ← chat_key r c;
      match line with
      | None => mret (inl c)
      | Some line =>
          let line := trim_space (StripControl line) in
          if bool_decide (line = []) then c ← start_line c; mret (inl c)
          else
            '(c, quit) ← chatCommand handle line c;
            if quit : bool then mret (inr tt) else c ← start_line c; mret (inl c)
      end
  end.

(** [chatRoom]: the member joins the default room, and leaves however the chat ends. *)
Definition chatRoom : M unit :=
  _ ← sess_setActivity (str "Chatting");
  u ← me;
  blocked_ ← lift (store_get (BlockedUsers (u_id u)));
  _ ← show_header (str "Chat");
  _ ← show_box (str "Teleconference") [colLabel ++ str "Say something and press Enter. Everyone in the room sees it."; chatHelp];
  who ← caller;
  mode ← get mode_of;
  _ ← lift (on_chat (fun h =>
    (tt, Chat.join (ca_node who) Chat.defaultRoom
           (Chat.enter (ca_node who) (Chat.newChatMember (u_id u) (u_handle u) (list_to_set (u_id <$> blocked_))) h))));
  always
    (c ← start_line (MkScreen (NewRenderer mode) [] false false); loop (chat_turn (u_handle u)) c)
    (_ ← lift (on_chat (fun h => (tt, Chat.leave (ca_node who) h))); modify (fun s => with_rend (NewRenderer (mode_of s)) s)).
End chatroom.
