(* ===== verification/MainMenu.v ===== *)
(** * A call from beginning to end: the main menu of [internal/bbs/menu.go], the rest of [login.go], [run] of
    [session.go] and [serveCaller] of [server.go] *)

From Stdlib Require Import Ascii String ZArith Lia.
From stdpp Require Import base tactics list gmap strings.
From S2P Require Import Prelude GoStrings GoTime GoFiles Term StoreDB StoreUsers StoreMail StoreBoards StoreEcho Limits Nodes Mailer FileLink Server Ui Session Editor Screens Login Compose MailMenu Community BoardsMenu EchoMenu FilesMenu Settings SysopMenu Doors DoorsMenu ChatRoom.
From S2P Require Chat.
Open Scope Z_scope.

Record mainMenuCounts := MkCounts {
  mc_mail : Z; mc_posts : Z; mc_echoes : Z; mc_netmail : Z; mc_files : Z; mc_members : Z; mc_online : Z; mc_chat : Z
}.

Definition countNote (n : Z) (suffix : bytes) : bytes := if n =? 0 then [] else colAlert ++ str "(" ++ itoa n ++ suffix ++ str ")".

Definition statusStrip (c : mainMenuCounts) : bytes :=
  let part n word color := if n =? 0 then colDim ++ str "no " ++ word ++ str "s" else color ++ plural n word in
  str " " ++ join [part (mc_mail c) (str "new message") colAlert; part (mc_posts c) (str "new post") colAlert;
                   part (mc_echoes c) (str "new echo") colAlert; colInfo ++ itoa (mc_online c) ++ str " online";
                   colInfo ++ plural (mc_members c) (str "member")] (colBorder ++ str "  ·  ").

(** [net.ParseIP] in its 16-byte form, and [IP.String]. *)
Class NetAddr := { ParseIP : bytes -> option bytes; IP_String : bytes -> bytes }.

Section call.
Context `{UnicodeTables} `{Crypto} `{MailParser} `{FoldTables} `{BBS} `{Mailing} `{Hmac} `{Zmodem} `{SSHLib} `{DoorWorld} `{NetAddr}.

(** ** menu.go *)

Definition loadMainMenuCounts : M mainMenuCounts :=
  u ← me;
  mail_ ← lift (store_get (UnreadCount (u_id u)));
  bs ← lift (store_get (Boards (u_id u)));
  echoes ← lift (store_get (EchoUnreadCount (u_id u)));
  netmail_ ← lift (store_get (NetmailUnread u));
  files_ ← lift (store_get (NewFilesCount (u_id u)));
  members ← lift (store_get UserCount);
  on ← lift nodes_online;
  chat ← lift (on_chat (fun h => (Chat.count h, h)));
  mret (MkCounts mail_ (total_new bs) echoes netmail_ files_ members (len on) chat).

Definition left_items (c : mainMenuCounts) (doorNote : bytes) : list menuItem :=
  [MkItem (ch "M") (str "Mailbox") (countNote (mc_mail c) (str " new")); MkItem (ch "B") (str "Message boards") (countNote (mc_posts c) (str " new"));
   MkItem (ch "E") (str "FidoNet echoes") (countNote (mc_echoes c) (str " new")); MkItem (ch "T") (str "FidoNet netmail") (countNote (mc_netmail c) (str " new"));
   MkItem (ch "F") (str "File areas") (countNote (mc_files c) (str " new"));
   MkItem (ch "C") (str "Chat room") (if 0 <? mc_chat c then colValue ++ str "(" ++ itoa (mc_chat c) ++ str " here)" else []);
   MkItem (ch "P") (str "Page someone") []; MkItem (ch "N") (str "News") []; MkItem (ch "D") (str "Door games") doorNote].

Definition right_items (c : mainMenuCounts) : list menuItem :=
  [MkItem (ch "W") (str "Who's online") (colDim ++ str "(" ++ itoa (mc_online c) ++ str ")"); MkItem (ch "L") (str "Last callers") [];
   MkItem (ch "U") (str "User list") (colDim ++ str "(" ++ itoa (mc_members c) ++ str ")"); MkItem (ch "O") (str "Oneliner wall") []].

Definition approved (what : bytes) (m : M unit) : M unit := stop ← awaitingApproval what; if stop : bool then mret tt else m.

Definition mainMenuAction (k : Z) : M unit :=
  if k =? ch "M" then mailMenu
  else if k =? ch "B" then boardsMenu
  else if k =? ch "E" then echoesMenu
  else if k =? ch "T" then netmailMenu
  else if k =? ch "F" then filesMenu
  else if k =? ch "C" then approved (str "Chat") chatRoom
  else if k =? ch "P" then approved (str "Paging") pageSomeone
  else if k =? ch "N" then news
  else if k =? ch "D" then approved (str "The door games") doorsMenu
  else if k =? ch "W" then whoOnline
  else if k =? ch "L" then lastCallers
  else if k =? ch "U" then userList
  else if k =? ch "O" then onelinerWall false
  else if k =? ch "S" then settings
  else if k =? ch "!" then sysopMenu
  else mret tt.

Definition mainMenu : M unit :=
  loop (fun _ : unit =>
    _ ← refreshUser;
    _ ← sess_setActivity (str "Main menu");
    c ← loadMainMenuCounts;
    _ ← show_header (str "Main Menu");
    _ ← print (statusStrip c ++ nl);
    doors ← doorCountNote;
    _ ← show_menuColumns (str "Messages") (left_items c doors) (str "People") (right_items c);
    _ ← approvalNotice;
    u ← me;
    note ← (if u_sysop u then pendingNote else mret []);
    color ← color_;
    let bar := [MkItem (ch "S") (str "Settings") []] ++ (if u_sysop u then [MkItem (ch "!") (str "Sysop") note] else [])
               ++ [MkItem (ch "G") (str "Goodbye") []] in
    _ ← print (nl ++ keyBar color bar ++ nl);
    k ← menuPrompt (str "Main") (str "MBETFCPNDWLUOSG" ++ (if u_sysop u then str "!" else []));
    if k =? ch "G" then
      bye ← yesNo (str "Log off?") true;
      mret (if bye : bool then inr tt else inl tt)
    else _ ← mainMenuAction k; mret (inl tt)) tt.

(** ** login.go: once the caller is known *)

Definition offerNews (since : Z) : M unit :=
  n ← lift (store_get (BulletinsSince since));
  if n =? 0 then mret tt
  else
    _ ← print (nl ++ str "  " ++ colValue ++ str "There " ++ pluralVerb n (str "new bulletin") ++ str "." ++ nl);
    read ← yesNo (str "Read the news now?") true;
    if read : bool then news else mret tt.

Definition offerNewMail : M unit :=
  u ← me;
  unread ← lift (store_get (UnreadCount (u_id u)));
  if unread =? 0 then _ ← print (nl ++ str "  " ++ colDim ++ str "No new mail." ++ nl ++ nl); pause
  else
    _ ← print (nl ++ str "  " ++ colAlert ++ str "You have " ++ plural unread (str "new message") ++ str "." ++ nl ++ nl);
    read ← yesNo (str "Read them now?") true;
    if read : bool then readNewMail else mret tt.

Definition signed_in (u : UserRow) (prev node_ : Z) (via : bytes) : list bytes :=
  [colLabel ++ (if u_calls u =? 1 then str "Welcome aboard, " else str "Welcome back, ") ++ colBright ++ safe (u_handle u) ++ colLabel ++ str "!"; []]
  ++ (if 1 <? u_calls u then [colInfo ++ str "Last call " ++ colBorder ++ str ": " ++ colLabel ++ longDate prev] else [])
  ++ [colInfo ++ str "Calls     " ++ colBorder ++ str ": " ++ colValue ++ itoa (u_calls u);
      colInfo ++ str "Node      " ++ colBorder ++ str ": " ++ colValue ++ itoa node_ ++ str " " ++ colDim ++ str "via " ++ via]
  ++ (if u_sysop u then [[]; colSysop ++ str "You are a sysop. Press " ++ colBright ++ str "!" ++ colSysop ++ str " at the main menu for the sysop tools."] else []).

Definition afterLogin : M unit :=
  u ← me;
  '(u, prev) ← lift_ok (store_op (fun now => RecordLogin now (u_id u)));
  _ ← modify (with_user u);
  _ ← sess_setUser u;
  c ← caller;
  via ← transport;
  _ ← lift (event EventLogin (u_id u) (u_handle u) (ca_ip c) (str "node " ++ itoa (ca_node c) ++ str " via " ++ via));
  vars ← screenTokens;
  shown ← showCustomArt (str "logon") vars;
  _ ← (if shown : bool then pause else mret tt);
  _ ← show_header (str "Welcome");
  _ ← show_box (str "Signed in") (signed_in u prev (ca_node c) via);
  _ ← approvalNotice;
  _ ← offerNews prev;
  _ ← offerNewMail;
  onelinerWall true.

(** ** session.go *)

Definition session_run : M unit :=
  _ ← chooseTerminal false;
  _ ← welcome;
  c ← caller;
  ok ← (if ca_keyUser c =? 0 then login else keyLogin (ca_keyUser c));
  if negb ok then mret tt
  else
    _ ← modify (with_login true);
    _ ← afterLogin;
    _ ← mainMenu;
    sess_goodbye.

(** ** server.go *)

(** [limitKey]: an IPv6 address stands for its /64. *)
Definition limitKey (host : bytes) : bytes :=
  match ParseIP host with
  | None => host
  | Some ip =>
      if bool_decide (take 12 ip = replicate 10 0 ++ [255; 255]) then host
      else IP_String (take 8 ip ++ replicate 8 0) ++ str "/64"
  end.

(** What [hangUp] writes. *)
Definition hangup_line (msg : bytes) : bytes := [13; 10] ++ msg ++ [13; 10].

Definition busy_text (e : node_error) : bytes :=
  match e with errNodesBusy => str "All nodes are busy. Please call back later." | errShuttingDown => str "The system is going down. Call back soon!" end.

(** [serveCaller]: a caller from [ip], whose terminal is [t].  The result is how the session ended, if there was one, and what
    was sent. *)
Definition serveCaller (t : Z) (ip : bytes) (secure : bool) (keyUser : Z) (termType : option bytes) (size : Z * Z) (script : list input)
    (room : option nat) : Proc (option (result ending unit) * bytes) :=
  b ← limit_blocked loginFailures (limitKey ip);
  if b : bool then mret (None, hangup_line (str "Too many failed logins from your address. Try again later."))
  else
    now ← now_;
    r ← on_nodes (acquire t secure now);
    match r with
    | Err e => mret (None, hangup_line (busy_text e))
    | Ok id =>
        start ← now_;
        out ← (fun sh =>
          let '(r, s) := session_run (MkSt (newSession (MkCaller id ip (limitKey ip) secure keyUser termType start) size script room) sh) in
          ((Some r, se_out (sess s)), shared s));
        _ ← on_nodes (fun t => (tt, release id t));
        mret out
    end.
End call.
