(* ===== verification/Demo.v ===== *)
(** * A concrete call

    Instances of the parameters and one caller's keys, on which the theorems about calls are tried. *)

From Stdlib Require Import Ascii String ZArith Lia.
From stdpp Require Import base tactics list gmap strings relations.
From S2P Require Import Prelude GoStrings GoTime GoFiles Term StoreDB StoreUsers StoreMail StoreBoards StoreEcho StoreInv StoreDemo StoreOk Limits Nodes Mailer FileLink Server ServerSpec Ui Session Screens Login EchoMenu FilesMenu Settings DoorsMenu MainMenu.
Open Scope Z_scope.

#[export] Instance demo_fold : FoldTables := { fold_pair := fun _ _ => false }.
#[export] Instance demo_mailing : Mailing := { process_id := 7; temp_suffix := itoa; queue_words := fun _ => str "the outbound is busy" }.
#[export] Instance demo_hmac : Hmac := { hmac_sha256 := fun k m => k ++ m }.
#[export] Instance demo_zmodem : Zmodem := { zmodem_run := fun _ data _ => MkTransfer 0 data (len data) (Some None) None }.
#[export] Instance demo_ssh : SSHLib := { ParseAuthorizedKey := fun _ => None }.
#[export] Instance demo_doors : DoorWorld := {
  cfg_Doors := []; cfg_DoorsDir := str "/srv/doors"; door_minute := 60000000000; abs_path := id; door_start := fun _ _ _ => None }.
#[export] Instance demo_net : NetAddr := { ParseIP := fun _ => None; IP_String := id }.

(** Bob chooses plain ASCII, signs in, leaves his mail for later, writes on the wall and says goodbye. *)
Definition typed (t : bytes) : list input := Key <$> t.
Definition enter : bytes := [13].

Definition demo_keys : list input :=
  typed (str "3" ++ enter ++ str "bob" ++ enter ++ demo_password ++ enter ++ str "n" ++ str "y" ++ str "Greetings" ++ enter ++ str "gy").

Definition demo_call (script : list input) := serveCaller 1 (str "::1") false 0 None (80, 24) script None (MkShared demo_server []).

Example demo_call_works :
  let '(out, after) := demo_call demo_keys in
  fst out = Some (Ok tt) /\ (o_text <$> oneliners (sv_db (srv after))) = [str "Greetings"] /\ has_prefix (snd out) ([13; 10] ++ str "Boar BBS") = true.
Proof. vm_compute. done. Qed.

(** The same caller, signed in. *)
Definition demo_session (script : list input) : St :=
  MkSt (with_user (demo_user 2) (newSession (MkCaller 1 (str "::1") (str "::1") false 0 None 0) (80, 24) script None)) (MkShared demo_server []).

(** A window of 60 columns ends the call: the picture does not fit, and [strings.Repeat] panics. *)
Example narrow_window :
  let call w := fst (fst (serveCaller 1 (str "::1") false 0 None (w, 24) demo_keys None (MkShared demo_server []))) in
  call 60 = Some (Err EPanic) /\ call 61 = Some (Ok tt).
Proof. vm_compute. done. Qed.
