(* ===== verification/MenuSpec.v ===== *)
(** * What every dialogue guarantees

    One lemma per procedure of the dialogues: whatever the caller types and whatever the rest of the program does, it
    takes input as it goes on, never runs out of fuel, and the steps it makes the store take are its own account's. *)

From Stdlib Require Import Ascii String ZArith Lia.
From stdpp Require Import base tactics list gmap strings.
From S2P Require Import Prelude GoStrings GoTime GoFiles Term StoreDB StoreUsers StoreMail StoreBoards StoreEcho StoreInv StoreOk Limits Nodes Mailer FileLink Server ServerSpec Ui Session Editor SessionSpec Screens Login Compose MailMenu Community BoardsMenu EchoMenu FilesMenu Settings SysopMenu Doors DoorsMenu ChatRoom MainMenu.
From S2P Require Chat.
Open Scope Z_scope.

#[export] Hint Extern 2 (steps _ (atom _)) => eapply steps_same; [exact _|]; intros; repeat case_match; reflexivity : steps.
#[export] Hint Extern 2 (steps _ (store_do _)) => eapply steps_do; [exact _|]; intros; solve [econstructor; eassumption | cbn; econstructor; eassumption] : steps.

Section screens.
Context `{UnicodeTables} `{Crypto} `{MailParser} `{FoldTables} `{BBS} (who : option Z) (R : Server -> Server -> Prop)
  `{!ServerRel (acts who) R}.
#[local] Abbreviation moves := (moves R who).

(** Changes of the session that keep its input and its account. *)
Lemma moves_keep (f : Sess -> Sess) : (forall x, se_in (f x) = se_in x /\ se_user (f x) = se_user x) -> moves any (modify f).
Proof. intros Hf. apply moves_modify; [exact _|]. intros x. destruct (Hf x) as [-> E]. unfold mine. by rewrite E. Qed.

Lemma write_same p x : se_in (write_bytes p x) = se_in x /\ se_user (write_bytes p x) = se_user x.
Proof. unfold write_bytes. destruct (se_werr x); [done|]. destruct (se_room x); [|done]. by destruct (_ <? _)%nat. Qed.

Hint Extern 2 (SessionSpec.moves _ _ _ (modify _)) => apply moves_keep; intros; first [by split | apply write_same] : moves.

(** *** screens.go and customart.go *)

Lemma moves_showArt art vars : moves any (showArt art vars).
Proof. unfold showArt. stroll. Qed.
Lemma moves_showArtFile path vars : moves any (showArtFile path vars).
Proof. unfold showArtFile. stroll. Qed.
Hint Resolve moves_showArt moves_showArtFile : moves.
Lemma moves_customArt screen vars : moves any (showCustomArt screen vars).
Proof. unfold showCustomArt. stroll. Qed.
Lemma moves_tokens : moves any screenTokens.
Proof. unfold screenTokens. stroll. Qed.
Lemma moves_pickNumber n what : moves eaten (pickNumber n what).
Proof. unfold pickNumber. stroll. Qed.
Hint Resolve moves_customArt moves_tokens moves_pickNumber : moves.
Lemma moves_sysopArt : moves any sysopArt.
Proof. unfold sysopArt. stroll. Qed.

(** *** login.go *)

Lemma moves_chooseTerminal ask : moves any (chooseTerminal ask).
Proof. unfold chooseTerminal, set_terminal. stroll. Qed.
Lemma moves_spaces n : moves any (go_spaces n).
Proof. unfold go_spaces. stroll. Qed.
Hint Resolve moves_spaces : moves.
Lemma moves_welcome : moves any welcome.
Proof. unfold welcome. stroll. Qed.
Lemma moves_transport : moves any transport.
Proof. unfold transport. stroll. Qed.
Hint Resolve moves_transport : moves.
Lemma moves_checkPassword h p : moves any (checkPassword h p).
Proof. unfold checkPassword. stroll. Qed.
Lemma moves_askNewHandle : moves any askNewHandle.
Proof. unfold askNewHandle. stroll. Qed.
Lemma moves_askNewPassword : moves any askNewPassword.
Proof. unfold askNewPassword. generalize maxPasswordTries. intros n. induction n; cbn [askNewPassword_go]; stroll. Qed.
Hint Resolve moves_checkPassword moves_askNewHandle moves_askNewPassword : moves.

Lemma moves_awaiting what : moves any (awaitingApproval what).
Proof. unfold awaitingApproval. stroll. Qed.
Lemma moves_notice : moves any approvalNotice.
Proof. unfold approvalNotice. stroll. Qed.
Lemma moves_pendingNote : moves any pendingNote.
Proof. unfold pendingNote. stroll. Qed.
Lemma moves_handleOf id : moves any (handleOf id).
Proof. unfold handleOf. stroll. Qed.
Lemma moves_goodbye : moves any sess_goodbye.
Proof. unfold sess_goodbye. stroll. Qed.

(** *** Results of the store *)

Lemma moves_lift_post {A} (Q : A -> Prop) (p : Proc A) : steps R p -> (forall s, Q (fst (p s))) -> moves (fun _ => Q) (lift p).
Proof.
  intros Hp HQ s Hr Hi. unfold lift. destruct (Hp _ Hr) as [? ?]. specialize (HQ (shared s)). destruct (p (shared s)) as [a sh]. by split_and!.
Qed.

Definition if_ok {A} (Q : A -> Prop) (r : result store_error A) : Prop := match r with Ok a => Q a | Err _ => True end.

Lemma get_post {A} (Q : A -> Prop) (q : DB -> A) s : (forall db, Q (q db)) -> Q (fst (store_get q s)).
Proof. intros HQ. unfold store_get, atom. apply HQ. Qed.

Lemma op_post {A} (Q : A -> Prop) (o : Z -> op A) s : (forall now db a db', o now db = Ok (a, db') -> Q a) -> if_ok Q (fst (store_op o s)).
Proof.
  intros HQ. unfold store_op, atom. set (y := match others s with [] => srv s | g :: _ => g (srv s) end).
  destruct (o (sv_now y) (sv_db y)) as [[a db']|e] eqn:E; cbn; [by eapply HQ|done].
Qed.

Lemma do_post {A} (Q : A -> Prop) (o : Z -> DB -> A * DB) s : (forall now db, Q (fst (o now db))) -> Q (fst (store_do o s)).
Proof.
  intros HQ. unfold store_do, atom. set (y := match others s with [] => srv s | g :: _ => g (srv s) end).
  specialize (HQ (sv_now y) (sv_db y)). by destruct (o (sv_now y) (sv_db y)).
Qed.

Lemma moves_lift_ok {A} (Q : A -> Prop) (p : Proc (result store_error A)) :
  steps R p -> (forall s, if_ok Q (fst (p s))) -> moves (fun _ => Q) (lift_ok p).
Proof.
  intros Hp HQ. unfold lift_ok. eapply moves_bind; [exact _|by apply moves_lift_post with (Q := if_ok Q)|]. intros b [a|e] Ha; cbv beta.
  - by apply moves_ret; [exact _|].
  - by apply moves_throw; [exact _|].
Qed.

Lemma moves_set_user u : ours who (u_id u) -> moves any (modify (with_user u)).
Proof. intros Hu. apply moves_modify; [exact _|]. intros x. by split. Qed.

Lemma user_id_of db id u : getUser db id = Ok u -> u_id u = id.
Proof. unfold getUser, row, or_not_found. destruct (find _ _) as [v|] eqn:E; [|done]. intros [= <-]. apply find_some in E as [_ E]. by apply Z.eqb_eq. Qed.

(** The account in the store is the session's own. *)
Lemma moves_refresh : moves any refreshUser.
Proof.
  unfold refreshUser. eapply moves_bind; [exact _|leaf|]. intros b u Hu. cbv beta in Hu.
  eapply moves_bind; [exact _|apply (moves_lift_ok (fun v => u_id v = u_id u)); [walk|]|].
  - intros s. apply (get_post (if_ok (fun v => u_id v = u_id u))). intros db. unfold UserByID. destruct (getUser db (u_id u)) eqn:E; [|done].
    by eapply user_id_of.
  - intros b' v Hv. cbv beta in *. apply moves_set_user. by rewrite Hv.
Qed.
Hint Resolve moves_chooseTerminal moves_welcome moves_awaiting moves_notice moves_pendingNote moves_handleOf moves_goodbye moves_refresh : moves.

(** *** compose.go *)

Lemma moves_userList : moves any compactUserList.
Proof. unfold compactUserList. stroll. Qed.
Hint Resolve moves_userList : moves.
Lemma moves_resolve_go names found unknown : moves any (resolve_go names found unknown).
Proof. revert found unknown. induction names; intros; cbn [resolve_go]; stroll. Qed.
Hint Resolve moves_resolve_go : moves.
Lemma moves_resolve line : moves any (resolveRecipients line).
Proof. unfold resolveRecipients. stroll. Qed.
Hint Resolve moves_resolve : moves.
Lemma moves_pickRecipients : moves any pickRecipients.
Proof. unfold pickRecipients. stroll. Qed.
Lemma moves_askSubject d : moves any (askSubject d).
Proof. unfold askSubject. stroll. Qed.
Lemma moves_deliver_go to subject body re sent : moves any (deliver_go to subject body re sent).
Proof. revert sent. induction to; intros; cbn [deliver_go]; stroll. Qed.
Hint Resolve moves_pickRecipients moves_askSubject moves_deliver_go : moves.
Lemma moves_deliver to subject body re : moves any (deliver_mail to subject body re).
Proof. unfold deliver_mail. stroll. Qed.
Hint Resolve moves_deliver : moves.
Lemma moves_compose d : moves any (compose d).
Proof. unfold compose. stroll. Qed.
Hint Resolve moves_compose : moves.
Lemma moves_reply m : moves any (reply m).
Proof. unfold reply. stroll. Qed.
Lemma moves_forward m : moves any (forward m).
Proof. unfold forward. stroll. Qed.
Lemma moves_emailMeCopy m : moves any (emailMeCopy m).
Proof. unfold emailMeCopy. stroll. Qed.
Hint Resolve moves_reply moves_forward moves_emailMeCopy : moves.
Lemma moves_map_m {X A} (f : X -> M A) xs : (forall x, moves any (f x)) -> moves any (map_m f xs).
Proof. intros Hf. induction xs; cbn [map_m]; stroll. Qed.
Hint Extern 2 (SessionSpec.moves _ _ _ (map_m _ _)) => apply moves_map_m; intros; stroll : moves.

(** *** mail.go *)

Lemma moves_mailListing v ms : moves any (mailListing v ms).
Proof. unfold mailListing. stroll. Qed.
Lemma moves_mailLetter t m : moves any (mailLetter t m).
Proof. unfold mailLetter. stroll. Qed.
Lemma moves_deleteMail m : moves any (deleteMail m).
Proof. unfold deleteMail. stroll. Qed.
Hint Resolve moves_mailListing moves_mailLetter moves_deleteMail : moves.
(** Reading a thread opens the reader again, with one unit of fuel less.  [below n Q m] is [moves Q m] for states with less
    than [n] items of input left. *)
Definition below {A} (n : nat) (Q : bool -> A -> Prop) (m : M A) : Prop := forall s,
  (left_in s < n)%nat -> rely R (shared s) -> mine who (sess s) ->
  let '(r, s') := m s in
  (left_in s' <= left_in s)%nat /\ R (srv (shared s)) (srv (shared s')) /\ rely R (shared s') /\ mine who (sess s')
  /\ match r with Ok a => Q (left_in s' <? left_in s)%nat a | Err e => e <> EFuel end.

Lemma below_moves {A} n (Q : bool -> A -> Prop) m : moves Q m -> below n Q m.
Proof. intros Hm s _. apply Hm. Qed.

Lemma below_all {A} (Q : bool -> A -> Prop) m : (forall n, below n Q m) -> moves Q m.
Proof. intros Hm s. apply (Hm (S (left_in s))). lia. Qed.

(** After [m], which may have read a key, there is less than [n'] left. *)
Lemma below_bind {A B} n n' (Q : bool -> A -> Prop) (Q' : bool -> B -> Prop) m (k : A -> M B) :
  below n Q m -> (forall b a, Q b a -> (if b then n <= S n' else n <= n')%nat) ->
  (forall b a, Q b a -> below n' (fun b' => Q' (b || b')) (k a)) -> below n Q' (m ≫= k).
Proof.
  intros Hm Hn Hk s Hl Hr Hi. unfold mbind, m_bind. specialize (Hm s Hl Hr Hi). destruct (m s) as [[a|e] s1]; [|done].
  destruct Hm as (L1 & R1 & D1 & I1 & Q1). specialize (Hn _ _ Q1).
  assert (left_in s1 < n')%nat as Hl1 by (destruct (Nat.ltb_spec (left_in s1) (left_in s)); lia).
  specialize (Hk _ a Q1 s1 Hl1 D1 I1). destruct (k a s1) as [r s2].
  destruct Hk as (L2 & R2 & D2 & I2 & Q2). split_and!; [lia|by etrans|done|done|]. destruct r; [|done].
  by rewrite (ltb_chain _ _ _ L2 L1).
Qed.

Lemma below_loop_go {X A} n fuel (body : X -> M (X + A)) x s0 :
  (forall x, below n turn (body x)) -> (left_in s0 < n)%nat -> (left_in s0 < fuel)%nat -> rely R (shared s0) -> mine who (sess s0) ->
  let '(r, s') := loop_go fuel body x s0 in
  (left_in s' <= left_in s0)%nat /\ R (srv (shared s0)) (srv (shared s')) /\ rely R (shared s') /\ mine who (sess s')
  /\ match r with Ok a => True | Err e => e <> EFuel end.
Proof.
  intros Hb. revert x s0. induction fuel as [|fuel IH]; intros x s0 Hn Hf Hr Hi; [lia|]. cbn [loop_go]. unfold mbind, m_bind.
  pose proof (Hb x s0 Hn Hr Hi) as Hx. destruct (body x s0) as [[[y|a]|e] s1]; [|by destruct Hx as (? & ? & ? & ? & ?)|done].
  destruct Hx as (L1 & R1 & D1 & I1 & Q1). cbn in Q1. apply Nat.ltb_lt in Q1. specialize (IH y s1 ltac:(lia) ltac:(lia) D1 I1).
  destruct (loop_go fuel body y s1) as [r s2]. destruct IH as (L2 & R2 & D2 & I2 & Q2). split_and!; [lia|by etrans|done|done|done].
Qed.

Lemma below_loop {X A} n (body : X -> M (X + A)) x : (forall x, below n turn (body x)) -> below n any (loop body x).
Proof.
  intros Hb s Hn Hr Hi. unfold loop. pose proof (below_loop_go n (S (length (se_in (sess s)))) body x s Hb Hn ltac:(unfold left_in; lia) Hr Hi) as H'.
  destruct (loop_go _ _ _ _) as [r s']. destruct H' as (? & ? & ? & ? & ?). by split_and!.
Qed.

(** A step of a turn: before its key is read ([n' = n]), and the one that reads it. *)
Ltac below_step n n' := eapply (below_bind n n'); [apply below_moves; first [leaf|stroll]|unfold any, eaten; intros [] ? ?; first [lia|congruence]|intros ? ?; cbv beta; intros ?].

Lemma below_mail_turn n (thread : MessageRow -> M unit) title x :
  (forall m, below n any (thread m)) -> below (S n) turn (mail_turn thread title x).
Proof.
  intros Ht. destruct x as [msgs idx]. unfold mail_turn. destruct (if idx <? 0 then None else msgs !! Z.to_nat idx) as [m|]; [|apply below_moves; stroll].
  below_step (S n) (S n). cbv zeta. eapply (below_bind (S n) (S n)) with (Q := any); [apply below_moves; stroll|intros [] ? ?; lia|intros ? ? _; cbv beta].
  do 5 below_step (S n) (S n). below_step (S n) n. unfold eaten in *. subst. cbv zeta.
  repeat match goal with |- below _ _ (if ?c then _ else _) => destruct c end; try solve [apply below_moves; stroll].
  eapply (below_bind n n); [apply Ht|intros [] ? ?; lia|intros ? ?; cbv beta; intros ?]. apply below_moves. stroll.
Qed.

Lemma below_readMail n fuel title ms idx : (n <= fuel)%nat -> below n any (readMail_go fuel title ms idx).
Proof.
  revert n title ms idx. induction fuel as [|fuel IH]; intros n title ms idx Hn; [intros s Hl; lia|]. destruct n as [|n]; [intros s Hl; lia|].
  cbn [readMail_go]. apply below_loop. intros x. apply below_mail_turn. intros m. below_step n n. below_step n n.
  case_match; [|apply below_moves; stroll]. case_match; [apply below_moves; stroll|]. apply IH. lia.
Qed.

Lemma moves_readMail title ms idx : moves any (readMail title ms idx).
Proof. intros s. apply (below_readMail (S (left_in s)) (S (left_in s))); unfold left_in; lia. Qed.
Hint Resolve moves_readMail : moves.

Lemma moves_readNewMail : moves any readNewMail.
Proof. unfold readNewMail. stroll. Qed.
Lemma moves_browseMail title v l : moves any (browseMail title v l).
Proof. unfold browseMail. stroll. Qed.
Hint Resolve moves_readNewMail moves_browseMail : moves.
Lemma moves_searchMail : moves any searchMail.
Proof. unfold searchMail. stroll. Qed.
Hint Resolve moves_searchMail : moves.
Lemma moves_mailMenu : moves any mailMenu.
Proof. unfold mailMenu. stroll. Qed.
End screens.

#[export] Hint Extern 2 (moves _ _ _ (modify _)) => apply moves_keep; [exact _|intros; first [by split | apply write_same]] : moves.
#[export] Hint Extern 2 (moves _ _ _ (map_m _ _)) => apply moves_map_m; [exact _|intros; stroll] : moves.
#[export] Hint Resolve moves_showArt moves_showArtFile moves_customArt moves_tokens moves_pickNumber moves_sysopArt moves_chooseTerminal
  moves_spaces moves_welcome moves_transport moves_checkPassword moves_askNewHandle moves_askNewPassword moves_awaiting moves_notice
  moves_pendingNote moves_handleOf moves_goodbye moves_refresh moves_userList moves_resolve moves_pickRecipients moves_askSubject
  moves_deliver moves_compose moves_reply moves_forward moves_readMail moves_readNewMail moves_browseMail moves_mailMenu : moves.
