(* ===== verification/AreaSpec.v ===== *)
(** * What the areas of the board guarantee

    The rules of MenuSpec.v carried through the community lists, the boards, the echo areas, netmail and the file areas. *)

From Stdlib Require Import Ascii String ZArith Lia.
From stdpp Require Import base tactics list gmap strings.
From S2P Require Import Prelude GoStrings GoTime GoFiles Term StoreDB StoreUsers StoreMail StoreBoards StoreEcho StoreInv StoreOk Limits Nodes Mailer FileLink Server ServerSpec Ui Session Editor SessionSpec Screens Login Compose MailMenu Community BoardsMenu EchoMenu FilesMenu MenuSpec.
From S2P Require Chat.
Open Scope Z_scope.

Section areas.
Context `{UnicodeTables} `{Crypto} `{MailParser} `{FoldTables} `{BBS} `{Mailing} `{Hmac} `{Zmodem} (who : option Z) (R : Server -> Server -> Prop)
  `{!ServerRel (acts who) R}.
#[local] Abbreviation moves := (moves R who).

(** *** community.go and the lists of menu.go *)

Lemma moves_showWho : moves any showWho.
Proof. unfold showWho. stroll. Qed.
Hint Resolve moves_showWho : moves.
Lemma moves_whoOnline : moves any whoOnline.
Proof. unfold whoOnline. stroll. Qed.
Lemma moves_userTable : moves any userList.
Proof. unfold userList. stroll. Qed.
Lemma moves_lastCallers : moves any lastCallers.
Proof. unfold lastCallers. stroll. Qed.
Hint Resolve moves_whoOnline moves_userTable moves_lastCallers : moves.
Lemma moves_pageSomeone : moves any pageSomeone.
Proof. unfold pageSomeone. stroll. Qed.
Lemma moves_bulletinTable bs empty : moves any (bulletinTable bs empty).
Proof. unfold bulletinTable. stroll. Qed.
Hint Resolve moves_bulletinTable : moves.
Lemma moves_news : moves any news.
Proof. unfold news. stroll. Qed.
Lemma moves_onelinerWall b : moves any (onelinerWall b).
Proof. unfold onelinerWall. stroll. Qed.
Hint Resolve moves_pageSomeone moves_news moves_onelinerWall : moves.

(** *** boards.go *)

Lemma moves_postListing ps r : moves any (postListing ps r).
Proof. unfold postListing. stroll. Qed.
Lemma moves_writePost b d : moves any (writePost b d).
Proof. unfold writePost. stroll. Qed.
Hint Resolve moves_postListing moves_writePost : moves.
Lemma moves_replyPost b p : moves any (replyPost b p).
Proof. unfold replyPost. stroll. Qed.
Lemma moves_mailAuthor p : moves any (mailAuthor p).
Proof. unfold mailAuthor. stroll. Qed.
Lemma moves_deletePost p : moves any (deletePost p).
Proof. unfold deletePost. stroll. Qed.
Hint Resolve moves_replyPost moves_mailAuthor moves_deletePost : moves.
Lemma moves_readPostsWith b ps i : moves any (readPostsWith b ps i).
Proof. unfold readPostsWith, post_turn. stroll. Qed.
Hint Resolve moves_readPostsWith : moves.
Lemma moves_readPosts b ps i : moves any (readPosts b ps i).
Proof. unfold readPosts. stroll. Qed.
Lemma moves_newScan_go bs f : moves any (newScan_go bs f).
Proof. revert f. induction bs; intros; cbn [newScan_go]; unfold readPostsUntilQuit; stroll. Qed.
Hint Resolve moves_readPosts moves_newScan_go : moves.
Lemma moves_boardView b : moves any (boardView b).
Proof. unfold boardView. stroll. Qed.
Hint Resolve moves_boardView : moves.
Lemma moves_boardsMenu : moves any boardsMenu.
Proof. unfold boardsMenu, newScan. stroll. Qed.

(** *** echo.go *)

Lemma moves_echoListing ms r : moves any (echoListing ms r).
Proof. unfold echoListing. stroll. Qed.
Lemma moves_readEchoesWith a ms i : moves any (readEchoesWith a ms i).
Proof. unfold readEchoesWith, echo_turn. stroll. Qed.
Hint Resolve moves_echoListing moves_readEchoesWith : moves.
Lemma moves_readEchoes a ms i : moves any (readEchoes a ms i).
Proof. unfold readEchoes. stroll. Qed.
Lemma moves_echoNewScan_go l f : moves any (echoNewScan_go l f).
Proof. revert f. induction l; intros; cbn [echoNewScan_go]; stroll. Qed.
Hint Resolve moves_readEchoes moves_echoNewScan_go : moves.
Lemma moves_echoAreaView a : moves any (echoAreaView a).
Proof. unfold echoAreaView. stroll. Qed.
Hint Resolve moves_echoAreaView : moves.
Lemma moves_echoesMenu : moves any echoesMenu.
Proof. unfold echoesMenu, echoNewScan. stroll. Qed.
Hint Resolve moves_boardsMenu moves_echoesMenu : moves.

(** *** netmail.go *)

Lemma moves_canSendNetmail : moves any canSendNetmail.
Proof. unfold canSendNetmail. stroll. Qed.
Lemma moves_netmailHeading : moves any netmailHeading.
Proof. unfold netmailHeading. stroll. Qed.
Lemma moves_netmailRows ms : moves any (netmailRows ms).
Proof. unfold netmailRows. stroll. Qed.
Lemma moves_netmailName : moves any netmailName.
Proof. unfold netmailName. stroll. Qed.
Hint Resolve moves_canSendNetmail moves_netmailHeading moves_netmailRows moves_netmailName : moves.

Lemma steps_queue hop h ms : steps R (queue_packet hop h ms).
Proof. eapply steps_same; [exact _|]. intros x. by destruct (FtnOutbound.Queue _ _ _ _ _ _ _ _ _). Qed.
Hint Resolve steps_queue : steps.
Lemma steps_queue_tries n hop h ms : steps R (queue_tries n hop h ms).
Proof. induction n; cbn [queue_tries]; walk. Qed.
Hint Resolve steps_queue_tries : steps.

(** Netmail is kept under the name of its author. *)
Lemma steps_sendNetmail n from to hop main u : n_author n = Some u -> ours who u -> steps R (sendNetmail n from to hop main).
Proof.
  intros Hn Hu. unfold sendNetmail. walk. all: (eapply steps_op; [exact _|]; intros; eapply a_sent; [|exact Hu|eassumption]; exact Hn).
Qed.

Hint Extern 2 (steps _ (sendNetmail _ _ _ _ _)) => eapply steps_sendNetmail; [reflexivity|eassumption] : steps.

Lemma moves_writeNetmail_to d name to : moves any (writeNetmail_to d name to).
Proof. unfold writeNetmail_to. stroll. Qed.
Hint Resolve moves_writeNetmail_to : moves.
Lemma moves_writeNetmail d : moves any (writeNetmail d).
Proof. unfold writeNetmail. stroll. Qed.
Hint Resolve moves_writeNetmail : moves.
Lemma moves_replyNetmail n : moves any (replyNetmail n).
Proof. unfold replyNetmail. stroll. Qed.
Hint Resolve moves_replyNetmail : moves.
Lemma moves_readNetmail ms i : moves any (readNetmail ms i).
Proof. unfold readNetmail, netmail_turn. stroll. Qed.
Hint Resolve moves_readNetmail : moves.
Lemma moves_netmailMenu : moves any netmailMenu.
Proof. unfold netmailMenu. stroll. Qed.
Hint Resolve moves_netmailMenu : moves.

(** *** files.go *)

Lemma take_input_length n i size : (length (fst (take_input n i size)) <= length i)%nat.
Proof.
  revert i size. induction n as [|n IH]; intros [|[b|w h|b|] i] size; cbn [take_input fst length]; try lia.
  all: etrans; [apply IH|lia].
Qed.

(** The transfer takes what it read from the session's input. *)
Lemma moves_zmodemSend name data : moves any (zmodemSend name data).
Proof.
  unfold zmodemSend. stroll. apply moves_take; [exact _|]. intros x. pose proof (take_input_length (z_takes (zmodem_run name data a)) (se_in x) (se_size x)) as Hl.
  destruct (take_input _ _ _) as [i size]. destruct (write_same (z_out (zmodem_run name data a)) (with_input (se_dec x) size i x)) as [-> ->]. done.
Qed.
Hint Resolve moves_zmodemSend : moves.

Lemma moves_fileMissing : moves any fileMissing.
Proof. unfold fileMissing. stroll. Qed.
Hint Resolve moves_fileMissing : moves.
Lemma moves_downloadZmodem f : moves any (downloadZmodem f).
Proof. unfold downloadZmodem. stroll. Qed.
Lemma moves_downloadLink f : moves any (downloadLink f).
Proof. unfold downloadLink. stroll. Qed.
Hint Resolve moves_downloadZmodem moves_downloadLink : moves.
Lemma moves_fileView a f : moves any (fileView a f).
Proof. unfold fileView. stroll. Qed.
Hint Resolve moves_fileView : moves.
Lemma moves_fileAreaView a : moves any (fileAreaView a).
Proof. unfold fileAreaView. stroll. Qed.
Hint Resolve moves_fileAreaView : moves.
Lemma moves_filesMenu : moves any filesMenu.
Proof. unfold filesMenu. stroll. Qed.
End areas.

#[export] Hint Resolve moves_showWho moves_whoOnline moves_userTable moves_lastCallers moves_pageSomeone moves_news moves_onelinerWall moves_bulletinTable
  moves_newScan_go moves_boardsMenu moves_echoesMenu moves_netmailMenu moves_canSendNetmail moves_filesMenu : moves.
