(* ===== verification/SystemSpec.v ===== *)
(** * What the rest of the menus guarantee

    The rules of MenuSpec.v carried through the settings, the sysop's menus, the doors, the chat room and the main menu. *)

From Stdlib Require Import Ascii String ZArith Lia.
From stdpp Require Import base tactics list gmap strings.
From S2P Require Import Prelude GoStrings GoTime GoFiles Term StoreDB StoreUsers StoreMail StoreBoards StoreEcho StoreInv StoreOk Limits Nodes Mailer FileLink Server ServerSpec Ui Session Editor SessionSpec Screens Login Compose MailMenu Community BoardsMenu EchoMenu FilesMenu Settings SysopMenu Doors DoorsMenu ChatRoom MainMenu MenuSpec AreaSpec.
From S2P Require Chat.
Open Scope Z_scope.

Section system.
Context `{UnicodeTables} `{Crypto} `{MailParser} `{FoldTables} `{BBS} `{Mailing} `{Hmac} `{Zmodem} `{SSHLib} `{DoorWorld} `{NetAddr}
  (who : option Z) (R : Server -> Server -> Prop) `{!ServerRel (acts who) R}.
#[local] Abbreviation moves := (moves R who).

(** *** settings.go *)

Hint Extern 2 (SessionSpec.moves _ _ _ (modify (with_user _))) => apply moves_set_user; eassumption : moves.

(** The store answers with the caller's own account. *)
Lemma moves_answer (o : Z -> op UserRow) (k : result store_error UserRow -> M unit) :
  steps R (store_op o) -> (forall now db v db', o now db = Ok (v, db') -> ours who (u_id v)) ->
  (forall r, if_ok (fun v => ours who (u_id v)) r -> moves any (k r)) -> moves any (lift (store_op o) ≫= k).
Proof.
  intros Ho Hv Hk. eapply moves_bind; [exact _|apply (moves_lift_post _ _ (if_ok (fun v => ours who (u_id v)))); [done|]|].
  - intros s. by apply op_post.
  - intros b r Hr. by apply Hk.
Qed.

Lemma moves_answer_do (o : Z -> DB -> result store_error UserRow * DB) (k : result store_error UserRow -> M unit) :
  steps R (store_do o) -> (forall now db v, fst (o now db) = Ok v -> ours who (u_id v)) ->
  (forall r, if_ok (fun v => ours who (u_id v)) r -> moves any (k r)) -> moves any (lift (store_do o) ≫= k).
Proof.
  intros Ho Hv Hk. eapply moves_bind; [exact _|apply (moves_lift_post _ _ (if_ok (fun v => ours who (u_id v)))); [done|]|].
  - intros s. apply do_post. intros now db. specialize (Hv now db). destruct (fst (o now db)); [by apply Hv|done].
  - intros b r Hr. by apply Hk.
Qed.

Lemma answer_location id l db v db' : SetLocation id l db = Ok (v, db') -> u_id v = id.
Proof. unfold SetLocation, UserByID. intros E. simp_res. case_match. simp_res. by eapply user_id_of. Qed.
Lemma answer_mode id m db v db' : SetEmailMode id m db = Ok (v, db') -> u_id v = id.
Proof. unfold SetEmailMode, UserByID. intros E. simp_res. by eapply user_id_of. Qed.
Lemma answer_remove id db v : fst (RemoveEmail id db) = Ok v -> u_id v = id.
Proof. unfold RemoveEmail, UserByID. cbn. apply user_id_of. Qed.
Lemma answer_confirm now id c db v : fst (ConfirmEmail now id c db) = Ok v -> u_id v = id.
Proof. unfold ConfirmEmail. repeat case_match; cbn; try done. intros [= <-]. by eapply user_id_of. Qed.
Lemma answer_login now id db v p db' : RecordLogin now id db = Ok ((v, p), db') -> u_id v = id.
Proof. unfold RecordLogin. intros E. simp_res. by eapply user_id_of. Qed.

Lemma moves_askTwice l : moves any (askPasswordTwice l).
Proof. unfold askPasswordTwice. stroll. Qed.
Hint Resolve moves_askTwice : moves.
Lemma moves_changePassword : moves any changePassword.
Proof. unfold changePassword. stroll. Qed.
Lemma moves_changeLocation : moves any changeLocation.
Proof.
  unfold changeLocation. eapply moves_bind; [exact _|leaf|]. intros b l _. eapply moves_bind; [exact _|leaf|]. cbv beta. intros b' u Hu.
  apply moves_answer; [walk|intros; by erewrite answer_location|]. intros [v|e] Hv; unfold if_ok in Hv; stroll.
Qed.

Lemma moves_applyBlock b h : moves any (applyBlock b h).
Proof. unfold applyBlock. stroll. Qed.
Hint Resolve moves_changePassword moves_changeLocation moves_applyBlock : moves.
Lemma moves_manageBlocks : moves any manageBlocks.
Proof. unfold manageBlocks. stroll. Qed.
Lemma moves_terminalName : moves any terminalName.
Proof. unfold terminalName. stroll. Qed.
Lemma moves_emailNote : moves any emailNote.
Proof. unfold emailNote. stroll. Qed.

(** *** sshkeys.go and email.go *)

Lemma moves_addSSHKey : moves any addSSHKey.
Proof. unfold addSSHKey. stroll. Qed.
Lemma moves_removeSSHKey keys : moves any (removeSSHKey keys).
Proof. unfold removeSSHKey. stroll. Qed.
Hint Resolve moves_manageBlocks moves_terminalName moves_emailNote moves_addSSHKey moves_removeSSHKey : moves.
Lemma moves_manageSSHKeys : moves any manageSSHKeys.
Proof. unfold manageSSHKeys. stroll. Qed.

Lemma moves_verifyEmailCode : moves any verifyEmailCode.
Proof.
  unfold verifyEmailCode. eapply moves_bind; [exact _|leaf|]. intros b code _. destruct (bool_decide (code = [])); [stroll|]. eapply moves_bind; [exact _|leaf|]. cbv beta. intros b' u Hu.
  apply moves_answer_do; [walk|intros ? ? ? E; by rewrite (answer_confirm _ _ _ _ _ E)|]. intros [v|e] Hv; unfold if_ok in Hv; stroll.
Qed.
Hint Resolve moves_verifyEmailCode moves_manageSSHKeys : moves.
Lemma moves_setEmailAddress : moves any setEmailAddress.
Proof. unfold setEmailAddress. stroll. Qed.
Lemma moves_chooseEmailMode : moves any chooseEmailMode.
Proof.
  unfold chooseEmailMode. do 4 (eapply moves_bind; [exact _|leaf|]; cbv beta; intros ? ? ?).
  apply moves_answer; [walk|intros; by erewrite answer_mode|]. intros [v|e] Hv; unfold if_ok in Hv; stroll.
Qed.
Lemma moves_removeEmail : moves any removeEmail.
Proof.
  unfold removeEmail. eapply moves_bind; [exact _|leaf|]. intros b ok _. destruct (negb ok); [stroll|].
  eapply moves_bind; [exact _|leaf|]. cbv beta. intros b' u Hu.
  apply moves_answer_do; [walk|intros ? ? ? E; by rewrite (answer_remove _ _ _ E)|]. intros [v|e] Hv; unfold if_ok in Hv; stroll.
Qed.
Hint Resolve moves_setEmailAddress moves_chooseEmailMode moves_removeEmail : moves.
Lemma moves_emailSettings : moves any emailSettings.
Proof. unfold emailSettings. stroll. Qed.
Hint Resolve moves_emailSettings : moves.
Lemma moves_settings : moves any settings.
Proof. unfold settings. stroll. Qed.
Hint Resolve moves_settings : moves.

(** *** sysop.go, sysop_users.go and approval.go *)

Lemma moves_requireSysop : moves any sess_requireSysop.
Proof. unfold sess_requireSysop. stroll. Qed.
Lemma moves_audit d : moves any (audit d).
Proof. unfold audit. stroll. Qed.
Hint Resolve moves_requireSysop moves_audit : moves.
Lemma moves_sysopKick : moves any sysopKick.
Proof. unfold sysopKick. stroll. Qed.
Lemma moves_sysopBroadcast : moves any sysopBroadcast.
Proof. unfold sysopBroadcast. stroll. Qed.
Lemma moves_sysopEventLog : moves any sysopEventLog.
Proof. unfold sysopEventLog. stroll. Qed.
Lemma moves_createBoard : moves any createBoard.
Proof. unfold createBoard. stroll. Qed.
Lemma moves_deleteBoard bs : moves any (deleteBoard bs).
Proof. unfold deleteBoard. stroll. Qed.
Hint Resolve moves_sysopKick moves_sysopBroadcast moves_sysopEventLog moves_createBoard moves_deleteBoard : moves.
Lemma moves_sysopBoards : moves any sysopBoards.
Proof. unfold sysopBoards. stroll. Qed.
Lemma moves_addBulletin : moves any addBulletin.
Proof. unfold addBulletin. stroll. Qed.
Lemma moves_deleteBulletin bs : moves any (deleteBulletin bs).
Proof. unfold deleteBulletin. stroll. Qed.
Hint Resolve moves_sysopBoards moves_addBulletin moves_deleteBulletin : moves.
Lemma moves_sysopNews : moves any sysopNews.
Proof. unfold sysopNews. stroll. Qed.
Lemma moves_sysopOneliners : moves any sysopOneliners.
Proof. unfold sysopOneliners. stroll. Qed.
Lemma moves_showAccount u : moves any (showAccount u).
Proof. unfold showAccount. stroll. Qed.
Lemma moves_sysopResetPassword u : moves any (sysopResetPassword u).
Proof. unfold sysopResetPassword. stroll. Qed.
Lemma moves_sysopToggleLock u : moves any (sysopToggleLock u).
Proof. unfold sysopToggleLock. stroll. Qed.
Lemma moves_sysopToggleSysop u : moves any (sysopToggleSysop u).
Proof. unfold sysopToggleSysop. stroll. Qed.
Lemma moves_sysopDeleteUser u : moves any (sysopDeleteUser u).
Proof. unfold sysopDeleteUser. stroll. Qed.
Hint Resolve moves_sysopNews moves_sysopOneliners moves_showAccount moves_sysopResetPassword moves_sysopToggleLock moves_sysopToggleSysop
  moves_sysopDeleteUser : moves.
Lemma moves_sysopUser id : moves any (sysopUser id).
Proof. unfold sysopUser. stroll. Qed.
Hint Resolve moves_sysopUser : moves.
Lemma moves_sysopPickUser : moves any sysopPickUser.
Proof. unfold sysopPickUser. stroll. Qed.
Lemma moves_reviewCaller u : moves any (reviewCaller u).
Proof. unfold reviewCaller. stroll. Qed.
Hint Resolve moves_sysopPickUser moves_reviewCaller : moves.
Lemma moves_sysopApprovals : moves any sysopApprovals.
Proof. unfold sysopApprovals. stroll. Qed.
Hint Resolve moves_sysopApprovals : moves.
Lemma moves_sysopMenu : moves any sysopMenu.
Proof. unfold sysopMenu. stroll. Qed.
Hint Resolve moves_sysopMenu : moves.

(** *** doors.go *)

(** A step of the session alone. *)
Lemma moves_own {A} (m : M A) :
  (forall s, shared (snd (m s)) = shared s /\ (left_in (snd (m s)) <= left_in s)%nat /\ se_user (sess (snd (m s))) = se_user (sess s)
             /\ fst (m s) <> Err EFuel) -> moves any m.
Proof.
  intros Hm s Hr Hi. destruct (Hm s) as (E & Hl & Hu & He). destruct (m s) as [r s']. cbn in *. unfold mine in *. rewrite E, Hu.
  split_and!; try done. destruct r; [done|]. intros ->. done.
Qed.

Lemma next_byte_left i size : let '(_, i', _) := next_byte i size in (length i' <= length i)%nat.
Proof. revert size. induction i as [|[b|w h|n|] i IH]; intros size; cbn [next_byte length]; try lia. all: specialize (IH (w, h)) || specialize (IH size); destruct (next_byte _ _) as [[? ?] ?]; lia. Qed.

Lemma moves_bridge evs taken : moves any (bridge evs taken).
Proof.
  revert taken. induction evs as [|[p| | |] evs IH]; intros taken; cbn [bridge]; try solve [stroll].
  - eapply moves_bind; [exact _|leaf|]. intros b cs _. eapply moves_bind with (Q := any); [exact _| |intros b' ok _; cbv beta; case_match; [apply IH|stroll]].
    apply moves_own. intros s. split_and!; [done| |done|done]. unfold left_in. cbn. lia.
  - eapply moves_bind with (Q := any); [exact _| |intros b x _; cbv beta; eapply moves_bind with (Q := any); [exact _| |intros b' data _; cbv beta; apply IH]].
    + apply moves_own. intros s. pose proof (next_byte_left (se_in (sess s)) (se_size (sess s))) as Hl. destruct (next_byte _ _) as [[x i] size].
      cbn. split_and!; [done|done|done|by destruct x].
    + apply moves_own. intros s. destruct (doorInput _ _ _). cbn. split_and!; [done| |done|done]. unfold left_in. cbn. lia.
Qed.
Hint Resolve moves_bridge : moves.

Lemma moves_doorCountNote : moves any doorCountNote.
Proof. unfold doorCountNote. stroll. Qed.
Lemma moves_openDoor d : moves any (openDoor d).
Proof. unfold openDoor. stroll. Qed.
Hint Resolve moves_openDoor : moves.
Hint Extern 1 (steps _ (door_trylock _)) => eapply steps_same; [exact _|]; intros; by case_match : steps.
Hint Extern 1 (steps _ (door_unlock _)) => eapply steps_same; [exact _|]; done : steps.
Lemma moves_runDoor d : moves any (runDoor d).
Proof. unfold runDoor. stroll. Qed.
Hint Resolve moves_runDoor : moves.
Lemma moves_doorsMenu : moves any doorsMenu.
Proof. unfold doorsMenu. stroll. Qed.

(** *** chatui.go *)

Lemma steps_chat {A} (f : Chat.chatHub -> A * Chat.chatHub) : steps R (on_chat f).
Proof. eapply steps_same; [exact _|]. intros x. by destruct (f _). Qed.
Hint Resolve @steps_chat : steps.

Lemma write_left p x : length (se_in (write_bytes p x)) = length (se_in x).
Proof. by destruct (write_same p x) as [-> _]. Qed.

Lemma moves_emit text c : moves any (emit text c).
Proof.
  apply moves_own. intros s. unfold emit. destruct (sc_werr c); [done|]. destruct (Render _ _) as [out r]. cbn. split_and!; [done| |done|done].
  unfold left_in. cbn. lia.
Qed.
Hint Resolve moves_emit : moves.
Lemma moves_wipe c : moves any (wipe c).
Proof. unfold wipe. stroll. Qed.
Hint Resolve moves_wipe : moves.
Lemma moves_show_line l c : moves any (show_line l c).
Proof. unfold show_line. stroll. Qed.
Hint Resolve moves_show_line : moves.
Lemma moves_show_all ls c : moves any (show_all ls c).
Proof. revert c. induction ls; intros; cbn [show_all]; stroll. Qed.
Hint Resolve moves_show_all : moves.
Lemma moves_forward_chat n c : moves any (forward_chat n c).
Proof. unfold forward_chat. stroll. Qed.
Lemma moves_start_line c : moves any (start_line c).
Proof. unfold start_line. stroll. Qed.
Lemma moves_chat_key r c : moves any (chat_key r c).
Proof. unfold chat_key. stroll. Qed.
Lemma moves_chatSay t c : moves any (chatSay t c).
Proof. unfold chatSay. stroll. Qed.
Hint Resolve moves_forward_chat moves_start_line moves_chat_key moves_chatSay : moves.
Lemma moves_chatCommand h l c : moves any (chatCommand h l c).
Proof. unfold chatCommand. destruct (cut l 32) as [[cmd arg] ?]. stroll. Qed.
Lemma moves_chat_next : moves eaten chat_next.
Proof.
  intros s Hr Hi. unfold chat_next. destruct (se_werr (sess s)); [by split_and!|]. destruct (se_in (sess s)) as [|[b|w h|n|] i] eqn:E; try by split_and!.
  1: destruct (feed_byte _ _ _) as [r d].
  all: cbn; unfold left_in; cbn; rewrite E; cbn; split_and!; [lia|done|done|done|apply Nat.leb_refl].
Qed.
Hint Resolve moves_chatCommand moves_chat_next : moves.
Lemma moves_chat_turn h c : moves turn (chat_turn h c).
Proof. unfold chat_turn. stroll. Qed.
Hint Resolve moves_chat_turn : moves.
Lemma moves_chatRoom : moves any chatRoom.
Proof. unfold chatRoom. stroll. eapply moves_always; [exact _|stroll|stroll|done]. Qed.
Hint Resolve moves_chatRoom moves_doorsMenu moves_doorCountNote : moves.

(** *** menu.go and login.go *)

Lemma moves_loadCounts : moves any loadMainMenuCounts.
Proof. unfold loadMainMenuCounts. stroll. Qed.
Lemma moves_approved w m : moves any m -> moves any (approved w m).
Proof. intros Hm. unfold approved. stroll. Qed.
Hint Resolve moves_loadCounts moves_approved : moves.
Lemma moves_mainMenuAction k : moves any (mainMenuAction k).
Proof. unfold mainMenuAction. stroll. Qed.
Hint Resolve moves_mainMenuAction : moves.
Lemma moves_mainMenu : moves any mainMenu.
Proof. unfold mainMenu. stroll. Qed.
Lemma moves_offerNews t : moves any (offerNews t).
Proof. unfold offerNews. stroll. Qed.
Lemma moves_offerNewMail : moves any offerNewMail.
Proof. unfold offerNewMail. stroll. Qed.
Hint Resolve moves_mainMenu moves_offerNews moves_offerNewMail : moves.

Lemma moves_afterLogin : moves any afterLogin.
Proof.
  unfold afterLogin. eapply moves_bind; [exact _|leaf|]. cbv beta. intros b u Hu.
  eapply moves_bind; [exact _|apply (moves_lift_ok _ _ (fun x => ours who (u_id (fst x)))); [walk|]|].
  - intros s. apply op_post. intros now db [v p] db' E. cbn. by rewrite (answer_login _ _ _ _ _ _ E).
  - cbv beta. intros b' [v prev] Hv. cbn [fst] in Hv. stroll.
Qed.
Hint Resolve moves_afterLogin : moves.

End system.

#[export] Hint Resolve moves_afterLogin moves_mainMenu : moves.

(** ** Before the caller has a name *)

Section calls.
Context `{UnicodeTables} `{Crypto} `{MailParser} `{FoldTables} `{BBS} `{Mailing} `{Hmac} `{Zmodem} `{SSHLib} `{DoorWorld} `{NetAddr}
  (R : Server -> Server -> Prop) `{!ServerRel (acts None) R}.
#[local] Abbreviation moves := (moves R None).

Hint Extern 2 (SessionSpec.moves _ _ _ (modify (with_user _))) => apply moves_set_user; first [exact _ | exact Logic.I] : moves.

Lemma moves_register : moves any register.
Proof. unfold register. stroll. Qed.
Hint Resolve moves_register : moves.
Lemma moves_login : moves any login.
Proof. unfold login, login_turn. stroll. Qed.
Lemma moves_keyLogin id : moves any (keyLogin id).
Proof. unfold keyLogin. stroll. Qed.
Hint Resolve moves_login moves_keyLogin : moves.
Lemma moves_session_run : moves any session_run.
Proof. unfold session_run. stroll. Qed.
End calls.
