(* ===== verification/CallSpec.v ===== *)
(** * What a call guarantees

    The theorems about a whole call: it ends if the doors it runs end, and the caller acts only as itself. *)

From Stdlib Require Import Ascii String ZArith Lia.
From stdpp Require Import base tactics list gmap strings relations.
From S2P Require Import Prelude GoStrings GoTime GoFiles Term StoreDB StoreUsers StoreMail StoreBoards StoreEcho StoreInv StoreDemo StoreOk StoreAccountSpec Limits Nodes Mailer FileLink Server ServerSpec Ui Session Editor SessionSpec Screens Login Compose MailMenu Community BoardsMenu EchoMenu FilesMenu Settings SysopMenu Doors DoorsMenu ChatRoom MainMenu Demo MenuSpec AreaSpec SystemSpec.
From S2P Require Chat.
Open Scope Z_scope.

(** ** Relations between servers *)

Section relations.
Context `{UnicodeTables} `{Crypto} `{MailParser} `{BBS}.

(** Steps of [who], between steps of the rest of the program. *)
Definition as_ (who : option Z) (E : DB -> DB -> Prop) (x y : Server) : Prop :=
  rtc (fun a b => acts who a b \/ E a b) (sv_db x) (sv_db y).

#[export] Instance as_rel who E : ServerRel (acts who) (as_ who E).
Proof.
  split.
  - split; unfold as_; [intros x; apply rtc_refl|intros x y z; apply rtc_trans].
  - unfold as_. intros x y ->. apply rtc_refl.
  - intros x y Hs. apply rtc_once. by left.
Qed.

Definition anything (x y : Server) : Prop := True.
#[export] Instance anything_rel P : ServerRel P anything.
Proof. by split; [split| |]. Qed.

#[export] Instance anything_order : PreOrder anything.
Proof. by split. Qed.

Lemma rely_anything s : rely anything s.
Proof. unfold rely. by apply Forall_true. Qed.
End relations.

Section calls.
Context `{UnicodeTables} `{Crypto} `{MailParser} `{FoldTables} `{BBS} `{Mailing} `{Hmac} `{Zmodem} `{SSHLib} `{DoorWorld} `{NetAddr}.

Lemma steps_acquire (R : Server -> Server -> Prop) `{!ServerRel (acts None) R} {A} (f : nodeTable -> A * nodeTable) : steps R (on_nodes f).
Proof. eapply steps_same; [exact _|]. intros x. by destruct (f _). Qed.
Hint Resolve @steps_acquire : steps.

(** A procedure of the server, with what its result satisfies. *)
Section call.
Context (R : Server -> Server -> Prop) `{!ServerRel (acts None) R}.

Definition yields {A} (Q : A -> Prop) (m : Proc A) : Prop := forall s, rely R s -> R (srv s) (srv (snd (m s))) /\ rely R (snd (m s)) /\ Q (fst (m s)).

Lemma yields_ret {A} (Q : A -> Prop) a : Q a -> yields Q (mret a).
Proof. intros HQ s Hs. by split_and!. Qed.

Lemma yields_bind {A B} (P : A -> Prop) (Q : B -> Prop) (m : Proc A) (k : A -> Proc B) :
  yields P m -> (forall a, P a -> yields Q (k a)) -> yields Q (m ≫= k).
Proof.
  intros Hm Hk s Hs. unfold mbind, proc_bind. destruct (Hm s Hs) as (R1 & D1 & Q1). destruct (m s) as [a s1]. cbn in *.
  destruct (Hk a Q1 s1 D1) as (R2 & D2 & Q2). split_and!; [by etrans|done|done].
Qed.

Lemma yields_any {A} (m : Proc A) : steps R m -> yields (fun _ => True) m.
Proof. intros Hm s Hs. destruct (Hm s Hs). by split_and!. Qed.

(** The session, as part of the call. *)
Lemma yields_session {A} (m : M A) (s0 : Sess) :
  SessionSpec.moves R None any m ->
  yields (fun out => fst out <> Some (Err EFuel)) (fun sh => let '(r, s) := m (MkSt s0 sh) in ((Some r, se_out (sess s)), shared s)).
Proof.
  intros Hm sh Hs. specialize (Hm (MkSt s0 sh) Hs Logic.I). destruct (m (MkSt s0 sh)) as [r s]. cbn in *.
  destruct Hm as (_ & R1 & D1 & _ & Q1). split_and!; [done|done|]. destruct r; [done|]. intros [=]. by subst.
Qed.

Lemma serveCaller_yields t ip secure ku term size script room :
  yields (fun out => fst out <> Some (Err EFuel)) (serveCaller t ip secure ku term size script room).
Proof.
  unfold serveCaller. eapply yields_bind; [apply yields_any; walk|intros [|] _; [by apply yields_ret|]].
  do 2 (eapply yields_bind; [apply yields_any; walk|intros ? _]). destruct a0 as [id|e]; [|by apply yields_ret].
  eapply yields_bind; [apply yields_any; walk|intros ? _]. eapply yields_bind; [apply yields_session, moves_session_run; exact _|].
  intros out Hout. eapply yields_bind; [apply yields_any; walk|intros ? _]. by apply yields_ret.
Qed.
End call.

(** C7: Every call ends, provided that the doors and file transfers it runs do: whatever the caller types, resizes and whenever the line
    drops, whatever the window, the terminal and the rest of the program do in between, no loop of the sign-in, of a menu,
    of an editor, of the reader of keys or of the chat room turns without taking input, so that the fuel that the loops
    of the model get, one turn per input left, is never used up.  A door's run is
    a finite list of what it does here ([DoorWorld]), a transfer takes part of the input ([Zmodem]); when a door's
    program ends is [Process.door_ends_in_time]'s matter, under its condition, and one may not. *)
Theorem call_ends t ip secure ku term size script room sh : fst (fst (serveCaller t ip secure ku term size script room sh)) <> Some (Err EFuel).
Proof. by destruct (serveCaller_yields anything t ip secure ku term size script room sh (rely_anything sh)) as (_ & _ & ?). Qed.

(** C5: A signed-in caller acts only as itself: from the sign-in on, in every menu, every change of the database is an
    operation that names the caller's own account as the one who acts, or a step of another goroutine. *)
Theorem session_acts_as_itself (E : DB -> DB -> Prop) (id : Z) (s : St) :
  u_id (se_user (sess s)) = id -> rely (as_ (Some id) E) (shared s) ->
  let after := snd ((_ ← afterLogin; mainMenu) s) in
  rtc (fun a b => acts (Some id) a b \/ E a b) (sv_db (srv (shared s))) (sv_db (srv (shared after)))
  /\ u_id (se_user (sess after)) = id.
Proof.
  intros Hu Hr. assert (SessionSpec.moves (as_ (Some id) E) (Some id) any (_ ← afterLogin; mainMenu)) as Hm by stroll.
  specialize (Hm s Hr Hu). destruct ((_ ← afterLogin; mainMenu) s) as [r s']. by destruct Hm as (_ & ? & _ & ? & _).
Qed.
End calls.

(** ** The theorems on Bob's call *)

Lemma demo_server_ok : db_ok (sv_db demo_server).
Proof.
  eapply reachable_ok, reach_step; [apply demo_reachable|]. eapply (st_bootstrap demo_cfg demo_db (str "Alice")). cbv [sv_db demo_server newServer demo_server_db run].
  vm_compute. reflexivity.
Qed.

Lemma session_acts_as_itself_witness :
  let s := demo_session (typed (str "n" ++ str "y" ++ str "Greetings" ++ enter ++ str "gy")) in
  let after := snd ((_ ← afterLogin; mainMenu) s) in
  len (oneliners (sv_db (srv (shared after)))) = 1
  /\ rtc (fun a b => acts (Some 2) a b \/ False) (sv_db (srv (shared s))) (sv_db (srv (shared after))).
Proof.
  cbv zeta. split; [vm_compute; reflexivity|].
  apply (session_acts_as_itself (fun _ _ => False) 2); [vm_compute; reflexivity|]. apply Forall_nil. done.
Defined.
