(* ===== verification/ConfineSpec.v ===== *)
(** * What a caller without rights can change

    [confined id]: what an account that is not a sysop leaves as it was.  Every operation in its name stays within. *)

From Stdlib Require Import Ascii String ZArith Lia.
From stdpp Require Import base tactics list gmap strings relations.
From S2P Require Import Prelude GoStrings GoTime GoFiles Term StoreDB StoreUsers StoreMail StoreBoards StoreEcho StoreInv StoreDemo StoreOk StoreAccountSpec StoreMailSpec Limits Nodes Mailer FileLink Server ServerSpec Ui Session SessionSpec Screens Login MainMenu Demo CallSpec.
From S2P Require Import EchoMenu FilesMenu FileLink Settings DoorsMenu SystemSpec.
Open Scope Z_scope.

(** ** Rows that are not the caller's *)

Section others.
Context {R : Type} (own : R -> bool).

Lemma others_insert rows r : own r = true -> delete_where own (rows ++ [r]) = delete_where own rows.
Proof. intros Hr. unfold delete_where. rewrite filter_app, filter_cons_False by (by rewrite Hr). by rewrite app_nil_r. Qed.

Lemma others_update q f rows :
  (forall r, r ∈ rows -> q r = true -> own r = true) -> (forall r, r ∈ rows -> q r = true -> own (f r) = true) ->
  delete_where own (update_where q f rows) = delete_where own rows.
Proof.
  intros Hq Hf. unfold delete_where, update_where. induction rows as [|r rows IH]; [done|]. cbn [fmap list_fmap].
  rewrite !filter_cons. pose proof (Hq r ltac:(left)) as H1. pose proof (Hf r ltac:(left)) as H2.
  rewrite IH; [|intros; apply Hq; [by right|done]|intros; apply Hf; [by right|done]]. destruct (q r); [|done]. by rewrite H1, H2.
Qed.

Lemma others_delete q rows : (forall r, r ∈ rows -> q r = true -> own r = true) -> delete_where own (delete_where q rows) = delete_where own rows.
Proof.
  intros Hq. unfold delete_where. induction rows as [|r rows IH]; [done|]. rewrite (filter_cons (fun r => q r = false)). specialize (IH ltac:(intros; apply Hq; [by right|done])).
  pose proof (Hq r ltac:(left)) as H1. destruct (q r); cbn [decide].
  - rewrite decide_False by done. rewrite (filter_cons_False (fun r => own r = false)) by (by rewrite H1). exact IH.
  - rewrite decide_True by done. by rewrite !filter_cons, IH.
Qed.
End others.

Section confined.
Context `{UnicodeTables} `{Crypto} `{MailParser} `{BBS}.

(** [confined id db db']: other accounts are the same; nobody's rights changed; the boards, the news and the areas are the
    same; and so are other callers' posts, the letters between others, and others' blocks, keys and email codes. *)
Record confined (id : Z) (db db' : DB) : Prop := MkConfined {
  cf_users : delete_where (fun u => u_id u =? id) (users db') = delete_where (fun u => u_id u =? id) (users db);
  cf_rights : (fun u => (u_id u, rights u)) <$> users db' = (fun u => (u_id u, rights u)) <$> users db;
  cf_boards : boards db' = boards db;
  cf_news : bulletins db' = bulletins db;
  cf_echo_areas : echo_areas db' = echo_areas db;
  cf_echoes : echo_messages db' = echo_messages db;
  cf_file_areas : file_areas db' = file_areas db;
  cf_posts : delete_where (fun p => p_author p =? id) (posts db') = delete_where (fun p => p_author p =? id) (posts db);
  cf_letters : delete_where (fun m => (m_from m =? id) || (m_to m =? id)) (messages db')
               = delete_where (fun m => (m_from m =? id) || (m_to m =? id)) (messages db);
  cf_wall : prefix (oneliners db) (oneliners db');
  cf_blocks : delete_where (fun b => fst b =? id) (blocks db') = delete_where (fun b => fst b =? id) (blocks db);
  cf_keys : delete_where (fun k => k_user k =? id) (ssh_keys db') = delete_where (fun k => k_user k =? id) (ssh_keys db);
  cf_codes : delete_where (fun v => v_user v =? id) (verifications db') = delete_where (fun v => v_user v =? id) (verifications db)
}.

Lemma confined_refl id db : confined id db db.
Proof. by constructor. Qed.

Lemma confined_trans id a b c : confined id a b -> confined id b c -> confined id a c.
Proof. intros [] []. constructor; by etrans. Qed.

Lemma row_fmap {R K} (key : R -> K) (id : R -> Z) rows rows' i :
  (fun r => (id r, key r)) <$> rows' = (fun r => (id r, key r)) <$> rows -> key <$> row id rows' i = key <$> row id rows i.
Proof.
  unfold row. revert rows'. induction rows as [|r rows IH]; intros [|r' rows'] E; try done. cbn in E. injection E as E1 E2 E3.
  cbn. rewrite E1. destruct (id r =? i); [by cbn; f_equal|]. by apply IH.
Qed.

Lemma confined_sysop id db db' i : confined id db db' -> requireSysop db' i = Ok tt -> requireSysop db i = Ok tt.
Proof.
  intros [_ Hr _ _ _ _ _ _ _ _ _ _ _] Hs. apply requireSysop_Ok in Hs as (u & Hu & Hus).
  pose proof (row_fmap rights u_id _ _ i Hr) as E. rewrite Hu in E. unfold requireSysop, getUser, or_not_found.
  destruct (row u_id (users db) i) as [v|]; [|done]. injection E as E _ _. cbn. by rewrite <-E, Hus.
Qed.

(** An update of the caller's own row that keeps its rights. *)
Lemma confined_user id p f db db' :
  db' = on_users (update_where p f) db -> (forall u, p u = true -> u_id u = id) -> (forall u, u_id (f u) = u_id u /\ rights (f u) = rights u) ->
  confined id db db'.
Proof.
  intros -> Hp Hf. constructor; try done; cbn [on_users users].
  - apply others_update; intros u _ Hu; apply Z.eqb_eq; [by apply Hp|]. destruct (Hf u) as [-> _]. by apply Hp.
  - apply fmap_update. intros u. by destruct (Hf u) as [-> ->].
Qed.

Lemma confined_updateUser id f db db' :
  updateUser id f db = Ok (tt, db') -> (forall u, u_id (f u) = u_id u /\ rights (f u) = rights u) -> confined id db db'.
Proof. unfold updateUser. case_match; intros [= <-] Hf. eapply confined_user; [done| |done]. by intros ? ?%Z.eqb_eq. Qed.

Lemma confined_pending id f db :
  (f = delete_where (fun v => v_user v =? id) \/ (exists g, f = update_where (fun v => v_user v =? id) g /\ forall v, v_user v = id -> v_user (g v) = id)) ->
  confined id db (on_verifications f db).
Proof.
  intros Hf. constructor; try done. cbn [on_verifications verifications]. destruct Hf as [->|(g & -> & Hg)].
  - by apply others_delete.
  - apply others_update; [done|]. intros v _ Hv%Z.eqb_eq. apply Z.eqb_eq. by apply Hg.
Qed.

Lemma confined_upsert id v db : v_user v = id -> confined id db (on_verifications (upsert_verification v) db).
Proof.
  intros Hv. constructor; try done. cbn [on_verifications verifications]. unfold upsert_verification. destruct (existsb _ _).
  - apply others_update; intros x _; rewrite Hv; [done|]. intros _. by apply Z.eqb_eq.
  - apply others_insert. by apply Z.eqb_eq.
Qed.

Lemma confined_messages id f db :
  delete_where (fun m => (m_from m =? id) || (m_to m =? id)) (f (messages db)) = delete_where (fun m => (m_from m =? id) || (m_to m =? id)) (messages db) ->
  confined id db (on_messages f db).
Proof. intros Hf. by constructor. Qed.

Lemma visible_mine id m : visibleTo id m = true -> (m_from m =? id) || (m_to m =? id) = true.
Proof. unfold visibleTo. destruct (m_from m =? id), (m_to m =? id); by rewrite ?andb_true_l. Qed.

(** Ids are unique: the letter that is gone is the one that was looked up. *)
Lemma confined_delete_message i id db db' : db_ok db -> DeleteMessage i id db = Ok (tt, db') -> confined id db db'.
Proof.
  intros Hok. unfold DeleteMessage. case_match eqn:E; intros [= <-]. apply existsb_exists in E as (m & Hm & Hv).
  apply list_elem_of_In in Hm. apply andb_prop in Hv as [Hi Hv]. apply Z.eqb_eq in Hi.
  eapply confined_trans; [|apply confined_messages; apply others_delete].
  - apply confined_messages, others_update; intros x _ [_ Hx]%andb_prop; [by apply visible_mine|]. by apply visible_mine in Hx.
  - intros x Hx Hd. apply andb_prop in Hd as [Hd _]. apply andb_prop in Hd as [Hd _]. apply Z.eqb_eq in Hd.
    cbn [on_messages messages] in Hx. apply elem_update in Hx as (y & Hy & Hx).
    assert (m_id y = i) as Ey by (destruct Hx as [[-> _]|[-> _]]; done).
    assert (y = m) as ->; [|destruct Hx as [[-> _]|[-> _]]; by apply visible_mine in Hv].
    apply (unique_elem m_id (messages db)); [apply table_ids, Hok|done|done|congruence].
Qed.

Lemma confined_delete_post i id db db' :
  db_ok db -> requireSysop db id <> Ok tt -> DeletePost i id db = Ok (tt, db') -> confined id db db'.
Proof.
  intros Hok Hno. unfold DeletePost. intros E. simp_res. constructor; try done. cbn [on_posts posts]. apply others_delete.
  intros q Hq Ei%Z.eqb_eq. match goal with E : or_not_found _ = Ok ?p |- _ => apply or_not_found_Ok, row_Some in E as [Hp Ep]; rename p into pr end.
  assert (q = pr) as -> by (apply (unique_elem p_id (posts db)); [apply table_ids, Hok|done|done|congruence]).
  match goal with Hg : (_ || u_sysop ?u) = true, Hu : getUser _ _ = Ok ?u |- _ => apply orb_prop in Hg as [?|Hs]; [done|] end.
  destruct Hno. unfold requireSysop. match goal with Hu : getUser _ _ = Ok _ |- _ => rewrite Hu end. cbn. by rewrite Hs.
Qed.

Lemma confined_confirm now id c db : confined id db (snd (ConfirmEmail now id c db)).
Proof.
  unfold ConfirmEmail. repeat (case_match; cbn [snd]; try by apply confined_refl); try (apply confined_pending; by left).
  - apply confined_pending. right. by eexists.
  - eapply confined_trans; [eapply confined_user; [done| |]|apply confined_pending; by left]; [by intros ? ?%Z.eqb_eq|done].
Qed.

Lemma not_actor id i b db : requireSysop db id <> Ok tt -> requireActor id i b db <> Ok tt.
Proof. unfold requireActor. by destruct (_ && _). Qed.

Ltac op_cases := repeat (simp_res; repeat match goal with
  | x : (_ * _)%type |- _ => destruct x
  | x : unit |- _ => destruct x
  | H : (let '(_, _) := ?p in _) = Ok _ |- _ => destruct p eqn:?
  | H : (_, _) = (_, _) |- _ => injection H as H; subst
  end); simplify_eq.
Ltac refused := exfalso; op_cases;
  match goal with Hno : requireSysop ?db ?id <> Ok tt |- _ => first [by apply Hno | eapply not_actor; [exact Hno|eassumption]] end.

Lemma acts_confined id db db' : db_ok db -> requireSysop db id <> Ok tt -> acts (Some id) db db' -> confined id db db'.
Proof.
  intros Hok Hno Ha. destruct Ha; cbn [ours] in *; subst; try discriminate.
  all: repeat match goal with E : ?o = Ok _ |- _ => progress (unfold RecordLogin, ChangePassword, setPassword, ResetPassword, SetLocation,
    SetSysop, SetLocked, ValidateUser, DeleteUser, Block, AddSSHKey, DeleteSSHKey, StartEmailVerification, SetEmailMode, SendMessage,
    MarkRead, CreateBoard, DeleteBoard, AddPost, MarkBoardRead, AddBulletin, DeleteBulletin, AddOneliner, DeleteOneliner, sysopDelete,
    MarkEchoRead, RecordSentNetmail, insertNetmail, MarkFilesSeen in E) end.
  all: try refused.
  all: op_cases; repeat (case_match; op_cases).
  all: try solve [apply confined_confirm | by eapply confined_delete_message | by eapply confined_delete_post | eapply confined_updateUser; done
    | eapply confined_user; [done|by intros ? ?%Z.eqb_eq|done] | by constructor | constructor; try done; cbn; first [by apply others_delete|apply others_insert; cbn; by rewrite Z.eqb_refl]].
  - constructor; try done. cbn. apply others_delete. intros b' _ Hb. apply bool_decide_eq_true_1 in Hb as ->. cbn. by rewrite Z.eqb_refl.
  - constructor; try done. cbn. apply others_delete. by intros x _ [_ ?]%andb_prop.
  - by apply confined_upsert.
  - eapply confined_user; [done| |done]. by intros u [?%Z.eqb_eq _]%andb_prop.
  - unfold RemoveEmail. cbn [snd]. eapply confined_trans; [apply confined_pending; by left|]. eapply confined_user; [done|by intros ? ?%Z.eqb_eq|done].
  - apply confined_messages, others_update; intros x _ [[_ Hx]%andb_prop _]%andb_prop; apply visible_mine; unfold in_inbox in Hx; unfold visibleTo; cbn; by rewrite Hx.
  - constructor; try done. by eexists.
Qed.
End confined.

(** ** The theorem *)

Section session.
Context `{UnicodeTables} `{Crypto} `{MailParser} `{FoldTables} `{BBS} `{Mailing} `{Hmac} `{Zmodem} `{SSHLib} `{DoorWorld} `{NetAddr}.

(** A step of a well-formed server whose account [id] is no sysop. *)
Definition confines (id : Z) (x y : Server) : Prop :=
  db_ok (sv_db x) -> requireSysop (sv_db x) id <> Ok tt -> db_ok (sv_db y) /\ confined id (sv_db x) (sv_db y).

#[export] Instance confines_rel id : ServerRel (acts (Some id)) (confines id).
Proof.
  split; [split|..]; unfold confines.
  - intros x Hok _. split; [done|apply confined_refl].
  - intros x y z Hxy Hyz Hok Hno. destruct (Hxy Hok Hno) as [Hy Cy]. destruct (Hyz Hy) as [Hz Cz]; [by intros ?%(confined_sysop _ _ _ _ Cy)|].
    split; [done|]. by eapply confined_trans.
  - intros x y -> Hok _. split; [done|apply confined_refl].
  - intros x y Ha Hok Hno. split; [|by apply acts_confined]. eapply step_ok; [by eapply acts_step|done].
Qed.

(** C6: A plain caller stays within its own things: whatever a signed-in caller who is not a sysop does in all the menus, no
    other account changes, nobody's rights change, the boards, the news and the areas stay, and so do other callers'
    posts, the letters between others, everybody's earlier lines on the wall, and others' blocks, SSH keys and codes. *)
Theorem plain_caller_confined (s : St) :
  let id := u_id (se_user (sess s)) in
  db_ok (sv_db (srv (shared s))) -> requireSysop (sv_db (srv (shared s))) id <> Ok tt -> others (shared s) = [] ->
  confined id (sv_db (srv (shared s))) (sv_db (srv (shared (snd ((_ ← afterLogin; mainMenu) s))))).
Proof.
  intros id Hok Hno Ho. assert (SessionSpec.moves (confines id) (Some id) any (_ ← afterLogin; mainMenu)) as Hm by stroll.
  assert (rely (confines id) (shared s)) as Hr by (unfold rely; rewrite Ho; by apply Forall_nil).
  specialize (Hm s Hr eq_refl). destruct ((_ ← afterLogin; mainMenu) s) as [r s']. destruct Hm as (_ & HR & _). by destruct (HR Hok Hno).
Qed.
End session.

Lemma plain_caller_confined_witness :
  let s := demo_session (typed (str "n" ++ str "y" ++ str "Greetings" ++ enter ++ str "gy")) in
  let after := sv_db (srv (shared (snd ((_ ← afterLogin; mainMenu) s)))) in
  len (oneliners after) = 1 /\ confined 2 (sv_db demo_server) after.
Proof.
  cbv zeta. split; [vm_compute; reflexivity|].
  apply (plain_caller_confined (demo_session (typed (str "n" ++ str "y" ++ str "Greetings" ++ enter ++ str "gy"))));
    [exact demo_server_ok|vm_compute; discriminate|reflexivity].
Defined.
