(* ===== verification/NetmailSpec.v ===== *)
(** * Netmail from a caller of one board to the netmail of another

    The whole way of a letter: [sendNetmail] packs it and queues it for the next node, which keeps it in a packet in the
    outbound; the mailer carries the file; the tosser of the board it is for reads the packet, parses the message and
    stores it.  The theorem: what the destination stores is what the sender keeps as sent, field by field. *)

From Stdlib Require Import Ascii String ZArith Lia.
From stdpp Require Import base tactics list gmap strings.
From S2P Require Import Prelude GoStrings GoTime GoFiles Term FtnAddr FtnCharset StoreDB StoreUsers StoreMail StoreBoards StoreEcho StoreInv StoreDemo Limits Nodes Mailer Server Toss TossSpec Session Login EchoMenu.
From S2P Require FtnPacket FtnMessage FtnOutbound.
Open Scope Z_scope.

Section packets.
Context `{UnicodeTables} `{FoldTables} `{FtnOutbound.ZipReader}.

(** A time to the second, as packets have it. *)
Definition whole_second (t : civil) : civil := Civil (year t) (month t) (day t) (hour t) (minute t) (second t) 0.

Definition dated (m : FtnMessage.Message) (t : civil) : FtnMessage.Message :=
  FtnMessage.MkMessage (FtnMessage.Area m) (FtnMessage.MFrom m) (FtnMessage.MTo m) (FtnMessage.MSubject m) (Some t) (FtnMessage.Orig m) (FtnMessage.Dest m)
    (FtnMessage.MAttr m) (FtnMessage.MsgID m) (FtnMessage.Reply m) (FtnMessage.MCharset m) (FtnMessage.TZUTC m) (FtnMessage.Body m)
    (FtnMessage.SeenBy m) (FtnMessage.Path m) (FtnMessage.Kludges m).

(** The packed message has room for its names, subject and text, and none of them holds a NUL. *)
Definition fits_packet (pm : FtnPacket.PackedMessage) : Prop :=
  (0 ∉ FtnPacket.ToName pm) /\ len (FtnPacket.ToName pm) <= 35 /\ (0 ∉ FtnPacket.FromName pm) /\ len (FtnPacket.FromName pm) <= 35
  /\ (0 ∉ FtnPacket.Subject pm) /\ len (FtnPacket.Subject pm) <= 71 /\ (0 ∉ FtnPacket.Text pm) /\ len (FtnPacket.Text pm) <= FtnPacket.maxMessageText.

Lemma clip_id b n : 0 ∉ b -> len b <= n -> FtnPacket.clip b n = b.
Proof. intros Hnul Hl. unfold FtnPacket.clip, slice_to. rewrite remove_byte_absent by done. apply take_ge. unfold len in Hl. lia. Qed.

Lemma date_clipped t : valid_civil t -> trim_right (take 19 (FtnPacket.FormatDate t)) [0] = FtnPacket.FormatDate t.
Proof.
  intros (Hm & Hd & Hh & Hmi & Hs). pose proof (days_in_spec (month t) (year t)) as [Hd31 _].
  pose proof (Z.mod_pos_bound (year t) 100 ltac:(lia)). destruct (FtnPacket.parse_month_name (month t) Hm) as (_ & Hl & _).
  assert (exists a, FtnPacket.FormatDate t = a ++ [48 + second t mod 10] /\ length a = 18%nat) as (a & E & Ha).
  { unfold FtnPacket.FormatDate. rewrite !FtnPacket.pad2_two by lia. destruct (month_name (month t)) as [|x [|y [|z [|? ?]]]]; try done.
    eexists [_; _; _; _; _; _; _; _; _; _; _; _; _; _; _; _; _; _]. split; reflexivity. }
  rewrite E, take_ge by (rewrite length_app, Ha; done). unfold trim_right. rewrite reverse_snoc. cbn [trim_left].
  pose proof (Z.mod_pos_bound (second t) 10 ltac:(lia)). assert (contains_byte [0] (48 + second t mod 10) = false) as ->.
  { unfold contains_byte. cbn [existsb]. destruct (Z.eqb_spec (48 + second t mod 10) 0); [lia|done]. }
  by rewrite reverse_cons, reverse_involutive.
Qed.

(** A message that has room in the packet is in it as it was packed. *)
Lemma clip_packed m :
  FtnMessage.message_wf m -> FtnPacket.word (FtnMessage.MAttr m) -> fits_packet (FtnMessage.Pack m) ->
  FtnPacket.clip_message (FtnMessage.Pack m) = FtnMessage.Pack m.
Proof.
  intros Hm Ha (T1 & T2 & F1 & F2 & S1 & S2 & X1 & X2). destruct (FtnMessage.wf_date m Hm) as (t & Ed & Hc & _).
  destruct (FtnMessage.wf_orig m Hm) as [(_ & Ho1 & Ho2 & _) _]. destruct (FtnMessage.wf_dest m Hm) as [(_ & Hd1 & Hd2 & _) _].
  unfold FtnPacket.clip_message. rewrite !clip_id by done. rewrite remove_byte_absent by done.
  unfold addr_num_ok, FtnPacket.word in *. unfold FtnMessage.Pack at 1 2 3 4 5 6 7. cbn [FtnPacket.OrigNode FtnPacket.OrigNet FtnPacket.DestNode FtnPacket.DestNet FtnPacket.Attr FtnPacket.Cost FtnPacket.DateTime].
  rewrite !Z.mod_small by lia. rewrite Ed, date_clipped by done. unfold FtnMessage.Pack. by rewrite Ed.
Qed.

Lemma packet_size p now pm : FtnPacket.Messages p = [pm] -> fits_packet pm -> 60 <= len (FtnPacket.WriteTo p now) <= 2000000.
Proof.
  intros Ep (T1 & T2 & F1 & F2 & S1 & S2 & X1 & X2). unfold FtnPacket.WriteTo. rewrite Ep.
  destruct (FtnPacket.header_fields p (default now (FtnPacket.Created p))) as (Hl & _). cbn [mbind list_bind]. rewrite app_nil_r, !len_app.
  assert (len (FtnPacket.packet_header p (default now (FtnPacket.Created p))) = 58) as -> by (unfold len; by rewrite Hl).
  change (len [0; 0]) with 2. unfold FtnPacket.encode_message. rewrite !len_app, !clip_id, remove_byte_absent by done.
  destruct (FtnPacket.date_field_spec (FtnPacket.DateTime pm)) as [Hd _].
  assert (len (<[19%nat:=0]> (FtnPacket.copy_into 0 20 (FtnPacket.DateTime pm) (replicate 20 0))) = 20) as -> by (unfold len; by rewrite Hd).
  change (len [0]) with 1. unfold FtnPacket.le16, FtnPacket.maxMessageText in *. rewrite !len_cons, !len_nil.
  pose proof (len_nonneg (FtnPacket.ToName pm)). pose proof (len_nonneg (FtnPacket.FromName pm)). pose proof (len_nonneg (FtnPacket.Subject pm)).
  pose proof (len_nonneg (FtnPacket.Text pm)). lia.
Qed.

(** The packet of one message, as the tosser reads it.  The content decides whether a file is an archive: the packets from
    node 19280 to node 1027 begin like one. *)
Lemma packet_read main hop t now name pm :
  FtnPacket.addr_words main -> FtnPacket.addr_words hop -> valid_civil t -> 1981 <= year t < 65536 ->
  fits_packet pm -> ~ (Node main = 19280 /\ Node hop = 1027) ->
  let content := FtnPacket.WriteTo (FtnPacket.MkPacket main hop [] (Some t) [pm]) now in
  exists pkt, FtnOutbound.EachPacket name content = ([(filepath_Base name, pkt)], None) /\ FtnPacket.Messages pkt = [FtnPacket.clip_message pm].
Proof.
  intros Hf Ht Hc Hy (T1 & T2 & F1 & F2 & S1 & S2 & X1 & X2) Hn content. set (p0 := FtnPacket.MkPacket main hop [] (Some (whole_second t)) [pm]).
  assert (content = FtnPacket.WriteTo p0 now) as Ec by reflexivity. clearbody content. subst content.
  pose proof (FtnPacket.ReadPacket_WriteTo p0 now Hf Ht Hc eq_refl Hy ltac:(by constructor)) as Hr.
  exists (FtnPacket.clip_packet p0 now). split; [|done].
  assert ((FtnOutbound.maxPacketBytes <? len (FtnPacket.WriteTo p0 now)) = false /\ (FtnOutbound.maxBundleBytes <? len (FtnPacket.WriteTo p0 now)) = false
    /\ (len (FtnPacket.WriteTo p0 now) <? 4) = false /\ len (FtnPacket.WriteTo p0 now) <= FtnOutbound.maxPacketBytes) as (L1 & L2 & L3 & L4).
  { pose proof (packet_size p0 now pm eq_refl (conj T1 (conj T2 (conj F1 (conj F2 (conj S1 (conj S2 (conj X1 X2)))))))) as Hl.
    unfold FtnOutbound.maxPacketBytes, FtnOutbound.maxBundleBytes. split_and!; [apply Z.ltb_ge|apply Z.ltb_ge|apply Z.ltb_ge|]; lia. }
  unfold FtnOutbound.EachPacket. rewrite L1, L2, L3. rewrite (bool_decide_eq_false_2 (_ = [80; 75; 3; 4])).
  - unfold FtnOutbound.read_limited, slice_to. rewrite take_ge by (unfold len in L4; lia). by rewrite Hr.
  - intros E. apply Hn. destruct (FtnPacket.header_fields p0 (whole_second t)) as (Hl & G1 & G2 & _).
    change (FtnPacket.WriteTo p0 now) with (FtnPacket.packet_header p0 (whole_second t) ++ ([pm] ≫= FtnPacket.encode_message) ++ [0; 0]) in E. unfold slice_to in E.
    revert Hl G1 G2 E. generalize (FtnPacket.packet_header p0 (whole_second t)). intros h Hl G1 G2 E.
    destruct h as [|a [|b [|c [|d h]]]]; try done. injection E as -> -> -> ->. unfold FtnPacket.get16 in G1, G2. cbn [nth] in G1, G2. destruct Hf as (_ & _ & Hf & _), Ht as (_ & _ & Ht & _). unfold FtnPacket.word in *.
    cbn [p0 FtnPacket.From FtnPacket.To] in G1, G2. rewrite Z.mod_small in G1 by lia. rewrite Z.mod_small in G2 by lia. lia.
Qed.
End packets.

(** ** The board it comes from *)

Section crossing.
Context `{UnicodeTables} `{FoldTables} `{Crypto} `{MailParser} `{BBS} `{Mailing} `{FtnOutbound.ZipReader} `{Disk}.

(** The letter with its number, as the [k]-th read of randomness gives it. *)
Definition numbered (n : NetmailRow) (from : Addr) (now k : Z) : NetmailRow :=
  MkNetmail (n_id n) (n_outgoing n) (Addr_String from ++ str " " ++ pad_hex 8 (rand_code k mod 4294967296)) (n_reply n) (n_from n)
    (n_from_addr n) (n_to n) (n_to_addr n) (n_subject n) (n_body n) now (n_received n) (n_read n) (n_author n).

(** The directory of the outbound is absolute and names of temporary files hold no slash. *)
Definition outbound_ok : Prop :=
  (exists es r, Forall plain es /\ plain r /\ FtnOutbound.Root cfg_Outbound = clean_abs (es ++ [r])) /\ forall k, slash ∉ temp_suffix k.

Lemma queue_tries_written tries hop header ms s s' :
  outbound_ok -> FtnOutbound.net_ok hop -> others s = [] -> queue_tries tries hop header ms s = (Ok tt, s') ->
  others s' = [] /\ sv_db (srv s') = sv_db (srv s) /\ sv_now (srv s') = sv_now (srv s)
  /\ exists pkt, FtnOutbound.existing_packet header (sv_fs (srv s) !! FtnOutbound.PacketPath cfg_Outbound hop FtnOutbound.Crash) = Ok pkt
       /\ sv_fs (srv s') !! FtnOutbound.PacketPath cfg_Outbound hop FtnOutbound.Crash
          = Some (FtnPacket.WriteTo (FtnOutbound.with_messages pkt ms) (local (sv_now (srv s)))).
Proof.
  intros ((es & r & Hes & Hr & Hroot) & Hsuf) Hhop. revert s. induction tries as [|tries IH]; intros s Ho Hq; [done|].
  cbn [queue_tries] in Hq. unfold mbind, proc_bind, queue_packet at 1, atom in Hq. rewrite Ho in Hq.
  destruct (FtnOutbound.Queue _ _ _ _ _ _ _ _ _) as [res states] eqn:Eq. destruct res as [[]|e].
  - injection Hq as <-. cbn. split_and!; [done..|]. destruct (FtnOutbound.Queue_written _ _ _ _ _ _ _ _ _ _ _ _ Hes Hr Hroot Hhop (Hsuf _) Eq) as (new & pkt & El & Ep & En).
    exists pkt. split; [exact Ep|]. by rewrite El.
  - destruct e; try done. apply FtnOutbound.Queue_busy in Eq as ->. destruct tries; [done|].
    match type of Hq with queue_tries _ _ _ _ ?x = _ => destruct (IH x) as (H1' & H2' & H3' & pkt & H4' & H5'); [done|exact Hq|] end.
    split_and!; [done..|]. exists pkt. by split.
Qed.

(** ** The board it is for *)

Definition received (now id : Z) (m : FtnMessage.Message) : NetmailRow :=
  MkNetmail id false (message_id m) (trim_space (FtnMessage.Reply m))
    (cleanNetmailName (FtnMessage.MFrom m) (str "Unknown")) (Clean (Addr_String (FtnMessage.Orig m)) MaxNetmailAddrLen)
    (cleanNetmailName (FtnMessage.MTo m) (str "Sysop")) (Clean (Addr_String (FtnMessage.Dest m)) MaxNetmailAddrLen)
    (or_default (Clean (FtnMessage.MSubject m) MaxSubjectLen) (str "(no subject)"))
    (truncateUTF8 (FtnMessage.Body m) MaxNetmailBodySize) (date_or now (FtnMessage.Date m)) now 0 None.

Lemma insertNetmail_new now n db :
  Forall (fun x => n_msgid x <> n_msgid n) (netmail db) ->
  forall b db', insertNetmail now n db = Ok (b, db') ->
  b = true /\ MkNetmail (next_id n_id (netmail db)) (n_outgoing n) (n_msgid n) (n_reply n) (n_from n) (n_from_addr n)
                (n_to n) (n_to_addr n) (n_subject n) (n_body n) (n_posted n) now (n_read n) (n_author n) ∈ netmail db'.
Proof.
  intros Hnew b db'. unfold insertNetmail. rewrite (proj2 (existsb_false _ _)) by (eapply Forall_impl; [exact Hnew|]; cbn; intros x Hx; by apply bool_decide_eq_false).
  intros E. inv_op. split; [done|]. by apply (newest_has MaxNetmailKept).
Qed.

Lemma toss_letter now t inbound done bad secure name m content p :
  FtnOutbound.IsMailBundle name = true -> p_fs p !! filepath_Join [inbound; name] = Some content ->
  FTNFileSeen (fileSHA256 content) (p_db p) = false ->
  FtnOutbound.EachMessage (filepath_Join [inbound; name]) content = ([m], None) ->
  FtnMessage.Area m = [] -> Contains (Own t) (FtnMessage.Dest m) = true ->
  Forall (fun x => n_msgid x <> message_id m) (netmail (p_db p)) ->
  exists id, received now id m ∈ netmail (p_db (snd (toss_file now t inbound done bad secure name p))).
Proof.
  intros Hb Hc Hs He Ha Ho Hnew. unfold toss_file. rewrite Hb, Hc, Hs. cbn [negb]. unfold toss_messages. rewrite He. cbn [each andthen].
  unfold andthen, toss_message. rewrite Ha, Ho, bool_decide_eq_true_2 by done. cbn [andb count p_db].
  destruct (ImportNetmail now m (p_db p)) as [[r db]|e] eqn:E.
  - unfold done_. cbn [p_db]. rewrite moveAside_db. unfold ImportNetmail in E. rewrite bool_decide_eq_true_2 in E by done. cbn [negb] in E.
    apply bind_Ok in E as ([b db1] & E & [= <- <-]). apply insertNetmail_new in E as [-> Hin]; [|exact Hnew].
    exists (next_id n_id (netmail (p_db p))). unfold MarkFTNFile. destruct p; cbn in *. by case_match.
  - exfalso. unfold ImportNetmail in E. rewrite bool_decide_eq_true_2 in E by done. cbn [negb] in E. unfold insertNetmail in E.
    destruct (existsb _ _); done.
Qed.

(** ** From one to the other *)

(** What a reader of the letter sees. *)
Definition same_letter (a b : NetmailRow) : Prop :=
  n_msgid a = n_msgid b /\ n_reply a = n_reply b /\ n_from a = n_from b /\ n_from_addr a = n_from_addr b
  /\ n_to a = n_to b /\ n_to_addr a = n_to_addr b /\ n_subject a = n_subject b /\ n_body a = n_body b.

(** The message that is packed, with its time to the second. *)
Definition packed_message (n : NetmailRow) (from to : Addr) (s : Server) : FtnMessage.Message :=
  dated (netmail_message (numbered n from (sv_now s) (sv_rand s)) from to (sv_now s)) (whole_second (local (sv_now s))).

(** A letter that can travel: well-formed as a message and with room for it in a packet, a name and a subject that are not
    blank, a number that is new, nothing else waiting for the next node, and nobody else at work meanwhile. *)
Record deliverable (n : NetmailRow) (from to hop main : Addr) (s : Shared) : Prop := {
  dl_alone : others s = [];
  dl_addrs : n_from_addr n = Addr_String from /\ n_to_addr n = Addr_String to;
  dl_wf : FtnMessage.message_wf (packed_message n from to (srv s));
  dl_fits : fits_packet (FtnMessage.Pack (packed_message n from to (srv s)));
  dl_year : 1981 <= year (local (sv_now (srv s)));
  dl_from : Clean (n_from n) MaxNetmailNameLen <> [];
  dl_subject : Clean (n_subject n) MaxSubjectLen <> [];
  dl_new : Forall (fun x => n_msgid x <> FtnMessage.MsgID (packed_message n from to (srv s))) (netmail (sv_db (srv s)));
  dl_words : FtnPacket.addr_words main /\ FtnOutbound.net_ok hop /\ Zone hop < 65536;
  dl_no_zip : ~ (Node main = 19280 /\ Node hop = 1027);
  dl_outbound : outbound_ok;
  dl_first : sv_fs (srv s) !! FtnOutbound.PacketPath cfg_Outbound hop FtnOutbound.Crash = None
}.

Lemma packed_message_read n from to hop main s now name :
  deliverable n from to hop main s ->
  FtnOutbound.EachMessage name (FtnPacket.WriteTo (FtnPacket.MkPacket main hop [] (Some (local (sv_now (srv s))))
    [FtnMessage.Pack (packed_message n from to (srv s))]) now) = ([packed_message n from to (srv s)], None).
Proof.
  intros D. destruct (FtnMessage.wf_date _ (dl_wf _ _ _ _ _ _ D)) as (t & Et & Hc & _ & Hy). change (Some (whole_second (local (sv_now (srv s)))) = Some t) in Et. injection Et as <-.
  destruct (dl_words _ _ _ _ _ _ D) as (Hm & (Z0 & H1' & H2' & H3') & Z1).
  assert (FtnPacket.addr_words hop) as Hh by (unfold FtnPacket.addr_words, FtnPacket.word; lia).
  destruct (packet_read main hop (local (sv_now (srv s))) now name (FtnMessage.Pack (packed_message n from to (srv s)))) as (pkt & E & Em);
    [done|done|exact Hc|pose proof (dl_year _ _ _ _ _ _ D); unfold whole_second in Hy; cbn [year] in Hy; lia|apply (dl_fits _ _ _ _ _ _ D)|apply (dl_no_zip _ _ _ _ _ _ D)|].
  unfold FtnOutbound.EachMessage. rewrite E. cbn [mbind list_bind]. unfold FtnOutbound.messages_of. cbn [snd]. rewrite Em.
  rewrite clip_packed; [|apply (dl_wf _ _ _ _ _ _ D)|by split; vm_compute|apply (dl_fits _ _ _ _ _ _ D)].
  cbn [fmap list_fmap app]. by rewrite FtnMessage.parse_packed_netmail; [|apply (dl_wf _ _ _ _ _ _ D)|..].
Qed.

(** The fields of the stored row, one by one. *)
Lemma received_fields n from to hop main s now id :
  deliverable n from to hop main s -> addr_ok from -> addr_ok to ->
  let m := packed_message n from to (srv s) in
  let r := received now id m in
  n_msgid r = FtnMessage.MsgID m /\ n_reply r = n_reply n /\ n_from r = cleanNetmailName (n_from n) (str "Sysop") /\ n_from_addr r = Addr_String from
  /\ n_to r = cleanNetmailName (n_to n) (str "Sysop") /\ n_to_addr r = Addr_String to /\ n_subject r = Clean (n_subject n) MaxSubjectLen
  /\ n_body r = truncateUTF8 (n_body n) MaxNetmailBodySize.
Proof.
  intros D Hf Ht m r. pose proof (dl_wf _ _ _ _ _ _ D) as W. fold m in W.
  assert (forall a, addr_ok a -> Clean (Addr_String a) MaxNetmailAddrLen = Addr_String a) as Ha.
  { intros a Ha. apply Clean_graphic; [by apply Addr_String_graphic|]. pose proof (FtnMessage.Addr_String_short a Ha). unfold MaxNetmailAddrLen. lia. }
  subst r. unfold received. cbn [n_msgid n_reply n_from n_from_addr n_to n_to_addr n_subject n_body]. split_and!.
  - unfold message_id, or_default. rewrite (proj1 (FtnMessage.wf_msgid _ W)). rewrite bool_decide_eq_false_2; [done|].
    change (FtnMessage.MsgID m) with (Addr_String from ++ str " " ++ pad_hex 8 (rand_code (sv_rand (srv s)) mod 4294967296)).
    intros E%(f_equal length). rewrite !length_app in E. cbn in E. lia.
  - exact (proj1 (FtnMessage.wf_reply _ W)).
  - change (FtnMessage.MFrom m) with (n_from n). unfold cleanNetmailName, or_default. by rewrite !bool_decide_eq_false_2 by apply (dl_from _ _ _ _ _ _ D).
  - by apply Ha.
  - done.
  - by apply Ha.
  - change (FtnMessage.MSubject m) with (n_subject n). unfold or_default. by rewrite bool_decide_eq_false_2 by apply (dl_subject _ _ _ _ _ _ D).
  - done.
Qed.

(** C14: A caller's netmail arrives as it was sent: when [sendNetmail] reports that it is queued, the outbound holds a packet for
    the next node, and wherever that file is tossed by the board the letter is for, in whatever inbound and under whatever
    name, a new unread netmail is stored that says what the sender's board keeps as sent: the same number, names,
    addresses, subject and text. *)
Theorem netmail_crosses (n : NetmailRow) (from to hop main : Addr) (s s' : Shared) :
  deliverable n from to hop main s -> sendNetmail n from to hop main s = (Ok tt, s') ->
  exists content mine,
    sv_fs (srv s') !! FtnOutbound.PacketPath cfg_Outbound hop FtnOutbound.Crash = Some content
    /\ mine ∈ netmail (sv_db (srv s')) /\ n_outgoing mine = true
    /\ forall now t inbound done bad secure name p,
         FtnOutbound.IsMailBundle name = true -> p_fs p !! filepath_Join [inbound; name] = Some content ->
         FTNFileSeen (fileSHA256 content) (p_db p) = false -> Contains (Own t) to = true ->
         Forall (fun x => n_msgid x <> n_msgid mine) (netmail (p_db p)) ->
         exists theirs, theirs ∈ netmail (p_db (snd (toss_file now t inbound done bad secure name p)))
           /\ n_outgoing theirs = false /\ n_read theirs = 0 /\ same_letter mine theirs.
Proof.
  intros D Hs. set (m := packed_message n from to (srv s)) in *.
  unfold sendNetmail, mbind, proc_bind, now_, fresh, atom in Hs. rewrite (dl_alone _ _ _ _ _ _ D) in Hs. cbn [others tail srv] in Hs.
  fold (numbered n from (sv_now (srv s)) (sv_rand (srv s))) in Hs.
  destruct (queue_tries _ _ _ _ _) as [[[]|e] s1] eqn:Eq; [|done].
  apply queue_tries_written in Eq as (Ho & Hdb & Hnow & pkt & Ep & Ef); [|apply (dl_outbound _ _ _ _ _ _ D)|apply (dl_words _ _ _ _ _ _ D)|done].
  cbn [srv next_rand sv_fs sv_db sv_now] in Hdb, Hnow, Ep, Ef.
  unfold store_op, atom in Hs. rewrite Ho, Hdb, Hnow in Hs. destruct (RecordSentNetmail _ _ _) as [[row db]|e] eqn:Er; [|done].
  injection Hs as <-. cbn [srv]. rewrite (dl_first _ _ _ _ _ _ D) in Ep. injection Ep as <-.
  unfold RecordSentNetmail in Er. apply bind_Ok in Er as ([b db1] & Er & Er'). apply bind_Ok in Er' as (r1 & _ & [= <- <-]).
  apply insertNetmail_new in Er as [-> Hin]; [|apply (dl_new _ _ _ _ _ _ D)].
  eexists _, _. split; [exact Ef|]. split; [exact Hin|]. split; [done|].
  intros now t inbound done bad secure name p Hb Hc Hseen Hown Hnew.
  destruct (FtnMessage.wf_orig _ (dl_wf _ _ _ _ _ _ D)) as [Hfrom _]. destruct (FtnMessage.wf_dest _ (dl_wf _ _ _ _ _ _ D)) as [Hto _].
  pose proof (fun id => received_fields n from to hop main s now id D Hfrom Hto) as Hr. cbv zeta in Hr. fold m in Hr.
  destruct (toss_letter now t inbound done bad secure name m _ p Hb Hc Hseen (packed_message_read n from to hop main s _ _ D) eq_refl Hown) as [id Hid].
  { change (message_id m) with (n_msgid (received now 0 m)). by rewrite (proj1 (Hr 0)). }
  exists (received now id m). split; [exact Hid|]. split; [done|]. split; [done|].
  destruct (Hr id) as (R1 & R2 & R3 & R4 & R5 & R6 & R7 & R8). destruct (dl_addrs _ _ _ _ _ _ D) as [E1 E2].
  unfold same_letter. cbn [n_msgid n_reply n_from n_from_addr n_to n_to_addr n_subject n_body]. rewrite R1, R2, R3, R4, R5, R6, R7, R8. by split_and!.
Qed.
End crossing.

(** ** A letter from Bob *)

#[local] Instance ftn_board : BBS := {
  cfg_Name := str "Boar BBS"; cfg_MaxNodes := 4; cfg_MaxSignupsPerDay := 20; cfg_PublicAddress := [];
  store_cfg := MkConfig 1 false; zone_offset := fun _ => 7200; zone_name := fun _ => str "EET"; rand_salt := fun _ => []; rand_code := fun n => n + 439041101;
  is_print := fun r => true; cfg_ArtDir := []; cfg_Files := []; cfg_FileLinkURL := []; cfg_FileLinkKey := []; cfg_FileLinkTTL := 0;
  cfg_Addresses := [MkAddr 2 410 51 0 []]; cfg_Outbound := FtnOutbound.demo_outbound; cfg_Routes := MkRoutes [] zero_addr; cfg_SysopName := []
}.
#[local] Instance ftn_mailing : Mailing := { process_id := 7; temp_suffix := fun k => itoa (Z.abs k); queue_words := fun _ => str "busy" }.
#[local] Instance ftn_fold : FoldTables := { fold_pair := fun _ _ => false }.
#[local] Instance ftn_disk : Disk := { fails := fun _ => MkFaults false false false None false false false false }.
#[local] Instance ftn_zip : FtnOutbound.ZipReader := { FtnOutbound.zip_members := fun _ => None }.

Definition bobs_node : Addr := MkAddr 2 410 51 0 [].
Definition petros_node : Addr := MkAddr 2 410 9 0 [].
Definition bobs_server : Server := newServer None ∅ 1791363600500000000 demo_db.
Definition bobs_letter : NetmailRow :=
  MkNetmail 0 false [] [] (str "Bob") (str "2:410/51") (str "Petros") (str "2:410/9") (str "Hello") (str "First line" ++ [10] ++ str "second") 0 0 0 (Some 2).

Definition bobs_sending : result netmail_error unit * Shared := sendNetmail bobs_letter bobs_node petros_node petros_node bobs_node (MkShared bobs_server []).
Definition bobs_packet : bytes :=
  default [] (sv_fs (srv (snd bobs_sending)) !! FtnOutbound.PacketPath cfg_Outbound petros_node FtnOutbound.Crash).

(** The other board: the same accounts, and the packet in its inbound. *)
Definition petros_pass : Pass := MkPass {[str "/var/spool/ftn/in/0a1b2c3d.pkt" := bobs_packet]} demo_db no_stats 1000 [].

Definition bobs_message : FtnMessage.Message := Eval vm_compute in packed_message bobs_letter bobs_node petros_node bobs_server.

Lemma bobs_message_eq : packed_message bobs_letter bobs_node petros_node bobs_server = bobs_message.
Proof. vm_compute. reflexivity. Qed.

Lemma bobs_message_wf : FtnMessage.message_wf bobs_message /\ fits_packet (FtnMessage.Pack bobs_message).
Proof.
  split.
  - constructor.
    1-3: split; [repeat constructor; vm_compute; congruence|split; vm_compute; reflexivity].
    + eexists. split; [reflexivity|]. split; [|split; [reflexivity|vm_compute; split; congruence]].
      vm_compute. repeat split; congruence.
    + split; [vm_compute; reflexivity|split; by apply (bool_decide_unpack _)].
    + split; [reflexivity|split; by apply (bool_decide_unpack _)].
    + split; [vm_compute; reflexivity|split; by apply (bool_decide_unpack _)].
    + constructor; [|constructor]. unfold FtnMessage.kludge_ok. cbn [FtnMessage.KName FtnMessage.KValue].
      split; [by apply (bool_decide_unpack _)|]. split; [by apply (bool_decide_unpack _)|]. split; [reflexivity|].
      split; [split; by apply (bool_decide_unpack _)|]. split; [by apply (bool_decide_unpack _)|].
      split; [|done]. split; [reflexivity|split; by apply (bool_decide_unpack _)].
    + split; [repeat constructor; vm_compute; congruence|vm_compute; reflexivity].
    + by apply (bool_decide_unpack _).
    + unfold FtnMessage.body_lines. vm_compute (split_byte _ _). repeat (constructor; [done|]). constructor.
    + right. exists (str "second"). split; [vm_compute; reflexivity|]. vm_compute. congruence.
    + split; [unfold addr_ok, addr_num_ok; cbn; lia|reflexivity].
    + split; [unfold addr_ok, addr_num_ok; cbn; lia|reflexivity].
  - vm_compute (FtnMessage.Pack _). unfold fits_packet. cbn [FtnPacket.ToName FtnPacket.FromName FtnPacket.Subject FtnPacket.Text].
    split_and!; first [by apply (bool_decide_unpack _) | vm_compute; congruence].
Qed.

Lemma bobs_letter_deliverable : deliverable bobs_letter bobs_node petros_node petros_node bobs_node (MkShared bobs_server []).
Proof.
  constructor.
  - reflexivity.
  - split; reflexivity.
  - cbn [srv]. rewrite bobs_message_eq. apply bobs_message_wf.
  - cbn [srv]. rewrite bobs_message_eq. apply bobs_message_wf.
  - vm_compute. congruence.
  - vm_compute. congruence.
  - vm_compute. congruence.
  - apply (bool_decide_unpack _). vm_compute. exact I.
  - split; [|split]; vm_compute; repeat split; congruence.
  - vm_compute. intros [? ?]. congruence.
  - split.
    + exists FtnOutbound.demo_elems, (str "out"). destruct FtnOutbound.demo_elems_plain. by split_and!.
    + intros k. apply itoa_notin; [lia|unfold slash; lia].
  - vm_compute. reflexivity.
Qed.

(** Bob's letter is queued, tossed by the board of Petros, and stored there once. *)
Lemma netmail_crosses_witness :
  fst bobs_sending = Ok tt
  /\ (exists mine, mine ∈ netmail (sv_db (srv (snd bobs_sending))) /\ n_outgoing mine = true
      /\ exists theirs, theirs ∈ netmail (p_db (snd (toss_file 1 (MkTosser [petros_node] None) (str "/var/spool/ftn/in") (str "/var/spool/ftn/tossed")
           (str "/var/spool/ftn/bad") false (str "0a1b2c3d.pkt") petros_pass))) /\ same_letter mine theirs).
Proof.
  assert (fst bobs_sending = Ok tt) as Hs by (vm_compute; reflexivity). split; [exact Hs|].
  destruct (netmail_crosses bobs_letter bobs_node petros_node petros_node bobs_node (MkShared bobs_server []) (snd bobs_sending) bobs_letter_deliverable) as (content & mine & Hc & Hm & Ho & Hall).
  { rewrite <-Hs. exact (surjective_pairing bobs_sending). }
  exists mine. split; [exact Hm|]. split; [exact Ho|].
  destruct (Hall 1 (MkTosser [petros_node] None) (str "/var/spool/ftn/in") (str "/var/spool/ftn/tossed") (str "/var/spool/ftn/bad") false (str "0a1b2c3d.pkt") petros_pass) as (theirs & Ht & _ & _ & Hsame).
  - reflexivity.
  - assert (bobs_packet = content) as <- by (unfold bobs_packet; rewrite Hc; reflexivity). reflexivity.
  - vm_compute. reflexivity.
  - reflexivity.
  - vm_compute. constructor.
  - exists theirs. split; [exact Ht|exact Hsame].
Defined.

(** ** Where the hypotheses come from *)

(** The packets from node 19280 to node 1027 begin with the four bytes of a ZIP file, and are not read. *)
Example packet_taken_for_zip :
  let packet from to := FtnPacket.WriteTo (FtnPacket.MkPacket (MkAddr 2 410 from 0 []) (MkAddr 2 410 to 0 []) [] None [FtnMessage.Pack bobs_message]) (Civil 2026 10 7 9 0 0 0) in
  (fst <$> fst (FtnOutbound.EachPacket (str "a.pkt") (packet 19280 1027)), snd (FtnOutbound.EachPacket (str "a.pkt") (packet 19280 1027))) = ([], Some FtnOutbound.ErrZip)
  /\ (fst <$> fst (FtnOutbound.EachPacket (str "a.pkt") (packet 19280 1028)), snd (FtnOutbound.EachPacket (str "a.pkt") (packet 19280 1028))) = ([str "a.pkt"], None).
Proof. cbv zeta. split; vm_compute; reflexivity. Qed.

(** A line that a caller types is taken for a control line by its first bytes, also in netmail, and is lost. *)
Example typed_seen_by_lost :
  let m := FtnMessage.MkMessage [] (str "Bob") (str "Petros") (str "Hello") (Some (Civil 2026 10 7 9 0 0 0)) bobs_node petros_node 1 (str "1") [] CP437 [] (str "SEEN-BY: what is it?" ++ [10] ++ str "Bob") [] [] [] in
  FtnMessage.Body (FtnMessage.ParseMessage (FtnMessage.Pack m) bobs_node petros_node CP437) = str "Bob".
Proof. vm_compute. reflexivity. Qed.
