(* ===== verification/LoginSpec.v ===== *)
(** * What signing in guarantees

    [proof_of s u] says how the caller proved to be [u], in terms of the states that the call that starts in [s] really goes
    through: what was typed at the prompts of the turn of [login] that signed in, and the database as it was at that
    very moment, other goroutines included.  [keeps m]: [m] leaves the account of the session and its being logged in
    alone, so only the turns of [login] and [keyLogin] that name the account matter. *)

From Stdlib Require Import Ascii String ZArith Lia.
From stdpp Require Import base tactics list gmap strings relations.
From S2P Require Import Prelude GoStrings GoTime GoFiles Term StoreDB StoreUsers StoreMail StoreBoards StoreEcho StoreInv StoreDemo StoreOk Limits Nodes Mailer FileLink Server ServerSpec Ui Session Editor SessionSpec Screens Login Compose EchoMenu FilesMenu Settings DoorsMenu MainMenu Demo MenuSpec AreaSpec SystemSpec CallSpec.
Open Scope Z_scope.

Definition identity (s : St) : UserRow * bool * Caller := (se_user (sess s), se_loggedIn (sess s), se_caller (sess s)).

Section keeps.
Definition keeps {A} (m : M A) : Prop := forall s, identity (snd (m s)) = identity s.

Lemma keeps_ret {A} (a : A) : keeps (mret a).
Proof. done. Qed.
Lemma keeps_throw {A} e : keeps (throw e : M A).
Proof. done. Qed.
Lemma keeps_bind {A B} (m : M A) (k : A -> M B) : keeps m -> (forall a, keeps (k a)) -> keeps (m ≫= k).
Proof. intros Hm Hk s. unfold mbind, m_bind. specialize (Hm s). destruct (m s) as [[a|e] s1]; [|done]. rewrite <-Hm. apply Hk. Qed.
Lemma keeps_loop {X A} (body : X -> M (X + A)) x : (forall x, keeps (body x)) -> keeps (loop body x).
Proof.
  intros Hb s. unfold loop. generalize (S (length (se_in (sess s)))). intros fuel. revert x s.
  induction fuel as [|fuel IH]; intros x s; [done|]. cbn [loop_go]. unfold mbind, m_bind. specialize (Hb x s).
  destruct (body x s) as [[[y|a]|e] s1]; [|done|done]. rewrite <-Hb. apply IH.
Qed.
Lemma keeps_lift {A} (p : Proc A) : keeps (lift p).
Proof. intros s. unfold lift. by destruct (p (shared s)). Qed.
Lemma keeps_always {A} (m : M A) (after : M unit) : keeps m -> keeps after -> keeps (always m after).
Proof. intros Hm Ha s. unfold always. specialize (Hm s). destruct (m s) as [r s1]. specialize (Ha s1). destruct (after s1) as [r2 s2]. cbn in *. congruence. Qed.
Lemma keeps_get {A} (f : Sess -> A) : keeps (get f).
Proof. done. Qed.
Lemma keeps_modify (f : Sess -> Sess) : (forall x, se_user (f x) = se_user x /\ se_loggedIn (f x) = se_loggedIn x /\ se_caller (f x) = se_caller x) -> keeps (modify f).
Proof. intros Hf s. unfold identity. cbn. by destruct (Hf (sess s)) as (-> & -> & ->). Qed.
Lemma keeps_readRune : keeps readRune.
Proof. intros s. unfold readRune. destruct (se_werr (sess s)); [done|]. by destruct (read_go _ _ _ _) as [[[r d] size] i]. Qed.
End keeps.

Create HintDb keeps discriminated.
#[export] Hint Constants Opaque : keeps.
#[export] Hint Resolve keeps_get keeps_readRune keeps_lift : keeps.
Ltac hold :=
  repeat lazymatch goal with
  | |- forall _, _ => intros ?; cbv beta
  | |- keeps (mret _) => apply keeps_ret
  | |- keeps (throw _) => apply keeps_throw
  | |- keeps (match ?x with _ => _ end) => destruct x
  | |- keeps (_ ≫= _) => apply keeps_bind
  | |- keeps (loop _ _) => apply keeps_loop
  | |- keeps (always _ _) => apply keeps_always
  | |- _ => solve [eauto 2 with keeps nocore]
  end.

Section procedures.
Context `{UnicodeTables} `{Crypto} `{MailParser} `{FoldTables} `{BBS}.

Lemma write_keeps_user p x :
  se_user (write_bytes p x) = se_user x /\ se_loggedIn (write_bytes p x) = se_loggedIn x /\ se_caller (write_bytes p x) = se_caller x.
Proof. unfold write_bytes. destruct (se_werr x); [done|]. destruct (se_room x); [|done]. by destruct (_ <? _)%nat. Qed.
Hint Extern 2 (keeps (modify _)) => apply keeps_modify; intros; first [by split_and! | apply write_keeps_user] : keeps.

Lemma keeps_print text : keeps (print text).
Proof.
  apply keeps_modify. intros x. destruct (Render (se_rend x) text) as [out r]. apply (write_keeps_user _ (with_rend r x)).
Qed.
Lemma keeps_raw text : keeps (raw text).
Proof. apply keeps_modify. intros x. apply write_keeps_user. Qed.
Hint Resolve keeps_print keeps_raw : keeps.
Lemma keeps_clearLine : keeps clearLine.
Proof. unfold clearLine. hold. Qed.
Lemma keeps_print_all l : keeps (print_all l).
Proof. induction l; cbn [print_all]; hold. Qed.
Lemma keeps_my_node {A} (f : node -> A * node) d : keeps (on_my_node f d).
Proof. unfold on_my_node, caller. hold. Qed.
Hint Resolve keeps_clearLine keeps_print_all @keeps_my_node : keeps.
Lemma keeps_setActivity a : keeps (sess_setActivity a).
Proof. unfold sess_setActivity. hold. Qed.
Lemma keeps_flushNotices : keeps flushNotices.
Proof. unfold flushNotices. hold. Qed.
Hint Resolve keeps_setActivity keeps_flushNotices : keeps.
Lemma keeps_readKey a : keeps (readKey a).
Proof. unfold readKey. hold. Qed.
Hint Resolve keeps_readKey : keeps.
Lemma keeps_wrap b r : keeps (wrapOverflow b r).
Proof. unfold wrapOverflow. hold. Qed.
Hint Resolve keeps_wrap : keeps.
Lemma keeps_edit o b r : keeps (edit o b r).
Proof. unfold edit. hold. Qed.
Hint Resolve keeps_edit : keeps.
Lemma keeps_readLine o : keeps (readLine o).
Proof. unfold readLine. hold. Qed.
Hint Resolve keeps_readLine : keeps.
Lemma keeps_prompt l n : keeps (prompt l n).
Proof. unfold prompt. hold. Qed.
Lemma keeps_promptSecret l n : keeps (promptSecret l n).
Proof. unfold promptSecret. hold. Qed.
Lemma keeps_choose a : keeps (choose a).
Proof. unfold choose. hold. Qed.
Hint Resolve keeps_prompt keeps_promptSecret keeps_choose : keeps.
Lemma keeps_yesNo q d : keeps (yesNo q d).
Proof. unfold yesNo. hold. Qed.
Lemma keeps_pause : keeps pause.
Proof. unfold pause. hold. Qed.
Lemma keeps_header t : keeps (show_header t).
Proof. unfold show_header, width, height, me, color_. hold. Qed.
Hint Resolve keeps_yesNo keeps_pause keeps_header : keeps.
Lemma keeps_reportError e : keeps (reportError e).
Proof. unfold reportError. hold. Qed.
Lemma keeps_showArt a v : keeps (showArt a v).
Proof. unfold showArt. hold. Qed.
Hint Resolve keeps_reportError keeps_showArt : keeps.
Lemma keeps_showArtFile p v : keeps (showArtFile p v).
Proof. unfold showArtFile. hold. Qed.
Hint Resolve keeps_showArtFile : keeps.
Lemma keeps_customArt n v : keeps (showCustomArt n v).
Proof. unfold showCustomArt. hold. Qed.
Lemma keeps_tokens : keeps screenTokens.
Proof. unfold screenTokens, caller, me. hold. Qed.
Lemma keeps_spaces n : keeps (go_spaces n).
Proof. unfold go_spaces. hold. Qed.
Hint Resolve keeps_customArt keeps_tokens keeps_spaces : keeps.

Lemma keeps_chooseTerminal a : keeps (chooseTerminal a).
Proof. unfold chooseTerminal, set_terminal, caller. hold. Qed.
Lemma keeps_welcome : keeps welcome.
Proof. unfold welcome, caller, width. hold. Qed.
Lemma keeps_transport : keeps transport.
Proof. unfold transport, caller. hold. Qed.
Hint Resolve keeps_transport : keeps.
Lemma keeps_caller : keeps caller.
Proof. unfold caller. hold. Qed.
Hint Resolve keeps_caller : keeps.
Lemma keeps_checkPassword h p : keeps (checkPassword h p).
Proof. unfold checkPassword, caller. hold. Qed.
Lemma keeps_askNewHandle : keeps askNewHandle.
Proof. unfold askNewHandle. hold. Qed.
Lemma keeps_askNewPassword : keeps askNewPassword.
Proof. unfold askNewPassword. generalize maxPasswordTries. intros n. induction n; cbn [askNewPassword_go]; hold. Qed.
Hint Resolve keeps_askNewHandle keeps_askNewPassword : keeps.
Lemma keeps_register : keeps register.
Proof. unfold register, caller. hold. Qed.
End procedures.
#[export] Hint Extern 2 (keeps (modify _)) => apply keeps_modify; intros; first [by split_and! | apply write_keeps_user] : keeps.
#[export] Hint Resolve keeps_caller keeps_transport keeps_showArt keeps_tokens keeps_customArt keeps_header keeps_setActivity keeps_askNewHandle keeps_askNewPassword keeps_yesNo
  keeps_reportError keeps_print keeps_prompt keeps_promptSecret keeps_pause keeps_chooseTerminal keeps_welcome keeps_checkPassword keeps_register : keeps.

(** ** Runs of a session *)

Lemma bind_ok {A B} (m : M A) (k : A -> M B) s b s' : (m ≫= k) s = (Ok b, s') -> exists a s1, m s = (Ok a, s1) /\ k a s1 = (Ok b, s').
Proof. unfold mbind, m_bind. destruct (m s) as [[a|e] s1]; [by eauto|done]. Qed.

Lemma bind_run {A B} (m : M A) (k : A -> M B) s a s1 : m s = (Ok a, s1) -> (m ≫= k) s = k a s1.
Proof. intros E. unfold mbind, m_bind. by rewrite E. Qed.

Lemma bind_stop {A B} (m : M A) (k : A -> M B) s e s1 : m s = (Err e, s1) -> (m ≫= k) s = (Err e, s1).
Proof. intros E. unfold mbind, m_bind. by rewrite E. Qed.

Lemma ret_ok {A} (a b : A) (s s' : St) : (mret a : M A) s = (Ok b, s') -> a = b /\ s = s'.
Proof. by intros [= -> ->]. Qed.

Lemma store_get_ok {A} (q : DB -> A) s a s' : lift (store_get q) s = (Ok a, s') -> a = q (sv_db (next_server (shared s))).
Proof. unfold lift, store_get, atom, next_server. by intros [= <- _]. Qed.

Lemma store_op_ok {A} (o : Z -> op A) s a s' : lift (store_op o) s = (Ok (Ok a), s') ->
  exists db, o (sv_now (next_server (shared s))) (sv_db (next_server (shared s))) = Ok (a, db).
Proof.
  unfold lift, store_op, atom. fold (next_server (shared s)). destruct (o _ _) as [[a' db]|e]; [|done]. intros [= -> _]. by exists db.
Qed.

(** [unwind H]: the runs that the run [H] of a sequence is made of, up to the first choice. *)
Ltac unwind H :=
  lazymatch type of H with
  | (_ ≫= _) _ = (Ok _, _) => let E := fresh "E" in apply bind_ok in H as (? & ? & E & H); cbv beta in H; unwind H
  | _ => idtac
  end.
(** Runs of the same steps, in the same order. *)
Ltac rerun := repeat (erewrite bind_run by eassumption; cbv beta iota).
Ltac nothing H := solve [unwind H; by apply ret_ok in H as [[=] _] | unwind H; discriminate H].

(** ** What a caller proves *)

Section proofs.
Context `{UnicodeTables} `{Crypto} `{MailParser} `{FoldTables} `{BBS}.

(** A turn of [login] that starts in [s] gets this handle from the caller, whose address is not blocked. *)
Definition handle_typed (s : St) (handle : bytes) (s1 : St) : Prop := exists s0,
  lift (limit_blocked loginFailures (ca_ipKey (se_caller (sess s)))) s = (Ok false, s0)
  /\ prompt (nl ++ str " |07Handle |08(or |15NEW|08 to register)|07: |15") MaxHandleLen s0 = (Ok handle, s1) /\ handle <> [].

(** The password was right: in the turn of [login] that starts in [s] the caller types [handle] and [password], the handle is
    not made to wait, and the store, asked then, answers that they are those of [u], which is not locked. *)
Definition by_password (s : St) (u : UserRow) : Prop := exists handle password wait s1 s2 s3,
  handle_typed s handle s1 /\ EqualFold handle (str "new") = false
  /\ promptSecret (str " |07Password|08: |15") MaxPasswordLen s1 = (Ok password, s2)
  /\ lift (accounts_begin (account_key handle)) s2 = (Ok (wait, true), s3)
  /\ Authenticate handle password (sv_db (next_server (shared s3))) = Ok u /\ u_locked u = false.

(** What [register] asks before it creates the account; [None] when the caller gives up or may not register. *)
Definition signup_form : M (option (bytes * bytes * bytes)) :=
  c ← caller;
  b1 ← lift (limit_blocked signups (ca_ipKey c));
  if b1 : bool then mret None
  else
  b2 ← lift (limit_blocked signupsAll signupsAllKey);
  if b2 : bool then mret None
  else
  _ ← sess_setActivity (str "New user signup");
  _ ← show_header (str "New Caller");
  vars ← screenTokens;
  shown ← showCustomArt (str "newuser") vars;
  _ ← (if shown : bool then mret tt else showArt art_newuser vars);
  _ ← (if ca_secure c then mret tt
       else print (colAlert ++ str "  Telnet is not encrypted." ++ colLabel ++ str " Don't reuse a password from elsewhere," ++ nl
                   ++ str "  or call over SSH instead." ++ nl ++ nl));
  handle ← askNewHandle;
  if bool_decide (handle = []) then mret None
  else
  password ← askNewPassword;
  if bool_decide (password = []) then mret None
  else
  location ← prompt (str "|07Location |08(optional)|07: |15") MaxLocationLen;
  ok ← yesNo (str "Create account " ++ safe handle ++ str "?") true;
  mret (if ok : bool then Some (handle, password, location) else None).

(** The account was created: in the turn that starts in [s] the caller types NEW and fills in the form, and the store,
    asked then, creates [u] with that handle and password. *)
Definition by_signup (s : St) (u : UserRow) : Prop := exists new handle password location salt s1 s2 s3 db',
  handle_typed s new s1 /\ EqualFold new (str "new") = true
  /\ signup_form s1 = (Ok (Some (handle, password, location)), s2) /\ lift (fresh rand_salt) s2 = (Ok salt, s3)
  /\ CreateUser store_cfg (sv_now (next_server (shared s3))) salt handle password location (sv_db (next_server (shared s3))) = Ok (u, db').

(** One turn of [login] that does not sign in, to the next. *)
Definition turned (x y : Z * St) : Prop := login_turn (fst x) (snd x) = (Ok (inl (fst y)), snd y).

(** How the caller of the call that starts in [s] proved to be [u]: by a password or a new account in a turn of [login], in which
    fewer than three tries had failed before; or, when the call came with the account of an SSH key, by that key, whose
    account is there and not locked once the screens before the sign-in were shown. *)
Definition proof_of (s : St) (u : UserRow) : Prop := exists s1,
  (_ ← chooseTerminal false; welcome) s = (Ok tt, s1)
  /\ let key := ca_keyUser (se_caller (sess s)) in
     if key =? 0 then exists tries turn, rtc turned (0, s1) (tries, turn) /\ tries < maxLoginAttempts /\ (by_password turn u \/ by_signup turn u)
     else UserByID key (sv_db (next_server (shared s1))) = Ok u /\ u_locked u = false.
End proofs.

Section signing_in.
Context `{UnicodeTables} `{Crypto} `{MailParser} `{FoldTables} `{BBS}.

Lemma checkPassword_some h p s u s' : checkPassword h p s = (Ok (Some u), s') -> exists wait s1,
  lift (accounts_begin (account_key h)) s = (Ok (wait, true), s1)
  /\ Authenticate h p (sv_db (next_server (shared s1))) = Ok u /\ u_locked u = false.
Proof.
  intros E. unfold checkPassword in E. apply bind_ok in E as (c & s0 & [= <- <-] & E). apply bind_ok in E as ([wait ok] & s1 & Eb & E).
  exists wait, s1. destruct ok; cbn [negb] in E; [|nothing E].
  apply bind_ok in E as (k & s2 & Ek & E). assert (s2 = s1) as -> by (unfold transport, caller in Ek; by injection Ek as _ ->).
  apply bind_ok in E as (r & s3 & Er & E). apply store_get_ok in Er as ->. cbv beta zeta in E.
  destruct (Authenticate h p _) as [v|[]] eqn:Ea; try nothing E. destruct (u_locked v) eqn:El; cbn [negb] in E; [nothing E|].
  unwind E. by apply ret_ok in E as [[= ->] _].
Qed.

Lemma register_some s u s' : register s = (Ok (Some u), s') -> exists handle password location salt s1 s2 db',
  signup_form s = (Ok (Some (handle, password, location)), s1) /\ lift (fresh rand_salt) s1 = (Ok salt, s2)
  /\ CreateUser store_cfg (sv_now (next_server (shared s2))) salt handle password location (sv_db (next_server (shared s2))) = Ok (u, db').
Proof.
  intros E. unfold register in E. unwind E. case_match; [nothing E|]. unwind E. case_match; [nothing E|]. unwind E.
  destruct (bool_decide (_ = [])) eqn:Eh in E; [nothing E|]. unwind E. destruct (bool_decide (_ = [])) eqn:Ep in E; [nothing E|]. unwind E.
  destruct (negb _) eqn:Ey in E; [nothing E|]. unwind E. case_match; [|nothing E].
  match goal with Hs : lift (store_op _) _ = _ |- _ => subst; apply store_op_ok in Hs as [db' Hdb] end.
  unwind E. apply ret_ok in E as [[= <-] _]. apply negb_false_iff in Ey as ->.
  do 6 eexists. exists db'. split_and!; [|eassumption|exact Hdb].
  unfold signup_form. rerun. rewrite Eh. rerun. rewrite Ep. by rerun.
Qed.

(** The turn that signs in. *)
Lemma login_turn_in n s s' : login_turn n s = (Ok (inr true), s') ->
  n < maxLoginAttempts /\ exists u, se_user (sess s') = u /\ (by_password s u \/ by_signup s u).
Proof.
  intros E. unfold login_turn in E. destruct (Z.leb_spec maxLoginAttempts n); [nothing E|]. split; [lia|].
  apply bind_ok in E as (c & s0 & [= <- <-] & E). unwind E. case_match; [nothing E|]. unwind E.
  destruct (bool_decide (_ = [])) eqn:Eh in E; [nothing E|]. apply bool_decide_eq_false in Eh.
  match type of E with (if EqualFold ?h _ then _ else _) ?s1 = _ => assert (handle_typed s h s1) as Ht by (eexists; split_and!; [subst; eassumption..|done]) end.
  destruct (EqualFold _ _) eqn:En in E; unwind E; (case_match; [|nothing E]); unwind E; apply ret_ok in E as [_ <-];
    match goal with Hm : modify (with_user ?u) _ = _ |- _ => injection Hm as _ <-; subst; exists u end; (split; [done|]).
  - right. match goal with Hr : register _ = _ |- _ => apply register_some in Hr as (h & p & l & salt & s3 & s4 & db' & ? & ? & ?) end.
    red. do 9 eexists. split_and!; eassumption.
  - left. match goal with Hr : checkPassword _ _ _ = _ |- _ => apply checkPassword_some in Hr as (wait & s3 & ? & ? & ?) end.
    red. do 6 eexists. split_and!; eassumption.
Qed.

Lemma login_in s s' : login s = (Ok true, s') ->
  exists n turn u, rtc turned (0, s) (n, turn) /\ n < maxLoginAttempts /\ se_user (sess s') = u /\ (by_password turn u \/ by_signup turn u).
Proof.
  unfold login, loop. generalize 0 (S (length (se_in (sess s)))). intros n fuel. revert n s.
  induction fuel as [|fuel IH]; intros n s E; [done|]. cbn [loop_go] in E. apply bind_ok in E as ([m|ok] & s1 & Et & E).
  - destruct (IH m s1 E) as (k & turn & u & Hs & Hk). exists k, turn, u. split; [|done]. by apply (rtc_l _ _ (m, s1)).
  - apply ret_ok in E as [-> ->]. destruct (login_turn_in n s s' Et) as (Hn & u & Hu & Hp). exists n, s, u. by split_and!.
Qed.

Lemma keyLogin_in id s s' : keyLogin id s = (Ok true, s') ->
  exists u, UserByID id (sv_db (next_server (shared s))) = Ok u /\ u_locked u = false /\ se_user (sess s') = u.
Proof.
  intros E. unfold keyLogin in E. apply bind_ok in E as (c & s0 & [= <- <-] & E). apply bind_ok in E as (r & s1 & Er & E).
  apply store_get_ok in Er as ->. destruct (UserByID id _) as [u|[]]; try nothing E. destruct (u_locked u) eqn:El; [nothing E|].
  exists u. split_and!; [done|done|]. unwind E. apply ret_ok in E as [_ <-].
  match goal with Hm : modify (with_user u) ?s = _, Hp : pause _ = (_, ?s2) |- _ => injection Hm as _ <-; pose proof (keeps_pause (on_sess (with_user u) s)) as Hk; rewrite Hp in Hk end.
  by injection Hk as ->.
Qed.

(** Signing in does not make the session count as logged in. *)
Definition quiet {A} (m : M A) : Prop := forall s, se_loggedIn (sess (snd (m s))) = se_loggedIn (sess s) /\ se_caller (sess (snd (m s))) = se_caller (sess s).

Lemma quiet_keeps {A} (m : M A) : keeps m -> quiet m.
Proof. intros Hm s. specialize (Hm s). unfold identity in Hm. by injection Hm as _ -> ->. Qed.
Lemma quiet_bind {A B} (m : M A) (k : A -> M B) : quiet m -> (forall a, quiet (k a)) -> quiet (m ≫= k).
Proof.
  intros Hm Hk s. unfold mbind, m_bind. destruct (Hm s) as [H1' H2']. destruct (m s) as [[a|e] s1]; cbn in *; [|done].
  destruct (Hk a s1). split; congruence.
Qed.
Lemma quiet_loop {X A} (body : X -> M (X + A)) x : (forall x, quiet (body x)) -> quiet (loop body x).
Proof.
  intros Hb s. unfold loop. generalize (S (length (se_in (sess s)))). intros fuel. revert x s.
  induction fuel as [|fuel IH]; intros x s; [done|]. cbn [loop_go]. apply (quiet_bind (body x)); [done|]. intros [y|a] s1; [apply IH|done].
Qed.
Lemma quiet_user u : quiet (modify (with_user u)).
Proof. done. Qed.
Lemma quiet_keyAuth b : quiet (modify (with_keyAuth b)).
Proof. done. Qed.

Ltac hush :=
  repeat lazymatch goal with
  | |- forall _, _ => intros ?; cbv beta
  | |- quiet (modify (with_user _)) => apply quiet_user
  | |- quiet (match ?x with _ => _ end) => destruct x
  | |- quiet (loop _ _) => apply quiet_loop
  | |- quiet (_ ≫= _) => apply quiet_bind
  | |- _ => apply quiet_keeps; solve [hold]
  end.

Lemma quiet_login : quiet login.
Proof. unfold login, login_turn. hush. Qed.
Lemma quiet_keyLogin id : quiet (keyLogin id).
Proof. unfold keyLogin. hush. Qed.
End signing_in.

(** ** The whole session *)

Section session.
Context `{UnicodeTables} `{Crypto} `{MailParser} `{FoldTables} `{BBS} `{Mailing} `{Hmac} `{Zmodem} `{SSHLib} `{DoorWorld} `{NetAddr}.

(** The part of [session_run] after the sign-in. *)
Definition signed_in_session : M unit := _ ← modify (with_login true); _ ← afterLogin; _ ← mainMenu; sess_goodbye.

(** The sign-in that the transport asks for. *)
Lemma sign_in_proof s s1 s2 : (_ ← chooseTerminal false; welcome) s = (Ok tt, s1) ->
  (if ca_keyUser (se_caller (sess s)) =? 0 then login else keyLogin (ca_keyUser (se_caller (sess s)))) s1 = (Ok true, s2) ->
  proof_of s (se_user (sess s2)).
Proof.
  intros E1 E2. exists s1. split; [exact E1|]. cbv zeta. destruct (_ =? 0).
  - apply login_in in E2 as (n & turn & u & Ht & Hn & -> & Hp). by exists n, turn.
  - apply keyLogin_in in E2 as (u & Hu & Hl & ->). done.
Qed.

(** A session that never signs in does not count as logged in. *)
Lemma session_cases s : se_loggedIn (sess (snd (session_run s))) = se_loggedIn (sess s)
  \/ exists s2, proof_of s (se_user (sess s2)) /\ se_loggedIn (sess s2) = se_loggedIn (sess s) /\ session_run s = signed_in_session s2.
Proof.
  pose proof (quiet_keeps _ (keeps_chooseTerminal false) s) as [L0 C0]. pose proof (quiet_keeps _ keeps_welcome (snd (chooseTerminal false s))) as [L1 C1].
  unfold session_run. destruct (chooseTerminal false s) as [[[]|e] s0] eqn:E0; [|left; by erewrite bind_stop by exact E0].
  rewrite !(bind_run _ _ _ _ _ E0). cbn [snd] in *. destruct (welcome s0) as [[[]|e] s1] eqn:E1; [|left; erewrite bind_stop by exact E1; cbn [snd] in *; congruence].
  rewrite !(bind_run _ _ _ _ _ E1), !(bind_run caller _ s1 (se_caller (sess s1)) s1 eq_refl). cbn [snd] in *.
  assert (se_caller (sess s1) = se_caller (sess s)) as -> by congruence.
  set (si := if _ =? 0 then login else _). assert (quiet si) as Hq by (subst si; destruct (_ =? 0); [apply quiet_login|apply quiet_keyLogin]).
  specialize (Hq s1) as [L2 _]. destruct (si s1) as [[[|]|e] s2] eqn:E2; cbn [snd] in L2.
  - right. exists s2. split_and!; [|congruence|by rewrite (bind_run _ _ _ _ _ E2)]. eapply sign_in_proof; [|exact E2]. by rewrite (bind_run _ _ _ _ _ E0).
  - left. rewrite (bind_run _ _ _ _ _ E2). cbn. congruence.
  - left. rewrite (bind_stop _ _ _ _ _ E2). cbn. congruence.
Qed.

(** C4: The menus are for callers who proved who they are: whatever is typed and whatever other goroutines do in between, a
    session that counts as logged in went through a sign-in, and runs everything after it as the account [u] of which
    the caller gave proof in this very call: its password, when the store, asked in that turn with the handle and the
    password typed there, said that they are right and the account was not locked; or the form that created it in that
    turn; or, over SSH, the key that the server matched, when the account was there and not locked.  To the end of the
    session the account stays [u]'s. *)
Theorem menus_need_login (s : St) :
  se_loggedIn (sess s) = false -> let after := snd (session_run s) in se_loggedIn (sess after) = true ->
  exists u s2, proof_of s u /\ se_user (sess s2) = u /\ se_loggedIn (sess s2) = false
    /\ session_run s = signed_in_session s2 /\ u_id (se_user (sess after)) = u_id u.
Proof.
  intros Hl after Ha. destruct (session_cases s) as [E|(s2 & Hp & E2 & E)]; [subst after; congruence|].
  exists (se_user (sess s2)), s2. split_and!; [done|done|congruence|exact E|]. subst after. rewrite E.
  assert (SessionSpec.moves anything (Some (u_id (se_user (sess s2)))) any signed_in_session) as Hm by (unfold signed_in_session; stroll).
  specialize (Hm s2 (rely_anything _) eq_refl). destruct (signed_in_session s2) as [r s']. by destruct Hm as (_ & _ & _ & Hi & _).
Qed.
End session.

Lemma menus_need_login_witness :
  let script := typed (str "3" ++ enter ++ str "bob" ++ enter ++ demo_password ++ enter ++ str "n" ++ str "n" ++ str "gy") in
  let s := MkSt (newSession (MkCaller 1 (str "::1") (str "::1") false 0 None 0) (80, 24) script None) (MkShared demo_server []) in
  let after := snd (session_run s) in
  se_loggedIn (sess after) = true /\ exists u, proof_of s u /\ u_id u = 2.
Proof.
  cbv zeta. set (s := MkSt (newSession _ _ _ _) _).
  assert (se_loggedIn (sess (snd (session_run s))) = true) as Hl by (vm_compute; reflexivity). split; [exact Hl|].
  assert (u_id (se_user (sess (snd (session_run s)))) = 2) as Hu by (vm_compute; reflexivity).
  destruct (menus_need_login s eq_refl Hl) as (u & s2 & Hp & _ & _ & _ & Ei). exists u. split; [exact Hp|]. rewrite <-Ei. exact Hu.
Defined.
