(* ===== verification/InputSpec.v ===== *)
(** * What is typed is what is read

    The decoder of [readRune] and the line editor of [readLine], against the runes that the caller typed. *)

From Stdlib Require Import Ascii String ZArith Lia.
From stdpp Require Import base tactics list gmap strings.
From S2P Require Import Prelude GoStrings GoTime Term StoreDB StoreUsers StoreMail Limits Nodes Mailer Server ServerSpec Ui Session Demo.
Open Scope Z_scope.

(** ** The decoder *)

Definition typed_rune (r : Z) : Prop := valid_rune r = true /\ 32 <= r /\ r <> 127 /\ r <> rune_error.

(** Nothing is pending in [d]. *)
Definition clean (d : decoder) : Prop := d_esc d = escNone /\ d_ubuf d = [].

Lemma feed_high b l u : 128 <= b -> feed_byte UTF8 b (MkDec escNone l u) = (fst (decodeHigh UTF8 b u), MkDec escNone false (snd (decodeHigh UTF8 b u))).
Proof.
  intros Hb. unfold feed_byte, skipEscape, keyEsc, keyBackspace, keyDel. cbn [d_esc d_lastCR d_ubuf].
  repeat match goal with |- context [b =? ?k] => rewrite (proj2 (Z.eqb_neq b k)) by lia end. rewrite andb_false_r. cbn [orb].
  rewrite (proj2 (Z.ltb_ge b 128)) by done. by destruct (decodeHigh UTF8 b u).
Qed.

(** A prefix of an encoding waits for more. *)
Lemma waits b u : FullRune (u ++ [b]) = false -> len (u ++ [b]) < 4 -> decodeHigh UTF8 b u = (None, u ++ [b]).
Proof. intros Hf Hl. unfold decodeHigh. cbv zeta. rewrite Hf. cbn [negb]. by rewrite (proj2 (Z.leb_gt 4 _)). Qed.

Lemma completes b u r : valid_rune r = true -> r <> rune_error -> u ++ [b] = encode_rune r -> FullRune (u ++ [b]) = true ->
  decodeHigh UTF8 b u = (Some r, []).
Proof.
  intros Hr Hn E Hf. unfold decodeHigh. cbv zeta. rewrite Hf. cbn [negb]. rewrite E, <-(app_nil_r (encode_rune r)), decode_encode_rune by done.
  cbn [fst]. by rewrite (proj2 (Z.eqb_neq _ _)).
Qed.

Lemma between_in lo hi b : lo <= b <= hi -> between lo hi b = true.
Proof. intros. unfold between. by rewrite !(proj2 (Z.leb_le _ _)) by lia. Qed.
Lemma between_out lo hi b : b < lo \/ hi < b -> between lo hi b = false.
Proof. intros. unfold between. apply andb_false_iff. rewrite !Z.leb_gt. lia. Qed.

Ltac decide_bytes :=
  unfold FullRune, continuation, len; cbn [length];
  repeat match goal with
  | |- context [between ?lo ?hi ?b] => first [rewrite (between_in lo hi b) by lia | rewrite (between_out lo hi b) by lia]; cbv iota; cbn [negb orb andb]
  | |- context [?a =? ?b] => first [rewrite (proj2 (Z.eqb_eq a b)) by lia | rewrite (proj2 (Z.eqb_neq a b)) by lia | destruct (Z.eqb_spec a b)]; cbv iota
  end; try done.

(** The runes whose encoding has more than one byte, with their bytes. *)
Lemma encode_high r : valid_rune r = true -> 128 <= r ->
  Forall (fun b => 128 <= b) (encode_rune r) /\ FullRune (encode_rune r) = true
  /\ (forall k, (0 < k < length (encode_rune r))%nat -> FullRune (take k (encode_rune r)) = false).
Proof.
  intros Hr Hb. unfold encode_rune. rewrite Hr. cbn [negb].
  apply orb_prop in Hr. rewrite !andb_true_iff, !Z.leb_le, !Z.ltb_lt in Hr. assert (0 <= r <= 1114111) by lia.
  pose proof (Z.mod_pos_bound r 64 eq_refl). pose proof (Z.mod_pos_bound (r / 64) 64 eq_refl). pose proof (Z.mod_pos_bound (r / 4096) 64 eq_refl).
  rewrite (proj2 (Z.ltb_ge r 128)) by done.
  destruct (Z.ltb_spec r 2048); [|destruct (Z.ltb_spec r 65536)]; cbn [length].
  - assert (2 <= r / 64 < 32) by dlia. split_and!; [repeat constructor; lia|decide_bytes|].
    intros [|[|k]] Hk; try lia. cbn [take]. decide_bytes.
  - assert (0 <= r / 4096 < 16) by dlia. assert (r / 4096 = 0 -> 32 <= r / 64 mod 64) by dlia. assert (r / 4096 = 13 -> r / 64 mod 64 < 32) by dlia.
    split_and!; [repeat constructor; lia|decide_bytes|]. intros [|[|[|k]]] Hk; try lia; cbn [take]; decide_bytes.
  - assert (0 <= r / 262144 < 5) by dlia. assert (r / 262144 = 0 -> 16 <= r / 4096 mod 64) by dlia.
    assert (r / 262144 = 4 -> r / 4096 mod 64 < 16) by dlia.
    split_and!; [repeat constructor; lia|decide_bytes|]. intros [|[|[|[|k]]]] Hk; try lia; cbn [take]; decide_bytes.
Qed.

Lemma read_bytes r i size : valid_rune r = true -> r <> rune_error -> 128 <= r -> forall bs u l, u ++ bs = encode_rune r -> bs <> [] ->
  read_go UTF8 ((Key <$> bs) ++ i) (MkDec escNone l u) size = (Some r, MkDec escNone false [], size, i).
Proof.
  intros Hr Hn Hb bs. destruct (encode_high r Hr Hb) as (Hhigh & Hfull & Hpre). induction bs as [|b bs IH]; [done|].
  intros u l E _. cbn [fmap list_fmap app read_go]. assert (128 <= b) as Hb' by (rewrite <-E in Hhigh; by apply Forall_app in Hhigh as [_ [? _]%Forall_cons]).
  rewrite feed_high by done. destruct bs as [|b' bs].
  - rewrite (completes b u r) by (rewrite ?E; done). done.
  - assert (u ++ [b] = take (S (length u)) (encode_rune r)) as Et by (rewrite <-E, take_app_ge by lia; replace (S (length u) - length u)%nat with 1%nat by lia; done).
    assert (length (encode_rune r) = length u + S (S (length bs)))%nat as El by (rewrite <-E, length_app; done).
    pose proof (encode_rune_length r) as Hle.
    rewrite waits; [cbn [fst snd]|rewrite Et; apply Hpre; lia|unfold len; rewrite length_app; cbn; lia].
    apply IH; [by rewrite <-app_assoc|done].
Qed.

(** A typed rune is read as it is, whatever its width. *)
Lemma read_rune r i d size : typed_rune r -> clean d ->
  read_go UTF8 ((Key <$> encode_rune r) ++ i) d size = (Some r, MkDec escNone false [], size, i).
Proof.
  intros (Hr & Hp & Hd & Hn) [He Hu]. destruct d as [e l u]. cbn in He, Hu. subst. destruct (Z.lt_ge_cases r 128) as [Hb|Hb].
  - rewrite (proj2 (ascii_rune r ltac:(lia))). cbn [fmap list_fmap app read_go]. unfold feed_byte, skipEscape, keyEsc, keyBackspace, keyDel. cbn [d_esc d_lastCR d_ubuf].
    repeat match goal with |- context [r =? ?k] => rewrite (proj2 (Z.eqb_neq r k)) by lia end. rewrite andb_false_r. cbn [orb].
    by rewrite (proj2 (Z.ltb_lt r 128)).
  - apply read_bytes; try done. destruct (encode_rune_cons r) as (b & s & ->). done.
Qed.

(** ** The line editor *)

(** What the caller does at a line: type a rune, rub the last one out, or the whole line. *)
Inductive stroke := Rune (r : Z) | Rub (b : Z) | Kill.

Definition stroke_ok (k : stroke) : Prop := match k with Rune r => typed_rune r | Rub b => b = 8 \/ b = 127 | Kill => True end.
Definition stroke_bytes (k : stroke) : bytes := match k with Rune r => encode_rune r | Rub b => [b] | Kill => [21] end.
Definition stroke_key (k : stroke) : Z := match k with Rune r => r | Rub _ => keyBackspace | Kill => keyCtrlU end.
Definition sent (ks : list stroke) : bytes := ks ≫= stroke_bytes.

Lemma read_stroke k i d size : stroke_ok k -> clean d ->
  read_go UTF8 ((Key <$> stroke_bytes k) ++ i) d size = (Some (stroke_key k), MkDec escNone false [], size, i).
Proof.
  intros Hk Hd. destruct k as [r|b|]; [by apply read_rune|..]; destruct Hd as [He Hu]; destruct d as [e l u]; cbn in He, Hu, Hk; subst.
  - destruct Hk as [-> | ->]; cbn; by rewrite andb_false_r.
  - cbn. by rewrite andb_false_r.
Qed.

Lemma sent_length ks : (length ks <= length (sent ks))%nat.
Proof.
  induction ks as [|k ks IH]; [done|]. unfold sent in *. cbn [mbind list_bind length]. rewrite length_app.
  assert (1 <= length (stroke_bytes k))%nat by (destruct k; cbn; [apply encode_rune_length|lia|lia]). lia.
Qed.

(** A session whose connection takes everything, at the start of a key. *)
Definition ready (s : Sess) : Prop := se_cs s = UTF8 /\ se_werr s = false /\ se_room s = None /\ clean (se_dec s).

(** Enter as a terminal sends it: CR or LF.  What may be left of the line before: the LF or NUL after a CR. *)
Definition line_end (e : bytes) : Prop := e = [13] \/ e = [10].
Definition left_over (pre : bytes) (d : decoder) : Prop := pre = [] \/ (d_lastCR d = true /\ (pre = [10] \/ pre = [0])).

Lemma read_end e i d size : line_end e -> clean d -> d_lastCR d = false ->
  read_go UTF8 ((Key <$> e) ++ i) d size = (Some keyEnter, MkDec escNone (bool_decide (e = [13])) [], size, i).
Proof. intros [-> | ->] [He Hu] Hc; destruct d as [es l u]; cbn in He, Hu, Hc; subst; done. Qed.

Lemma read_left_over pre i d size : left_over pre d -> clean d -> pre <> [] ->
  read_go UTF8 ((Key <$> pre) ++ i) d size = read_go UTF8 i (MkDec escNone false []) size.
Proof. intros [-> |[Hc [-> | ->]]] [He Hu] Hp; try done; destruct d as [es l u]; cbn in He, Hu, Hc; subst; done. Qed.

Section editor.
Context `{UnicodeTables} `{Crypto} `{MailParser} `{BBS}.

(** What the editor shows for a rune; what a session is after it wrote and read. *)
Definition echo (o : lineOpts) (r : Z) : bytes := if lo_mask o then str "*" else encode_rune r.
Definition went (out : bytes) (d : decoder) (i : list input) (s : St) : St :=
  on_sess (fun x => with_input d (se_size x) i (with_output (se_out x ++ out) None false x)) s.

Lemma went_went out out' d d' i i' s : went out' d' i' (went out d i s) = went (out ++ out') d' i' s.
Proof. unfold went, on_sess. destruct s as [x sh]. cbn. by rewrite app_assoc. Qed.

Lemma went_nothing s i : ready (sess s) -> se_in (sess s) = i -> went [] (se_dec (sess s)) i s = s.
Proof. intros (? & Hw & Hr & ?) <-. unfold went, on_sess. destruct s as [x sh]. destruct x. cbn in *. subst. by rewrite app_nil_r. Qed.

Lemma went_ready out d i s : ready (sess s) -> clean d -> ready (sess (went out d i s)).
Proof. intros (Hc & _ & _ & _) Hd. by split_and!. Qed.

Lemma raw_ready text s : ready (sess s) -> raw text s = (Ok tt, went text (se_dec (sess s)) (se_in (sess s)) s).
Proof.
  intros (Hc & Hw & Hr & _). unfold raw, modify. unfold went, on_sess. rewrite Hc. cbn [Encode]. unfold write_bytes. rewrite Hw, Hr. by destruct s as [[] sh].
Qed.

Lemma readRune_at s i d r : ready (sess s) -> read_go UTF8 (se_in (sess s)) (se_dec (sess s)) (se_size (sess s)) = (Some r, d, se_size (sess s), i) ->
  readRune s = (Ok r, went [] d i s).
Proof.
  intros (Hc & Hw & Hr & _) E. unfold readRune. rewrite Hw, Hc, E. unfold went, on_sess. destruct s as [[] sh]. cbn in *. subst. by rewrite app_nil_r.
Qed.

(** The line a stroke leaves, and what is shown of it. *)
Definition press (o : lineOpts) (buf : list Z) (k : stroke) : list Z :=
  match k with
  | Rune r => if len buf <? lo_max o then buf ++ [r] else buf
  | Rub _ => take (length buf - 1) buf
  | Kill => []
  end.
Definition show (o : lineOpts) (buf : list Z) (k : stroke) : bytes :=
  match k with
  | Rune r => if len buf <? lo_max o then echo o r else []
  | Rub _ => if bool_decide (buf = []) then [] else bs_sp_bs
  | Kill => Repeat bs_sp_bs (len buf)
  end.
Fixpoint show_all (o : lineOpts) (buf : list Z) (ks : list stroke) : bytes :=
  match ks with [] => [] | k :: ks => show o buf k ++ show_all o (press o buf k) ks end.

Lemma press_length o buf k : len buf <= lo_max o -> len (press o buf k) <= Z.max 0 (lo_max o).
Proof.
  unfold len. destruct k as [r|b|]; cbn [press]; [destruct (Z.ltb_spec (len buf) (lo_max o)); unfold len in *; rewrite ?length_app; cbn; lia|rewrite length_take; lia|cbn; lia].
Qed.

Lemma line_bounded o ks : 0 <= lo_max o -> len (foldl (press o) [] ks) <= lo_max o.
Proof.
  intros Hm. assert (len (@nil Z) <= lo_max o) as Hb by done. revert Hb. generalize (@nil Z). induction ks as [|k ks IH]; intros buf Hb; [done|].
  cbn [foldl]. apply IH. pose proof (press_length o buf k Hb). lia.
Qed.

(** What a masked line shows depends on how many runes there are. *)
Lemma masked_from o ks ks' : lo_mask o = true -> Forall2 (fun k k' => match k, k' with Rune _, Rune _ => True | _, _ => k = k' end) ks ks' ->
  forall buf buf', length buf = length buf' -> show_all o buf ks = show_all o buf' ks'.
Proof.
  intros Hm Hks. induction Hks as [|k k' ks ks' Hk Hks IH]; intros buf buf' Hlen; [done|]. cbn [show_all].
  assert (show o buf k = show o buf' k' /\ length (press o buf k) = length (press o buf' k')) as [-> Hl]; [|f_equal; by apply IH].
  unfold len. destruct k as [r|b|], k' as [r'|b'|]; try done; cbn [show press]; unfold echo, len; rewrite ?Hm, ?Hlen.
  - destruct (_ <? _); rewrite ?length_app; split; cbn; lia || done.
  - rewrite !length_take, Hlen. split; [|done]. destruct buf, buf'; done.
  - done.
Qed.

Lemma masked o ks ks' : lo_mask o = true -> Forall2 (fun k k' => match k, k' with Rune _, Rune _ => True | _, _ => k = k' end) ks ks' ->
  show_all o [] ks = show_all o [] ks'.
Proof. intros. by apply masked_from. Qed.

(** A turn of the editor is a stroke. *)
Lemma edit_stroke o buf k s : lo_wrap o = false -> stroke_ok k -> ready (sess s) ->
  edit o buf (stroke_key k) s = (Ok (inl (press o buf k)), went (show o buf k) (se_dec (sess s)) (se_in (sess s)) s).
Proof.
  intros Hwrap Hk Hs. unfold edit. destruct k as [r|b|]; cbn [stroke_key press show].
  - destruct Hk as (Hv & Hp & Hd & _). unfold keyEnter, keyBackspace, keyCtrlU.
    repeat match goal with |- context [r =? ?k] => rewrite (proj2 (Z.eqb_neq r k)) by lia end. rewrite (proj2 (Z.ltb_ge r 32)) by done.
    destruct (len buf <? lo_max o); [|rewrite Hwrap; by rewrite went_nothing]. unfold mbind, m_bind. by rewrite raw_ready.
  - cbn [Z.eqb keyEnter keyBackspace Pos.eqb]. case_bool_decide as Hb; [subst; by rewrite went_nothing|]. unfold mbind, m_bind. by rewrite raw_ready.
  - cbn [Z.eqb keyEnter keyBackspace keyCtrlU Pos.eqb]. unfold mbind, m_bind. by rewrite raw_ready.
Qed.

Lemma edit_enter o buf s : ready (sess s) -> edit o buf keyEnter s = (Ok (inr (utf8 buf, [])), went [13; 10] (se_dec (sess s)) (se_in (sess s)) s).
Proof. intros Hs. unfold edit. cbn [Z.eqb keyEnter Pos.eqb]. unfold mbind, m_bind. by rewrite raw_ready. Qed.

Lemma line_go o ks e rest fuel : lo_wrap o = false -> Forall stroke_ok ks -> line_end e -> (length ks < fuel)%nat ->
  forall buf s, ready (sess s) -> d_lastCR (se_dec (sess s)) = false \/ ks <> [] \/ e = [13] ->
  se_in (sess s) = (Key <$> sent ks) ++ (Key <$> e) ++ rest ->
  loop_go fuel (fun buf => r ← readRune; edit o buf r) buf s
  = (Ok (utf8 (foldl (press o) buf ks), []), went (show_all o buf ks ++ [13; 10]) (MkDec escNone (bool_decide (e = [13])) []) rest s).
Proof.
  intros Hwrap Hks He. revert fuel. induction Hks as [|k ks Hk Hks IH]; intros [|fuel] Hf buf s Hs Hcr Hin; try (cbn in Hf; lia).
  - cbn [loop_go]. unfold mbind, m_bind. rewrite (readRune_at s rest (MkDec escNone (bool_decide (e = [13])) []) keyEnter); [|done|].
    2: { rewrite Hin. cbn [sent mbind list_bind fmap list_fmap app]. destruct Hs as (_ & _ & _ & Hd).
         destruct (d_lastCR (se_dec (sess s))) eqn:El; [|by apply read_end].
         destruct Hcr as [?|[?| ->]]; [done|done|]. destruct (se_dec (sess s)) as [es l u], Hd. cbn in *. by subst. }
    rewrite edit_enter by (by apply went_ready). cbn. by rewrite went_went.
  - cbn [loop_go]. unfold mbind, m_bind. change (sent (k :: ks)) with (stroke_bytes k ++ sent ks) in Hin. rewrite fmap_app, <-app_assoc in Hin.
    rewrite (readRune_at s ((Key <$> sent ks) ++ (Key <$> e) ++ rest) (MkDec escNone false []) (stroke_key k)); [|done|].
    2: { rewrite Hin. apply read_stroke; [done|apply Hs]. }
    rewrite edit_stroke by (try done; by apply went_ready). rewrite went_went. cbn [app].
    rewrite (IH fuel); [|cbn in Hf; lia|by apply went_ready|by left|done]. rewrite went_went. cbn [foldl show_all]. by rewrite <-app_assoc.
Qed.

(** What the Enter key of a terminal sends, and the part of it that is still there when the next line is read. *)
Definition enter_key (e : bytes) : Prop := e = [13] \/ e = [10] \/ e = [13; 10] \/ e = [13; 0].
Definition left_of (e : bytes) : bytes := drop 1 e.

(** The line that the strokes make, and what is shown. *)
Definition line_of (o : lineOpts) (ks : list stroke) : list Z := foldl (press o) [] ks.
Definition shown (o : lineOpts) (ks : list stroke) : bytes := show_all o [] ks ++ [13; 10].

(** One line, with what the Enter of the line before left. *)
Lemma readLine_at o ks e pre rest s :
  lo_wrap o = false -> lo_init o = [] -> Forall stroke_ok ks -> enter_key e -> ready (sess s) ->
  pre = [] /\ (d_lastCR (se_dec (sess s)) = false \/ e = [13]) \/ d_lastCR (se_dec (sess s)) = true /\ (pre = [10] \/ pre = [0]) ->
  se_in (sess s) = (Key <$> pre) ++ (Key <$> sent ks) ++ (Key <$> e) ++ rest ->
  readLine o s = (Ok (utf8 (line_of o ks), []),
                  went (shown o ks) (MkDec escNone (bool_decide (take 1 e = [13])) []) ((Key <$> left_of e) ++ rest) s).
Proof.
  intros Hwrap Hinit Hks He Hs Hpre Hin. unfold readLine. unfold mbind at 1, m_bind. rewrite Hinit, raw_ready by done.
  change (utf8 []) with (@nil Z). rewrite went_nothing by done. unfold loop.
  assert (line_end (take 1 e)) as He1 by (unfold line_end; destruct He as [->|[->|[->| ->]]]; auto).
  assert (e = take 1 e ++ left_of e) as Ee by (unfold left_of; by rewrite take_drop).
  destruct Hpre as [[-> Hcr]|[Hcr Hpre]].
  - rewrite (line_go o ks (take 1 e) ((Key <$> left_of e) ++ rest)); try done.
    + rewrite Hin, !length_app, !length_fmap. pose proof (sent_length ks). lia.
    + destruct Hcr as [?| ->]; auto.
    + rewrite Hin. cbn [fmap list_fmap app]. by rewrite (app_assoc (Key <$> take 1 e)), <-fmap_app, <-Ee.
  - set (s' := went [] (MkDec escNone false []) ((Key <$> sent ks) ++ (Key <$> e) ++ rest) s).
    assert (forall fuel buf, loop_go (S fuel) (fun buf => r ← readRune; edit o buf r) buf s = loop_go (S fuel) (fun buf => r ← readRune; edit o buf r) buf s') as ->.
    { intros fuel buf. cbn [loop_go]. unfold mbind, m_bind. assert (readRune s = readRune s') as ->; [|done].
      destruct Hs as (Hc & Hw & Hr & Hd). unfold readRune. subst s'. cbn. rewrite Hw, Hin, Hc.
      rewrite read_left_over; [|right; done|done|by destruct Hpre as [->| ->]].
      destruct (read_go _ _ _ _) as [[[r d] size] i]. unfold went, on_sess. destruct s as [[] sh]. cbn in *. subst. by rewrite app_nil_r. }
    rewrite (line_go o ks (take 1 e) ((Key <$> left_of e) ++ rest)); try done.
    + unfold s'. by rewrite went_went.
    + rewrite Hin, !length_app, !length_fmap. pose proof (sent_length ks). lia.
    + subst s'. by apply went_ready.
    + by left.
    + cbn. by rewrite (app_assoc (Key <$> take 1 e)), <-fmap_app, <-Ee.
Qed.

(** A line editor without wrapping, that starts empty. *)
Definition plain (o : lineOpts) : Prop := lo_wrap o = false /\ lo_init o = [].

Lemma lines_go e tail lines : enter_key e -> Forall (fun '(o, ks) => plain o /\ Forall stroke_ok ks) lines -> forall pre s,
  ready (sess s) ->
  pre = [] /\ (d_lastCR (se_dec (sess s)) = false \/ e = [13]) \/ d_lastCR (se_dec (sess s)) = true /\ (pre = [10] \/ pre = [0]) ->
  se_in (sess s) = (Key <$> pre) ++ (Key <$> (lines ≫= fun '(_, ks) => sent ks ++ e)) ++ tail ->
  exists d i, map_m (fun l => readLine (fst l)) lines s
  = (Ok ((fun '(o, ks) => (utf8 (line_of o ks), [])) <$> lines), went (lines ≫= fun '(o, ks) => shown o ks) d i s).
Proof.
  intros He Hl. induction Hl as [|[o ks] lines [[Hw Hi] Hks] Hl IH]; intros pre s Hs Hpre Hin.
  - exists (se_dec (sess s)), (se_in (sess s)). cbn [map_m]. by rewrite went_nothing.
  - cbn [map_m fst]. unfold mbind at 1, m_bind.
    assert (se_in (sess s) = (Key <$> pre) ++ (Key <$> sent ks) ++ (Key <$> e) ++ (Key <$> (lines ≫= fun '(_, ks) => sent ks ++ e)) ++ tail) as Hin'.
    { rewrite Hin. cbn [mbind list_bind]. by rewrite !fmap_app, <-!app_assoc. }
    rewrite (readLine_at _ _ _ _ _ _ Hw Hi Hks He Hs Hpre Hin'). set (s1 := went _ _ _ s). unfold mbind at 1, m_bind.
    destruct (IH (left_of e) s1) as (d & i & E); [by apply went_ready| |done|].
    { subst s1. unfold went, on_sess. cbn. destruct He as [->|[->|[->| ->]]]; cbn; auto. }
    rewrite E. exists d, i. subst s1. rewrite went_went. done.
Qed.

(** C11: What is typed is what is read: for a whole dialogue of lines, each with any Unicode text in UTF-8 and any rubbing out,
    and whatever the terminal's Enter key sends, CR, LF, CR LF or CR NUL, the line editor returns, line by line, exactly
    what the reference editor leaves of the strokes, at most as many runes as the line takes, and shows just that; a
    masked line shows the same whatever its letters are. *)
Theorem lines_typed_are_read (e : bytes) (lines : list (lineOpts * list stroke)) (s : St) :
  enter_key e -> Forall (fun '(o, ks) => plain o /\ Forall stroke_ok ks) lines -> ready (sess s) -> d_lastCR (se_dec (sess s)) = false ->
  se_in (sess s) = Key <$> (lines ≫= fun '(_, ks) => sent ks ++ e) ->
  let '(r, after) := map_m (fun l => readLine (fst l)) lines s in
  r = Ok ((fun '(o, ks) => (utf8 (line_of o ks), [])) <$> lines)
  /\ se_out (sess after) = se_out (sess s) ++ (lines ≫= fun '(o, ks) => shown o ks)
  /\ shared after = shared s
  /\ Forall (fun '(o, ks) => 0 <= lo_max o -> len (line_of o ks) <= lo_max o) lines
  /\ (forall o ks ks', lo_mask o = true -> Forall2 (fun k k' => match k, k' with Rune _, Rune _ => True | _, _ => k = k' end) ks ks' -> shown o ks = shown o ks').
Proof.
  intros He Hl Hs Hcr Hin. destruct (lines_go e [] lines He Hl [] s Hs) as (d & i & ->); [by left; split; [|left]|by rewrite app_nil_r|].
  split_and!; [done|done|done| |].
  - eapply Forall_impl; [exact Hl|]. intros [o ks] _ Hm. apply line_bounded. done.
  - intros o ks ks' Hmask Hks. unfold shown. f_equal. by apply masked.
Qed.
End editor.

Lemma lines_typed_are_read_witness :
  let lines := [(MkOpts 4 false false [], [Rune 1070; Rune 122; Rub 127; Rune 8364; Rune 128169; Rune 49; Rune 50]); (MkOpts 30 true false [], [Rune 112; Kill; Rune 113])] in
  let script := Key <$> (lines ≫= fun '(_, ks) => sent ks ++ [13; 10]) in
  let s := MkSt (with_terminal UTF8 ANSI256 (newSession (MkCaller 1 (str "::1") (str "::1") false 0 None 0) (80, 24) script None)) (MkShared demo_server []) in
  fst (map_m (fun l => readLine (fst l)) lines s) = Ok [(utf8 [1070; 8364; 128169; 49], []); (str "q", [])].
Proof.
  set (lines := [(MkOpts 4 false false [], [Rune 1070; Rune 122; Rub 127; Rune 8364; Rune 128169; Rune 49; Rune 50]); (MkOpts 30 true false [], [Rune 112; Kill; Rune 113])]).
  intros lines' script s.
  assert (enter_key [13; 10]) as He by (right; right; left; reflexivity).
  assert (Forall (fun '(o, ks) => plain o /\ Forall stroke_ok ks) lines) as Hl.
  { unfold lines. apply Forall_cons_2; [split; [by split|]|apply Forall_cons_2; [split; [by split|]|by apply Forall_nil_2]].
    all: repeat first [exact (Forall_nil_2 _) | apply Forall_cons_2; cbn [stroke_ok]; [first [exact Logic.I | right; reflexivity | unfold typed_rune; vm_compute; repeat split; congruence]|]]. }
  pose proof (lines_typed_are_read [13; 10] lines s He Hl ltac:(repeat split) eq_refl eq_refl) as Hr.
  change lines' with lines. destruct (map_m _ lines s) as [r after]. destruct Hr as [-> _]. vm_compute. reflexivity.
Defined.

(** A byte that breaks a sequence off is not noticed: what follows completes the old one.  After the first byte of "é" and
    an "a", the bytes of "é" give "a" and nothing. *)
Example broken_sequence :
  fst (fst (fst (read_go UTF8 (Key <$> [195; 97]) (MkDec escNone false []) (80, 24)))) = Some 97
  /\ (let '(_, d, _, _) := read_go UTF8 (Key <$> [195; 97]) (MkDec escNone false []) (80, 24) in
      fst (fst (fst (read_go UTF8 (Key <$> encode_rune 233) d (80, 24)))) = None).
Proof. vm_compute. done. Qed.
