(* ===== verification/Accept.v ===== *)
(** * Accepting callers and going down: [internal/bbs/server.go], [node.go], [connlimit.go] together

    [acceptLoop] runs once per listener (Telnet, SSH), with one goroutine per connection and one that hangs up on
    everybody when the server is told to stop.  They share the connection limiter, the node table and the
    wait group.  A goroutine is its program counter; an event is one goroutine doing its next critical section, and
    [run_event] is the state after it, or [None] if that goroutine cannot do that now. *)

From Stdlib Require Import Ascii String ZArith Lia.
From stdpp Require Import base tactics list gmap strings relations.
From S2P Require Import Prelude GoStrings Limits Nodes MainMenu.
Open Scope Z_scope.

(** ** The address of a caller *)

(** [net.SplitHostPort], the host of it; [None] is any error. *)
Definition SplitHost (hostport : bytes) : option bytes :=
  let i := last_index_byte hostport (ch ":") in
  let '(host, j, k) :=
    if bool_decide (take 1 hostport = str "[") then
      let e := index_byte hostport (ch "]") in
      (if (0 <=? e) && (e + 1 =? i) then Some (slice hostport 1 e) else None, 1, e + 1)
    else
      let h := slice_to hostport i in
      (if 0 <=? index_byte h (ch ":") then None else Some h, 0, 0) in
  if i <? 0 then None
  else if contains_byte (slice_from hostport j) (ch "[") || contains_byte (slice_from hostport k) (ch "]") then None
  else host.

Definition hostOf (addr : bytes) : bytes := default addr (SplitHost addr).

(** ** The goroutines *)

(** [acceptLoop]: in [Accept]; having admitted a connection, before its goroutine is started; in [wg.Wait]; returned. *)
Inductive loop_pc := LAccept | LAdmitted (nc : Z) (key : bytes) | LWaiting | LReturned.

(** The function given to [context.AfterFunc]: not started; its listener closed; hanging up on the terminals it still has to
    (all at once, so in any order). *)
Inductive after_pc := APending | AClosed | AHanging (terms : list Z).

Record loop := MkLoop { lp_pc : loop_pc; lp_after : after_pc }.

Definition listening (l : loop) : bool := match lp_after l with APending => true | _ => false end.

(** [handle]: before it holds a node; in a session on one; back (by a return or a panic), its deferred calls to do: the slot
    is to be released; only [wg.Done] is left. *)
Inductive handler_pc := HStarted | HOn (id : Z) | HBack | HReleased.

Record handler := MkHandler { h_key : bytes; h_pc : handler_pc }.

Record accepting := MkAcc {
  ac_conns : connLimiter; ac_nodes : nodeTable; ac_wg : Z; ac_cancelled : bool; ac_loops : list loop;
  ac_handlers : gmap Z handler;    (* by the number of the connection *)
  ac_open : gset Z;                (* the connections that are not closed *)
  ac_next : Z                      (* the next connection's number *)
}.

Definition set_conns (c : connLimiter) (s : accepting) : accepting :=
  MkAcc c (ac_nodes s) (ac_wg s) (ac_cancelled s) (ac_loops s) (ac_handlers s) (ac_open s) (ac_next s).
Definition set_table (t : nodeTable) (s : accepting) : accepting :=
  MkAcc (ac_conns s) t (ac_wg s) (ac_cancelled s) (ac_loops s) (ac_handlers s) (ac_open s) (ac_next s).
Definition add_wg (n : Z) (s : accepting) : accepting :=
  MkAcc (ac_conns s) (ac_nodes s) (ac_wg s + n) (ac_cancelled s) (ac_loops s) (ac_handlers s) (ac_open s) (ac_next s).
Definition set_cancelled (s : accepting) : accepting :=
  MkAcc (ac_conns s) (ac_nodes s) (ac_wg s) true (ac_loops s) (ac_handlers s) (ac_open s) (ac_next s).
Definition set_loop (i : nat) (l : loop) (s : accepting) : accepting :=
  MkAcc (ac_conns s) (ac_nodes s) (ac_wg s) (ac_cancelled s) (<[i := l]> (ac_loops s)) (ac_handlers s) (ac_open s) (ac_next s).
Definition set_handlers (f : gmap Z handler -> gmap Z handler) (s : accepting) : accepting :=
  MkAcc (ac_conns s) (ac_nodes s) (ac_wg s) (ac_cancelled s) (ac_loops s) (f (ac_handlers s)) (ac_open s) (ac_next s).
Definition set_open (f : gset Z -> gset Z) (s : accepting) : accepting :=
  MkAcc (ac_conns s) (ac_nodes s) (ac_wg s) (ac_cancelled s) (ac_loops s) (ac_handlers s) (f (ac_open s)) (ac_next s).
Definition next_number (s : accepting) : accepting :=
  MkAcc (ac_conns s) (ac_nodes s) (ac_wg s) (ac_cancelled s) (ac_loops s) (ac_handlers s) (ac_open s) (ac_next s + 1).

Definition minConnHeadroom : Z := 16.
Definition maxConnsPerIP : Z := 8.

(** [New] and the listeners' loops. *)
Definition newAccepting (maxNodes : Z) (listeners : nat) : accepting :=
  MkAcc (newConnLimiter (maxNodes + Z.max maxNodes minConnHeadroom) maxConnsPerIP) (newNodeTable maxNodes) 0 false
    (replicate listeners (MkLoop LAccept APending)) ∅ ∅ 1.

Inductive event :=
  | EAccept (i : nat) (addr : bytes)              (* [ln.Accept] returns a connection *)
  | EAcceptError (i : nat)                        (* it fails *)
  | ESpawn (i : nat)                              (* [s.wg.Add], [go] *)
  | EWaited (i : nat)                             (* [s.wg.Wait] returns, and [acceptLoop] *)
  | ECancel                                       (* [ctx] is done *)
  | ECloseListener (i : nat) | ECloseAll (i : nat) | EHangUp (i : nat) (term : Z)
  | EEnter (nc : Z) (secure : bool) (now : Z)     (* [s.nodes.acquire] in [serveCaller] *)
  | ELeave (nc : Z)                               (* [handle] returns or panics, its deferred calls done *)
  | ERelease (nc : Z) | EDone (nc : Z)            (* [s.conns.release], [s.wg.Done] *)
  | EKick (id : Z) | ENotify (user : Z) (text : bytes) | EBroadcast (text : bytes) (skip : Z)
  | EUser (id user : Z) (handle location : bytes) | EActivity (id : Z) (a : bytes) | ETake (id : Z).   (* sessions and the sysop *)

(** The other goroutines' access to the node table. *)
Definition table_event (e : event) (t : nodeTable) : option nodeTable :=
  match e with
  | ENotify user text => Some (snd (notify user text t))
  | EBroadcast text skip => Some (broadcast text skip t)
  | EUser id user handle location => Some (on_node id (setUser user handle location) t)
  | EActivity id a => Some (on_node id (setActivity a) t)
  | ETake id => Some (on_node id (fun n => snd (takeNotices n)) t)
  | _ => None
  end.

Section accept.
Context `{NetAddr}.

(** One turn of the loop of [acceptLoop], up to the start of the goroutine. *)
Definition accept_one (i : nat) (l : loop) (addr : bytes) (s : accepting) : accepting :=
  let nc := ac_next s in
  let key := limitKey (hostOf addr) in
  let '(ok, conns) := conn_acquire key (ac_conns s) in
  if ok : bool then set_loop i (MkLoop (LAdmitted nc key) (lp_after l)) (set_open (fun o => {[nc]} ∪ o) (set_conns conns (next_number s)))
  else next_number s.

Definition loop_event (e : event) (i : nat) (l : loop) (s : accepting) : option accepting :=
  match e, lp_pc l, lp_after l with
  | EAccept _ addr, LAccept, APending => Some (accept_one i l addr s)
  | EAcceptError _, LAccept, a => Some (if ac_cancelled s || negb (listening l) then set_loop i (MkLoop LWaiting a) s else s)
  | ESpawn _, LAdmitted nc key, a => Some (set_loop i (MkLoop LAccept a) (set_handlers (fun hs => <[nc := MkHandler key HStarted]> hs) (add_wg 1 s)))
  | EWaited _, LWaiting, a => if ac_wg s =? 0 then Some (set_loop i (MkLoop LReturned a) s) else None
  | ECloseListener _, p, APending => if ac_cancelled s then Some (set_loop i (MkLoop p AClosed) s) else None
  | ECloseAll _, p, AClosed => let '(terms, t) := closeAll (ac_nodes s) in Some (set_loop i (MkLoop p (AHanging terms)) (set_table t s))
  | EHangUp _ term, p, AHanging terms =>
      if bool_decide (term ∈ terms) then Some (set_loop i (MkLoop p (AHanging (filter (fun t => t <> term) terms))) (set_open (fun o => o ∖ {[term]}) s)) else None
  | _, _, _ => None
  end.

Definition handler_event (e : event) (nc : Z) (h : handler) (s : accepting) : option accepting :=
  let at_ (pc : handler_pc) := set_handlers (fun hs => <[nc := MkHandler (h_key h) pc]> hs) in
  match e, h_pc h with
  | EEnter _ secure now, HStarted =>
      match acquire nc secure now (ac_nodes s) with
      | (Ok id, t) => Some (at_ (HOn id) (set_table t s))
      | (Err _, t) => Some (at_ HBack (set_open (fun o => o ∖ {[nc]}) (set_table t s)))
      end
  | ELeave _, HStarted => Some (at_ HBack (set_open (fun o => o ∖ {[nc]}) s))
  | ELeave _, HOn id => Some (at_ HBack (set_open (fun o => o ∖ {[nc]}) (set_table (release id (ac_nodes s)) s)))
  | ERelease _, HBack => Some (at_ HReleased (set_conns (conn_release (h_key h) (ac_conns s)) s))
  | EDone _, HReleased => Some (set_handlers (fun hs => delete nc hs) (add_wg (-1) s))
  | _, _ => None
  end.

Definition run_event (e : event) (s : accepting) : option accepting :=
  match e with
  | ECancel => Some (set_cancelled s)
  | EAccept i _ | EAcceptError i | ESpawn i | EWaited i | ECloseListener i | ECloseAll i | EHangUp i _ => l ← ac_loops s !! i; loop_event e i l s
  | EEnter nc _ _ | ELeave nc | ERelease nc | EDone nc => h ← ac_handlers s !! nc; handler_event e nc h s
  | EKick id => Some (set_open (fun o => o ∖ list_to_set (snd (kick id (ac_nodes s)))) s)
  | _ => t ← table_event e (ac_nodes s); Some (set_table t s)
  end.

Definition run_events (es : list event) (s : accepting) : option accepting := foldl (fun s e => s ← s; run_event e s) (Some s) es.

Definition accept_step (s s' : accepting) : Prop := exists e, run_event e s = Some s'.
End accept.
