(* ===== verification/AcceptSpec.v ===== *)
(** * Going down: every caller is hung up on, and nothing is left

    The invariant of [Accept]'s goroutines: each slot of the connection limiter and each node belongs to one connection, and once
    the server goes down every session has been hung up on or is about to be.  So when the loops have returned, no
    session, slot or node is left; and they do return. *)

From Stdlib Require Import Ascii String ZArith Lia.
From stdpp Require Import base tactics list gmap strings relations.
From S2P Require Import Prelude GoStrings Limits Nodes MainMenu Accept Demo.
Open Scope Z_scope.

(** ** The invariant *)

Definition slot_of (h : handler) : option bytes := match h_pc h with HReleased => None | _ => Some (h_key h) end.
Definition admitted (l : loop) : option (Z * bytes) := match lp_pc l with LAdmitted nc key => Some (nc, key) | _ => None end.

(** The keys of the connections that hold a slot. *)
Definition handler_slots (hs : gmap Z handler) : list bytes := omap (fun x => slot_of (snd x)) (map_to_list hs).
Definition slots (hs : gmap Z handler) (ls : list loop) : list bytes := handler_slots hs ++ (snd <$> omap admitted ls).

(** A session holds the node whose terminal it is, and no other. *)
Definition agrees (t : nodeTable) (hs : gmap Z handler) : Prop :=
  forall id nc, nd_term <$> tnodes t !! id = Some nc <-> exists key, hs !! nc = Some (MkHandler key (HOn id)).

(** Whoever is in a session and not hung up on yet is on the list [terms]. *)
Definition listed (hs : gmap Z handler) (open : gset Z) (terms : list Z) : Prop :=
  forall nc key id, hs !! nc = Some (MkHandler key (HOn id)) -> nc ∈ open -> nc ∈ terms.

Record acc_inv (max : Z) (s : accepting) : Prop := {
  inv_slots : exists open, conn_reach (max + Z.max max minConnHeadroom) maxConnsPerIP (ac_conns s) open /\ open ≡ₚ slots (ac_handlers s) (ac_loops s);
  inv_wg : ac_wg s = Z.of_nat (size (ac_handlers s));
  inv_table : exists held, table_reach max (ac_nodes s, held);
  inv_agrees : agrees (ac_nodes s) (ac_handlers s);
  inv_hung : forall i l terms, ac_loops s !! i = Some l -> lp_after l = AHanging terms -> closing (ac_nodes s) = true /\ listed (ac_handlers s) (ac_open s) terms;
  inv_numbers : forall nc, is_Some (ac_handlers s !! nc) -> nc < ac_next s;
  inv_admitted : forall i l nc key, ac_loops s !! i = Some l -> lp_pc l = LAdmitted nc key -> nc < ac_next s /\ ac_handlers s !! nc = None;
  inv_distinct : NoDup (fst <$> omap admitted (ac_loops s));
  inv_returned : Forall (fun l => lp_pc l = LReturned) (ac_loops s) -> ac_handlers s = ∅
}.

(** ** The node table *)

Lemma table_event_facts e t t' : table_event e t = Some t' ->
  (forall id, nd_term <$> tnodes t' !! id = nd_term <$> tnodes t !! id) /\ closing t' = closing t /\ forall held, table_step (t, held) (t', held).
Proof.
  assert (forall (f : node -> node) id id', (forall n, nd_term (f n) = nd_term n) -> nd_term <$> alter f id (tnodes t) !! id' = nd_term <$> tnodes t !! id') as Ha.
  { intros f id id' Hf. destruct (decide (id = id')) as [->|]; [|by rewrite lookup_alter_ne]. rewrite lookup_alter_eq. destruct (tnodes t !! id'); cbn; by rewrite ?Hf. }
  assert (forall (f : node -> node) id', (forall n, nd_term (f n) = nd_term n) -> nd_term <$> (f <$> tnodes t) !! id' = nd_term <$> tnodes t !! id') as He.
  { intros f id' Hf. rewrite lookup_fmap. destruct (tnodes t !! id'); cbn; by rewrite ?Hf. }
  assert (forall text n, nd_term (addNotice text n) = nd_term n) as Hn by (intros text n; unfold addNotice; cbn; unfold queue_notice; by destruct (_ <? _)).
  destruct e; intros [= <-]; cbn; (split; [|split; [done|constructor]]); intros id'; first [apply Ha|apply He]; intros n; try done; by case_match.
Qed.

Lemma closeAll_terms t : fst (closeAll t) = nd_term <$> all_nodes t.
Proof. done. Qed.

Lemma acquire_facts nc secure now t r t' : acquire nc secure now t = (r, t') ->
  closing t' = closing t /\
  match r with
  | Err _ => t' = t
  | Ok id => closing t = false /\ tnodes t !! id = None /\ exists n, nd_term n = nc /\ tnodes t' = <[id := n]> (tnodes t)
  end.
Proof.
  unfold acquire. destruct (closing t) eqn:Ec; [by intros [= <- <-]|].
  pose proof (first_free_spec (tnodes t) 1 (Z.to_nat (tmax t))) as Hf. destruct (first_free _ _ _) as [id|]; intros [= <- <-]; [|done].
  destruct Hf as (_ & Hn & _). cbn. split_and!; try done. eexists. by split; [|reflexivity].
Qed.

(** ** Slots *)

Lemma handler_slots_at hs nc h : hs !! nc = Some h -> handler_slots hs ≡ₚ option_list (slot_of h) ++ handler_slots (delete nc hs).
Proof. intros Hn. unfold handler_slots. rewrite <-(map_to_list_delete hs nc h) by done. cbn. by destruct (slot_of h). Qed.

Lemma handler_slots_insert hs nc h : handler_slots (<[nc := h]> hs) ≡ₚ option_list (slot_of h) ++ handler_slots (delete nc hs).
Proof. rewrite (handler_slots_at _ nc h) by apply lookup_insert_eq. by rewrite delete_insert_eq. Qed.

Lemma handler_slots_same hs nc key pc pc' : hs !! nc = Some (MkHandler key pc) -> slot_of (MkHandler key pc') = slot_of (MkHandler key pc) ->
  handler_slots (<[nc := MkHandler key pc']> hs) ≡ₚ handler_slots hs.
Proof. intros Hn E. by rewrite handler_slots_insert, (handler_slots_at hs nc _ Hn), E. Qed.

Lemma insert_perm {A} (ls : list A) i l l' : ls !! i = Some l -> <[i := l']> ls ≡ₚ l' :: delete i ls.
Proof. intros Hl. rewrite insert_take_drop by by apply lookup_lt_Some in Hl. rewrite delete_take_drop. by rewrite Permutation_middle. Qed.

Lemma admitted_insert ls i l l' : ls !! i = Some l -> omap admitted (<[i := l']> ls) ≡ₚ option_list (admitted l') ++ omap admitted (delete i ls).
Proof. intros Hl. rewrite (insert_perm _ _ _ l' Hl). cbn. by destruct (admitted l'). Qed.

Lemma admitted_at ls i l : ls !! i = Some l -> omap admitted ls ≡ₚ option_list (admitted l) ++ omap admitted (delete i ls).
Proof. intros Hl. rewrite <-(list_insert_id ls i l Hl) at 1. by apply (admitted_insert ls i l). Qed.

Lemma admitted_same ls i l l' : ls !! i = Some l -> admitted l' = admitted l -> omap admitted (<[i := l']> ls) ≡ₚ omap admitted ls.
Proof. intros Hl E. by rewrite (admitted_insert _ _ _ _ Hl), (admitted_at _ _ _ Hl), E. Qed.

Lemma size_insert_at (hs : gmap Z handler) nc h h' : hs !! nc = Some h -> size (<[nc := h']> hs) = size hs.
Proof. intros Hn. apply map_size_insert_Some. by exists h. Qed.

(** ** Every event keeps the invariant *)

Lemma lookup_loop (ls : list loop) i j l l0 l' : ls !! i = Some l -> <[i := l']> ls !! j = Some l0 -> (j = i /\ l0 = l') \/ (j <> i /\ ls !! j = Some l0).
Proof.
  intros Hl. destruct (decide (j = i)) as [->|]; [|rewrite list_lookup_insert_ne by done; auto].
  rewrite list_lookup_insert_eq by by eapply lookup_lt_Some. intros [= ->]. by left.
Qed.

Lemma loop_at (ls : list loop) i l l' : ls !! i = Some l -> <[i := l']> ls !! i = Some l'.
Proof. intros Hl. apply list_lookup_insert_eq. by eapply lookup_lt_Some. Qed.

Lemma admitted_pc l nc key : admitted l = Some (nc, key) <-> lp_pc l = LAdmitted nc key.
Proof. unfold admitted. destruct (lp_pc l); naive_solver. Qed.

Lemma all_returned_insert (ls : list loop) i l l' : ls !! i = Some l -> Forall (fun l => lp_pc l = LReturned) (<[i := l']> ls) ->
  (lp_pc l' = LReturned -> lp_pc l = LReturned) -> Forall (fun l => lp_pc l = LReturned) ls.
Proof.
  intros Hl Hf Hp. apply Forall_lookup_2. intros j x Hj. rewrite Forall_lookup in Hf. destruct (decide (j = i)) as [->|Hne].
  - rewrite Hl in Hj. injection Hj as <-. apply Hp. by apply (Hf i), (loop_at ls i l).
  - apply (Hf j). by rewrite list_lookup_insert_ne.
Qed.

(** A loop that moves on without touching what is shared. *)
Lemma set_loop_inv max s i l l' : acc_inv max s -> ac_loops s !! i = Some l -> admitted l' = admitted l ->
  (lp_pc l' = LReturned -> lp_pc l = LReturned \/ ac_handlers s = ∅) ->
  (forall terms, lp_after l' = AHanging terms <-> lp_after l = AHanging terms) -> acc_inv max (set_loop i l' s).
Proof.
  intros [V1 V2 V3 V4 V5 V7 V8 V9 V10] Hl Ha Hr Ht. constructor; cbn; try done.
  - destruct V1 as (open & H1 & H2). exists open. split; [done|]. rewrite H2. unfold slots. by rewrite (admitted_same _ _ _ _ Hl Ha).
  - intros j x terms Hj Hx. destruct (lookup_loop _ _ _ _ _ _ Hl Hj) as [[-> ->]|[_ Hj']]; [apply (V5 i l terms Hl); by apply Ht|by eapply V5].
  - intros j x nc key Hj Hx. destruct (lookup_loop _ _ _ _ _ _ Hl Hj) as [[-> ->]|[_ Hj']]; [|by eapply V8].
    apply (V8 i l nc key Hl), admitted_pc. rewrite <-Ha. by apply admitted_pc.
  - by rewrite (admitted_same _ _ _ _ Hl Ha).
  - intros Hf. assert (lp_pc l' = LReturned) as E by (rewrite Forall_lookup in Hf; by apply (Hf i), (loop_at _ _ l)).
    destruct (Hr E) as [E'|]; [|done]. by apply V10, (all_returned_insert _ i l l').
Qed.

Lemma accept_inv max s i a addr `{NetAddr} : acc_inv max s -> ac_loops s !! i = Some (MkLoop LAccept a) -> acc_inv max (accept_one i (MkLoop LAccept a) addr s).
Proof.
  intros [V1 V2 V3 V4 V5 V7 V8 V9 V10] Hl. unfold accept_one. set (key := limitKey _). destruct V1 as (open & H1 & H2).
  pose proof (cr_acquire _ _ key _ _ H1) as Hc. destruct (conn_acquire key (ac_conns s)) as [[] conns] eqn:E; cbn [fst snd] in Hc.
  2:{ constructor; cbn; try done; [by exists open| |].
    - intros nc Hn. specialize (V7 nc Hn). lia.
    - intros j x nc k Hj Hx. destruct (V8 j x nc k Hj Hx). split; [lia|done]. }
  assert (ac_handlers s !! ac_next s = None) as Hfresh.
  { destruct (ac_handlers s !! ac_next s) as [h|] eqn:En; [|done]. assert (ac_next s < ac_next s); [apply V7; by rewrite En|lia]. }
  constructor; cbn; try done.
  - exists (key :: open). split; [done|]. rewrite H2. unfold slots. rewrite (admitted_insert _ _ _ _ Hl), (admitted_at _ _ _ Hl). cbn. by rewrite Permutation_middle.
  - intros j x terms Hj Hx. assert (closing (ac_nodes s) = true /\ listed (ac_handlers s) (ac_open s) terms) as [Hcl Hin].
    { destruct (lookup_loop _ _ _ _ _ _ Hl Hj) as [[-> ->]|[_ Hj']]; [by apply (V5 i _ terms Hl)|by eapply V5]. }
    split; [done|]. intros nc k id Hn [->%elem_of_singleton|Ho]%elem_of_union; [by rewrite Hn in Hfresh|by eapply Hin].
  - intros nc Hn. specialize (V7 nc Hn). lia.
  - intros j x nc k Hj Hx. destruct (lookup_loop _ _ _ _ _ _ Hl Hj) as [[-> ->]|[_ Hj']]; [cbn in Hx; simplify_eq; split; [lia|done]|].
    destruct (V8 j x nc k Hj' Hx). split; [lia|done].
  - rewrite (admitted_insert _ _ _ _ Hl). cbn. rewrite (admitted_at _ _ _ Hl) in V9. constructor; [|done].
    intros ([nc k] & E' & Hin)%list_elem_of_fmap. cbn in E'. subst nc.
    assert ((ac_next s, k) ∈ omap admitted (ac_loops s)) as (x & Hx & Ha)%list_elem_of_omap by by rewrite (admitted_at _ _ _ Hl).
    apply list_elem_of_lookup in Hx as [j Hj]. apply admitted_pc in Ha. destruct (V8 j x _ _ Hj Ha). lia.
  - intros Hf. exfalso. rewrite Forall_lookup in Hf. specialize (Hf i _ (loop_at _ _ _ _ Hl)). done.
Qed.

Lemma spawn_inv max s i a nc key : acc_inv max s -> ac_loops s !! i = Some (MkLoop (LAdmitted nc key) a) ->
  acc_inv max (set_loop i (MkLoop LAccept a) (set_handlers (fun hs => <[nc := MkHandler key HStarted]> hs) (add_wg 1 s))).
Proof.
  intros [V1 V2 V3 V4 V5 V7 V8 V9 V10] Hl. destruct (V8 i _ nc key Hl eq_refl) as [Hlt Hfresh].
  assert (forall nc' k id, <[nc := MkHandler key HStarted]> (ac_handlers s) !! nc' = Some (MkHandler k (HOn id)) <-> ac_handlers s !! nc' = Some (MkHandler k (HOn id))) as Hon.
  { intros nc' k id. destruct (decide (nc' = nc)) as [->|]; [rewrite lookup_insert_eq, Hfresh; by split|by rewrite lookup_insert_ne]. }
  constructor; cbn; try done.
  - destruct V1 as (open & H1 & H2). exists open. split; [done|]. rewrite H2. unfold slots.
    rewrite (admitted_insert _ _ _ _ Hl), (admitted_at _ _ _ Hl), handler_slots_insert, delete_id by done. cbn. by rewrite Permutation_middle.
  - rewrite map_size_insert_None by done. lia.
  - intros id nc'. rewrite (V4 id nc'). split; intros [k Hk]; exists k; by apply Hon.
  - intros j x terms Hj Hx. assert (closing (ac_nodes s) = true /\ listed (ac_handlers s) (ac_open s) terms) as [Hcl Hin].
    { destruct (lookup_loop _ _ _ _ _ _ Hl Hj) as [[-> ->]|[_ Hj']]; [by apply (V5 i _ terms Hl)|by eapply V5]. }
    split; [done|]. intros nc' k id Hn%Hon. by eapply Hin.
  - intros nc' [h Hn]. destruct (decide (nc' = nc)) as [->|]; [done|]. rewrite lookup_insert_ne in Hn by done. apply V7. by rewrite Hn.
  - intros j x nc' k Hj Hx. destruct (lookup_loop _ _ _ _ _ _ Hl Hj) as [[-> ->]|[Hne Hj']]; [done|]. destruct (V8 j x nc' k Hj' Hx) as [Hlt' Hn']. split; [done|].
    rewrite lookup_insert_ne; [done|]. intros ->. rewrite (admitted_at _ _ _ Hl) in V9. cbn in V9. apply NoDup_cons in V9 as [Hni _]. apply Hni.
    apply list_elem_of_fmap. exists (nc', k). split; [done|]. apply list_elem_of_omap. exists x. split; [|by apply admitted_pc].
    apply list_elem_of_lookup. destruct (decide (j < i)%nat); [exists j; by rewrite list_lookup_delete_lt|].
    exists (j - 1)%nat. rewrite list_lookup_delete_ge by lia. by replace (S (j - 1)) with j by lia.
  - rewrite (admitted_insert _ _ _ _ Hl). rewrite (admitted_at _ _ _ Hl) in V9. cbn in *. by apply NoDup_cons in V9 as [_ V9].
  - intros Hf. exfalso. rewrite Forall_lookup in Hf. specialize (Hf i _ (loop_at _ _ _ _ Hl)). done.
Qed.

Lemma closeAll_inv max s i p : acc_inv max s -> ac_loops s !! i = Some (MkLoop p AClosed) ->
  acc_inv max (set_loop i (MkLoop p (AHanging (fst (closeAll (ac_nodes s))))) (set_table (snd (closeAll (ac_nodes s))) s)).
Proof.
  intros [V1 V2 V3 V4 V5 V7 V8 V9 V10] Hl. constructor; cbn; try done.
  - destruct V1 as (open & H1 & H2). exists open. split; [done|]. rewrite H2. unfold slots. by rewrite (admitted_same _ _ _ _ Hl).
  - destruct V3 as [held V3]. exists held. eapply rtc_r; [exact V3|apply ts_close].
  - intros j x terms Hj Hx. split; [done|]. destruct (lookup_loop _ _ _ _ _ _ Hl Hj) as [[-> ->]|[_ Hj']]; [|by eapply V5].
    cbn in Hx. simplify_eq. intros nc key id Hn _. apply list_elem_of_fmap.
    pose proof (proj2 (V4 id nc) (ex_intro _ key Hn)) as H. apply fmap_Some in H as (n & Hn' & ->). exists n. split; [done|]. apply elem_all_nodes. by exists id.
  - intros j x nc key Hj Hx. destruct (lookup_loop _ _ _ _ _ _ Hl Hj) as [[-> ->]|[_ Hj']]; [by eapply (V8 i)|by eapply V8].
  - by rewrite (admitted_same _ _ _ _ Hl).
  - intros Hf. by apply V10, (all_returned_insert _ i _ _ Hl Hf).
Qed.

Lemma hangUp_inv max s i p terms term : acc_inv max s -> ac_loops s !! i = Some (MkLoop p (AHanging terms)) ->
  acc_inv max (set_loop i (MkLoop p (AHanging (filter (fun t => t <> term) terms))) (set_open (fun o => o ∖ {[term]}) s)).
Proof.
  intros [V1 V2 V3 V4 V5 V7 V8 V9 V10] Hl. constructor; cbn; try done.
  - destruct V1 as (open & H1 & H2). exists open. split; [done|]. rewrite H2. unfold slots. by rewrite (admitted_same _ _ _ _ Hl).
  - intros j x terms' Hj Hx. destruct (lookup_loop _ _ _ _ _ _ Hl Hj) as [[-> ->]|[_ Hj']].
    + destruct (V5 i _ terms Hl eq_refl) as [Hc Hin]. cbn in Hx. simplify_eq. split; [done|]. intros nc key id Hn [Ho Hne]%elem_of_difference.
      rewrite elem_of_singleton in Hne. apply list_elem_of_filter. split; [done|by eapply Hin].
    + destruct (V5 j x terms' Hj' Hx) as [Hc Hin]. split; [done|]. intros nc key id Hn [Ho _]%elem_of_difference. by eapply Hin.
  - intros j x nc key Hj Hx. destruct (lookup_loop _ _ _ _ _ _ Hl Hj) as [[-> ->]|[_ Hj']]; [by eapply (V8 i)|by eapply V8].
  - by rewrite (admitted_same _ _ _ _ Hl).
  - intros Hf. by apply V10, (all_returned_insert _ i _ _ Hl Hf).
Qed.

(** A connection's goroutine that moves on, with the table, the limiter and the open connections as it leaves them. *)
Lemma set_handler_inv max s nc key pc pc' t conns open : acc_inv max s -> ac_handlers s !! nc = Some (MkHandler key pc) ->
  let hs := <[nc := MkHandler key pc']> (ac_handlers s) in
  (exists held, conn_reach (max + Z.max max minConnHeadroom) maxConnsPerIP conns held /\ held ≡ₚ slots hs (ac_loops s)) ->
  (exists held, table_reach max (t, held)) -> agrees t hs -> closing t = closing (ac_nodes s) -> open ⊆ ac_open s ->
  (forall id, pc' = HOn id -> closing t = false) ->
  acc_inv max (MkAcc conns t (ac_wg s) (ac_cancelled s) (ac_loops s) hs open (ac_next s)).
Proof.
  intros [V1 V2 V3 V4 V5 V7 V8 V9 V10] Hn hs H1 H2 H3 Hc Ho Hp. subst hs. constructor; cbn; try done.
  - by rewrite (size_insert_at _ _ _ _ Hn).
  - intros j x terms Hj Hx. destruct (V5 j x terms Hj Hx) as [Hcl Hin]. split; [by rewrite Hc|]. intros nc' k id Hn' Hin'. destruct (decide (nc' = nc)) as [->|Hne].
    + rewrite lookup_insert_eq in Hn'. injection Hn' as -> ->. by rewrite <-Hc, (Hp id eq_refl) in Hcl.
    + rewrite lookup_insert_ne in Hn' by done. apply (Hin nc' k id Hn'). by apply Ho.
  - intros nc' Hn'. apply V7. destruct (decide (nc' = nc)) as [->|]; [by rewrite Hn|by rewrite lookup_insert_ne in Hn'].
  - intros j x nc' k Hj Hx. destruct (V8 j x nc' k Hj Hx) as [? Hf]. split; [done|]. rewrite lookup_insert_ne; [done|congruence].
  - intros Hf. specialize (V10 Hf). by rewrite V10, lookup_empty in Hn.
Qed.

Lemma slots_kept max s nc key pc pc' : acc_inv max s -> ac_handlers s !! nc = Some (MkHandler key pc) -> pc <> HReleased -> pc' <> HReleased ->
  exists held, conn_reach (max + Z.max max minConnHeadroom) maxConnsPerIP (ac_conns s) held /\ held ≡ₚ slots (<[nc := MkHandler key pc']> (ac_handlers s)) (ac_loops s).
Proof.
  intros Hi Hn Hp Hp'. destruct (inv_slots _ _ Hi) as (open & H1 & H2). exists open. split; [done|]. rewrite H2. unfold slots.
  rewrite (handler_slots_same _ _ _ _ pc' Hn); [done|]. unfold slot_of. cbn. by destruct pc, pc'.
Qed.

Lemma agrees_other t hs nc key pc pc' : agrees t hs -> hs !! nc = Some (MkHandler key pc) -> (forall id, pc <> HOn id) -> (forall id, pc' <> HOn id) ->
  agrees t (<[nc := MkHandler key pc']> hs).
Proof.
  intros Ha Hn Hp Hp' id nc'. rewrite (Ha id nc'). split; intros [k Hk]; exists k.
  - rewrite lookup_insert_ne; [done|]. intros ->. rewrite Hn in Hk. injection Hk as -> ->. by apply (Hp id).
  - rewrite lookup_insert_ne in Hk; [done|]. intros ->. rewrite lookup_insert_eq in Hk. injection Hk as -> ->. by apply (Hp' id).
Qed.

Lemma agrees_enter t hs nc key id n : agrees t hs -> hs !! nc = Some (MkHandler key HStarted) -> tnodes t !! id = None -> nd_term n = nc ->
  agrees (set_nodes (<[id := n]> (tnodes t)) t) (<[nc := MkHandler key (HOn id)]> hs).
Proof.
  intros Ha Hn Hid Ht id' nc'. cbn. destruct (decide (nc' = nc)) as [->|Hnc].
  - rewrite lookup_insert_eq. destruct (decide (id' = id)) as [->|Hne]; [rewrite lookup_insert_eq; cbn; rewrite Ht; split; [by exists key|done]|].
    rewrite lookup_insert_ne by done. rewrite (Ha id' nc), Hn. split; [by intros [? ?]|]. by intros [? [= _ ->]].
  - rewrite (lookup_insert_ne hs) by done. destruct (decide (id' = id)) as [->|Hne]; [|by rewrite lookup_insert_ne, (Ha id' nc')].
    rewrite lookup_insert_eq. cbn. rewrite <-(Ha id nc'), Hid, Ht. cbn. split; [by intros [= ->]|done].
Qed.

Lemma agrees_leave t hs nc key id : agrees t hs -> hs !! nc = Some (MkHandler key (HOn id)) -> agrees (release id t) (<[nc := MkHandler key HBack]> hs).
Proof.
  intros Ha Hn id' nc'. cbn. destruct (decide (id' = id)) as [->|Hne].
  - rewrite lookup_delete_eq. split; [done|]. intros [k Hk]. destruct (decide (nc' = nc)) as [->|]; [by rewrite lookup_insert_eq in Hk|].
    rewrite lookup_insert_ne in Hk by done. pose proof (proj2 (Ha id nc') (ex_intro _ _ Hk)) as H1. pose proof (proj2 (Ha id nc) (ex_intro _ _ Hn)) as H2.
    rewrite H1 in H2. by injection H2.
  - rewrite lookup_delete_ne by done. rewrite (Ha id' nc'). destruct (decide (nc' = nc)) as [->|]; [|by rewrite lookup_insert_ne].
    rewrite lookup_insert_eq, Hn. split; [by intros [? [= _ ?]]; congruence|by intros [? ?]].
Qed.

Lemma held_node max t hs id nc key : (exists held, table_reach max (t, held)) -> agrees t hs -> hs !! nc = Some (MkHandler key (HOn id)) ->
  exists held1 held2, table_reach max (t, held1 ++ id :: held2).
Proof.
  intros [held Hr] Ha Hn. pose proof (proj2 (Ha id nc) (ex_intro _ _ Hn)) as H. apply fmap_Some in H as (n & Hid & _).
  destruct (table_reach_inv _ _ Hr) as (_ & _ & Hh & _). destruct (list_elem_of_split held id) as (h1 & h2 & ->); [apply Hh; by rewrite Hid|]. by exists h1, h2.
Qed.

Lemma handler_event_inv max e nc h s s' : acc_inv max s -> ac_handlers s !! nc = Some h -> handler_event e nc h s = Some s' -> acc_inv max s'.
Proof.
  intros Hi Hn He. destruct h as [key pc]. unfold handler_event in He. cbn [h_key h_pc] in He.
  pose proof (inv_table _ _ Hi) as [held Ht]. pose proof (inv_agrees _ _ Hi) as Ha. destruct e, pc; try done.
  - destruct (acquire nc secure now (ac_nodes s)) as [r t] eqn:E. destruct (acquire_facts _ _ _ _ _ _ E) as [Hc Hr]. destruct r as [id|er]; simplify_eq.
    + destruct Hr as (Hcl & Hid & n & Hterm & Htn). apply (set_handler_inv _ _ _ _ _ _ _ _ _ Hi Hn); try done.
      * by apply (slots_kept max s _ _ _ _ Hi Hn).
      * exists (id :: held). eapply rtc_r; [exact Ht|by eapply ts_acquire].
      * pose proof (agrees_enter _ _ _ _ id n Ha Hn Hid Hterm) as Ha'. by rewrite <-Htn in Ha'.
      * intros _ _. cbn. by rewrite Hc.
    + apply (set_handler_inv _ _ _ _ _ _ _ _ _ Hi Hn); try done; [by apply (slots_kept max s _ _ _ _ Hi Hn)|by exists held|by eapply agrees_other|set_solver].
  - simplify_eq. apply (set_handler_inv _ _ _ _ _ _ _ _ _ Hi Hn); try done; [by apply (slots_kept max s _ _ _ _ Hi Hn)|by exists held|by eapply agrees_other|set_solver].
  - simplify_eq. destruct (held_node _ _ _ _ _ _ (inv_table _ _ Hi) Ha Hn) as (h1 & h2 & Ht').
    apply (set_handler_inv _ _ _ _ _ _ _ _ _ Hi Hn); try done; [by apply (slots_kept max s _ _ _ _ Hi Hn)| |by apply agrees_leave|set_solver].
    exists (h1 ++ h2). eapply rtc_r; [exact Ht'|apply ts_release].
  - simplify_eq. apply (set_handler_inv _ _ _ _ _ _ _ _ _ Hi Hn); try done; [|by exists held|by eapply agrees_other].
    destruct (inv_slots _ _ Hi) as (open & H1 & H2). unfold slots in H2. rewrite (handler_slots_at _ _ _ Hn) in H2. cbn in H2.
    destruct (list_elem_of_split open key) as (o1 & o2 & ->); [rewrite H2; set_solver|]. exists (o1 ++ o2). split; [by apply cr_release|].
    unfold slots. rewrite handler_slots_insert. cbn. rewrite <-Permutation_middle in H2. by apply Permutation_cons_inv in H2.
  - simplify_eq. destruct Hi as [V1 V2 V3 V4 V5 V7 V8 V9 V10]. constructor; cbn; try done.
    + destruct V1 as (open & H1 & H2). exists open. split; [done|]. rewrite H2. unfold slots. by rewrite (handler_slots_at _ _ _ Hn).
    + rewrite map_size_delete, Hn. assert (size (ac_handlers s) <> 0%nat) by (intros E%map_size_empty_inv; by rewrite E, lookup_empty in Hn). lia.
    + intros id nc'. rewrite (V4 id nc'). split; intros [k Hk]; exists k; [rewrite lookup_delete_ne; [done|]; intros ->; congruence|by apply lookup_delete_Some in Hk as [_ Hk]].
    + intros j x terms Hj Hx. destruct (V5 j x terms Hj Hx) as [Hcl Hin]. split; [done|]. intros nc' k id [_ Hk]%lookup_delete_Some. by eapply Hin.
    + intros nc' [h Hk]. apply lookup_delete_Some in Hk as [_ Hk]. apply V7. by rewrite Hk.
    + intros j x nc' k Hj Hx. destruct (V8 j x nc' k Hj Hx) as [? Hf]. split; [done|]. rewrite lookup_delete_None. by right.
    + intros Hf. by rewrite (V10 Hf), lookup_empty in Hn.
Qed.

Lemma loop_event_inv `{NetAddr} max e i l s s' : acc_inv max s -> ac_loops s !! i = Some l -> loop_event e i l s = Some s' -> acc_inv max s'.
Proof.
  intros Hi Hl He. destruct l as [p a]. unfold loop_event in He. cbn [lp_pc lp_after] in He.
  destruct e; try done; destruct p; try done; try (destruct a as [| |terms]; try done).
  all: try (case_bool_decide; simplify_eq; by apply (hangUp_inv _ _ _ _ terms)).
  all: try (injection He as <-; by apply closeAll_inv).
  all: try (destruct (ac_cancelled s); [simplify_eq|done]; apply (set_loop_inv max s i _ _ Hi Hl); cbn; auto; naive_solver).
  all: try (injection He as <-; by apply accept_inv).
  all: try (injection He as <-; case_match; [|done]; apply (set_loop_inv max s i _ _ Hi Hl); cbn; auto; naive_solver).
  all: try (injection He as <-; by apply spawn_inv).
  all: destruct (Z.eqb_spec (ac_wg s) 0) as [Hw|]; [|done]; injection He as <-; apply (set_loop_inv max s i _ _ Hi Hl); cbn; auto; try naive_solver;
    intros _; right; apply map_size_empty_inv; rewrite (inv_wg _ _ Hi) in Hw; lia.
Qed.

Lemma set_table_inv max e s t : acc_inv max s -> table_event e (ac_nodes s) = Some t -> acc_inv max (set_table t s).
Proof.
  intros [V1 V2 V3 V4 V5 V7 V8 V9 V10] Ht. destruct (table_event_facts _ _ _ Ht) as (Hn & Hc & Hs). constructor; cbn; try done.
  - destruct V3 as [held V3]. exists held. by eapply rtc_r.
  - intros id nc. by rewrite Hn.
  - intros j x terms Hj Hx. destruct (V5 j x terms Hj Hx) as [Hcl Hin]. split; [by rewrite Hc|done].
Qed.

Lemma run_event_inv `{NetAddr} max e s s' : acc_inv max s -> run_event e s = Some s' -> acc_inv max s'.
Proof.
  intros Hi He. unfold run_event in He. destruct e; try (apply bind_Some in He as (x & Hx & He)); try (by eapply loop_event_inv); try (by eapply handler_event_inv);
    try (injection He as <-; by eapply set_table_inv).
  all: injection He as <-; destruct Hi as [V1 V2 V3 V4 V5 V7 V8 V9 V10]; constructor; cbn; try done.
  intros j x terms Hj Hx. destruct (V5 j x terms Hj Hx) as [Hcl Hin]. split; [done|]. intros nc key id' Hn [Ho _]%elem_of_difference. by apply (Hin nc key id').
Qed.

Lemma omap_replicate_none {A B} (f : A -> option B) n x : f x = None -> omap f (replicate n x) = [].
Proof. intros Hf. induction n as [|n IH]; [done|]. cbn. by rewrite Hf. Qed.

Lemma new_inv max n : acc_inv max (newAccepting max n).
Proof.
  constructor; cbn; try done.
  - exists []. split; [constructor|]. unfold slots. by rewrite omap_replicate_none.
  - exists []. apply rtc_refl.
  - intros id nc. cbn. rewrite !lookup_empty. cbn. split; [done|]. by intros [? ?].
  - intros i l terms [-> _]%lookup_replicate. done.
  - intros nc [h Hn]. by rewrite lookup_empty in Hn.
  - intros i l nc key [-> _]%lookup_replicate. done.
  - rewrite omap_replicate_none by done. constructor.
Qed.

Lemma reached_acc_inv `{NetAddr} max n s : rtc accept_step (newAccepting max n) s -> acc_inv max s.
Proof. intros Hr. pose proof (new_inv max n) as Hi. induction Hr as [|x y z [e He] _ IH] in Hi |- *; [done|]. apply IH. by eapply run_event_inv. Qed.

Lemma run_events_rtc `{NetAddr} es s s' : run_events es s = Some s' -> rtc accept_step s s'.
Proof.
  unfold run_events. assert (forall es (o : option accepting), (foldl (fun s e => s ← s; run_event e s) o es = Some s') -> exists s, o = Some s /\ rtc accept_step s s') as Hf.
  { clear. induction es as [|e es IH]; intros o; cbn; [intros ->; by exists s'|].
    intros (s1 & E & Hr)%IH. apply bind_Some in E as (s0 & -> & E). exists s0. split; [done|]. eapply rtc_l; [by exists e|done]. }
  intros (x & [= <-] & Hr)%Hf. done.
Qed.

(** ** Nothing is left when the server returns *)

(** C17: When [acceptLoop] has returned for every listener, whatever came and went before and in whatever order: no connection is
    being handled, every slot and every node has been given back. *)
Theorem serve_leaves_nothing `{NetAddr} (max : Z) (listeners : nat) (s : accepting) :
  rtc accept_step (newAccepting max listeners) s -> Forall (fun l => lp_pc l = LReturned) (ac_loops s) ->
  ac_handlers s = ∅ /\ total (ac_conns s) = 0 /\ perIP (ac_conns s) = ∅ /\ tnodes (ac_nodes s) = ∅.
Proof.
  intros Hr Hf. pose proof (reached_acc_inv _ _ _ Hr) as Hi. pose proof (inv_returned _ _ Hi Hf) as Hh. split; [done|].
  destruct (inv_slots _ _ Hi) as (open & Hc & Hs). rewrite Hh in Hs.
  assert (omap admitted (ac_loops s) = []) as Ha.
  { clear -Hf. induction Hf as [|l ls Hl Hf IH]; [done|]. cbn. unfold admitted at 1. by rewrite Hl. }
  unfold slots in Hs. rewrite Ha in Hs. apply Permutation_nil_r in Hs as ->. destruct (conn_reach_inv _ _ _ _ Hc) as (_ & _ & Ht & Hp & _).
  split_and!; [done|apply map_eq; intros key; by rewrite Hp, lookup_empty|]. apply map_eq. intros id. rewrite lookup_empty.
  destruct (tnodes (ac_nodes s) !! id) as [nd|] eqn:E; [|done]. destruct (proj1 (inv_agrees _ _ Hi id (nd_term nd))) as [k Hk]; [by rewrite E|].
  by rewrite Hh, lookup_empty in Hk.
Qed.

Definition demo_addr : bytes := str "192.0.2.7:40000".

(** One caller on a board with two listeners, from the call to the end of both. *)
Definition demo_events : list event :=
  [EAccept 0 demo_addr; ESpawn 0; EEnter 1 false 5; ECancel; ECloseListener 0; ECloseAll 0; EHangUp 0 1; EAcceptError 0;
   ECloseListener 1; ECloseAll 1; EHangUp 1 1; ELeave 1; ERelease 1; EDone 1; EAcceptError 1; EWaited 1; EWaited 0].

Lemma serve_leaves_nothing_witness :
  match run_events demo_events (newAccepting 32 2) with
  | Some s => ac_handlers s = ∅ /\ total (ac_conns s) = 0 /\ perIP (ac_conns s) = ∅ /\ tnodes (ac_nodes s) = ∅
  | None => False
  end.
Proof.
  destruct (run_events demo_events (newAccepting 32 2)) as [s|] eqn:E; [|by vm_compute in E].
  apply (serve_leaves_nothing 32 2 s); [by eapply run_events_rtc|]. vm_compute in E. injection E as <-. by repeat constructor.
Defined.

(** ** Everybody is hung up on *)

(** C18: Once one listener's [AfterFunc] is done, there is no session left that it or somebody else has not hung up on: none
    slipped in between, and none gets a node from then on. *)
Theorem shutdown_hangs_up_everyone `{NetAddr} (max : Z) (listeners i : nat) (l : loop) (s : accepting) :
  rtc accept_step (newAccepting max listeners) s -> ac_loops s !! i = Some l -> lp_after l = AHanging [] ->
  (forall nc key id, ac_handlers s !! nc = Some (MkHandler key (HOn id)) -> nc ∉ ac_open s)
  /\ forall nc secure now, fst (acquire nc secure now (ac_nodes s)) = Err errShuttingDown.
Proof.
  intros Hr Hl Ha. destruct (inv_hung _ _ (reached_acc_inv _ _ _ Hr) i l [] Hl Ha) as [Hc Hin]. split.
  - intros nc key id Hn Ho. by apply (not_elem_of_nil nc), (Hin nc key id).
  - intros nc secure now. unfold acquire. by rewrite Hc.
Qed.

Lemma shutdown_hangs_up_everyone_witness :
  match run_events (take 7 demo_events) (newAccepting 32 2) with
  | Some s =>
      (exists key, ac_handlers s !! 1 = Some (MkHandler key (HOn 1)))
      /\ (forall nc key id, ac_handlers s !! nc = Some (MkHandler key (HOn id)) -> nc ∉ ac_open s)
  | None => False
  end.
Proof.
  destruct (run_events (take 7 demo_events) (newAccepting 32 2)) as [s|] eqn:E; [|by vm_compute in E].
  pose proof (run_events_rtc _ _ _ E) as Hr. vm_compute in E. injection E as <-. split; [by eexists|].
  by apply (shutdown_hangs_up_everyone 32 2 0 _ _ Hr eq_refl).
Defined.

(** ** And the server returns *)

Definition handler_weight (h : handler) : nat := match h_pc h with HStarted => 4 | HOn _ => 3 | HBack => 2 | HReleased => 1 end.
Definition loop_weight (max : Z) (l : loop) : nat :=
  match lp_pc l with LAdmitted _ _ => 7 | LAccept => 2 | LWaiting => 1 | LReturned => 0 end
  + match lp_after l with AHanging terms => length terms | _ => S (Z.to_nat max) end.
Definition handlers_work (hs : gmap Z handler) : nat := sum_list_with (fun x => handler_weight (snd x)) (map_to_list hs).
Definition loops_work (max : Z) (ls : list loop) : nat := sum_list_with (loop_weight max) ls.
Definition work_left (max : Z) (s : accepting) : nat := handlers_work (ac_handlers s) + loops_work max (ac_loops s).

(** The events that bring the end nearer: all but what sessions do to the node table. *)
Definition ends (e : event) : bool :=
  match e with ESpawn _ | EWaited _ | EAcceptError _ | EAccept _ _ | ECloseListener _ | ECloseAll _ | EHangUp _ _
  | EEnter _ _ _ | ELeave _ | ERelease _ | EDone _ => true | _ => false end.

Definition ending_step `{NetAddr} (s s' : accepting) : Prop := exists e, ends e = true /\ run_event e s = Some s'.

(** The server was told to stop, and every listener is closed. *)
Definition going_down (s : accepting) : Prop := ac_cancelled s = true /\ Forall (fun l => listening l = false) (ac_loops s).

Lemma work_delete hs nc h : hs !! nc = Some h -> handlers_work hs = (handler_weight h + handlers_work (delete nc hs))%nat.
Proof. intros Hn. unfold handlers_work. by rewrite <-(map_to_list_delete hs nc h Hn). Qed.

Lemma work_handler hs nc h : handlers_work (<[nc := h]> hs) = (handler_weight h + handlers_work (delete nc hs))%nat.
Proof. rewrite (work_delete _ nc h) by apply lookup_insert_eq. by rewrite delete_insert_eq. Qed.

Lemma work_loop max ls i l l' : ls !! i = Some l -> (loops_work max (<[i := l']> ls) + loop_weight max l = loops_work max ls + loop_weight max l')%nat.
Proof.
  intros Hl. assert (forall l', loops_work max (<[i := l']> ls) = (loop_weight max l' + loops_work max (delete i ls))%nat) as Hw.
  { intros x. unfold loops_work. by rewrite (insert_perm _ _ _ x Hl). }
  pose proof (Hw l) as E. rewrite (list_insert_id ls i l Hl) in E. rewrite (Hw l'), E. lia.
Qed.

Lemma going_down_loop s i l l' : going_down s -> ac_loops s !! i = Some l -> listening l' = false -> Forall (fun l => listening l = false) (<[i := l']> (ac_loops s)).
Proof. intros [_ Hf] Hl E. by apply Forall_insert. Qed.

Lemma nodes_bounded max t held : 0 <= max -> table_reach max (t, held) -> (length (fst (closeAll t)) <= Z.to_nat max)%nat.
Proof.
  intros Hm Hr%table_reach_inv. rewrite closeAll_terms, length_fmap, <-(length_fmap nd_id), (all_nodes_ids _ _ _ Hr).
  destruct Hr as (_ & Hnd & _ & Hb & _). rewrite <-(length_seqZ 1 max). apply submseteq_length, NoDup_submseteq; [done|].
  intros id Hid. apply elem_of_seqZ. rewrite Forall_forall in Hb. specialize (Hb id Hid). lia.
Qed.

Lemma filter_shorter (x : Z) l : x ∈ l -> (length (filter (fun t => t <> x) l) < length l)%nat.
Proof.
  induction l as [|y l IH]; [by intros ?%elem_of_nil|]. intros Hin. pose proof (length_filter (fun t => t <> x) l). rewrite filter_cons. case_decide; cbn; [|lia].
  apply elem_of_cons in Hin as [|Hin%IH]; [done|lia].
Qed.

Lemma loop_ending `{NetAddr} max e i l s s' : 0 <= max -> acc_inv max s -> going_down s -> ac_loops s !! i = Some l -> loop_event e i l s = Some s' ->
  (work_left max s' < work_left max s)%nat /\ going_down s'.
Proof.
  intros Hm Hi Hd Hl E. pose proof Hd as [Hc Hf]. pose proof (proj1 (Forall_lookup _ _) Hf i l Hl) as Hlis. destruct l as [p a].
  pose proof (fun l' Hs => conj Hc (going_down_loop s i _ l' Hd Hl Hs)) as Hgo. pose proof (fun l' => work_loop max _ i _ l' Hl) as Hw.
  unfold loop_event, listening in *. cbn [lp_pc lp_after] in *. unfold work_left, going_down.
  destruct e, p; try done; destruct a as [| |terms]; try done; rewrite ?Hc in E; cbn [orb] in E.
  all: try (destruct (ac_wg s =? 0); [|done]).
  all: try (case_bool_decide as Hin; [|done]).
  all: injection E as <-; cbn [ac_handlers ac_loops ac_cancelled set_loop set_handlers add_wg set_table set_open]; split; [|by apply Hgo].
  all: try (match goal with |- context [<[_ := ?l']> (ac_loops _)] => specialize (Hw l'); unfold loop_weight in Hw; cbn in Hw end).
  all: rewrite ?work_handler, ?delete_id by (by eapply (inv_admitted _ _ Hi)).
  all: cbn; try lia.
  all: try (pose proof (filter_shorter _ _ Hin); lia).
  all: destruct (inv_table _ _ Hi) as [held Ht]; pose proof (nodes_bounded _ _ _ Hm Ht) as Hb; cbn in Hb; lia.
Qed.

Lemma handler_ending max e nc h s s' : going_down s -> ac_handlers s !! nc = Some h -> handler_event e nc h s = Some s' ->
  (work_left max s' < work_left max s)%nat /\ going_down s'.
Proof.
  intros Hd Hn E. destruct h as [key pc]. unfold handler_event in E. cbn [h_key h_pc] in E. unfold work_left. rewrite (work_delete _ _ _ Hn).
  destruct e, pc; try done; [destruct (acquire _ _ _ _) as [[id|er] t]|..]; injection E as <-; (split; [|exact Hd]);
    cbn [ac_handlers ac_loops set_handlers set_table set_open set_conns add_wg]; rewrite ?work_handler; cbn; lia.
Qed.

Lemma ending_decreases `{NetAddr} max s s' : 0 <= max -> acc_inv max s -> going_down s -> ending_step s s' -> (work_left max s' < work_left max s)%nat /\ going_down s'.
Proof.
  intros Hm Hi Hd (e & He & E). unfold run_event in E.
  destruct e; try done; apply bind_Some in E as (x & Hx & E); first [by eapply loop_ending|by eapply handler_ending].
Qed.

Lemma ending_enabled `{NetAddr} max s : acc_inv max s -> going_down s -> (forall s', ~ ending_step s s') ->
  ac_handlers s = ∅ /\ Forall (fun l => lp_pc l = LReturned /\ lp_after l = AHanging []) (ac_loops s).
Proof.
  intros Hi [Hc Hf] Hs. assert (forall e, ends e = true -> run_event e s = None) as Hno.
  { intros e He. destruct (run_event e s) as [s'|] eqn:E; [|done]. exfalso. apply (Hs s'). by exists e. }
  assert (ac_handlers s = ∅) as Hh.
  { apply map_empty. intros nc. destruct (ac_handlers s !! nc) as [[key pc]|] eqn:Hn; [|done]. exfalso.
    pose proof (Hno (ELeave nc) eq_refl) as H1. pose proof (Hno (ERelease nc) eq_refl) as H2. pose proof (Hno (EDone nc) eq_refl) as H3.
    cbn [run_event] in *. rewrite Hn in *. by destruct pc. }
  split; [done|]. apply Forall_lookup_2. intros i [p a] Hl.
  assert (ac_wg s = 0) as Hw by by rewrite (inv_wg _ _ Hi), Hh, map_size_empty.
  pose proof (proj1 (Forall_lookup _ _) Hf i _ Hl) as Hlis.
  pose proof (Hno (EAcceptError i) eq_refl) as H1. pose proof (Hno (ESpawn i) eq_refl) as H2. pose proof (Hno (EWaited i) eq_refl) as H3.
  pose proof (Hno (ECloseAll i) eq_refl) as H4. cbn [run_event] in *. rewrite Hl in *. cbn in *. rewrite Hw in H3. cbn.
  destruct a as [| |[|t terms]]; [done|by destruct p| |].
  - split; [|done]. by destruct p.
  - pose proof (Hno (EHangUp i t) eq_refl) as H5. cbn [run_event] in H5. rewrite Hl in H5. cbn in H5. rewrite bool_decide_eq_true_2 in H5 by set_solver. by destruct p.
Qed.

(** Told to stop and its listeners closed, the server comes to an end: only so many events are left, however they interleave,
    and when no more can happen every loop has returned, every connection is finished and everybody was hung up on.  (A
    session whose caller is gone ends by [call_ends].) *)
Theorem shutdown_ends `{NetAddr} (max : Z) (listeners n : nat) (s s' : accepting) :
  0 <= max -> rtc accept_step (newAccepting max listeners) s -> going_down s -> nsteps ending_step n s s' ->
  (n <= work_left max s)%nat
  /\ ((forall s'', ~ ending_step s' s'') -> ac_handlers s' = ∅ /\ Forall (fun l => lp_pc l = LReturned /\ lp_after l = AHanging []) (ac_loops s')).
Proof.
  intros Hm Hr Hd Hn. pose proof (reached_acc_inv _ _ _ Hr) as Hi. clear Hr.
  assert (n <= work_left max s /\ acc_inv max s' /\ going_down s')%nat as (Hle & Hi' & Hd').
  { induction Hn as [s|n x y z Hx Hn IH]; [split_and!; try done; lia|]. destruct (ending_decreases _ _ _ Hm Hi Hd Hx) as [Hl Hd'].
    destruct Hx as (e & _ & Hx). destruct IH as (? & ? & ?); [done|by eapply run_event_inv|]. split_and!; try done. lia. }
  split; [done|]. by apply (ending_enabled max).
Qed.

Lemma run_events_ending `{NetAddr} es s s' : forallb ends es = true -> run_events es s = Some s' -> nsteps ending_step (length es) s s'.
Proof.
  unfold run_events. assert (forall es (o : option accepting), forallb ends es = true -> (foldl (fun s e => s ← s; run_event e s) o es = Some s') ->
    exists s, o = Some s /\ nsteps ending_step (length es) s s') as Hf.
  { clear. induction es as [|e es IH]; intros o; cbn; [intros _ ->; exists s'; split; [done|constructor]|].
    intros [He Hes]%andb_prop. intros (s1 & E & Hr)%IH; [|done]. apply bind_Some in E as (s0 & -> & E). exists s0. split; [done|]. eapply nsteps_l; [by exists e|done]. }
  intros He (x & [= <-] & Hr)%Hf; done.
Qed.

(** From the moment when both listeners are closed and the caller is still on line. *)
Definition demo_down : list event := [EAccept 0 demo_addr; ESpawn 0; EEnter 1 false 5; ECancel; ECloseListener 0; ECloseListener 1].
Definition demo_end : list event :=
  [ECloseAll 0; EHangUp 0 1; EAcceptError 0; ECloseAll 1; EHangUp 1 1; ELeave 1; ERelease 1; EDone 1; EAcceptError 1; EWaited 1; EWaited 0].

Lemma shutdown_ends_witness :
  match run_events demo_down (newAccepting 32 2) with
  | Some s => match run_events demo_end s with
              | Some s' => (length demo_end <= work_left 32 s)%nat /\ ac_handlers s' = ∅
              | None => False
              end
  | None => False
  end.
Proof.
  destruct (run_events demo_down (newAccepting 32 2)) as [s|] eqn:E; [|by vm_compute in E].
  pose proof (run_events_rtc _ _ _ E) as Hr. assert (going_down s) as Hd by (vm_compute in E; injection E as <-; by repeat constructor).
  destruct (run_events demo_end s) as [s'|] eqn:E'; [|vm_compute in E; injection E as <-; by vm_compute in E'].
  pose proof (run_events_ending demo_end _ _ eq_refl E') as Hn. split; [|vm_compute in E; injection E as <-; vm_compute in E'; by injection E' as <-].
  by apply (shutdown_ends 32 2 _ s s' ltac:(lia) Hr Hd Hn).
Defined.
