(* ===== verification/Transports.v ===== *)
(** * A connection becomes a caller: [internal/bbs/server.go], [ssh.go], [ftn.go]

    [handleTelnet] and [handleSSH] bring a connection to [serveCaller]; [RunTosser] is the goroutine that brings in FidoNet
    mail.  The SSH library is the class [SSHTransport]: the handshake asks the server's callbacks, in the order and as often as
    the client likes, and its permissions are those of an attempt whose proof it has checked. *)

From Stdlib Require Import Ascii String ZArith Lia.
From stdpp Require Import base tactics list gmap strings relations.
From S2P Require Import Prelude GoStrings GoTime GoFiles Term StoreDB StoreUsers StoreMail StoreInv StoreDemo Limits Nodes Mailer FileLink Server ServerSpec Ui Session.
From S2P Require Import SessionSpec Screens EchoMenu FilesMenu Settings DoorsMenu Terminals MainMenu CallSpec Demo.
From S2P Require Telnet FtnOutbound Toss TossSpec.
Open Scope Z_scope.

(** ** ssh.go: logging in *)

(** A way to log in that a client tries: with a key, by answering questions, with a password. *)
Inductive auth := AuthKey (k : PublicKey) | AuthKeyboard | AuthPassword (p : bytes).

(** [ssh.Permissions]: its [Extensions]. *)
Abbreviation Permissions := (gmap bytes bytes).

Definition keyUserExtension : bytes := str "boar-user-id".
Definition maxSSHAuthTries : Z := 12.

(** [ssh.NewServerConn]: the permissions the connection ends up with, or [None] when the handshake fails.  [proved a]: the
    client has shown that it can log in by [a]; for a key, by a signature.  The callbacks may be asked about anything ([handshake_rule]: what
    each answer keeps holds at the end, of all that were asked), but only one whose proof was checked counts. *)
Class SSHTransport := {
  NewServerConn : (auth -> Proc (option Permissions)) -> Proc (option Permissions);
  proved : auth -> Prop;
  handshake_rule (callback : auth -> Proc (option Permissions)) (I : list (auth * option Permissions) -> Shared -> Prop) :
    (forall asked a sh, I asked sh -> let '(r, sh') := callback a sh in I (asked ++ [(a, r)]) sh') ->
    forall sh, I [] sh -> let '(r, sh') := NewServerConn callback sh in
      exists asked, I asked sh' /\ forall p, r = Some p -> exists a, proved a /\ (a, Some p) ∈ asked
}.

(** [PublicKeyCallback], [KeyboardInteractiveCallback] and [PasswordCallback] of [ServeSSH]. *)
Definition PublicKeyCallback (key : PublicKey) : Proc (option Permissions) :=
  r ← store_get (UserBySSHKey (pk_fingerprint key));
  mret (match r with Ok u => Some {[ keyUserExtension := itoa (u_id u) ]} | Err _ => None end).

Definition ssh_open : Proc (option Permissions) := mret (Some ∅).

Definition ssh_callback (a : auth) : Proc (option Permissions) :=
  match a with AuthKey key => PublicKeyCallback key | AuthKeyboard | AuthPassword _ => ssh_open end.

(** [strconv.ParseInt] of the extension, its error ignored. *)
Definition key_user (p : Permissions) : Z := fst (atoi (default [] (p !! keyUserExtension))).

(** ** ssh.go: the session's channel *)

(** A channel the client opens: its type; whether [Accept] works; its requests until the server stops waiting for a
    shell, each with whether the answer could be sent. *)
Record new_channel := MkChannel { ch_type : bytes; ch_accepted : bool; ch_requests : list (request * bool) }.

(** One connection: its number, where it comes from, whether setting its two deadlines works, the channels, what is typed, and
    how much the client still takes. *)
Record ssh_conn := MkSSHConn {
  co_number : Z; co_ip : bytes; co_deadline : bool; co_no_deadline : bool; co_channels : list new_channel; co_script : list input; co_room : option nat
}.

(** How the connection ended. *)
Inductive ssh_end :=
  | NoHandshake                                       (* nothing was set up *)
  | NoSession                                         (* no channel became a session *)
  | NoShell (t : sshTerm)                             (* none was asked for in time; [t] is closed *)
  | NotServed                                         (* the deadline could not be lifted *)
  | Served (user : Z) (result : option (result ending unit)) (out : bytes).   (* [serveCaller] for the key's account *)

Section ssh.
Context `{UnicodeTables} `{Crypto} `{MailParser} `{FoldTables} `{BBS} `{Mailing} `{Hmac} `{Zmodem} `{SSHLib} `{DoorWorld} `{NetAddr} `{SSHWire} `{SSHTransport}.

(** The loop of [handleSSH] over the channels: how many were rejected, and the end. *)
Fixpoint serve_channels (idle : Z) (co : ssh_conn) (perms : Permissions) (chans : list new_channel) (rejected : Z) : Proc (Z * ssh_end) :=
  match chans with
  | [] => mret (rejected, NoSession)
  | nch :: chans =>
      if negb (bool_decide (ch_type nch = str "session")) then serve_channels idle co perms chans (rejected + 1)
      else if negb (ch_accepted nch) then mret (rejected, NoSession)
      else
        let t := set_userID (key_user perms) (newSSHTerm idle) in
        let '(_, ready, t) := handleRequests (ch_requests nch) false t in
        if ready =? 0 then mret (rejected, NoShell (Close t))
        else if negb (co_no_deadline co) then mret (rejected, NotServed)
        else
          (* [rejectExtraChannels] takes the rest *)
          '(r, out) ← serveCaller (co_number co) (co_ip co) true (KeyUserID t) (Some (TermType t)) (Size t) (co_script co) (co_room co);
          mret (rejected + len chans, Served (KeyUserID t) r out)
  end.

Definition handleSSH (idle : Z) (co : ssh_conn) : Proc (Z * ssh_end) :=
  if negb (co_deadline co) then mret (0, NoHandshake)
  else
    perms ← NewServerConn ssh_callback;
    match perms with
    | None => mret (0, NoHandshake)
    | Some perms => serve_channels idle co perms (co_channels co) 0
    end.

(** ** server.go: Telnet *)

(** [handleTelnet]; [None] when the negotiation cannot be sent. *)
Definition handleTelnet (tc : Telnet.Conn) (nc : Z) (ip : bytes) (script : list input) (room : option nat) : Proc (option (option (result ending unit) * bytes)) :=
  match Telnet.Negotiate tc with
  | (Err _, _) => mret None
  | (Ok _, tc) => r ← serveCaller nc ip false 0 None (Telnet.Size tc) script room; mret (Some r)
  end.
End ssh.

(** ** ssh.go: the host key *)

(** Reading and making keys: [ssh.ParsePrivateKey], and an Ed25519 key in PEM from the random bytes given. *)
Class HostKeys := { Signer : Type; ParsePrivateKey : bytes -> option Signer; marshal_new_key : bytes -> bytes }.

Definition generateHostKey `{HostKeys} (path rnd : bytes) (fs : FS) : bytes * FS := let data := marshal_new_key rnd in (data, <[path := data]> fs).

Definition LoadOrCreateHostKey `{HostKeys} (path rnd : bytes) (fs : FS) : option Signer * FS :=
  let '(data, fs) := match fs !! path with Some data => (data, fs) | None => generateHostKey path rnd fs end in (ParsePrivateKey data, fs).

(** ** ftn.go *)

Section ftn.
Context `{UnicodeTables} `{FoldTables} `{Crypto} `{FtnOutbound.ZipReader} `{Toss.Disk} `{BBS} (mtime : bytes -> Z).

(** One pass of the tosser.  The passes of the program run alone in the inbound; that sessions use the store between a pass's
    transactions is not shown here. *)
Definition tossOnce (dirs : list bytes) : Proc unit := atom (fun s =>
  let t := Toss.MkTosser cfg_Addresses (if bool_decide (cfg_Files = []) then None else Some cfg_Files) in
  let p := snd (Toss.TossAll (sv_now s) mtime t dirs (Toss.MkPass (sv_fs s) (sv_db s) Toss.no_stats (sv_now s) [])) in
  (tt, set_db (Toss.p_db p) (set_fs (Toss.p_fs p) s))).

(** [RunTosser], until [ctx] is cancelled after [ticks] ticks of its clock. *)
Definition RunTosser (inbounds : list bytes) (ticks : nat) : Proc unit :=
  let dirs := filter (fun d => d <> []) inbounds in
  if bool_decide (dirs = []) then mret tt else Nat.iter ticks (fun m => _ ← m; tossOnce dirs) (tossOnce dirs).
End ftn.

(** * Theorems *)

(** ** Whose session it is *)

Lemma handleRequest_user `{SSHWire} req started t : st_userID (snd (handleRequest req started t)) = st_userID t.
Proof.
  assert (forall cols rows t, st_userID (setSize cols rows t) = st_userID t) as Hs by (intros; unfold setSize; by destruct (_ || _)).
  unfold handleRequest. repeat case_bool_decide; try done; [destruct (unmarshal_pty _) as [[[term cols] rows]|]|destruct (unmarshal_window _) as [[cols rows]|]]; cbn; by rewrite ?Hs.
Qed.

Lemma handleRequests_user `{SSHWire} reqs started t : st_userID (snd (handleRequests reqs started t)) = st_userID t.
Proof.
  revert started t. induction reqs as [|[req replied] reqs IH]; intros started t; [done|]. cbn [handleRequests].
  pose proof (handleRequest_user req started t) as Hu. destruct (handleRequest req started t) as [[[ok closes] started'] t1]. cbn [snd] in Hu.
  destruct replied; [|done]. specialize (IH started' t1). destruct (handleRequests reqs started' t1) as [[oks m] t2]. cbn in *. congruence.
Qed.

Section ssh_login.
Context `{UnicodeTables} `{Crypto} `{MailParser} `{FoldTables} `{BBS} `{Mailing} `{Hmac} `{Zmodem} `{SSHLib} `{DoorWorld} `{NetAddr} `{SSHWire} `{SSHTransport}.

(** The server after the first [k] of the other goroutines' steps of the call: it is what the callbacks find, which change nothing. *)
Definition moment (sh : Shared) (k : nat) : Server := foldl (fun s g => g s) (srv sh) (take k (others sh)).

(** The call has come to its [j]th moment. *)
Definition at_moment (sh : Shared) (j : nat) (sh' : Shared) : Prop :=
  (j <= length (others sh))%nat /\ srv sh' = moment sh j /\ others sh' = drop j (others sh).

(** What a callback's permissions say about the way to log in: nothing, or whose key it was, at a moment before the [j]th. *)
Definition vouched (sh : Shared) (j : nat) (a : auth) (p : Permissions) : Prop :=
  p = ∅ \/ exists key k u, a = AuthKey key /\ (k <= j)%nat /\ UserBySSHKey (pk_fingerprint key) (sv_db (moment sh k)) = Ok u
                        /\ p = {[ keyUserExtension := itoa (u_id u) ]}.

Lemma next_moment sh j sh' : at_moment sh j sh' ->
  exists i, (j <= i)%nat /\ next_server sh' = moment sh i /\ at_moment sh i (MkShared (moment sh i) (tail (others sh'))).
Proof.
  intros (Hj & Es & Eo). unfold next_server. rewrite Es, Eo. destruct (drop j (others sh)) as [|g gs] eqn:Ed.
  - exists j. split_and!; [done|done|]. split_and!; [done|done|]. cbn. by rewrite Ed.
  - assert (others sh !! j = Some g) as Hg by (rewrite <-(Nat.add_0_r j), <-lookup_drop, Ed; done).
    assert (moment sh (S j) = g (moment sh j)) as Em by (unfold moment; rewrite (take_S_r _ _ g) by done; by rewrite foldl_app).
    exists (S j). split_and!; [lia|done|]. apply lookup_lt_Some in Hg. split_and!; [lia|done|]. cbn.
    by rewrite <-Nat.add_1_r, <-drop_drop, Ed.
Qed.

Lemma ssh_callback_vouched sh j a sh1 : at_moment sh j sh1 ->
  let '(r, sh2) := ssh_callback a sh1 in exists i, (j <= i)%nat /\ at_moment sh i sh2 /\ forall p, r = Some p -> vouched sh i a p.
Proof.
  intros Hj. destruct a as [key| |p]; [|exists j; split_and!; [done|done|intros ? [= <-]; by left]..].
  destruct (next_moment sh j sh1 Hj) as (i & Hi & En & Ha). unfold ssh_callback, PublicKeyCallback, store_get, atom, mbind, proc_bind.
  fold (next_server sh1). rewrite En. cbn. exists i. split_and!; [done|done|]. intros p.
  destruct (UserBySSHKey (pk_fingerprint key) (sv_db (moment sh i))) as [u|e] eqn:E; [|done]. intros [= <-]. right. by exists key, i, u.
Qed.

(** All that the callbacks were asked about is vouched for. *)
Definition asked_ok (sh : Shared) (asked : list (auth * option Permissions)) (sh' : Shared) : Prop :=
  exists j, at_moment sh j sh' /\ forall a p, (a, Some p) ∈ asked -> vouched sh j a p.

Lemma vouched_le sh j i a p : (j <= i)%nat -> vouched sh j a p -> vouched sh i a p.
Proof. intros Hi [->|(key & k & u & -> & Hk & Hu & ->)]; [by left|right]. exists key, k, u. split_and!; [done|lia|done..]. Qed.

Lemma asked_ok_step sh asked a sh1 : asked_ok sh asked sh1 -> let '(r, sh2) := ssh_callback a sh1 in asked_ok sh (asked ++ [(a, r)]) sh2.
Proof.
  intros (j & Hj & Hv). pose proof (ssh_callback_vouched sh j a sh1 Hj) as Hc. destruct (ssh_callback a sh1) as [r sh2].
  destruct Hc as (i & Hi & Ha & Hr). exists i. split; [done|]. intros b p [Hb|Hb]%elem_of_app; [by eapply vouched_le, Hv|].
  apply list_elem_of_singleton in Hb as [= -> Hp]. by apply Hr.
Qed.

Lemma serve_channels_user idle co perms chans rejected sh n user r out :
  fst (serve_channels idle co perms chans rejected sh) = (n, Served user r out) -> user = key_user perms.
Proof.
  revert rejected. induction chans as [|nch chans IH]; intros rejected; cbn [serve_channels]; [done|].
  destruct (negb (bool_decide _)); [apply IH|]. destruct (negb (ch_accepted nch)); [done|].
  pose proof (handleRequests_user (ch_requests nch) false (set_userID (key_user perms) (newSSHTerm idle))) as Hu.
  destruct (handleRequests _ _ _) as [[oks ready] t]. cbn [snd] in Hu. destruct (ready =? 0); [done|]. destruct (negb _); [done|].
  unfold mbind, proc_bind, mret, proc_ret. destruct (serveCaller _ _ _ _ _ _ _ _ sh) as [[r' out'] sh']. cbn. intros [= _ <- _ _]. exact Hu.
Qed.

(** C16: A session over SSH starts in somebody's name only if the client has proved to hold a private key for which the
    store, asked during this very handshake, named that account (whose id is an [int64]): the database asked is that of a
    moment no later than the handshake's end, as the other goroutines left it.  Any other way to log in to the SSH
    server starts a session in nobody's name, which has to log in to the board. *)
Theorem ssh_key_is_the_accounts (idle : Z) (co : ssh_conn) (sh : Shared) (n user : Z) (r : option (result ending unit)) (out : bytes) :
  fst (handleSSH idle co sh) = (n, Served user r out) ->
  let sh1 := snd (NewServerConn ssh_callback sh) in
  user = 0 \/ exists key k u, proved (AuthKey key) /\ (k <= length (others sh) - length (others sh1))%nat
    /\ UserBySSHKey (pk_fingerprint key) (sv_db (moment sh k)) = Ok u /\ (min_int <= u_id u <= max_int -> user = u_id u).
Proof.
  unfold handleSSH. destruct (co_deadline co); [|done]. cbn [negb]. unfold mbind at 1, proc_bind at 1.
  pose proof (handshake_rule ssh_callback (asked_ok sh) (asked_ok_step sh) sh) as Hh.
  destruct (NewServerConn ssh_callback sh) as [[perms|] sh1]; [|done]. destruct Hh as (asked & (j & (Hj & _ & Eo) & Hv) & Hp).
  { exists 0%nat. split; [|by intros ? ? ?%elem_of_nil]. split_and!; [lia|done|by rewrite drop_0]. }
  destruct (Hp perms eq_refl) as (a & Ha & Hq). intros ->%serve_channels_user. cbn [snd]. rewrite Eo, length_drop.
  destruct (Hv a perms Hq) as [->|(key & k & u & -> & Hk & Hu & ->)]; [by left|]. right. exists key, k, u. split_and!; [done|lia|done|].
  intros Hid. unfold key_user. rewrite lookup_singleton_eq. cbn. by rewrite atoi_itoa.
Qed.
End ssh_login.

(** Bob's key, and a client that offers it. *)
Definition bob_key : PublicKey := MkPublicKey (str "ssh-ed25519") None (str "SHA256:bob") (str "ssh-ed25519 AAAA").
#[local] Instance key_client : SSHTransport.
Proof.
  refine {| NewServerConn := fun callback => callback (AuthKey bob_key); proved := fun a => a = AuthKey bob_key |}.
  intros callback I Hc sh Hi. specialize (Hc [] (AuthKey bob_key) sh Hi). destruct (callback (AuthKey bob_key) sh) as [r sh'].
  exists [(AuthKey bob_key, r)]. split; [done|]. intros p ->. exists (AuthKey bob_key). split; [done|]. by apply list_elem_of_singleton.
Defined.

Definition key_server : Server :=
  set_db (run (AddSSHKey 200 2 (pk_fingerprint bob_key) (pk_line bob_key) (str "laptop")) (sv_db demo_server)) demo_server.

#[local] Instance demo_wire : SSHWire := { unmarshal_pty := fun p => Some (p, 100, 30); unmarshal_window := fun _ => None }.

(** Bob opens a tunnel, which he does not get, and a session, and hangs up at the first question. *)
Definition bob_call : ssh_conn :=
  MkSSHConn 1 (str "::1") true true
    [MkChannel (str "direct-tcpip") true [];
     MkChannel (str "session") true [(MkRequest (str "pty-req") (str "xterm"), true); (MkRequest (str "shell") [], true)]]
    [Hangup] None.

Lemma ssh_key_is_the_accounts_witness :
  exists r out sh, handleSSH 0 bob_call (MkShared key_server []) = ((1, Served 2 r out), sh)
    /\ (2 = 0 \/ exists key k u, proved (AuthKey key) /\ (k <= 0)%nat
          /\ UserBySSHKey (pk_fingerprint key) (sv_db key_server) = Ok u /\ (min_int <= u_id u <= max_int -> 2 = u_id u)).
Proof.
  destruct (handleSSH 0 bob_call (MkShared key_server [])) as [[n e] sh] eqn:E.
  assert (match e with Served user _ _ => n = 1 /\ user = 2 | _ => False end) as Hs.
  { change (let '(n, e) := (n, e) in match e with Served user _ _ => n = 1 /\ user = 2 | _ => False end).
    replace (n, e) with (fst (handleSSH 0 bob_call (MkShared key_server []))) by by rewrite E. vm_compute. by split. }
  destruct e as [| | | |user r out]; [exfalso; exact Hs..|]. destruct Hs as [Hn Hu]. rewrite Hn, Hu in E. exists r, out, sh. split; [rewrite Hn, Hu; reflexivity|].
  destruct (ssh_key_is_the_accounts 0 bob_call (MkShared key_server []) 1 2 r out) as [Hz|(key & k & u & Hp & Hk & Hf & Hi)];
    [rewrite E; reflexivity|left; exact Hz|right]. exists key, k, u. unfold moment in Hf. cbn [others] in Hf. rewrite take_nil in Hf. cbn in Hk.
  split_and!; [exact Hp|exact Hk|exact Hf|exact Hi].
Defined.

(** ** The host key stays *)

(** The key made on the first run is the one every later run reads: clients see the same server again. *)
Theorem host_key_stays `{HostKeys} (path rnd rnd' : bytes) (fs : FS) (k : Signer) :
  fst (LoadOrCreateHostKey path rnd fs) = Some k ->
  LoadOrCreateHostKey path rnd' (snd (LoadOrCreateHostKey path rnd fs)) = (Some k, snd (LoadOrCreateHostKey path rnd fs)).
Proof.
  unfold LoadOrCreateHostKey, generateHostKey. destruct (fs !! path) as [data|] eqn:E; cbn; [by rewrite E; cbn; intros ->|].
  rewrite lookup_insert_eq. cbn. by intros ->.
Qed.

(** ** The tosser's goroutine *)

Definition stays_reachable `{UnicodeTables} `{Crypto} `{MailParser} `{BBS} (x y : Server) : Prop :=
  reachable store_cfg (sv_db x) -> reachable store_cfg (sv_db y).

#[local] Instance stays_reachable_preorder `{UnicodeTables} `{Crypto} `{MailParser} `{BBS} : PreOrder stays_reachable.
Proof. split; unfold stays_reachable; intros ?; auto. Qed.

(** However long it runs, whatever the mailer leaves and whatever the sessions do between its passes, the database stays one that
    the store's operations reach. *)
Lemma RunTosser_keeps `{UnicodeTables} `{FoldTables} `{Crypto} `{MailParser} `{FtnOutbound.ZipReader} `{Toss.Disk} `{BBS} mtime inbounds ticks :
  ServerSpec.steps stays_reachable (RunTosser mtime inbounds ticks).
Proof.
  unfold RunTosser. case_bool_decide; [apply steps_ret; apply _|]. generalize (filter (fun d : bytes => d <> []) inbounds). intros dirs.
  assert (ServerSpec.steps stays_reachable (tossOnce mtime dirs)) as Ht.
  { apply steps_atom; [apply _|]. intros x. cbn. unfold stays_reachable, Toss.TossAll. cbn [sv_db set_db].
    set (p := Toss.MkPass _ _ _ _ _). change (sv_db x) with (Toss.p_db p).
    match goal with |- _ -> reachable _ (Toss.p_db (snd (Toss.each ?f dirs p))) => change (TossSpec.db_steps store_cfg p (snd (Toss.each f dirs p))) end.
    pose proof (TossSpec.db_steps_preorder store_cfg). apply (TossSpec.each_rel (TossSpec.db_steps store_cfg)). intros d q _. case_bool_decide; [reflexivity|].
    destruct (Toss.inbound_plan d) as [[done bad] secure]. apply TossSpec.Toss_db. }
  induction ticks as [|ticks IH]; [done|]. apply steps_bind; [apply _|done|by intros _].
Qed.
