(* ===== verification/Web.v ===== *)
(** * The sysop's web interface: [internal/web/web.go]

    A request is answered by a program of the monad [W]: a function of the table of web sessions and the shared server.
    The table is under a mutex of its own: [tab f] is one critical section of it, before which other requests may have run
    ([w_between], a list of functions that the theorems quantify over), as [atom] is for the server.  A session is an
    object of a heap, since a handler keeps its pointer while the table drops it.  A response is what the
    handler decides: the status, the redirect, the cookie, or the template and its data; executing the template is
    [html/template]'s.  The theorems are in [WebSpec]. *)

From Stdlib Require Import Ascii String ZArith Lia.
From stdpp Require Import base tactics list gmap strings.
From S2P Require Import Prelude GoStrings GoTime GoFiles Term StoreDB StoreUsers StoreBoards Limits Nodes Chat Mailer FileLink Server Ui Screens MainMenu.
Open Scope Z_scope.

(** What the handlers take from the standard library: the random bytes of [randomToken], by the number of the read; the
    order in which a [range] visits the table, which may be any; [net.SplitHostPort] (the host), [IP.IsLoopback], and
    [url.Parse] (the host). *)
Class WebWorld := {
  rand_token : Z -> bytes;
  table_range : gmap bytes nat -> list (bytes * nat);
  table_range_perm : forall m, table_range m ≡ₚ map_to_list m;
  split_host : bytes -> option bytes;
  is_loopback : bytes -> bool;
  url_host : bytes -> option bytes
}.

Definition cookieName : bytes := str "__Host-boar-sysop".
Definition idleTimeout : Z := 30 * minute_ns.
Definition absoluteTimeout : Z := 720 * minute_ns.
Definition maxSessions : Z := 64.

(** ** Sessions *)

Record websession := MkWebSession { ws_user : Z; ws_csrf : bytes; ws_flash : bytes; ws_created : Z; ws_seen : Z }.

(** The sessions there ever were, and the table by the SHA-256 of the cookie. *)
Record sessionTable := MkTable { t_heap : list websession; t_m : gmap bytes nat }.

Definition newSessionTable : sessionTable := MkTable [] ∅.

Definition with_m (m : gmap bytes nat) (t : sessionTable) : sessionTable := MkTable (t_heap t) m.
Definition with_heap (h : list websession) (t : sessionTable) : sessionTable := MkTable h (t_m t).

Definition with_seen (now : Z) (s : websession) : websession := MkWebSession (ws_user s) (ws_csrf s) (ws_flash s) (ws_created s) now.
Definition with_flash (msg : bytes) (s : websession) : websession := MkWebSession (ws_user s) (ws_csrf s) msg (ws_created s) (ws_seen s).

(** The condition under which [get] and [sweep] let a session go. *)
Definition expired (now : Z) (s : websession) : bool := (idleTimeout <? now - ws_seen s) || (absoluteTimeout <? now - ws_created s).

(** The entry at [p], where a session fulfils [P]. *)
Definition entry_is (P : websession -> bool) (h : list websession) (p : nat) : bool := match h !! p with Some s => P s | None => false end.

Definition drop_where (P : websession -> bool) (t : sessionTable) : sessionTable :=
  with_m (filter (fun kp => entry_is P (t_heap t) (snd kp) = false) (t_m t)) t.

Definition sweep_sessions (now : Z) (t : sessionTable) : sessionTable := drop_where (expired now) t.
Definition dropUser (userID : Z) (t : sessionTable) : sessionTable := drop_where (fun s => ws_user s =? userID) t.

Definition seen_at (t : sessionTable) (key : bytes) : Z :=
  match t_m t !! key with Some p => match t_heap t !! p with Some s => ws_seen s | None => 0 end | None => 0 end.

(** [hex.EncodeToString]. *)
Definition hex_bytes (s : bytes) : bytes := s ≫= (fun b => [hex_digit (b / 16); hex_digit (b mod 16)]).

Section web.
Context `{UnicodeTables} `{Crypto} `{MailParser} `{FoldTables} `{BBS} `{NetAddr} `{WebWorld}.

Definition tokenKey (token : bytes) : bytes := hex_bytes (sha256 token).
Definition randomToken : Proc bytes := fresh (fun n => b64_encode (rand_token n)).

(** The key of the session that has not been seen for longest. *)
Definition older (t : sessionTable) (oldest : bytes) (kp : bytes * nat) : bytes :=
  if bool_decide (oldest = []) || (seen_at t (fst kp) <? seen_at t oldest) then fst kp else oldest.
Definition stalest (t : sessionTable) : bytes := foldl (older t) [] (table_range (t_m t)).

Definition create (userID now : Z) (token csrf : bytes) (t : sessionTable) : sessionTable :=
  let t := sweep_sessions now t in
  let t := if maxSessions <=? Z.of_nat (size (t_m t)) then with_m (delete (stalest t) (t_m t)) t else t in
  MkTable (t_heap t ++ [MkWebSession userID csrf [] now now]) (<[tokenKey token := length (t_heap t)]> (t_m t)).

(** The session, and its address. *)
Definition get_session (token : bytes) (now : Z) (t : sessionTable) : option (nat * websession) * sessionTable :=
  match t_m t !! tokenKey token with
  | None => (None, t)
  | Some p =>
      match t_heap t !! p with
      | None => (None, t)
      | Some s =>
          if expired now s then (None, with_m (delete (tokenKey token) (t_m t)) t)
          else (Some (p, with_seen now s), with_heap (<[p := with_seen now s]> (t_heap t)) t)
      end
  end.

Definition drop_token (token : bytes) (t : sessionTable) : sessionTable := with_m (delete (tokenKey token) (t_m t)) t.

Definition setFlash (p : nat) (msg : bytes) (t : sessionTable) : sessionTable := with_heap (alter (with_flash msg) p (t_heap t)) t.
Definition takeFlash (p : nat) (t : sessionTable) : bytes * sessionTable :=
  (match t_heap t !! p with Some s => ws_flash s | None => [] end, setFlash p [] t).

(** ** Requests and responses *)

(** [rq_path] is the cleaned path, split at its slashes after the first.  [rq_form] is what [ParseForm] makes of
    the body, [None] when it cannot or when the body is longer than [maxFormBytes]. *)
Record http_request := MkReq {
  rq_method : bytes; rq_path : list bytes; rq_query : bytes -> bytes; rq_form : option (bytes -> bytes);
  rq_cookie : option bytes; rq_origin : bytes; rq_referer : bytes; rq_host : bytes; rq_realIP : bytes; rq_remote : bytes
}.

Definition clientIP (r : http_request) : bytes :=
  let host := default (rq_remote r) (split_host (rq_remote r)) in
  let real := trim_space (rq_realIP r) in
  if match ParseIP host with Some ip => is_loopback ip | None => false end && bool_decide (is_Some (ParseIP real)) then real else host.

Definition sameOrigin (r : http_request) : bool :=
  let origin := rq_origin r in
  if bool_decide (origin = []) || bool_decide (origin = str "null") then
    if bool_decide (rq_referer r = []) then bool_decide (origin = [])
    else bool_decide (url_host (rq_referer r) = Some (rq_host r))
  else bool_decide (url_host origin = Some (rq_host r)).

(** The data of each page. *)
Inductive page_data :=
  | DLogin (handle error : bytes)
  | DDashboard (nodes : list NodeInfo) (members : Z) (waiting : list UserRow) (events : list EventRow)
  | DCallers (pending : list UserRow)
  | DUsers (query : bytes) (users : list UserRow) (total : Z)
  | DUser (u : UserRow) (self : bool) (on : list NodeInfo) (events : list EventRow)
  | DEvents (kind : bytes) (events : list EventRow)
  | DBoards (boards : list BoardSummary)
  | DBoard (b : BoardRow) (posts : list (PostRow * bytes))
  | DNews (bulletins : list (BulletinRow * bytes))
  | DOneliners (lines : list (OnelinerRow * bytes))
  | DArt (screens : list (bytes * list bytes))
  | DArtView (name screen : bytes).

Record page := MkPage {
  pg_name : bytes; pg_title : bytes; pg_nav : bytes; pg_user : option UserRow; pg_csrf : bytes; pg_flash : bytes; pg_error : bool;
  pg_online : Z; pg_waiting : Z; pg_data : page_data
}.

(** What is done about the cookie: set to a token, or cleared. *)
Inductive cookie_change := SetCookie (token : bytes) | ClearCookie.

Inductive content := Redirect (to : bytes) | HttpError (code : Z) (text : bytes) | Rendered (code : Z) (p : page) | Static | Panicked.

Record response := MkResp { rs_cookie : option cookie_change; rs_content : content }.

Definition plain (c : content) : response := MkResp None c.
Definition not_found : response := plain (HttpError 404 (str "404 page not found")).

(** ** The monad *)

Record WSt := MkW { w_tab : sessionTable; w_between : list (sessionTable -> sessionTable); w_shared : Shared }.

Definition W (A : Type) : Type := WSt -> A * WSt.

#[global] Instance w_ret : MRet W := fun A a s => (a, s).
#[global] Instance w_bind : MBind W := fun A B f m s => let '(a, s) := m s in f a s.

Definition tab {A} (f : sessionTable -> A * sessionTable) : W A := fun s =>
  let before := match w_between s with [] => w_tab s | g :: _ => g (w_tab s) end in
  let '(a, t) := f before in
  (a, MkW t (tail (w_between s)) (w_shared s)).

Definition to_server {A} (p : Proc A) : W A := fun s => let '(a, sh) := p (w_shared s) in (a, MkW (w_tab s) (w_between s) sh).

Definition tab_do (f : sessionTable -> sessionTable) : W unit := tab (fun t => (tt, f t)).

(** ** What a signed-in handler gets *)

Record request := MkRequest { q_r : http_request; q_sess : nat; q_csrf : bytes; q_user : UserRow; q_ip : bytes }.

(** [PostFormValue]. *)
Definition form_value (r : http_request) (name : bytes) : bytes := match rq_form r with Some f => f name | None => [] end.

Definition is_post (r : http_request) : bool := bool_decide (rq_method r = str "POST").

Definition to_login (c : option cookie_change) : response := MkResp c (Redirect (str "/login")).

Definition signedIn (fn : request -> W response) (r : http_request) : W response :=
  match rq_cookie r with
  | None => mret (to_login None)
  | Some c =>
      now ← to_server now_;
      s ← tab (get_session c now);
      match s with
      | None => mret (to_login (Some ClearCookie))
      | Some (p, sess) =>
          u ← to_server (Sysop (ws_user sess));
          match u with
          | Err _ => _ ← tab_do (dropUser (ws_user sess)); mret (to_login (Some ClearCookie))
          | Ok u =>
              if is_post r && bool_decide (rq_form r = None) then mret (plain (HttpError 400 (str "Bad form.")))
              else if is_post r && (negb (sameOrigin r) || negb (bool_decide (form_value r (str "csrf") = ws_csrf sess))) then
                mret (plain (HttpError 403 (str "This form has expired. Go back, reload the page and try again.")))
              else fn (MkRequest r p (ws_csrf sess) u (clientIP r))
          end
      end
  end.

(** [safeBack], of pages.go: only paths of this site. *)
Definition safeBack (back fallback : bytes) : bytes := if has_prefix back (str "/") && negb (has_prefix back (str "//")) then back else fallback.

Definition done (q : request) (to msg : bytes) : W response :=
  _ ← (if bool_decide (msg = []) then mret tt else tab_do (setFlash (q_sess q) msg));
  let to := if negb (has_prefix to (str "/")) || has_prefix to (str "//") then str "/" else to in
  mret (plain (Redirect to)).

Definition failed_text (e : store_error) : bytes :=
  match e with
  | InputError msg => str "! " ++ msg
  | ErrForbidden => str "! That is not allowed (you cannot do it to your own account)."
  | ErrNotFound => str "! It no longer exists."
  | _ => str "! Something went wrong. The details are in the server log."
  end.

Definition failed (q : request) (to : bytes) (e : store_error) : W response := done q to (failed_text e).

(** ** Pages *)

(** The templates, but for the layout. *)
Definition page_names : list bytes :=
  [str "art"; str "artview"; str "board"; str "boards"; str "callers"; str "dashboard"; str "events"; str "login"; str "news"; str "oneliners";
   str "user"; str "users"].

Definition write (code : Z) (p : page) : response :=
  if bool_decide (pg_name p ∈ page_names) then plain (Rendered code p) else plain (HttpError 500 (str "No such page.")).

Definition render_login (code : Z) (handle error : bytes) : response :=
  write code (MkPage (str "login") (str "Sysop login") [] None [] [] false 0 0 (DLogin handle error)).

Definition render_page (q : request) (name title nav : bytes) (data : page_data) : W response :=
  on ← to_server nodes_online;
  flash ← tab (takeFlash (q_sess q));
  pending ← to_server (store_get PendingUsers);
  let error := has_prefix flash (str "! ") in
  mret (write 200 (MkPage name title nav (Some (q_user q)) (q_csrf q) (if error then slice_from flash 2 else flash) error
                     (len on) (len pending) data)).

Definition formatTime (t : Z) : bytes :=
  if t =? 0 then str "never"
  else let c := local t in
       pad_dec 4 (year c) ++ str "-" ++ pad_dec 2 (month c) ++ str "-" ++ pad_dec 2 (day c) ++ str " " ++ pad_dec 2 (hour c) ++ str ":" ++ pad_dec 2 (minute c).

Definition web_plural (n : Z) (word : bytes) : bytes := if n =? 1 then str "1 " ++ word else itoa n ++ str " " ++ word ++ str "s".

Definition web_ago (now t : Z) : bytes :=
  if t =? 0 then str "never"
  else
    let d := now - t in
    if d <? minute_ns then str "just now"
    else if d <? 60 * minute_ns then web_plural (d / minute_ns) (str "minute") ++ str " ago"
    else if d <? 2880 * minute_ns then web_plural (d / (60 * minute_ns)) (str "hour") ++ str " ago"
    else web_plural (d / (1440 * minute_ns)) (str "day") ++ str " ago".

(** [template.HTMLEscapeString]. *)
Definition template_escape (s : bytes) : bytes :=
  s ≫= (fun b =>
    if b =? 0 then [239; 191; 189]
    else if b =? ch "&" then str "&amp;"
    else if b =? ch "<" then str "&lt;"
    else if b =? ch ">" then str "&gt;"
    else if b =? 34 then str "&#34;"
    else if b =? 39 then str "&#39;"
    else [b]).

Definition hotkey (label : bytes) : bytes :=
  match label with
  | [] => []
  | c :: rest => str "<span class=" ++ [34] ++ str "key" ++ [34] ++ str ">" ++ template_escape [c] ++ str "</span>" ++ template_escape rest
  end.
End web.
