(* ===== verification/WebTable.v ===== *)
(** * The table of web sessions against a table without limits

    The reference keeps every session that was created and not dropped, by the key of its cookie, and looks at the times only
    when it is asked.  The code's table has a heap, sweeps, forgets what is expired, and holds 64 sessions. *)

From Stdlib Require Import Ascii String ZArith Lia.
From stdpp Require Import base tactics list gmap strings.
From S2P Require Import Prelude GoStrings GoTime GoFiles Term StoreDB Limits Nodes Mailer FileLink Server Ui Screens MainMenu Web.
Open Scope Z_scope.

Section table.
Context `{UnicodeTables} `{Crypto} `{MailParser} `{FoldTables} `{BBS} `{NetAddr} `{WebWorld}.

(** What requests do to the table; a flash goes through the pointer that a handler holds. *)
Inductive table_op := OCreate (userID : Z) (token csrf : bytes) | OGet (token : bytes) | ODrop (token : bytes) | ODropUser (userID : Z) | OFlash (p : nat) (msg : bytes).

Definition table_do (t : sessionTable) (o : Z * table_op) : sessionTable :=
  match snd o with
  | OCreate u token csrf => create u (fst o) token csrf t
  | OGet token => snd (get_session token (fst o) t)
  | ODrop token => drop_token token t
  | ODropUser u => dropUser u t
  | OFlash p msg => setFlash p msg t
  end.

(** The reference: a session lasts half an hour from its last request and twelve hours from its sign-in. *)
Definition lives (now : Z) (s : websession) : bool := (now - ws_seen s <=? 1800 * 10 ^ 9) && (now - ws_created s <=? 43200 * 10 ^ 9).

Definition ideal_get (token : bytes) (now : Z) (m : gmap bytes websession) : option websession :=
  match m !! tokenKey token with Some s => if lives now s then Some (with_seen now s) else None | None => None end.

Definition ideal_do (m : gmap bytes websession) (o : Z * table_op) : gmap bytes websession :=
  match snd o with
  | OCreate u token csrf => <[tokenKey token := MkWebSession u csrf [] (fst o) (fst o)]> m
  | OGet token => match ideal_get token (fst o) m with Some s => <[tokenKey token := s]> m | None => m end
  | ODrop token => delete (tokenKey token) m
  | ODropUser u => filter (fun ks => ws_user (snd ks) <> u) m
  | OFlash _ _ => m
  end.

(** The operations in the order of their times, from [T] to [now]. *)
Fixpoint in_order (T : Z) (ops : list (Z * table_op)) (now : Z) : Prop :=
  match ops with [] => T <= now | o :: ops => T <= fst o /\ in_order (fst o) ops now end.

Definition is_create (o : Z * table_op) : bool := match snd o with OCreate _ _ _ => true | _ => false end.

(** Two views of one session; the flash aside. *)
Definition same (s s' : websession) : Prop := ws_user s = ws_user s' /\ ws_csrf s = ws_csrf s' /\ ws_created s = ws_created s' /\ ws_seen s = ws_seen s'.

Lemma lives_expired now s : lives now s = negb (expired now s).
Proof. unfold lives, expired. by rewrite negb_orb, <-!Z.leb_antisym. Qed.

Lemma expired_same now s s' : same s s' -> expired now s = expired now s'.
Proof. intros (_ & _ & E1 & E2). unfold expired. by rewrite E1, E2. Qed.

Lemma expired_later T now s : T <= now -> expired now s = false -> expired T s = false.
Proof. unfold expired. intros Hle He. apply orb_false_iff in He as [?%Z.ltb_ge ?%Z.ltb_ge]. apply orb_false_iff. split; apply Z.ltb_ge; lia. Qed.

(** [c] sessions were created so far, the last operation was at [T]. *)
Record related (T c : Z) (t : sessionTable) (m : gmap bytes websession) : Prop := {
  rel_sound k p : t_m t !! k = Some p -> exists s s', t_heap t !! p = Some s /\ m !! k = Some s' /\ same s s';
  rel_inj k k' p : t_m t !! k = Some p -> t_m t !! k' = Some p -> k = k';
  rel_size : Z.of_nat (size (t_m t)) <= maxSessions /\ Z.of_nat (size (t_m t)) <= c;
  rel_complete k s : c <= maxSessions -> m !! k = Some s -> expired T s = false -> is_Some (t_m t !! k)
}.

Lemma related_empty T : related T 0 newSessionTable ∅.
Proof. split; cbn; [by intros|by intros|by rewrite map_size_empty|by intros]. Qed.

(** Forgetting keys. *)
Lemma related_sub T c t m f : related T c t m -> f ⊆ t_m t ->
  (c <= maxSessions -> forall k s, m !! k = Some s -> expired T s = false -> is_Some (t_m t !! k) -> is_Some (f !! k)) -> related T c (with_m f t) m.
Proof.
  intros [Hs Hi [Hb Hc] Hco] Hf Hk. split; cbn.
  - intros k p Hp. apply Hs. by eapply lookup_weaken.
  - intros k k' p Hp Hp'. eapply Hi; by eapply lookup_weaken.
  - apply map_subseteq_size in Hf. lia.
  - intros k s Hle Hm He. eapply Hk; [done..|]. by eapply Hco.
Qed.

Lemma related_later T now c t m : related T c t m -> T <= now -> related now c t m.
Proof. intros [Hs Hi Hb Hco] Hle. split; [done..|]. intros k s Hc Hm He. eapply Hco; [done..|]. by eapply expired_later. Qed.

(** *** Each operation *)

Lemma entry_spec P h p s : h !! p = Some s -> entry_is P h p = P s.
Proof. intros E. unfold entry_is. by rewrite E. Qed.

Lemma related_sweep T c t m : related T c t m -> related T c (sweep_sessions T t) m.
Proof.
  intros Hr. apply related_sub; [done|apply map_filter_subseteq|]. intros _ k s Hm He [p Hp]. exists p. apply map_lookup_filter_Some.
  split; [done|]. destruct (rel_sound _ _ _ _ Hr k p Hp) as (x & s' & E1 & E2 & Es). cbn. rewrite (entry_spec _ _ _ _ E1).
  simplify_eq. by rewrite (expired_same _ _ _ Es).
Qed.

Lemma related_delete T c t m k : related T c t m -> related T c (with_m (delete k (t_m t)) t) (delete k m).
Proof.
  intros [Hs Hi [Hb Hc] Hco]. pose proof (map_subseteq_size _ _ (delete_subseteq (t_m t) k)). split; cbn.
  - intros k' p [Hne Hp]%lookup_delete_Some. destruct (Hs k' p Hp) as (s & s' & E1 & E2 & Es). exists s, s'. by rewrite lookup_delete_ne.
  - intros k1 k2 p [_ P1]%lookup_delete_Some [_ P2]%lookup_delete_Some. by eapply Hi.
  - lia.
  - intros k' s Hle [Hne Hm]%lookup_delete_Some He. rewrite lookup_delete_ne by done. by eapply Hco.
Qed.

Lemma related_dropUser T c t m u : related T c t m -> related T c (dropUser u t) (filter (fun ks => ws_user (snd ks) <> u) m).
Proof.
  intros Hr. pose proof (map_subseteq_size _ _ (map_filter_subseteq (fun kp : bytes * nat => entry_is (fun s => ws_user s =? u) (t_heap t) (snd kp) = false) (t_m t))).
  destruct Hr as [Hs Hi [Hb Hc] Hco]. unfold dropUser, drop_where. split; cbn.
  - intros k p [Hp Hu]%map_lookup_filter_Some. destruct (Hs k p Hp) as (s & s' & E1 & E2 & Es). exists s, s'. split_and!; [done| |done].
    apply map_lookup_filter_Some. split; [done|]. cbn in *. rewrite (entry_spec _ _ _ _ E1) in Hu. apply Z.eqb_neq in Hu. destruct Es as [<- _]. done.
  - intros k1 k2 p [P1 _]%map_lookup_filter_Some [P2 _]%map_lookup_filter_Some. by eapply Hi.
  - lia.
  - intros k s Hle [Hm Hu]%map_lookup_filter_Some He. destruct (Hco k s Hle Hm He) as [p Hp]. exists p. apply map_lookup_filter_Some. split; [done|].
    destruct (Hs k p Hp) as (x & s' & E1 & E2 & Es). cbn in *. rewrite (entry_spec _ _ _ _ E1). simplify_eq. destruct Es as [-> _]. by apply Z.eqb_neq.
Qed.

(** A session changes in the heap and in the reference. *)
Lemma related_update T c t m k p s s' : related T c t m -> t_m t !! k = Some p -> same s s' ->
  related T c (with_heap (<[p := s]> (t_heap t)) t) (<[k := s']> m).
Proof.
  intros [Hs Hi Hb Hco] Hk Es. destruct (Hs k p Hk) as (x & x' & E1 & E2 & _). split; cbn; [|done|done|].
  - intros k' p' Hp. destruct (decide (k' = k)) as [->|Hne].
    + simplify_eq. exists s, s'. rewrite lookup_insert_eq. split_and!; [|done|done]. apply list_lookup_insert_eq. by eapply lookup_lt_Some.
    + destruct (Hs k' p' Hp) as (y & y' & F1 & F2 & F3). exists y, y'. rewrite lookup_insert_ne by done. split_and!; [|done|done].
      rewrite list_lookup_insert_ne; [done|]. intros ->. by destruct Hne; eapply Hi.
  - intros k' y Hle Hm He. destruct (decide (k' = k)) as [->|Hne]; [by exists p|]. rewrite lookup_insert_ne in Hm by done. by eapply Hco.
Qed.

Lemma related_flash T c t m p msg : related T c t m -> related T c (setFlash p msg t) m.
Proof.
  intros [Hs Hi Hb Hco]. split; cbn; [|done..]. intros k q Hq. destruct (Hs k q Hq) as (s & s' & E1 & E2 & Es).
  destruct (decide (q = p)) as [->|Hne].
  - exists (with_flash msg s), s'. rewrite list_lookup_alter_eq, E1. by split_and!.
  - exists s, s'. rewrite list_lookup_alter_ne by done. by split_and!.
Qed.

(** The reference may know a session that the table had to give up. *)
Lemma related_ghost T c t m k s : related T c t m -> t_m t !! k = None -> maxSessions < c -> related T c t (<[k := s]> m).
Proof.
  intros [Hs Hi Hb Hco] Hk Hc. split; [|done|done|intros; lia]. intros k' p Hp. rewrite lookup_insert_ne by congruence. by apply Hs.
Qed.

Lemma get_related now c t m token : related now c t m ->
  related now c (snd (get_session token now t)) (ideal_do m (now, OGet token))
  /\ (forall p s, fst (get_session token now t) = Some (p, s) -> exists s', ideal_get token now m = Some s' /\ same s s')
  /\ (c <= maxSessions -> fst (get_session token now t) = None -> ideal_get token now m = None).
Proof.
  intros Hr. unfold get_session, ideal_do, ideal_get. cbn [fst snd]. destruct (t_m t !! tokenKey token) as [p|] eqn:Ek.
  - destruct (rel_sound _ _ _ _ Hr _ _ Ek) as (s & s' & E1 & E2 & Es). rewrite E1, E2, lives_expired, <-(expired_same now _ _ Es).
    destruct (expired now s) eqn:Ex; cbn [fst snd negb].
    + split_and!; [|done|done]. apply related_sub; [done|apply delete_subseteq|]. intros _ k y Hm He Hy.
      rewrite lookup_delete_ne; [done|]. intros <-. simplify_eq. by rewrite (expired_same now _ _ Es), He in Ex.
    + assert (same (with_seen now s) (with_seen now s')) as Es' by (destruct Es as (? & ? & ? & ?); by split_and!).
      split_and!; [by apply related_update|by intros ? ? [= <- <-]; exists (with_seen now s')|done].
  - cbn [fst snd]. destruct (m !! tokenKey token) as [s|] eqn:Em; [|by split_and!]. rewrite lives_expired. destruct (expired now s) eqn:Ex; cbn [negb]; [by split_and!|].
    assert (maxSessions < c) as Hc by (apply Z.nle_gt; intros Hc; destruct (rel_complete _ _ _ _ Hr _ _ Hc Em Ex); congruence).
    split_and!; [by apply related_ghost|done|lia].
Qed.

Lemma older_in t o l : foldl (older t) o l ∈ o :: l.*1.
Proof.
  revert o. induction l as [|kp l IH]; intros o; cbn; [by left|]. specialize (IH (older t o kp)). apply elem_of_cons in IH as [->|Hi]; [|by do 2 right].
  unfold older. destruct (_ || _); [by right; left|by left].
Qed.

Lemma stalest_in t : t_m t <> ∅ -> is_Some (t_m t !! stalest t).
Proof.
  intros Hne. unfold stalest. pose proof (table_range_perm (t_m t)) as Hp. destruct (table_range (t_m t)) as [|kp l] eqn:El.
  - apply Permutation_nil_l in Hp. symmetry in Hp. by apply map_to_list_empty_iff in Hp.
  - cbn [foldl]. change (older t [] kp) with (fst kp). pose proof (older_in t (fst kp) l) as Hin.
    change (fst kp :: l.*1) with ((kp :: l).*1) in Hin. apply list_elem_of_fmap in Hin as ([k p] & -> & Hin).
    exists p. apply elem_of_map_to_list. by rewrite <-Hp.
Qed.

(** A new session, where there is room. *)
Lemma related_insert T c t m k s : related T c t m -> Z.of_nat (size (t_m t)) < maxSessions -> Z.of_nat (size (t_m t)) < c ->
  related T c (MkTable (t_heap t ++ [s]) (<[k := length (t_heap t)]> (t_m t))) (<[k := s]> m).
Proof.
  intros [Hs Hi Hb Hco] Hroom Hc.
  assert (forall k' p, t_m t !! k' = Some p -> (p < length (t_heap t))%nat) as Hlt.
  { intros k' p Hp. destruct (Hs k' p Hp) as (x & _ & E1 & _). by eapply lookup_lt_Some. }
  split; cbn.
  - intros k' p Hp. destruct (decide (k' = k)) as [->|Hne].
    + rewrite lookup_insert_eq in Hp. injection Hp as <-. exists s, s. rewrite lookup_insert_eq, lookup_app_r, Nat.sub_diag by lia. by split_and!.
    + rewrite lookup_insert_ne in Hp by done. rewrite lookup_insert_ne by done. destruct (Hs k' p Hp) as (x & x' & E1 & E2 & Es). exists x, x'. split_and!; [|done|done]. by apply lookup_app_l_Some.
  - intros k1 k2 p P1 P2. destruct (decide (k1 = k)) as [->|N1], (decide (k2 = k)) as [->|N2]; [done|..].
    + rewrite lookup_insert_eq in P1. rewrite lookup_insert_ne in P2 by done. simplify_eq. by apply Hlt in P2; lia.
    + rewrite lookup_insert_eq in P2. rewrite lookup_insert_ne in P1 by done. simplify_eq. by apply Hlt in P1; lia.
    + rewrite lookup_insert_ne in P1, P2 by done. by eapply Hi.
  - rewrite map_size_insert. destruct (t_m t !! k); cbn; lia.
  - intros k' y Hle Hm He. destruct (decide (k' = k)) as [->|Hne]; [rewrite lookup_insert_eq; by eexists|].
    rewrite lookup_insert_ne in Hm by done. rewrite lookup_insert_ne by done. by eapply Hco.
Qed.

Lemma create_related now c t m u token csrf : related now c t m -> related now (c + 1) (create u now token csrf t) (ideal_do m (now, OCreate u token csrf)).
Proof.
  intros Hr. apply related_sweep in Hr. unfold create, ideal_do. cbn [fst snd]. set (t1 := sweep_sessions now t) in *.
  assert (Hr' := Hr). destruct Hr' as [Hs Hi [Hb Hc] Hco].
  assert (related now (c + 1) t1 m) as Hr1 by (split; [done|done|lia|intros; eapply Hco; [lia|done..]]).
  destruct (Z.leb_spec maxSessions (Z.of_nat (size (t_m t1)))) as [Hfull|Hroom].
  - assert (t_m t1 <> ∅) as Hne by (intros E; rewrite E, map_size_empty in Hfull; done).
    destruct (stalest_in t1 Hne) as [p Hp]. assert (size (delete (stalest t1) (t_m t1)) = pred (size (t_m t1))) as Hsz by (apply map_size_delete_Some; by exists p).
    unfold maxSessions in *.
    apply (related_insert now (c + 1) (with_m (delete (stalest t1) (t_m t1)) t1)); cbn [t_m t_heap with_m]; rewrite ?Hsz; unfold maxSessions; [|lia..].
    apply related_sub; [done|apply delete_subseteq|]. intros Hc'. exfalso. unfold maxSessions in *. lia.
  - by apply related_insert; [|lia..].
Qed.

Lemma step_related T now c t m o : related T c t m -> T <= now ->
  related now (c + (if is_create (now, o) then 1 else 0)) (table_do t (now, o)) (ideal_do m (now, o)).
Proof.
  intros Hr Hle. apply (related_later _ now) in Hr; [|done]. destruct o; cbn [is_create snd]; rewrite ?Z.add_0_r.
  - by apply create_related.
  - by apply get_related.
  - by apply related_delete.
  - by apply related_dropUser.
  - by apply related_flash.
Qed.

Lemma run_related T now c t m ops : related T c t m -> in_order T ops now ->
  related now (c + len (filter (fun o => is_create o = true) ops)) (foldl table_do t ops) (foldl ideal_do m ops).
Proof.
  revert T c t m. induction ops as [|[at_ o] ops IH]; intros T c t m Hr Ho; cbn in Ho.
  - rewrite filter_nil, len_nil, Z.add_0_r. by eapply related_later.
  - destruct Ho as [Hle Ho]. apply (step_related _ at_ _ _ _ o) in Hr; [|done]. cbn [foldl]. specialize (IH _ _ _ _ Hr Ho).
    rewrite filter_cons. destruct (is_create (at_, o)) eqn:E; [rewrite decide_True, len_cons by done|rewrite decide_False by done].
    + by rewrite Z.add_assoc.
    + by rewrite Z.add_0_r in IH.
Qed.
End table.

Section theorems.
Context `{UnicodeTables} `{Crypto} `{MailParser} `{FoldTables} `{BBS} `{NetAddr} `{WebWorld}.

(** C22: A web session lives as long as it should: whatever sign-ins, requests and sign-outs came before, in the order of their times,
    the table holds at most 64 sessions; a request gets a session only when the cookie's hash is the one that a sign-in stored,
    nobody signed it or its account out since, its last request was at most half an hour ago and the sign-in at most twelve
    hours, and it gets the account and the form token of that sign-in; and unless more than 64 sessions were ever
    created, it gets its session whenever all this holds. *)
Theorem web_session_lifetime (T now : Z) (ops : list (Z * table_op)) (token : bytes) :
  in_order T ops now ->
  let t := foldl table_do newSessionTable ops in
  let m := foldl ideal_do ∅ ops in
  Z.of_nat (size (t_m t)) <= 64
  /\ (forall p s, fst (get_session token now t) = Some (p, s) -> exists s', ideal_get token now m = Some s' /\ same s s')
  /\ (len (filter (fun o => is_create o = true) ops) <= 64 -> fst (get_session token now t) = None -> ideal_get token now m = None).
Proof.
  intros Ho t m. pose proof (run_related T now 0 _ _ ops (related_empty T) Ho) as Hr. fold t m in Hr.
  destruct (get_related now _ t m token Hr) as (_ & Hs & Hn). split_and!; [apply Hr|exact Hs|exact Hn].
Qed.
End theorems.
