(* ===== verification/WebPages.v ===== *)
(** * The pages of the sysop's web interface: [internal/web/pages.go]

    The routes, and one handler per page and form.  [net/http]'s ServeMux has cleaned the path before, and answers
    GET patterns for HEAD as well. *)

From Stdlib Require Import Ascii String ZArith Lia.
From stdpp Require Import base tactics list gmap strings.
From S2P Require Import Prelude GoStrings GoTime GoFiles Term StoreDB StoreUsers StoreBoards Limits Nodes Chat Mailer FileLink Server Ui Editor Screens.
From S2P Require Import WebAnsi MainMenu Web.
Open Scope Z_scope.

Definition eventPageSize : Z := 200.
Definition dashEvents : Z := 12.
Definition onelinerLimit : Z := 100.
Definition userListLimit : Z := 1000.
Definition maxArtPreviewB : Z := 262144.

Inductive route :=
  | RStatic | RLogin | RLogout | RDashboard | RKick | RBroadcast | RCallers | RUsers | RUser (id : bytes) | RUserAction (id action : bytes)
  | REvents | RBoards | RBoard (id : bytes) | RDeleteBoard (id : bytes) | RDeletePost (id post : bytes)
  | RNews | RDeleteNews (id : bytes) | ROneliners | RDeleteOneliner (id : bytes) | RArt | RArtPreview (name : bytes).

(** The pattern that a path matches; a wildcard takes no empty segment. *)
Definition path_route (path : list bytes) : option route :=
  let named (s : bytes) (l : String.string) := bool_decide (s = str l) in
  let some (s : bytes) (r : route) := if bool_decide (s = []) then None else Some r in
  match path with
  | [p] =>
      if bool_decide (p = []) then Some RDashboard
      else if named p "login" then Some RLogin
      else if named p "logout" then Some RLogout
      else if named p "kick" then Some RKick
      else if named p "broadcast" then Some RBroadcast
      else if named p "callers" then Some RCallers
      else if named p "users" then Some RUsers
      else if named p "events" then Some REvents
      else if named p "boards" then Some RBoards
      else if named p "news" then Some RNews
      else if named p "oneliners" then Some ROneliners
      else if named p "art" then Some RArt
      else None
  | [p; a] =>
      if named p "static" then Some RStatic
      else if named p "users" then some a (RUser a)
      else if named p "boards" then some a (RBoard a)
      else if named p "art" then some a (RArtPreview a)
      else None
  | [p; a; b] =>
      if named p "static" then Some RStatic
      else if bool_decide (a = []) then None
      else if named p "users" then some b (RUserAction a b)
      else if named p "boards" && named b "delete" then Some (RDeleteBoard a)
      else if named p "news" && named b "delete" then Some (RDeleteNews a)
      else if named p "oneliners" && named b "delete" then Some (RDeleteOneliner a)
      else None
  | [p; a; b; c; d] =>
      if named p "static" then Some RStatic
      else if named p "boards" && named b "posts" && named d "delete" && negb (bool_decide (a = [])) then some c (RDeletePost a c)
      else None
  | p :: _ :: _ => if named p "static" then Some RStatic else None
  | [] => None
  end.

(** [pathID]. *)
Definition pathID (s : bytes) : option Z := let '(id, ok) := atoi s in if ok && (0 <? id) then Some id else None.

Section pages.
Context `{UnicodeTables} `{Crypto} `{MailParser} `{FoldTables} `{BBS} `{NetAddr} `{WebWorld}.

(** ** Login *)

Definition loginPage (r : http_request) : W response :=
  let form := render_login 200 [] [] in
  match rq_cookie r with
  | None => mret form
  | Some c =>
      now ← to_server now_;
      s ← tab (get_session c now);
      match s with
      | None => mret form
      | Some (_, s) =>
          u ← to_server (Sysop (ws_user s));
          mret (match u with Ok _ => plain (Redirect (str "/")) | Err _ => form end)
      end
  end.

Definition web_waitText (d : Z) : bytes := web_plural (Z.max ((d + 999999999) / 1000000000) 1) (str "second").

Definition login_message (wait : Z) (e : login_error) : bytes :=
  match e with
  | ErrLoginThrottled =>
      if 0 <? wait then str "Too many failed logins for that handle. Wait " ++ web_waitText wait ++ str " and try again."
      else str "Too many failed logins. Wait a while and try again."
  | ErrLoginFailed => str "Login failed. Only sysops can sign in here."
  | ErrStore _ => str "Login is not working right now. The details are in the server log."
  end.

Definition loginSubmit (r : http_request) : W response :=
  if bool_decide (rq_form r = None) || negb (sameOrigin r) then mret (plain (HttpError 400 (str "Bad form.")))
  else
    let handle := trim_space (form_value r (str "handle")) in
    let ip := clientIP r in
    x ← to_server (SysopLogin handle (form_value r (str "password")) ip (limitKey ip));
    match x with
    | inr (wait, e) => mret (render_login 401 handle (login_message wait e))
    | inl u =>
        now ← to_server now_;
        token ← to_server randomToken;
        csrf ← to_server randomToken;
        _ ← tab_do (create (u_id u) now token csrf);
        mret (MkResp (Some (SetCookie token)) (Redirect (str "/")))
    end.

Definition logout (q : request) : W response :=
  _ ← match rq_cookie (q_r q) with Some c => tab_do (drop_token c) | None => mret tt end;
  mret (to_login (Some ClearCookie)).

(** ** Dashboard *)

Definition dashboard (q : request) : W response :=
  on ← to_server nodes_online;
  members ← to_server (store_get UserCount);
  waiting ← to_server (store_get PendingUsers);
  events ← to_server (store_get (Events [] dashEvents));
  render_page q (str "dashboard") (str "Dashboard") (str "dashboard") (DDashboard on members waiting events).

Definition web_kick (q : request) : W response :=
  let '(id, ok) := atoi (form_value (q_r q) (str "node")) in
  kicked ← (if ok then to_server (KickNode (q_user q) (q_ip q) id) else mret false);
  if kicked : bool then done q (str "/") (str "Node " ++ itoa id ++ str " disconnected.")
  else done q (str "/") (str "! That node is not connected any more.").

(** [h.failed] on an error, [h.done] otherwise. *)
Definition after_op (q : request) (back : bytes) (r : result store_error unit) (ok : W response) : W response :=
  match r with Err e => failed q back e | Ok _ => ok end.

Definition web_broadcast (q : request) : W response :=
  r ← to_server (Broadcast (q_user q) (q_ip q) (form_value (q_r q) (str "text")));
  after_op q (str "/") r (done q (str "/") (str "Sent to everyone online.")).

(** ** Callers and users *)

Definition callers (q : request) : W response :=
  pending ← to_server (store_get PendingUsers);
  render_page q (str "callers") (str "New callers") (str "callers") (DCallers pending).

Definition user_matches (needle : bytes) (u : UserRow) : bool :=
  bool_decide (needle = []) || contains_str (to_lower (u_handle u)) needle || contains_str (to_lower (u_location u)) needle.

Definition web_users (q : request) : W response :=
  all_ ← to_server (store_get (ListUsers userListLimit));
  let query := trim_space (rq_query (q_r q) (str "q")) in
  let needle := to_lower query in
  render_page q (str "users") (str "Users") (str "users") (DUsers query (filter (fun u => user_matches needle u = true) all_) (len all_)).

Definition about_user (u : UserRow) (e : EventRow) : bool :=
  (e_user e =? u_id u) || EqualFold (e_handle e) (u_handle u) || contains_str (e_detail e) (u_handle u).

Definition web_user (q : request) (id : bytes) : W response :=
  match pathID id with
  | None => mret not_found
  | Some id =>
      r ← to_server (store_get (UserByID id));
      match r with
      | Err e => failed q (str "/users") e
      | Ok u =>
          on ← to_server nodes_online;
          events ← to_server (store_get (Events [] eventPageSize));
          render_page q (str "user") (u_handle u) (str "users")
            (DUser u (u_id u =? u_id (q_user q)) (filter (fun n => ni_user n = u_id u) on) (take 10 (filter (fun e => about_user u e = true) events)))
      end
  end.

(** The forms of [userAction]. *)
Inductive user_action := AApprove | ALock | AUnlock | APromote | ADemote | APassword | AMail | ADelete.

Definition action_of (a : bytes) : option user_action :=
  let named (l : String.string) := bool_decide (a = str l) in
  if named "approve" then Some AApprove
  else if named "lock" then Some ALock
  else if named "unlock" then Some AUnlock
  else if named "promote" then Some APromote
  else if named "demote" then Some ADemote
  else if named "password" then Some APassword
  else if named "mail" then Some AMail
  else if named "delete" then Some ADelete
  else None.

(** What the form of an action needs before it is tried. *)
Definition action_refused (a : user_action) (f : bytes -> bytes) (u : UserRow) : option bytes :=
  match a with
  | APassword => if bool_decide (f (str "password") = f (str "confirm")) then None else Some (str "! The two passwords are different.")
  | ADelete => if bool_decide (f (str "confirm") = u_handle u) then None else Some (str "! Not deleted: type the handle exactly to confirm.")
  | _ => None
  end.

Definition action_do (a : user_action) (f : bytes -> bytes) (actor : UserRow) (ip : bytes) (id : Z) : Proc (result store_error unit) :=
  match a with
  | AApprove => ApproveUser actor ip id
  | ALock => web_SetLocked actor ip id true
  | AUnlock => web_SetLocked actor ip id false
  | APromote => web_SetSysop actor ip id true
  | ADemote => web_SetSysop actor ip id false
  | APassword => web_ResetPassword actor ip id (f (str "password"))
  | AMail => SendMail actor ip id (f (str "subject")) (f (str "body"))
  | ADelete => web_DeleteUser actor ip id
  end.

(** Where the sysop goes afterwards, and the message there. *)
Definition action_done (a : user_action) (f : bytes -> bytes) (u : UserRow) (back : bytes) : bytes * bytes :=
  match a with
  | AApprove => (safeBack (f (str "back")) back, u_handle u ++ str " approved.")
  | APassword => (back, str "Password changed. Tell " ++ u_handle u ++ str " the new one yourself; it is not sent anywhere.")
  | AMail => (back, str "Mail sent to " ++ u_handle u ++ str ".")
  | ADelete => (safeBack (f (str "back")) (str "/users"), u_handle u ++ str " deleted.")
  | _ => (back, str "Done.")
  end.

Definition userAction (q : request) (id action : bytes) : W response :=
  match pathID id with
  | None => mret not_found
  | Some id =>
      let back := str "/users/" ++ itoa id in
      let f := form_value (q_r q) in
      r ← to_server (store_get (UserByID id));
      match r with
      | Err e => failed q (str "/users") e
      | Ok u =>
          match action_of action with
          | None => mret not_found
          | Some a =>
              match action_refused a f u with
              | Some msg => done q back msg
              | None =>
                  r ← to_server (action_do a f (q_user q) (q_ip q) id);
                  match r with
                  | Err e => failed q back e
                  | Ok _ =>
                      _ ← match a with ADemote | ADelete => tab_do (dropUser id) | _ => mret tt end;
                      let '(to, msg) := action_done a f u back in done q to msg
                  end
              end
          end
      end
  end.

(** ** The event log *)

Definition event_kinds : list bytes := [EventLogin; EventLoginFailed; EventLocked; EventSignup; EventSysop].

Definition web_events (q : request) : W response :=
  let kind := rq_query (q_r q) (str "kind") in
  let kind := if bool_decide (kind ∈ event_kinds) then kind else [] in
  events ← to_server (store_get (Events kind eventPageSize));
  render_page q (str "events") (str "Event log") (str "events") (DEvents kind events).

(** ** Boards *)

Definition web_boards (q : request) : W response :=
  boards ← to_server (store_get (Boards (u_id (q_user q))));
  render_page q (str "boards") (str "Message boards") (str "boards") (DBoards boards).

Definition createBoard (q : request) : W response :=
  let f := form_value (q_r q) in
  r ← to_server (web_CreateBoard (q_user q) (q_ip q) (f (str "name")) (f (str "description")) (bool_decide (f (str "sysop_only") = str "on")));
  after_op q (str "/boards") r (done q (str "/boards") (str "Board created.")).

(** [handles] and [nameOf]. *)
Definition web_handles : W (gmap Z bytes) :=
  us ← to_server (store_get Users); mret (foldl (fun m u => <[u_id u := u_handle u]> m) ∅ us).
Definition nameOf (names : gmap Z bytes) (id : Z) : bytes := default (str "(deleted)") (names !! id).

Definition web_board (q : request) (id : bytes) : W response :=
  match pathID id with
  | None => mret not_found
  | Some id =>
      r ← to_server (store_get (Board id));
      match r with
      | Err e => failed q (str "/boards") e
      | Ok b =>
          posts ← to_server (store_get (Posts id));
          names ← web_handles;
          render_page q (str "board") (b_name b) (str "boards") (DBoard b ((fun p => (p, nameOf names (p_author p))) <$> reverse posts))
      end
  end.

Definition web_deleteBoard (q : request) (id : bytes) : W response :=
  match pathID id with
  | None => mret not_found
  | Some id =>
      r ← to_server (store_get (Board id));
      match r with
      | Err e => failed q (str "/boards") e
      | Ok b =>
          let back := str "/boards/" ++ itoa id in
          if negb (bool_decide (form_value (q_r q) (str "confirm") = b_name b)) then
            done q back (str "! Not deleted: type the board name exactly to confirm.")
          else
            r ← to_server (web_DeleteBoard (q_user q) (q_ip q) id);
            after_op q back r (done q (str "/boards") (b_name b ++ str " deleted."))
      end
  end.

Definition web_deletePost (q : request) (id post : bytes) : W response :=
  match pathID id, pathID post with
  | Some boardID, Some postID =>
      let back := str "/boards/" ++ itoa boardID in
      r ← to_server (store_get (Board boardID));
      match r with
      | Err e => failed q (str "/boards") e
      | Ok b =>
          posts ← to_server (store_get (Posts boardID));
          match List.find (fun p => p_id p =? postID) posts with
          | None => failed q back ErrNotFound
          | Some p =>
              r ← to_server (web_DeletePost (q_user q) (q_ip q) (b_name b) p);
              after_op q back r (done q back (str "Post deleted."))
          end
      end
  | _, _ => mret not_found
  end.

(** ** News and the wall *)

Definition web_news (q : request) : W response :=
  bs ← to_server (store_get Bulletins);
  names ← web_handles;
  render_page q (str "news") (str "News bulletins") (str "news") (DNews ((fun b => (b, nameOf names (bu_author b))) <$> bs)).

Definition addNews (q : request) : W response :=
  let f := form_value (q_r q) in
  r ← to_server (web_AddBulletin (q_user q) (q_ip q) (f (str "title")) (f (str "body")));
  after_op q (str "/news") r (done q (str "/news") (str "Bulletin posted, and everyone online was told.")).

Definition deleteNews (q : request) (id : bytes) : W response :=
  match pathID id with
  | None => mret not_found
  | Some id =>
      bs ← to_server (store_get Bulletins);
      match List.find (fun b => bu_id b =? id) bs with
      | None => failed q (str "/news") ErrNotFound
      | Some b =>
          r ← to_server (web_DeleteBulletin (q_user q) (q_ip q) b);
          after_op q (str "/news") r (done q (str "/news") (str "Bulletin deleted."))
      end
  end.

Definition web_oneliners (q : request) : W response :=
  lines ← to_server (store_get (Oneliners onelinerLimit));
  render_page q (str "oneliners") (str "Oneliner wall") (str "oneliners") (DOneliners lines).

Definition deleteOneliner (q : request) (id : bytes) : W response :=
  match pathID id with
  | None => mret not_found
  | Some id =>
      lines ← to_server (store_get (Oneliners onelinerLimit));
      match List.find (fun o => o_id (fst o) =? id) lines with
      | None => failed q (str "/oneliners") ErrNotFound
      | Some o =>
          r ← to_server (web_DeleteOneliner (q_user q) (q_ip q) o);
          after_op q (str "/oneliners") r (done q (str "/oneliners") (str "Line removed."))
      end
  end.

(** ** Custom art *)

(** [ArtScreens] and [ArtFile], of [internal/bbs/admin.go]. *)
Definition ArtScreens (fs : FS) : list (bytes * list bytes) :=
  if bool_decide (cfg_ArtDir = []) then [] else (fun screen => (screen, filepath_Base <$> artFiles fs screen)) <$> customScreens.

Definition ArtFile (fs : FS) (name : bytes) : option bytes :=
  if existsb (fun '(_, files) => bool_decide (name ∈ files)) (ArtScreens fs) then Some (filepath_Join [cfg_ArtDir; name]) else None.

Definition art (q : request) : W response :=
  screens ← to_server (atom (fun s => (ArtScreens (sv_fs s), s)));
  render_page q (str "art") (str "Custom art") (str "art") (DArt screens).

Definition artPreview (q : request) (name : bytes) : W response :=
  path ← to_server (atom (fun s => (ArtFile (sv_fs s) name, s)));
  match path with
  | None => mret not_found
  | Some path =>
      file ← to_server (atom (fun s => (sv_fs s !! path, s)));
      match file with
      | None => done q (str "/art") (str "! That file is missing or too large to preview.")
      | Some data =>
          if maxArtPreviewB <? len data then done q (str "/art") (str "! That file is missing or too large to preview.")
          else
            match (if has_suffix name (str ".ans") then renderANS data else renderPipeText data) with
            | None => mret (plain Panicked)
            | Some screen => render_page q (str "artview") name (str "art") (DArtView name screen)
            end
      end
  end.

(** ** The server *)

(** The handlers of a pattern, for GET and for POST. *)
Definition handlers (rt : route) : option (http_request -> W response) * option (http_request -> W response) :=
  match rt with
  | RStatic => (Some (fun _ => mret (plain Static)), None)
  | RLogin => (Some loginPage, Some loginSubmit)
  | RLogout => (None, Some (signedIn logout))
  | RDashboard => (Some (signedIn dashboard), None)
  | RKick => (None, Some (signedIn web_kick))
  | RBroadcast => (None, Some (signedIn web_broadcast))
  | RCallers => (Some (signedIn callers), None)
  | RUsers => (Some (signedIn web_users), None)
  | RUser id => (Some (signedIn (fun q => web_user q id)), None)
  | RUserAction id a => (None, Some (signedIn (fun q => userAction q id a)))
  | REvents => (Some (signedIn web_events), None)
  | RBoards => (Some (signedIn web_boards), Some (signedIn createBoard))
  | RBoard id => (Some (signedIn (fun q => web_board q id)), None)
  | RDeleteBoard id => (None, Some (signedIn (fun q => web_deleteBoard q id)))
  | RDeletePost id post => (None, Some (signedIn (fun q => web_deletePost q id post)))
  | RNews => (Some (signedIn web_news), Some (signedIn addNews))
  | RDeleteNews id => (None, Some (signedIn (fun q => deleteNews q id)))
  | ROneliners => (Some (signedIn web_oneliners), None)
  | RDeleteOneliner id => (None, Some (signedIn (fun q => deleteOneliner q id)))
  | RArt => (Some (signedIn art), None)
  | RArtPreview name => (Some (signedIn (fun q => artPreview q name)), None)
  end.

Definition ServeHTTP (r : http_request) : W response :=
  match path_route (rq_path r) with
  | None => mret not_found
  | Some rt =>
      let '(on_get, on_post) := handlers rt in
      let reads := bool_decide (rq_method r = str "GET") || bool_decide (rq_method r = str "HEAD") in
      match (if reads then on_get else if is_post r then on_post else None) with
      | Some h => h r
      | None => mret (plain (HttpError 405 (str "Method Not Allowed")))
      end
  end.
End pages.
