(* ===== verification/WebSpec.v ===== *)
(** * What the web interface guarantees

    [wsteps R m]: the handler [m] moves the server by [R] only, whatever other goroutines do by [R] in between.  A
    handler that only looks does so for every [R].  The table of sessions is compared with a table that has no heap, no
    sweeping and no limit. *)

From Stdlib Require Import Ascii String ZArith Lia Sorted.
From stdpp Require Import base tactics list gmap strings relations.
From S2P Require Import Prelude GoStrings GoTime GoFiles Term StoreDB StoreUsers StoreMail StoreBoards StoreInv StoreDemo StoreOk Limits Nodes Mailer FileLink Server ServerSpec.
From S2P Require Import Ui Session Editor SessionSpec Screens MainMenu MenuSpec CallSpec Demo Web WebTable WebPages.
From S2P Require Chat.
Open Scope Z_scope.

(** ** Handlers *)

Section logic.
Context (R : Server -> Server -> Prop) `{!PreOrder R}.

Definition wsteps {A} (m : W A) : Prop := forall s,
  rely R (w_shared s) -> R (srv (w_shared s)) (srv (w_shared (snd (m s)))) /\ rely R (w_shared (snd (m s))).

Lemma wsteps_ret {A} (a : A) : wsteps (mret a).
Proof. intros s Hs. by split. Qed.

Lemma wsteps_bind {A B} (m : W A) (k : A -> W B) : wsteps m -> (forall a, wsteps (k a)) -> wsteps (m ≫= k).
Proof.
  intros Hm Hk s Hs. unfold mbind, w_bind. destruct (Hm s Hs) as [R1 D1]. destruct (m s) as [a s1]. cbn in *.
  destruct (Hk a s1 D1) as [R2 D2]. split; [by etrans|done].
Qed.

Lemma wsteps_tab {A} (f : sessionTable -> A * sessionTable) : wsteps (tab f).
Proof. intros s Hs. unfold tab. by destruct (f _). Qed.

Lemma wsteps_tab_do f : wsteps (tab_do f).
Proof. apply wsteps_tab. Qed.

Lemma wsteps_server {A} (p : Proc A) : steps R p -> wsteps (to_server p).
Proof. intros Hp s Hs. unfold to_server. destruct (Hp _ Hs). by destruct (p _). Qed.

(** What only looks. *)
Lemma steps_look {A} (f : Server -> A) : steps R (atom (fun x => (f x, x))).
Proof. by apply steps_atom. Qed.

Lemma steps_look_get {A} (q : DB -> A) : steps R (store_get q).
Proof. apply steps_look. Qed.

Lemma steps_look_now : steps R now_.
Proof. apply steps_look. Qed.

Lemma steps_look_online : steps R nodes_online.
Proof. apply steps_atom; [done|]. by intros []. Qed.

Lemma steps_look_sysop `{UnicodeTables} `{Crypto} `{MailParser} `{BBS} id : steps R (Sysop id).
Proof. apply steps_bind; [done|apply steps_look_get|intros; by apply steps_ret]. Qed.
End logic.

Create HintDb looks discriminated.
#[export] Hint Resolve @wsteps_tab @wsteps_tab_do @steps_look @steps_look_get @steps_look_now @steps_look_online @steps_look_sysop : looks.

(** The rules follow the handler; [op] proves what it calls of the server. *)
Ltac serve op :=
  repeat lazymatch goal with
  | |- forall _, _ => intros ?; cbv beta
  | |- wsteps _ (mret _) => apply wsteps_ret; exact _
  | |- wsteps _ (_ ≫= _) => apply wsteps_bind; [exact _| |]
  | |- wsteps _ (match ?x with _ => _ end) => destruct x
  | |- wsteps _ (to_server _) => apply wsteps_server; first [solve [eauto 2 with looks nocore typeclass_instances] | op]
  | |- wsteps _ _ => solve [eauto 2 with looks nocore typeclass_instances]
  end.

Section pages.
Context `{UnicodeTables} `{Crypto} `{MailParser} `{FoldTables} `{BBS} `{NetAddr} `{WebWorld}.
Context (R : Server -> Server -> Prop) `{!PreOrder R}.
#[local] Abbreviation wsteps := (wsteps R).

Lemma wsteps_done q to msg : wsteps (done q to msg).
Proof. unfold done. serve fail. Qed.

Lemma wsteps_failed q to e : wsteps (failed q to e).
Proof. apply wsteps_done. Qed.

Lemma wsteps_render q name title nav d : wsteps (render_page q name title nav d).
Proof. unfold render_page. serve fail. Qed.

Lemma wsteps_handles : wsteps web_handles.
Proof. unfold web_handles. serve fail. Qed.
Hint Resolve wsteps_done wsteps_failed wsteps_render wsteps_handles : looks.
End pages.
#[export] Hint Resolve wsteps_done wsteps_failed wsteps_render wsteps_handles : looks.

(** ** Pages only look *)

Section looks.
Context `{UnicodeTables} `{Crypto} `{MailParser} `{FoldTables} `{BBS} `{NetAddr} `{WebWorld}.
Context (R : Server -> Server -> Prop) `{!PreOrder R}.

Lemma loginPage_looks r : wsteps R (loginPage r).
Proof. unfold loginPage. serve fail. Qed.

(** The handlers of GET, and the POST that touches only the table. *)
Lemma page_looks q id : wsteps R (dashboard q) /\ wsteps R (callers q) /\ wsteps R (web_users q) /\ wsteps R (web_user q id)
  /\ wsteps R (web_events q) /\ wsteps R (web_boards q) /\ wsteps R (web_board q id) /\ wsteps R (web_news q) /\ wsteps R (web_oneliners q)
  /\ wsteps R (art q) /\ wsteps R (artPreview q id) /\ wsteps R (logout q).
Proof.
  unfold dashboard, callers, web_users, web_user, web_events, web_boards, web_board, web_news, web_oneliners, art, artPreview, logout.
  split_and!; serve fail.
Qed.
End looks.

(** ** Signed in *)

Section signed.
Context `{UnicodeTables} `{Crypto} `{MailParser} `{FoldTables} `{BBS} `{NetAddr} `{WebWorld}.

(** The server, or the table, when a request first looks at it. *)
Definition server_at (sh : Shared) : Server := match others sh with [] => srv sh | g :: _ => g (srv sh) end.
Definition table_at (s : WSt) : sessionTable := match w_between s with [] => w_tab s | g :: _ => g (w_tab s) end.

(** The live session that the cookie of a request names. *)
Definition presented (s : WSt) (r : http_request) : option websession :=
  c ← rq_cookie r; snd <$> fst (get_session c (sv_now (server_at (w_shared s))) (table_at s)).

(** A form that the session sent from a page of this site. *)
Definition signed_form (sess : websession) (r : http_request) : Prop :=
  is_post r = true /\ sameOrigin r = true /\ form_value r (str "csrf") = ws_csrf sess.

(** The account of the session, as it is while the request is answered, may use the web. *)
Definition admitted (R : Server -> Server -> Prop) (s : WSt) (r : http_request) (sess : websession) (u : UserRow) : Prop :=
  presented s r = Some sess
  /\ exists x, R (srv (w_shared s)) x /\ UserByID (ws_user sess) (sv_db x) = Ok u /\ u_sysop u = true /\ u_locked u = false.

Context (R : Server -> Server -> Prop) `{!PreOrder R}.

Lemma atom_run {A} (f : Server -> A * Server) sh :
  atom f sh = (fst (f (server_at sh)), MkShared (snd (f (server_at sh))) (tail (others sh))).
Proof. unfold atom, server_at. destruct (others sh); by destruct (f _). Qed.

Lemma rely_at sh : rely R sh -> R (srv sh) (server_at sh) /\ rely R (MkShared (server_at sh) (tail (others sh))).
Proof.
  unfold rely, server_at. destruct (others sh) as [|g gs]; [done|]. intros [Hg Hgs]%Forall_cons. by split; [apply Hg|].
Qed.

Lemma Sysop_run id sh :
  Sysop id sh = (u ← UserByID id (sv_db (server_at sh)); if negb (u_sysop u) || u_locked u then Err ErrForbidden else Ok u,
                 MkShared (server_at sh) (tail (others sh))).
Proof. unfold Sysop, mbind, proc_bind, store_get. by rewrite atom_run. Qed.

(** Whatever the handler does to the server, it does for an admitted account. *)
Lemma signedIn_steps s r fn :
  rely R (w_shared s) ->
  let after := snd (signedIn fn r s) in
  R (srv (w_shared s)) (srv (w_shared after))
  \/ exists sess u q s', admitted R s r sess u /\ (is_post r = true -> signed_form sess r) /\ q_user q = u /\ q_r q = r
       /\ rely R (w_shared s') /\ R (srv (w_shared s)) (srv (w_shared s')) /\ after = snd (fn q s').
Proof.
  intros Hr after. assert (after = snd (signedIn fn r s)) as Ea by done. clearbody after. unfold signedIn in Ea.
  unfold admitted, presented. destruct (rq_cookie r) as [c|]; [|by left; subst].
  destruct s as [t bt sh]. cbn [w_shared] in *. destruct (rely_at sh Hr) as [R1 D1].
  unfold mbind at 1, w_bind at 1, to_server at 1 in Ea. cbn [w_shared w_tab w_between] in Ea. unfold now_ in Ea. rewrite atom_run in Ea. cbn [fst snd] in Ea.
  unfold mbind at 1, w_bind at 1, tab in Ea. cbn [w_shared w_tab w_between] in Ea.
  change (match bt with [] => t | g :: _ => g t end) with (table_at (MkW t bt sh)) in Ea.
  destruct (get_session c (sv_now (server_at sh)) (table_at (MkW t bt sh))) as [[[p sess]|] t1] eqn:E; [|by left; subst].
  set (sh1 := MkShared (server_at sh) (tail (others sh))) in *. destruct (rely_at sh1 D1) as [R2 D2].
  unfold mbind at 1, w_bind at 1, to_server at 1 in Ea. cbn [w_shared w_tab w_between] in Ea. rewrite Sysop_run in Ea.
  set (sh2 := MkShared (server_at sh1) (tail (others sh1))) in *. assert (R (srv sh) (srv sh2)) as Hx by (by etrans).
  destruct (UserByID (ws_user sess) (sv_db (server_at sh1))) as [u|e] eqn:Eu; cbn [mbind result_bind] in Ea; [|by left; subst].
  destruct (u_sysop u) eqn:Es; [|by left; subst]. destruct (u_locked u) eqn:El; [by left; subst|]. cbn [negb orb] in Ea.
  destruct (is_post r && bool_decide (rq_form r = None)); [by left; subst|].
  destruct (is_post r && _) eqn:Eg; [by left; subst|]. right.
  exists sess, u, (MkRequest r p (ws_csrf sess) u (clientIP r)), (MkW t1 (tail bt) sh2).
  split_and!; [cbn; by rewrite E|by exists (server_at sh1); split_and!| |done..].
  intros Ep. rewrite Ep in Eg. cbn in Eg. apply orb_false_iff in Eg as [Eo%negb_false_iff Et%negb_false_iff]. by apply bool_decide_eq_true in Et.
Qed.

Lemma signedIn_looks r fn : (forall q, wsteps R (fn q)) -> wsteps R (signedIn fn r).
Proof. intros Hf. unfold signedIn. serve ltac:(fail). all: try apply Hf. Qed.

Lemma signedIn_form s r fn : rely R (w_shared s) -> is_post r = true ->
  R (srv (w_shared s)) (srv (w_shared (snd (signedIn fn r s)))) \/ exists sess u, admitted R s r sess u /\ signed_form sess r.
Proof.
  intros Hr Hp. destruct (signedIn_steps s r fn Hr) as [|(sess & u & q & s' & Ha & Hf & _)]; [by left|]. right. exists sess, u. split; [done|by apply Hf].
Qed.
End signed.

(** ** The operations of the forms *)

Section forms.
Context `{UnicodeTables} `{Crypto} `{MailParser} `{FoldTables} `{BBS} `{NetAddr} `{WebWorld}.
Context (id : Z) (R : Server -> Server -> Prop) `{!ServerRel (acts (Some id)) R}.

Lemma web_acts actor ip r : u_id actor = id -> steps R (web_do actor ip r).
Proof using All.
  intros Hid. assert (ours (Some id) (u_id actor)) by done.
  destruct r; cbn [web_do]; unfold ApproveUser, web_SetLocked, web_SetSysop, web_ResetPassword, web_DeleteUser, SendMail, web_CreateBoard,
    web_DeleteBoard, web_DeletePost, web_AddBulletin, web_DeleteBulletin, web_DeleteOneliner, Broadcast; walk.
Qed.

Lemma kick_acts actor ip n : steps R (KickNode actor ip n).
Proof using All. unfold KickNode. walk. Qed.

Lemma login_acts handle password ip ipKey : steps R (SysopLogin handle password ip ipKey).
Proof using All. unfold SysopLogin. walk. Qed.

(** Each form's operation, as a [web_request]. *)
Ltac web_op :=
  match goal with
  | |- steps _ (ApproveUser ?a ?ip ?i) => apply (web_acts a ip (WApprove i))
  | |- steps _ (web_SetLocked ?a ?ip ?i ?b) => apply (web_acts a ip (WLock i b))
  | |- steps _ (web_SetSysop ?a ?ip ?i ?b) => apply (web_acts a ip (WSysop i b))
  | |- steps _ (web_ResetPassword ?a ?ip ?i ?p) => apply (web_acts a ip (WReset i p))
  | |- steps _ (web_DeleteUser ?a ?ip ?i) => apply (web_acts a ip (WDelete i))
  | |- steps _ (SendMail ?a ?ip ?i ?x ?y) => apply (web_acts a ip (WMail i x y))
  | |- steps _ (web_CreateBoard ?a ?ip ?n ?d ?o) => apply (web_acts a ip (WBoard n d o))
  | |- steps _ (web_DeleteBoard ?a ?ip ?i) => apply (web_acts a ip (WDropBoard i))
  | |- steps _ (web_DeletePost ?a ?ip ?n ?p) => apply (web_acts a ip (WDropPost n p))
  | |- steps _ (web_AddBulletin ?a ?ip ?t ?b) => apply (web_acts a ip (WNews t b))
  | |- steps _ (web_DeleteBulletin ?a ?ip ?b) => apply (web_acts a ip (WDropNews b))
  | |- steps _ (web_DeleteOneliner ?a ?ip ?o) => apply (web_acts a ip (WDropLine o))
  | |- steps _ (Broadcast ?a ?ip ?t) => apply (web_acts a ip (WBroadcast t))
  | |- steps _ (KickNode _ _ _) => apply kick_acts
  end; assumption.

Lemma forms_act q a b : u_id (q_user q) = id ->
  wsteps R (web_kick q) /\ wsteps R (web_broadcast q) /\ wsteps R (userAction q a b) /\ wsteps R (createBoard q) /\ wsteps R (web_deleteBoard q a)
  /\ wsteps R (web_deletePost q a b) /\ wsteps R (addNews q) /\ wsteps R (deleteNews q a) /\ wsteps R (deleteOneliner q a).
Proof using All.
  intros Hid. pose proof (sr_preorder (P := acts (Some id)) (R := R)) as HR.
  unfold web_kick, web_broadcast, userAction, createBoard, web_deleteBoard, web_deletePost, addNews, deleteNews, deleteOneliner, action_do, after_op.
  split_and!; serve ltac:(repeat match goal with |- steps _ (match ?x with _ => _ end) => destruct x end; web_op).
Qed.
End forms.

(** * Theorems *)

Section theorems.
Context `{UnicodeTables} `{Crypto} `{MailParser} `{FoldTables} `{BBS} `{NetAddr} `{WebWorld}.

(** The login form, the one that needs no session. *)
Definition login_form (r : http_request) : Prop := path_route (rq_path r) = Some RLogin /\ is_post r = true.

(** A handler of the routes, as [ServeHTTP] picks it. *)
Lemma served (P : W response -> Prop) (r : http_request) :
  (forall n t, P (mret (plain (HttpError n t)))) ->
  (forall rt h, path_route (rq_path r) = Some rt -> fst (handlers rt) = Some h -> P (h r)) ->
  (forall rt h, path_route (rq_path r) = Some rt -> is_post r = true -> snd (handlers rt) = Some h -> P (h r)) ->
  P (ServeHTTP r).
Proof.
  intros Hp Hg Hs. unfold ServeHTTP. destruct (path_route (rq_path r)) as [rt|] eqn:E; [|apply Hp].
  specialize (Hg rt). specialize (Hs rt). destruct (handlers rt) as [g p]. cbn [fst snd] in *.
  destruct (_ || _); [destruct g; [by apply Hg|apply Hp]|]. destruct (is_post r); [|apply Hp]. destruct p; [by apply Hs|apply Hp].
Qed.

Lemma on_get_looks (R : Server -> Server -> Prop) `{!PreOrder R} rt h r : fst (handlers rt) = Some h -> wsteps R (h r).
Proof.
  intros Hh. destruct rt; cbn in Hh; first [discriminate Hh | injection Hh as <-].
  1: by apply wsteps_ret. 1: by apply loginPage_looks.
  all: apply signedIn_looks; [exact _|]; intros q; pose proof (page_looks R q) as Hq.
  all: match goal with x : bytes |- _ => specialize (Hq x) | _ => specialize (Hq []) end.
  all: decompose [and] Hq; match goal with Hi : ?g |- ?g => exact Hi end.
Qed.

(** The handlers of POST are the login form's or those of a signed-in form. *)
Lemma on_post_cases rt h r : snd (handlers rt) = Some h -> (rt = RLogin /\ h r = loginSubmit r) \/ exists fn, h r = signedIn fn r
  /\ forall id (R : Server -> Server -> Prop), ServerRel (acts (Some id)) R -> forall q, u_id (q_user q) = id -> wsteps R (fn q).
Proof.
  intros Hh. destruct rt; cbn in Hh; first [discriminate Hh | injection Hh as <-]; [by left|..]; right; (eexists; split; [reflexivity|]); intros who R HR q Hq.
  all: pose proof (fun a b => forms_act who R q a b Hq) as Hf; pose proof (page_looks R q []) as Hl.
  all: match goal with x : bytes, y : bytes |- _ => specialize (Hf x y) | x : bytes |- _ => specialize (Hf x []) | _ => specialize (Hf [] []) end.
  all: decompose [and] Hl; decompose [and] Hf; match goal with Hi : ?g |- ?g => exact Hi end.
Qed.

(** C20: Changing anything takes a signed form: whatever the request and whatever other goroutines do meanwhile, a request other
    than the login form moves the server only by what the others do, unless its cookie names a live session, of an account
    that is an unlocked sysop while the request is answered, and it is a POST from this site with the form token of
    that session. *)
Theorem web_needs_signed_form (R : Server -> Server -> Prop) (r : http_request) (s : WSt) :
  PreOrder R -> rely R (w_shared s) -> ~ login_form r ->
  R (srv (w_shared s)) (srv (w_shared (snd (ServeHTTP r s)))) \/ exists sess u, admitted R s r sess u /\ signed_form sess r.
Proof.
  intros HR Hs Hl. apply (served (fun m => R _ (srv (w_shared (snd (m s)))) \/ _)); [by left| |].
  - intros rt h _ Hh. left. by apply (on_get_looks R rt h r).
  - intros rt h Ert Hp Hh. destruct (on_post_cases rt h r Hh) as [[-> _]|(fn & -> & _)]; [by destruct Hl|]. by apply signedIn_form.
Qed.

Lemma login_submit_acts id (R : Server -> Server -> Prop) `{!ServerRel (acts (Some id)) R} r : wsteps R (loginSubmit r).
Proof.
  pose proof (sr_preorder (P := acts (Some id)) (R := R)) as HR. unfold loginSubmit.
  serve ltac:(first [apply (login_acts id); exact _ | apply (steps_fresh (acts (Some id))); exact _]).
Qed.

(** C21: A web session acts only for its account: whatever the request, every change of the database is an operation in the
    name of the account whose session the cookie presents, an entry of the event log, a count of a limiter, or a step of another
    goroutine; without a session, only the last three. *)
Theorem web_acts_for_its_account (E : DB -> DB -> Prop) (id : Z) (r : http_request) (s : WSt) :
  (forall sess, presented s r = Some sess -> ws_user sess = id) -> rely (as_ (Some id) E) (w_shared s) ->
  rtc (fun a b => acts (Some id) a b \/ E a b) (sv_db (srv (w_shared s))) (sv_db (srv (w_shared (snd (ServeHTTP r s))))).
Proof.
  intros Hid Hs. change (as_ (Some id) E (srv (w_shared s)) (srv (w_shared (snd (ServeHTTP r s))))).
  assert (PreOrder (as_ (Some id) E)) as HR by exact (sr_preorder (P := acts (Some id))).
  apply (served (fun m => as_ (Some id) E _ (srv (w_shared (snd (m s)))))); [done| |].
  - intros rt h _ Hh. exact (proj1 (on_get_looks (as_ (Some id) E) rt h r Hh s Hs)).
  - intros rt h Ert Hp Hh. destruct (on_post_cases rt h r Hh) as [[-> Eh]|(fn & -> & Hfn)].
    + rewrite Eh. exact (proj1 (login_submit_acts id (as_ (Some id) E) r s Hs)).
    + destruct (signedIn_steps _ s r fn Hs) as [|(sess & u & q & s' & Ha & _ & Eq & _ & D & R1 & ->)]; [done|].
      etrans; [exact R1|]. refine (proj1 (Hfn id (as_ (Some id) E) _ q _ s' D)).
      destruct Ha as [Hp1 (x & _ & Hu & _)]. rewrite <-(Hid sess Hp1), Eq. by eapply user_id_of.
Qed.
End theorems.

(** ** Redirects *)

Section redirects.
Context `{UnicodeTables} `{Crypto} `{MailParser} `{FoldTables} `{BBS} `{NetAddr} `{WebWorld}.

(** A path of this site: not the [//host] of a network-path reference. *)
Definition local_path (to : bytes) : Prop := has_prefix to (str "/") = true /\ has_prefix to (str "//") = false.

Definition stays_here (m : W response) : Prop := forall s to, rs_content (fst (m s)) = Redirect to -> local_path to.

Lemma stays_ret x : (forall to, rs_content x = Redirect to -> local_path to) -> stays_here (mret x).
Proof. intros Hx s to Ht. by apply Hx. Qed.

Lemma stays_bind {A} (m : W A) (k : A -> W response) : (forall a, stays_here (k a)) -> stays_here (m ≫= k).
Proof. intros Hk s to. unfold mbind, w_bind. destruct (m s) as [a s']. apply Hk. Qed.

Lemma stays_write n p to : rs_content (write n p) = Redirect to -> local_path to.
Proof. unfold write. by case_bool_decide. Qed.

Lemma stays_done q to msg : stays_here (done q to msg).
Proof.
  unfold done. apply stays_bind. intros _. apply stays_ret. intros t.
  destruct (has_prefix to (str "/")) eqn:E1, (has_prefix to (str "//")) eqn:E2; cbn [negb orb plain rs_content]; intros [= <-]; by split.
Qed.

Lemma stays_failed q to e : stays_here (failed q to e).
Proof. apply stays_done. Qed.

Lemma stays_render q name title nav d : stays_here (render_page q name title nav d).
Proof. unfold render_page. repeat (apply stays_bind; intros ?). apply stays_ret, stays_write. Qed.

Ltac stay :=
  repeat lazymatch goal with
  | |- forall _, _ => intros ?; cbv beta
  | |- stays_here (_ ≫= _) => apply stays_bind
  | |- stays_here (done _ _ _) => apply stays_done
  | |- stays_here (failed _ _ _) => apply stays_failed
  | |- stays_here (render_page _ _ _ _ _) => apply stays_render
  | |- stays_here (match ?x with _ => _ end) => destruct x
  | |- stays_here (mret (match ?x with _ => _ end)) => destruct x
  | |- stays_here (mret _) => apply stays_ret; first [solve [apply stays_write] | cbn; intros ? [=]; subst; done]
  end.

Lemma stays_signed r fn : (forall q, stays_here (fn q)) -> stays_here (signedIn fn r).
Proof. intros Hf. unfold signedIn. stay. all: apply Hf. Qed.

(** No open redirect: every redirect of the web interface, also one to a path that a form names, goes to a path of this site,
    whatever the request and the state. *)
Theorem redirects_stay_home (r : http_request) (s : WSt) (to : bytes) :
  rs_content (fst (ServeHTTP r s)) = Redirect to -> local_path to.
Proof.
  revert s to. change (stays_here (ServeHTTP r)). apply served; [intros n t; stay|intros rt h _ Hh|intros rt h _ _ Hh].
  all: destruct rt; cbn in Hh; first [discriminate Hh | injection Hh as <-].
  1: by apply stays_ret. 1: unfold loginPage, render_login; by stay. 12: unfold loginSubmit, render_login; by stay.
  all: apply stays_signed; intros q.
  all: unfold dashboard, web_kick, web_broadcast, callers, web_users, web_user, userAction, web_events, web_boards, createBoard, web_board, web_deleteBoard,
    web_deletePost, web_news, addNews, deleteNews, web_oneliners, deleteOneliner, art, artPreview, logout, after_op; stay.
Qed.
End redirects.

(** ** A concrete sysop *)

#[export] Program Instance demo_web : WebWorld := {
  rand_token := fun n => [n; 7; 7]; table_range := fun m => map_to_list m; split_host := fun s => Some s; is_loopback := fun _ => true;
  url_host := fun o => Some (drop 8 o) }.
Next Obligation. done. Qed.

Definition demo_form (fields : list (bytes * bytes)) : bytes -> bytes := fun name => default [] (snd <$> List.find (fun f => bool_decide (fst f = name)) fields).

Definition demo_request (method : bytes) (path : list bytes) (cookie : option bytes) (fields : list (bytes * bytes)) : http_request :=
  MkReq method path (fun _ => []) (Some (demo_form fields)) cookie (str "https://bbs.example") [] (str "bbs.example") [] (str "::1").

Definition demo_state : WSt := MkW newSessionTable [] (MkShared demo_server []).
Definition demo_token (n : Z) : bytes := b64_encode [n; 7; 7].

(** Alice signs in. *)
Definition demo_signed_in : WSt :=
  snd (ServeHTTP (demo_request (str "POST") [str "login"] None [(str "handle", str "alice"); (str "password", demo_password)]) demo_state).

Definition demo_create (csrf : bytes) : http_request :=
  demo_request (str "POST") [str "boards"] (Some (demo_token 0)) [(str "csrf", csrf); (str "name", str "Rocq"); (str "description", str "Proofs")].

Definition board_names (s : WSt) : list bytes := b_name <$> boards (sv_db (srv (w_shared s))).

(** She creates a board; without the token of her session, nothing happens. *)
Example demo_web_works :
  let good := ServeHTTP (demo_create (demo_token 1)) demo_signed_in in
  let bad := ServeHTTP (demo_create (demo_token 2)) demo_signed_in in
  rs_content (fst good) = Redirect (str "/boards") /\ board_names (snd good) = board_names demo_state ++ [str "Rocq"]
  /\ rs_content (fst bad) = HttpError 403 (str "This form has expired. Go back, reload the page and try again.") /\ board_names (snd bad) = board_names demo_state.
Proof. vm_compute. done. Qed.

Lemma demo_alone R : rely R (w_shared demo_signed_in).
Proof. unfold rely. assert (others (w_shared demo_signed_in) = []) as -> by (vm_compute; reflexivity). by apply Forall_nil. Qed.

Lemma web_needs_signed_form_witness :
  srv (w_shared (snd (ServeHTTP (demo_create (demo_token 2)) demo_signed_in))) = srv (w_shared demo_signed_in).
Proof.
  destruct (web_needs_signed_form (fun x y => y = x) (demo_create (demo_token 2)) demo_signed_in) as [Hs|(sess & u & (Hp & _) & _ & _ & Ht)].
  - split; [by intros x|intros x y z; congruence].
  - apply demo_alone.
  - intros [Hl _]. vm_compute in Hl. discriminate Hl.
  - exact Hs.
  - vm_compute in Hp. injection Hp as <-. vm_compute in Ht. discriminate Ht.
Defined.

Lemma web_acts_for_its_account_witness :
  rtc (fun a b => acts (Some 1) a b \/ a = b) (sv_db (srv (w_shared demo_signed_in)))
    (sv_db (srv (w_shared (snd (ServeHTTP (demo_create (demo_token 1)) demo_signed_in))))).
Proof.
  apply (web_acts_for_its_account eq 1).
  - intros sess Hp. vm_compute in Hp. by injection Hp as <-.
  - apply demo_alone.
Defined.

Lemma redirects_stay_home_witness : local_path (str "/boards").
Proof. apply (redirects_stay_home (demo_create (demo_token 1)) demo_signed_in). vm_compute. reflexivity. Defined.

Lemma web_session_lifetime_witness :
  let ops := [(0, OCreate 1 (str "cookie") (str "token")); (10, OGet (str "cookie"))] in
  let late := 10 + idleTimeout in
  ideal_get (str "cookie") late (foldl ideal_do ∅ ops) = Some (MkWebSession 1 (str "token") [] 0 late)
  /\ exists s, ideal_get (str "cookie") late (foldl ideal_do ∅ ops) = Some s /\ ws_user s = 1.
Proof.
  cbn zeta. split; [vm_compute; reflexivity|].
  destruct (web_session_lifetime 0 (10 + idleTimeout) [(0, OCreate 1 (str "cookie") (str "token")); (10, OGet (str "cookie"))] (str "cookie")) as (_ & Hs & _).
  - vm_compute. by split_and!.
  - destruct (Hs 0%nat (MkWebSession 1 (str "token") [] 0 (10 + idleTimeout))) as (s' & E & Hsame); [vm_compute; reflexivity|].
    exists s'. split; [exact E|]. symmetry. apply Hsame.
Defined.
